(* ===== verification/_CoqProject ===== *)
-Q . S2P
Prelude.v
Layout.v
Machine.v
Memory.v
Kernel.v
Demo.v
Spinlock.v
Kalloc.v
Vm.v
PageTable.v
UvmGrow.v
UserCopy.v
Malloc.v
RcuList.v
Rcu.v
FsState.v
Block.v
Sleeplock.v
Bio.v
BioLogic.v
Log.v
LogCrash.v
LogOps.v
Fs.v
FsLogic.v
FsAlloc.v
FsInode.v
FsRead.v
FsFile.v
FsWrite.v
FsVolume.v
FsDir.v
FsPath.v
Ring.v
Pipe.v
File.v
Sysfile.v
FileLogic.v
FileWrite.v
Proc.v
ProcLogic.v
Grep.v
Console.v
ConsoleLogic.v
Printf.v
Virtio.v
VirtioLogic.v
VirtioBio.v
Trap.v
TrapLogic.v
Asm.v
Exec.v
ExecLogic.v
Sh.v
ShPrint.v
User.v
Ulib.v
Utils.v
Procdump.v
UtilsLogic.v
ShRun.v
Umalloc.v
Grind.v
Boot.v
UserCode.v
UtFiles.v
UtProc.v
UtMem.v
Usertests.v
