(* ===== verification/Prelude.v ===== *)
(** * Verification of xv6-riscv-rcu

    xv6 for RISC-V whose process table has become a linked list read under RCU
    (read-copy-update).  This library models the kernel ([src/kernel]) and the
    user programs ([src/user]) as Rocq functions and proves what makes them
    correct.  This file holds what all the others share.

    ** The program and its parts

    A hart enters at [_entry] (entry.S), prepares machine mode in [start]
    (start.c) and continues in [main] (main.c), which initialises the kernel and
    enters the scheduler.  Processes live in an RCU list (list_proc.c, proc.c)
    whose nodes come from a small allocator (kmalloc.c) over the page allocator
    (kalloc.c); their memory is mapped by vm.c.  Traps (trampoline.S,
    kernelvec.S, trap.c, plic.c) lead to system calls (syscall.c, sysproc.c,
    sysfile.c, exec.c) and to the drivers (uart.c, console.c, virtio_disk.c).
    The file system is a stack: buffer cache (bio.c), log (log.c), inodes and
    directories (fs.c), open files and pipes (file.c, pipe.c).  User programs
    use it through system calls and a library (ulib.c, printf.c, umalloc.c).

    ** How code becomes definitions

    - Integers are [Z] with the wrap-around of their width written out ([u32],
      [u64], [i32]).  The exceptions are counters that the code changes by one
      and never checks: the nesting depth [noff] of a hart, the reference
      counts of buffers, inodes and files, the outstanding operations of the
      log.  They are unbounded here; in C they overflow after 2^31 or 2^32
      calls.  The kernel's memory is a map from addresses to bytes;
      structures that the code reaches through pointers are read and written at
      their offsets in it.
    - Stateful code is in the monad [M S]: a function from a state to a value and
      a state, or to an error ([EPanic] for [panic], [EFault] for an access
      outside memory, [ESpin] for a spin that nobody would end, [EFuel] for a loop
      that was not given enough steps).  [wp m Q s] says that [m] returns from [s]
      with a result and a state that satisfy [Q]: a panic, a fault or a loop that
      does not end does not satisfy it, so the theorems are about total
      correctness.
    - A component that works on a part of a larger state is lifted with a lens
      ([zoom]).
    - Code that runs interleaved with other harts is a step function on program
      counters ([Spinlock], [Rcu], [Boot]); the theorems quantify over schedules.
      Elsewhere one hart runs, and the others stand still while it does.
      While a process sleeps the rest of the system acts: that is the parameter
      [env] of the class [World], with what a theorem needs of it as hypothesis.
    - A user program is a tree of system calls ([User.prog]).

    ** The files

    Foundations.
    - [Prelude]: machine integers, the monad, [wp] and its rules, lenses, loops.
    - [Layout]: param.h, memlayout.h, the page and PTE macros of riscv.h.
    - [Machine]: harts, interrupts and spin locks run by one hart (spinlock.c,
      proc.h).
    - [Memory]: byte memory and string.c.
    - [Kernel]: the state [kst] of the process side and where the linker put its
      variables (class [Image]).  [Demo]: concrete values for witnesses.

    Memory.
    - [Kalloc] (kalloc.c): the free list; [kalloc] takes a free page, [kinit]
      frees all of them.
    - [Vm] (vm.c) holds every function; [PageTable] proves what [walk],
      [mappages] and [uvmunmap] do to the tree of tables; [UvmGrow] composes
      them with the free list: [uvmalloc] and [uvmcopy] give every page or
      undo what they did; [UserCopy] proves [copyout] and [copyin] byte by
      byte.
    - [Malloc] (kmalloc.c): the allocator written once against a memory
      interface, its use by the kernel and what is wrong with it; [Umalloc]
      (umalloc.c): the same code over user memory, proved to be an allocator.

    Concurrency.
    - [Spinlock]: [acquire] and [release] memory access by memory access on all
      harts; mutual exclusion, agreement with the sequential version.
    - [RcuList] (list_proc.c): the list operations refine operations on a list of
      processes.  [Rcu]: [synchronize_rcu] against readers on other harts that run
      [rcu_read_lock], [rcu_read_unlock] and traversals.  A grace period ends
      every read section that was open and has kept the rules (its hart shows no
      [idle] flag, does not switch contexts and follows only pointers fetched in
      the section), so no such section holds a freed node; the writers of
      [RcuList] are runs of that system.  The scheduler, and the loops that leave
      the section at every node, break the rules, and two theorems show how they
      lose their node.
    - [Proc], [ProcLogic] (proc.c): every function over the byte memory, and
      theorems about its mistakes.  [Procdump]: what the listings of processes
      print.  A message printed anywhere else is [Kernel.klog]: its text is left
      out, its effect on the hart, taking and releasing the lock of [printf], is
      not.

    File system.
    - [FsState]: its state and the class [World].  [Block]: bytes in a block.
      [Sleeplock] (sleeplock.c).
    - [Bio] (bio.c), with [BioLogic] for its clients: reading and writing through
      the cache refines reading and writing blocks.
    - [Log] (log.c); [LogCrash]: a crash at any write leaves, after recovery, the
      disk before or after the transaction; [LogOps]: transactions.
    - [Fs] (fs.c) holds every function.  [FsLogic]: rules for code inside a
      transaction.  [FsAlloc], [FsInode], [FsRead], [FsPath]: the block allocator,
      the inode table and its disk image, reading files, splitting paths.
      [FsFile]: well-formed files and what it means for one to grow.  [FsWrite]:
      [bmap] and [writei], what is written is read back.  [FsVolume]: a write keeps
      the free map equal to the blocks of the files and all other files as they
      are.  [FsDir]: [dirlookup] finds names, [dirlink] adds one.
    - [Ring], [Pipe] (pipe.c): a pipe is a bounded queue, and a write to it is a
      run of a machine that puts a byte or, when the queue is full, wakes the
      readers and waits.  [File] (file.c),
      [Sysfile] (sysfile.c, the arguments of syscall.c), [FileLogic];
      [FileWrite]: a piece of [filewrite] fits what [begin_op] reserved.

    Traps, drivers, programs.
    - [Console], [ConsoleLogic] (console.c, uart.c): a line editor.  [Printf]
      (both printf.c).  [Virtio], [VirtioLogic] (virtio_disk.c, virtio.h): requests
      reach the device well-formed and their descriptors come back.  [VirtioBio]:
      such a request, performed, is the transfer the buffer cache asks for.
    - [Asm]: an interpreter for the instructions of trampoline.S, kernelvec.S,
      swtch.S and entry.S; saving and restoring are inverse.  [Trap], [TrapLogic]
      (trap.c, syscall.c, sysproc.c, plic.c): a whole system call, an interrupt of
      the kernel.  [Boot] (start.c, main.c): from reset to [main], timer
      interrupts, the order of initialisation on several harts.
    - [UserCode] (usys.pl, initcode.S): the instructions of the stubs and of the
      first process, which calls [exec] on /init.
    - [Exec], [ExecLogic] (exec.c): loading a program; the stack it starts with.
    - [User], [Ulib], [Utils], [UtilsLogic] (printf.c, ulib.c, cat.c, echo.c, wc.c,
      kill.c, ln.c, mkdir.c, rm.c, ls.c, grep.c, init.c, zombie.c, forktest.c,
      stressfs.c): the programs, and what cat, wc and grep print.  [Grep]: its
      regular expressions.  [Grind] (grind.c): the stress test and its generator.
    - [UtFiles], [UtProc], [UtMem] (usertests.c): every test of files, processes
      and memory.  [Usertests]: the driver, its verdict and all of its output for
      every way the tests can end, and the verdict of the test [pipe1].
    - [Sh], [ShPrint], [ShRun] (sh.c): the parser ends on every line and reads back
      what a printer prints; a line is run with the descriptors its redirections
      and pipes ask for.

    ** Interfaces

    [Image] (addresses of the kernel's variables), [KRMem] (the memory under the
    allocator), [World] (other processes, the disk, devices), [UImage], [Linked],
    [Locals] and the classes of [Console], [Virtio] and [Trap] for their devices
    state what a component expects of its surroundings.  The file-system code is
    proved against the disk of [World], whose law [WorldOk] says that a transfer
    moves the block and does nothing else; [VirtioLogic] proves the driver
    against its device, and [VirtioBio] that the request it makes is that
    transfer.  What other threads do to the rest of the state while a process
    waits for the disk is not part of [World].  [Umalloc] takes the answers of
    [sbrk] from [UImage].  [swtch], which leaves one process and comes back much
    later, is a parameter of [Proc].

    ** Bounds and fuel

    Loops over a counter recurse on it.  A [while] loop runs under [loop] with a
    number of steps: [copy_fuel] and [rw_fuel] are computed from the length and
    more than the pages or blocks that many bytes can touch; list walks and the
    allocators take it as an argument, and their theorems ask for more steps than
    the list has nodes ([Umalloc.enough] from the size of the heap); the parser
    gets one step more than the line has bytes, which [parsecmd_strings] shows to
    be enough; [synchronize_rcu], which polls the other harts, gets what it sees
    of them at each step, and [SYNC_POLLS] steps in which they are idle are enough
    for it.  [patience] bounds how often one call sleeps.  A user program that
    reads in a loop gets the number of reads it may make, and theorems ask for
    more than its input needs.

    ** Not modelled

    ramdisk.c and slab.c (not part of the build, called by nothing); the text of
    the messages in proc.c, kmalloc.c and list_proc.c; the functions of riscv.h that access one
    control register, which are fields of the model's state; caches, TLBs and weak
    memory: harts interleave their accesses; the C compiler and the layout it
    chooses, beyond the offsets written in the definitions. *)
From stdpp Require Import base gmap strings numbers option list.
Open Scope Z_scope.

(** ** Machine integers

    A C integer is a [Z]; where the code's arithmetic can leave its range, the
    wrap-around is written out. *)

Definition u8 (z : Z) : Z := z mod 2 ^ 8.
Definition u16 (z : Z) : Z := z mod 2 ^ 16.
Definition u32 (z : Z) : Z := z mod 2 ^ 32.
Definition u64 (z : Z) : Z := z mod 2 ^ 64.
Definition i32 (z : Z) : Z := (z + 2 ^ 31) mod 2 ^ 32 - 2 ^ 31.

Lemma u8_range z : 0 <= u8 z < 256.
Proof. apply Z.mod_pos_bound. lia. Qed.

Lemma u32_range z : 0 <= u32 z < 2 ^ 32.
Proof. apply Z.mod_pos_bound. lia. Qed.

Lemma u64_range z : 0 <= u64 z < 2 ^ 64.
Proof. apply Z.mod_pos_bound. lia. Qed.

Lemma i32_range z : - 2 ^ 31 <= i32 z < 2 ^ 31.
Proof.
  unfold i32. pose proof (Z.mod_pos_bound (z + 2 ^ 31) (2 ^ 32)). lia.
Qed.

Lemma u8_small z : 0 <= z < 256 -> u8 z = z.
Proof. intros. apply Z.mod_small. lia. Qed.

Lemma u32_small z : 0 <= z < 2 ^ 32 -> u32 z = z.
Proof. intros. apply Z.mod_small. lia. Qed.

Lemma u64_small z : 0 <= z < 2 ^ 64 -> u64 z = z.
Proof. intros. apply Z.mod_small. lia. Qed.

Lemma i32_small z : - 2 ^ 31 <= z < 2 ^ 31 -> i32 z = z.
Proof. intros. unfold i32. rewrite Z.mod_small; lia. Qed.

(** ** Outcomes and the state monad

    Kernel code either returns, or stops in one of the ways C code on this
    machine can stop: [panic] was called, a loop spins on a condition nobody
    can change, an access hits an unmapped address, or (for loops given fuel)
    the fuel ran out. *)

Inductive err : Type :=
  | EPanic (msg : string)
  | ESpin
  | EFault (addr : Z)
  | EFuel.

Inductive outcome (S A : Type) : Type :=
  | Ret (a : A) (s : S)
  | Err (e : err) (s : S).
Arguments Ret {S A} a s.
Arguments Err {S A} e s.

Definition M (S A : Type) : Type := S -> outcome S A.

#[export] Instance M_ret S : MRet (M S) := fun A (a : A) s => Ret a s.
#[export] Instance M_bind S : MBind (M S) :=
  fun A B (f : A -> M S B) (m : M S A) s =>
    match m s with
    | Ret a s' => f a s'
    | Err e s' => Err e s'
    end.

Section ops.
Context {S : Type}.

Definition getS : M S S := fun s => Ret s s.
Definition gets {A} (f : S -> A) : M S A := fun s => Ret (f s) s.
Definition puts (s' : S) : M S unit := fun _ => Ret tt s'.
Definition modify (f : S -> S) : M S unit := fun s => Ret tt (f s).
Definition fail {A} (e : err) : M S A := fun s => Err e s.
Definition panic {A} (msg : string) : M S A := fail (EPanic msg).
Definition skip : M S unit := mret tt.

(** [for (x in l) body(x)], left to right. *)
Fixpoint forM {A} (l : list A) (body : A -> M S unit) : M S unit :=
  match l with
  | [] => mret tt
  | x :: l' => body x ;; forM l' body
  end.

(** [for (x in l) if ((r = body(x))) return r], [None] when no iteration
    returned. *)
Fixpoint for_find {A R} (l : list A) (body : A -> M S (option R))
  : M S (option R) :=
  match l with
  | [] => mret None
  | x :: l' =>
      r ← body x;
      match r with
      | Some y => mret (Some y)
      | None => for_find l' body
      end
  end.

(** A loop whose body says whether to go on ([inl], with the next loop
    variables) or to leave ([inr], with the result). *)
Fixpoint loop {A R} (fuel : nat) (body : A -> M S (A + R)) (a : A) : M S R :=
  match fuel with
  | O => fail EFuel
  | Datatypes.S fuel' =>
      r ← body a;
      match r with
      | inl a' => loop fuel' body a'
      | inr y => mret y
      end
  end.

(** ** Total-correctness weakest precondition: the code returns, and in a
    state that satisfies [Q]. *)
Definition wp {A} (m : M S A) (Q : A -> S -> Prop) (s : S) : Prop :=
  match m s with
  | Ret a s' => Q a s'
  | Err _ _ => False
  end.

Lemma wp_ret {A} (a : A) Q s : Q a s -> wp (mret a) Q s.
Proof. done. Qed.

Lemma wp_bind {A B} (m : M S A) (f : A -> M S B) Q s :
  wp m (fun a s' => wp (f a) Q s') s -> wp (m ≫= f) Q s.
Proof. unfold wp, mbind, M_bind. by destruct (m s). Qed.

Lemma wp_mono {A} (m : M S A) (P Q : A -> S -> Prop) s :
  (forall a s', P a s' -> Q a s') -> wp m P s -> wp m Q s.
Proof. unfold wp. destruct (m s); auto. Qed.

Lemma wp_conseq {A} (m : M S A) (P Q : A -> S -> Prop) s :
  wp m P s -> (forall a s', P a s' -> Q a s') -> wp m Q s.
Proof. eauto using wp_mono. Qed.

(** The same, knowing that the result is one of [m]. *)
Lemma wp_strong {A} (m : M S A) (P Q : A -> S -> Prop) s :
  wp m P s -> (forall a s', m s = Ret a s' -> P a s' -> Q a s') -> wp m Q s.
Proof. unfold wp. destruct (m s) as [a s'|]; [auto|done]. Qed.

Lemma wp_gets {A} (f : S -> A) Q s : Q (f s) s -> wp (gets f) Q s.
Proof. done. Qed.

Lemma wp_modify f Q s : Q tt (f s) -> wp (modify f) Q s.
Proof. done. Qed.

Lemma wp_skip Q s : Q tt s -> wp skip Q s.
Proof. done. Qed.

Lemma wp_eq {A} (m : M S A) a s' s Q :
  m s = Ret a s' -> Q a s' -> wp m Q s.
Proof. unfold wp. by intros ->. Qed.

Lemma wp_ret_eq {A} (m : M S A) s a s' :
  wp m (fun x t => x = a /\ t = s') s -> m s = Ret a s'.
Proof. unfold wp. destruct (m s); [|done]. by intros [-> ->]. Qed.

(** Symbolic execution by rewriting. *)
Lemma bind_ret {A B} (m : M S A) (f : A -> M S B) s a s' :
  m s = Ret a s' -> (m ≫= f) s = f a s'.
Proof. unfold mbind, M_bind. by intros ->. Qed.

Lemma bind_err {A B} (m : M S A) (f : A -> M S B) s e s' :
  m s = Err e s' -> (m ≫= f) s = Err e s'.
Proof. unfold mbind, M_bind. by intros ->. Qed.

Lemma bind_inv {A B} (m : M S A) (f : A -> M S B) s b s' :
  (m ≫= f) s = Ret b s' -> exists a s1, m s = Ret a s1 /\ f a s1 = Ret b s'.
Proof. unfold mbind, M_bind. destruct (m s) as [a s1|]; [|done]. by exists a, s1. Qed.

Lemma bind_assoc {A B C} (m : M S A) (f : A -> M S B) (g : B -> M S C) s :
  ((m ≫= f) ≫= g) s = (m ≫= (fun x => f x ≫= g)) s.
Proof. unfold mbind, M_bind. by destruct (m s). Qed.

Lemma wp_inv {A} (m : M S A) Q s :
  wp m Q s -> exists a s', m s = Ret a s' /\ Q a s'.
Proof. unfold wp. destruct (m s); naive_solver. Qed.

Lemma wp_forM {A} (l : list A) (body : A -> M S unit)
    (I : list A -> list A -> S -> Prop) s :
  (forall dn x td s', l = dn ++ x :: td -> I dn (x :: td) s' ->
     wp (body x) (fun _ s'' => I (dn ++ [x]) td s'') s') ->
  I [] l s -> wp (forM l body) (fun _ s' => I l [] s') s.
Proof.
  intros Hb. cut (forall td dn s, l = dn ++ td -> I dn td s ->
    wp (forM td body) (fun _ s' => I l [] s') s).
  { intros H HI. by apply (H l []). }
  clear s. intros td. induction td as [|x td IH]; intros dn s Hl HI; simpl.
  - apply wp_ret. rewrite app_nil_r in Hl. by subst.
  - apply wp_bind. eapply wp_conseq; [by eapply Hb|].
    intros u s' HI'. apply (IH (dn ++ [x])); [|done].
    by rewrite <- app_assoc.
Qed.

(** [for (i = 0; i < n; i++) body(i)] *)
Lemma wp_forZ (n : Z) (body : Z -> M S unit) (I : Z -> S -> Prop) s :
  (forall i s', 0 <= i < n -> I i s' -> wp (body i) (fun _ s'' => I (i + 1) s'') s') ->
  0 <= n -> I 0 s -> wp (forM (seqZ 0 n) body) (fun _ s' => I n s') s.
Proof.
  intros Hb Hn HI.
  eapply wp_conseq; [apply (wp_forM _ _ (fun dn _ s' => I (Z.of_nat (length dn)) s')); [|done]|].
  - intros dn x td s' Hl HI'. rewrite length_app, Nat2Z.inj_add.
    assert (seqZ 0 n !! length dn = Some x) as Hx by (rewrite Hl; by apply list_lookup_middle).
    apply lookup_seqZ in Hx as [-> Hlt]. simpl. by apply Hb; [lia|].
  - intros u s' HI'. simpl in HI'. by rewrite length_seqZ, Z2Nat.id in HI'.
Qed.

(** A search loop that returns at [x], and one that never returns. *)
Lemma wp_for_find_at {A R} (l1 : list A) x l2 (body : A -> M S (option R)) (I : S -> Prop)
    (Q : option R -> S -> Prop) s :
  (forall y s', y ∈ l1 -> I s' -> wp (body y) (fun r s'' => r = None /\ I s'') s') ->
  (forall s', I s' -> wp (body x) (fun r s'' => is_Some r /\ Q r s'') s') ->
  I s -> wp (for_find (l1 ++ x :: l2) body) Q s.
Proof.
  revert s. induction l1 as [|y l1 IH]; intros s H1 H2 HI; simpl; apply wp_bind.
  - eapply wp_conseq; [by apply H2|]. intros r s' [[v ->] HQ]. by apply wp_ret.
  - eapply wp_conseq; [apply H1; [apply list_elem_of_here|done]|]. intros r s' [-> HI'].
    apply IH; [|done|done]. intros z t Hz. apply H1. by apply list_elem_of_further.
Qed.

Lemma wp_for_find_none {A R} (l : list A) (body : A -> M S (option R)) (I : S -> Prop) s :
  (forall y s', y ∈ l -> I s' -> wp (body y) (fun r s'' => r = None /\ I s'') s') ->
  I s -> wp (for_find l body) (fun r s' => r = None /\ I s') s.
Proof.
  revert s. induction l as [|y l IH]; intros s H HI; simpl; [by apply wp_ret|]. apply wp_bind.
  eapply wp_conseq; [apply H; [apply list_elem_of_here|done]|]. intros r s' [-> HI'].
  apply IH; [|done]. intros z t Hz. apply H. by apply list_elem_of_further.
Qed.

(** A loop whose measure decreases returns, given more fuel than the
    measure. *)
Lemma wp_loop {A R} (body : A -> M S (A + R)) (I : A -> S -> Prop)
    (meas : A -> S -> nat) (Q : R -> S -> Prop) :
  (forall a s, I a s ->
     wp (body a) (fun r s' =>
       match r with
       | inl a' => I a' s' /\ (meas a' s' < meas a s)%nat
       | inr y => Q y s'
       end) s) ->
  forall fuel a s, (meas a s < fuel)%nat -> I a s -> wp (loop fuel body a) Q s.
Proof.
  intros Hb fuel. induction fuel as [|fuel IH]; intros a s Hf HI; [lia|].
  simpl. apply wp_bind. eapply wp_conseq; [by apply Hb|].
  intros [a'|y] s'; simpl.
  - intros [HI' Hm]. apply IH; [lia|done].
  - intros HQ. by apply wp_ret.
Qed.

End ops.

(** The parts of an outcome, to look at concrete runs. *)
Definition result {S A} (o : outcome S A) : option A := match o with Ret a _ => Some a | Err _ _ => None end.
Definition failure {S A} (o : outcome S A) : option err := match o with Ret _ _ => None | Err e _ => Some e end.
Definition final {S A} (o : outcome S A) : S := match o with Ret _ s => s | Err _ s => s end.

Lemma wp_result {S A} (m : M S A) (Q : A -> S -> Prop) s r :
  wp m Q s -> result (m s) = Some r -> wp m (fun r' s' => r' = r /\ Q r s') s.
Proof. unfold wp. destruct (m s); [|done]. by intros H [= ->]. Qed.

Lemma seqZ_split m n k :
  0 <= k < n -> seqZ m n = seqZ m k ++ (m + k) :: seqZ (m + k + 1) (n - k - 1).
Proof.
  intros Hk. replace n with (k + (n - k)) at 1 by lia. rewrite seqZ_app by lia. f_equal.
  rewrite seqZ_cons by lia. f_equal; lia.
Qed.

Lemma nth_insert_eq {A} i (x d : A) l : (i < length l)%nat -> nth i (<[i := x]> l) d = x.
Proof.
  intros Hi. rewrite nth_lookup, list_lookup_insert_eq by done. done.
Qed.

Lemma nth_insert_ne {A} i j (x d : A) l : i <> j -> nth j (<[i := x]> l) d = nth j l d.
Proof. intros Hi. by rewrite !nth_lookup, list_lookup_insert_ne by done. Qed.

(** ** Lenses: a component's state inside a larger one *)

Record lens (S T : Type) := Lens {
  lget : S -> T;
  lset : T -> S -> S
}.
Arguments Lens {S T} _ _.
Arguments lget {S T} _ _.
Arguments lset {S T} _ _ _.

Class LensOk {S T} (l : lens S T) : Prop := {
  lget_lset : forall t s, lget l (lset l t s) = t;
  lset_lget : forall s, lset l (lget l s) s = s;
  lset_lset : forall t t' s, lset l t (lset l t' s) = lset l t s
}.

(** Run an operation of a component on the state that contains it. *)
Definition zoom {S T A} (l : lens S T) (m : M T A) : M S A :=
  fun s =>
    match m (lget l s) with
    | Ret a t => Ret a (lset l t s)
    | Err e t => Err e (lset l t s)
    end.

Lemma wp_zoom {S T A} (l : lens S T) (m : M T A) Q s :
  wp m (fun a t => Q a (lset l t s)) (lget l s) -> wp (zoom l m) Q s.
Proof. unfold wp, zoom. by destruct (m (lget l s)). Qed.

Definition lens_comp {S T U} (l1 : lens S T) (l2 : lens T U) : lens S U :=
  Lens (fun s => lget l2 (lget l1 s))
       (fun u s => lset l1 (lset l2 u (lget l1 s)) s).

Definition lens_id {S} : lens S S := Lens (fun s => s) (fun t _ => t).

#[export] Instance lens_comp_ok {S T U} (l1 : lens S T) (l2 : lens T U) :
  LensOk l1 -> LensOk l2 -> LensOk (lens_comp l1 l2).
Proof.
  intros [a b c] [a' b' c']. split; intros; simpl.
  - by rewrite a, a'.
  - by rewrite b', b.
  - by rewrite a, c', c.
Qed.

(** ** Automation *)

Create HintDb xv6.
#[export] Hint Constants Opaque : xv6.
#[export] Hint Resolve wp_ret wp_gets wp_modify wp_skip : xv6.

Ltac wp_bind := apply wp_bind.

(** Use the specification [H] of the next call and go on after it. *)
Ltac wp_call H := eapply wp_conseq; [eapply H|simpl].

(** One step of straight-line code. *)
Ltac wp_step :=
  match goal with
  | |- wp (_ ≫= _) _ _ => apply wp_bind
  | |- wp (mret _) _ _ => apply wp_ret
  | |- wp (gets _) _ _ => apply wp_gets
  | |- wp (modify _) _ _ => apply wp_modify
  | |- wp skip _ _ => apply wp_skip
  | |- wp (zoom _ _) _ _ => apply wp_zoom
  end; simpl.

(** Turn the boolean tests of the code into propositions. *)
Ltac bool_prop :=
  repeat match goal with
  | H : _ && _ = true |- _ => apply andb_prop in H; destruct H
  | H : _ || _ = false |- _ => apply orb_false_elim in H; destruct H
  | H : negb _ = true |- _ => apply negb_true_iff in H
  | H : negb _ = false |- _ => apply negb_false_iff in H
  | H : (_ =? _)%Z = true |- _ => apply Z.eqb_eq in H
  | H : (_ =? _)%Z = false |- _ => apply Z.eqb_neq in H
  | H : (_ <? _)%Z = true |- _ => apply Z.ltb_lt in H
  | H : (_ <? _)%Z = false |- _ => apply Z.ltb_ge in H
  | H : (_ <=? _)%Z = true |- _ => apply Z.leb_le in H
  | H : (_ <=? _)%Z = false |- _ => apply Z.leb_gt in H
  end.
