(* ===== verification/Layout.v ===== *)
(** * Constants and address arithmetic

    The parameters of [kernel/param.h], the memory map of
    [kernel/memlayout.h], the page and PTE macros of [kernel/riscv.h], and the
    symbols the linker script [kernel/kernel.ld] defines.  The latter have no
    value in the sources: they are the fields of the class [Image], and what
    the kernel relies on about them is [ImageOk]. *)
From stdpp Require Import base gmap strings numbers option list.
From S2P Require Import Prelude.
Open Scope Z_scope.

(** ** [kernel/param.h] *)
Definition NPROC : Z := 64.
Definition NCPU : Z := 2.
Definition NOFILE : Z := 16.
Definition NFILE : Z := 100.
Definition NINODE : Z := 50.
Definition NDEV : Z := 10.
Definition ROOTDEV : Z := 1.
Definition MAXARG : Z := 32.
Definition MAXOPBLOCKS : Z := 10.
Definition LOGSIZE : Z := MAXOPBLOCKS * 3.
Definition NBUF : Z := MAXOPBLOCKS * 3.
Definition FSSIZE : Z := 1000.
Definition MAXPATH : Z := 128.

(** ** [kernel/riscv.h]: pages, page-table entries, virtual addresses *)
Definition PGSIZE : Z := 4096.
Definition PGSHIFT : Z := 12.

Definition PGROUNDUP (sz : Z) : Z := Z.land (u64 (sz + PGSIZE - 1)) (Z.lnot (PGSIZE - 1)).
Definition PGROUNDDOWN (a : Z) : Z := Z.land a (Z.lnot (PGSIZE - 1)).

Definition PTE_V : Z := Z.shiftl 1 0.
Definition PTE_R : Z := Z.shiftl 1 1.
Definition PTE_W : Z := Z.shiftl 1 2.
Definition PTE_X : Z := Z.shiftl 1 3.
Definition PTE_U : Z := Z.shiftl 1 4.

Definition PA2PTE (pa : Z) : Z := u64 (Z.shiftl (Z.shiftr (u64 pa) 12) 10).
Definition PTE2PA (pte : Z) : Z := u64 (Z.shiftl (Z.shiftr pte 10) 12).
Definition PTE_FLAGS (pte : Z) : Z := Z.land pte 0x3FF.

Definition PXMASK : Z := 0x1FF.
Definition PXSHIFT (level : Z) : Z := PGSHIFT + 9 * level.
Definition PX (level va : Z) : Z := Z.land (Z.shiftr (u64 va) (PXSHIFT level)) PXMASK.

Definition MAXVA : Z := Z.shiftl 1 (9 + 9 + 9 + 12 - 1).

Definition SATP_SV39 : Z := Z.shiftl 8 60.
Definition MAKE_SATP (pagetable : Z) : Z := Z.lor SATP_SV39 (Z.shiftr (u64 pagetable) 12).

(** ** [kernel/memlayout.h] *)
Definition UART0 : Z := 0x10000000.
Definition UART0_IRQ : Z := 10.
Definition VIRTIO0 : Z := 0x10001000.
Definition VIRTIO0_IRQ : Z := 1.
Definition CLINT : Z := 0x2000000.
Definition CLINT_MTIMECMP (hartid : Z) : Z := CLINT + 0x4000 + 8 * hartid.
Definition CLINT_MTIME : Z := CLINT + 0xBFF8.
Definition PLIC : Z := 0x0c000000.
Definition PLIC_SENABLE (hart : Z) : Z := PLIC + 0x2080 + hart * 0x100.
Definition PLIC_SPRIORITY (hart : Z) : Z := PLIC + 0x201000 + hart * 0x2000.
Definition PLIC_SCLAIM (hart : Z) : Z := PLIC + 0x201004 + hart * 0x2000.
Definition KERNBASE : Z := 0x80000000.
Definition PHYSTOP : Z := KERNBASE + 128 * 1024 * 1024.
Definition TRAMPOLINE : Z := MAXVA - PGSIZE.
Definition KSTACK (p : Z) : Z := TRAMPOLINE - (p + 1) * 2 * PGSIZE.
Definition TRAPFRAME : Z := TRAMPOLINE - PGSIZE.

(** ** Symbols placed by the linker *)
Class Image := {
  end_sym : Z;         (** [end[]]: first address after the kernel *)
  etext : Z;           (** [etext[]]: end of kernel text *)
  trampoline_sym : Z;  (** [trampoline[]]: physical page of trampoline.S *)
  cpus_addr : Z;       (** [cpus[]] of proc.c *)
  base_addr : Z;       (** [base] of kmalloc.c *)
  forkret_addr : Z;    (** the function [forkret] *)
  usertrap_addr : Z;   (** the function [usertrap] *)
  ticks_addr : Z;      (** [ticks] of trap.c *)
  strlit : string -> Z (** string literals *)
}.

(** What kernel.ld and the C compiler guarantee: the objects lie in the
    kernel's data, below [end], aligned for their types, and [end] is below
    the top of RAM. *)
Class ImageOk (im : Image) : Prop := {
  im_etext : KERNBASE < etext /\ etext <= base_addr;
  im_base : KERNBASE <= base_addr /\ base_addr + 16 <= end_sym;
  im_base_align : base_addr mod 16 = 0;
  im_cpus : KERNBASE <= cpus_addr /\ cpus_addr + 136 * NCPU <= end_sym;
  im_end : end_sym <= PHYSTOP - PGSIZE;
  im_tramp : KERNBASE <= trampoline_sym /\ trampoline_sym + PGSIZE <= etext;
  im_tramp_align : trampoline_sym mod PGSIZE = 0
}.

(** ** Page arithmetic *)

Lemma lnot_mask_land x n : 0 <= n -> Z.land x (Z.lnot (2 ^ n - 1)) = x - x mod 2 ^ n.
Proof.
  intros Hn. replace (2 ^ n - 1) with (Z.ones n) by (rewrite Z.ones_equiv; lia).
  rewrite <- Z.ldiff_land, Z.ldiff_ones_r by done.
  rewrite Z.shiftl_mul_pow2, Z.shiftr_div_pow2 by done.
  pose proof (Z.div_mod x (2 ^ n)). lia.
Qed.

Lemma PGROUNDDOWN_mod a : PGROUNDDOWN a = a - a mod PGSIZE.
Proof. apply (lnot_mask_land a 12). lia. Qed.

Lemma PGROUNDUP_mod sz :
  0 <= sz -> sz + PGSIZE - 1 < 2 ^ 64 ->
  PGROUNDUP sz = (sz + PGSIZE - 1) - (sz + PGSIZE - 1) mod PGSIZE.
Proof.
  unfold PGSIZE. intros. unfold PGROUNDUP. rewrite u64_small by (unfold PGSIZE; lia).
  apply (lnot_mask_land _ 12). lia.
Qed.

Lemma PGROUNDUP_spec sz :
  0 <= sz -> sz + PGSIZE - 1 < 2 ^ 64 ->
  sz <= PGROUNDUP sz < sz + PGSIZE /\ PGROUNDUP sz mod PGSIZE = 0.
Proof.
  intros H1 H2. rewrite PGROUNDUP_mod by done. unfold PGSIZE in *.
  pose proof (Z.mod_pos_bound (sz + 4096 - 1) 4096 ltac:(lia)). split; [lia|].
  rewrite Zminus_mod_idemp_r. by rewrite Z.sub_diag.
Qed.

Lemma PGROUNDDOWN_spec a :
  PGROUNDDOWN a <= a < PGROUNDDOWN a + PGSIZE /\ PGROUNDDOWN a mod PGSIZE = 0.
Proof.
  rewrite PGROUNDDOWN_mod. unfold PGSIZE in *.
  pose proof (Z.mod_pos_bound a 4096 ltac:(lia)). split; [lia|].
  rewrite Zminus_mod_idemp_r. by rewrite Z.sub_diag.
Qed.

(** Two page-aligned addresses are equal or a page apart. *)
Lemma page_apart a b :
  a mod PGSIZE = 0 -> b mod PGSIZE = 0 -> a <> b -> a + PGSIZE <= b \/ b + PGSIZE <= a.
Proof.
  unfold PGSIZE. intros Ha Hb Hne.
  apply Z.mod_divide in Ha as [x ->]; [|lia].
  apply Z.mod_divide in Hb as [y ->]; [|lia]. nia.
Qed.

(** ** PTE arithmetic *)

Definition pa_ok (pa : Z) : Prop := 0 <= pa < 2 ^ 56 /\ pa mod PGSIZE = 0.

Lemma PA2PTE_eq pa : pa_ok pa -> PA2PTE pa = (pa / 4096) * 1024.
Proof.
  intros [H1 H2]. unfold PA2PTE.
  rewrite (u64_small pa) by lia.
  rewrite Z.shiftl_mul_pow2, Z.shiftr_div_pow2 by lia.
  change (2 ^ 12) with 4096. change (2 ^ 10) with 1024.
  apply u64_small. pose proof (Z.div_pos pa 4096).
  pose proof (Z.div_lt_upper_bound pa 4096 (2 ^ 44)). lia.
Qed.

Lemma lor_add_low x y n : 0 <= n -> x mod 2 ^ n = 0 -> 0 <= y < 2 ^ n -> Z.lor x y = x + y.
Proof.
  intros Hn Hx Hy. apply Z.mod_divide in Hx as [q ->]; [|lia].
  apply Z.bits_inj'. intros i Hi. rewrite Z.lor_spec.
  destruct (decide (i < n)).
  - rewrite Z.mul_pow2_bits_low by done. simpl.
    rewrite <- (Z.mod_pow2_bits_low (q * 2 ^ n + y) n i) by lia.
    rewrite Z.add_comm, Z_mod_plus_full, Z.mod_small by done. done.
  - rewrite (Z.mul_pow2_bits _ n i) by lia.
    rewrite <- (Z.mod_small y (2 ^ n)) at 1 by done.
    rewrite Z.mod_pow2_bits_high by lia. rewrite orb_false_r.
    replace i with ((i - n) + n) at 2 by lia.
    rewrite <- Z.div_pow2_bits by lia.
    rewrite Z.add_comm, Z.div_add by lia.
    by rewrite (Z.div_small y) by done.
Qed.
