(* ===== verification/Machine.v ===== *)
(** * Harts and spin locks

    The per-CPU state of [kernel/proc.h], the interrupt-enable accessors of
    [kernel/riscv.h] and the whole of [kernel/spinlock.c].  An operation runs
    on one hart; the other harts' state is in [cpus] too, since the RCU code
    looks at it. *)
From stdpp Require Import base gmap strings numbers option list.
From S2P Require Import Prelude Layout.
Open Scope Z_scope.

(** ** State *)

(** [struct context] *)
Record context := mkContext {
  ra : Z; sp : Z;
  s0 : Z; s1 : Z; s2 : Z; s3 : Z; s4 : Z; s5 : Z;
  s6 : Z; s7 : Z; s8 : Z; s9 : Z; s10 : Z; s11 : Z
}.

#[export] Instance context_eq_dec : EqDecision context.
Proof. solve_decision. Defined.

Definition context0 : context := mkContext 0 0 0 0 0 0 0 0 0 0 0 0 0 0.

(** [struct cpu] *)
Record cpu := mkCpu {
  c_proc : Z;
  c_context : context;
  c_noff : Z;
  c_intena : Z;
  c_idle : Z
}.

Definition set_proc (p : Z) (c : cpu) : cpu :=
  mkCpu p (c_context c) (c_noff c) (c_intena c) (c_idle c).
Definition set_context (x : context) (c : cpu) : cpu :=
  mkCpu (c_proc c) x (c_noff c) (c_intena c) (c_idle c).
Definition set_noff (n : Z) (c : cpu) : cpu :=
  mkCpu (c_proc c) (c_context c) n (c_intena c) (c_idle c).
Definition set_intena (i : Z) (c : cpu) : cpu :=
  mkCpu (c_proc c) (c_context c) (c_noff c) i (c_idle c).
Definition set_idle (i : Z) (c : cpu) : cpu :=
  mkCpu (c_proc c) (c_context c) (c_noff c) (c_intena c) i.

(** The running hart: the [cpus] array, the thread pointer register [tp] that
    holds its number, and its [sstatus] register. *)
Record hartst := mkHart {
  cpus : list cpu;
  tp : Z;
  sstatus : Z
}.

(** [struct spinlock] *)
Record spinlock := mkLock {
  lk_locked : Z;
  lk_name : Z;
  lk_cpu : Z
}.

Definition SSTATUS_SPP : Z := Z.shiftl 1 8.
Definition SSTATUS_SPIE : Z := Z.shiftl 1 5.
Definition SSTATUS_SIE : Z := Z.shiftl 1 1.

(** ** Operations *)

Section machine.
Context `{im : Image}.

Definition w_sstatus (x : Z) : M hartst unit :=
  modify (fun h => mkHart (cpus h) (tp h) x).

Definition intr_on : M hartst unit :=
  x ← gets sstatus; w_sstatus (Z.lor x SSTATUS_SIE).

Definition intr_off : M hartst unit :=
  x ← gets sstatus; w_sstatus (Z.land x (Z.lnot SSTATUS_SIE)).

Definition sie (h : hartst) : bool := negb (Z.land (sstatus h) SSTATUS_SIE =? 0).

Definition intr_get : M hartst Z := h ← getS; mret (if sie h then 1 else 0).

Definition cpuid : M hartst Z := gets tp.

(** The address [&cpus[id]]; [struct cpu] is 136 bytes. *)
Definition mycpu_ptr (h : hartst) : Z := cpus_addr + 136 * tp h.

(** [*mycpu()]: [&cpus[cpuid()]] dereferenced. *)
Definition mycpu : M hartst cpu := fun h =>
  match cpus h !! Z.to_nat (tp h) with
  | Some c => Ret c h
  | None => Err (EFault (mycpu_ptr h)) h
  end.

Definition upd_cur (f : cpu -> cpu) (h : hartst) : hartst :=
  mkHart (alter f (Z.to_nat (tp h)) (cpus h)) (tp h) (sstatus h).

(** [mycpu()->field = v]. *)
Definition mycpu_set (f : cpu -> cpu) : M hartst unit :=
  _ ← mycpu; modify (upd_cur f).

(** [noff] is an [int]: its overflow, after 2^31 nested calls, is undefined in
    C, and the model does not bound it. *)
Definition push_off : M hartst unit :=
  old ← intr_get;
  intr_off;;
  c ← mycpu;
  (if c_noff c =? 0 then mycpu_set (set_intena old) else skip);;
  c ← mycpu;
  mycpu_set (set_noff (c_noff c + 1)).

Definition pop_off : M hartst unit :=
  i ← intr_get;
  if negb (i =? 0) then panic "pop_off - interruptible" else
  c ← mycpu;
  if c_noff c <? 1 then panic "pop_off" else
  mycpu_set (set_noff (c_noff c - 1));;
  c ← mycpu;
  if (c_noff c =? 0) && negb (c_intena c =? 0) then intr_on else skip.

Definition initlock (name : Z) : M spinlock unit :=
  puts (mkLock 0 name 0).

Definition lfst {A B} : lens (A * B) A := Lens fst (fun a p => (a, p.2)).
Definition lsnd {A B} : lens (A * B) B := Lens snd (fun b p => (p.1, b)).

Definition holding : M (hartst * spinlock) bool := fun '(h, lk) =>
  Ret (negb (lk_locked lk =? 0) && (lk_cpu lk =? mycpu_ptr h)) (h, lk).

(** [__sync_lock_test_and_set(&lk->locked, 1)]: atomic swap. *)
Definition lock_test_and_set : M spinlock Z := fun lk =>
  Ret (lk_locked lk) (mkLock 1 (lk_name lk) (lk_cpu lk)).

(** The spin loop [while(test_and_set(&lk->locked, 1) != 0);] of one hart: if
    the lock is taken, this hart by itself spins for ever. *)
Definition acquire : M (hartst * spinlock) unit :=
  zoom lfst push_off;;
  b ← holding;
  if (b : bool) then panic "acquire" else
  zoom lfst (mycpu_set (set_idle 1));;
  old ← zoom lsnd lock_test_and_set;
  if negb (old =? 0) then fail ESpin else
  modify (fun '(h, lk) => (h, mkLock (lk_locked lk) (lk_name lk) (mycpu_ptr h)));;
  zoom lfst (mycpu_set (set_idle 0)).

Definition release : M (hartst * spinlock) unit :=
  b ← holding;
  if negb b then panic "release" else
  zoom lsnd (modify (fun lk => mkLock (lk_locked lk) (lk_name lk) 0));;
  zoom lsnd (modify (fun lk => mkLock 0 (lk_name lk) (lk_cpu lk)));;
  zoom lfst pop_off.

(** ** Invariant and the effect of each operation, as functions *)

(** A hart between two instructions of kernel code: interrupts are off while
    some [push_off] is outstanding. *)
Record hart_ok (h : hartst) : Prop := {
  ho_tp : 0 <= tp h < NCPU;
  ho_len : length (cpus h) = Z.to_nat NCPU;
  ho_noff : forall c, cpus h !! Z.to_nat (tp h) = Some c -> 0 <= c_noff c;
  ho_sie : forall c, cpus h !! Z.to_nat (tp h) = Some c ->
             0 < c_noff c -> sie h = false
}.

Definition cur (h : hartst) : cpu :=
  default (mkCpu 0 context0 0 0 0) (cpus h !! Z.to_nat (tp h)).

Definition sie_z (h : hartst) : Z := if sie h then 1 else 0.

Definition sie_off (h : hartst) : hartst :=
  mkHart (cpus h) (tp h) (Z.land (sstatus h) (Z.lnot SSTATUS_SIE)).
Definition sie_on (h : hartst) : hartst :=
  mkHart (cpus h) (tp h) (Z.lor (sstatus h) SSTATUS_SIE).

Definition pushed (h : hartst) : hartst :=
  upd_cur (fun c => set_noff (c_noff c + 1)
     (if c_noff c =? 0 then set_intena (sie_z h) c else c)) (sie_off h).

Definition popped (h : hartst) : hartst :=
  let h' := upd_cur (fun c => set_noff (c_noff c - 1) c) h in
  if (c_noff (cur h) =? 1) && negb (c_intena (cur h) =? 0) then sie_on h' else h'.

(** What a balanced [push_off]/[pop_off] leaves behind: only the saved
    interrupt flag of an unnested hart. *)
Definition balanced (h : hartst) : hartst :=
  upd_cur (fun c => if c_noff c =? 0 then set_intena (sie_z h) c else c) h.

Definition acquired (h : hartst) : hartst := upd_cur (set_idle 0) (pushed h).
Definition held (h : hartst) (lk : spinlock) : spinlock :=
  mkLock 1 (lk_name lk) (mycpu_ptr h).

(** What a balanced [acquire]/[release] leaves behind. *)
Definition settle (h : hartst) : hartst := upd_cur (set_idle 0) (balanced h).

Lemma cur_lookup h : hart_ok h -> cpus h !! Z.to_nat (tp h) = Some (cur h).
Proof.
  intros [Htp Hlen _ _]. unfold cur.
  destruct (lookup_lt_is_Some_2 (cpus h) (Z.to_nat (tp h))) as [c Hc]; [lia|].
  by rewrite Hc.
Qed.

Lemma cur_upd f h : hart_ok h -> cur (upd_cur f h) = f (cur h).
Proof.
  intros Hok. unfold cur at 1, upd_cur; simpl.
  rewrite list_lookup_alter, decide_True by done. by rewrite cur_lookup.
Qed.

Lemma upd_upd f g h : upd_cur f (upd_cur g h) = upd_cur (fun c => f (g c)) h.
Proof. unfold upd_cur; simpl. f_equal. by rewrite list_alter_alter_eq. Qed.

Lemma upd_ext f g h : hart_ok h -> f (cur h) = g (cur h) -> upd_cur f h = upd_cur g h.
Proof.
  intros Hok Hfg. unfold upd_cur. f_equal. apply list_eq. intros i.
  rewrite !list_lookup_alter. case_decide as Hd; [|done]. subst i.
  rewrite cur_lookup by done. simpl. by rewrite Hfg.
Qed.

Lemma upd_id f h : hart_ok h -> f (cur h) = cur h -> upd_cur f h = h.
Proof.
  intros Hok Hf. destruct h as [cs t s]. unfold upd_cur; simpl. f_equal.
  apply list_eq. intros i. rewrite list_lookup_alter. case_decide as Hd; [|done].
  subst i. pose proof (cur_lookup _ Hok) as Hl. simpl in Hl. rewrite Hl. simpl.
  by rewrite Hf.
Qed.

Lemma mycpu_eq h : hart_ok h -> mycpu h = Ret (cur h) h.
Proof. intros Hok. unfold mycpu. by rewrite cur_lookup. Qed.

Lemma mycpu_set_eq f h : hart_ok h -> mycpu_set f h = Ret tt (upd_cur f h).
Proof.
  intros Hok. unfold mycpu_set, mbind, M_bind. by rewrite mycpu_eq.
Qed.

Lemma hart_ok_intro h :
  0 <= tp h < NCPU -> length (cpus h) = Z.to_nat NCPU ->
  0 <= c_noff (cur h) -> (0 < c_noff (cur h) -> sie h = false) -> hart_ok h.
Proof.
  intros H1 H2 H3 H4. split; try done; intros c Hc;
    unfold cur in *; rewrite Hc in *; auto.
Qed.

Lemma cur_noff_nonneg h : hart_ok h -> 0 <= c_noff (cur h).
Proof. intros Hok. by eapply ho_noff, cur_lookup. Qed.

Lemma cur_sie h : hart_ok h -> 0 < c_noff (cur h) -> sie h = false.
Proof. intros Hok. by eapply ho_sie, cur_lookup. Qed.

Lemma length_upd f h : length (cpus (upd_cur f h)) = length (cpus h).
Proof. unfold upd_cur; simpl. apply length_alter. Qed.

(** Updates of the current cpu that keep [noff] keep the invariant. *)
Lemma hart_ok_upd f h :
  hart_ok h -> c_noff (f (cur h)) = c_noff (cur h) -> hart_ok (upd_cur f h).
Proof.
  intros Hok Hf. pose proof Hok as [? ? _ _].
  apply hart_ok_intro; [done|by rewrite length_upd| |]; rewrite cur_upd, Hf by done;
    [by apply cur_noff_nonneg|]. intros; by apply (cur_sie h).
Qed.

Lemma testbit_sie s : negb (Z.land s SSTATUS_SIE =? 0) = Z.testbit s 1.
Proof.
  unfold SSTATUS_SIE. rewrite Z.shiftl_1_l.
  destruct (Z.testbit s 1) eqn:Hb.
  - apply negb_true_iff, Z.eqb_neq. intros H0.
    apply (f_equal (fun z => Z.testbit z 1)) in H0.
    rewrite Z.land_spec, Hb in H0. vm_compute in H0. done.
  - apply negb_false_iff, Z.eqb_eq. apply Z.bits_inj'. intros i Hi.
    rewrite Z.land_spec, Z.pow2_bits_eqb, Z.bits_0 by lia.
    destruct (Z.eqb_spec 1 i); [subst; by rewrite Hb|].
    by rewrite andb_false_r.
Qed.

Lemma sie_sie_off h : sie (sie_off h) = false.
Proof.
  unfold sie. rewrite testbit_sie. unfold sie_off. cbn [sstatus].
  rewrite Z.land_spec. apply andb_false_r.
Qed.

Lemma land_lnot_bit s : Z.testbit s 1 = false -> Z.land s (Z.lnot SSTATUS_SIE) = s.
Proof.
  intros Hb. apply Z.bits_inj'. intros i Hi. unfold SSTATUS_SIE.
  rewrite Z.shiftl_1_l, Z.land_spec, Z.lnot_spec, Z.pow2_bits_eqb by lia.
  destruct (Z.eqb_spec 1 i); [subst; by rewrite Hb|].
  by rewrite andb_true_r.
Qed.

Lemma lor_land_bit s :
  Z.testbit s 1 = true -> Z.lor (Z.land s (Z.lnot SSTATUS_SIE)) SSTATUS_SIE = s.
Proof.
  intros Hb. apply Z.bits_inj'. intros i Hi. unfold SSTATUS_SIE.
  rewrite Z.shiftl_1_l, Z.lor_spec, Z.land_spec, Z.lnot_spec, Z.pow2_bits_eqb by lia.
  destruct (Z.eqb_spec 1 i); [subst; by rewrite Hb|].
  by rewrite andb_true_r, orb_false_r.
Qed.

Lemma sie_off_id h : sie h = false -> sie_off h = h.
Proof.
  destruct h as [cs t s]. unfold sie, sie_off. cbn [sstatus cpus tp]. rewrite testbit_sie.
  intros. by rewrite land_lnot_bit.
Qed.

Lemma sie_on_off h : sie h = true -> sie_on (sie_off h) = h.
Proof.
  destruct h as [cs t s]. unfold sie, sie_on, sie_off. cbn [sstatus cpus tp]. rewrite testbit_sie.
  intros. by rewrite lor_land_bit.
Qed.

Lemma hart_ok_sie_off h : hart_ok h -> hart_ok (sie_off h).
Proof.
  intros Hok. pose proof Hok as [? ? _ _]. apply hart_ok_intro; try done.
  - by apply (cur_noff_nonneg h).
  - intros _. apply sie_sie_off.
Qed.

Lemma hart_ok_pushed h : hart_ok h -> hart_ok (pushed h).
Proof.
  intros Hok. pose proof Hok as [? ? _ _]. pose proof (cur_noff_nonneg h Hok).
  unfold pushed. apply hart_ok_intro; [done|by rewrite length_upd| |].
  - rewrite cur_upd by (by apply hart_ok_sie_off). simpl. unfold sie_off, cur in *; simpl.
    lia.
  - intros _. apply (sie_sie_off h).
Qed.

(** ** [push_off] and [pop_off] *)

Lemma push_off_eq h : hart_ok h -> push_off h = Ret tt (pushed h).
Proof.
  intros Hok. pose proof (hart_ok_sie_off h Hok) as Hok'.
  unfold push_off, intr_get, intr_off, w_sstatus, getS, gets, modify, mbind, M_bind,
    mret, M_ret, skip. simpl.
  fold (sie_off h). rewrite mycpu_eq by done.
  assert (cur (sie_off h) = cur h) as Hcur by done. rewrite Hcur.
  fold (sie_z h). unfold pushed. destruct (Z.eqb_spec (c_noff (cur h)) 0) as [H0|H0].
  - rewrite mycpu_set_eq by done.
    assert (hart_ok (upd_cur (set_intena (sie_z h)) (sie_off h))) by (by apply hart_ok_upd).
    rewrite mycpu_eq, mycpu_set_eq by done. f_equal. rewrite upd_upd.
    apply upd_ext; [done|]. rewrite cur_upd, Hcur by done. simpl. by rewrite H0.
  - unfold mret, M_ret. rewrite mycpu_eq, mycpu_set_eq by done. f_equal.
    apply upd_ext; [done|]. rewrite Hcur.
    destruct (Z.eqb_spec (c_noff (cur h)) 0); [done|]. done.
Qed.

Lemma pop_off_eq h :
  hart_ok h -> 0 < c_noff (cur h) -> pop_off h = Ret tt (popped h).
Proof.
  intros Hok Hn. pose proof (cur_sie h Hok Hn) as Hs.
  unfold pop_off, intr_get, getS, mbind, M_bind, mret, M_ret, skip. simpl.
  rewrite Hs. simpl. rewrite mycpu_eq by done.
  destruct (Z.ltb_spec (c_noff (cur h)) 1); [lia|].
  rewrite mycpu_set_eq by done.
  set (h' := upd_cur _ h).
  assert (hart_ok h') as Hok'.
  { pose proof Hok as [? ? _ _]. apply hart_ok_intro; unfold h';
      [done|by rewrite length_upd| |]; rewrite cur_upd by done; simpl; [lia|].
    intros _. exact Hs. }
  rewrite mycpu_eq by done.
  assert (cur h' = set_noff (c_noff (cur h) - 1) (cur h)) as -> by (by apply cur_upd).
  assert (h' = upd_cur (fun c => set_noff (c_noff c - 1) c) h) as -> by (by apply upd_ext).
  unfold popped. simpl.
  destruct (Z.eqb_spec (c_noff (cur h) - 1) 0) as [He|He];
    destruct (Z.eqb_spec (c_noff (cur h)) 1) as [He'|He']; try lia; simpl; [|done].
  by destruct (negb (c_intena (cur h) =? 0)).
Qed.

Lemma sie_on_upd f h : sie_on (upd_cur f h) = upd_cur f (sie_on h).
Proof. done. Qed.

Lemma popped_pushed h : hart_ok h -> popped (pushed h) = balanced h.
Proof.
  intros Hok. pose proof (hart_ok_sie_off h Hok) as Hok'.
  pose proof (cur_noff_nonneg h Hok) as Hn.
  unfold popped, pushed. rewrite upd_upd, sie_on_upd, cur_upd by done. simpl.
  assert (cur (sie_off h) = cur h) as -> by done.
  unfold balanced, sie_z. destruct (Z.eqb_spec (c_noff (cur h)) 0) as [H0|H0].
  - rewrite H0. destruct (sie h) eqn:Hs; simpl; [rewrite sie_on_off|rewrite sie_off_id];
      try done; apply upd_ext; try done; rewrite H0; simpl;
      destruct (cur h); simpl in *; by subst.
  - destruct (Z.eqb_spec (c_noff (cur h) + 1) 1); [lia|]. simpl.
    rewrite sie_off_id by (apply cur_sie; [done|lia]). apply upd_ext; [done|].
    destruct (Z.eqb_spec (c_noff (cur h)) 0); [done|].
    destruct (cur h); unfold set_noff; simpl. f_equal. lia.
Qed.

Lemma hart_ok_popped h : hart_ok h -> 0 < c_noff (cur h) -> hart_ok (popped h).
Proof.
  intros Hok Hn. pose proof Hok as [Ht Hl _ _]. unfold popped.
  set (h' := upd_cur _ h). assert (cur h' = set_noff (c_noff (cur h) - 1) (cur h)) as Hc.
  { unfold h'. by rewrite cur_upd. }
  assert (length (cpus h') = Z.to_nat NCPU) by (unfold h'; by rewrite length_upd).
  assert (cur (sie_on h') = cur h') as Hon by done.
  destruct (Z.eqb_spec (c_noff (cur h)) 1) as [E|E]; simpl.
  - destruct (negb _); (apply hart_ok_intro; [done|done| |]); rewrite ?Hon, Hc; simpl; lia.
  - apply hart_ok_intro; [done|done| |]; rewrite Hc; simpl; [lia|]. intros _.
    by apply (cur_sie h).
Qed.

Lemma hart_ok_balanced h : hart_ok h -> hart_ok (balanced h).
Proof.
  intros. unfold balanced. apply hart_ok_upd; [done|]. by destruct (c_noff (cur h) =? 0).
Qed.

Lemma hart_ok_acquired h : hart_ok h -> hart_ok (acquired h).
Proof. intros. unfold acquired. apply hart_ok_upd; [by apply hart_ok_pushed|done]. Qed.

Lemma hart_ok_settle h : hart_ok h -> hart_ok (settle h).
Proof. intros. unfold settle. apply hart_ok_upd; [by apply hart_ok_balanced|done]. Qed.

Lemma acquired_noff h : hart_ok h -> c_noff (cur (acquired h)) = c_noff (cur h) + 1.
Proof.
  intros Hok. unfold acquired, pushed.
  rewrite upd_upd, cur_upd by (by apply hart_ok_sie_off). done.
Qed.

Lemma popped_acquired h : hart_ok h -> popped (acquired h) = settle h.
Proof.
  intros Hok. unfold settle. rewrite <- popped_pushed by done.
  unfold acquired, popped. rewrite !cur_upd by (by apply hart_ok_pushed). simpl.
  destruct ((c_noff (cur (pushed h)) =? 1) && negb (c_intena (cur (pushed h)) =? 0));
    by rewrite ?sie_on_upd, !upd_upd.
Qed.

Lemma settle_settle h : hart_ok h -> settle (settle h) = settle h.
Proof.
  intros Hok. unfold settle at 1, balanced at 1. rewrite upd_upd.
  apply upd_id; [by apply hart_ok_settle|].
  unfold settle, balanced. rewrite upd_upd, cur_upd by done.
  assert (sie_z (upd_cur (fun c => set_idle 0 (if c_noff c =? 0 then set_intena (sie_z h) c else c)) h)
    = sie_z h) as -> by done.
  destruct (c_noff (cur h) =? 0) eqn:H0; simpl; rewrite H0; done.
Qed.

(** Inside a critical section a nested lock round trip changes nothing. *)
Lemma settle_acquired h : hart_ok h -> settle (acquired h) = acquired h.
Proof.
  intros Hok. unfold settle, balanced. rewrite upd_upd.
  apply upd_id; [by apply hart_ok_acquired|].
  pose proof (cur_noff_nonneg h Hok). rewrite acquired_noff by done.
  destruct (Z.eqb_spec (c_noff (cur h) + 1) 0); [lia|].
  unfold acquired. rewrite cur_upd by (by apply hart_ok_pushed). done.
Qed.

Lemma settle_tp h : tp (settle h) = tp h.
Proof. done. Qed.
Lemma acquired_tp h : tp (acquired h) = tp h.
Proof. done. Qed.

(** ** [acquire] and [release] *)

Lemma acquire_eq h lk :
  hart_ok h -> lk_locked lk = 0 -> acquire (h, lk) = Ret tt (acquired h, held h lk).
Proof.
  intros Hok Hfree. pose proof (hart_ok_pushed h Hok) as Hok'.
  unfold acquire, zoom, holding, lock_test_and_set, modify, mbind, M_bind; simpl.
  rewrite push_off_eq by done. simpl. rewrite Hfree. simpl.
  rewrite mycpu_set_eq by done. simpl. rewrite Hfree. simpl.
  rewrite mycpu_set_eq by (by apply hart_ok_upd).
  unfold acquired. by rewrite upd_upd.
Qed.

Lemma release_eq h lk :
  hart_ok h -> 0 < c_noff (cur h) -> lk_locked lk <> 0 -> lk_cpu lk = mycpu_ptr h ->
  release (h, lk) = Ret tt (popped h, mkLock 0 (lk_name lk) 0).
Proof.
  intros Hok Hn Hl Hc. unfold release, zoom, holding, modify, mbind, M_bind; simpl.
  rewrite Hc, Z.eqb_refl. destruct (Z.eqb_spec (lk_locked lk) 0); [done|]. simpl.
  by rewrite pop_off_eq.
Qed.

(** A hart that already holds the lock panics. *)
Lemma acquire_held_panics h lk :
  hart_ok h -> lk_locked lk <> 0 -> lk_cpu lk = mycpu_ptr h ->
  acquire (h, lk) = Err (EPanic "acquire") (pushed h, lk).
Proof.
  intros Hok Hl Hc. unfold acquire, zoom, holding, mbind, M_bind; simpl.
  rewrite push_off_eq by done. simpl.
  assert (mycpu_ptr (pushed h) = mycpu_ptr h) as -> by done. rewrite Hc, Z.eqb_refl.
  by destruct (Z.eqb_spec (lk_locked lk) 0).
Qed.

(** A hart that does not hold the lock cannot release it. *)
Lemma release_not_held_panics h lk :
  lk_locked lk = 0 \/ lk_cpu lk <> mycpu_ptr h ->
  release (h, lk) = Err (EPanic "release") (h, lk).
Proof.
  intros H. unfold release, holding, mbind, M_bind; simpl.
  destruct (Z.eqb_spec (lk_locked lk) 0); [done|]. simpl.
  destruct (Z.eqb_spec (lk_cpu lk) (mycpu_ptr h)); [|done]. naive_solver.
Qed.

End machine.

(** ** Locks inside a component's state *)

Definition lens_pair {S A B} (la : lens S A) (lb : lens S B) : lens S (A * B) :=
  Lens (fun s => (lget la s, lget lb s)) (fun p s => lset lb p.2 (lset la p.1 s)).

Section lockrules.
Context `{im : Image} {S : Type} (l : lens S (hartst * spinlock)).

Lemma wp_acquire Q s :
  hart_ok (lget l s).1 -> lk_locked (lget l s).2 = 0 ->
  Q tt (lset l (acquired (lget l s).1, held (lget l s).1 (lget l s).2) s) ->
  wp (zoom l acquire) Q s.
Proof.
  intros Hok Hl HQ. apply wp_zoom. destruct (lget l s) as [h lk]; simpl in *.
  eapply wp_eq; [by apply acquire_eq|done].
Qed.

Lemma wp_release Q s :
  hart_ok (lget l s).1 -> 0 < c_noff (cur (lget l s).1) ->
  lk_locked (lget l s).2 <> 0 -> lk_cpu (lget l s).2 = mycpu_ptr (lget l s).1 ->
  Q tt (lset l (popped (lget l s).1, mkLock 0 (lk_name (lget l s).2) 0) s) ->
  wp (zoom l release) Q s.
Proof.
  intros Hok Hn Hl Hc HQ. apply wp_zoom. destruct (lget l s) as [h lk]; simpl in *.
  eapply wp_eq; [by apply release_eq|done].
Qed.

End lockrules.

#[export] Hint Resolve hart_ok_balanced hart_ok_acquired hart_ok_settle hart_ok_pushed
  hart_ok_sie_off : xv6.
