(* ===== verification/Memory.v ===== *)
(** * Byte memory and [kernel/string.c]

    Memory maps addresses to bytes; unwritten bytes read as 0.  Wider accesses
    are little-endian.  The routines of [kernel/string.c] are written as the
    loops the code has, over this memory; [char] is unsigned on RISC-V. *)
From stdpp Require Import base gmap strings numbers option list.
From S2P Require Import Prelude Layout.
Open Scope Z_scope.

Abbreviation mem := (gmap Z Z).

(** ** Bytes and little-endian words *)

Definition rd (m : mem) (a : Z) : Z := u8 (default 0 (m !! a)).
Definition wr (m : mem) (a v : Z) : mem := <[a := u8 v]> m.

(** A list of bytes written, and read, at [a]. *)
Fixpoint wr_bytes (m : mem) (a : Z) (bs : list Z) : mem :=
  match bs with
  | [] => m
  | b :: bs' => wr_bytes (wr m a b) (a + 1) bs'
  end.
Definition rd_bytes (m : mem) (a : Z) (n : nat) : list Z := (fun i => rd m (a + Z.of_nat i)) <$> seq 0 n.


Fixpoint ld (n : nat) (m : mem) (a : Z) : Z :=
  match n with
  | O => 0
  | S n' => rd m a + 256 * ld n' m (a + 1)
  end.

Fixpoint st (n : nat) (m : mem) (a v : Z) : mem :=
  match n with
  | O => m
  | S n' => st n' (wr m a v) (a + 1) (v / 256)
  end.

Abbreviation ld64 := (ld 8).
Abbreviation st64 := (st 8).
Abbreviation ld32 := (ld 4).
Abbreviation st32 := (st 4).

(** A C [int] in memory. *)
Definition ldi (m : mem) (a : Z) : Z := i32 (ld32 m a).

Lemma rd_range m a : 0 <= rd m a < 256.
Proof. apply u8_range. Qed.

Lemma u8_u8 z : u8 (u8 z) = u8 z.
Proof. apply u8_small, u8_range. Qed.

Lemma rd_wr m a v b : rd (wr m a v) b = if decide (a = b) then u8 v else rd m b.
Proof.
  unfold rd, wr. rewrite lookup_insert. case_decide; [|done]. simpl. apply u8_u8.
Qed.

Lemma rd_wr_eq m a v : rd (wr m a v) a = u8 v.
Proof. rewrite rd_wr. by case_decide. Qed.

Lemma rd_wr_ne m a v b : a <> b -> rd (wr m a v) b = rd m b.
Proof. intros. rewrite rd_wr. by case_decide. Qed.

Lemma ld_range n m a : 0 <= ld n m a < 256 ^ Z.of_nat n.
Proof.
  revert a. induction n as [|n IH]; intros a; simpl ld; [lia|].
  pose proof (rd_range m a). specialize (IH (a + 1)).
  rewrite Nat2Z.inj_succ, Z.pow_succ_r by lia. lia.
Qed.

Lemma ld64_range m a : 0 <= ld64 m a < 2 ^ 64.
Proof. apply (ld_range 8). Qed.

Lemma ld32_range m a : 0 <= ld32 m a < 2 ^ 32.
Proof. apply (ld_range 4). Qed.

Lemma ld_ext n m a m' b :
  (forall i, 0 <= i < Z.of_nat n -> rd m (a + i) = rd m' (b + i)) -> ld n m a = ld n m' b.
Proof.
  revert a b. induction n as [|n IH]; intros a b H; [done|]. simpl. f_equal.
  - specialize (H 0 ltac:(lia)). by rewrite !Z.add_0_r in H.
  - f_equal. apply IH. intros i Hi. specialize (H (i + 1) ltac:(lia)).
    by replace (a + 1 + i) with (a + (i + 1)) by lia;
       replace (b + 1 + i) with (b + (i + 1)) by lia.
Qed.

Lemma ld_frame n m m' a :
  (forall b, a <= b < a + Z.of_nat n -> rd m' b = rd m b) -> ld n m' a = ld n m a.
Proof. intros H. apply ld_ext. intros i Hi. apply H. lia. Qed.

Lemma rd_st n m a v b :
  rd (st n m a v) b =
    if decide (a <= b < a + Z.of_nat n) then u8 (v / 256 ^ (b - a)) else rd m b.
Proof.
  revert m a v. induction n as [|n IH]; intros m a v; simpl st.
  { rewrite decide_False by lia. done. }
  rewrite IH. destruct (decide (a = b)) as [<-|Hne].
  - rewrite decide_False, decide_True by lia. rewrite rd_wr_eq, Z.sub_diag.
    by rewrite Z.div_1_r.
  - case_decide.
    + rewrite decide_True by lia. f_equal.
      replace (b - a) with (Z.succ (b - (a + 1))) by lia.
      rewrite Z.pow_succ_r, Z.div_div by lia. done.
    + rewrite decide_False by lia. by apply rd_wr_ne.
Qed.

Lemma rd_st_out n m a v b :
  ~ (a <= b < a + Z.of_nat n) -> rd (st n m a v) b = rd m b.
Proof. intros. rewrite rd_st. by rewrite decide_False. Qed.

Lemma ld_st_same n m a v : ld n (st n m a v) a = v mod 256 ^ Z.of_nat n.
Proof.
  revert m a v. induction n as [|n IH]; intros m a v.
  { simpl. by rewrite Z.mod_1_r. }
  cbn [ld st]. rewrite IH, rd_st_out, rd_wr_eq by lia.
  rewrite Nat2Z.inj_succ, Z.pow_succ_r by lia.
  rewrite Z.rem_mul_r by lia. unfold u8. change (2 ^ 8) with 256. lia.
Qed.

Lemma ld_st_disj k n m a v b :
  a + Z.of_nat n <= b \/ b + Z.of_nat k <= a -> ld k (st n m a v) b = ld k m b.
Proof. intros H. apply ld_frame. intros c Hc. apply rd_st_out. lia. Qed.

Lemma ld64_st64 m a v : 0 <= v < 2 ^ 64 -> ld64 (st64 m a v) a = v.
Proof. intros. rewrite ld_st_same. apply Z.mod_small. done. Qed.

Lemma ld32_st32 m a v : 0 <= v < 2 ^ 32 -> ld32 (st32 m a v) a = v.
Proof. intros. rewrite ld_st_same. apply Z.mod_small. done. Qed.

Lemma ld_zero n m a :
  (forall b, a <= b < a + Z.of_nat n -> rd m b = 0) -> ld n m a = 0.
Proof.
  revert a. induction n as [|n IH]; intros a H; [done|]. cbn [ld].
  rewrite H, IH by (intros; try apply H; lia). done.
Qed.

(** Memories that agree on an address range. *)
Definition same_on (P : Z -> Prop) (m m' : mem) : Prop := forall a, P a -> rd m' a = rd m a.

Lemma same_on_ld P m m' n a :
  same_on P m m' -> (forall b, a <= b < a + Z.of_nat n -> P b) -> ld n m' a = ld n m a.
Proof. intros H HP. apply ld_frame. intros. apply H, HP. done. Qed.

Lemma same_on_refl P m : same_on P m m.
Proof. done. Qed.

Lemma same_on_trans P m1 m2 m3 : same_on P m1 m2 -> same_on P m2 m3 -> same_on P m1 m3.
Proof. intros H1 H2 a Ha. by rewrite H2, H1. Qed.

Lemma same_on_weaken (P Q : Z -> Prop) m m' :
  same_on P m m' -> (forall a, Q a -> P a) -> same_on Q m m'.
Proof. intros H HPQ a Ha. auto. Qed.

Lemma same_on_st P n m a v :
  (forall b, P b -> ~ (a <= b < a + Z.of_nat n)) -> same_on P m (st n m a v).
Proof. intros H b Hb. by apply rd_st_out, H. Qed.

Arguments ld : simpl never.
Arguments st : simpl never.
Arguments rd : simpl never.
Arguments wr : simpl never.

(** ** [kernel/string.c] *)

Fixpoint memset_loop (k : nat) (m : mem) (cdst i c : Z) : mem :=
  match k with
  | O => m
  | S k' => memset_loop k' (wr m (cdst + i) c) cdst (i + 1) c
  end.

Definition memset (m : mem) (dst c n : Z) : mem :=
  memset_loop (Z.to_nat (u32 n)) m dst 0 c.

Fixpoint memcmp_loop (n : nat) (m : mem) (s1 s2 : Z) : Z :=
  match n with
  | O => 0
  | S n' =>
      if negb (rd m s1 =? rd m s2) then rd m s1 - rd m s2
      else memcmp_loop n' m (s1 + 1) (s2 + 1)
  end.

Definition memcmp (m : mem) (v1 v2 n : Z) : Z :=
  memcmp_loop (Z.to_nat (u32 n)) m v1 v2.

(** [while(n-- > 0) *d++ = *s++;] *)
Fixpoint copy_up (n : nat) (m : mem) (d s : Z) : mem :=
  match n with
  | O => m
  | S n' => copy_up n' (wr m d (rd m s)) (d + 1) (s + 1)
  end.

(** [while(n-- > 0) *--d = *--s;] *)
Fixpoint copy_down (n : nat) (m : mem) (d s : Z) : mem :=
  match n with
  | O => m
  | S n' => copy_down n' (wr m (d - 1) (rd m (s - 1))) (d - 1) (s - 1)
  end.

Definition memmove (m : mem) (dst src n : Z) : mem :=
  let n := u32 n in
  if (src <? dst) && (dst <? src + n)
  then copy_down (Z.to_nat n) m (dst + n) (src + n)
  else copy_up (Z.to_nat n) m dst src.

Definition memcpy (m : mem) (dst src n : Z) : mem := memmove m dst src n.

Fixpoint strncmp_loop (n : nat) (m : mem) (p q : Z) : Z :=
  match n with
  | O => 0
  | S n' =>
      if negb (rd m p =? 0) && (rd m p =? rd m q)
      then strncmp_loop n' m (p + 1) (q + 1)
      else rd m p - rd m q
  end.

Definition strncmp (m : mem) (p q n : Z) : Z :=
  strncmp_loop (Z.to_nat (u32 n)) m p q.

(** [while(n-- > 0) *s++ = 0;] *)
Fixpoint zero_fill (n : nat) (m : mem) (s : Z) : mem :=
  match n with
  | O => m
  | S n' => zero_fill n' (wr m s 0) (s + 1)
  end.

(** [while(n-- > 0 && ( *s++ = *t++ ) != 0);] then, once a NUL has been
    copied, the padding loop over the bytes that are left. *)
Fixpoint strncpy_loop (n : nat) (m : mem) (s t : Z) : mem :=
  match n with
  | O => m
  | S n' =>
      let c := rd m t in
      let m' := wr m s c in
      if c =? 0 then zero_fill n' m' (s + 1) else strncpy_loop n' m' (s + 1) (t + 1)
  end.

Definition strncpy (m : mem) (s t n : Z) : mem := strncpy_loop (Z.to_nat n) m s t.

(** [while(--n > 0 && ( *s++ = *t++ ) != 0); *s = 0;], entered with [n > 0]. *)
Fixpoint safestrcpy_loop (n : nat) (m : mem) (s t : Z) : mem :=
  match n with
  | O => wr m s 0
  | S n' =>
      let c := rd m t in
      let m' := wr m s c in
      if c =? 0 then wr m' (s + 1) 0 else safestrcpy_loop n' m' (s + 1) (t + 1)
  end.

Definition safestrcpy (m : mem) (s t n : Z) : mem :=
  if n <=? 0 then m else safestrcpy_loop (Z.to_nat (n - 1)) m s t.

Fixpoint strlen_loop (fuel : nat) (m : mem) (s n : Z) : option Z :=
  match fuel with
  | O => None
  | S fuel' => if rd m (s + n) =? 0 then Some n else strlen_loop fuel' m s (n + 1)
  end.

(** [strlen] looks at no more than [fuel] bytes in the model; the code has no
    bound. *)
Definition strlen (fuel : nat) (m : mem) (s : Z) : option Z := strlen_loop fuel m s 0.

(** ** What the routines do *)

Arguments memset : simpl never.
Arguments memmove : simpl never.
Arguments memcpy : simpl never.
Arguments strncpy : simpl never.

Lemma memset_loop_rd k m cdst i c a :
  rd (memset_loop k m cdst i c) a =
    if decide (cdst + i <= a < cdst + i + Z.of_nat k) then u8 c else rd m a.
Proof.
  revert m i. induction k as [|k IH]; intros m i; cbn [memset_loop].
  { rewrite decide_False by lia. done. }
  rewrite IH, rd_wr. repeat case_decide; try lia; done.
Qed.

(** [memset] fills exactly its range. *)
Lemma memset_rd m dst c n a :
  0 <= n < 2 ^ 32 ->
  rd (memset m dst c n) a = if decide (dst <= a < dst + n) then u8 c else rd m a.
Proof.
  intros Hn. unfold memset. rewrite memset_loop_rd, u32_small by done.
  repeat case_decide; try lia; done.
Qed.

Lemma copy_up_rd n m d s a :
  d <= s \/ s + Z.of_nat n <= d ->
  rd (copy_up n m d s) a =
    if decide (d <= a < d + Z.of_nat n) then rd m (s + (a - d)) else rd m a.
Proof.
  revert m d s. induction n as [|n IH]; intros m d s Hd; cbn [copy_up].
  { rewrite decide_False by lia. done. }
  rewrite IH by lia. destruct (decide (a = d)) as [->|Hne].
  - rewrite decide_False, decide_True by lia. rewrite rd_wr_eq.
    rewrite u8_small by apply rd_range. f_equal. lia.
  - case_decide.
    + rewrite decide_True by lia. rewrite rd_wr_ne by lia. f_equal. lia.
    + rewrite decide_False by lia. by apply rd_wr_ne.
Qed.

Lemma copy_down_rd n m d s a :
  s <= d ->
  rd (copy_down n m d s) a =
    if decide (d - Z.of_nat n <= a < d) then rd m (s + (a - d)) else rd m a.
Proof.
  revert m d s. induction n as [|n IH]; intros m d s Hd; cbn [copy_down].
  { rewrite decide_False by lia. done. }
  rewrite IH by lia. destruct (decide (a = d - 1)) as [->|Hne].
  - rewrite decide_False, decide_True by lia. rewrite rd_wr_eq.
    rewrite u8_small by apply rd_range. f_equal. lia.
  - case_decide.
    + rewrite decide_True by lia. rewrite rd_wr_ne by lia. f_equal. lia.
    + rewrite decide_False by lia. by apply rd_wr_ne.
Qed.

(** Both directions of [memmove] copy the source as it was before the call,
    overlapping or not. *)
Lemma memmove_rd m dst src n a :
  0 <= n < 2 ^ 32 ->
  rd (memmove m dst src n) a =
    if decide (dst <= a < dst + n) then rd m (src + (a - dst)) else rd m a.
Proof.
  intros Hn. unfold memmove. rewrite u32_small by done.
  destruct ((src <? dst) && (dst <? src + n)) eqn:Hb.
  - bool_prop. rewrite copy_down_rd by lia.
    repeat case_decide; try lia; try done. f_equal. lia.
  - rewrite copy_up_rd.
    + repeat case_decide; try lia; done.
    + apply andb_false_iff in Hb as [Hb|Hb]; bool_prop; lia.
Qed.

(** The C string of at most [n] bytes at [p]. *)
Fixpoint cstr (n : nat) (m : mem) (p : Z) : list Z :=
  match n with
  | O => []
  | S n' => if rd m p =? 0 then [] else rd m p :: cstr n' m (p + 1)
  end.

Lemma cstr_length n m p : (length (cstr n m p) <= n)%nat.
Proof.
  revert p. induction n as [|n IH]; intros p; simpl; [lia|].
  case_match; simpl; [lia|]. specialize (IH (p + 1)). lia.
Qed.

Lemma cstr_ext n m p m' q :
  (forall i, 0 <= i < Z.of_nat n -> rd m (p + i) = rd m' (q + i)) -> cstr n m p = cstr n m' q.
Proof.
  revert p q. induction n as [|n IH]; intros p q H; [done|]. cbn [cstr].
  pose proof (H 0 ltac:(lia)) as H0. rewrite !Z.add_0_r in H0. rewrite H0.
  case_match; [done|]. f_equal. apply IH. intros i Hi.
  specialize (H (1 + i) ltac:(lia)). by rewrite !Z.add_assoc in H.
Qed.

Lemma memcmp_loop_zero n m s1 s2 :
  memcmp_loop n m s1 s2 = 0 <->
  forall i, 0 <= i < Z.of_nat n -> rd m (s1 + i) = rd m (s2 + i).
Proof.
  revert s1 s2. induction n as [|n IH]; intros s1 s2; cbn [memcmp_loop].
  { split; [lia|done]. }
  destruct (Z.eqb_spec (rd m s1) (rd m s2)) as [He|He]; simpl.
  - rewrite IH. split; intros H i Hi.
    + destruct (decide (i = 0)) as [->|]; [by rewrite !Z.add_0_r|].
      specialize (H (i - 1) ltac:(lia)).
      by replace (s1 + 1 + (i - 1)) with (s1 + i) in H by lia;
         replace (s2 + 1 + (i - 1)) with (s2 + i) in H by lia.
    + specialize (H (1 + i) ltac:(lia)). by rewrite !Z.add_assoc in H.
  - split; [lia|]. intros H. specialize (H 0 ltac:(lia)). rewrite !Z.add_0_r in H. done.
Qed.

Lemma strncmp_loop_zero n m p q : strncmp_loop n m p q = 0 <-> cstr n m p = cstr n m q.
Proof.
  revert p q. induction n as [|n IH]; intros p q; cbn [strncmp_loop cstr]; [done|].
  destruct (Z.eqb_spec (rd m p) 0) as [Hp|Hp]; simpl.
  - rewrite Hp. destruct (Z.eqb_spec (rd m q) 0) as [Hq|Hq]; [rewrite Hq|]; split; try done; lia.
  - destruct (Z.eqb_spec (rd m p) (rd m q)) as [He|He].
    + rewrite <- He. destruct (Z.eqb_spec (rd m p) 0); [done|]. rewrite IH.
      split; [by intros ->|congruence].
    + destruct (Z.eqb_spec (rd m q) 0) as [Hq|Hq]; split; try done; try lia.
      intros. congruence.
Qed.

Lemma zero_fill_rd n m s a :
  rd (zero_fill n m s) a = if decide (s <= a < s + Z.of_nat n) then 0 else rd m a.
Proof.
  revert m s. induction n as [|n IH]; intros m s; cbn [zero_fill].
  { rewrite decide_False by lia. done. }
  rewrite IH, rd_wr. repeat case_decide; try lia; done.
Qed.

Lemma strncpy_loop_rd n m s t a :
  s + Z.of_nat n <= t \/ t + Z.of_nat n <= s ->
  rd (strncpy_loop n m s t) a =
    if decide (s <= a < s + Z.of_nat n) then nth (Z.to_nat (a - s)) (cstr n m t) 0
    else rd m a.
Proof.
  revert m s t. induction n as [|n IH]; intros m s t Hd; cbn [strncpy_loop cstr].
  { rewrite decide_False by lia. done. }
  destruct (Z.eqb_spec (rd m t) 0) as [H0|H0].
  - rewrite zero_fill_rd, rd_wr, H0. repeat case_decide; try lia; try done;
      by destruct (Z.to_nat (a - s)).
  - rewrite IH by lia.
    assert (cstr n (wr m s (rd m t)) (t + 1) = cstr n m (t + 1)) as ->.
    { apply cstr_ext. intros i Hi. apply rd_wr_ne. lia. }
    destruct (decide (a = s)) as [->|Hne].
    + rewrite decide_False, decide_True by lia. rewrite rd_wr_eq, Z.sub_diag. simpl.
      apply u8_small, rd_range.
    + case_decide.
      * rewrite decide_True by lia.
        replace (Z.to_nat (a - s)) with (S (Z.to_nat (a - (s + 1)))) by lia. done.
      * rewrite decide_False by lia. by apply rd_wr_ne.
Qed.

(** [safestrcpy] keeps within its [n] bytes and leaves the first [n - 1]
    bytes of the source string, NUL-terminated. *)
Lemma safestrcpy_loop_spec n m s t :
  s + Z.of_nat n < t \/ t + Z.of_nat n <= s ->
  let m' := safestrcpy_loop n m s t in
  cstr (S n) m' s = cstr n m t /\
  (forall a, ~ (s <= a < s + Z.of_nat n + 1) -> rd m' a = rd m a).
Proof.
  revert m s t. induction n as [|n IH]; intros m s t Hd; cbn [safestrcpy_loop].
  { cbn. rewrite rd_wr_eq. simpl. split; [done|]. intros a Ha. apply rd_wr_ne. lia. }
  destruct (Z.eqb_spec (rd m t) 0) as [H0|H0].
  - split; [|intros a Ha; rewrite !rd_wr_ne by lia; done].
    cbn [cstr]. rewrite rd_wr_ne, rd_wr_eq, H0 by lia. done.
  - set (m1 := wr m s (rd m t)).
    destruct (IH m1 (s + 1) (t + 1) ltac:(lia)) as [Hc Hf].
    assert (rd (safestrcpy_loop n m1 (s + 1) (t + 1)) s = rd m t) as Hs.
    { rewrite Hf by lia. unfold m1. rewrite rd_wr_eq. apply u8_small, rd_range. }
    split.
    + cbn [cstr] in *. rewrite Hs. destruct (Z.eqb_spec (rd m t) 0); [done|].
      f_equal. rewrite Hc. apply cstr_ext. intros i Hi. apply rd_wr_ne. lia.
    + intros a Ha. rewrite Hf by lia. apply rd_wr_ne. lia.
Qed.

Lemma strlen_loop_spec fuel m s n k :
  0 <= n -> (length (cstr k m (s + n)) < k)%nat -> (length (cstr k m (s + n)) < fuel)%nat ->
  strlen_loop fuel m s n = Some (n + Z.of_nat (length (cstr k m (s + n)))).
Proof.
  revert n k. induction fuel as [|fuel IH]; intros n k Hn Hk Hf; [lia|].
  destruct k as [|k]; [simpl in Hk; lia|]. cbn [strlen_loop cstr] in *.
  destruct (Z.eqb_spec (rd m (s + n)) 0); simpl in *; [f_equal; lia|].
  replace (s + n + 1) with (s + (n + 1)) in * by lia.
  rewrite (IH (n + 1) k) by lia. f_equal. lia.
Qed.

#[global] Opaque memset memmove strncpy safestrcpy.
