(* ===== verification/Kernel.v ===== *)
(** * The kernel's core state

    The global variables of [kalloc.c], [kmalloc.c], [list_proc.c], [proc.c]
    and [trap.c], the hart that runs, and the physical memory (the kernel's
    page table maps RAM at its own addresses).  An access outside RAM is a
    page fault in kernel mode, which [kerneltrap] turns into a panic. *)
From stdpp Require Import base gmap strings numbers option list.
From S2P Require Import Prelude Layout Machine Memory.
Open Scope Z_scope.

(** [kmem] of kalloc.c *)
Record kmem_t := mkKmem { kmem_lock : spinlock; freelist : Z }.

(** [process_list] and [rcu_writers_lock] of proc.c *)
Record plist_t := mkPlist { process_list : Z; rcu_writers_lock : spinlock }.

(** The other statics of proc.c, with [first] of [forkret]. *)
Record ptab_t := mkPtab {
  pid_lock : spinlock;
  wait_lock : spinlock;
  nextpid : Z;
  unique_id : Z;
  bitmap : list Z;
  initproc : Z;
  forkret_first : Z
}.

(** [tickslock] and [ticks] of trap.c *)
Record tick_t := mkTick { tickslock : spinlock; ticks : Z }.

(** [kernel_pagetable] of vm.c and the [satp] register of the hart *)
Record vm_t := mkVm { kernel_pagetable : Z; satp : Z }.

Record kst := mkK {
  k_hart : hartst;
  k_mem : mem;
  k_kmem : kmem_t;
  k_freep : Z;          (** [freep] of kmalloc.c *)
  k_plist : plist_t;
  k_ptab : ptab_t;
  k_tick : tick_t;
  k_vm : vm_t
}.

Definition set_hart (x : hartst) (s : kst) : kst :=
  mkK x (k_mem s) (k_kmem s) (k_freep s) (k_plist s) (k_ptab s) (k_tick s) (k_vm s).
Definition set_mem (x : mem) (s : kst) : kst :=
  mkK (k_hart s) x (k_kmem s) (k_freep s) (k_plist s) (k_ptab s) (k_tick s) (k_vm s).
Definition set_kmem (x : kmem_t) (s : kst) : kst :=
  mkK (k_hart s) (k_mem s) x (k_freep s) (k_plist s) (k_ptab s) (k_tick s) (k_vm s).
Definition set_freep (x : Z) (s : kst) : kst :=
  mkK (k_hart s) (k_mem s) (k_kmem s) x (k_plist s) (k_ptab s) (k_tick s) (k_vm s).
Definition set_plist (x : plist_t) (s : kst) : kst :=
  mkK (k_hart s) (k_mem s) (k_kmem s) (k_freep s) x (k_ptab s) (k_tick s) (k_vm s).
Definition set_ptab (x : ptab_t) (s : kst) : kst :=
  mkK (k_hart s) (k_mem s) (k_kmem s) (k_freep s) (k_plist s) x (k_tick s) (k_vm s).
Definition set_tick (x : tick_t) (s : kst) : kst :=
  mkK (k_hart s) (k_mem s) (k_kmem s) (k_freep s) (k_plist s) (k_ptab s) x (k_vm s).
Definition set_vm (x : vm_t) (s : kst) : kst :=
  mkK (k_hart s) (k_mem s) (k_kmem s) (k_freep s) (k_plist s) (k_ptab s) (k_tick s) x.

Definition set_freelist (x : Z) (s : kst) : kst :=
  set_kmem (mkKmem (kmem_lock (k_kmem s)) x) s.
Definition set_process_list (x : Z) (s : kst) : kst :=
  set_plist (mkPlist x (rcu_writers_lock (k_plist s))) s.

Definition hartL : lens kst hartst := Lens k_hart set_hart.

(** The hart together with one of the locks. *)
Definition kmemL : lens kst (hartst * spinlock) :=
  Lens (fun s => (k_hart s, kmem_lock (k_kmem s)))
       (fun p s => set_kmem (mkKmem p.2 (freelist (k_kmem s))) (set_hart p.1 s)).
Definition writersL : lens kst (hartst * spinlock) :=
  Lens (fun s => (k_hart s, rcu_writers_lock (k_plist s)))
       (fun p s => set_plist (mkPlist (process_list (k_plist s)) p.2) (set_hart p.1 s)).
Definition pidL : lens kst (hartst * spinlock) :=
  Lens (fun s => (k_hart s, pid_lock (k_ptab s)))
       (fun p s => let t := k_ptab s in
          set_ptab (mkPtab p.2 (wait_lock t) (nextpid t) (unique_id t) (bitmap t)
                     (initproc t) (forkret_first t)) (set_hart p.1 s)).
Definition waitL : lens kst (hartst * spinlock) :=
  Lens (fun s => (k_hart s, wait_lock (k_ptab s)))
       (fun p s => let t := k_ptab s in
          set_ptab (mkPtab (pid_lock t) p.2 (nextpid t) (unique_id t) (bitmap t)
                     (initproc t) (forkret_first t)) (set_hart p.1 s)).
Definition ticksL : lens kst (hartst * spinlock) :=
  Lens (fun s => (k_hart s, tickslock (k_tick s)))
       (fun p s => set_tick (mkTick p.2 (ticks (k_tick s))) (set_hart p.1 s)).

(** ** Memory accesses of kernel code *)

Definition in_ram (a n : Z) : bool := (KERNBASE <=? a) && (a + n <=? PHYSTOP).

Definition load (n : nat) (a : Z) : M kst Z := fun s =>
  if in_ram a (Z.of_nat n) then Ret (ld n (k_mem s) a) s else Err (EFault a) s.

Definition store (n : nat) (a v : Z) : M kst unit := fun s =>
  if in_ram a (Z.of_nat n) then Ret tt (set_mem (st n (k_mem s) a v) s) else Err (EFault a) s.

Abbreviation load64 := (load 8).
Abbreviation store64 := (store 8).
Abbreviation load32 := (load 4).
Abbreviation store32 := (store 4).

(** An [int] field. *)
Definition loadi (a : Z) : M kst Z := x ← load32 a; mret (i32 x).

Definition k_memset (dst c n : Z) : M kst unit := fun s =>
  if in_ram dst n then Ret tt (set_mem (memset (k_mem s) dst c n) s) else Err (EFault dst) s.

Definition k_memmove (dst src n : Z) : M kst unit := fun s =>
  if in_ram dst n then
    if in_ram src n then Ret tt (set_mem (memmove (k_mem s) dst src n) s)
    else Err (EFault src) s
  else Err (EFault dst) s.

Definition ram (a n : Z) : Prop := KERNBASE <= a /\ a + n <= PHYSTOP.

Lemma in_ram_true a n : ram a n -> in_ram a n = true.
Proof. intros [H1 H2]. unfold in_ram. apply andb_true_iff. split; by apply Z.leb_le. Qed.

Lemma load_eq n a s : ram a (Z.of_nat n) -> load n a s = Ret (ld n (k_mem s) a) s.
Proof. intros H. unfold load. by rewrite in_ram_true. Qed.

Lemma store_eq n a v s :
  ram a (Z.of_nat n) -> store n a v s = Ret tt (set_mem (st n (k_mem s) a v) s).
Proof. intros H. unfold store. by rewrite in_ram_true. Qed.

Lemma k_memset_eq dst c n s :
  ram dst n -> k_memset dst c n s = Ret tt (set_mem (memset (k_mem s) dst c n) s).
Proof. intros H. unfold k_memset. by rewrite in_ram_true. Qed.

Lemma k_memmove_eq dst src n s :
  ram dst n -> ram src n ->
  k_memmove dst src n s = Ret tt (set_mem (memmove (k_mem s) dst src n) s).
Proof. intros H1 H2. unfold k_memmove. by rewrite !in_ram_true. Qed.

Lemma wp_load n a Q s :
  ram a (Z.of_nat n) -> Q (ld n (k_mem s) a) s -> wp (load n a) Q s.
Proof. intros. eapply wp_eq; [by apply load_eq|done]. Qed.

Lemma wp_store n a v Q s :
  ram a (Z.of_nat n) -> Q tt (set_mem (st n (k_mem s) a v) s) -> wp (store n a v) Q s.
Proof. intros. eapply wp_eq; [by apply store_eq|done]. Qed.

Lemma wp_loadi a Q s : ram a 4 -> Q (ldi (k_mem s) a) s -> wp (loadi a) Q s.
Proof. intros. unfold loadi. apply wp_bind, wp_load; [done|]. by apply wp_ret. Qed.

Lemma wp_memset dst c n Q s :
  ram dst n -> Q tt (set_mem (memset (k_mem s) dst c n) s) -> wp (k_memset dst c n) Q s.
Proof. intros. eapply wp_eq; [by apply k_memset_eq|done]. Qed.

Lemma wp_memmove dst src n Q s :
  ram dst n -> ram src n ->
  Q tt (set_mem (memmove (k_mem s) dst src n) s) -> wp (k_memmove dst src n) Q s.
Proof. intros. eapply wp_eq; [by apply k_memmove_eq|done]. Qed.

(** Address zero is not mapped. *)
Lemma load_null n s : load n 0 s = Err (EFault 0) s.
Proof. done. Qed.

(** A free lock. *)
Definition lock_free (lk : spinlock) : Prop := lk_locked lk = 0 /\ lk_cpu lk = 0.

Lemma lock_free_eta lk : lock_free lk -> mkLock 0 (lk_name lk) 0 = lk.
Proof. destruct lk as [l n c]. unfold lock_free; simpl. by intros [-> ->]. Qed.

(** ** Messages

    What a call of [printf] leaves of this state is what [acquire] and
    [release] of [pr.lock] leave, which is free when no other hart prints: the
    hart is not idle any more, and a hart that was in no critical section has
    its interrupt flag saved.  The bytes go to the console, a state of its own. *)
Section klog.
Context `{im : Image}.

Definition prL : lens kst (hartst * spinlock) :=
  Lens (fun s => (k_hart s, mkLock 0 0 0)) (fun p s => set_hart p.1 s).

Definition klog : M kst unit := zoom prL (acquire;; release).

Lemma klog_eq s : hart_ok (k_hart s) -> klog s = Ret tt (set_hart (settle (k_hart s)) s).
Proof.
  intros Hok. pose proof (cur_noff_nonneg _ Hok). unfold klog, zoom, mbind, M_bind. cbn [lget prL].
  rewrite acquire_eq by done.
  rewrite release_eq; [|by apply hart_ok_acquired|rewrite acquired_noff by done; lia|done|done].
  by rewrite popped_acquired.
Qed.

Lemma wp_klog Q s : hart_ok (k_hart s) -> Q tt (set_hart (settle (k_hart s)) s) -> wp klog Q s.
Proof. intros. eapply wp_eq; [by apply klog_eq|done]. Qed.

End klog.
