(* ===== verification/Demo.v ===== *)
(** * A concrete kernel image and states to evaluate the model on

    Addresses of the size the linker gives them, two harts and a
    memory that is all zero apart from what an example stores in it. *)
From stdpp Require Import base gmap strings numbers option list.
From S2P Require Import Prelude Layout Machine Memory Kernel.
Open Scope Z_scope.

Definition demo_image : Image := {|
  end_sym := 0x80030000;
  etext := 0x80009000;
  trampoline_sym := 0x80007000;
  cpus_addr := 0x80011000;
  base_addr := 0x80012000;
  forkret_addr := 0x80002000;
  usertrap_addr := 0x80003000;
  ticks_addr := 0x80009020;
  strlit := fun _ => 0x80008000
|}.

Lemma demo_image_ok : ImageOk demo_image.
Proof. split; vm_compute; repeat split; discriminate. Qed.

Definition demo_lock : spinlock := mkLock 0 0x80008000 0.

Definition demo_hart : hartst := mkHart (replicate 2 (mkCpu 0 context0 0 0 0)) 0 2.

Lemma demo_hart_ok : hart_ok demo_hart.
Proof.
  split.
  - vm_compute. split; [discriminate|done].
  - done.
  - intros c [= <-]. simpl. lia.
  - intros c [= <-]. simpl. lia.
Qed.

(** The state with memory [m], free list [fl] and process list [pl]. *)
Definition demo_kst (m : mem) (fl pl : Z) : kst :=
  mkK demo_hart m (mkKmem demo_lock fl) 0 (mkPlist pl demo_lock)
    (mkPtab demo_lock demo_lock 1 0 (replicate 64 0) 0 1) (mkTick demo_lock 0) (mkVm 0 0).

Lemma demo_lock_free : lock_free demo_lock.
Proof. done. Qed.
