(* ===== verification/Spinlock.v ===== *)
(** * Spinlocks under interleaving, [kernel/spinlock.c]

    [Machine] has [acquire] and [release] as one hart runs them undisturbed.
    Here every hart runs the same two functions on one shared lock, one
    memory access at a time, in any order: [lock_step i] is the next access
    of hart [i] to the lock or to the [idle] flag that other harts read.
    [holding] is two accesses, [lk->locked] and, when that is set, [lk->cpu].
    [push_off] and [pop_off], which touch only what belongs to the hart, and the
    atomic swap are the definitions of [Machine]. *)
From stdpp Require Import base gmap strings numbers option list.
From S2P Require Import Prelude Layout Machine Demo.
Open Scope Z_scope.

(** Where a hart stands in [acquire] or [release]. *)
Inductive lpc :=
| LOut      (** outside; next: [push_off()] of [acquire] *)
| LCheck    (** next: [lk->locked] of [holding(lk)] *)
| LCheckCpu (** next: [lk->cpu == mycpu()] of [holding(lk)] *)
| LIdle     (** next: [idle = 1] *)
| LSpin     (** next: the atomic swap on [lk->locked] *)
| LGot      (** next: [lk->cpu = mycpu()] *)
| LNamed    (** next: [idle = 0] *)
| LIn       (** in the critical section; next: [lk->locked] of [holding(lk)] of [release] *)
| LInCpu    (** next: [lk->cpu == mycpu()] of that [holding(lk)] *)
| LRel      (** next: [lk->cpu = 0] *)
| LUnnamed  (** next: the atomic store of 0 to [lk->locked] *)
| LPop      (** next: [pop_off()] *)
| LPanic.

#[export] Instance lpc_eq_dec : EqDecision lpc.
Proof. solve_decision. Defined.

Record msys := mkMsys {
  ms_cpus : list cpu;
  ms_status : list Z;     (** [sstatus] of each hart *)
  ms_lock : spinlock;
  ms_pc : list lpc
}.

Section spinlock.
Context `{im : Image}.

Definition hart_of (s : msys) (i : nat) : hartst :=
  mkHart (ms_cpus s) (Z.of_nat i) (nth i (ms_status s) 0).

Definition put_hart (i : nat) (h : hartst) (s : msys) : msys :=
  mkMsys (cpus h) (<[i := sstatus h]> (ms_status s)) (ms_lock s) (ms_pc s).

Definition pc_at (s : msys) (i : nat) : lpc := nth i (ms_pc s) LOut.
Definition set_pc (i : nat) (p : lpc) (s : msys) : msys :=
  mkMsys (ms_cpus s) (ms_status s) (ms_lock s) (<[i := p]> (ms_pc s)).
Definition set_lock (lk : spinlock) (s : msys) : msys :=
  mkMsys (ms_cpus s) (ms_status s) lk (ms_pc s).

(** Run a per-hart operation on hart [i] and go to [p]. *)
Definition run (i : nat) (m : M hartst unit) (p : lpc) (s : msys) : msys :=
  match m (hart_of s i) with
  | Ret _ h => set_pc i p (put_hart i h s)
  | Err _ _ => set_pc i LPanic s
  end.

Definition lock_step (i : nat) (s : msys) : msys :=
  let lk := ms_lock s in
  let mine := lk_cpu lk =? mycpu_ptr (hart_of s i) in
  match pc_at s i with
  | LOut => run i push_off LCheck s
  | LCheck => set_pc i (if lk_locked lk =? 0 then LIdle else LCheckCpu) s
  | LCheckCpu => set_pc i (if mine then LPanic else LIdle) s
  | LIdle => run i (mycpu_set (set_idle 1)) LSpin s
  | LSpin =>
      match lock_test_and_set lk with
      | Ret old lk' => set_pc i (if negb (old =? 0) then LSpin else LGot) (set_lock lk' s)
      | Err _ _ => set_pc i LPanic s
      end
  | LGot => set_pc i LNamed (set_lock (mkLock (lk_locked lk) (lk_name lk) (mycpu_ptr (hart_of s i))) s)
  | LNamed => run i (mycpu_set (set_idle 0)) LIn s
  | LIn => set_pc i (if lk_locked lk =? 0 then LPanic else LInCpu) s
  | LInCpu => set_pc i (if mine then LRel else LPanic) s
  | LRel => set_pc i LUnnamed (set_lock (mkLock (lk_locked lk) (lk_name lk) 0) s)
  | LUnnamed => set_pc i LPop (set_lock (mkLock 0 (lk_name lk) (lk_cpu lk)) s)
  | LPop => run i pop_off LOut s
  | LPanic => s
  end.

Inductive lreachable (s0 : msys) : msys -> Prop :=
| lreach_refl : lreachable s0 s0
| lreach_step s i : lreachable s0 s -> (i < Z.to_nat NCPU)%nat -> lreachable s0 (lock_step i s).

(** ** The invariant *)

Definition owns (p : lpc) : bool :=
  match p with LGot | LNamed | LIn | LInCpu | LRel | LUnnamed => true | _ => false end.
Definition named (p : lpc) : bool :=
  match p with LNamed | LIn | LInCpu | LRel => true | _ => false end.
Definition pinned (p : lpc) : bool :=
  match p with LOut | LPanic => false | _ => true end.

Definition in_range (i : nat) : Prop := (i < Z.to_nat NCPU)%nat.

Record lock_inv (s : msys) : Prop := {
  li_cpus : length (ms_cpus s) = Z.to_nat NCPU;
  li_status : length (ms_status s) = Z.to_nat NCPU;
  li_pcs : length (ms_pc s) = Z.to_nat NCPU;
  li_harts : forall i, in_range i -> hart_ok (hart_of s i);
  li_noff : forall i, in_range i -> pinned (pc_at s i) = true -> 0 < c_noff (cur (hart_of s i));
  li_panic : forall i, in_range i -> pc_at s i <> LPanic;
  li_unique : forall i j, in_range i -> in_range j ->
    owns (pc_at s i) = true -> owns (pc_at s j) = true -> i = j;
  li_locked : lk_locked (ms_lock s) <> 0 <-> exists i, in_range i /\ owns (pc_at s i) = true;
  li_cpu : forall i, in_range i ->
    lk_cpu (ms_lock s) = mycpu_ptr (hart_of s i) <-> named (pc_at s i) = true
}.

(** All harts outside, the lock just initialised. *)
Record lock_init (s : msys) : Prop := {
  l0_cpus : length (ms_cpus s) = Z.to_nat NCPU;
  l0_status : length (ms_status s) = Z.to_nat NCPU;
  l0_pc : ms_pc s = replicate (Z.to_nat NCPU) LOut;
  l0_harts : forall i, in_range i -> hart_ok (hart_of s i);
  l0_lock : lk_locked (ms_lock s) = 0 /\ lk_cpu (ms_lock s) = 0
}.

Context `{!ImageOk im}.

Lemma mycpu_ptr_pos h : 0 <= tp h -> mycpu_ptr h <> 0.
Proof. intros H. pose proof im_cpus. unfold mycpu_ptr, KERNBASE in *. lia. Qed.

Lemma mycpu_ptr_inj s i j : mycpu_ptr (hart_of s i) = mycpu_ptr (hart_of s j) -> i = j.
Proof. unfold mycpu_ptr; simpl. lia. Qed.

Lemma pc_at_set s i j p :
  length (ms_pc s) = Z.to_nat NCPU -> in_range i ->
  pc_at (set_pc i p s) j = if decide (i = j) then p else pc_at s j.
Proof.
  intros Hl Hi. unfold pc_at, set_pc, in_range in *; simpl. rewrite !nth_lookup.
  destruct (decide (i = j)) as [->|Hne].
  - by rewrite list_lookup_insert_eq by lia.
  - by rewrite list_lookup_insert_ne.
Qed.

(** Running hart [i] leaves the other harts as they are. *)
Record hart_moved (s : msys) (i : nat) (h : hartst) : Prop := {
  hm_ok : hart_ok h;
  hm_tp : tp h = Z.of_nat i;
  hm_others : forall j, j <> i -> cpus h !! j = ms_cpus s !! j
}.

Lemma hart_of_put_eq s i h :
  lock_inv s -> in_range i -> hart_moved s i h -> hart_of (put_hart i h s) i = h.
Proof.
  intros Hinv Hi [Hok Ht _]. unfold hart_of, put_hart; simpl. destruct h as [cs t ss]; simpl in *.
  rewrite Ht, nth_lookup, list_lookup_insert_eq; [done|]. rewrite li_status; done.
Qed.

Lemma hart_of_put_ne s i j h :
  hart_moved s i h -> j <> i ->
  cur (hart_of (put_hart i h s) j) = cur (hart_of s j) /\
  sie (hart_of (put_hart i h s) j) = sie (hart_of s j).
Proof.
  intros [_ _ Ho] Hne. unfold cur, sie, hart_of, put_hart; simpl. split.
  - by rewrite !Nat2Z.id, Ho.
  - by rewrite !nth_lookup, list_lookup_insert_ne by done.
Qed.

Lemma mycpu_ptr_put s i j h : mycpu_ptr (hart_of (put_hart i h s) j) = mycpu_ptr (hart_of s j).
Proof. done. Qed.

(** A step of the hart's own state that keeps its claim on the lock. *)
Lemma inv_run s i m h p :
  lock_inv s -> in_range i -> m (hart_of s i) = Ret tt h -> hart_moved s i h ->
  owns p = owns (pc_at s i) -> named p = named (pc_at s i) -> p <> LPanic ->
  (pinned p = true -> 0 < c_noff (cur h)) ->
  lock_inv (run i m p s).
Proof.
  intros Hinv Hi Hm Hmv Ho Hn Hp Hnoff. unfold run. rewrite Hm.
  pose proof (hart_of_put_eq s i h Hinv Hi Hmv) as Heq.
  destruct Hinv as [H1 H2 H3 H4 H5 H6 H7 H8 H9].
  assert (length (ms_pc (put_hart i h s)) = Z.to_nat NCPU) as H3' by done.
  assert (forall j, owns (pc_at (set_pc i p (put_hart i h s)) j) = owns (pc_at s j)) as HO.
  { intros j. rewrite pc_at_set by done. by destruct (decide (i = j)) as [<-|]. }
  assert (forall j, named (pc_at (set_pc i p (put_hart i h s)) j) = named (pc_at s j)) as HN.
  { intros j. rewrite pc_at_set by done. by destruct (decide (i = j)) as [<-|]. }
  split.
  - simpl. by destruct Hmv as [[]].
  - simpl. by rewrite length_insert.
  - simpl. by rewrite length_insert.
  - intros j Hj. change (hart_of (set_pc _ _ _) j) with (hart_of (put_hart i h s) j).
    destruct (decide (j = i)) as [->|Hne]; [rewrite Heq; by destruct Hmv|].
    destruct (hart_of_put_ne s i j h Hmv Hne) as [Hc Hs]. unfold in_range in Hj.
    apply hart_ok_intro; [simpl; lia|simpl; by destruct Hmv as [[]]|rewrite Hc|rewrite Hc, Hs].
    + by apply cur_noff_nonneg, H4.
    + by apply cur_sie, H4.
  - intros j Hj. rewrite pc_at_set by done.
    change (hart_of (set_pc _ _ _) j) with (hart_of (put_hart i h s) j).
    destruct (decide (i = j)) as [<-|Hne]; [by rewrite Heq|].
    destruct (hart_of_put_ne s i j h Hmv) as [-> _]; [done|]. by apply H5.
  - intros j Hj. rewrite pc_at_set by done. destruct (decide (i = j)); [done|]. by apply H6.
  - intros j k Hj Hk. rewrite !HO. by apply H7.
  - simpl. rewrite H8. by setoid_rewrite HO.
  - intros j Hj. rewrite HN. by apply H9.
Qed.

(** A step on the lock itself. *)
Lemma inv_lock s i lk p :
  lock_inv s -> in_range i -> p <> LPanic ->
  (pinned p = true -> pinned (pc_at s i) = true) ->
  (owns p = true -> forall j, in_range j -> j <> i -> owns (pc_at s j) = false) ->
  (lk_locked lk <> 0 <-> owns p = true \/ exists j, in_range j /\ j <> i /\ owns (pc_at s j) = true) ->
  (lk_cpu lk = mycpu_ptr (hart_of s i) <-> named p = true) ->
  (forall j, in_range j -> j <> i -> lk_cpu lk = mycpu_ptr (hart_of s j) <->
     lk_cpu (ms_lock s) = mycpu_ptr (hart_of s j)) ->
  lock_inv (set_pc i p (set_lock lk s)).
Proof.
  intros [H1 H2 H3 H4 H5 H6 H7 H8 H9] Hi Hp Hpin Hown Hlk Hci Hcj.
  assert (forall j, pc_at (set_pc i p (set_lock lk s)) j =
    if decide (i = j) then p else pc_at s j) as Hpc.
  { intros j. by rewrite pc_at_set. }
  split; simpl; try done.
  - by rewrite length_insert.
  - intros j Hj. rewrite Hpc. intros Hb. apply H5; [done|].
    destruct (decide (i = j)) as [<-|]; auto.
  - intros j Hj. rewrite Hpc. destruct (decide (i = j)); auto.
  - intros j k Hj Hk. rewrite !Hpc.
    destruct (decide (i = j)) as [<-|], (decide (i = k)) as [<-|]; intros Oj Ok; try done; auto.
    + rewrite Hown in Ok; try done; congruence.
    + rewrite Hown in Oj; try done; congruence.
  - rewrite Hlk. split.
    + intros [Ho|(j & Hj & Hne & Ho)].
      * exists i. rewrite Hpc, decide_True by done. done.
      * exists j. rewrite Hpc, decide_False by done. done.
    + intros (j & Hj & Ho). rewrite Hpc in Ho. destruct (decide (i = j)) as [<-|]; [by left|].
      right. exists j. auto.
  - intros j Hj. rewrite Hpc. destruct (decide (i = j)) as [<-|]; [done|].
    change (hart_of (set_pc _ _ _) j) with (hart_of s j). rewrite Hcj by done. by apply H9.
Qed.

(** A hart finds its own name in the lock exactly when it has put it there. *)
Lemma mine_named s i :
  lock_inv s -> in_range i -> (lk_cpu (ms_lock s) =? mycpu_ptr (hart_of s i)) = named (pc_at s i).
Proof.
  intros Hinv Hi. apply eq_true_iff_eq. rewrite Z.eqb_eq. by apply (li_cpu s Hinv).
Qed.

Lemma owner_locked s i : lock_inv s -> in_range i -> owns (pc_at s i) = true -> lk_locked (ms_lock s) <> 0.
Proof. intros Hinv Hi Ho. apply (li_locked s Hinv). by exists i. Qed.

Lemma other_not_owner s i j :
  lock_inv s -> in_range i -> in_range j -> j <> i -> owns (pc_at s i) = true ->
  owns (pc_at s j) = false.
Proof.
  intros Hinv Hi Hj Hne Ho. destruct (owns (pc_at s j)) eqn:E; [|done].
  by destruct Hne; apply (li_unique s Hinv).
Qed.

Lemma named_owns p : named p = true -> owns p = true.
Proof. by destruct p. Qed.

Lemma other_not_named s i j :
  lock_inv s -> in_range i -> in_range j -> j <> i -> owns (pc_at s i) = true ->
  lk_cpu (ms_lock s) <> mycpu_ptr (hart_of s j).
Proof.
  intros Hinv Hi Hj Hne Ho E. apply (li_cpu s Hinv j Hj), named_owns in E.
  by rewrite (other_not_owner s i j) in E.
Qed.

Lemma moved_upd s i f :
  lock_inv s -> in_range i -> c_noff (f (cur (hart_of s i))) = c_noff (cur (hart_of s i)) ->
  hart_moved s i (upd_cur f (hart_of s i)).
Proof.
  intros Hinv Hi Hf. split; [apply hart_ok_upd; [by apply li_harts|done]|done|].
  intros j Hj. simpl. rewrite Nat2Z.id. by rewrite list_lookup_alter_ne.
Qed.

Lemma moved_pushed s i :
  lock_inv s -> in_range i -> hart_moved s i (pushed (hart_of s i)).
Proof.
  intros Hinv Hi. split; [by apply hart_ok_pushed, li_harts|done|].
  intros j Hj. simpl. rewrite Nat2Z.id. by rewrite list_lookup_alter_ne.
Qed.

Lemma moved_popped s i :
  lock_inv s -> in_range i -> 0 < c_noff (cur (hart_of s i)) ->
  hart_moved s i (popped (hart_of s i)).
Proof.
  intros Hinv Hi Hn. split; [apply hart_ok_popped; [by apply li_harts|done]| |].
  - unfold popped. by destruct (_ && _).
  - intros j Hj. unfold popped. destruct (_ && _); simpl; rewrite Nat2Z.id;
      by rewrite list_lookup_alter_ne.
Qed.

(** ** Every step keeps the invariant *)

Lemma no_named_zero s j : in_range j -> 0 <> mycpu_ptr (hart_of s j).
Proof. intros _ E. symmetry in E. by apply mycpu_ptr_pos in E; [|simpl; lia]. Qed.

(** The checks move only the program counter. *)
Lemma inv_pc s i p :
  lock_inv s -> in_range i -> p <> LPanic -> pinned (pc_at s i) = true ->
  owns p = owns (pc_at s i) -> named p = named (pc_at s i) -> lock_inv (set_pc i p s).
Proof.
  intros Hinv Hi Hp Hpin Ho Hn.
  change (set_pc i p s) with (set_pc i p (set_lock (ms_lock s) s)).
  apply inv_lock; try done.
  - intros E j Hj Hne. apply (other_not_owner s i); try done. congruence.
  - rewrite (li_locked s Hinv), Ho. split.
    + intros (j & Hj & Hj'). destruct (decide (j = i)) as [->|]; [by left|right; by exists j].
    + intros [E|(j & Hj & _ & E)]; [by exists i|by exists j].
  - rewrite Hn. by apply (li_cpu s Hinv).
Qed.

Lemma inv_swap s i :
  lock_inv s -> in_range i -> pc_at s i = LSpin -> lock_inv (lock_step i s).
Proof.
  intros Hinv Hi Hpc. unfold lock_step. rewrite Hpc. unfold lock_test_and_set.
  assert (forall j, in_range j -> j <> i -> lk_locked (ms_lock s) = 0 -> owns (pc_at s j) = false)
    as Hfree.
  { intros j Hj _ E. destruct (owns (pc_at s j)) eqn:Eo; [|done].
    destruct (proj2 (li_locked s Hinv)); [|done]. by exists j. }
  assert (forall p, owns p = false \/ lk_locked (ms_lock s) = 0 -> owns p = true \/ lk_locked (ms_lock s) <> 0 ->
    named p = false -> pinned p = true -> p <> LPanic -> lock_inv (set_pc i p
      (set_lock (mkLock 1 (lk_name (ms_lock s)) (lk_cpu (ms_lock s))) s))) as H.
  { intros p H1 H2 H3 H4 H5. apply inv_lock; try done.
    - by rewrite Hpc.
    - intros E j Hj Hne. apply Hfree; try done. destruct H1; congruence.
    - simpl. split; [intros _|done]. destruct H2 as [?|H2]; [by left|]. right.
      apply (li_locked s Hinv) in H2 as (j & Hj & Ho). exists j. split; [done|]. split; [|done].
      intros ->. by rewrite Hpc in Ho.
    - simpl. rewrite H3, (li_cpu s Hinv) by done. by rewrite Hpc. }
  destruct (Z.eqb_spec (lk_locked (ms_lock s)) 0); simpl; apply H; auto.
Qed.

Lemma inv_name s i :
  lock_inv s -> in_range i -> pc_at s i = LGot -> lock_inv (lock_step i s).
Proof.
  intros Hinv Hi Hpc. unfold lock_step. rewrite Hpc.
  assert (owns (pc_at s i) = true) as Ho by (by rewrite Hpc).
  apply inv_lock; simpl; try done.
  - by rewrite Hpc.
  - intros _ j Hj Hne. by apply (other_not_owner s i).
  - rewrite (li_locked s Hinv). split; [by left|]. intros _. by exists i.
  - intros j Hj Hne. split; intros E.
    + by apply mycpu_ptr_inj in E.
    + by apply (other_not_named s i) in E.
Qed.

Lemma inv_unname s i :
  lock_inv s -> in_range i -> pc_at s i = LRel -> lock_inv (lock_step i s).
Proof.
  intros Hinv Hi Hpc. unfold lock_step. rewrite Hpc.
  assert (owns (pc_at s i) = true) as Ho by (by rewrite Hpc).
  apply inv_lock; simpl; try done.
  - by rewrite Hpc.
  - intros _ j Hj Hne. by apply (other_not_owner s i).
  - rewrite (li_locked s Hinv). split; [by left|]. intros _. by exists i.
  - split; [|done]. intros E. by apply no_named_zero in E.
  - intros j Hj Hne. split; intros E.
    + by apply no_named_zero in E.
    + by apply (other_not_named s i) in E.
Qed.

Lemma inv_unlock s i :
  lock_inv s -> in_range i -> pc_at s i = LUnnamed -> lock_inv (lock_step i s).
Proof.
  intros Hinv Hi Hpc. unfold lock_step. rewrite Hpc.
  assert (owns (pc_at s i) = true) as Ho by (by rewrite Hpc).
  apply inv_lock; simpl; try done.
  - by rewrite Hpc.
  - split; [done|]. intros [?|(j & Hj & Hne & E)]; [done|].
    by rewrite (other_not_owner s i) in E.
  - rewrite (li_cpu s Hinv) by done. by rewrite Hpc.
Qed.

Lemma lock_inv_step s i : lock_inv s -> in_range i -> lock_inv (lock_step i s).
Proof.
  intros Hinv Hi. pose proof (li_harts s Hinv i Hi) as Hok.
  pose proof (li_noff s Hinv i Hi) as Hn. destruct (pc_at s i) eqn:Hpc.
  - unfold lock_step. rewrite Hpc. apply (inv_run _ _ _ (pushed (hart_of s i)));
      rewrite ?Hpc; try done; [by apply push_off_eq|by apply moved_pushed|].
    intros _. unfold pushed. rewrite cur_upd by (by apply hart_ok_sie_off). simpl.
    change (cur (sie_off (hart_of s i))) with (cur (hart_of s i)).
    pose proof (cur_noff_nonneg _ Hok). lia.
  - unfold lock_step. rewrite Hpc. destruct (_ =? 0); apply inv_pc; by rewrite ?Hpc.
  - unfold lock_step. rewrite mine_named, Hpc by done. apply inv_pc; by rewrite ?Hpc.
  - unfold lock_step. rewrite Hpc. apply (inv_run _ _ _ (upd_cur (set_idle 1) (hart_of s i)));
      rewrite ?Hpc; try done; [by apply mycpu_set_eq|by apply moved_upd|]. intros _. rewrite cur_upd by done. by apply Hn.
  - by apply inv_swap.
  - by apply inv_name.
  - unfold lock_step. rewrite Hpc. apply (inv_run _ _ _ (upd_cur (set_idle 0) (hart_of s i)));
      rewrite ?Hpc; try done; [by apply mycpu_set_eq|by apply moved_upd|]. intros _. rewrite cur_upd by done. by apply Hn.
  - unfold lock_step. rewrite Hpc, (proj2 (Z.eqb_neq _ _) (owner_locked s i Hinv Hi ltac:(by rewrite Hpc))).
    apply inv_pc; by rewrite ?Hpc.
  - unfold lock_step. rewrite mine_named, Hpc by done. apply inv_pc; by rewrite ?Hpc.
  - by apply inv_unname.
  - by apply inv_unlock.
  - unfold lock_step. rewrite Hpc. apply (inv_run _ _ _ (popped (hart_of s i)));
      rewrite ?Hpc; try done; [apply pop_off_eq; [done|by apply Hn]|apply moved_popped; [done|done|by apply Hn]].
  - by destruct (li_panic s Hinv i Hi).
Qed.

Lemma lock_inv_init s : lock_init s -> lock_inv s.
Proof.
  intros [H1 H2 H3 H4 [H5 H6]].
  assert (forall i, pc_at s i = LOut) as Hpc.
  { intros i. unfold pc_at. rewrite H3, nth_lookup.
    destruct (replicate (Z.to_nat NCPU) LOut !! i) eqn:E; [|done].
    by apply lookup_replicate_1 in E as [-> _]. }
  split; try done.
  - by rewrite H3, length_replicate.
  - intros i Hi. by rewrite Hpc.
  - intros i Hi. by rewrite Hpc.
  - intros i j Hi Hj. by rewrite Hpc.
  - rewrite H5. split; [done|]. intros (i & _ & E). by rewrite Hpc in E.
  - intros i Hi. rewrite Hpc, H6. split; [|done]. intros E. by apply no_named_zero in E.
Qed.

Lemma lock_inv_reachable s0 s : lock_init s0 -> lreachable s0 s -> lock_inv s.
Proof. intros H0 Hr. induction Hr; [by apply lock_inv_init|by apply lock_inv_step]. Qed.

(** ** One hart alone *)

(** [s] with hart [i] in state [h] at [p], and lock [lk]. *)
Definition with_hart (s : msys) (i : nat) (h : hartst) (lk : spinlock) (p : lpc) : msys :=
  mkMsys (cpus h) (<[i := sstatus h]> (ms_status s)) lk (<[i := p]> (ms_pc s)).

Fixpoint steps (n i : nat) (s : msys) : msys :=
  match n with
  | O => s
  | S n' => steps n' i (lock_step i s)
  end.

Section alone.
Context (s : msys) (i : nat).
Hypothesis Hi : in_range i.
Hypothesis Hst : length (ms_status s) = Z.to_nat NCPU.
Hypothesis Hpc : length (ms_pc s) = Z.to_nat NCPU.

Lemma with_hart_of h lk p : tp h = Z.of_nat i -> hart_of (with_hart s i h lk p) i = h.
Proof.
  intros Ht. destruct h as [cs t ss]. unfold hart_of, with_hart; simpl in *. unfold in_range in Hi.
  by rewrite nth_lookup, list_lookup_insert_eq, Ht by lia.
Qed.

Lemma with_hart_pc h lk p : pc_at (with_hart s i h lk p) i = p.
Proof.
  unfold pc_at, with_hart; simpl. unfold in_range in Hi.
  by rewrite nth_lookup, list_lookup_insert_eq by lia.
Qed.

Lemma with_hart_run h lk p m h' p' :
  tp h = Z.of_nat i -> m h = Ret tt h' ->
  run i m p' (with_hart s i h lk p) = with_hart s i h' lk p'.
Proof.
  intros Ht Hm. unfold run. rewrite with_hart_of, Hm by done.
  unfold set_pc, put_hart, with_hart; simpl. by rewrite !list_insert_insert_eq.
Qed.

Lemma with_hart_set h lk p lk' p' :
  set_pc i p' (set_lock lk' (with_hart s i h lk p)) = with_hart s i h lk' p'.
Proof. unfold set_pc, set_lock, with_hart; simpl. by rewrite list_insert_insert_eq. Qed.

Lemma with_hart_set_pc h lk p p' : set_pc i p' (with_hart s i h lk p) = with_hart s i h lk p'.
Proof. unfold set_pc, with_hart; simpl. by rewrite list_insert_insert_eq. Qed.

Lemma alone_acquire h lk :
  hart_ok h -> tp h = Z.of_nat i -> lk_locked lk = 0 ->
  steps 6 i (with_hart s i h lk LOut) = with_hart s i (acquired h) (held h lk) LIn.
Proof.
  intros Hok Ht Hl. pose proof (hart_ok_pushed h Hok) as Hok'. cbn [steps].
  unfold lock_step at 6. rewrite with_hart_pc, (with_hart_run _ _ _ _ (pushed h)) by (by try apply push_off_eq).
  unfold lock_step at 5. rewrite with_hart_pc. simpl. rewrite Hl. simpl.
  rewrite with_hart_set_pc.
  unfold lock_step at 4. rewrite with_hart_pc, (with_hart_run _ _ _ _ (upd_cur (set_idle 1) (pushed h)))
    by (by try apply mycpu_set_eq).
  unfold lock_step at 3. rewrite with_hart_pc. simpl. rewrite Hl. simpl. rewrite with_hart_set.
  unfold lock_step at 2. rewrite with_hart_pc. simpl. rewrite with_hart_set, with_hart_of by done.
  unfold lock_step at 1. rewrite with_hart_pc.
  rewrite (with_hart_run _ _ _ _ (acquired h)); [done|done|].
  rewrite mycpu_set_eq by (by apply hart_ok_upd). unfold acquired. by rewrite upd_upd.
Qed.

Lemma alone_release h lk :
  hart_ok h -> tp h = Z.of_nat i -> 0 < c_noff (cur h) -> lk_locked lk <> 0 ->
  lk_cpu lk = mycpu_ptr h ->
  steps 5 i (with_hart s i h lk LIn) = with_hart s i (popped h) (mkLock 0 (lk_name lk) 0) LOut.
Proof.
  intros Hok Ht Hn Hl Hc. cbn [steps].
  unfold lock_step at 5. rewrite with_hart_pc. simpl. rewrite (proj2 (Z.eqb_neq _ _) Hl), with_hart_set_pc.
  unfold lock_step at 4. rewrite with_hart_pc, with_hart_of by done. simpl.
  rewrite Hc, Z.eqb_refl, with_hart_set_pc.
  unfold lock_step at 3. rewrite with_hart_pc. simpl. rewrite with_hart_set.
  unfold lock_step at 2. rewrite with_hart_pc. simpl. rewrite with_hart_set.
  unfold lock_step at 1. rewrite with_hart_pc.
  by rewrite (with_hart_run _ _ _ _ (popped h)) by (by try apply pop_off_eq).
Qed.

End alone.

(** ** Claims *)

(** C3: mutual exclusion.  However the harts interleave, at most one of them
    is between the successful swap of [acquire] and the end of [release];
    while one is in the critical section the lock records it, its interrupts
    are off, and none of the panics of [acquire], [release] and [pop_off] is
    ever reached. *)
Theorem spinlock_mutual_exclusion s0 s :
  lock_init s0 -> lreachable s0 s ->
  (forall i j, in_range i -> in_range j ->
     owns (pc_at s i) = true -> owns (pc_at s j) = true -> i = j) /\
  (forall i, in_range i -> pc_at s i = LIn ->
     lk_locked (ms_lock s) <> 0 /\ lk_cpu (ms_lock s) = mycpu_ptr (hart_of s i) /\
     sie (hart_of s i) = false) /\
  (forall i, in_range i -> pc_at s i <> LPanic).
Proof.
  intros H0 Hr. pose proof (lock_inv_reachable _ _ H0 Hr) as Hinv.
  split; [by apply li_unique|]. split; [|by apply li_panic]. intros i Hi Hpc. split; [|split].
  - apply (li_locked s Hinv). exists i. by rewrite Hpc.
  - apply (li_cpu s Hinv); [done|]. by rewrite Hpc.
  - apply cur_sie; [by apply li_harts|]. apply li_noff; [done|done|]. by rewrite Hpc.
Qed.

(** The interleaved machine runs the same code as the sequential
    definitions.  A hart that takes its steps alone goes through [acquire] in
    six and through [release] in five, and ends in the state that the
    functions [acquire] and [release] compute. *)
Theorem spinlock_steps_agree s i h lk h1 lk1 h2 lk2 :
  in_range i -> length (ms_status s) = Z.to_nat NCPU -> length (ms_pc s) = Z.to_nat NCPU ->
  hart_ok h -> tp h = Z.of_nat i -> lk_locked lk = 0 ->
  acquire (h, lk) = Ret tt (h1, lk1) -> release (h1, lk1) = Ret tt (h2, lk2) ->
  steps 6 i (with_hart s i h lk LOut) = with_hart s i h1 lk1 LIn /\
  steps 5 i (with_hart s i h1 lk1 LIn) = with_hart s i h2 lk2 LOut.
Proof.
  intros Hi Hst Hpc Hok Ht Hl Ha Hr. rewrite acquire_eq in Ha by done. injection Ha as <- <-.
  assert (0 < c_noff (cur (acquired h))) as Hn.
  { rewrite acquired_noff by done. pose proof (cur_noff_nonneg h Hok). lia. }
  rewrite release_eq in Hr; [|by apply hart_ok_acquired|done|done|done]. injection Hr as <- <-.
  split; [by apply alone_acquire|].
  apply (alone_release s i Hi Hst Hpc (acquired h) (held h lk)); try done.
  by apply hart_ok_acquired.
Qed.

End spinlock.

(** ** Witnesses: two harts and a free lock *)

Definition demo_msys : msys :=
  mkMsys (replicate 2 (mkCpu 0 context0 0 0 0)) [2; 2] (mkLock 0 0 0) [LOut; LOut].

Lemma demo_lock_init : lock_init demo_msys.
Proof.
  split; try done. intros i Hi. assert (i = 0%nat \/ i = 1%nat) as [-> | ->]
    by (unfold in_range, NCPU in Hi; lia); split; simpl; try done; intros c [= <-]; simpl; lia.
Qed.

Lemma spinlock_mutual_exclusion_witness :
  let s := lock_step (im := demo_image) 1 (lock_step (im := demo_image) 1
             (steps (im := demo_image) 6 0 demo_msys)) in
  pc_at s 0 = LIn /\ forall j, in_range j -> owns (pc_at s j) = true -> j = 0%nat.
Proof.
  intros s. split; [reflexivity|]. intros j Hj Ho.
  destruct (spinlock_mutual_exclusion (im := demo_image) (ImageOk0 := demo_image_ok) demo_msys s)
    as [H _].
  - apply demo_lock_init.
  - unfold s. cbn [steps]. do 8 (apply lreach_step; [|unfold NCPU; lia]). apply lreach_refl.
  - apply (H j 0%nat); [done|unfold in_range, NCPU; lia|done|reflexivity].
Defined.

Lemma spinlock_steps_agree_witness :
  steps (im := demo_image) 6 0 (with_hart demo_msys 0 demo_hart demo_lock LOut) =
  with_hart demo_msys 0 (acquired demo_hart) (held (im := demo_image) demo_hart demo_lock) LIn.
Proof.
  eapply (proj1 (spinlock_steps_agree (im := demo_image) demo_msys 0 demo_hart demo_lock _ _ _ _
    ltac:(unfold in_range, NCPU; lia) eq_refl eq_refl demo_hart_ok eq_refl eq_refl eq_refl eq_refl)).
Defined.
