(* ===== verification/Kalloc.v ===== *)
(** * The physical page allocator, [kernel/kalloc.c]

    The free list is threaded through the free pages themselves: the first
    word of a free page points to the next one. *)
From stdpp Require Import base gmap strings numbers option list.
From S2P Require Import Prelude Layout Machine Memory Kernel Demo.
Open Scope Z_scope.

Section kalloc.
Context `{im : Image}.

Definition kfree (pa : Z) : M kst unit :=
  if negb (pa mod PGSIZE =? 0) || (pa <? end_sym) || (PHYSTOP <=? pa)
  then panic "kfree" else
  k_memset pa 1 PGSIZE;;
  zoom kmemL acquire;;
  fl ← gets (fun s => freelist (k_kmem s));
  store64 pa fl;;
  modify (set_freelist pa);;
  zoom kmemL release.

Definition kalloc : M kst Z :=
  zoom kmemL acquire;;
  r ← gets (fun s => freelist (k_kmem s));
  (if negb (r =? 0) then (nx ← load64 r; modify (set_freelist nx)) else skip);;
  zoom kmemL release;;
  (if negb (r =? 0) then k_memset r 5 PGSIZE else skip);;
  mret r.

(** [for(; p + PGSIZE <= pa_end; p += PGSIZE) kfree(p);]: there are at most
    [(pa_end - p) / PGSIZE] iterations. *)
Definition freerange (pa_start pa_end : Z) : M kst unit :=
  let p := PGROUNDUP pa_start in
  loop (S (Z.to_nat ((pa_end - p) / PGSIZE))) (fun p : Z =>
    if p + PGSIZE <=? pa_end
    then kfree p;; mret (inl (p + PGSIZE))
    else mret (inr tt)) p.

Definition kinit : M kst unit :=
  zoom kmemL (zoom lsnd (initlock (strlit "kmem")));;
  freerange end_sym PHYSTOP.

(** ** Invariant *)

Definition page_ok (a : Z) : Prop := a mod PGSIZE = 0 /\ end_sym <= a < PHYSTOP.

(** The list [l] of pages hangs from the pointer [p]. *)
Fixpoint run_list (m : mem) (p : Z) (l : list Z) : Prop :=
  match l with
  | [] => p = 0
  | a :: l' => p = a /\ run_list m (ld64 m a) l'
  end.

Record kmem_inv (s : kst) (l : list Z) : Prop := {
  ki_hart : hart_ok (k_hart s);
  ki_lock : lock_free (kmem_lock (k_kmem s));
  ki_list : run_list (k_mem s) (freelist (k_kmem s)) l;
  ki_nodup : NoDup l;
  ki_pages : Forall page_ok l
}.

Definition kalloc_post (l : list Z) (s : kst) : kst :=
  let s' := set_hart (settle (k_hart s)) s in
  match l with
  | [] => s'
  | a :: l' => set_mem (memset (k_mem s) a 5 PGSIZE) (set_freelist (hd 0 l') s')
  end.

Definition kfree_post (pa : Z) (s : kst) : kst :=
  set_mem (st64 (memset (k_mem s) pa 1 PGSIZE) pa (freelist (k_kmem s)))
    (set_freelist pa (set_hart (settle (k_hart s)) s)).

Context `{!ImageOk im}.

Lemma page_ram a : page_ok a -> ram a PGSIZE.
Proof.
  intros [Ha [H1 H2]]. destruct im_base as [Hb1 Hb2]. split; [lia|].
  destruct (page_apart a PHYSTOP); [done|reflexivity|lia|done|unfold PGSIZE in *; lia].
Qed.

Lemma page_ram8 a : page_ok a -> ram a 8.
Proof. intros H. apply page_ram in H. unfold ram, PGSIZE in *. lia. Qed.

Lemma page_pos a : page_ok a -> 0 < a < 2 ^ 56.
Proof.
  intros [_ [H1 H2]]. pose proof im_base. unfold PHYSTOP, KERNBASE in *. lia.
Qed.

Lemma run_list_hd m p l : run_list m p l -> p = hd 0 l.
Proof. destruct l; simpl; [done|]. by intros [-> _]. Qed.

Lemma run_list_frame m m' p l :
  (forall a, a ∈ l -> ld64 m' a = ld64 m a) -> run_list m p l -> run_list m' p l.
Proof.
  revert p. induction l as [|a l IH]; intros p H; [done|]. simpl.
  intros [-> Hl]. split; [done|]. rewrite H by set_solver. apply IH; [|done].
  intros b Hb. apply H. set_solver.
Qed.

(** Memory outside the free pages does not matter to the free list. *)
Lemma run_list_same m m' p l :
  (forall a b, a ∈ l -> a <= b < a + 8 -> rd m' b = rd m b) ->
  run_list m p l -> run_list m' p l.
Proof.
  intros H. apply run_list_frame. intros a Ha. apply ld_frame. intros b Hb. by eapply H.
Qed.

(** ** Functional behaviour *)

Lemma kfree_eq pa s :
  page_ok pa -> hart_ok (k_hart s) -> lock_free (kmem_lock (k_kmem s)) ->
  kfree pa s = Ret tt (kfree_post pa s).
Proof.
  intros Hpa Hok [Hl1 Hl2]. pose proof (page_ram pa Hpa). pose proof (page_ram8 pa Hpa).
  destruct Hpa as [Ha [Hp1 Hp2]].
  unfold kfree. rewrite Ha. destruct (Z.ltb_spec pa end_sym); [lia|].
  destruct (Z.leb_spec PHYSTOP pa); [lia|]. simpl.
  unfold mbind, M_bind. rewrite k_memset_eq by done. unfold zoom at 1. cbn [lget kmemL].
  rewrite acquire_eq by done. unfold gets, modify. cbn [lset].
  rewrite store_eq by done. unfold zoom. cbn [lget lset].
  simpl. rewrite release_eq; try done; [|by apply hart_ok_acquired| ].
  - rewrite popped_acquired by done. unfold kfree_post. destruct s as [h m [lk fl] fp pl pt tk vm].
    simpl. do 2 f_equal. unfold set_freelist, set_kmem, set_hart, set_mem; simpl.
    by rewrite lock_free_eta.
  - rewrite acquired_noff by done. pose proof (cur_noff_nonneg _ Hok). lia.
Qed.

Lemma kalloc_eq s l :
  kmem_inv s l -> kalloc s = Ret (hd 0 l) (kalloc_post l s).
Proof.
  intros [Hok Hl Hrl Hnd Hpg]. pose proof Hl as [Hl1 Hl2].
  pose proof (run_list_hd _ _ _ Hrl) as Hhd.
  assert (0 < c_noff (cur (acquired (k_hart s)))).
  { rewrite acquired_noff by done. pose proof (cur_noff_nonneg _ Hok). lia. }
  unfold kalloc, mbind, M_bind. unfold zoom at 1. cbn [lget kmemL].
  rewrite acquire_eq by done. unfold gets. cbn [lset]. simpl. rewrite Hhd.
  destruct l as [|a l']; simpl.
  - unfold zoom; simpl. rewrite release_eq; try done; [|by apply hart_ok_acquired].
    rewrite popped_acquired by done. f_equal. destruct s as [h m [lk fl] fp pl pt tk vm]; simpl in *.
    unfold set_kmem, set_hart; simpl. by rewrite lock_free_eta, Hrl.
  - inversion Hpg as [|? ? Ha Hpg']; subst. pose proof (page_pos a Ha).
    destruct (Z.eqb_spec a 0); [lia|]. simpl.
    rewrite load_eq by (by apply page_ram8). unfold modify. simpl.
    unfold zoom; simpl. rewrite release_eq; try done; [|by apply hart_ok_acquired].
    rewrite k_memset_eq by (by apply page_ram).
    rewrite popped_acquired by done. f_equal.
    simpl in Hrl. destruct Hrl as [_ Hrl]. apply run_list_hd in Hrl.
    destruct s as [h m [lk fl] fp pl pt tk vm]; simpl in *.
    unfold set_freelist, set_kmem, set_hart, set_mem; simpl. by rewrite lock_free_eta, Hrl.
Qed.

Lemma run_list_disjoint m p l pa v :
  Forall page_ok l -> page_ok pa -> pa ∉ l ->
  (forall b, ~ (pa <= b < pa + PGSIZE) -> rd v b = rd m b) ->
  run_list m p l -> run_list v p l.
Proof.
  intros Hpg Hpa Hni Hv. apply run_list_same. intros a b Ha Hb. apply Hv.
  rewrite Forall_forall in Hpg. pose proof (Hpg a Ha) as [Hal _]. destruct Hpa as [Hpal _].
  assert (a <> pa) by (intros ->; done).
  destruct (page_apart a pa) as [?|?]; try done; unfold PGSIZE in *; lia.
Qed.

Lemma kalloc_inv s a l : kmem_inv s (a :: l) -> kmem_inv (kalloc_post (a :: l) s) l.
Proof.
  intros [Hok Hl Hrl Hnd Hpg]. simpl in Hrl. destruct Hrl as [Hfl Hrl].
  apply NoDup_cons in Hnd as [Hni Hnd]. apply Forall_cons in Hpg as [Ha Hpg'].
  split; simpl; try done; [by apply hart_ok_settle|].
  rewrite <- (run_list_hd _ _ _ Hrl).
  eapply (run_list_disjoint (k_mem s) _ _ a); try done.
  intros b Hb. rewrite memset_rd by (unfold PGSIZE; lia). by rewrite decide_False.
Qed.

Lemma kalloc_inv_nil s : kmem_inv s [] -> kmem_inv (kalloc_post [] s) [].
Proof. intros [Hok Hl Hrl Hnd Hpg]. split; simpl; try done. by apply hart_ok_settle. Qed.

Lemma kfree_inv s pa l :
  kmem_inv s l -> page_ok pa -> pa ∉ l -> kmem_inv (kfree_post pa s) (pa :: l).
Proof.
  intros [Hok Hl Hrl Hnd Hpg] Hpa Hni.
  assert (0 <= freelist (k_kmem s) < 2 ^ 64).
  { rewrite (run_list_hd _ _ _ Hrl). destruct l as [|b l']; simpl; [lia|].
    apply Forall_cons in Hpg as [Hb _]. apply page_pos in Hb. lia. }
  split; simpl; try done; [by apply hart_ok_settle| |by constructor|by constructor].
  split; [done|]. rewrite ld64_st64 by done.
  eapply (run_list_disjoint (k_mem s) _ _ pa); try done.
  intros b Hb. rewrite rd_st_out by (unfold PGSIZE in *; lia).
  rewrite memset_rd by (unfold PGSIZE; lia). by rewrite decide_False.
Qed.

(** A call leaves the memory outside the page it handles alone. *)
Lemma kalloc_frame s a l b :
  ~ (a <= b < a + PGSIZE) -> rd (k_mem (kalloc_post (a :: l) s)) b = rd (k_mem s) b.
Proof.
  intros Hb. simpl. rewrite memset_rd by (unfold PGSIZE; lia). by rewrite decide_False.
Qed.

Lemma kfree_frame s pa b :
  ~ (pa <= b < pa + PGSIZE) -> rd (k_mem (kfree_post pa s)) b = rd (k_mem s) b.
Proof.
  intros Hb. simpl. rewrite rd_st_out by (unfold PGSIZE in *; lia).
  rewrite memset_rd by (unfold PGSIZE; lia). by rewrite decide_False.
Qed.

Lemma wp_kalloc s l Q :
  kmem_inv s l -> Q (hd 0 l) (kalloc_post l s) -> wp kalloc Q s.
Proof. intros. eapply wp_eq; [by apply kalloc_eq|done]. Qed.

Lemma wp_kfree s l pa Q :
  kmem_inv s l -> page_ok pa -> Q tt (kfree_post pa s) -> wp (kfree pa) Q s.
Proof. intros [? ? ? ? ?] ? ?. eapply wp_eq; [by apply kfree_eq|done]. Qed.

(** ** Initialisation *)

(** The pages [p, p + PGSIZE, ..., p + (n - 1) * PGSIZE], last first: the
    order in which [freerange] leaves them on the list. *)
Fixpoint pages_down (p : Z) (n : nat) : list Z :=
  match n with
  | O => []
  | S n' => (p + Z.of_nat n' * PGSIZE) :: pages_down p n'
  end.

Lemma elem_of_pages_down p n a :
  a ∈ pages_down p n <-> exists i, (i < n)%nat /\ a = p + Z.of_nat i * PGSIZE.
Proof.
  induction n as [|n IH]; simpl.
  - split; [by intros ?%elem_of_nil|intros [i [? _]]; lia].
  - rewrite elem_of_cons, IH. split.
    + intros [->|[i [? ->]]]; [exists n|exists i]; split; lia.
    + intros [i [Hi ->]]. destruct (decide (i = n)) as [->|]; [by left|].
      right. exists i. split; lia.
Qed.

Lemma freerange_loop pa_end : forall n fuel p s l,
  kmem_inv s l -> p mod PGSIZE = 0 -> end_sym <= p -> pa_end <= PHYSTOP ->
  (forall a, a ∈ l -> a < p) ->
  p + Z.of_nat n * PGSIZE <= pa_end < p + Z.of_nat (S n) * PGSIZE -> (n < fuel)%nat ->
  wp (loop fuel (fun p : Z =>
    if p + PGSIZE <=? pa_end then kfree p;; mret (inl (p + PGSIZE)) else mret (inr tt)) p)
    (fun _ s' => kmem_inv s' (pages_down p n ++ l)) s.
Proof.
  induction n as [|n IH]; intros fuel p s l Hinv Hal Hend Hstop Hlt Hn Hf;
    (destruct fuel as [|fuel]; [lia|]); simpl loop; apply wp_bind; unfold PGSIZE in *.
  - destruct (Z.leb_spec (p + 4096) pa_end); [lia|]. apply wp_ret, wp_ret. done.
  - destruct (Z.leb_spec (p + 4096) pa_end); [|lia]. apply wp_bind.
    assert (page_ok p) as Hp by (split; [done|lia]).
    assert (p ∉ l) by (intros Hin; apply Hlt in Hin; lia).
    eapply wp_kfree; [done|done|]. apply wp_ret.
    eapply wp_conseq; [eapply (IH fuel (p + 4096) _ (p :: l)); try lia|].
    + by apply kfree_inv.
    + rewrite <- (Z.mul_1_l 4096) at 1. by rewrite Z_mod_plus_full.
    + intros a [->|Ha]%elem_of_cons; [lia|]. apply Hlt in Ha. lia.
    + intros u s' Hs'. clear -Hs'.
      replace (pages_down p (S n) ++ l) with (pages_down (p + 4096) n ++ p :: l); [done|].
      clear Hs'. induction n as [|n IHn]; [simpl; f_equal; lia|].
      cbn [pages_down app] in *. rewrite IHn. f_equal. unfold PGSIZE. lia.
Qed.

Lemma freerange_wp s l pa_start pa_end n :
  kmem_inv s l -> end_sym <= pa_start <= PHYSTOP -> pa_end <= PHYSTOP ->
  (forall a, a ∈ l -> a < PGROUNDUP pa_start) ->
  n = Z.to_nat ((pa_end - PGROUNDUP pa_start) / PGSIZE) ->
  PGROUNDUP pa_start <= pa_end ->
  wp (freerange pa_start pa_end)
     (fun _ s' => kmem_inv s' (pages_down (PGROUNDUP pa_start) n ++ l)) s.
Proof.
  intros Hinv Hst Hen Hl -> Hle. destruct im_base as [Hb1 Hb2].
  assert (PHYSTOP = 2281701376) as HP by done.
  assert (KERNBASE = 2147483648) as HK by done.
  destruct (PGROUNDUP_spec pa_start) as [[Hp1 Hp2] Hp3];
    [lia|unfold PGSIZE in *; lia|].
  unfold freerange. set (p := PGROUNDUP pa_start) in *.
  assert (0 <= (pa_end - p) / PGSIZE) by (apply Z.div_pos; unfold PGSIZE; lia).
  pose proof (Z.mod_pos_bound (pa_end - p) PGSIZE ltac:(unfold PGSIZE; lia)).
  pose proof (Z.div_mod (pa_end - p) PGSIZE ltac:(unfold PGSIZE; lia)).
  apply freerange_loop; try done; try lia. unfold PGSIZE in *. lia.
Qed.

Lemma page_ok_pages_down a n :
  n = Z.to_nat ((PHYSTOP - PGROUNDUP end_sym) / PGSIZE) ->
  page_ok a <-> a ∈ pages_down (PGROUNDUP end_sym) n.
Proof.
  intros ->. destruct im_base as [Hb1 Hb2]. pose proof im_end as Hend.
  assert (PHYSTOP = 2281701376) as HP by done.
  assert (KERNBASE = 2147483648) as HK by done.
  destruct (PGROUNDUP_spec end_sym) as [[Hp1 Hp2] Hp3]; [lia|unfold PGSIZE in *; lia|].
  rewrite elem_of_pages_down. set (p := PGROUNDUP end_sym) in *. unfold PGSIZE in *.
  apply Z.mod_divide in Hp3 as [k Hk]; [|lia]. rewrite Hk in *.
  replace (PHYSTOP - k * 4096) with ((557056 - k) * 4096) by lia. rewrite Z.div_mul by lia.
  split.
  - intros [Ha He]. unfold PGSIZE in Ha. apply Z.mod_divide in Ha as [j ->]; [|lia].
    exists (Z.to_nat (j - k)). split; lia.
  - intros [i [Hi ->]]. split; [|lia]. unfold PGSIZE.
    rewrite <- Z.mul_add_distr_r. apply Z_mod_mult.
Qed.

(** ** Claims *)

(** [kalloc] keeps the free-list invariant.  It returns the first page of
    the list, filled with the byte 5, that is no longer on the list, and
    changes no other byte of memory; when the list is empty it returns 0 and
    changes nothing. *)
Theorem kalloc_takes_free_page s l :
  kmem_inv s l ->
  wp kalloc (fun r s' =>
    match l with
    | [] => r = 0 /\ kmem_inv s' [] /\ k_mem s' = k_mem s
    | a :: l' => r = a /\ page_ok a /\ (a ∉ l') /\ kmem_inv s' l' /\
        forall b, rd (k_mem s') b =
          (if decide (a <= b < a + PGSIZE) then 5 else rd (k_mem s) b)
    end) s.
Proof.
  intros H. eapply wp_kalloc; [done|]. destruct l as [|a l'].
  - split; [done|]. by split; [apply kalloc_inv_nil|].
  - pose proof H as [_ _ _ Hnd Hpg]. apply NoDup_cons in Hnd as [Hni _].
    apply Forall_cons in Hpg as [Ha _]. do 3 (split; [done|]).
    split; [by apply kalloc_inv|]. intros b. simpl. by rewrite memset_rd by done.
Qed.

(** [kfree] of a page that is not free puts it on the list, filled with
    junk, and a [kalloc] that follows gives the same page back and the
    original list; bytes outside the page are as before. *)
Theorem kfree_kalloc_roundtrip s l pa :
  kmem_inv s l -> page_ok pa -> pa ∉ l ->
  wp (kfree pa) (fun _ s' =>
    kmem_inv s' (pa :: l) /\
    (forall b, ~ (pa <= b < pa + PGSIZE) -> rd (k_mem s') b = rd (k_mem s) b) /\
    (forall b, pa + 8 <= b < pa + PGSIZE -> rd (k_mem s') b = 1) /\
    wp kalloc (fun r s'' => r = pa /\ kmem_inv s'' l) s') s.
Proof.
  intros Hinv Hpa Hni. eapply wp_kfree; [done|done|].
  pose proof (kfree_inv s pa l Hinv Hpa Hni) as Hinv'.
  split; [done|]. split; [intros b Hb; by apply kfree_frame|]. split.
  - intros b Hb. simpl. rewrite rd_st_out by lia. rewrite memset_rd by done.
    rewrite decide_True by lia. done.
  - eapply wp_kalloc; [done|]. split; [done|]. by apply kalloc_inv.
Qed.

(** [kfree] panics on an address that is not a page of the memory the
    allocator manages, and does so before it touches memory or the lock. *)
Theorem kfree_rejects_bad_address s pa :
  ~ page_ok pa -> kfree pa s = Err (EPanic "kfree") s.
Proof.
  intros Hpa. unfold kfree.
  destruct (Z.eqb_spec (pa mod PGSIZE) 0); [|done].
  destruct (Z.ltb_spec pa end_sym); [done|].
  destruct (Z.leb_spec PHYSTOP pa); [done|]. exfalso. apply Hpa. split; [done|lia].
Qed.

(** Started with an empty list, [kinit] leaves the allocator with its
    invariant and with every page between the end of the kernel and the top
    of RAM on the free list, and no other address. *)
Theorem kinit_frees_all_pages s :
  hart_ok (k_hart s) -> freelist (k_kmem s) = 0 ->
  wp kinit (fun _ s' => exists l, kmem_inv s' l /\ forall a, page_ok a <-> a ∈ l) s.
Proof.
  intros Hok Hfl. destruct im_base as [Hb1 Hb2]. pose proof im_end as Hend.
  assert (PHYSTOP = 2281701376) as HP by done. assert (KERNBASE = 2147483648) as HK by done.
  destruct (PGROUNDUP_spec end_sym) as [[Hp1 Hp2] Hp3]; [lia|unfold PGSIZE in *; lia|].
  unfold kinit. apply wp_bind, wp_zoom, wp_zoom, wp_modify.
  eapply wp_conseq; [eapply (freerange_wp _ []); [| |done| |done|]|].
  - split; simpl; try done. by constructor.
  - lia.
  - by intros a ?%elem_of_nil.
  - unfold PGSIZE in *. lia.
  - intros u s' Hs'. rewrite app_nil_r in Hs'. eexists. split; [done|].
    intros a. by apply page_ok_pages_down.
Qed.

End kalloc.

(** ** Witnesses: two free pages *)

Definition demo_free_mem : mem := st64 ∅ 0x80031000 0x80032000.
Definition demo_free_kst : kst := demo_kst demo_free_mem 0x80031000 0.

Lemma demo_kmem_inv : kmem_inv (im := demo_image) demo_free_kst [0x80031000; 0x80032000].
Proof.
  split.
  - apply demo_hart_ok.
  - done.
  - vm_compute. auto.
  - apply (bool_decide_unpack _). vm_compute. exact I.
  - repeat constructor; vm_compute; done.
Qed.

Lemma kalloc_takes_free_page_witness :
  wp (kalloc (im := demo_image)) (fun r s' => r = 0x80031000 /\
    kmem_inv (im := demo_image) s' [0x80032000]) demo_free_kst.
Proof.
  eapply wp_conseq;
    [exact (kalloc_takes_free_page (im := demo_image) (ImageOk0 := demo_image_ok) _ _ demo_kmem_inv)|].
  intros r s' (H1 & _ & _ & H2 & _). by split.
Defined.

Lemma kfree_kalloc_roundtrip_witness :
  wp (kfree (im := demo_image) 0x80033000) (fun _ s' =>
    kmem_inv (im := demo_image) s' [0x80033000; 0x80031000; 0x80032000]) demo_free_kst.
Proof.
  eapply wp_conseq;
    [apply (kfree_kalloc_roundtrip (im := demo_image) (ImageOk0 := demo_image_ok) _ _ _ demo_kmem_inv)|].
  - vm_compute. done.
  - apply (bool_decide_unpack _). vm_compute. exact I.
  - intros u s' (H & _). done.
Defined.

Lemma kfree_rejects_bad_address_witness :
  kfree (im := demo_image) 0x80031008 demo_free_kst = Err (EPanic "kfree") demo_free_kst.
Proof. apply kfree_rejects_bad_address. vm_compute. by intros [? _]. Defined.

Lemma kinit_frees_all_pages_witness :
  wp (kinit (im := demo_image)) (fun _ s' => exists l,
    kmem_inv (im := demo_image) s' l /\ 0x80030000 ∈ l) (demo_kst ∅ 0 0).
Proof.
  eapply wp_conseq;
    [apply (kinit_frees_all_pages (im := demo_image) (ImageOk0 := demo_image_ok) (demo_kst ∅ 0 0));
       [apply demo_hart_ok|done]|].
  intros u s' (l & Hinv & Hl). exists l. split; [done|]. apply Hl. vm_compute. done.
Defined.
