(* ===== verification/Vm.v ===== *)
(** * Page tables and user memory, [kernel/vm.c]

    A page table is a tree of pages in the byte memory, as the hardware walks
    it.  A [pte_t *] is its address.  [proc_mapstacks] is from [proc.c]. *)
From stdpp Require Import base gmap strings numbers option list.
From S2P Require Import Prelude Layout Machine Memory Kernel Demo Kalloc.
Open Scope Z_scope.

Section vm.
Context `{im : Image}.

(** [&pagetable[i]] *)
Definition pte_at (pagetable i : Z) : Z := pagetable + 8 * i.

Definition valid (pte : Z) : bool := negb (Z.land pte PTE_V =? 0).

(** The loop of [walk] from [level] down to 1, and the final index. *)
Fixpoint walk_loop (level : nat) (pagetable va : Z) (alloc : bool) : M kst Z :=
  match level with
  | O => mret (pte_at pagetable (PX 0 va))
  | S level' =>
      let pte := pte_at pagetable (PX (Z.of_nat level) va) in
      e ← load64 pte;
      if valid e then walk_loop level' (PTE2PA e) va alloc
      else if negb alloc then mret 0 else
        pagetable ← kalloc;
        if pagetable =? 0 then mret 0 else
        k_memset pagetable 0 PGSIZE;;
        store64 pte (Z.lor (PA2PTE pagetable) PTE_V);;
        walk_loop level' pagetable va alloc
  end.

Definition walk (pagetable va : Z) (alloc : bool) : M kst Z :=
  if MAXVA <=? va then panic "walk" else walk_loop 2 pagetable va alloc.

Definition walkaddr (pagetable va : Z) : M kst Z :=
  if MAXVA <=? va then mret 0 else
  pte ← walk pagetable va false;
  if pte =? 0 then mret 0 else
  e ← load64 pte;
  if Z.land e PTE_V =? 0 then mret 0 else
  if Z.land e PTE_U =? 0 then mret 0 else
  mret (PTE2PA e).

(** The loop runs once per page: [last] is [(last - a) / PGSIZE] pages away. *)
Definition mappages (pagetable va size pa perm : Z) : M kst Z :=
  let a := PGROUNDDOWN va in
  let last := PGROUNDDOWN (u64 (va + size - 1)) in
  loop (S (Z.to_nat (u64 (last - a) / PGSIZE))) (fun '(a, pa) =>
    pte ← walk pagetable a true;
    if pte =? 0 then mret (inr (-1)) else
    e ← load64 pte;
    if valid e then panic "remap" else
    store64 pte (Z.lor (Z.lor (PA2PTE pa) perm) PTE_V);;
    if a =? last then mret (inr 0) else
    mret (inl (u64 (a + PGSIZE), u64 (pa + PGSIZE)))) (a, pa).

Definition kvmmap (kpgtbl va pa sz perm : Z) : M kst unit :=
  r ← mappages kpgtbl va sz pa perm;
  if negb (r =? 0) then panic "kvmmap" else skip.

Definition proc_mapstacks (kpgtbl : Z) : M kst unit :=
  forM (seqZ 0 NPROC) (fun n =>
    pa ← kalloc;
    if pa =? 0 then panic "kalloc" else
    kvmmap kpgtbl (KSTACK n) pa PGSIZE (Z.lor PTE_R PTE_W)).

Definition kvmmake : M kst Z :=
  kpgtbl ← kalloc;
  k_memset kpgtbl 0 PGSIZE;;
  kvmmap kpgtbl UART0 UART0 PGSIZE (Z.lor PTE_R PTE_W);;
  kvmmap kpgtbl VIRTIO0 VIRTIO0 PGSIZE (Z.lor PTE_R PTE_W);;
  kvmmap kpgtbl PLIC PLIC 0x400000 (Z.lor PTE_R PTE_W);;
  kvmmap kpgtbl KERNBASE KERNBASE (etext - KERNBASE) (Z.lor PTE_R PTE_X);;
  kvmmap kpgtbl etext etext (PHYSTOP - etext) (Z.lor PTE_R PTE_W);;
  kvmmap kpgtbl TRAMPOLINE trampoline_sym PGSIZE (Z.lor PTE_R PTE_X);;
  proc_mapstacks kpgtbl;;
  mret kpgtbl.

Definition kvminit : M kst unit :=
  p ← kvmmake;
  modify (fun s => set_vm (mkVm p (satp (k_vm s))) s).

Definition kvminithart : M kst unit :=
  modify (fun s => let v := k_vm s in
    set_vm (mkVm (kernel_pagetable v) (MAKE_SATP (kernel_pagetable v))) s).

(** [for(a = va; a < va + npages*PGSIZE; a += PGSIZE)]: [npages] iterations. *)
Definition uvmunmap (pagetable va npages : Z) (do_free : bool) : M kst unit :=
  if negb (va mod PGSIZE =? 0) then panic "uvmunmap: not aligned" else
  loop (S (Z.to_nat npages)) (fun a : Z =>
    if a <? u64 (va + npages * PGSIZE) then
      pte ← walk pagetable a false;
      if pte =? 0 then panic "uvmunmap: walk" else
      e ← load64 pte;
      if Z.land e PTE_V =? 0 then panic "uvmunmap: not mapped" else
      if PTE_FLAGS e =? PTE_V then panic "uvmunmap: not a leaf" else
      (if do_free then kfree (PTE2PA e) else skip);;
      store64 pte 0;;
      mret (inl (u64 (a + PGSIZE)))
    else mret (inr tt)) va.

Definition uvmcreate : M kst Z :=
  pagetable ← kalloc;
  if pagetable =? 0 then mret 0 else
  k_memset pagetable 0 PGSIZE;;
  mret pagetable.

Definition PTE_WRXU : Z := Z.lor (Z.lor (Z.lor PTE_W PTE_R) PTE_X) PTE_U.

Definition uvminit (pagetable src sz : Z) : M kst unit :=
  if PGSIZE <=? sz then panic "inituvm: more than a page" else
  m ← kalloc;
  k_memset m 0 PGSIZE;;
  _ ← mappages pagetable 0 PGSIZE m PTE_WRXU;
  k_memmove m src sz.

Definition uvmdealloc (pagetable oldsz newsz : Z) : M kst Z :=
  if oldsz <=? newsz then mret oldsz else
  (if PGROUNDUP newsz <? PGROUNDUP oldsz then
     let npages := i32 ((PGROUNDUP oldsz - PGROUNDUP newsz) / PGSIZE) in
     uvmunmap pagetable (PGROUNDUP newsz) (u64 npages) true
   else skip);;
  mret newsz.

Definition uvmalloc (pagetable oldsz newsz : Z) : M kst Z :=
  if newsz <? oldsz then mret oldsz else
  let oldsz := PGROUNDUP oldsz in
  loop (S (Z.to_nat ((newsz - oldsz + PGSIZE - 1) / PGSIZE))) (fun a : Z =>
    if a <? newsz then
      m ← kalloc;
      if m =? 0 then (_ ← uvmdealloc pagetable a oldsz; mret (inr 0)) else
      k_memset m 0 PGSIZE;;
      r ← mappages pagetable a PGSIZE m PTE_WRXU;
      if negb (r =? 0) then
        kfree m;;
        _ ← uvmdealloc pagetable a oldsz;
        mret (inr 0)
      else mret (inl (u64 (a + PGSIZE)))
    else mret (inr newsz)) oldsz.

(** The recursion of [freewalk] goes down at most three levels of a page
    table; [fuel] bounds it. *)
Fixpoint freewalk (fuel : nat) (pagetable : Z) : M kst unit :=
  match fuel with
  | O => fail EFuel
  | S fuel' =>
      forM (seqZ 0 512) (fun i =>
        pte ← load64 (pte_at pagetable i);
        if valid pte && (Z.land pte (Z.lor (Z.lor PTE_R PTE_W) PTE_X) =? 0) then
          freewalk fuel' (PTE2PA pte);;
          store64 (pte_at pagetable i) 0
        else if valid pte then panic "freewalk: leaf" else skip);;
      kfree pagetable
  end.

Definition uvmfree (pagetable sz : Z) : M kst unit :=
  (if 0 <? sz then uvmunmap pagetable 0 (PGROUNDUP sz / PGSIZE) true else skip);;
  freewalk 3 pagetable.

Definition uvmcopy (old new sz : Z) : M kst Z :=
  loop (S (Z.to_nat ((sz + PGSIZE - 1) / PGSIZE))) (fun i : Z =>
    if i <? sz then
      pte ← walk old i false;
      if pte =? 0 then panic "uvmcopy: pte should exist" else
      e ← load64 pte;
      if Z.land e PTE_V =? 0 then panic "uvmcopy: page not present" else
      let pa := PTE2PA e in
      let flags := PTE_FLAGS e in
      m ← kalloc;
      if m =? 0 then (uvmunmap new 0 (i / PGSIZE) true;; mret (inr (-1))) else
      k_memmove m pa PGSIZE;;
      r ← mappages new i PGSIZE m flags;
      if negb (r =? 0) then
        kfree m;;
        uvmunmap new 0 (i / PGSIZE) true;;
        mret (inr (-1))
      else mret (inl (u64 (i + PGSIZE)))
    else mret (inr 0)) 0.

Definition uvmclear (pagetable va : Z) : M kst unit :=
  pte ← walk pagetable va false;
  if pte =? 0 then panic "uvmclear" else
  e ← load64 pte;
  store64 pte (Z.land e (Z.lnot PTE_U)).

(** Each iteration of the copy loops handles the rest of one page, so [len]
    bytes take at most [len / PGSIZE + 2] of them. *)
Definition copy_fuel (len : Z) : nat := Z.to_nat (len / PGSIZE + 3).

Definition copyout (pagetable dstva src len : Z) : M kst Z :=
  loop (copy_fuel len) (fun '(dstva, src, len) =>
    if 0 <? len then
      let va0 := PGROUNDDOWN dstva in
      pa0 ← walkaddr pagetable va0;
      if pa0 =? 0 then mret (inr (-1)) else
      let n := PGSIZE - (dstva - va0) in
      let n := if len <? n then len else n in
      k_memmove (pa0 + (dstva - va0)) src n;;
      mret (inl (u64 (va0 + PGSIZE), u64 (src + n), len - n))
    else mret (inr 0)) (dstva, src, len).

Definition copyin (pagetable dst srcva len : Z) : M kst Z :=
  loop (copy_fuel len) (fun '(dst, srcva, len) =>
    if 0 <? len then
      let va0 := PGROUNDDOWN srcva in
      pa0 ← walkaddr pagetable va0;
      if pa0 =? 0 then mret (inr (-1)) else
      let n := PGSIZE - (srcva - va0) in
      let n := if len <? n then len else n in
      k_memmove dst (pa0 + (srcva - va0)) n;;
      mret (inl (u64 (dst + n), u64 (va0 + PGSIZE), len - n))
    else mret (inr 0)) (dst, srcva, len).

(** The inner loop of [copyinstr]: copies up to [n] bytes and stops at a NUL;
    whether it found one, and the advanced [dst] and [max]. *)
Fixpoint copystr_page (n : nat) (p dst max : Z) : M kst (bool * Z * Z) :=
  match n with
  | O => mret (false, dst, max)
  | S n' =>
      c ← load 1 p;
      if c =? 0 then
        store 1 dst 0;;
        mret (true, dst, max)
      else
        store 1 dst c;;
        copystr_page n' (p + 1) (dst + 1) (max - 1)
  end.

Definition copyinstr (pagetable dst srcva max : Z) : M kst Z :=
  loop (copy_fuel max) (fun '(got_null, dst, srcva, max) =>
    if negb got_null && (0 <? max) then
      let va0 := PGROUNDDOWN srcva in
      pa0 ← walkaddr pagetable va0;
      if pa0 =? 0 then mret (inr (-1)) else
      let n := PGSIZE - (srcva - va0) in
      let n := if max <? n then max else n in
      '(got_null, dst, max) ← copystr_page (Z.to_nat n) (pa0 + (srcva - va0)) dst max;
      mret (inl (got_null, dst, u64 (va0 + PGSIZE), max))
    else mret (inr (if (got_null : bool) then 0 else -1))) (false, dst, srcva, max).

End vm.
