(* ===== verification/PageTable.v ===== *)
(** * What the page-table code of [kernel/vm.c] does

    The tables of one address space are named by their place in the tree: the
    key [(l, k)] is the table of level [l] for the addresses with prefix [k].
    [pt_wf] says that the memory holds that tree; [leaf] is the abstract
    address space it represents, the PTE of every virtual page. *)
From stdpp Require Import base gmap strings numbers option list.
From S2P Require Import Prelude Layout Machine Memory Kernel Demo Kalloc Vm.
Open Scope Z_scope.

(** ** Indices *)

(** The prefix of [va] that selects a table of level [l]. *)
Definition pref (l : nat) (va : Z) : Z := va / 2 ^ (21 + 9 * Z.of_nat l).

Lemma PX_eq l va :
  0 <= va < 2 ^ 64 -> PX (Z.of_nat l) va = (va / 2 ^ (12 + 9 * Z.of_nat l)) mod 512.
Proof.
  intros Hva. unfold PX, PXSHIFT, PGSHIFT, PXMASK. rewrite u64_small by done.
  rewrite Z.shiftr_div_pow2 by lia. change 511 with (Z.ones 9). by rewrite Z.land_ones by lia.
Qed.

Lemma PX_range l va : 0 <= va < 2 ^ 64 -> 0 <= PX (Z.of_nat l) va < 512.
Proof. intros. rewrite PX_eq by done. apply Z.mod_pos_bound. lia. Qed.

Lemma pref_S l va :
  0 <= va < 2 ^ 64 -> 512 * pref (S l) va + PX (Z.of_nat (S l)) va = pref l va.
Proof.
  intros Hva. rewrite PX_eq by done. unfold pref.
  replace (12 + 9 * Z.of_nat (S l)) with (21 + 9 * Z.of_nat l) by lia.
  replace (21 + 9 * Z.of_nat (S l)) with ((21 + 9 * Z.of_nat l) + 9) by lia.
  rewrite Z.pow_add_r by lia. rewrite <- Z.div_div by (try apply Z.pow_nonzero; lia).
  change (2 ^ 9) with 512. symmetry. apply Z.div_mod. lia.
Qed.

Lemma pref_div l va : 0 <= va < 2 ^ 64 -> pref l va / 512 = pref (S l) va.
Proof.
  intros Hva. rewrite <- (pref_S l va Hva). pose proof (PX_range (S l) va Hva).
  rewrite (Z.mul_comm 512), Z.div_add_l by lia. rewrite (Z.div_small (PX _ _)) by done. lia.
Qed.

(** The virtual page number. *)
Definition vpn (va : Z) : Z := va / PGSIZE.

Lemma vpn_split va : 0 <= va < 2 ^ 64 -> vpn va = 512 * pref 0 va + PX 0 va.
Proof.
  intros Hva. change (PX 0 va) with (PX (Z.of_nat 0) va). rewrite PX_eq by done.
  unfold vpn, pref, PGSIZE. change (2 ^ (21 + 9 * Z.of_nat 0)) with (4096 * 512).
  change (2 ^ (12 + 9 * Z.of_nat 0)) with 4096.
  rewrite <- Z.div_div by lia. apply Z.div_mod. lia.
Qed.

Lemma vpn_inj va va' :
  0 <= va < 2 ^ 64 -> 0 <= va' < 2 ^ 64 ->
  pref 0 va = pref 0 va' -> PX 0 va = PX 0 va' -> vpn va = vpn va'.
Proof. intros. rewrite !vpn_split by done. congruence. Qed.

Lemma pref_top va : 0 <= va < MAXVA -> pref 2 va = 0.
Proof.
  intros [H1 H2]. unfold pref. apply Z.div_small. split; [done|].
  unfold MAXVA in H2. rewrite Z.shiftl_1_l in H2. simpl in *. lia.
Qed.

Lemma maxva_range va : 0 <= va < MAXVA -> 0 <= va < 2 ^ 64.
Proof. unfold MAXVA. rewrite Z.shiftl_1_l. intros. simpl in *. lia. Qed.

(** ** PTE encoding *)

Lemma valid_lor_V x : valid (Z.lor x PTE_V) = true.
Proof.
  unfold valid. apply negb_true_iff, Z.eqb_neq. intros H.
  assert (Z.testbit (Z.land (Z.lor x PTE_V) PTE_V) 0 = false) as Hb by (rewrite H; done).
  rewrite Z.land_spec, Z.lor_spec in Hb. unfold PTE_V in Hb. simpl in Hb.
  rewrite orb_true_r in Hb. done.
Qed.

Lemma valid_zero : valid 0 = false.
Proof. done. Qed.

Lemma PTE_lor pa fl :
  pa_ok pa -> 0 <= fl < 1024 -> Z.lor (PA2PTE pa) fl = pa / 4096 * 1024 + fl.
Proof.
  intros Hpa Hfl. rewrite PA2PTE_eq by done.
  apply (lor_add_low _ _ 10); [lia| |done]. change (2 ^ 10) with 1024. apply Z_mod_mult.
Qed.

(** Shifting out the ten flag bits recovers the address. *)
Lemma PTE2PA_spec pa fl :
  pa_ok pa -> 0 <= fl < 1024 -> PTE2PA (Z.lor (PA2PTE pa) fl) = pa.
Proof.
  intros Hpa Hfl. rewrite PTE_lor by done. destruct Hpa as [Hp1 Hp2].
  unfold PTE2PA. rewrite Z.shiftr_div_pow2, Z.shiftl_mul_pow2 by lia.
  change (2 ^ 10) with 1024. change (2 ^ 12) with 4096.
  rewrite Z.div_add_l by lia. rewrite (Z.div_small fl) by done. rewrite Z.add_0_r.
  unfold PGSIZE in Hp2. pose proof (Z.div_mod pa 4096 ltac:(lia)).
  rewrite u64_small; lia.
Qed.

Lemma PTE_FLAGS_spec pa fl :
  pa_ok pa -> 0 <= fl < 1024 -> PTE_FLAGS (Z.lor (PA2PTE pa) fl) = fl.
Proof.
  intros Hpa Hfl. rewrite PTE_lor by done.
  unfold PTE_FLAGS. change 1023 with (Z.ones 10). rewrite Z.land_ones by lia.
  change (2 ^ 10) with 1024. rewrite Z.add_comm, Z_mod_plus_full. by apply Z.mod_small.
Qed.

Lemma PTE_range pa fl : pa_ok pa -> 0 <= fl < 1024 -> 0 <= Z.lor (PA2PTE pa) fl < 2 ^ 64.
Proof.
  intros Hpa Hfl. rewrite PTE_lor by done. destruct Hpa as [Hp1 Hp2].
  pose proof (Z.div_pos pa 4096). pose proof (Z.div_lt_upper_bound pa 4096 (2 ^ 44)). lia.
Qed.

(** ** The tree of tables *)

Section pagetable.
Context `{im : Image}.

Record pt_wf (m : mem) (root : Z) (tbl : gmap (nat * Z) Z) : Prop := {
  pw_root : tbl !! (2%nat, 0) = Some root;
  pw_page : forall x t, tbl !! x = Some t -> page_ok t;
  pw_inj : forall x y t, tbl !! x = Some t -> tbl !! y = Some t -> x = y;
  (** an entry of an inner table is valid exactly when the table below is there *)
  pw_child : forall l k t i, tbl !! (S l, k) = Some t -> 0 <= i < 512 ->
    match tbl !! (l, 512 * k + i) with
    | Some c => valid (ld64 m (pte_at t i)) = true /\ PTE2PA (ld64 m (pte_at t i)) = c
    | None => valid (ld64 m (pte_at t i)) = false
    end;
  (** every table hangs from one of the level above *)
  pw_parent : forall l k, (l < 2)%nat -> is_Some (tbl !! (l, k)) -> is_Some (tbl !! (S l, k / 512))
}.

(** The address of the PTE of [va], if there is a table for it, and the PTE. *)
Definition leaf_at (tbl : gmap (nat * Z) Z) (va : Z) : option Z :=
  (fun t => pte_at t (PX 0 va)) <$> tbl !! (0%nat, pref 0 va).

Definition leaf (m : mem) (tbl : gmap (nat * Z) Z) (va : Z) : Z :=
  match leaf_at tbl va with
  | Some a => ld64 m a
  | None => 0
  end.

(** The state: free pages [l], and the address space [root]. *)
Record vm_inv (s : kst) (l : list Z) (root : Z) (tbl : gmap (nat * Z) Z) : Prop := {
  vi_kmem : kmem_inv s l;
  vi_pt : pt_wf (k_mem s) root tbl;
  vi_free : forall x t, tbl !! x = Some t -> t ∉ l
}.

Context `{!ImageOk im}.

Lemma pte_in_page t i : 0 <= i < 512 -> t <= pte_at t i /\ pte_at t i + 8 <= t + PGSIZE.
Proof. unfold pte_at, PGSIZE. lia. Qed.

Lemma pte_ram t i : page_ok t -> 0 <= i < 512 -> ram (pte_at t i) 8.
Proof.
  intros Ht Hi. apply page_ram in Ht. unfold ram, pte_at, PGSIZE in *. lia.
Qed.

Lemma page_pa_ok a : page_ok a -> pa_ok a.
Proof. intros H. pose proof (page_pos a H). destruct H as [Ha _]. split; [lia|done]. Qed.

(** PTEs of different tables, or of different indices, do not overlap. *)
Lemma pte_apart t i t' i' :
  page_ok t -> page_ok t' -> 0 <= i < 512 -> 0 <= i' < 512 -> (t, i) <> (t', i') ->
  pte_at t i + 8 <= pte_at t' i' \/ pte_at t' i' + 8 <= pte_at t i.
Proof.
  intros [Ht _] [Ht' _] Hi Hi' Hne. destruct (decide (t = t')) as [->|Hn].
  - assert (i <> i') by congruence. unfold pte_at. lia.
  - destruct (page_apart t t' Ht Ht' Hn); unfold pte_at, PGSIZE in *; lia.
Qed.

(** ** [walk] without allocation *)

Lemma no_table_below m root tbl va l :
  pt_wf m root tbl -> 0 <= va < 2 ^ 64 -> (l <= 2)%nat ->
  tbl !! (l, pref l va) = None -> tbl !! (0%nat, pref 0 va) = None.
Proof.
  intros Hwf Hva. induction l as [|l IH]; intros Hl Hn; [done|]. apply IH; [lia|].
  destruct (tbl !! (l, pref l va)) eqn:El; [|done].
  destruct (pw_parent _ _ _ Hwf l (pref l va)) as [? Hp]; [lia|by rewrite El|].
  rewrite pref_div in Hp by done. congruence.
Qed.

Lemma walk_loop_find s root tbl va : forall l t,
  pt_wf (k_mem s) root tbl -> 0 <= va < 2 ^ 64 -> (l <= 2)%nat ->
  tbl !! (l, pref l va) = Some t ->
  walk_loop l t va false s = Ret (default 0 (leaf_at tbl va)) s.
Proof.
  intros l. induction l as [|l IH]; intros t Hwf Hva Hl Ht; cbn [walk_loop].
  - unfold leaf_at. rewrite Ht. done.
  - pose proof (PX_range (S l) va Hva) as Hi.
    pose proof (pw_child _ _ _ Hwf l _ t (PX (Z.of_nat (S l)) va) Ht Hi) as Hc.
    rewrite pref_S in Hc by done.
    erewrite bind_ret by (apply load_eq; eapply pte_ram; [by eapply pw_page|done]).
    destruct (tbl !! (l, pref l va)) as [c|] eqn:Ec.
    + destruct Hc as [-> ->]. apply IH; try done. lia.
    + rewrite Hc. cbn [negb]. unfold leaf_at.
      assert (tbl !! (0%nat, pref 0 va) = None) as ->; [|done].
      by apply (no_table_below (k_mem s) root tbl va l); [|done|lia|].
Qed.

Lemma walk_find s root tbl va :
  pt_wf (k_mem s) root tbl -> 0 <= va < MAXVA ->
  walk root va false s = Ret (default 0 (leaf_at tbl va)) s.
Proof.
  intros Hwf Hva. unfold walk. rewrite (proj2 (Z.leb_gt MAXVA va)) by lia.
  apply walk_loop_find with (root := root); [done|by apply maxva_range|done|].
  rewrite pref_top by done. apply Hwf.
Qed.
(** ** Changing the tables *)

(** Everything in the tables but the entries for which [P] holds is the same. *)
Definition pt_same (P : Z -> Z -> Prop) (m m' : mem) (tbl : gmap (nat * Z) Z) : Prop :=
  forall x t i, tbl !! x = Some t -> 0 <= i < 512 -> ~ P t i ->
    ld64 m' (pte_at t i) = ld64 m (pte_at t i).

Lemma leaf_same m m' tbl va :
  0 <= va < 2 ^ 64 -> pt_same (fun _ _ => False) m m' tbl -> leaf m' tbl va = leaf m tbl va.
Proof.
  intros Hva Hs. unfold leaf, leaf_at. destruct (tbl !! (0%nat, pref 0 va)) as [t|] eqn:Et; [|done].
  simpl. eapply Hs; [done|apply (PX_range 0); done|auto].
Qed.

Lemma pt_wf_same m m' root tbl :
  pt_same (fun _ _ => False) m m' tbl -> pt_wf m root tbl -> pt_wf m' root tbl.
Proof.
  intros Hs [H1 H2 H3 H4 H5]. split; try done. intros l k t i Ht Hi.
  rewrite (Hs _ _ _ Ht Hi) by auto. by apply H4.
Qed.

(** A store outside the tables. *)
Lemma pt_same_frame m m' tbl :
  (forall x t, tbl !! x = Some t -> page_ok t) ->
  (forall x t b, tbl !! x = Some t -> t <= b < t + PGSIZE -> rd m' b = rd m b) ->
  pt_same (fun _ _ => False) m m' tbl.
Proof.
  intros Hp H x t i Ht Hi _. apply ld_frame. intros b Hb.
  pose proof (pte_in_page t i Hi). apply (H x t); [done|]. simpl in Hb. lia.
Qed.

Lemma zero_entry m c i :
  (forall b, c <= b < c + PGSIZE -> rd m b = 0) -> 0 <= i < 512 -> ld64 m (pte_at c i) = 0.
Proof.
  intros Hz Hi. apply ld_zero. intros b Hb. apply Hz.
  pose proof (pte_in_page c i Hi). simpl in Hb. lia.
Qed.

Section add_table.
Context (m m' : mem) (root : Z) (tbl : gmap (nat * Z) Z) (l : nat) (k t i c : Z).
Hypothesis Hwf : pt_wf m root tbl.
Hypothesis Ht : tbl !! (S l, k) = Some t.
Hypothesis Hl : (S l <= 2)%nat.
Hypothesis Hi : 0 <= i < 512.
Hypothesis Hnone : tbl !! (l, 512 * k + i) = None.
Hypothesis Hc : page_ok c.
Hypothesis Hnew : forall x, tbl !! x <> Some c.
Hypothesis Hzero : forall b, c <= b < c + PGSIZE -> rd m' b = 0.
Hypothesis Hsame : pt_same (fun t' i' => (t', i') = (t, i)) m m' tbl.
Hypothesis Hent : ld64 m' (pte_at t i) = Z.lor (PA2PTE c) PTE_V.

Let tbl' := <[(l, 512 * k + i) := c]> tbl.

Lemma add_table_key l1 k1 : tbl' !! (l1, k1) =
  if decide ((l, 512 * k + i) = (l1, k1)) then Some c else tbl !! (l1, k1).
Proof.
  unfold tbl'. case_decide as E; [rewrite E; apply lookup_insert_eq|by apply lookup_insert_ne].
Qed.

Lemma add_table_child l1 k1 t1 i1 :
  tbl' !! (S l1, k1) = Some t1 -> 0 <= i1 < 512 ->
  match tbl' !! (l1, 512 * k1 + i1) with
  | Some c1 => valid (ld64 m' (pte_at t1 i1)) = true /\ PTE2PA (ld64 m' (pte_at t1 i1)) = c1
  | None => valid (ld64 m' (pte_at t1 i1)) = false
  end.
Proof.
  intros H1 Hi1. rewrite add_table_key in H1. case_decide as E1.
  - (* the new table is empty *)
    injection H1 as <-. injection E1 as E1 E2. rewrite (zero_entry m' c i1) by done.
    rewrite add_table_key, decide_False by (intros [=]; lia).
    destruct (tbl !! (l1, 512 * k1 + i1)) eqn:E3; [|done].
    destruct (pw_parent _ _ _ Hwf l1 (512 * k1 + i1)) as [? Hp]; [lia|by rewrite E3|].
    rewrite (Z.mul_comm 512 k1), Z.div_add_l, (Z.div_small i1), Z.add_0_r in Hp by lia.
    rewrite <- E1, <- E2 in Hp. rewrite Hp in Hnone. done.
  - pose proof (pw_child _ _ _ Hwf l1 k1 t1 i1 H1 Hi1) as Hold.
    destruct (decide ((t1, i1) = (t, i))) as [[= -> ->]|Hne].
    + assert ((S l1, k1) = (S l, k)) as [= -> ->] by (by eapply pw_inj).
      rewrite add_table_key, decide_True, Hent by done. split; [apply valid_lor_V|].
      apply PTE2PA_spec; [by apply page_pa_ok|by vm_compute].
    + rewrite (Hsame _ _ _ H1 Hi1 Hne). rewrite add_table_key, decide_False; [done|].
      intros [= E2 E3]. assert (k1 = k /\ i1 = i) as [-> ->] by lia. subst l1.
      rewrite Ht in H1. by injection H1 as ->.
Qed.

Lemma add_table_wf : pt_wf m' root tbl'.
Proof.
  split.
  - rewrite add_table_key, decide_False; [apply Hwf|]. intros [= E _]. lia.
  - intros [l1 k1] t1 H1. rewrite add_table_key in H1. case_decide.
    + by injection H1 as <-.
    + by eapply pw_page.
  - intros [l1 k1] [l2 k2] t1 H1 H2. rewrite add_table_key in H1, H2.
    repeat case_decide; simplify_eq; try done; try (by apply Hnew in H1); try (by apply Hnew in H2).
    by eapply pw_inj.
  - apply add_table_child.
  - intros l1 k1 Hl1 H1. rewrite add_table_key in H1. rewrite add_table_key. case_decide as E.
    + injection E as <- <-. rewrite (Z.mul_comm 512 k), Z.div_add_l, (Z.div_small i), Z.add_0_r by lia.
      case_decide; [done|by rewrite Ht].
    + case_decide; [done|]. by eapply pw_parent.
Qed.

Lemma add_table_leaf va : 0 <= va < 2 ^ 64 -> leaf m' tbl' va = leaf m tbl va.
Proof.
  intros Hva. unfold leaf, leaf_at. rewrite add_table_key.
  pose proof (PX_range 0 va Hva) as Hp. case_decide as E.
  - injection E as El Ek. rewrite El, Ek in Hnone. rewrite Hnone. simpl. by apply zero_entry.
  - destruct (tbl !! (0%nat, pref 0 va)) as [t1|] eqn:E1; [|done]. simpl.
    eapply Hsame; [done|done|]. intros [= -> _].
    assert ((0%nat, pref 0 va) = (S l, k)) as [=] by (by eapply pw_inj).
Qed.

End add_table.

(** ** [walk] with allocation *)

(** The globals that the memory code does not touch. *)
Definition others (s : kst) := (k_freep s, k_plist s, k_ptab s, k_tick s, k_vm s).

(** From [s] to [s'], tables were added to the tree of [root] from the free
    list, and memory outside the tree is as it was. *)
Record evolve (root : Z) (s : kst) (l : list Z) (tbl : gmap (nat * Z) Z)
    (s' : kst) (l' : list Z) (tbl' : gmap (nat * Z) Z) : Prop := {
  ev_inv : vm_inv s' l' root tbl';
  ev_sub : tbl ⊆ tbl';
  ev_used : exists used, l = used ++ l' /\
    (forall x t, tbl' !! x = Some t -> tbl !! x = Some t \/ t ∈ used) /\
    (forall t, t ∈ used -> exists x, tbl' !! x = Some t);
  ev_frame : forall b, (forall x t, tbl' !! x = Some t -> ~ (t <= b < t + PGSIZE)) ->
    rd (k_mem s') b = rd (k_mem s) b;
  ev_others : others s' = others s
}.

(** The same, and the address space is the same too. *)
Definition grown (root : Z) (s : kst) (l : list Z) (tbl : gmap (nat * Z) Z)
    (s' : kst) (l' : list Z) (tbl' : gmap (nat * Z) Z) : Prop :=
  evolve root s l tbl s' l' tbl' /\
  forall va, 0 <= va < 2 ^ 64 -> leaf (k_mem s') tbl' va = leaf (k_mem s) tbl va.

Lemma evolve_refl root s l tbl : vm_inv s l root tbl -> evolve root s l tbl s l tbl.
Proof.
  intros H. split; try done. exists []. split; [done|]. split; [by left|]. by intros t ?%elem_of_nil.
Qed.

Lemma evolve_trans root s1 l1 t1 s2 l2 t2 s3 l3 t3 :
  evolve root s1 l1 t1 s2 l2 t2 -> evolve root s2 l2 t2 s3 l3 t3 -> evolve root s1 l1 t1 s3 l3 t3.
Proof.
  intros [A1 A2 (u1 & A3 & A4 & A5) A6 A7] [B1 B2 (u2 & B3 & B4 & B5) B6 B7]. split.
  - done.
  - by etrans.
  - exists (u1 ++ u2). split; [by rewrite A3, B3, app_assoc|]. split.
    + intros x t Ht. destruct (B4 x t Ht) as [H|H]; [destruct (A4 x t H)|]; rewrite elem_of_app; auto.
    + intros t [Ht|Ht]%elem_of_app; [|auto]. destruct (A5 t Ht) as [x Hx]. exists x. by eapply lookup_weaken.
  - intros b Hb. rewrite B6 by done. apply A6. intros x t Ht. eapply Hb, lookup_weaken; done.
  - congruence.
Qed.

Lemma grown_refl root s l tbl : vm_inv s l root tbl -> grown root s l tbl s l tbl.
Proof. intros H. split; [by apply evolve_refl|done]. Qed.

Lemma grown_trans root s1 l1 t1 s2 l2 t2 s3 l3 t3 :
  grown root s1 l1 t1 s2 l2 t2 -> grown root s2 l2 t2 s3 l3 t3 -> grown root s1 l1 t1 s3 l3 t3.
Proof.
  intros [A HA] [B HB]. split; [by eapply evolve_trans|]. intros va Hva. by rewrite HB, HA.
Qed.

(** [kalloc] of a page leaves the tree alone. *)
Lemma kalloc_grown root s c l tbl :
  vm_inv s (c :: l) root tbl ->
  vm_inv (kalloc_post (c :: l) s) l root tbl /\
  pt_same (fun _ _ => False) (k_mem s) (k_mem (kalloc_post (c :: l) s)) tbl /\
  page_ok c /\ (c ∉ l) /\ forall x, tbl !! x <> Some c.
Proof.
  intros [Hk Hpt Hf]. pose proof Hk as [_ _ _ [Hcl _]%NoDup_cons [Hc _]%Forall_cons].
  assert (pt_same (fun _ _ => False) (k_mem s) (k_mem (kalloc_post (c :: l) s)) tbl) as Hs.
  { apply pt_same_frame; [apply Hpt|]. intros x t b Ht Hb. apply kalloc_frame.
    assert (t <> c) by (intros ->; eapply Hf; [done|set_solver]).
    destruct (page_apart t c) as [?|?]; [by destruct (pw_page _ _ _ Hpt x t Ht)|by destruct Hc|done|lia|lia]. }
  split; [|split; [done|split; [done|split; [done|]]]].
  - split; [by apply kalloc_inv|by eapply pt_wf_same|]. intros x t Ht Hin. eapply Hf; [done|set_solver].
  - intros x Hx. eapply Hf; [done|set_solver].
Qed.

(** One new table. *)
Lemma grow_table root s l tbl lv k t i c m' :
  vm_inv s l root tbl -> tbl !! (S lv, k) = Some t -> (S lv <= 2)%nat -> 0 <= i < 512 ->
  tbl !! (lv, 512 * k + i) = None -> page_ok c -> (c ∉ l) -> (forall x, tbl !! x <> Some c) ->
  m' = st64 (memset (k_mem s) c 0 PGSIZE) (pte_at t i) (Z.lor (PA2PTE c) PTE_V) ->
  vm_inv (set_mem m' s) l root (<[(lv, 512 * k + i) := c]> tbl) /\
  (forall va, 0 <= va < 2 ^ 64 ->
     leaf m' (<[(lv, 512 * k + i) := c]> tbl) va = leaf (k_mem s) tbl va) /\
  (forall b, ~ (c <= b < c + PGSIZE) -> ~ (t <= b < t + PGSIZE) -> rd m' b = rd (k_mem s) b).
Proof.
  intros [Hk Hpt Hf] Ht Hlv Hi Hn Hc Hcl Hnew Hm'.
  pose proof (pw_page _ _ _ Hpt _ _ Ht) as Hpt_t. pose proof (pte_in_page t i Hi) as Hin.
  assert (forall t', page_ok t' -> t' <> c -> t' + PGSIZE <= c \/ c + PGSIZE <= t') as Hap.
  { intros t' [? _] Hne. destruct Hc as [? _]. by apply page_apart. }
  assert (t <> c) as Htc by (intros ->; by eapply Hnew).
  assert (forall b, ~ (c <= b < c + PGSIZE) -> ~ (pte_at t i <= b < pte_at t i + 8) ->
    rd m' b = rd (k_mem s) b) as Hfr.
  { intros b H1 H2. subst m'. rewrite rd_st_out by (simpl; lia). rewrite memset_rd by done.
    by rewrite decide_False. }
  assert (forall b, c <= b < c + PGSIZE -> rd m' b = 0) as Hz.
  { intros b Hb. subst m'. rewrite rd_st_out by (simpl; destruct (Hap t Hpt_t Htc); lia).
    rewrite memset_rd by done. by rewrite decide_True. }
  assert (pt_same (fun t' i' => (t', i') = (t, i)) (k_mem s) m' tbl) as Hsame.
  { intros x t' i' Ht' Hi' Hne. apply ld_frame. intros b Hb. simpl in Hb.
    pose proof (pw_page _ _ _ Hpt _ _ Ht') as Hpt'. pose proof (pte_in_page t' i' Hi').
    apply Hfr.
    - assert (t' <> c) as Hx by (intros ->; by eapply Hnew). destruct (Hap t' Hpt' Hx); lia.
    - destruct (pte_apart t i t' i' Hpt_t Hpt' Hi Hi' ltac:(congruence)); lia. }
  assert (ld64 m' (pte_at t i) = Z.lor (PA2PTE c) PTE_V) as Hent.
  { subst m'. rewrite ld64_st64; [done|]. apply PTE_range; [by apply page_pa_ok|by vm_compute]. }
  clear Hm'. split; [|split].
  - split.
    + destruct Hk as [K1 K2 K3 K4 K5]. split; [exact K1|exact K2| |exact K4|exact K5].
      eapply run_list_same; [|exact K3]. intros a b Ha Hb. apply Hfr.
      * assert (a <> c) as Hx by (by intros ->). rewrite Forall_forall in K5.
        destruct (Hap a (K5 a Ha) Hx); unfold PGSIZE in *; lia.
      * assert (a <> t) as Hx by (intros ->; by eapply Hf). rewrite Forall_forall in K5.
        destruct (K5 a Ha) as [Ka _]. destruct Hpt_t as [Kt _].
        destruct (page_apart a t Ka Kt Hx); unfold PGSIZE in *; lia.
    + simpl. by apply (add_table_wf (k_mem s) m' root tbl lv k t i c).
    + intros x t' Hx. destruct (decide ((lv, 512 * k + i) = x)) as [<-|Hne].
      * rewrite lookup_insert_eq in Hx. by injection Hx as <-.
      * rewrite lookup_insert_ne in Hx by done. by eapply Hf.
  - intros va Hva. by apply (add_table_leaf (k_mem s) m' root tbl lv k t i c).
  - intros b H1 H2. apply Hfr; [done|]. lia.
Qed.

Lemma walk_loop_alloc root va : 0 <= va < 2 ^ 64 -> forall lv s l tbl t,
  vm_inv s l root tbl -> (lv <= 2)%nat -> tbl !! (lv, pref lv va) = Some t ->
  wp (walk_loop lv t va true) (fun r s' => exists l' tbl', grown root s l tbl s' l' tbl' /\
    (leaf_at tbl' va = Some r \/ r = 0 /\ l' = [])) s.
Proof.
  intros Hva lv. induction lv as [|lv IH]; intros s l tbl t Hinv Hlv Ht; cbn [walk_loop].
  - apply wp_ret. exists l, tbl. split; [by apply grown_refl|]. left. unfold leaf_at. by rewrite Ht.
  - pose proof (PX_range (S lv) va Hva) as Hi. set (i := PX (Z.of_nat (S lv)) va) in *.
    pose proof (vi_pt _ _ _ _ Hinv) as Hpt. pose proof (pw_page _ _ _ Hpt _ _ Ht) as Hpg.
    pose proof (pw_child _ _ _ Hpt lv _ t i Ht Hi) as Hc.
    pose proof (pref_S lv va Hva) as Hpref. fold i in Hpref. rewrite Hpref in Hc.
    apply wp_bind, wp_load; [by apply pte_ram|].
    destruct (tbl !! (lv, pref lv va)) as [c|] eqn:Ec.
    { destruct Hc as [-> ->]. apply IH; [done|lia|done]. }
    rewrite Hc. cbn [negb]. apply wp_bind. pose proof Hinv as [Hk _ _].
    eapply wp_kalloc; [done|]. destruct l as [|c l]; cbn [hd].
    { apply wp_ret. exists [], tbl. split; [|by right].
      destruct Hinv as [K P F]. split; [|done]. split; try done; [|exists []; split; [done|split; [by left|by intros ? ?%elem_of_nil]]].
      split; [by apply kalloc_inv_nil|done|done]. }
    destruct (kalloc_grown root s c l tbl Hinv) as (Hinv1 & Hs1 & Hcp & Hcl & Hnew).
    pose proof (page_pos c Hcp). destruct (Z.eqb_spec c 0); [lia|].
    apply wp_bind, wp_memset; [by apply page_ram|].
    apply wp_bind, wp_store; [by apply pte_ram|]. cbn [k_mem set_mem].
    set (s1 := kalloc_post (c :: l) s) in *.
    destruct (grow_table root s1 l tbl lv (pref (S lv) va) t i c
      (st64 (memset (k_mem s1) c 0 PGSIZE) (pte_at t i) (Z.lor (PA2PTE c) PTE_V)))
      as (Hinv2 & Hleaf & Hfr); try done; [by rewrite Hpref|].
    rewrite Hpref in *. eapply wp_conseq.
    { apply (IH _ l (<[(lv, pref lv va):=c]> tbl) c Hinv2); [lia|apply lookup_insert_eq]. }
    intros r s' (l' & tbl' & Hg & Hr). exists l', tbl'. split; [|done].
    eapply grown_trans; [|exact Hg]. split; [split|].
    + exact Hinv2.
    + by apply insert_subseteq.
    + exists [c]. split; [done|]. split; [|intros t' ->%list_elem_of_singleton; exists (lv, pref lv va); apply lookup_insert_eq].
      intros x t' Hx. destruct (decide ((lv, pref lv va) = x)) as [<-|Hne].
      * rewrite lookup_insert_eq in Hx. injection Hx as <-. right. apply list_elem_of_singleton. done.
      * rewrite lookup_insert_ne in Hx by done. by left.
    + intros b Hb. cbn [k_mem set_mem]. rewrite Hfr.
      * apply kalloc_frame. apply (Hb (lv, pref lv va)). apply lookup_insert_eq.
      * apply (Hb (lv, pref lv va)). apply lookup_insert_eq.
      * apply (Hb (S lv, pref (S lv) va)). rewrite lookup_insert_ne; [done|].
        intros [= E _]. lia.
    + done.
    + intros va' Hva'. cbn [k_mem set_mem]. rewrite Hleaf by done. by apply leaf_same.
Qed.

Lemma walk_alloc s l root tbl va :
  vm_inv s l root tbl -> 0 <= va < MAXVA ->
  wp (walk root va true) (fun r s' => exists l' tbl', grown root s l tbl s' l' tbl' /\
    (leaf_at tbl' va = Some r \/ r = 0 /\ l' = [])) s.
Proof.
  intros Hinv Hva. unfold walk. rewrite (proj2 (Z.leb_gt MAXVA va)) by lia.
  apply walk_loop_alloc; [by apply maxva_range|done|lia|].
  rewrite pref_top by done. apply Hinv.
Qed.

(** ** Writing a PTE *)

Lemma vpn_pref va va' :
  0 <= va < 2 ^ 64 -> 0 <= va' < 2 ^ 64 -> vpn va = vpn va' -> pref 0 va = pref 0 va' /\ PX 0 va = PX 0 va'.
Proof.
  intros H H' E. rewrite !vpn_split in E by done.
  pose proof (PX_range 0 va H) as P1. pose proof (PX_range 0 va' H') as P2. change (Z.of_nat 0) with 0 in P1, P2. lia.
Qed.

Lemma leaf_at_Some tbl va a :
  leaf_at tbl va = Some a -> exists t, tbl !! (0%nat, pref 0 va) = Some t /\ a = pte_at t (PX 0 va).
Proof. unfold leaf_at. destruct (tbl !! _) as [t|]; [|done]. intros [= <-]. by exists t. Qed.

Lemma leaf_at_ram m root tbl va a :
  pt_wf m root tbl -> 0 <= va < 2 ^ 64 -> leaf_at tbl va = Some a -> ram a 8 /\ a <> 0.
Proof.
  intros Hwf Hva (t & Ht & ->)%leaf_at_Some. pose proof (pw_page _ _ _ Hwf _ _ Ht) as Hp.
  pose proof (PX_range 0 va Hva) as Hi. split; [by apply pte_ram|].
  pose proof (page_pos t Hp). pose proof (pte_in_page t _ Hi). change (Z.of_nat 0) with 0 in *. lia.
Qed.

Lemma set_leaf s l root tbl va a v :
  vm_inv s l root tbl -> 0 <= va < 2 ^ 64 -> leaf_at tbl va = Some a -> 0 <= v < 2 ^ 64 ->
  evolve root s l tbl (set_mem (st64 (k_mem s) a v) s) l tbl /\
  forall va', 0 <= va' < 2 ^ 64 -> leaf (st64 (k_mem s) a v) tbl va' =
    if decide (vpn va' = vpn va) then v else leaf (k_mem s) tbl va'.
Proof.
  intros Hinv Hva (t & Ht & ->)%leaf_at_Some Hv.
  pose proof (PX_range 0 va Hva) as Hi. change (Z.of_nat 0) with 0 in Hi.
  pose proof Hinv as [Hk Hpt Hf]. pose proof (pw_page _ _ _ Hpt _ _ Ht) as Hp.
  pose proof (pte_in_page t _ Hi) as Hin. set (i := PX 0 va) in *.
  set (m' := st64 (k_mem s) (pte_at t i) v).
  assert (forall b, ~ (pte_at t i <= b < pte_at t i + 8) -> rd m' b = rd (k_mem s) b) as Hfr.
  { intros b Hb. apply rd_st_out. simpl. lia. }
  assert (forall x t' i', tbl !! x = Some t' -> 0 <= i' < 512 -> (t', i') <> (t, i) ->
    ld64 m' (pte_at t' i') = ld64 (k_mem s) (pte_at t' i')) as Hld.
  { intros x t' i' Ht' Hi' Hne. apply ld_frame. intros b Hb. apply Hfr. simpl in Hb.
    destruct (pte_apart t i t' i' Hp (pw_page _ _ _ Hpt _ _ Ht') Hi Hi' ltac:(congruence)); lia. }
  split; [split|].
  - split; [|split|done].
    + destruct Hk as [K1 K2 K3 K4 K5]. split; [exact K1|exact K2| |exact K4|exact K5].
      eapply run_list_same; [|exact K3]. intros x b Hx Hb. apply Hfr.
      rewrite Forall_forall in K5. destruct (K5 x Hx) as [Kx _], Hp as [Kt _].
      assert (x <> t) as Hne by (intros ->; by eapply Hf).
      destruct (page_apart x t Kx Kt Hne); unfold PGSIZE in *; lia.
    + apply Hpt.
    + apply Hpt.
    + apply Hpt.
    + intros lv k t' i' Ht' Hi'. cbn [k_mem set_mem]. rewrite (Hld _ _ _ Ht' Hi'); [by apply (pw_child _ _ _ Hpt)|].
      intros [= -> _]. assert ((S lv, k) = (0%nat, pref 0 va)) as [=] by (by eapply (pw_inj _ _ _ Hpt)).
    + apply Hpt.
  - done.
  - exists []. split; [done|]. split; [by left|by intros ? ?%elem_of_nil].
  - intros b Hb. apply Hfr. specialize (Hb _ _ Ht). lia.
  - done.
  - intros va' Hva'. pose proof (PX_range 0 va' Hva') as Hi'. change (Z.of_nat 0) with 0 in Hi'.
    unfold leaf, leaf_at. case_decide as E.
    + destruct (vpn_pref va' va Hva' Hva E) as [-> ->]. rewrite Ht. simpl. unfold m'. by rewrite ld64_st64.
    + destruct (tbl !! (0%nat, pref 0 va')) as [t'|] eqn:Et'; [|done]. simpl.
      apply (Hld _ _ _ Et' Hi'). intros [= -> Ei]. apply E.
      assert ((0%nat, pref 0 va') = (0%nat, pref 0 va)) as [= Ep] by (by eapply (pw_inj _ _ _ Hpt)).
      by apply vpn_inj.
Qed.

Lemma grown_evolve root s l tbl s1 l1 t1 s2 l2 t2 :
  grown root s l tbl s1 l1 t1 -> evolve root s1 l1 t1 s2 l2 t2 -> evolve root s l tbl s2 l2 t2.
Proof. intros [H _]. by apply evolve_trans. Qed.

(** ** [mappages] *)

Definition mkpte (pa perm : Z) : Z := Z.lor (Z.lor (PA2PTE pa) perm) PTE_V.

Lemma flags_V perm : 0 <= perm < 1024 -> 0 <= Z.lor perm PTE_V < 1024.
Proof.
  intros H. assert (Z.lor perm PTE_V = Z.lor perm PTE_V mod 2 ^ 10) as ->.
  { rewrite <- Z.land_ones, Z.land_lor_distr_l, !Z.land_ones by lia.
    by rewrite (Z.mod_small perm) by lia. }
  apply Z.mod_pos_bound. lia.
Qed.

Lemma mkpte_eq pa perm : mkpte pa perm = Z.lor (PA2PTE pa) (Z.lor perm PTE_V).
Proof. unfold mkpte. by rewrite Z.lor_assoc. Qed.

Lemma mkpte_spec pa perm :
  pa_ok pa -> 0 <= perm < 1024 ->
  valid (mkpte pa perm) = true /\ PTE2PA (mkpte pa perm) = pa /\
  PTE_FLAGS (mkpte pa perm) = Z.lor perm PTE_V /\ 0 <= mkpte pa perm < 2 ^ 64.
Proof.
  intros Hpa Hp. pose proof (flags_V perm Hp). split; [apply valid_lor_V|].
  rewrite mkpte_eq. split; [by apply PTE2PA_spec|]. split; [by apply PTE_FLAGS_spec|by apply PTE_range].
Qed.

(** The address space [f] with the [n] pages from [a] mapped to [pa]. *)
Definition with_pages (f : Z -> Z) (a n pa perm va : Z) : Z :=
  if decide (a <= va < a + n * PGSIZE) then mkpte (pa + (vpn va * PGSIZE - a)) perm else f va.

Lemma with_pages_0 f a pa perm va : with_pages f a 0 pa perm va = f va.
Proof. unfold with_pages. rewrite decide_False; [done|]. lia. Qed.

(** Pages [a] and the [n] after it, one at a time. *)
Lemma with_pages_S f a n pa perm va :
  a mod PGSIZE = 0 -> 0 <= n ->
  with_pages f a (n + 1) pa perm va =
  with_pages (fun va => if decide (vpn va = vpn a) then mkpte pa perm else f va)
    (a + PGSIZE) n (pa + PGSIZE) perm va.
Proof.
  intros Ha Hn. unfold with_pages, vpn, PGSIZE in *.
  pose proof (Z.div_mod va 4096 ltac:(lia)). pose proof (Z.mod_pos_bound va 4096 ltac:(lia)).
  pose proof (Z.div_mod a 4096 ltac:(lia)).
  repeat case_decide; try lia; try done; f_equal; lia.
Qed.

Lemma vpn_eq_range a va : a mod PGSIZE = 0 -> vpn va = vpn a <-> a <= va < a + PGSIZE.
Proof.
  intros Ha. unfold vpn, PGSIZE in *. pose proof (Z.div_mod va 4096 ltac:(lia)).
  pose proof (Z.mod_pos_bound va 4096 ltac:(lia)). pose proof (Z.div_mod a 4096 ltac:(lia)). lia.
Qed.

Lemma mapva_small : MAXVA < 2 ^ 63.
Proof. by vm_compute. Qed.

(** One iteration: either no page is left for a table, or [a] is mapped. *)
Lemma map_one s l root tbl a pa perm :
  vm_inv s l root tbl -> a mod PGSIZE = 0 -> 0 <= a < MAXVA -> pa_ok pa -> 0 <= perm < 1024 ->
  valid (leaf (k_mem s) tbl a) = false ->
  forall A (oom : M kst A) (next : M kst A) Q,
  (forall s' l' tbl', grown root s l tbl s' l' tbl' -> l' = [] -> wp oom Q s') ->
  (forall s' l' tbl', evolve root s l tbl s' l' tbl' ->
     (forall va, 0 <= va < 2 ^ 64 -> leaf (k_mem s') tbl' va =
        if decide (vpn va = vpn a) then mkpte pa perm else leaf (k_mem s) tbl va) ->
     wp next Q s') ->
  wp (pte ← walk root a true;
      if pte =? 0 then oom else
      e ← load64 pte;
      if valid e then panic "remap" else
      store64 pte (Z.lor (Z.lor (PA2PTE pa) perm) PTE_V);; next) Q s.
Proof.
  intros Hinv Ha Hr Hpa Hperm Hv A oom next Q Hoom Hnext.
  assert (0 <= a < 2 ^ 64) as Hr64 by (pose proof mapva_small; lia).
  apply wp_bind. eapply wp_conseq; [by apply walk_alloc|].
  intros r s1 (l1 & t1 & Hg & [Hla|[-> ->]]).
  - pose proof Hg as [He Hl]. pose proof (ev_inv _ _ _ _ _ _ _ He) as Hinv1.
    destruct (leaf_at_ram _ _ _ _ _ (vi_pt _ _ _ _ Hinv1) Hr64 Hla) as [Hram Hnz].
    rewrite (proj2 (Z.eqb_neq r 0)) by done.
    apply wp_bind, wp_load; [done|].
    assert (ld64 (k_mem s1) r = leaf (k_mem s) tbl a) as ->.
    { rewrite <- Hl by done. unfold leaf. by rewrite Hla. }
    rewrite Hv. apply wp_bind, wp_store; [done|]. fold (mkpte pa perm).
    destruct (mkpte_spec pa perm Hpa Hperm) as (_ & _ & _ & Hrange).
    destruct (set_leaf s1 l1 root t1 a r (mkpte pa perm) Hinv1 Hr64 Hla Hrange) as [He2 Hl2].
    eapply Hnext; [by eapply grown_evolve|]. intros va Hva. cbn [k_mem set_mem].
    rewrite Hl2 by done. case_decide; [done|]. by apply Hl.
  - rewrite Z.eqb_refl. by eapply Hoom.
Qed.

Lemma mappages_loop root perm last : 0 <= perm < 1024 -> forall (n : nat) s l tbl a pa fuel,
  vm_inv s l root tbl -> a mod PGSIZE = 0 -> 0 <= a -> a + (Z.of_nat n + 1) * PGSIZE <= MAXVA ->
  pa mod PGSIZE = 0 -> 0 <= pa -> pa + (Z.of_nat n + 1) * PGSIZE <= 2 ^ 56 ->
  (forall va, a <= va < a + (Z.of_nat n + 1) * PGSIZE -> valid (leaf (k_mem s) tbl va) = false) ->
  last = a + Z.of_nat n * PGSIZE -> (n < fuel)%nat ->
  wp (loop fuel (fun '(a, pa) =>
    pte ← walk root a true;
    if pte =? 0 then mret (inr (-1)) else
    e ← load64 pte;
    if valid e then panic "remap" else
    store64 pte (Z.lor (Z.lor (PA2PTE pa) perm) PTE_V);;
    if a =? last then mret (inr 0) else
    mret (inl (u64 (a + PGSIZE), u64 (pa + PGSIZE)))) (a, pa))
  (fun r s' => exists l' tbl' k, evolve root s l tbl s' l' tbl' /\
    (r = 0 /\ k = Z.of_nat n + 1 \/ r = -1 /\ 0 <= k <= Z.of_nat n /\ l' = []) /\
    forall va, 0 <= va < 2 ^ 64 ->
      leaf (k_mem s') tbl' va = with_pages (leaf (k_mem s) tbl) a k pa perm va) s.
Proof.
  intros Hperm n. pose proof mapva_small as Hmax. assert (PGSIZE = 4096) as HPG by done.
  induction n as [|n IH]; intros s l tbl a pa fuel Hinv Ha Ha0 HaM Hp Hp0 HpM Hnv Hlast Hf;
    (destruct fuel as [|fuel]; [lia|]); cbn [loop]; apply wp_bind;
    (eapply (map_one s l root tbl a pa perm); try done; [lia|split; [lia|done]|apply Hnv; lia| |]).
  - intros s' l' tbl' [He Hl] Hl'. apply wp_ret, wp_ret. exists l', tbl', 0. split; [done|].
    split; [right; split; [done|split; [lia|done]]|]. intros va Hva. by rewrite with_pages_0, Hl.
  - intros s' l' tbl' He Hl. rewrite (proj2 (Z.eqb_eq a last)) by lia. apply wp_ret, wp_ret.
    exists l', tbl', (Z.of_nat 0 + 1). split; [done|]. split; [by left|]. intros va Hva.
    rewrite Hl, with_pages_S, with_pages_0 by lia. done.
  - intros s' l' tbl' [He Hl] Hl'. apply wp_ret, wp_ret. exists l', tbl', 0. split; [done|].
    split; [right; split; [done|split; [lia|done]]|]. intros va Hva. by rewrite with_pages_0, Hl.
  - intros s' l' tbl' He Hl. rewrite (proj2 (Z.eqb_neq a last)) by lia. apply wp_ret.
    rewrite !u64_small by lia. eapply wp_conseq.
    { apply (IH s' l' tbl' (a + PGSIZE) (pa + PGSIZE) fuel); try lia.
      - apply He.
      - rewrite HPG in *. rewrite <- (Z.mul_1_l 4096) at 1. by rewrite Z_mod_plus_full.
      - rewrite HPG in *. rewrite <- (Z.mul_1_l 4096) at 1. by rewrite Z_mod_plus_full.
      - intros va Hva. rewrite Hl by lia. rewrite decide_False; [apply Hnv; lia|].
        rewrite vpn_eq_range by done. lia. }
    intros r s2 (l2 & t2 & k & He2 & Hr & Hl2). exists l2, t2, (k + 1).
    split; [by eapply evolve_trans|]. split.
    + destruct Hr as [[-> ->]|(-> & Hk & ->)]; [left; lia|right]. split; [done|split; [lia|done]].
    + intros va Hva. rewrite Hl2 by done.
      rewrite with_pages_S by (destruct Hr as [[_ ->]|(_ & Hk & _)]; lia || done).
      unfold with_pages. case_decide; [done|]. by apply Hl.
Qed.

(** ** [walkaddr] *)

Lemma walkaddr_eq s root tbl va :
  pt_wf (k_mem s) root tbl -> 0 <= va < MAXVA ->
  let e := leaf (k_mem s) tbl va in
  walkaddr root va s =
    Ret (if valid e && negb (Z.land e PTE_U =? 0) then PTE2PA e else 0) s.
Proof.
  intros Hwf Hva e. pose proof mapva_small. assert (0 <= va < 2 ^ 64) as Hr by lia.
  unfold walkaddr. rewrite (proj2 (Z.leb_gt MAXVA va)) by lia.
  erewrite bind_ret by (by apply walk_find). unfold e, leaf, valid.
  destruct (leaf_at tbl va) as [a|] eqn:Ea; simpl; [|done].
  destruct (leaf_at_ram _ _ _ _ _ Hwf Hr Ea) as [Hram Hnz]. rewrite (proj2 (Z.eqb_neq a 0)) by done.
  erewrite bind_ret by (by apply load_eq).
  destruct (Z.land (ld64 (k_mem s) a) PTE_V =? 0); [done|].
  by destruct (Z.land (ld64 (k_mem s) a) PTE_U =? 0).
Qed.

(** ** [uvmunmap] *)

(** [va] is mapped to a page that is neither free nor a table. *)
Record owned (m : mem) (tbl : gmap (nat * Z) Z) (l : list Z) (va : Z) : Prop := {
  ow_valid : valid (leaf m tbl va) = true;
  ow_leaf : PTE_FLAGS (leaf m tbl va) <> PTE_V;
  ow_page : page_ok (PTE2PA (leaf m tbl va));
  ow_free : PTE2PA (leaf m tbl va) ∉ l;
  ow_table : forall x, tbl !! x <> Some (PTE2PA (leaf m tbl va))
}.

Definition without_pages (f : Z -> Z) (a n va : Z) : Z :=
  if decide (a <= va < a + n * PGSIZE) then 0 else f va.

Lemma without_pages_0 f a va : without_pages f a 0 va = f va.
Proof. unfold without_pages. rewrite decide_False; [done|]. lia. Qed.

Lemma without_pages_S f a n va :
  a mod PGSIZE = 0 -> 0 <= n ->
  without_pages f a (n + 1) va =
  without_pages (fun va => if decide (vpn va = vpn a) then 0 else f va) (a + PGSIZE) n va.
Proof.
  intros Ha Hn. unfold without_pages. pose proof (vpn_eq_range a va Ha).
  assert (PGSIZE = 4096) by done. repeat case_decide; try lia; done.
Qed.

Lemma leaf_valid_at m tbl va : valid (leaf m tbl va) = true -> exists a, leaf_at tbl va = Some a.
Proof. unfold leaf. destruct (leaf_at tbl va) as [a|]; [by exists a|done]. Qed.

(** Freeing a page that is not a table. *)
Lemma kfree_vm s l root tbl pa :
  vm_inv s l root tbl -> page_ok pa -> (pa ∉ l) -> (forall x, tbl !! x <> Some pa) ->
  vm_inv (kfree_post pa s) (pa :: l) root tbl /\
  forall va, 0 <= va < 2 ^ 64 -> leaf (k_mem (kfree_post pa s)) tbl va = leaf (k_mem s) tbl va.
Proof.
  intros [Hk Hpt Hf] Hpa Hl Ht.
  assert (pt_same (fun _ _ => False) (k_mem s) (k_mem (kfree_post pa s)) tbl) as Hs.
  { apply pt_same_frame; [apply Hpt|]. intros x t b Hx Hb. apply kfree_frame.
    assert (t <> pa) as Hne by (intros ->; by eapply Ht).
    destruct (pw_page _ _ _ Hpt x t Hx) as [Ka _], Hpa as [Kb _].
    destruct (page_apart t pa Ka Kb Hne); lia. }
  split; [|intros va Hva; by apply leaf_same]. split.
  - by apply kfree_inv.
  - by eapply pt_wf_same.
  - intros x t Hx [->|Hin]%elem_of_cons; [by eapply Ht|by eapply Hf].
Qed.

(** The pages the [n] pages from [a] map to, last first. *)
Fixpoint unmapped (f : Z -> Z) (a : Z) (n : nat) : list Z :=
  match n with
  | O => []
  | S n' => PTE2PA (f (a + Z.of_nat n' * PGSIZE)) :: unmapped f a n'
  end.

Lemma unmapped_S f a n :
  unmapped f a (S n) = unmapped f (a + PGSIZE) n ++ [PTE2PA (f a)].
Proof.
  induction n as [|n IH]; [simpl; do 3 f_equal; lia|].
  change (unmapped f a (S (S n))) with (PTE2PA (f (a + Z.of_nat (S n) * PGSIZE)) :: unmapped f a (S n)).
  rewrite IH. simpl. do 3 f_equal. lia.
Qed.

Lemma elem_of_unmapped f a n p :
  p ∈ unmapped f a n <-> exists i, 0 <= i < Z.of_nat n /\ p = PTE2PA (f (a + i * PGSIZE)).
Proof.
  induction n as [|n IH]; simpl.
  - split; [by intros ?%elem_of_nil|intros (i & ? & _); lia].
  - rewrite elem_of_cons, IH. split.
    + intros [->|(i & Hi & ->)]; [exists (Z.of_nat n)|exists i]; split; (lia || done).
    + intros (i & Hi & ->). destruct (decide (i = Z.of_nat n)) as [->|]; [by left|right].
      exists i. split; [lia|done].
Qed.

Lemma unmapped_ext f g a n :
  (forall i, 0 <= i < Z.of_nat n -> f (a + i * PGSIZE) = g (a + i * PGSIZE)) ->
  unmapped f a n = unmapped g a n.
Proof.
  induction n as [|n IH]; intros H; [done|]. simpl. rewrite H by lia. f_equal. apply IH.
  intros i Hi. apply H. lia.
Qed.

Record unmap_post (root : Z) (tbl : gmap (nat * Z) Z) (a : Z) (n : nat) (s : kst) (l : list Z)
    (s' : kst) : Prop := {
  um_inv : vm_inv s' (unmapped (leaf (k_mem s) tbl) a n ++ l) root tbl;
  um_leaf : forall va, 0 <= va < 2 ^ 64 ->
    leaf (k_mem s') tbl va = without_pages (leaf (k_mem s) tbl) a (Z.of_nat n) va;
  um_frame : forall b, (forall x t, tbl !! x = Some t -> ~ (t <= b < t + PGSIZE)) ->
    (forall p, p ∈ unmapped (leaf (k_mem s) tbl) a n -> ~ (p <= b < p + PGSIZE)) ->
    rd (k_mem s') b = rd (k_mem s) b;
  um_others : others s' = others s
}.

(** One page: the frame is freed and the PTE cleared. *)
Lemma unmap_one s l root tbl a :
  vm_inv s l root tbl -> a mod PGSIZE = 0 -> 0 <= a < MAXVA ->
  owned (k_mem s) tbl l a ->
  forall A (k : M kst A) Q,
  (forall s', unmap_post root tbl a 1 s l s' -> wp k Q s') ->
  wp (pte ← walk root a false;
      if pte =? 0 then panic "uvmunmap: walk" else
      e ← load64 pte;
      if Z.land e PTE_V =? 0 then panic "uvmunmap: not mapped" else
      if PTE_FLAGS e =? PTE_V then panic "uvmunmap: not a leaf" else
      kfree (PTE2PA e);;
      store64 pte 0;; k) Q s.
Proof.
  intros Hinv Ha Hr [O1 O2 O3 O4 O5] A k Q HQ. pose proof mapva_small.
  assert (0 <= a < 2 ^ 64) as Hr64 by lia. pose proof Hinv as [Hk Hpt Hf].
  destruct (leaf_valid_at _ _ _ O1) as [r Hla].
  destruct (leaf_at_ram _ _ _ _ _ Hpt Hr64 Hla) as [Hram Hnz].
  apply wp_bind. eapply wp_eq; [by apply walk_find|]. rewrite Hla. change (default 0 (Some r)) with r.
  rewrite (proj2 (Z.eqb_neq r 0)) by done. apply wp_bind, wp_load; [done|].
  assert (ld64 (k_mem s) r = leaf (k_mem s) tbl a) as -> by (unfold leaf; by rewrite Hla).
  set (e := leaf (k_mem s) tbl a) in *. unfold valid in O1.
  destruct (Z.land e PTE_V =? 0); [done|]. rewrite (proj2 (Z.eqb_neq _ _) O2).
  apply wp_bind. eapply wp_kfree; [done|done|].
  destruct (kfree_vm s l root tbl (PTE2PA e) Hinv O3 O4 O5) as [Hinv1 Hl1].
  apply wp_bind, wp_store; [done|].
  destruct (set_leaf (kfree_post (PTE2PA e) s) (PTE2PA e :: l) root tbl a r 0 Hinv1 Hr64 Hla ltac:(lia))
    as [He2 Hl2].
  apply HQ. split.
  - cbn [unmapped app]. replace (a + Z.of_nat 0 * PGSIZE) with a by lia. apply He2.
  - intros va Hva. cbn [k_mem set_mem]. rewrite Hl2 by done.
    change (Z.of_nat 1) with (0 + 1). rewrite without_pages_S by (done || lia).
    rewrite without_pages_0. case_decide; [done|by apply Hl1].
  - intros b Hb Hp. rewrite (ev_frame _ _ _ _ _ _ _ He2) by done. apply kfree_frame.
    apply Hp. cbn [unmapped]. replace (a + Z.of_nat 0 * PGSIZE) with a by lia. set_solver.
  - done.
Qed.

Lemma uvmunmap_loop root fin tbl : forall (n : nat) s l a fuel,
  vm_inv s l root tbl -> a mod PGSIZE = 0 -> 0 <= a -> fin = a + Z.of_nat n * PGSIZE -> fin <= MAXVA ->
  (forall i, 0 <= i < Z.of_nat n -> owned (k_mem s) tbl l (a + i * PGSIZE)) ->
  NoDup (unmapped (leaf (k_mem s) tbl) a n) -> (n < fuel)%nat ->
  wp (loop fuel (fun a : Z =>
    if a <? fin then
      pte ← walk root a false;
      if pte =? 0 then panic "uvmunmap: walk" else
      e ← load64 pte;
      if Z.land e PTE_V =? 0 then panic "uvmunmap: not mapped" else
      if PTE_FLAGS e =? PTE_V then panic "uvmunmap: not a leaf" else
      kfree (PTE2PA e);;
      store64 pte 0;;
      mret (inl (u64 (a + PGSIZE)))
    else mret (inr tt)) a)
  (fun _ s' => unmap_post root tbl a n s l s') s.
Proof.
  pose proof mapva_small as Hmax. assert (PGSIZE = 4096) as HPG by done.
  intros n. induction n as [|n IH]; intros s l a fuel Hinv Ha Ha0 Hfin HM Hown Hnd Hf;
    (destruct fuel as [|fuel]; [lia|]); cbn [loop]; apply wp_bind.
  - rewrite (proj2 (Z.ltb_ge a fin)) by lia. apply wp_ret, wp_ret. split; try done.
    intros va Hva. unfold without_pages. rewrite decide_False by lia. done.
  - rewrite (proj2 (Z.ltb_lt a fin)) by lia.
    assert (owned (k_mem s) tbl l a) as Ho.
    { pose proof (Hown 0 ltac:(lia)) as Ho. by replace (a + 0 * PGSIZE) with a in Ho by lia. }
    eapply (unmap_one s l root tbl a); try done; [lia|].
    intros s1 [U1 U2 U3 U4]. apply wp_ret. rewrite u64_small by lia.
    cbn [unmapped app] in U1, U3. replace (a + Z.of_nat 0 * PGSIZE) with a in U1, U3 by lia.
    assert (forall i, 0 <= i < Z.of_nat n -> leaf (k_mem s1) tbl (a + PGSIZE + i * PGSIZE) =
      leaf (k_mem s) tbl (a + PGSIZE + i * PGSIZE)) as Hleaf.
    { intros i Hi. rewrite U2 by lia. unfold without_pages. rewrite decide_False by lia. done. }
    assert (unmapped (leaf (k_mem s1) tbl) (a + PGSIZE) n =
      unmapped (leaf (k_mem s) tbl) (a + PGSIZE) n) as Hum by (by apply unmapped_ext).
    rewrite unmapped_S in Hnd. apply NoDup_app in Hnd as (Hnd1 & Hd & _).
    eapply wp_conseq.
    { apply (IH s1 _ (a + PGSIZE) fuel U1); try lia; [| |by rewrite Hum].
      - rewrite HPG in *. rewrite <- (Z.mul_1_l 4096) at 1. by rewrite Z_mod_plus_full.
      - intros i Hi. destruct (Hown (i + 1) ltac:(lia)) as [O1 O2 O3 O4 O5].
        replace (a + (i + 1) * PGSIZE) with (a + PGSIZE + i * PGSIZE) in * by lia.
        split; rewrite Hleaf by done; try done.
        intros [E|Hin]%elem_of_cons; [|done]. 
        apply (Hd (PTE2PA (leaf (k_mem s) tbl a))); [|by apply list_elem_of_singleton].
        rewrite <- E. apply elem_of_unmapped. exists i. done. }
    intros u s' [V1 V2 V3 V4]. rewrite Hum in V1, V3. split.
    + rewrite unmapped_S, <- app_assoc. exact V1.
    + intros va Hva. rewrite V2 by done. replace (Z.of_nat (S n)) with (Z.of_nat n + 1) by lia.
      rewrite without_pages_S by (done || lia). unfold without_pages at 1 2. case_decide; [done|].
      rewrite U2 by done. change (Z.of_nat 1) with (0 + 1).
      by rewrite without_pages_S, without_pages_0 by (done || lia).
    + intros b Hb Hp. rewrite unmapped_S in Hp. setoid_rewrite elem_of_app in Hp.
      rewrite V3 by auto. apply U3; auto.
    + congruence.
Qed.

Lemma mappages_wp s l root tbl va size pa perm :
  vm_inv s l root tbl -> 0 <= va -> 1 <= size -> va + size <= MAXVA ->
  pa mod PGSIZE = 0 -> 0 <= pa -> pa + size + 2 * PGSIZE <= 2 ^ 56 -> 0 <= perm < 1024 ->
  let a := PGROUNDDOWN va in
  let n := (PGROUNDDOWN (va + size - 1) - a) / PGSIZE in
  (forall v, a <= v < a + (n + 1) * PGSIZE -> valid (leaf (k_mem s) tbl v) = false) ->
  wp (mappages root va size pa perm) (fun r s' => exists l' tbl' k,
    evolve root s l tbl s' l' tbl' /\
    (r = 0 /\ k = n + 1 \/ r = -1 /\ 0 <= k <= n /\ l' = []) /\
    forall v, 0 <= v < 2 ^ 64 ->
      leaf (k_mem s') tbl' v = with_pages (leaf (k_mem s) tbl) a k pa perm v) s.
Proof.
  intros Hinv Hva Hsz HM Hpa Hpa0 HpaM Hperm a n Hnv. pose proof mapva_small.
  destruct (PGROUNDDOWN_spec va) as [Ha Hal]. fold a in Ha, Hal.
  destruct (PGROUNDDOWN_spec (va + size - 1)) as [Hb Hbl].
  unfold mappages. rewrite (u64_small (va + size - 1)) by lia. fold a.
  set (last := PGROUNDDOWN (va + size - 1)) in *. assert (PGSIZE = 4096) as HPG by done.
  apply Z.mod_divide in Hal as [x Hx]; [|done]. apply Z.mod_divide in Hbl as [y Hy]; [|done].
  assert (n = y - x) as Hn.
  { unfold n. rewrite Hx, Hy, <- Z.mul_sub_distr_r. by apply Z.div_mul. }
  assert (MAXVA = 67108864 * PGSIZE) as HMX by done. rewrite HPG in *.
  assert (0 <= n) by lia. rewrite u64_small by lia.
  replace ((last - a) / 4096) with n by done.
  eapply wp_conseq.
  { apply (mappages_loop root perm last Hperm (Z.to_nat n) s l tbl a pa); try done;
      rewrite ?Z2Nat.id, ?HPG by done; try done; try lia.
    rewrite Hx. by apply Z_mod_mult. }
  intros r s'. by rewrite !Z2Nat.id by done.
Qed.

Lemma uvmunmap_wp s l root tbl va npages :
  vm_inv s l root tbl -> va mod PGSIZE = 0 -> 0 <= va -> 0 <= npages ->
  va + npages * PGSIZE <= MAXVA ->
  (forall i, 0 <= i < npages -> owned (k_mem s) tbl l (va + i * PGSIZE)) ->
  NoDup (unmapped (leaf (k_mem s) tbl) va (Z.to_nat npages)) ->
  wp (uvmunmap root va npages true)
    (fun _ s' => unmap_post root tbl va (Z.to_nat npages) s l s') s.
Proof.
  intros Hinv Hal Hva Hn HM Hown Hnd. pose proof mapva_small.
  unfold uvmunmap. rewrite Hal. cbn [negb Z.eqb]. assert (PGSIZE = 4096) as HPG by done.
  rewrite u64_small by lia. apply uvmunmap_loop; try done; rewrite ?Z2Nat.id by done; try done. lia.
Qed.

(** ** Claims *)

(** C21: [mappages] maps a range of virtual pages to consecutive frames.  On
    return 0 every page that overlaps [va, va+size) is mapped to its frame
    with the permissions given; on return -1 only some of the first ones are
    and no free page was left for a table.  All other pages are mapped as
    before, tables are taken from the free list only, and memory outside the
    tables is untouched. *)
Theorem mappages_maps s l root tbl va size pa perm :
  vm_inv s l root tbl -> 0 <= va -> 1 <= size -> va + size <= MAXVA ->
  pa mod PGSIZE = 0 -> 0 <= pa -> pa + size + 2 * PGSIZE <= 2 ^ 56 -> 0 <= perm < 1024 ->
  let a := PGROUNDDOWN va in
  let n := (PGROUNDDOWN (va + size - 1) - a) / PGSIZE in
  (forall v, a <= v < a + (n + 1) * PGSIZE -> valid (leaf (k_mem s) tbl v) = false) ->
  wp (mappages root va size pa perm) (fun r s' => exists l' tbl' k,
    evolve root s l tbl s' l' tbl' /\
    (r = 0 /\ k = n + 1 \/ r = -1 /\ 0 <= k <= n /\ l' = []) /\
    forall v, 0 <= v < 2 ^ 64 ->
      leaf (k_mem s') tbl' v = with_pages (leaf (k_mem s) tbl) a k pa perm v) s.
Proof. apply mappages_wp. Qed.

(** [uvmunmap] with [do_free] removes exactly the pages asked for and
    gives their frames, and only them, back to the allocator; every other
    page stays mapped as it was. *)
Theorem uvmunmap_unmaps s l root tbl va npages :
  vm_inv s l root tbl -> va mod PGSIZE = 0 -> 0 <= va -> 0 <= npages ->
  va + npages * PGSIZE <= MAXVA ->
  (forall i, 0 <= i < npages -> owned (k_mem s) tbl l (va + i * PGSIZE)) ->
  NoDup (unmapped (leaf (k_mem s) tbl) va (Z.to_nat npages)) ->
  wp (uvmunmap root va npages true)
    (fun _ s' => unmap_post root tbl va (Z.to_nat npages) s l s') s.
Proof. apply uvmunmap_wp. Qed.

End pagetable.

(** ** Witnesses: an empty address space and six free pages *)

Definition demo_root : Z := 0x80034000.
Definition demo_tbl : gmap (nat * Z) Z := {[ (2%nat, 0) := demo_root ]}.
Definition demo_pages : list Z := [0x80035000; 0x80036000; 0x80037000; 0x80038000; 0x8003a000; 0x8003b000].
Definition demo_vm_kst : kst :=
  let m := st64 ∅ 0x80035000 0x80036000 in
  let m := st64 m 0x80036000 0x80037000 in
  let m := st64 m 0x80037000 0x80038000 in
  let m := st64 m 0x80038000 0x8003a000 in
  let m := st64 m 0x8003a000 0x8003b000 in
  demo_kst m 0x80035000 0.

Lemma demo_tbl_zero i : 0 <= i < 512 -> ld64 (k_mem demo_vm_kst) (pte_at demo_root i) = 0.
Proof.
  intros Hi. simpl. unfold demo_root, pte_at.
  rewrite !ld_st_disj by lia. apply ld_zero. intros b _. reflexivity.
Qed.

Lemma demo_vm_inv : vm_inv (im := demo_image) demo_vm_kst demo_pages demo_root demo_tbl.
Proof.
  split.
  - split; [apply demo_hart_ok|done|vm_compute; auto 12| |repeat constructor; by vm_compute].
    apply (bool_decide_unpack _). vm_compute. exact I.
  - unfold demo_tbl. split.
    + reflexivity.
    + intros x t [<- <-]%lookup_singleton_Some. by vm_compute.
    + intros x y t [<- _]%lookup_singleton_Some [<- _]%lookup_singleton_Some. done.
    + intros l k t i [[= <- <-] <-]%lookup_singleton_Some Hi.
      rewrite lookup_singleton_ne by congruence. by rewrite demo_tbl_zero.
    + intros l k Hl [t [[= <- _] _]%lookup_singleton_Some]. lia.
  - unfold demo_tbl. intros x t [_ <-]%lookup_singleton_Some. apply (bool_decide_unpack _). vm_compute. exact I.
Qed.

Lemma demo_leaf va : 0 <= va < 2 ^ 64 -> leaf (k_mem demo_vm_kst) demo_tbl va = 0.
Proof. intros Hva. unfold leaf, leaf_at, demo_tbl. by rewrite lookup_singleton_ne. Qed.

Lemma mappages_maps_witness :
  wp (mappages (im := demo_image) demo_root 0x1000 4096 0x80040000 PTE_WRXU) (fun r s' =>
    exists l' tbl' k, evolve (im := demo_image) demo_root demo_vm_kst demo_pages demo_tbl s' l' tbl' /\
    (r = 0 /\ k = 1 \/ r = -1 /\ 0 <= k <= 0 /\ l' = []) /\
    forall v, 0 <= v < 2 ^ 64 -> leaf (k_mem s') tbl' v =
      with_pages (leaf (k_mem demo_vm_kst) demo_tbl) 0x1000 k 0x80040000 PTE_WRXU v) demo_vm_kst.
Proof.
  assert (PGROUNDDOWN 0x1000 = 0x1000) as Ha by reflexivity.
  assert ((PGROUNDDOWN (0x1000 + 4096 - 1) - PGROUNDDOWN 0x1000) / PGSIZE = 0) as Hn by reflexivity.
  eapply wp_conseq.
  - apply (mappages_maps (im := demo_image) (ImageOk0 := demo_image_ok) demo_vm_kst demo_pages
      demo_root demo_tbl 0x1000 4096 0x80040000 PTE_WRXU).
    + exact demo_vm_inv.
    + lia.
    + lia.
    + by vm_compute.
    + reflexivity.
    + lia.
    + by vm_compute.
    + by vm_compute.
    + intros v Hv. rewrite Hn, Ha in Hv. rewrite demo_leaf; [done|]. unfold PGSIZE in Hv. lia.
  - intros r s' H. rewrite Hn, Ha in H. exact H.
Defined.

(** The demonstration space with page 0x1000 mapped. *)
Lemma demo_mapped :
  exists s1 l1 tbl1,
    evolve (im := demo_image) demo_root demo_vm_kst demo_pages demo_tbl s1 l1 tbl1 /\
    forall v, 0 <= v < 2 ^ 64 -> leaf (k_mem s1) tbl1 v =
      if decide (0x1000 <= v < 0x2000) then mkpte 0x80040000 PTE_WRXU else 0.
Proof.
  assert (PGROUNDDOWN 0x1000 = 0x1000) as Ha by reflexivity.
  assert ((PGROUNDDOWN (0x1000 + 4096 - 1) - PGROUNDDOWN 0x1000) / PGSIZE = 0) as Hn by reflexivity.
  destruct (wp_inv (mappages (im := demo_image) demo_root 0x1000 4096 0x80040000 PTE_WRXU) _ demo_vm_kst
    (mappages_wp (im := demo_image) (ImageOk0 := demo_image_ok) demo_vm_kst demo_pages demo_root
      demo_tbl 0x1000 4096 0x80040000 PTE_WRXU demo_vm_inv ltac:(lia) ltac:(lia) ltac:(by vm_compute)
      eq_refl ltac:(lia) ltac:(by vm_compute) ltac:(by vm_compute)
      ltac:(intros v Hv; rewrite Hn, Ha in Hv; rewrite demo_leaf; [done|unfold PGSIZE in Hv; lia])))
    as (r & s1 & E & l1 & tbl1 & k & He & Hr & Hl).
  assert (match mappages (im := demo_image) demo_root 0x1000 4096 0x80040000 PTE_WRXU demo_vm_kst with
          | Ret r _ => r | Err _ _ => -1 end = 0) as Hr0 by (vm_compute; reflexivity).
  rewrite E in Hr0. subst r. rewrite Hn in Hr. assert (k = 1) as -> by lia.
  exists s1, l1, tbl1. split; [done|]. intros v Hv. rewrite Hl, Ha by done.
  unfold with_pages, PGSIZE. change (0x1000 + 1 * 4096) with 0x2000. case_decide as Hd.
  - replace (vpn v * 4096 - 0x1000) with 0; [done|]. unfold vpn, PGSIZE.
    pose proof (Z.div_mod v 4096 ltac:(lia)). pose proof (Z.mod_pos_bound v 4096 ltac:(lia)). lia.
  - by apply demo_leaf.
Qed.

(** The frame it is mapped to is neither free nor a table. *)
Lemma demo_frame s1 l1 tbl1 :
  evolve (im := demo_image) demo_root demo_vm_kst demo_pages demo_tbl s1 l1 tbl1 ->
  (0x80040000 ∉ l1) /\ forall x, tbl1 !! x <> Some 0x80040000.
Proof.
  intros [_ _ (used & Hu & Ht & _) _ _].
  assert (0x80040000 ∉ demo_pages) as Hn by (apply (bool_decide_unpack _); vm_compute; exact I).
  split.
  - intros H. apply Hn. rewrite Hu. apply elem_of_app. by right.
  - intros x Hx. destruct (Ht _ _ Hx) as [Hr|Hin].
    + unfold demo_tbl in Hr. by apply lookup_singleton_Some in Hr as [_ ?].
    + apply Hn. rewrite Hu. apply elem_of_app. by left.
Qed.

Lemma uvmunmap_unmaps_witness :
  exists s1 l1 tbl1, leaf (k_mem s1) tbl1 0x1000 = mkpte 0x80040000 PTE_WRXU /\
  wp (uvmunmap (im := demo_image) demo_root 0x1000 1 true)
    (fun _ s' => vm_inv (im := demo_image) s' (0x80040000 :: l1) demo_root tbl1 /\
       leaf (k_mem s') tbl1 0x1000 = 0) s1.
Proof.
  destruct demo_mapped as (s1 & l1 & tbl1 & He & Hl). exists s1, l1, tbl1.
  destruct (demo_frame s1 l1 tbl1 He) as [Hf Ht].
  assert (leaf (k_mem s1) tbl1 0x1000 = mkpte 0x80040000 PTE_WRXU) as El by (by rewrite Hl).
  assert (PTE2PA (mkpte 0x80040000 PTE_WRXU) = 0x80040000) as Ep by reflexivity.
  split; [done|]. eapply wp_conseq.
  - apply (uvmunmap_unmaps (im := demo_image) (ImageOk0 := demo_image_ok) s1 l1 demo_root tbl1 0x1000 1).
    + apply He.
    + reflexivity.
    + lia.
    + lia.
    + by vm_compute.
    + intros i Hi. assert (i = 0) as -> by lia. change (0x1000 + 0 * PGSIZE) with 0x1000.
      split; rewrite El, ?Ep; try done; by vm_compute.
    + cbn. constructor; [by intros ?%elem_of_nil|constructor].
  - intros u s' [U1 U2 _ _]. cbn [unmapped Z.to_nat Pos.to_nat Pos.iter_op] in U1.
    change (unmapped (leaf (k_mem s1) tbl1) 4096 (Z.to_nat 1))
      with [PTE2PA (leaf (k_mem s1) tbl1 0x1000)] in U1. rewrite El, Ep in U1.
    split; [exact U1|]. rewrite U2 by lia. reflexivity.
Defined.
