(* ===== verification/UvmGrow.v ===== *)
(** * Growing and copying address spaces ([uvmalloc] and [uvmcopy] of [kernel/vm.c])

    Both add pages one after the other and undo all of them when memory runs
    out.  [grow] is the state after some pages: their frames came from the free
    list, every other page taken from it became a page table, and nothing else
    changed.  Undoing gives the frames back. *)
From stdpp Require Import base gmap strings numbers option list.
From S2P Require Import Prelude Layout Machine Memory Kernel Demo Kalloc Vm PageTable.
Open Scope Z_scope.

(** The address space [f] with the frames [pg] (and their flags) mapped from
    [a0] on. *)
Definition with_frames (f : Z -> Z) (a0 : Z) (pg : list (Z * Z)) (va : Z) : Z :=
  if decide (a0 <= va) then
    match pg !! Z.to_nat (vpn va - vpn a0) with Some (fr, fl) => mkpte fr fl | None => f va end
  else f va.

Definition in_page (p b : Z) : Prop := p <= b < p + PGSIZE.

Section uvmgrow.
Context `{im : Image} `{!ImageOk im}.

Lemma with_frames_snoc f a0 pg c fl va :
  a0 mod PGSIZE = 0 ->
  with_frames f a0 (pg ++ [(c, fl)]) va =
    if decide (vpn va = vpn a0 + Z.of_nat (length pg)) then mkpte c fl else with_frames f a0 pg va.
Proof.
  intros Ha. unfold with_frames. pose proof (vpn_eq_range a0 va Ha) as Hv. unfold vpn, PGSIZE in *.
  pose proof (Z.div_mod va 4096 ltac:(lia)). pose proof (Z.div_mod a0 4096 ltac:(lia)).
  pose proof (Z.mod_pos_bound va 4096 ltac:(lia)).
  destruct (decide (a0 <= va)) as [Hle|Hgt]; [|rewrite decide_False by lia; done].
  case_decide as He.
  - rewrite lookup_app_r by lia. by replace (_ - _)%nat with 0%nat by lia.
  - destruct (decide (Z.to_nat (va / 4096 - a0 / 4096) < length pg)%nat) as [Hl|Hl].
    + by rewrite lookup_app_l.
    + rewrite !lookup_ge_None_2; [done|lia|]. rewrite length_app. simpl. lia.
Qed.

Lemma vpn_next a0 n va : a0 mod PGSIZE = 0 -> let a := a0 + n * PGSIZE in
  a mod PGSIZE = 0 /\ vpn a = vpn a0 + n /\ (vpn va = vpn a0 + n <-> a <= va < a + PGSIZE).
Proof.
  intros Ha a. assert (Hm : a mod PGSIZE = 0) by (unfold a; by rewrite Z_mod_plus_full).
  assert (Hv : vpn a = vpn a0 + n) by (unfold a, vpn; by rewrite Z_div_plus_full by done).
  split; [done|]. split; [done|]. rewrite <- Hv. by apply vpn_eq_range.
Qed.

Lemma with_frames_out f a0 pg va :
  a0 mod PGSIZE = 0 -> va < a0 \/ a0 + Z.of_nat (length pg) * PGSIZE <= va -> with_frames f a0 pg va = f va.
Proof.
  intros Ha Hv. unfold with_frames. case_decide; [|done]. rewrite lookup_ge_None_2; [done|].
  unfold vpn, PGSIZE in *. pose proof (Z.div_mod va 4096 ltac:(lia)). pose proof (Z.div_mod a0 4096 ltac:(lia)).
  pose proof (Z.mod_pos_bound va 4096 ltac:(lia)). lia.
Qed.

(** [mappages] of one page. *)
Lemma one_page a : a mod PGSIZE = 0 -> PGROUNDDOWN a = a /\ PGROUNDDOWN (a + PGSIZE - 1) = a.
Proof.
  intros Ha. rewrite !PGROUNDDOWN_mod, Ha. split; [lia|]. apply Z.mod_divide in Ha as [q ->]; [|done].
  unfold PGSIZE. replace (q * 4096 + 4096 - 1) with (4095 + q * 4096) by lia. rewrite Z_mod_plus_full. change (4095 mod 4096) with 4095. lia.
Qed.

Lemma map_one_page s l root tbl a c fl :
  vm_inv s l root tbl -> a mod PGSIZE = 0 -> 0 <= a -> a + PGSIZE <= MAXVA -> page_ok c -> 0 <= fl < 1024 ->
  (forall v, a <= v < a + PGSIZE -> valid (leaf (k_mem s) tbl v) = false) ->
  wp (mappages root a PGSIZE c fl) (fun r s' => exists l' tbl', evolve root s l tbl s' l' tbl' /\
    (r = 0 /\ (forall v, 0 <= v < 2 ^ 64 -> leaf (k_mem s') tbl' v = if decide (vpn v = vpn a) then mkpte c fl else leaf (k_mem s) tbl v) \/
     r = -1 /\ l' = [] /\ forall v, 0 <= v < 2 ^ 64 -> leaf (k_mem s') tbl' v = leaf (k_mem s) tbl v)) s.
Proof.
  intros Hinv Ha H0 HM Hc Hfl Hnv. destruct (one_page a Ha) as [Hd Hd'].
  assert (Hcr : 0 <= c /\ c + PGSIZE + 2 * PGSIZE <= 2 ^ 56).
  { destruct Hc as [_ [K1 K2]]. pose proof im_base. unfold PHYSTOP, KERNBASE, PGSIZE in *. lia. }
  eapply wp_conseq.
  { apply (mappages_wp s l root tbl a PGSIZE c fl Hinv); try done; try lia; [apply Hc|].
    rewrite Hd, Hd', Z.sub_diag. intros v Hv. apply Hnv. change (0 / PGSIZE) with 0 in Hv. lia. }
  cbv zeta. rewrite Hd, Hd', Z.sub_diag. change (0 / PGSIZE) with 0.
  intros r s3 (l3 & t3 & k & He & Hr & Hl3). exists l3, t3. split; [done|]. destruct Hr as [[-> ->]|(-> & Hk & Hl)].
  - left. split; [done|]. intros v Hv. rewrite Hl3 by done. unfold with_pages. pose proof (vpn_eq_range a v Ha) as Hp.
    rewrite Z.mul_1_l. case_decide as E1; case_decide as E2; try done; try lia. f_equal.
    apply Z.mod_divide in Ha as [q ->]; [|done]. rewrite E2. unfold vpn. rewrite Z.div_mul by done. lia.
  - right. split; [done|]. split; [done|]. intros v Hv. rewrite Hl3 by done. assert (k = 0) as -> by lia. apply with_pages_0.
Qed.

(** Writing to a page that is neither free nor a table. *)
Lemma vm_inv_page s l root tbl c m' :
  vm_inv s l root tbl -> page_ok c -> (c ∉ l) -> (forall x, tbl !! x <> Some c) ->
  (forall b, ~ in_page c b -> rd m' b = rd (k_mem s) b) ->
  vm_inv (set_mem m' s) l root tbl /\ forall va, 0 <= va < 2 ^ 64 -> leaf m' tbl va = leaf (k_mem s) tbl va.
Proof.
  intros [Hk Hpt Hf] Hc Hcl Hct Hm.
  assert (Hs : pt_same (fun _ _ => False) (k_mem s) m' tbl).
  { apply pt_same_frame; [apply Hpt|]. intros x t b Hx Hb. apply Hm. unfold in_page.
    assert (t <> c) as Hne by (intros ->; by eapply Hct).
    destruct (pw_page _ _ _ Hpt x t Hx) as [Ka _], Hc as [Kb _]. destruct (page_apart t c Ka Kb Hne); lia. }
  split; [|intros va Hva; by apply leaf_same]. split; [|by eapply pt_wf_same|done].
  destruct Hk as [K1 K2 K3 K4 K5]. split; [done|done| |done|done].
  eapply run_list_same; [|exact K3]. intros a b Ha Hb. apply Hm. unfold in_page.
  assert (a <> c) as Hx by (by intros ->). rewrite Forall_forall in K5. destruct (K5 a Ha) as [Ka _], Hc as [Kc _].
  destruct (page_apart a c Ka Kc Hx); unfold PGSIZE in *; lia.
Qed.

(** A page that is not in use does not become a table. *)
Lemma evolve_off root s1 l1 t1 s2 l2 t2 p :
  evolve root s1 l1 t1 s2 l2 t2 -> (p ∉ l1) -> (forall x, t1 !! x <> Some p) -> forall x, t2 !! x <> Some p.
Proof.
  intros [_ _ (used & Hl & Hu & _) _ _] Hp Ht x Hx. destruct (Hu x p Hx) as [H|H]; [by eapply Ht|].
  apply Hp. rewrite Hl. apply elem_of_app. by left.
Qed.

Lemma page_off m root t p b :
  pt_wf m root t -> page_ok p -> (forall x, t !! x <> Some p) -> in_page p b ->
  forall x t', t !! x = Some t' -> ~ (t' <= b < t' + PGSIZE).
Proof.
  intros Hwf [Kp _] Ht Hb x t' Hx. assert (t' <> p) as Hne by (intros ->; by eapply Ht).
  destruct (pw_page _ _ _ Hwf x t' Hx) as [Kt _]. unfold in_page in Hb. destruct (page_apart t' p Kt Kp Hne); lia.
Qed.

Lemma page_ne p q b : page_ok p -> page_ok q -> p <> q -> in_page p b -> ~ in_page q b.
Proof. intros [Kp _] [Kq _] Hne. unfold in_page. destruct (page_apart p q Kp Kq Hne); lia. Qed.

Section grow.
Variables (root a0 : Z) (s : kst) (l : list Z) (tbl : gmap (nat * Z) Z) (cont : nat -> Z -> Z).

Record grow (pg : list (Z * Z)) (s' : kst) (l' : list Z) (tbl' : gmap (nat * Z) Z) : Prop := {
  gr_inv : vm_inv s' l' root tbl';
  gr_used : exists used, l ≡ₚ used ++ map fst pg ++ l' /\
    (forall x t, tbl' !! x = Some t -> tbl !! x = Some t \/ t ∈ used) /\
    (forall t, t ∈ used -> exists x, tbl' !! x = Some t);
  gr_leaf : forall va, 0 <= va < 2 ^ 64 -> leaf (k_mem s') tbl' va = with_frames (leaf (k_mem s) tbl) a0 pg va;
  gr_cont : forall i f fl j, pg !! i = Some (f, fl) -> 0 <= j < PGSIZE -> rd (k_mem s') (f + j) = cont i j;
  gr_frame : forall b, (forall c, c ∈ l -> ~ in_page c b) -> (forall x t, tbl !! x = Some t -> ~ in_page t b) ->
    rd (k_mem s') b = rd (k_mem s) b;
  gr_sub : tbl ⊆ tbl';
  gr_others : others s' = others s
}.

Hypothesis Hinv : vm_inv s l root tbl.
Hypothesis Ha0 : a0 mod PGSIZE = 0 /\ 0 <= a0.

Lemma grow_nil : grow [] s l tbl.
Proof.
  split; try done.
  - exists []. split; [done|]. split; [by left|by intros ? ?%elem_of_nil].
  - intros va Hva. unfold with_frames. by destruct (decide (a0 <= va)).
Qed.

(** Running out of pages changes nothing. *)
Lemma grow_kalloc_nil pg s' tbl' : grow pg s' [] tbl' -> grow pg (kalloc_post [] s') [] tbl'.
Proof.
  intros [[K P F] H2 H3 H4 H5 H6 H7]. split; try done. split; [by apply kalloc_inv_nil|done|done].
Qed.

(** The pages of [l] are apart and are no tables. *)
Lemma grow_apart pg s' l' tbl' c :
  grow pg s' l' tbl' -> c ∈ map fst pg \/ c ∈ l' ->
  page_ok c /\ forall x, tbl' !! x <> Some c.
Proof.
  intros [_ (used & Hp & Hu & _) _ _ _ _ _] Hc. destruct Hinv as [[_ _ _ K4 K5] _ Hf].
  assert (Hcl : c ∈ l) by (rewrite Hp, !elem_of_app; tauto).
  split; [rewrite Forall_forall in K5; by apply K5|]. intros x Hx.
  destruct (Hu x c Hx) as [H|H]; [by eapply Hf|].
  rewrite Hp in K4. apply NoDup_app in K4 as (_ & Hd & _). apply (Hd c H). rewrite elem_of_app. tauto.
Qed.

Lemma grow_nodup pg s' l' tbl' : grow pg s' l' tbl' -> NoDup (map fst pg ++ l').
Proof.
  intros [_ (used & Hp & _) _ _ _ _ _]. destruct Hinv as [[_ _ _ K4 K5] _ Hf]. rewrite Hp in K4.
  by apply NoDup_app in K4 as (_ & _ & K4).
Qed.

(** A page [c] was taken and filled, giving [m2], and tables were added. *)
Section step.
Variables (pg : list (Z * Z)) (s1 : kst) (c : Z) (l1 : list Z) (t1 : gmap (nat * Z) Z) (m2 : mem).
Variables (s2 s3 : kst) (l3 : list Z) (t3 : gmap (nat * Z) Z).
Hypothesis Hg : grow pg s1 (c :: l1) t1.
Hypothesis Hm2 : forall b, ~ in_page c b -> rd (k_mem s2) b = rd (k_mem s1) b.
Hypothesis Hot : others s2 = others s1.
Hypothesis He : evolve root s2 l1 t1 s3 l3 t3.

Lemma step_used : exists used, l ≡ₚ used ++ map fst pg ++ c :: l3 /\
  (forall x t, t3 !! x = Some t -> tbl !! x = Some t \/ t ∈ used) /\
  (forall t, t ∈ used -> exists x, t3 !! x = Some t).
Proof.
  destruct (gr_used _ _ _ _ Hg) as (u1 & Hp & H1 & H2). destruct He as [_ Hsub (u2 & Hl & H3 & H4) _ _].
  exists (u1 ++ u2). split; [|split].
  - rewrite Hp, Hl. solve_Permutation.
  - intros x t Ht. destruct (H3 x t Ht) as [H|H]; [destruct (H1 x t H)|]; rewrite elem_of_app; tauto.
  - intros t [Ht|Ht]%elem_of_app; [|by apply H4]. destruct (H2 t Ht) as [x Hx]. exists x. by eapply lookup_weaken.
Qed.

Lemma step_off p : p ∈ map fst pg \/ p = c -> page_ok p /\ (forall x, t3 !! x <> Some p) /\ (p ∉ l1).
Proof.
  intros Hp. pose proof (grow_nodup _ _ _ _ Hg) as Hnd.
  assert (Hpl : p ∉ l1).
  { apply NoDup_app in Hnd as (_ & Hd & [Hc _]%NoDup_cons). destruct Hp as [Hp| ->]; [|done].
    intros Hin. apply (Hd p Hp). by apply list_elem_of_further. }
  destruct (grow_apart _ _ _ _ p Hg ltac:(rewrite elem_of_cons; tauto)) as [Kp Ht].
  split; [done|]. split; [|done]. by eapply evolve_off.
Qed.

(** What the pages hold afterwards. *)
Lemma step_page p b : p ∈ map fst pg \/ p = c -> in_page p b -> rd (k_mem s3) b = rd (k_mem s2) b.
Proof.
  intros Hp Hb. destruct (step_off p Hp) as (Kp & Ht & _). apply (ev_frame _ _ _ _ _ _ _ He).
  eapply page_off; [apply (ev_inv _ _ _ _ _ _ _ He)|done|done|done].
Qed.

Lemma step_cont i f fl j : pg !! i = Some (f, fl) -> 0 <= j < PGSIZE -> rd (k_mem s3) (f + j) = cont i j /\ ~ in_page c (f + j).
Proof.
  intros Hi Hj. assert (Hf : f ∈ map fst pg) by (apply list_elem_of_fmap; exists (f, fl); split; [done|by eapply list_elem_of_lookup_2]).
  assert (Hb : in_page f (f + j)) by (unfold in_page; lia).
  assert (Hn : ~ in_page c (f + j)).
  { eapply page_ne; [..|exact Hb]; [by apply step_off; left|by apply step_off; right|].
    intros ->. pose proof (grow_nodup _ _ _ _ Hg) as Hnd. apply NoDup_app in Hnd as (_ & Hd & _).
    apply (Hd c Hf). apply list_elem_of_here. }
  split; [|done]. rewrite (step_page f) by tauto. rewrite Hm2 by done. by eapply (gr_cont _ _ _ _ Hg).
Qed.

Lemma step_frame b : (forall d, d ∈ l -> ~ in_page d b) -> (forall x t, tbl !! x = Some t -> ~ in_page t b) ->
  rd (k_mem s3) b = rd (k_mem s) b.
Proof.
  intros Hl Ht. destruct step_used as (used & Hp & Hu & _). rewrite (ev_frame _ _ _ _ _ _ _ He).
  - rewrite Hm2; [by apply (gr_frame _ _ _ _ Hg)|]. apply Hl. rewrite Hp, !elem_of_app. right. right. apply list_elem_of_here.
  - intros x t Hx. destruct (Hu x t Hx) as [H|H]; [by eapply Ht|]. apply Hl. rewrite Hp, !elem_of_app. by left.
Qed.

Lemma step_others : others s3 = others s.
Proof. rewrite (ev_others _ _ _ _ _ _ _ He), Hot. apply (gr_others _ _ _ _ Hg). Qed.

Lemma step_sub : tbl ⊆ t3.
Proof. etrans; [apply (gr_sub _ _ _ _ Hg)|apply (ev_sub _ _ _ _ _ _ _ He)]. Qed.

Lemma step_mapped fl :
  (forall j, 0 <= j < PGSIZE -> rd (k_mem s2) (c + j) = cont (length pg) j) ->
  (forall va, 0 <= va < 2 ^ 64 -> leaf (k_mem s3) t3 va =
     if decide (vpn va = vpn a0 + Z.of_nat (length pg)) then mkpte c fl else leaf (k_mem s1) t1 va) ->
  grow (pg ++ [(c, fl)]) s3 l3 t3.
Proof.
  intros Hcont Hleaf. split.
  - apply He.
  - destruct step_used as (used & Hp & Hu). exists used. split; [|done]. rewrite Hp, map_app. simpl. solve_Permutation.
  - intros va Hva. rewrite Hleaf, with_frames_snoc by (done || apply Ha0). case_decide; [done|]. by apply (gr_leaf _ _ _ _ Hg).
  - intros i f fl' j Hi Hj. apply lookup_app_Some in Hi as [Hi|[Hl Hi]]; [by eapply step_cont|].
    apply list_lookup_singleton_Some in Hi as [Hi [= <- <-]]. replace i with (length pg) by lia.
    rewrite (step_page c) by (try tauto; unfold in_page; lia). by apply Hcont.
  - apply step_frame.
  - apply step_sub.
  - apply step_others.
Qed.

Lemma step_back :
  l3 = [] -> (forall va, 0 <= va < 2 ^ 64 -> leaf (k_mem s3) t3 va = leaf (k_mem s1) t1 va) ->
  kmem_inv s3 [] /\ grow pg (kfree_post c s3) [c] t3.
Proof.
  intros Hl3 Hleaf. pose proof (ev_inv _ _ _ _ _ _ _ He) as Hi3. destruct step_used as (used & Hp & Hu).
  rewrite Hl3 in Hi3, Hp. split; [apply Hi3|].
  destruct (step_off c (or_intror eq_refl)) as (Kc & Ht & _).
  destruct (kfree_vm s3 [] root t3 c Hi3 Kc (not_elem_of_nil c) Ht) as [Hi4 Hl4].
  assert (Hcl : c ∈ l) by (rewrite Hp, !elem_of_app; right; right; apply list_elem_of_here).
  split.
  - done.
  - by exists used.
  - intros va Hva. rewrite Hl4, Hleaf by done. by apply (gr_leaf _ _ _ _ Hg).
  - intros i f fl j Hi Hj. destruct (step_cont i f fl j Hi Hj) as [<- Hn]. by apply kfree_frame.
  - intros b Hb Hb'. rewrite kfree_frame by (by apply Hb). by apply step_frame.
  - apply step_sub.
  - apply step_others.
Qed.
End step.

(** The next page, filled and mapped: it is added, or no page was left for a
    table and giving it back restores what was before. *)
Lemma grow_map pg s1 c l1 t1 a fl m2 :
  grow pg s1 (c :: l1) t1 -> a = a0 + Z.of_nat (length pg) * PGSIZE -> a + PGSIZE <= MAXVA -> 0 <= fl < 1024 ->
  (forall v, a <= v < a + PGSIZE -> valid (leaf (k_mem s) tbl v) = false) ->
  (forall b, ~ in_page c b -> rd m2 b = rd (k_mem s1) b) ->
  (forall j, 0 <= j < PGSIZE -> rd m2 (c + j) = cont (length pg) j) ->
  wp (mappages root a PGSIZE c fl) (fun r s3 =>
    (r = 0 /\ exists l3 t3, grow (pg ++ [(c, fl)]) s3 l3 t3) \/
    (r = -1 /\ kmem_inv s3 [] /\ exists t3, grow pg (kfree_post c s3) [c] t3))
    (set_mem m2 (kalloc_post (c :: l1) s1)).
Proof.
  intros Hg Ha HM Hfl Hnv Hm2 Hcont. destruct Ha0 as [Hal Hpos]. pose proof mapva_small as Hmv.
  destruct (grow_apart _ _ _ _ c Hg ltac:(right; apply list_elem_of_here)) as [Hcp Hct].
  pose proof Hg as [G1 G2 G3 G4 G5 G6 G7].
  destruct (kalloc_grown root s1 c l1 t1 G1) as (Hinv1 & Hs1 & _ & Hcl & _).
  set (s2 := set_mem m2 (kalloc_post (c :: l1) s1)).
  destruct (vm_inv_page (kalloc_post (c :: l1) s1) l1 root t1 c m2 Hinv1 Hcp Hcl Hct) as [Hinv2 Hleaf2].
  { intros b Hb. rewrite Hm2 by done. symmetry. by apply kalloc_frame. }
  assert (Hl12 : forall va, 0 <= va < 2 ^ 64 -> leaf (k_mem s2) t1 va = leaf (k_mem s1) t1 va).
  { intros va Hva. rewrite Hleaf2 by done. by apply leaf_same. }
  destruct (vpn_next a0 (Z.of_nat (length pg)) a Hal) as (Hn & Hv & _). rewrite <- Ha in Hn, Hv.
  assert (Ha1 : 0 <= a) by (unfold PGSIZE in *; lia).
  assert (Hm2' : forall b, ~ in_page c b -> rd (k_mem s2) b = rd (k_mem s1) b) by done.
  eapply wp_conseq; [apply (map_one_page s2 l1 root t1 a c fl Hinv2 Hn); try done|].
  { intros v Hv'. rewrite Hl12, G3 by lia. rewrite with_frames_out by (done || lia). by apply Hnv. }
  intros r s3 (l3 & t3 & He & [[-> Hl]|(-> & Hl3 & Hl)]).
  - left. split; [done|]. exists l3, t3. apply (step_mapped pg s1 c l1 t1 s2 s3 l3 t3 Hg Hm2' eq_refl He fl Hcont).
    intros va Hva. rewrite Hl, Hv by done. case_decide; [done|]. by apply Hl12.
  - right. split; [done|]. destruct (step_back pg s1 c l1 t1 s2 s3 l3 t3 Hg Hm2' eq_refl He Hl3) as [K1 K2]; [|split; [done|by exists t3]].
    intros va Hva. rewrite Hl by done. by apply Hl12.
Qed.

(** All added pages gone again: [n] pages from [a0] on are unmapped, the rest
    of the address space is as it was, and the pages that are still missing
    from the free list, now [l'], are page tables. *)
Definition restored (n : nat) (l' : list Z) (s' : kst) : Prop :=
  exists tbl' used, vm_inv s' l' root tbl' /\ tbl ⊆ tbl' /\ l ≡ₚ used ++ l' /\
  (forall x t, tbl' !! x = Some t -> tbl !! x = Some t \/ t ∈ used) /\
  (forall t, t ∈ used -> exists x, tbl' !! x = Some t) /\
  (forall va, 0 <= va < 2 ^ 64 -> leaf (k_mem s') tbl' va =
     if decide (a0 <= va < a0 + Z.of_nat n * PGSIZE) then 0 else leaf (k_mem s) tbl va) /\
  (forall b, (forall c, c ∈ l -> ~ in_page c b) -> (forall x t, tbl !! x = Some t -> ~ in_page t b) ->
     rd (k_mem s') b = rd (k_mem s) b) /\
  others s' = others s.

(** Memory ran out while page [k] was to be added: the free list holds the [k]
    frames given back and at most one page more, the one that could not be
    mapped for want of a page table. *)
Definition ran_out (k : nat) (s' : kst) : Prop :=
  exists l', (length l' <= S k)%nat /\ restored k l' s'.

Definition flags_ok (x : Z * Z) : Prop := 0 <= x.2 < 1024 /\ Z.lor x.2 PTE_V <> PTE_V.

Lemma unmapped_frames f a (pg : list (Z * Z)) :
  (forall i x, pg !! i = Some x -> PTE2PA (f (a + Z.of_nat i * PGSIZE)) = x.1) ->
  unmapped f a (length pg) = rev (map fst pg).
Proof.
  induction pg as [|x pg IH] using rev_ind; intros H; [done|].
  rewrite length_app, map_app, rev_app_distr, Nat.add_1_r. cbn [unmapped map rev app].
  rewrite (H (length pg) x) by (rewrite lookup_app_r by lia; by rewrite Nat.sub_diag). f_equal. apply IH.
  intros i y Hi. apply H. by apply lookup_app_l_Some.
Qed.

Lemma grow_undo pg s1 l1 t1 :
  grow pg s1 l1 t1 -> Forall flags_ok pg -> a0 + Z.of_nat (length pg) * PGSIZE <= MAXVA ->
  wp (uvmunmap root a0 (Z.of_nat (length pg)) true) (fun _ s' =>
    exists l', length l' = (length pg + length l1)%nat /\ restored (length pg) l' s') s1.
Proof.
  intros Hg Hfl HM. destruct Ha0 as [Hal Hpos]. pose proof mapva_small as Hmv.
  pose proof Hg as [G1 G2 G3 G4 G5 G6 G7].
  assert (Hleaf : forall i f fl, pg !! i = Some (f, fl) -> leaf (k_mem s1) t1 (a0 + Z.of_nat i * PGSIZE) = mkpte f fl).
  { intros i f fl Hi. pose proof (lookup_lt_Some _ _ _ Hi). rewrite G3 by (unfold PGSIZE in *; lia).
    unfold with_frames. rewrite decide_True by (unfold PGSIZE in *; lia).
    destruct (vpn_next a0 (Z.of_nat i) 0 Hal) as (_ & -> & _).
    replace (Z.to_nat (vpn a0 + Z.of_nat i - vpn a0)) with i by lia. by rewrite Hi. }
  assert (Hspec : forall i f fl, pg !! i = Some (f, fl) -> page_ok f /\ (forall x, t1 !! x <> Some f) /\
    valid (mkpte f fl) = true /\ PTE2PA (mkpte f fl) = f /\ PTE_FLAGS (mkpte f fl) = Z.lor fl PTE_V /\ flags_ok (f, fl)).
  { intros i f fl Hi. assert (Hin := list_elem_of_lookup_2 _ _ _ Hi). rewrite Forall_forall in Hfl. pose proof (Hfl _ Hin) as Hf.
    destruct (grow_apart _ _ _ _ f Hg) as [Kf Ht]; [left; apply list_elem_of_fmap; by exists (f, fl)|].
    destruct (mkpte_spec f fl (page_pa_ok f Kf) (proj1 Hf)) as (? & ? & ? & _). done. }
  assert (Hun : unmapped (leaf (k_mem s1) t1) a0 (length pg) = rev (map fst pg)).
  { apply unmapped_frames. intros i [f fl] Hi. rewrite (Hleaf i f fl Hi). by apply (Hspec i f fl Hi). }
  pose proof (grow_nodup _ _ _ _ Hg) as Hnd.
  eapply wp_conseq; [apply (uvmunmap_wp s1 l1 root t1 a0 (Z.of_nat (length pg)) G1 Hal Hpos); try done; try lia|].
  - intros i Hi. destruct (lookup_lt_is_Some_2 pg (Z.to_nat i)) as [[f fl] Hif]; [lia|].
    destruct (Hspec _ _ _ Hif) as (Kf & Ht & E1 & E2 & E3 & [_ E4]). pose proof (Hleaf _ _ _ Hif) as E. rewrite Z2Nat.id in E by lia.
    split; rewrite E; rewrite ?E2, ?E3; try done.
    apply NoDup_app in Hnd as (_ & Hd & _). apply Hd. apply list_elem_of_fmap. exists (f, fl). split; [done|by eapply list_elem_of_lookup_2].
  - rewrite Nat2Z.id, Hun. apply NoDup_app in Hnd as (Hnd & _). by rewrite (Permutation_rev (map fst pg)) in Hnd.
  - rewrite Nat2Z.id. intros _ s' [U1 U2 U3 U4]. rewrite Hun in U1, U3. destruct G2 as (used & Hp & Hu1 & Hu2).
    exists (rev (map fst pg) ++ l1). split; [by rewrite length_app, length_rev, length_map|].
    exists t1, used. split; [done|]. split; [done|]. split; [by rewrite Hp, <- Permutation_rev|].
    split; [done|]. split; [done|]. split; [|split; [|congruence]].
    + intros va Hva. rewrite U2 by done. unfold without_pages. case_decide; [done|]. rewrite G3 by done. apply with_frames_out; [done|lia].
    + intros b Hb1 Hb2. rewrite U3; [by apply G5| |].
      * intros x t Hx. destruct (Hu1 x t Hx) as [H|H]; [by eapply Hb2|]. apply Hb1. rewrite Hp, elem_of_app. by left.
      * intros p Hin. apply Hb1. rewrite Hp, !elem_of_app. right. left. by apply list_elem_of_In, in_rev, list_elem_of_In.
Qed.

Lemma grow_restored s1 l1 t1 : grow [] s1 l1 t1 -> restored 0 l1 s1.
Proof.
  intros [G1 (used & Hp & Hu1 & Hu2) G3 _ G5 G6 G7]. exists t1, used. repeat (split; [done|]). split; [|done].
  intros va Hva. rewrite decide_False by lia. rewrite G3 by done. unfold with_frames. by destruct (decide (a0 <= va)).
Qed.

(** [uvmdealloc] of the pages added so far. *)
Lemma grow_dealloc pg s1 l1 t1 a :
  grow pg s1 l1 t1 -> Forall flags_ok pg -> a = a0 + Z.of_nat (length pg) * PGSIZE -> a <= MAXVA ->
  wp (uvmdealloc root a a0) (fun _ s' =>
    exists l', length l' = (length pg + length l1)%nat /\ restored (length pg) l' s') s1.
Proof.
  intros Hg Hfl Ha HM. destruct Ha0 as [Hal Hpos]. pose proof mapva_small as Hmv.
  destruct (vpn_next a0 (Z.of_nat (length pg)) 0 Hal) as (Hn & _ & _). rewrite <- Ha in Hn.
  assert (HMX : MAXVA = 67108864 * 4096) by done.
  assert (Hr : forall x, x mod PGSIZE = 0 -> 0 <= x <= MAXVA -> PGROUNDUP x = x).
  { intros x Hx Hx0. rewrite PGROUNDUP_mod by (unfold PGSIZE; lia).
    pose proof (proj2 (one_page x Hx)) as H. by rewrite PGROUNDDOWN_mod in H. }
  assert (Ha1 : 0 <= a0 <= a) by (unfold PGSIZE in *; lia).
  unfold uvmdealloc. rewrite (Hr a Hn), (Hr a0 Hal) by lia.
  destruct (Z.leb_spec a a0) as [Hle|Hlt].
  - apply wp_ret. assert (length pg = 0)%nat as E by (unfold PGSIZE in *; lia). apply nil_length_inv in E as ->.
    exists l1. split; [done|]. by apply (grow_restored s1 l1 t1).
  - rewrite (proj2 (Z.ltb_lt a0 a)) by done. apply wp_bind.
    replace ((a - a0) / PGSIZE) with (Z.of_nat (length pg))
      by (rewrite Ha; replace (_ - a0) with (Z.of_nat (length pg) * PGSIZE) by lia; by rewrite Z.div_mul).
    rewrite i32_small, u64_small by (unfold PGSIZE in *; lia).
    eapply wp_conseq; [apply (grow_undo pg s1 l1 t1 Hg Hfl); lia|]. intros ? s2 H. by apply wp_ret.
Qed.

End grow.

(** ** [uvmalloc] *)

Definition zeroed (fr : list Z) : list (Z * Z) := map (fun f => (f, PTE_WRXU)) fr.

Lemma zeroed_flags fr : Forall flags_ok (zeroed fr).
Proof. apply Forall_forall. intros x (f & -> & _)%list_elem_of_fmap. split; [by vm_compute|by vm_compute]. Qed.

Lemma uvmalloc_loop root a0 s l tbl newsz n : forall fuel fr s1 l1 t1 a,
  vm_inv s l root tbl -> a0 mod PGSIZE = 0 /\ 0 <= a0 -> a0 + n * PGSIZE <= MAXVA ->
  a0 + (n - 1) * PGSIZE < newsz <= a0 + n * PGSIZE ->
  (forall v, a0 <= v < a0 + n * PGSIZE -> valid (leaf (k_mem s) tbl v) = false) ->
  grow root a0 s l tbl (fun _ _ => 0) (zeroed fr) s1 l1 t1 ->
  a = a0 + Z.of_nat (length fr) * PGSIZE -> Z.of_nat (length fr) <= n -> n - Z.of_nat (length fr) < Z.of_nat fuel ->
  wp (loop fuel (fun a : Z =>
    if a <? newsz then
      m ← kalloc;
      if m =? 0 then (_ ← uvmdealloc root a a0; mret (inr 0)) else
      k_memset m 0 PGSIZE;;
      r ← mappages root a PGSIZE m PTE_WRXU;
      if negb (r =? 0) then
        kfree m;;
        _ ← uvmdealloc root a a0;
        mret (inr 0)
      else mret (inl (u64 (a + PGSIZE)))
    else mret (inr newsz)) a) (fun r s' =>
    (r = newsz /\ exists fr' l' t', Z.of_nat (length fr') = n /\ grow root a0 s l tbl (fun _ _ => 0) (zeroed fr') s' l' t') \/
    (r = 0 /\ exists k, Z.of_nat k < n /\ ran_out root a0 s l tbl k s')) s1.
Proof.
  induction fuel as [|fuel IH]; intros fr s1 l1 t1 a Hinv Ha0 HM Hn Hnv Hg Ha Hlen Hf; [lia|].
  pose proof mapva_small as Hmv. assert (HMX : MAXVA = 67108864 * 4096) by done. assert (HPG : PGSIZE = 4096) by done.
  assert (Hlz : forall fr, length (zeroed fr) = length fr) by (intros; apply length_map).
  cbn [loop]. apply wp_bind. destruct (Z.ltb_spec a newsz) as [Hlt|Hge].
  2:{ apply wp_ret, wp_ret. left. split; [done|]. exists fr, l1, t1. split; [rewrite HPG in *; lia|done]. }
  assert (Hlt' : Z.of_nat (length fr) < n) by (rewrite HPG in *; lia).
  pose proof (gr_inv _ _ _ _ _ _ _ _ _ _ Hg) as Hi1. pose proof Hi1 as [Hk1 _ _].
  apply wp_bind. eapply wp_kalloc; [done|]. destruct l1 as [|c l1]; cbn [hd].
  - apply wp_bind. eapply wp_conseq; [apply (grow_dealloc root a0 s l tbl (fun _ _ => 0) Hinv Ha0 (zeroed fr) _ [] t1 a); [by apply grow_kalloc_nil|apply zeroed_flags|by rewrite Hlz|rewrite HPG in *; lia]|].
    intros ? s2 (l2 & Hl2 & H). apply wp_ret, wp_ret. right. split; [done|]. exists (length fr). rewrite Hlz in H, Hl2.
    split; [lia|]. exists l2. split; [simpl in Hl2; lia|done].
  - destruct (kalloc_grown root s1 c l1 t1 Hi1) as (_ & _ & Hcp & _ & _). pose proof (page_pos c Hcp).
    rewrite (proj2 (Z.eqb_neq c 0)) by lia. apply wp_bind, wp_memset; [by apply page_ram|]. apply wp_bind.
    eapply wp_conseq; [apply (grow_map root a0 s l tbl (fun _ _ => 0) Hinv Ha0 (zeroed fr) s1 c l1 t1 a PTE_WRXU); try done|].
    + by rewrite Hlz.
    + rewrite HPG in *. lia.
    + intros v Hv. apply Hnv. rewrite HPG in *. lia.
    + intros b Hb. rewrite memset_rd by done. rewrite decide_False by done. by apply kalloc_frame.
    + intros j Hj. rewrite memset_rd by done. by rewrite decide_True by lia.
    + intros r s3 [[-> (l3 & t3 & Hg3)]|(-> & Hk3 & t3 & Hg3)]; cbn [negb Z.eqb].
      * apply wp_ret. rewrite u64_small by (rewrite HPG in *; lia).
        apply (IH (fr ++ [c]) s3 l3 t3); try done; rewrite ?length_app; simpl; [by unfold zeroed; rewrite map_app|rewrite HPG in *; lia|lia|lia].
      * apply wp_bind. eapply wp_kfree; [exact Hk3|done|]. apply wp_bind.
        eapply wp_conseq; [apply (grow_dealloc root a0 s l tbl (fun _ _ => 0) Hinv Ha0 (zeroed fr) _ [c] t3 a); [done|apply zeroed_flags|by rewrite Hlz|rewrite HPG in *; lia]|].
        intros ? s2 (l2 & Hl2 & H2). apply wp_ret, wp_ret. right. split; [done|]. exists (length fr). rewrite Hlz in H2, Hl2.
        split; [lia|]. exists l2. split; [simpl in Hl2; lia|done].
Qed.

(** C23: [uvmalloc] grows an address space or leaves it as it was.  From
    [oldsz] to [newsz] it maps new pages, all zero, writable and executable by
    the user, each to a frame of its own from the free list; every other page of
    the free list that it took became a page table.  It returns 0 only when
    memory runs out: after [k] of the pages, with every page it had mapped
    unmapped again and every frame back on the free list, so that only page
    tables are missing from it, and the list has just these [k] frames and at
    most one page more.  Neither way does memory change outside the pages that
    were free and the page tables. *)
Theorem uvmalloc_all_or_nothing s l root tbl oldsz newsz :
  vm_inv s l root tbl -> 0 <= oldsz <= newsz -> newsz + PGSIZE <= MAXVA ->
  let a0 := PGROUNDUP oldsz in
  let n := (newsz - a0 + PGSIZE - 1) / PGSIZE in
  (forall v, a0 <= v < a0 + n * PGSIZE -> valid (leaf (k_mem s) tbl v) = false) ->
  wp (uvmalloc root oldsz newsz) (fun r s' =>
    (r = newsz /\ exists fr l' tbl', Z.of_nat (length fr) = n /\
       grow root a0 s l tbl (fun _ _ => 0) (zeroed fr) s' l' tbl') \/
    (r = 0 /\ exists k, Z.of_nat k < n /\ ran_out root a0 s l tbl k s')) s.
Proof.
  intros Hinv Hsz HM a0 n Hnv. pose proof mapva_small as Hmv. assert (HMX : MAXVA = 67108864 * 4096) by done.
  assert (HPG : PGSIZE = 4096) by done.
  destruct (PGROUNDUP_spec oldsz) as [Hr1 Hr2]; [lia|rewrite HPG in *; lia|]. fold a0 in Hr1, Hr2.
  pose proof (Z.div_mod (newsz - a0 + PGSIZE - 1) PGSIZE ltac:(done)). pose proof (Z.mod_pos_bound (newsz - a0 + PGSIZE - 1) PGSIZE ltac:(done)).
  fold n in H. rewrite HPG in *. assert (0 <= n) by (apply Z.div_pos; lia).
  unfold uvmalloc. rewrite (proj2 (Z.ltb_ge newsz oldsz)) by lia. fold a0.
  apply (uvmalloc_loop root a0 s l tbl newsz n _ [] s l tbl a0); rewrite ?HPG; try done; try lia; simpl; try lia.
  - by apply grow_nil.
  - change ((newsz - a0 + 4096 - 1) / 4096) with n. lia.
Qed.

(** ** [uvmcopy] *)

Section copy.
Variables (ro rn : Z) (s : kst) (l : list Z) (to tn : gmap (nat * Z) Z) (n : Z).

(** The parent's address space: its tables and the pages it maps below
    [n] pages are not free and belong to nobody else. *)
Record parent : Prop := {
  pa_wf : pt_wf (k_mem s) ro to;
  pa_tables : forall x t, to !! x = Some t -> (t ∉ l) /\ forall y, tn !! y <> Some t;
  pa_valid : forall i, 0 <= i < n -> valid (leaf (k_mem s) to (i * PGSIZE)) = true;
  pa_page : forall i, 0 <= i < n -> let p := PTE2PA (leaf (k_mem s) to (i * PGSIZE)) in
    page_ok p /\ (p ∉ l) /\ forall y, tn !! y <> Some p;
  pa_flags : forall i, 0 <= i < n -> flags_ok (0, PTE_FLAGS (leaf (k_mem s) to (i * PGSIZE)))
}.

(** Byte [j] of the parent's page [i]. *)
Definition page_byte (i : nat) (j : Z) : Z := rd (k_mem s) (PTE2PA (leaf (k_mem s) to (Z.of_nat i * PGSIZE)) + j).

Hypothesis Hinv : vm_inv s l rn tn.
Hypothesis Hpar : parent.

(** Outside the free pages and the child's tables memory stays the same. *)
Definition same_outside (s' : kst) : Prop :=
  forall b, (forall c, c ∈ l -> ~ in_page c b) -> (forall x t, tn !! x = Some t -> ~ in_page t b) ->
    rd (k_mem s') b = rd (k_mem s) b.

Lemma page_same s' p b : same_outside s' -> page_ok p -> (p ∉ l) -> (forall y, tn !! y <> Some p) -> in_page p b ->
  rd (k_mem s') b = rd (k_mem s) b.
Proof.
  intros Hs Kp Hpl Hpt Hb. destruct Hinv as [[_ _ _ _ K5] Hwf _]. apply Hs.
  - intros c Hc. rewrite Forall_forall in K5. eapply page_ne; [exact Kp|by apply K5| |done]. by intros ->.
  - intros x t Hx. by eapply page_off.
Qed.

Lemma parent_same s' : same_outside s' ->
  pt_wf (k_mem s') ro to /\ forall va, 0 <= va < 2 ^ 64 -> leaf (k_mem s') to va = leaf (k_mem s) to va.
Proof.
  intros Hs. assert (Hpt : pt_same (fun _ _ => False) (k_mem s) (k_mem s') to).
  { apply pt_same_frame; [apply Hpar|]. intros x t b Hx Hb. destruct (pa_tables Hpar x t Hx) as [H1 H2].
    by apply (page_same s' t b Hs (pw_page _ _ _ (pa_wf Hpar) x t Hx)). }
  split; [eapply pt_wf_same; [exact Hpt|apply Hpar]|]. intros va Hva. by apply leaf_same.
Qed.

(** The PTE of a page of the parent, read in a later state. *)
Lemma parent_pte s' i : same_outside s' -> 0 <= i < n -> n * PGSIZE <= MAXVA ->
  exists pte, walk ro (i * PGSIZE) false s' = Ret pte s' /\ pte <> 0 /\ ram pte 8 /\
    ld64 (k_mem s') pte = leaf (k_mem s) to (i * PGSIZE).
Proof.
  intros Hs Hi HM. destruct (parent_same s' Hs) as [Hwf Hl]. pose proof mapva_small.
  assert (Hva : 0 <= i * PGSIZE < MAXVA) by (unfold PGSIZE in *; lia).
  pose proof (pa_valid Hpar i Hi) as Hv. rewrite <- Hl in Hv by lia.
  destruct (leaf_valid_at _ _ _ Hv) as [pte Hp]. exists pte.
  assert (Hr64 : 0 <= i * PGSIZE < 2 ^ 64) by lia.
  destruct (leaf_at_ram _ _ _ _ _ Hwf Hr64 Hp) as [Hram Hnz].
  split; [rewrite (walk_find s' ro to) by done; by rewrite Hp|]. split; [done|]. split; [done|].
  rewrite <- Hl by lia. unfold leaf. by rewrite Hp.
Qed.

(** The child's pages: frames of its own, with the parent's flags. *)
Definition copied_flags (pg : list (Z * Z)) : Prop :=
  forall i x, pg !! i = Some x -> x.2 = PTE_FLAGS (leaf (k_mem s) to (Z.of_nat i * PGSIZE)).

Definition copied (s' : kst) : Prop :=
  exists pg l' t', Z.of_nat (length pg) = n /\ copied_flags pg /\ grow rn 0 s l tn page_byte pg s' l' t'.

Lemma copied_flags_ok pg : copied_flags pg -> Z.of_nat (length pg) <= n -> Forall flags_ok pg.
Proof.
  intros H Hl. apply Forall_lookup. intros i x Hi. pose proof (lookup_lt_Some _ _ _ Hi).
  destruct (pa_flags Hpar (Z.of_nat i) ltac:(lia)) as [H1 H2]. unfold flags_ok. by rewrite (H i x Hi).
Qed.

(** One page of the parent in a new frame [c]. *)
Lemma copy_fill s1 c l1 t1 pg :
  grow rn 0 s l tn page_byte pg s1 (c :: l1) t1 -> Z.of_nat (length pg) < n ->
  let pa := PTE2PA (leaf (k_mem s) to (Z.of_nat (length pg) * PGSIZE)) in
  let m2 := memmove (k_mem (kalloc_post (c :: l1) s1)) c pa PGSIZE in
  (forall b, ~ in_page c b -> rd m2 b = rd (k_mem s1) b) /\
  (forall j, 0 <= j < PGSIZE -> rd m2 (c + j) = page_byte (length pg) j).
Proof.
  intros Hg Hlen pa m2. destruct (pa_page Hpar (Z.of_nat (length pg)) ltac:(lia)) as (Kp & Hpl & Hpt). fold pa in Kp, Hpl, Hpt.
  destruct (grow_apart rn 0 s l tn page_byte Hinv (conj eq_refl (Z.le_refl 0)) pg s1 (c :: l1) t1 c Hg) as [Kc _]; [right; apply list_elem_of_here|].
  assert (Hcl : c ∈ l).
  { destruct (gr_used _ _ _ _ _ _ _ _ _ _ Hg) as (used & Hp & _). rewrite Hp, !elem_of_app. right. right. apply list_elem_of_here. }
  split; intros b Hb; unfold m2; rewrite memmove_rd by done.
  - rewrite decide_False by done. by apply kalloc_frame.
  - rewrite decide_True by lia. replace (pa + (c + b - c)) with (pa + b) by lia.
    assert (Hin : in_page pa (pa + b)) by (unfold in_page; lia).
    rewrite kalloc_frame by (eapply page_ne; [exact Kp|exact Kc|by intros ->|exact Hin]).
    apply (page_same s1 pa (pa + b)); try done. intros b'. exact (gr_frame _ _ _ _ _ _ _ _ _ _ Hg b').
Qed.

Lemma uvmcopy_loop sz : forall fuel pg s1 l1 t1 i,
  n * PGSIZE <= MAXVA -> (n - 1) * PGSIZE < sz <= n * PGSIZE ->
  (forall v, 0 <= v < n * PGSIZE -> valid (leaf (k_mem s) tn v) = false) ->
  grow rn 0 s l tn page_byte pg s1 l1 t1 -> copied_flags pg ->
  i = Z.of_nat (length pg) * PGSIZE -> Z.of_nat (length pg) <= n -> n - Z.of_nat (length pg) < Z.of_nat fuel ->
  wp (loop fuel (fun i : Z =>
    if i <? sz then
      pte ← walk ro i false;
      if pte =? 0 then panic "uvmcopy: pte should exist" else
      e ← load64 pte;
      if Z.land e PTE_V =? 0 then panic "uvmcopy: page not present" else
      let pa := PTE2PA e in
      let flags := PTE_FLAGS e in
      m ← kalloc;
      if m =? 0 then (uvmunmap rn 0 (i / PGSIZE) true;; mret (inr (-1))) else
      k_memmove m pa PGSIZE;;
      r ← mappages rn i PGSIZE m flags;
      if negb (r =? 0) then
        kfree m;;
        uvmunmap rn 0 (i / PGSIZE) true;;
        mret (inr (-1))
      else mret (inl (u64 (i + PGSIZE)))
    else mret (inr 0)) i) (fun r s' =>
    (r = 0 /\ copied s') \/ (r = -1 /\ exists k, Z.of_nat k < n /\ ran_out rn 0 s l tn k s')) s1.
Proof.
  induction fuel as [|fuel IH]; intros pg s1 l1 t1 i HM Hn Hnv Hg Hfl Hi Hlen Hf; [lia|].
  pose proof mapva_small as Hmv. assert (HMX : MAXVA = 67108864 * 4096) by done. assert (HPG : PGSIZE = 4096) by done.
  assert (H00 : 0 mod PGSIZE = 0 /\ 0 <= 0) by done. pose proof (copied_flags_ok pg Hfl Hlen) as Hfo.
  assert (Hdiv : i / PGSIZE = Z.of_nat (length pg)) by (rewrite Hi; by apply Z.div_mul).
  assert (HMi : 0 + Z.of_nat (length pg) * PGSIZE <= MAXVA) by (rewrite HPG in *; lia).
  cbn [loop]. apply wp_bind. destruct (Z.ltb_spec i sz) as [Hlt|Hge].
  2:{ apply wp_ret, wp_ret. left. split; [done|]. exists pg, l1, t1. split; [rewrite HPG in *; lia|done]. }
  assert (Hlt' : Z.of_nat (length pg) < n) by (rewrite HPG in *; lia).
  pose proof (gr_frame _ _ _ _ _ _ _ _ _ _ Hg : same_outside s1) as Hsame.
  destruct (parent_pte s1 (Z.of_nat (length pg)) Hsame ltac:(lia) HM) as (pte & Hw & Hnz & Hram & Hld). rewrite <- Hi in Hw, Hld.
  apply wp_bind. eapply wp_eq; [exact Hw|]. rewrite (proj2 (Z.eqb_neq pte 0)) by done.
  apply wp_bind, wp_load; [done|]. rewrite Hld.
  pose proof (pa_valid Hpar (Z.of_nat (length pg)) ltac:(lia)) as Hv. rewrite <- Hi in Hv. unfold valid in Hv.
  destruct (Z.land (leaf (k_mem s) to i) PTE_V =? 0); [done|]. cbv zeta.
  pose proof (gr_inv _ _ _ _ _ _ _ _ _ _ Hg) as Hi1. pose proof Hi1 as [Hk1 _ _].
  apply wp_bind. eapply wp_kalloc; [done|]. rewrite Hdiv. destruct l1 as [|c l1]; cbn [hd].
  - apply wp_bind. eapply wp_conseq; [apply (grow_undo rn 0 s l tn page_byte Hinv H00 pg _ [] t1); [by apply grow_kalloc_nil|done|done]|].
    intros ? s2 (l2 & Hl2 & H). apply wp_ret, wp_ret. right. split; [done|]. exists (length pg).
    split; [lia|]. exists l2. split; [simpl in Hl2; lia|done].
  - destruct (kalloc_grown rn s1 c l1 t1 Hi1) as (_ & _ & Hcp & _ & _). pose proof (page_pos c Hcp).
    rewrite (proj2 (Z.eqb_neq c 0)) by lia.
    destruct (pa_page Hpar (Z.of_nat (length pg)) ltac:(lia)) as (Kp & _ & _). rewrite <- Hi in Kp.
    apply wp_bind, wp_memmove; [by apply page_ram|by apply page_ram|]. apply wp_bind.
    destruct (copy_fill s1 c l1 t1 pg Hg Hlt') as [Hm1 Hm2]. rewrite <- Hi in Hm1, Hm2.
    destruct (pa_flags Hpar (Z.of_nat (length pg)) ltac:(lia)) as [Hf1 Hf2]. rewrite <- Hi in Hf1.
    eapply wp_conseq; [apply (grow_map rn 0 s l tn page_byte Hinv H00 pg s1 c l1 t1 i (PTE_FLAGS (leaf (k_mem s) to i))); try done|].
    + rewrite HPG in *. lia.
    + intros v Hv'. apply Hnv. rewrite HPG in *. lia.
    + intros r s3 [[-> (l3 & t3 & Hg3)]|(-> & Hk3 & t3 & Hg3)]; cbn [negb Z.eqb].
      * apply wp_ret. rewrite u64_small by (rewrite HPG in *; lia).
        eapply (IH _ s3 l3 t3); [done|done|done|exact Hg3| | | |]; rewrite ?length_app; simpl; [|rewrite HPG in *; lia|lia|lia].
        intros k x [Hx|[Hx1 Hx2]]%lookup_app_Some; [by apply Hfl|]. apply list_lookup_singleton_Some in Hx2 as [Hx2 <-].
        replace k with (length pg) by lia. by rewrite <- Hi.
      * apply wp_bind. eapply wp_kfree; [exact Hk3|done|]. apply wp_bind.
        eapply wp_conseq; [apply (grow_undo rn 0 s l tn page_byte Hinv H00 pg _ [c] t3); done|].
        intros ? s2 (l2 & Hl2 & H2). apply wp_ret, wp_ret. right. split; [done|]. exists (length pg).
        split; [lia|]. exists l2. split; [simpl in Hl2; lia|done].
Qed.

End copy.
(** C22: [uvmcopy], the heart of [fork].  Either the child gets a page for every
    page of the parent up to [sz]: a frame of its own from the free list, with
    the bytes and the flags of the parent's page; or memory runs out after [k]
    of the pages, the call returns -1, and the child's address space and the
    free list are as before, except for page tables the child keeps: the list
    has just the [k] frames given back and at most one page more.  The parent's
    page table is not changed either way. *)
Theorem uvmcopy_copies s l ro rn to tn sz :
  let n := (sz + PGSIZE - 1) / PGSIZE in
  vm_inv s l rn tn -> parent ro s l to tn n -> 0 <= sz -> sz + PGSIZE <= MAXVA ->
  (forall v, 0 <= v < n * PGSIZE -> valid (leaf (k_mem s) tn v) = false) ->
  wp (uvmcopy ro rn sz) (fun r s' =>
    ((r = 0 /\ copied rn s l to tn n s') \/
     (r = -1 /\ exists k, Z.of_nat k < n /\ ran_out rn 0 s l tn k s')) /\
    forall va, 0 <= va < 2 ^ 64 -> leaf (k_mem s') to va = leaf (k_mem s) to va) s.
Proof.
  intros n Hinv Hpar Hsz HM Hnv. assert (HPG : PGSIZE = 4096) by done.
  pose proof (Z.div_mod (sz + PGSIZE - 1) PGSIZE ltac:(done)) as Hd. pose proof (Z.mod_pos_bound (sz + PGSIZE - 1) PGSIZE ltac:(done)).
  fold n in Hd. assert (0 <= n) by (apply Z.div_pos; rewrite ?HPG; lia).
  eapply wp_conseq.
  { apply (uvmcopy_loop ro rn s l to tn n Hinv Hpar sz (S (Z.to_nat n)) [] s l tn 0); try done; simpl; try (rewrite HPG in *; lia).
    by apply grow_nil. }
  intros r s' Hr. split; [done|]. apply (parent_same ro rn s l to tn n Hinv Hpar).
  destruct Hr as [[_ (pg & l' & t' & _ & _ & Hg)]|[_ (k & _ & l' & _ & t' & used & _ & _ & _ & _ & _ & _ & Hfr & _)]].
  - intros b. exact (gr_frame _ _ _ _ _ _ _ _ _ _ Hg b).
  - exact Hfr.
Qed.

End uvmgrow.

(** ** Witnesses *)

(** Six free pages are enough for two pages and two tables. *)
Lemma uvmalloc_all_or_nothing_witness :
  wp (uvmalloc (im := demo_image) demo_root 0 8192) (fun r s' => r = 8192 /\
     exists fr l' tbl', Z.of_nat (length fr) = 2 /\
       grow (im := demo_image) demo_root 0 demo_vm_kst demo_pages demo_tbl (fun _ _ => 0) (zeroed fr) s' l' tbl')
    demo_vm_kst.
Proof.
  assert (result (uvmalloc (im := demo_image) demo_root 0 8192 demo_vm_kst) = Some 8192) as Hr by (vm_compute; reflexivity).
  eapply wp_conseq; [eapply wp_result; [|exact Hr]|].
  - apply (uvmalloc_all_or_nothing (im := demo_image) (ImageOk0 := demo_image_ok) demo_vm_kst demo_pages demo_root demo_tbl 0 8192 demo_vm_inv).
    + lia.
    + by vm_compute.
    + intros v Hv. change (PGROUNDUP 0) with 0 in Hv. change ((8192 - 0 + PGSIZE - 1) / PGSIZE) with 2 in Hv.
      rewrite demo_leaf by (unfold PGSIZE in Hv; lia). reflexivity.
  - intros r s' [-> [[_ H]|[H _]]]; [split; [reflexivity|exact H]|discriminate].
Defined.

(** A parent with its first page mapped, and an empty table for the child. *)
Lemma demo_parent :
  exists s1 l1 tbl1,
    mappages (im := demo_image) demo_root 0 PGSIZE 0x80040000 PTE_WRXU demo_vm_kst = Ret 0 s1 /\
    evolve (im := demo_image) demo_root demo_vm_kst demo_pages demo_tbl s1 l1 tbl1 /\
    forall v, 0 <= v < 2 ^ 64 -> leaf (k_mem s1) tbl1 v = if decide (vpn v = 0) then mkpte 0x80040000 PTE_WRXU else 0.
Proof.
  destruct (wp_inv _ _ _ (map_one_page (im := demo_image) (ImageOk0 := demo_image_ok) demo_vm_kst demo_pages demo_root demo_tbl
    0 0x80040000 PTE_WRXU demo_vm_inv eq_refl ltac:(lia) ltac:(by vm_compute) ltac:(by vm_compute) ltac:(by vm_compute)
    ltac:(intros v Hv; rewrite demo_leaf; [done|unfold PGSIZE in Hv; lia]))) as (r & s1 & E & l1 & tbl1 & He & Hr).
  assert (match mappages (im := demo_image) demo_root 0 PGSIZE 0x80040000 PTE_WRXU demo_vm_kst with
          | Ret r _ => r | Err _ _ => -1 end = 0) as Hr0 by (vm_compute; reflexivity).
  rewrite E in Hr0. subst r. destruct Hr as [[_ Hl]|[? _]]; [|lia]. exists s1, l1, tbl1. split; [exact E|]. split; [done|].
  intros v Hv. rewrite Hl by done. change (vpn 0) with 0. case_decide; [done|]. by apply demo_leaf.
Qed.

Definition demo_child : Z := 0x80039000.

Lemma demo_child_zero b : in_page demo_child b -> rd (k_mem demo_vm_kst) b = 0.
Proof.
  unfold in_page, demo_child, demo_vm_kst, demo_kst, PGSIZE, k_mem. intros Hb. rewrite !rd_st_out by lia. reflexivity.
Qed.

Lemma demo_child_off s1 l1 tbl1 p :
  evolve (im := demo_image) demo_root demo_vm_kst demo_pages demo_tbl s1 l1 tbl1 ->
  p ∉ demo_root :: demo_pages -> (p ∉ l1) /\ forall x, tbl1 !! x <> Some p.
Proof.
  intros [_ _ (used & Hu & Ht & _) _ _] Hp. rewrite elem_of_cons, Hu, elem_of_app in Hp. split; [tauto|].
  intros x Hx. destruct (Ht _ _ Hx) as [Hr|Hin]; [|tauto]. unfold demo_tbl in Hr.
  apply lookup_singleton_Some in Hr as [_ Hr]. apply Hp. by left.
Qed.

Lemma demo_child_inv s1 l1 tbl1 :
  evolve (im := demo_image) demo_root demo_vm_kst demo_pages demo_tbl s1 l1 tbl1 ->
  vm_inv (im := demo_image) s1 l1 demo_child {[ (2%nat, 0) := demo_child ]}.
Proof.
  intros He. assert (Hc : demo_child ∉ demo_root :: demo_pages) by (apply (bool_decide_unpack _); vm_compute; exact I).
  destruct (demo_child_off _ _ _ _ He Hc) as [Hl Ht]. pose proof (ev_inv _ _ _ _ _ _ _ He) as [K P _].
  assert (Hz : forall i, 0 <= i < 512 -> ld64 (k_mem s1) (pte_at demo_child i) = 0).
  { intros i Hi. apply ld_zero. intros b Hb. assert (Hin : in_page demo_child b) by (unfold in_page, pte_at, PGSIZE in *; lia).
    rewrite (ev_frame _ _ _ _ _ _ _ He).
    - by apply demo_child_zero.
    - apply (page_off (im := demo_image) (k_mem s1) demo_root tbl1 demo_child b P); [by vm_compute|exact Ht|exact Hin]. }
  split; [exact K| |].
  - split.
    + reflexivity.
    + intros x t [<- <-]%lookup_singleton_Some. by vm_compute.
    + intros x y t [<- _]%lookup_singleton_Some [<- _]%lookup_singleton_Some. done.
    + intros l k t i [[= <- <-] <-]%lookup_singleton_Some Hi. rewrite lookup_singleton_ne by congruence. by rewrite Hz.
    + intros l k Hl' [t [[= <- _] _]%lookup_singleton_Some]. lia.
  - intros x t [_ <-]%lookup_singleton_Some. exact Hl.
Qed.

Lemma demo_copy_runs s1 :
  mappages (im := demo_image) demo_root 0 PGSIZE 0x80040000 PTE_WRXU demo_vm_kst = Ret 0 s1 ->
  result (uvmcopy (im := demo_image) demo_root demo_child 100 s1) = Some 0.
Proof.
  intros E.
  assert (match mappages (im := demo_image) demo_root 0 PGSIZE 0x80040000 PTE_WRXU demo_vm_kst with
          | Ret _ s1 => result (uvmcopy (im := demo_image) demo_root demo_child 100 s1) | Err _ _ => None end = Some 0)
    as Hc by (vm_compute; reflexivity).
  rewrite E in Hc. exact Hc.
Qed.

Lemma uvmcopy_copies_witness :
  exists s1 l1 tbl1, wp (uvmcopy (im := demo_image) demo_root demo_child 100) (fun r s' => r = 0 /\
    copied (im := demo_image) demo_child s1 l1 tbl1 {[ (2%nat, 0) := demo_child ]} 1 s' /\
    forall va, 0 <= va < 2 ^ 64 -> leaf (k_mem s') tbl1 va = leaf (k_mem s1) tbl1 va) s1.
Proof.
  destruct demo_parent as (s1 & l1 & tbl1 & E & He & Hl). exists s1, l1, tbl1.
  pose proof (demo_copy_runs s1 E) as Hr. clear E.
  assert (Hc : demo_child ∉ demo_root :: demo_pages) by (apply (bool_decide_unpack _); vm_compute; exact I).
  assert (Hf : 0x80040000 ∉ demo_root :: demo_pages) by (apply (bool_decide_unpack _); vm_compute; exact I).
  pose proof (ev_inv _ _ _ _ _ _ _ He) as [K P F].
  assert (Hl0 : forall i, 0 <= i < 1 -> leaf (k_mem s1) tbl1 (i * PGSIZE) = mkpte 0x80040000 PTE_WRXU).
  { intros i Hi. assert (i = 0) as -> by lia. change (0 * PGSIZE) with 0. rewrite Hl by lia. reflexivity. }
  eapply wp_conseq; [eapply wp_result; [|exact Hr]|];
    [apply (uvmcopy_copies (im := demo_image) (ImageOk0 := demo_image_ok) s1 l1 demo_root demo_child tbl1 {[ (2%nat, 0) := demo_child ]} 100)|].
  - by eapply demo_child_inv.
  - change ((100 + PGSIZE - 1) / PGSIZE) with 1. split.
    + exact P.
    + intros x t Ht. split; [by eapply F|]. intros y [_ <-]%lookup_singleton_Some. by eapply (demo_child_off s1 l1 tbl1 demo_child He Hc).
    + intros i Hi. by rewrite Hl0.
    + intros i Hi. rewrite Hl0 by done. change (PTE2PA _) with 0x80040000. split; [by vm_compute|].
      split; [by eapply (demo_child_off s1 l1 tbl1 0x80040000 He Hf)|]. intros y [_ E]%lookup_singleton_Some. discriminate.
    + intros i Hi. rewrite Hl0 by done. split; by vm_compute.
  - lia.
  - by vm_compute.
  - intros v Hv. unfold leaf, leaf_at. by rewrite lookup_singleton_ne.
  - intros r s' [-> [[[_ H]|[H _]] H']]; [split; [reflexivity|split; [exact H|exact H']]|discriminate].
Defined.
