(* ===== verification/UserCopy.v ===== *)
(** * Copies between the kernel and user memory, [copyout] and [copyin] of [kernel/vm.c]

    [tr] is the translation of a user address through the page table and
    [umapped] the test that [walkaddr] makes; the theorems describe the copies
    byte by byte in terms of them. *)
From stdpp Require Import base gmap strings numbers option list.
From S2P Require Import Prelude Layout Machine Memory Kernel Demo Kalloc Vm PageTable.
Open Scope Z_scope.

Section usercopy.
Context `{im : Image}.

Definition umapped (m : mem) (tbl : gmap (nat * Z) Z) (va : Z) : bool :=
  (va <? MAXVA) && valid (leaf m tbl va) && negb (Z.land (leaf m tbl va) PTE_U =? 0).

Definition tr (m : mem) (tbl : gmap (nat * Z) Z) (va : Z) : Z :=
  PTE2PA (leaf m tbl va) + va mod PGSIZE.

(** A user address space: its pages are RAM, no page is mapped twice, and
    none of them is a page-table page. *)
Record uspace (m : mem) (root : Z) (tbl : gmap (nat * Z) Z) : Prop := {
  us_wf : pt_wf m root tbl;
  us_page : forall va, 0 <= va -> umapped m tbl va = true -> page_ok (PTE2PA (leaf m tbl va));
  us_table : forall va x, 0 <= va -> umapped m tbl va = true -> tbl !! x <> Some (PTE2PA (leaf m tbl va));
  us_inj : forall va va', 0 <= va -> 0 <= va' -> umapped m tbl va = true -> umapped m tbl va' = true ->
    PTE2PA (leaf m tbl va) = PTE2PA (leaf m tbl va') -> vpn va = vpn va'
}.

Context `{!ImageOk im}.

Lemma leaf_vpn m tbl va va' :
  0 <= va < 2 ^ 64 -> 0 <= va' < 2 ^ 64 -> vpn va = vpn va' -> leaf m tbl va = leaf m tbl va'.
Proof.
  intros H H' E. destruct (vpn_pref va va' H H' E) as [E1 E2].
  unfold leaf, leaf_at. by rewrite E1, E2.
Qed.

(** Stores into user pages do not change the tables. *)
Lemma uspace_same m m' root tbl :
  uspace m root tbl ->
  (forall b, rd m' b <> rd m b -> exists va, 0 <= va /\ umapped m tbl va = true /\
     PTE2PA (leaf m tbl va) <= b < PTE2PA (leaf m tbl va) + PGSIZE) ->
  pt_same (fun _ _ => False) m m' tbl.
Proof.
  intros Hus Hd. apply pt_same_frame; [apply Hus|]. intros x t b Ht Hb.
  destruct (decide (rd m' b = rd m b)) as [|Hne]; [done|].
  destruct (Hd b Hne) as (va & Hva & Hm & Hr).
  assert (t <> PTE2PA (leaf m tbl va)) as Htn by (intros ->; by eapply (us_table _ _ _ Hus)).
  destruct (pw_page _ _ _ (us_wf _ _ _ Hus) _ _ Ht) as [K1 _].
  destruct (us_page _ _ _ Hus va Hva Hm) as [K2 _].
  destruct (page_apart _ _ K1 K2 Htn); lia.
Qed.

(** The address is outside every user page of the range. *)
Definition off_user (m : mem) (tbl : gmap (nat * Z) Z) (dstva len b : Z) : Prop :=
  forall va, dstva <= va < dstva + len -> umapped m tbl va = true ->
    ~ (PTE2PA (leaf m tbl va) <= b < PTE2PA (leaf m tbl va) + PGSIZE).

Lemma walkaddr_umapped s root tbl va :
  uspace (k_mem s) root tbl -> 0 <= va < 2 ^ 64 ->
  walkaddr root (PGROUNDDOWN va) s =
    Ret (if umapped (k_mem s) tbl va then PTE2PA (leaf (k_mem s) tbl va) else 0) s.
Proof.
  intros Hus Hva. destruct (PGROUNDDOWN_spec va) as [Hr Hal]. unfold umapped.
  assert (MAXVA = 67108864 * PGSIZE) as HM by done.
  assert (0 <= PGROUNDDOWN va) as H0.
  { unfold PGSIZE in *. apply Z.mod_divide in Hal as [q Hq]; [|lia]. rewrite Hq in *. lia. }
  assert (PGROUNDDOWN va < MAXVA <-> va < MAXVA) as Hlt.
  { unfold PGSIZE in *. apply Z.mod_divide in Hal as [q Hq]; [|lia]. rewrite Hq in *. lia. }
  destruct (Z.ltb_spec va MAXVA).
  - rewrite (walkaddr_eq s root tbl) by (try apply Hus; lia).
    rewrite (leaf_vpn _ _ (PGROUNDDOWN va) va); [done|pose proof mapva_small; lia|lia|].
    symmetry. by apply vpn_eq_range.
  - unfold walkaddr. rewrite (proj2 (Z.leb_le MAXVA (PGROUNDDOWN va))) by lia. done.
Qed.

(** ** One chunk: the rest of a page *)

Definition chunk (va len : Z) : Z :=
  let n := PGSIZE - (va - PGROUNDDOWN va) in if len <? n then len else n.

(** How many iterations the copy loops make. *)
Definition chunks (va len : Z) : Z := if len =? 0 then 0 else (va mod PGSIZE + len + 4095) / PGSIZE.

Lemma chunk_spec va len :
  0 < len -> 0 < chunk va len <= len /\ va mod PGSIZE + chunk va len <= PGSIZE /\
  (chunk va len < len -> PGROUNDDOWN va + PGSIZE = va + chunk va len).
Proof.
  intros Hl. unfold chunk. rewrite PGROUNDDOWN_mod. unfold PGSIZE.
  pose proof (Z.mod_pos_bound va 4096 ltac:(lia)).
  destruct (Z.ltb_spec len (4096 - (va - (va - va mod 4096)))); lia.
Qed.

Lemma chunks_step va len :
  0 < len -> chunks (PGROUNDDOWN va + PGSIZE) (len - chunk va len) < chunks va len.
Proof.
  intros Hl. destruct (chunk_spec va len Hl) as (H1 & H2 & H3).
  destruct (PGROUNDDOWN_spec va) as [_ Hal]. set (n := chunk va len) in *.
  assert ((PGROUNDDOWN va + PGSIZE) mod PGSIZE = 0) as Hz.
  { unfold PGSIZE in *. rewrite <- (Z.mul_1_l 4096) at 1. by rewrite Z_mod_plus_full. }
  unfold chunks. rewrite Hz, (proj2 (Z.eqb_neq len 0)) by lia.
  pose proof (PGROUNDDOWN_mod va). unfold PGSIZE in *.
  pose proof (Z.mod_pos_bound va 4096 ltac:(lia)).
  destruct (Z.eqb_spec (len - n) 0) as [E|E].
  - assert (1 <= (va mod 4096 + len + 4095) / 4096); [|lia]. apply Z.div_le_lower_bound; lia.
  - replace (va mod 4096 + len + 4095) with (0 + (len - n) + 4095 + 1 * 4096) by lia.
    rewrite Z.div_add by lia. lia.
Qed.

Lemma chunks_fuel va len : 0 <= len -> chunks va len < Z.of_nat (copy_fuel len).
Proof.
  intros Hl. unfold chunks, copy_fuel, PGSIZE.
  pose proof (Z.mod_pos_bound va 4096 ltac:(lia)).
  assert (0 <= len / 4096) by (apply Z.div_pos; lia). rewrite Z2Nat.id by lia.
  destruct (Z.eqb_spec len 0); [lia|]. apply Z.div_lt_upper_bound; [lia|].
  pose proof (Z.div_mod len 4096 ltac:(lia)). pose proof (Z.mod_pos_bound len 4096 ltac:(lia)). lia.
Qed.

(** Addresses in one chunk are on one page. *)
Lemma vpn_chunk va i : 0 <= i -> va mod PGSIZE + i < PGSIZE -> vpn (va + i) = vpn va.
Proof.
  unfold vpn, PGSIZE. intros Hi Hm. pose proof (Z.div_mod va 4096 ltac:(lia)) as E.
  pose proof (Z.mod_pos_bound va 4096 ltac:(lia)).
  symmetry. apply (Z.div_unique _ _ _ (va mod 4096 + i)); lia.
Qed.

Lemma umapped_range m tbl va : umapped m tbl va = true -> va < MAXVA.
Proof. unfold umapped. intros H. bool_prop. done. Qed.

Section chunks.
Context (m : mem) (root : Z) (tbl : gmap (nat * Z) Z).
Hypothesis Hus : uspace m root tbl.

(** The rest of [va]'s page is mapped to the rest of its frame. *)
Lemma chunk_tr va i :
  0 <= va -> umapped m tbl va = true -> 0 <= i -> va mod PGSIZE + i < PGSIZE ->
  umapped m tbl (va + i) = true /\ tr m tbl (va + i) = tr m tbl va + i.
Proof.
  intros Hva Hm Hi Ho. pose proof (umapped_range _ _ _ Hm) as Hr. pose proof mapva_small.
  pose proof (vpn_chunk va i Hi Ho) as Hv.
  assert (MAXVA = 67108864 * 4096) as HM by done.
  assert (va + i < MAXVA) as Hr'.
  { unfold PGSIZE in *. pose proof (Z.div_mod va 4096 ltac:(lia)). pose proof (Z.mod_pos_bound va 4096 ltac:(lia)). lia. }
  assert (leaf m tbl (va + i) = leaf m tbl va) as Hl by (apply leaf_vpn; [lia|lia|done]).
  unfold umapped, tr in *. rewrite Hl. split.
  - rewrite (proj2 (Z.ltb_lt (va + i) MAXVA)) by lia. rewrite (proj2 (Z.ltb_lt va MAXVA)) in Hm by lia. done.
  - assert ((va + i) mod PGSIZE = va mod PGSIZE + i); [|lia]. unfold vpn, PGSIZE in *.
    pose proof (Z.div_mod va 4096 ltac:(lia)). pose proof (Z.div_mod (va + i) 4096 ltac:(lia)). lia.
Qed.

Lemma tr_inj va va' :
  0 <= va -> 0 <= va' -> umapped m tbl va = true -> umapped m tbl va' = true ->
  tr m tbl va = tr m tbl va' -> va = va'.
Proof.
  intros H H' M M' E. unfold tr in E.
  destruct (us_page _ _ _ Hus va H M) as [K _]. destruct (us_page _ _ _ Hus va' H' M') as [K' _].
  unfold PGSIZE in *. pose proof (Z.mod_pos_bound va 4096 ltac:(lia)).
  pose proof (Z.mod_pos_bound va' 4096 ltac:(lia)).
  apply Z.mod_divide in K as [x Hx]; [|lia]. apply Z.mod_divide in K' as [y Hy]; [|lia].
  assert (x = y) as -> by lia.
  assert (vpn va = vpn va') as Hv by (eapply (us_inj _ _ _ Hus); try done; congruence).
  unfold vpn, PGSIZE in Hv.
  pose proof (Z.div_mod va 4096 ltac:(lia)). pose proof (Z.div_mod va' 4096 ltac:(lia)). lia.
Qed.

Lemma tr_in_page va :
  PTE2PA (leaf m tbl va) <= tr m tbl va < PTE2PA (leaf m tbl va) + PGSIZE.
Proof.
  unfold tr, PGSIZE. pose proof (Z.mod_pos_bound va 4096 ltac:(lia)). lia.
Qed.

End chunks.

(** ** [copyout] *)

(** From [m] to [m'], the [n] bytes at [src] were copied to user addresses
    from [dstva] on, and nothing else changed. *)
Definition copied_out (m m' : mem) (tbl : gmap (nat * Z) Z) (dstva src n : Z) : Prop :=
  (forall i, 0 <= i < n -> rd m' (tr m tbl (dstva + i)) = rd m (src + i)) /\
  (forall b, (forall i, 0 <= i < n -> b <> tr m tbl (dstva + i)) -> rd m' b = rd m b).

(** The user addresses from [va] on are mapped for [n] bytes, and the next
    one is not unless all [len] have been covered: the value returned. *)
Definition covers (m : mem) (tbl : gmap (nat * Z) Z) (va len n r : Z) : Prop :=
  0 <= n <= len /\ (forall i, 0 <= i < n -> umapped m tbl (va + i) = true) /\
  (r = 0 /\ n = len \/ r = -1 /\ n < len /\ umapped m tbl (va + n) = false).

(** User-page stores keep the address space, hence its translation. *)
Lemma uspace_frame m m' root tbl :
  uspace m root tbl -> pt_same (fun _ _ => False) m m' tbl -> uspace m' root tbl /\
  forall va, 0 <= va < 2 ^ 64 -> leaf m' tbl va = leaf m tbl va.
Proof.
  intros Hus Hs. assert (forall va, 0 <= va < 2 ^ 64 -> leaf m' tbl va = leaf m tbl va) as Hl.
  { intros va Hva. by apply leaf_same. }
  assert (forall va, 0 <= va -> umapped m' tbl va = true -> umapped m tbl va = true /\
    leaf m' tbl va = leaf m tbl va) as Hu.
  { intros va Hva Hm. pose proof (umapped_range _ _ _ Hm). pose proof mapva_small.
    rewrite Hl by lia. split; [|done]. unfold umapped in *. by rewrite Hl in Hm by lia. }
  split; [|done]. destruct Hus as [U1 U2 U3 U4]. split.
  - by eapply pt_wf_same.
  - intros va Hva [Hm ->]%Hu; auto.
  - intros va x Hva [Hm ->]%Hu; auto.
  - intros va va' H H' [Hm ->]%Hu [Hm' ->]%Hu; auto.
Qed.

Lemma umapped_leaf m m' tbl va :
  leaf m' tbl va = leaf m tbl va -> umapped m' tbl va = umapped m tbl va /\ tr m' tbl va = tr m tbl va.
Proof. intros H. unfold umapped, tr. by rewrite H. Qed.

(** One chunk of [copyout]. *)
Lemma out_chunk m root tbl dstva src n :
  uspace m root tbl -> 0 <= dstva -> umapped m tbl dstva = true -> 0 < n ->
  dstva mod PGSIZE + n <= PGSIZE ->
  copied_out m (memmove m (PTE2PA (leaf m tbl dstva) + (dstva - PGROUNDDOWN dstva)) src n)
    tbl dstva src n.
Proof.
  intros Hus Hd Hm Hn Ho. rewrite PGROUNDDOWN_mod.
  replace (dstva - (dstva - dstva mod PGSIZE)) with (dstva mod PGSIZE) by lia.
  fold (tr m tbl dstva).
  assert (forall i, 0 <= i < n -> tr m tbl (dstva + i) = tr m tbl dstva + i) as Ht.
  { intros i Hi. apply chunk_tr; try done; lia. }
  assert (n < 2 ^ 32).
  { unfold PGSIZE in *. pose proof (Z.mod_pos_bound dstva 4096 ltac:(lia)). lia. }
  split.
  - intros i Hi. rewrite Ht by done. rewrite memmove_rd by lia. rewrite decide_True by lia.
    f_equal. lia.
  - intros b Hb. rewrite memmove_rd by lia. rewrite decide_False; [done|]. intros Hr.
    apply (Hb (b - tr m tbl dstva)); [lia|]. rewrite Ht by lia. lia.
Qed.

Lemma copied_out_trans m m1 m2 root tbl dstva src n1 n2 :
  uspace m root tbl -> 0 <= dstva -> 0 <= n1 -> 0 <= n2 ->
  (forall va, 0 <= va < 2 ^ 64 -> leaf m1 tbl va = leaf m tbl va) ->
  (forall i, 0 <= i < n1 + n2 -> umapped m tbl (dstva + i) = true) ->
  (forall i j, 0 <= i < n1 -> 0 <= j < n2 -> src + n1 + j <> tr m tbl (dstva + i)) ->
  copied_out m m1 tbl dstva src n1 -> copied_out m1 m2 tbl (dstva + n1) (src + n1) n2 ->
  copied_out m m2 tbl dstva src (n1 + n2).
Proof.
  intros Hus Hd H1 H2 Hl Hum Hsrc [A1 A2] [B1 B2]. pose proof mapva_small as HM.
  assert (forall j, 0 <= j < n2 -> tr m1 tbl (dstva + n1 + j) = tr m tbl (dstva + n1 + j)) as Ht.
  { intros j Hj. apply umapped_leaf, Hl. pose proof (Hum (n1 + j) ltac:(lia)) as Hu.
    apply umapped_range in Hu. lia. }
  split.
  - intros i Hi. destruct (decide (i < n1)) as [Hlt|Hge].
    + rewrite B2; [apply A1; lia|]. intros j Hj. rewrite Ht by done. intros E.
      apply (tr_inj m root tbl Hus) in E; try lia; [apply Hum; lia|].
      replace (dstva + n1 + j) with (dstva + (n1 + j)) by lia. apply Hum. lia.
    + replace (dstva + i) with (dstva + n1 + (i - n1)) by lia. rewrite <- Ht by lia.
      rewrite B1 by lia. replace (src + i) with (src + n1 + (i - n1)) by lia.
      apply A2. intros i' Hi'. apply Hsrc; lia.
  - intros b Hb. rewrite B2; [apply A2; intros i Hi; apply Hb; lia|].
    intros j Hj. rewrite Ht by done. replace (dstva + n1 + j) with (dstva + (n1 + j)) by lia.
    apply Hb. lia.
Qed.

Lemma copied_out_same m m' root tbl dstva src n :
  uspace m root tbl -> 0 <= dstva ->
  (forall i, 0 <= i < n -> umapped m tbl (dstva + i) = true) ->
  copied_out m m' tbl dstva src n -> pt_same (fun _ _ => False) m m' tbl.
Proof.
  intros Hus Hd Hum [_ H2]. apply (uspace_same m m' root); [done|]. intros b Hb.
  destruct (decide (Exists (fun i => b = tr m tbl (dstva + i)) (seqZ 0 n)))
    as [(i & Hi & ->)%Exists_exists|Hno].
  - apply elem_of_seqZ in Hi. exists (dstva + i). split; [lia|]. split; [apply Hum; lia|].
    apply tr_in_page.
  - exfalso. apply Hb, H2. intros i Hi E. apply Hno, Exists_exists. exists i. split; [|done].
    apply elem_of_seqZ. lia.
Qed.

Lemma copyout_loop root tbl : forall fuel s dstva src len,
  uspace (k_mem s) root tbl -> 0 <= dstva < 2 ^ 64 -> 0 <= len -> ram src len ->
  (forall j, 0 <= j < len -> off_user (k_mem s) tbl dstva len (src + j)) ->
  chunks dstva len < Z.of_nat fuel ->
  wp (loop fuel (fun '(dstva, src, len) =>
    if 0 <? len then
      let va0 := PGROUNDDOWN dstva in
      pa0 ← walkaddr root va0;
      if pa0 =? 0 then mret (inr (-1)) else
      let n := PGSIZE - (dstva - va0) in
      let n := if len <? n then len else n in
      k_memmove (pa0 + (dstva - va0)) src n;;
      mret (inl (u64 (va0 + PGSIZE), u64 (src + n), len - n))
    else mret (inr 0)) (dstva, src, len))
  (fun r s' => exists n m', s' = set_mem m' s /\ covers (k_mem s) tbl dstva len n r /\
     copied_out (k_mem s) m' tbl dstva src n) s.
Proof.
  pose proof mapva_small as HM.
  intros fuel. induction fuel as [|fuel IH]; intros s dstva src len Hus Hd Hl Hram Hoff Hf.
  { unfold chunks, PGSIZE in Hf. destruct (Z.eqb_spec len 0); [lia|].
    pose proof (Z.mod_pos_bound dstva 4096 ltac:(lia)).
    assert (0 <= (dstva mod 4096 + len + 4095) / 4096) by (apply Z.div_pos; lia). lia. }
  cbn [loop]. apply wp_bind. destruct (Z.ltb_spec 0 len) as [Hlen|Hlen].
  2: { apply wp_ret, wp_ret. exists 0, (k_mem s). split; [by destruct s|]. split.
       - split; [lia|]. split; [intros i Hi; lia|]. left. lia.
       - split; [intros i Hi; lia|done]. }
  apply wp_bind. eapply wp_eq; [by apply walkaddr_umapped|].
  destruct (umapped (k_mem s) tbl dstva) eqn:Hm.
  2: { apply wp_ret, wp_ret. exists 0, (k_mem s). split; [by destruct s|]. split.
       - split; [lia|]. split; [intros i Hi; lia|]. right. rewrite Z.add_0_r. done.
       - split; [intros i Hi; lia|done]. }
  pose proof (us_page _ _ _ Hus dstva ltac:(lia) Hm) as Hpg. pose proof (page_pos _ Hpg) as Hpos.
  rewrite (proj2 (Z.eqb_neq _ 0)) by lia. fold (chunk dstva len).
  destruct (chunk_spec dstva len Hlen) as (Hc1 & Hc2 & Hc3).
  pose proof (chunks_step dstva len Hlen) as Hc4. set (n1 := chunk dstva len) in *.
  pose proof (out_chunk (k_mem s) root tbl dstva src n1 Hus ltac:(lia) Hm ltac:(lia) Hc2) as Hco.
  pose proof (PGROUNDDOWN_mod dstva) as Hpd. apply page_ram in Hpg as [Hp1 Hp2].
  assert (forall i, 0 <= i < n1 -> umapped (k_mem s) tbl (dstva + i) = true) as Hum1.
  { intros i Hi. apply (chunk_tr _ tbl dstva i); try done; lia. }
  pose proof (umapped_range _ _ _ Hm) as HdM. pose proof (Z.mod_pos_bound dstva PGSIZE ltac:(done)).
  destruct Hram as [Hr1 Hr2].
  apply wp_bind, wp_memmove; [unfold ram; lia|unfold ram; lia|]. apply wp_ret.
  set (m1 := memmove _ _ _ _) in *.
  destruct (uspace_frame (k_mem s) m1 root tbl Hus
    (copied_out_same (k_mem s) m1 root tbl dstva src n1 Hus ltac:(lia) Hum1 Hco)) as [Hus1 Hl1].
  assert (PHYSTOP < 2 ^ 63) by (by vm_compute). assert (KERNBASE = 2147483648) by done.
  assert (PGSIZE = 4096) by done. rewrite !u64_small by lia.
  eapply wp_conseq.
  { apply (IH (set_mem m1 s) (PGROUNDDOWN dstva + PGSIZE) (src + n1) (len - n1)); try done;
      cbn [k_mem set_mem]; try lia; [unfold ram; lia|].
    intros j Hj va Hva Hu. rewrite Hl1 by lia.
    assert (umapped (k_mem s) tbl va = true) as Hu0.
    { rewrite <- Hu. symmetry. apply umapped_leaf, Hl1. lia. }
    replace (src + n1 + j) with (src + (n1 + j)) by lia. apply Hoff; [lia|lia|done]. }
  cbn [k_mem set_mem]. intros r s' (n2 & m2 & -> & (Hn2 & Hcov & Hr) & Hco2).
  exists (n1 + n2), m2. split; [by destruct s|].
  destruct (decide (n1 = len)) as [E|E].
  - assert (n2 = 0) as -> by lia. rewrite Z.add_0_r. split.
    + split; [lia|]. split; [done|]. left. lia.
    + destruct Hco2 as [_ Hc]. destruct Hco as [Ha Hb]. split.
      * intros i Hi. rewrite Hc by lia. by apply Ha.
      * intros b Hbb. rewrite Hc by lia. by apply Hb.
  - rewrite Hc3 in * by lia.
    assert (forall i, 0 <= i < n2 -> umapped (k_mem s) tbl (dstva + n1 + i) = true) as Hum2.
    { intros i Hi. pose proof (Hcov i Hi) as Hu. pose proof (umapped_range _ _ _ Hu).
      rewrite <- Hu. symmetry. apply umapped_leaf, Hl1. lia. }
    assert (forall i, 0 <= i < n1 + n2 -> umapped (k_mem s) tbl (dstva + i) = true) as Hum.
    { intros i Hi. destruct (decide (i < n1)); [apply Hum1; lia|].
      replace (dstva + i) with (dstva + n1 + (i - n1)) by lia. apply Hum2. lia. }
    split.
    + split; [lia|]. split; [done|]. destruct Hr as [[-> ->]|(-> & Hlt & Hu)]; [left; lia|right].
      split; [done|]. split; [lia|]. replace (dstva + (n1 + n2)) with (dstva + n1 + n2) by lia.
      destruct (decide (dstva + n1 + n2 < 2 ^ 64)).
      * rewrite <- Hu. symmetry. apply umapped_leaf, Hl1. lia.
      * unfold umapped. rewrite (proj2 (Z.ltb_ge _ MAXVA)) by lia. done.
    + eapply copied_out_trans; try done; try lia. intros i j Hi Hj E2.
      eapply (Hoff (n1 + j) ltac:(lia) (dstva + i)); [lia|apply Hum; lia|].
      replace (src + (n1 + j)) with (src + n1 + j) by lia. rewrite E2. apply tr_in_page.
Qed.

(** C28: [copyout] copies to user memory through the page table.  It always
    returns; the bytes from [src] on are at the frames the page table gives
    for the user addresses from [dstva] on, up to the first address that is
    not mapped for the user; it returns 0 exactly when all [len] bytes were
    copied and -1 otherwise, and changes nothing else in memory. *)
Theorem copyout_copies s root tbl dstva src len :
  uspace (k_mem s) root tbl -> 0 <= dstva < 2 ^ 64 -> 0 <= len -> ram src len ->
  (forall j, 0 <= j < len -> off_user (k_mem s) tbl dstva len (src + j)) ->
  wp (copyout root dstva src len) (fun r s' => exists n m',
    s' = set_mem m' s /\ covers (k_mem s) tbl dstva len n r /\
    copied_out (k_mem s) m' tbl dstva src n) s.
Proof. intros. apply copyout_loop; try done. by apply chunks_fuel. Qed.

(** ** [copyin] *)

Definition copied_in (m m' : mem) (tbl : gmap (nat * Z) Z) (dst srcva n : Z) : Prop :=
  (forall i, 0 <= i < n -> rd m' (dst + i) = rd m (tr m tbl (srcva + i))) /\
  (forall b, ~ (dst <= b < dst + n) -> rd m' b = rd m b).

(** Kernel memory that is no page-table page. *)
Definition off_tables (tbl : gmap (nat * Z) Z) (a n : Z) : Prop :=
  forall x t, tbl !! x = Some t -> a + n <= t \/ t + PGSIZE <= a.

Lemma in_chunk m tbl dst srcva n :
  0 <= srcva -> umapped m tbl srcva = true -> 0 < n -> srcva mod PGSIZE + n <= PGSIZE ->
  copied_in m (memmove m dst (PTE2PA (leaf m tbl srcva) + (srcva - PGROUNDDOWN srcva)) n)
    tbl dst srcva n.
Proof.
  intros Hd Hm Hn Ho. rewrite PGROUNDDOWN_mod.
  replace (srcva - (srcva - srcva mod PGSIZE)) with (srcva mod PGSIZE) by lia.
  fold (tr m tbl srcva).
  assert (n < 2 ^ 32).
  { unfold PGSIZE in *. pose proof (Z.mod_pos_bound srcva 4096 ltac:(lia)). lia. }
  split.
  - intros i Hi. rewrite memmove_rd by lia. rewrite decide_True by lia. f_equal.
    destruct (chunk_tr m tbl srcva i) as [_ ->]; try done; lia.
  - intros b Hb. rewrite memmove_rd by lia. by rewrite decide_False.
Qed.

Lemma off_tables_same m m' root tbl a n :
  pt_wf m root tbl -> off_tables tbl a n -> (forall b, ~ (a <= b < a + n) -> rd m' b = rd m b) ->
  pt_same (fun _ _ => False) m m' tbl.
Proof.
  intros Hwf Ho H. apply pt_same_frame; [apply Hwf|]. intros x t b Ht Hb. apply H.
  destruct (Ho x t Ht); lia.
Qed.

Lemma copyin_loop root tbl : forall fuel s dst srcva len,
  uspace (k_mem s) root tbl -> 0 <= srcva < 2 ^ 64 -> 0 <= len -> ram dst len ->
  (forall j, 0 <= j < len -> off_user (k_mem s) tbl srcva len (dst + j)) ->
  off_tables tbl dst len -> chunks srcva len < Z.of_nat fuel ->
  wp (loop fuel (fun '(dst, srcva, len) =>
    if 0 <? len then
      let va0 := PGROUNDDOWN srcva in
      pa0 ← walkaddr root va0;
      if pa0 =? 0 then mret (inr (-1)) else
      let n := PGSIZE - (srcva - va0) in
      let n := if len <? n then len else n in
      k_memmove dst (pa0 + (srcva - va0)) n;;
      mret (inl (u64 (dst + n), u64 (va0 + PGSIZE), len - n))
    else mret (inr 0)) (dst, srcva, len))
  (fun r s' => exists n m', s' = set_mem m' s /\ covers (k_mem s) tbl srcva len n r /\
     copied_in (k_mem s) m' tbl dst srcva n) s.
Proof.
  pose proof mapva_small as HM.
  intros fuel. induction fuel as [|fuel IH]; intros s dst srcva len Hus Hd Hl Hram Hoff Htab Hf.
  { unfold chunks, PGSIZE in Hf. destruct (Z.eqb_spec len 0); [lia|].
    pose proof (Z.mod_pos_bound srcva 4096 ltac:(lia)).
    assert (0 <= (srcva mod 4096 + len + 4095) / 4096) by (apply Z.div_pos; lia). lia. }
  cbn [loop]. apply wp_bind. destruct (Z.ltb_spec 0 len) as [Hlen|Hlen].
  2: { apply wp_ret, wp_ret. exists 0, (k_mem s). split; [by destruct s|]. split.
       - split; [lia|]. split; [intros i Hi; lia|]. left. lia.
       - split; [intros i Hi; lia|done]. }
  apply wp_bind. eapply wp_eq; [by apply walkaddr_umapped|].
  destruct (umapped (k_mem s) tbl srcva) eqn:Hm.
  2: { apply wp_ret, wp_ret. exists 0, (k_mem s). split; [by destruct s|]. split.
       - split; [lia|]. split; [intros i Hi; lia|]. right. rewrite Z.add_0_r. done.
       - split; [intros i Hi; lia|done]. }
  pose proof (us_page _ _ _ Hus srcva ltac:(lia) Hm) as Hpg. pose proof (page_pos _ Hpg) as Hpos.
  rewrite (proj2 (Z.eqb_neq _ 0)) by lia. fold (chunk srcva len).
  destruct (chunk_spec srcva len Hlen) as (Hc1 & Hc2 & Hc3).
  pose proof (chunks_step srcva len Hlen) as Hc4. set (n1 := chunk srcva len) in *.
  pose proof (in_chunk (k_mem s) tbl dst srcva n1 ltac:(lia) Hm ltac:(lia) Hc2) as Hco.
  pose proof (PGROUNDDOWN_mod srcva) as Hpd. apply page_ram in Hpg as [Hp1 Hp2].
  assert (forall i, 0 <= i < n1 -> umapped (k_mem s) tbl (srcva + i) = true) as Hum1.
  { intros i Hi. apply (chunk_tr _ tbl srcva i); try done; lia. }
  pose proof (umapped_range _ _ _ Hm) as HdM. pose proof (Z.mod_pos_bound srcva PGSIZE ltac:(done)).
  destruct Hram as [Hr1 Hr2].
  apply wp_bind, wp_memmove; [unfold ram; lia|unfold ram; lia|]. apply wp_ret.
  set (m1 := memmove _ _ _ _) in *. destruct Hco as [Ha Hb].
  destruct (uspace_frame (k_mem s) m1 root tbl Hus) as [Hus1 Hl1].
  { apply (off_tables_same (k_mem s) m1 root tbl dst n1); [apply Hus| |done].
    intros x t Ht. destruct (Htab x t Ht); lia. }
  assert (PHYSTOP < 2 ^ 63) by (by vm_compute). assert (KERNBASE = 2147483648) by done.
  assert (PGSIZE = 4096) by done. rewrite !u64_small by lia.
  eapply wp_conseq.
  { apply (IH (set_mem m1 s) (dst + n1) (PGROUNDDOWN srcva + PGSIZE) (len - n1)); try done;
      cbn [k_mem set_mem]; try lia; [unfold ram; lia| |].
    - intros j Hj va Hva Hu. rewrite Hl1 by lia.
      assert (umapped (k_mem s) tbl va = true) as Hu0.
      { rewrite <- Hu. symmetry. apply umapped_leaf, Hl1. lia. }
      replace (dst + n1 + j) with (dst + (n1 + j)) by lia. apply Hoff; [lia|lia|done].
    - intros x t Ht. destruct (Htab x t Ht); lia. }
  cbn [k_mem set_mem]. intros r s' (n2 & m2 & -> & (Hn2 & Hcov & Hr) & [Ha2 Hb2]).
  exists (n1 + n2), m2. split; [by destruct s|].
  destruct (decide (n1 = len)) as [E|E].
  - assert (n2 = 0) as -> by lia. rewrite Z.add_0_r. split.
    + split; [lia|]. split; [done|]. left. lia.
    + split; intros; rewrite Hb2 by lia; [by apply Ha|by apply Hb].
  - rewrite Hc3 in * by lia.
    assert (forall i, 0 <= i < n2 -> umapped (k_mem s) tbl (srcva + n1 + i) = true /\
      tr m1 tbl (srcva + n1 + i) = tr (k_mem s) tbl (srcva + n1 + i)) as Hum2.
    { intros i Hi. pose proof (Hcov i Hi) as Hu. pose proof (umapped_range _ _ _ Hu).
      destruct (umapped_leaf (k_mem s) m1 tbl (srcva + n1 + i)) as [E1 E2]; [apply Hl1; lia|].
      split; congruence. }
    split; [split; [lia|split]|split].
    + intros i Hi. destruct (decide (i < n1)); [apply Hum1; lia|].
      replace (srcva + i) with (srcva + n1 + (i - n1)) by lia. apply Hum2. lia.
    + destruct Hr as [[-> ->]|(-> & Hlt & Hu)]; [left; lia|right].
      split; [done|]. split; [lia|]. replace (srcva + (n1 + n2)) with (srcva + n1 + n2) by lia.
      destruct (decide (srcva + n1 + n2 < 2 ^ 64)).
      * rewrite <- Hu. symmetry. apply umapped_leaf, Hl1. lia.
      * unfold umapped. rewrite (proj2 (Z.ltb_ge _ MAXVA)) by lia. done.
    + intros i Hi. destruct (decide (i < n1)).
      * rewrite Hb2 by lia. apply Ha. lia.
      * replace (dst + i) with (dst + n1 + (i - n1)) by lia. rewrite Ha2 by lia.
        destruct (Hum2 (i - n1) ltac:(lia)) as [Hu ->].
        replace (srcva + n1 + (i - n1)) with (srcva + i) in * by lia. apply Hb. intros Hr'.
        pose proof (tr_in_page (k_mem s) tbl (srcva + i)) as Hin.
        apply (Hoff (tr (k_mem s) tbl (srcva + i) - dst) ltac:(lia) (srcva + i)); [lia|done|].
        by replace (dst + (tr (k_mem s) tbl (srcva + i) - dst)) with (tr (k_mem s) tbl (srcva + i)) by lia.
    + intros b Hbb. rewrite Hb2 by lia. apply Hb. lia.
Qed.

(** [copyin] copies from user memory.  It always returns; the bytes at
    [dst] are those the page table gives for the user addresses from [srcva]
    on, up to the first address that is not mapped for the user; it returns 0
    exactly when all [len] bytes were copied, and changes nothing else. *)
Theorem copyin_copies s root tbl dst srcva len :
  uspace (k_mem s) root tbl -> 0 <= srcva < 2 ^ 64 -> 0 <= len -> ram dst len ->
  (forall j, 0 <= j < len -> off_user (k_mem s) tbl srcva len (dst + j)) ->
  off_tables tbl dst len ->
  wp (copyin root dst srcva len) (fun r s' => exists n m',
    s' = set_mem m' s /\ covers (k_mem s) tbl srcva len n r /\
    copied_in (k_mem s) m' tbl dst srcva n) s.
Proof. intros. apply copyin_loop; try done. by apply chunks_fuel. Qed.

End usercopy.

(** ** Witnesses: one mapped page, copied to and from kernel data *)

Lemma demo_uspace s1 l1 tbl1 :
  evolve (im := demo_image) demo_root demo_vm_kst demo_pages demo_tbl s1 l1 tbl1 ->
  (forall v, 0 <= v < 2 ^ 64 -> leaf (k_mem s1) tbl1 v =
      if decide (0x1000 <= v < 0x2000) then mkpte 0x80040000 PTE_WRXU else 0) ->
  uspace (im := demo_image) (k_mem s1) demo_root tbl1 /\
  forall va, 0 <= va -> umapped (k_mem s1) tbl1 va = true ->
    0x1000 <= va < 0x2000 /\ PTE2PA (leaf (k_mem s1) tbl1 va) = 0x80040000.
Proof.
  intros He Hl. pose proof mapva_small.
  assert (forall va, 0 <= va -> umapped (k_mem s1) tbl1 va = true ->
    0x1000 <= va < 0x2000 /\ PTE2PA (leaf (k_mem s1) tbl1 va) = 0x80040000) as Hu.
  { intros va Hva Hm. pose proof (umapped_range _ _ _ Hm). unfold umapped in Hm.
    rewrite Hl in Hm |- * by lia. case_decide; [done|]. by rewrite andb_false_r in Hm. }
  destruct (demo_frame s1 l1 tbl1 He) as [_ Ht]. split; [|done]. split.
  - apply He.
  - intros va Hva Hm. destruct (Hu va Hva Hm) as [_ ->]. by vm_compute.
  - intros va x Hva Hm. destruct (Hu va Hva Hm) as [_ ->]. apply Ht.
  - intros va va' H1 H2 M1 M2 _. destruct (Hu va H1 M1) as [R1 _], (Hu va' H2 M2) as [R2 _].
    unfold vpn, PGSIZE. rewrite <- (Z.div_unique va 4096 1 (va - 4096)) by lia.
    by rewrite <- (Z.div_unique va' 4096 1 (va' - 4096)) by lia.
Qed.

Lemma demo_umapped s1 tbl1 :
  (forall v, 0 <= v < 2 ^ 64 -> leaf (k_mem s1) tbl1 v =
      if decide (0x1000 <= v < 0x2000) then mkpte 0x80040000 PTE_WRXU else 0) ->
  umapped (k_mem s1) tbl1 0x2000 = false.
Proof. intros Hl. unfold umapped. by rewrite Hl by lia. Qed.

Lemma copyout_copies_witness :
  exists s1 tbl1, wp (copyout (im := demo_image) demo_root 0x1ff0 0x80010000 32)
    (fun r s' => exists n m', s' = set_mem m' s1 /\ covers (k_mem s1) tbl1 0x1ff0 32 n r /\
       copied_out (k_mem s1) m' tbl1 0x1ff0 0x80010000 n) s1.
Proof.
  destruct demo_mapped as (s1 & l1 & tbl1 & He & Hl). exists s1, tbl1.
  destruct (demo_uspace s1 l1 tbl1 He Hl) as [Hus Hu].
  apply (copyout_copies (im := demo_image) (ImageOk0 := demo_image_ok)).
  - exact Hus.
  - lia.
  - lia.
  - by vm_compute.
  - intros j Hj va Hva Hm. destruct (Hu va ltac:(lia) Hm) as [_ ->]. lia.
Defined.

Lemma copyin_copies_witness :
  exists s1 tbl1, wp (copyin (im := demo_image) demo_root 0x80010000 0x1000 64)
    (fun r s' => exists n m', s' = set_mem m' s1 /\ covers (k_mem s1) tbl1 0x1000 64 n r /\
       copied_in (k_mem s1) m' tbl1 0x80010000 0x1000 n) s1.
Proof.
  destruct demo_mapped as (s1 & l1 & tbl1 & He & Hl). exists s1, tbl1.
  destruct (demo_uspace s1 l1 tbl1 He Hl) as [Hus Hu].
  apply (copyin_copies (im := demo_image) (ImageOk0 := demo_image_ok)).
  - exact Hus.
  - lia.
  - lia.
  - by vm_compute.
  - intros j Hj va Hva Hm. destruct (Hu va ltac:(lia) Hm) as [_ ->]. lia.
  - intros x t Ht. destruct (pw_page _ _ _ (us_wf _ _ _ Hus) x t Ht) as [_ Hp].
    change (@end_sym demo_image) with 0x80030000 in Hp. lia.
Defined.
