(* ===== verification/Malloc.v ===== *)
(** * The Kernighan and Ritchie allocator, [kernel/kmalloc.c] and [user/umalloc.c]

    Both files hold the same code over different memory: the kernel's takes
    its memory from [kalloc], the user library's from [sbrk].  [KRMem] is what
    the code needs of its surroundings; [free] and [malloc] are written once
    against it.  A block is [size] units of 16 bytes; its first unit is the
    [Header] with [ptr] at offset 0 and the [uint] [size] at offset 8. *)
From stdpp Require Import base gmap strings numbers option list.
From S2P Require Import Prelude Layout Machine Memory Kernel Demo Kalloc.
Open Scope Z_scope.

Class KRMem (S : Type) := {
  kr_load : nat -> Z -> M S Z;
  kr_store : nat -> Z -> Z -> M S unit;
  kr_getp : M S Z;            (** [freep] *)
  kr_setp : Z -> M S unit;
  kr_base : Z                 (** [&base] *)
}.

Definition h_ptr (p : Z) : Z := p.
Definition h_size (p : Z) : Z := p + 8.
Definition sizeof_header : Z := 16.

(** [p + n] on [Header *]. *)
Definition hplus (p n : Z) : Z := u64 (p + sizeof_header * n).

Section kr.
Context {S : Type} `{K : KRMem S}.

(** One turn of the search of [free]: [for(p = freep; !(bp > p && bp <
    p->s.ptr); p = p->s.ptr)] with its [break]. *)
Definition free_step (bp p : Z) : M S (Z + Z) :=
  nx ← kr_load 8 (h_ptr p);
  if (p <? bp) && (bp <? nx) then mret (inr p) else
  if (nx <=? p) && ((p <? bp) || (bp <? nx)) then mret (inr p) else
  mret (inl nx).

Definition free_search (fuel : nat) (bp p : Z) : M S Z := loop fuel (free_step bp) p.

Definition kr_free (fuel : nat) (ap : Z) : M S unit :=
  let bp := u64 (ap - sizeof_header) in
  p ← kr_getp;
  p ← free_search fuel bp p;
  bsize ← kr_load 4 (h_size bp);
  nx ← kr_load 8 (h_ptr p);
  (if hplus bp bsize =? nx then
     nsize ← kr_load 4 (h_size nx);
     kr_store 4 (h_size bp) (u32 (bsize + nsize));;
     nnx ← kr_load 8 (h_ptr nx);
     kr_store 8 (h_ptr bp) nnx
   else kr_store 8 (h_ptr bp) nx);;
  psize ← kr_load 4 (h_size p);
  (if hplus p psize =? bp then
     bsize ← kr_load 4 (h_size bp);
     kr_store 4 (h_size p) (u32 (psize + bsize));;
     bnx ← kr_load 8 (h_ptr bp);
     kr_store 8 (h_ptr p) bnx
   else kr_store 8 (h_ptr p) bp);;
  kr_setp p.

Definition nunits (nbytes : Z) : Z := u32 ((u32 nbytes + sizeof_header - 1) / sizeof_header + 1).

(** Taking [n] units from the block [p] of [sz]: all of it, or its tail. *)
Definition malloc_take (n prevp p sz : Z) : M S Z :=
  if sz =? n then
    nx ← kr_load 8 (h_ptr p);
    kr_store 8 (h_ptr prevp) nx;;
    kr_setp prevp;;
    mret (hplus p 1)
  else
    kr_store 4 (h_size p) (u32 (sz - n));;
    sz' ← kr_load 4 (h_size p);
    let p := hplus p sz' in
    kr_store 4 (h_size p) n;;
    kr_setp prevp;;
    mret (hplus p 1).

(** One turn of the loop of [malloc].  [more] is the file's [morecore]. *)
Definition malloc_step (more : Z -> M S Z) (n : Z) (pp : Z * Z) : M S (Z * Z + Z) :=
  let '(prevp, p) := pp in
  sz ← kr_load 4 (h_size p);
  if n <=? sz then r ← malloc_take n prevp p sz; mret (inr r) else
  fp ← kr_getp;
  if p =? fp then
    p ← more n;
    if p =? 0 then mret (inr 0) else
    nx ← kr_load 8 (h_ptr p);
    mret (inl (p, nx))
  else
    nx ← kr_load 8 (h_ptr p);
    mret (inl (p, nx)).

Definition malloc_search (fuel : nat) (more : Z -> M S Z) (n prevp p : Z) : M S Z :=
  loop fuel (malloc_step more n) (prevp, p).

Definition kr_malloc (fuel : nat) (more : Z -> M S Z) (nbytes : Z) : M S Z :=
  let n := nunits nbytes in
  prevp ← kr_getp;
  (if prevp =? 0 then
     kr_setp kr_base;;
     kr_store 8 (h_ptr kr_base) kr_base;;
     kr_store 4 (h_size kr_base) 0
   else skip);;
  let prevp := if prevp =? 0 then kr_base else prevp in
  p ← kr_load 8 (h_ptr prevp);
  malloc_search fuel more n prevp p.

End kr.

(** ** The kernel's allocator, kmalloc.c *)

Section kmalloc.
Context `{im : Image}.

#[export] Instance kernel_mem : KRMem kst := {
  kr_load := load;
  kr_store := store;
  kr_getp := gets k_freep;
  kr_setp := fun p => modify (set_freep p);
  kr_base := base_addr
}.

(** The kernel's copy logs its calls; the user library's does not. *)
Definition knfree (fuel : nat) (ap : Z) : M kst unit := klog;; kr_free fuel ap.

Definition knmorecore (fuel : nat) (nu : Z) : M kst Z :=
  let nu := if nu <? 4096 then 4096 else nu in
  p ← kalloc;
  klog;;
  if p =? 2 ^ 64 - 1 then mret 0 else
  store32 (h_size p) nu;;
  knfree fuel (hplus p 1);;
  gets k_freep.

Definition knmalloc (fuel : nat) (nbytes : Z) : M kst Z :=
  klog;;
  klog;;
  r ← kr_malloc fuel (knmorecore fuel) nbytes;
  klog;;
  mret r.

Context `{!ImageOk im}.

(** Resolve loads from memory that was just stored to. *)
Ltac ldst :=
  repeat first
    [ rewrite ld64_st64 by lia | rewrite ld32_st32 by lia
    | rewrite ld_st_disj by (unfold h_ptr, h_size in *; lia) ].

Lemma hplus_small p n : 0 <= p + 16 * n < 2 ^ 64 -> hplus p n = p + 16 * n.
Proof. intros. unfold hplus, sizeof_header. by apply u64_small. Qed.

(** The first block put on the empty list. *)
Lemma kr_free_first s fuel a nu :
  k_freep s = base_addr -> (0 < fuel)%nat ->
  end_sym <= a -> ram a 16 -> 1 <= nu < 2 ^ 32 -> a + 16 * nu < 2 ^ 64 ->
  ld64 (k_mem s) base_addr = base_addr -> ld32 (k_mem s) (h_size base_addr) = 0 ->
  ld32 (k_mem s) (h_size a) = nu ->
  wp (kr_free fuel (hplus a 1)) (fun _ s' =>
    s' = set_mem (st64 (st64 (k_mem s) a base_addr) base_addr a) s) s.
Proof.
  intros Hfp Hf Ha [Hr1 Hr2] Hnu Hend Hb Hbs Has. destruct im_base as [Hb1 Hb2].
  pose proof im_end. unfold PHYSTOP, KERNBASE, PGSIZE in *.
  unfold kr_free. cbn [kr_getp kernel_mem]. apply wp_bind, wp_gets. rewrite Hfp.
  rewrite hplus_small by lia. unfold sizeof_header.
  replace (u64 (a + 16 * 1 - 16)) with a by (rewrite u64_small; lia).
  apply wp_bind. unfold free_search. destruct fuel as [|fuel]; [lia|]. cbn [loop free_step kr_load kernel_mem].
  apply wp_bind, wp_bind, wp_load; [unfold ram, h_ptr, PHYSTOP, KERNBASE; lia|].
  unfold h_ptr. rewrite Hb.
  rewrite (proj2 (Z.ltb_lt base_addr a)), (proj2 (Z.ltb_ge a base_addr)), Z.leb_refl by lia.
  cbn [andb orb]. apply wp_ret, wp_ret.
  apply wp_bind, wp_load; [unfold ram, h_size, PHYSTOP, KERNBASE; lia|]. rewrite Has.
  apply wp_bind, wp_load; [unfold ram, h_ptr, PHYSTOP, KERNBASE; lia|].
  unfold h_ptr. rewrite Hb, hplus_small by lia.
  rewrite (proj2 (Z.eqb_neq (a + 16 * nu) base_addr)) by lia.
  apply wp_bind, wp_store; [unfold ram, h_ptr, PHYSTOP, KERNBASE; lia|].
  apply wp_bind, wp_load; [unfold ram, h_size, PHYSTOP, KERNBASE; lia|]. cbn [k_mem set_mem].
  rewrite ld_st_disj by (unfold h_size, h_ptr; lia). rewrite Hbs, hplus_small by lia.
  rewrite (proj2 (Z.eqb_neq (base_addr + 16 * 0) a)) by lia.
  apply wp_bind, wp_store; [unfold ram, h_ptr, PHYSTOP, KERNBASE; lia|].
  apply wp_modify. destruct s; simpl in *. unfold set_freep, set_mem; simpl. by rewrite Hfp.
Qed.

Lemma knfree_first s fuel a nu :
  hart_ok (k_hart s) -> k_freep s = base_addr -> (0 < fuel)%nat ->
  end_sym <= a -> ram a 16 -> 1 <= nu < 2 ^ 32 -> a + 16 * nu < 2 ^ 64 ->
  ld64 (k_mem s) base_addr = base_addr -> ld32 (k_mem s) (h_size base_addr) = 0 ->
  ld32 (k_mem s) (h_size a) = nu ->
  wp (knfree fuel (hplus a 1)) (fun _ s' =>
    s' = set_mem (st64 (st64 (k_mem s) a base_addr) base_addr a) (set_hart (settle (k_hart s)) s)) s.
Proof.
  intros Hok Hfp Hf Ha Hr Hnu Hend Hb Hbs Has. apply wp_bind, wp_klog; [done|].
  by apply (kr_free_first (set_hart (settle (k_hart s)) s) fuel a nu).
Qed.

Lemma nunits_spec nbytes :
  0 <= nbytes < 2 ^ 32 -> nunits nbytes = (nbytes + 15) / 16 + 1 /\ 1 <= nunits nbytes <= 2 ^ 28 + 1.
Proof.
  intros H. unfold nunits, sizeof_header. rewrite (u32_small nbytes) by done.
  replace (nbytes + 16 - 1) with (nbytes + 15) by lia.
  assert (0 <= (nbytes + 15) / 16 <= 2 ^ 28) as Hq.
  { split; [apply Z.div_pos; lia|]. apply Z.lt_succ_r, Z.div_lt_upper_bound; lia. }
  rewrite u32_small by lia. split; [done|lia].
Qed.

Lemma wp_malloc_init s Q :
  k_freep s = 0 ->
  let m := st32 (st64 (k_mem s) base_addr base_addr) (h_size base_addr) 0 in
  Q tt (set_mem m (set_freep base_addr s)) ->
  wp (kr_setp base_addr;; kr_store 8 (h_ptr base_addr) base_addr;;
      kr_store 4 (h_size base_addr) 0) Q s.
Proof.
  intros Hfp m HQ. destruct im_base as [Hb1 Hb2]. pose proof im_end.
  unfold PHYSTOP, KERNBASE, PGSIZE in *. cbn [kr_setp kr_store kernel_mem].
  apply wp_bind, wp_modify. apply wp_bind, wp_store; [unfold ram, h_ptr, PHYSTOP, KERNBASE; lia|].
  apply wp_store; [unfold ram, h_size, PHYSTOP, KERNBASE; lia|]. exact HQ.
Qed.

Lemma kalloc_post_rest l s :
  k_hart (kalloc_post l s) = settle (k_hart s) /\ k_freep (kalloc_post l s) = k_freep s.
Proof. by destruct l. Qed.

(** [knmorecore] on the empty list: the page [a] from [kalloc] becomes a block
    of [nu] units. *)
Lemma knmorecore_page s fuel a nu :
  hart_ok (k_hart s) -> k_freep s = base_addr -> (0 < fuel)%nat -> 1 <= nu < 2 ^ 30 ->
  end_sym <= a -> a + PGSIZE <= PHYSTOP ->
  ld64 (k_mem s) base_addr = base_addr -> ld32 (k_mem s) (h_size base_addr) = 0 ->
  wp (klog;; if a =? 2 ^ 64 - 1 then mret 0 else store32 (h_size a) nu;; knfree fuel (hplus a 1);; gets k_freep)
    (fun r s' => r = base_addr /\ k_freep s' = base_addr /\
      ld64 (k_mem s') base_addr = a /\ ld32 (k_mem s') (h_size a) = nu /\
      ld64 (k_mem s') a = base_addr /\ hart_ok (k_hart s')) s.
Proof.
  intros Hok Hfp Hf Hnu Ha1 Ha2 Hb Hbs. destruct im_base as [Hb1 Hb2]. pose proof im_end. unfold PHYSTOP, KERNBASE, PGSIZE in *.
  apply wp_bind, wp_klog; [done|]. rewrite (proj2 (Z.eqb_neq a (2 ^ 64 - 1))) by lia.
  apply wp_bind, wp_store; [unfold ram, h_size, PHYSTOP, KERNBASE; lia|]. cbn [k_mem set_hart].
  apply wp_bind. eapply wp_conseq; [apply (knfree_first _ fuel a nu); try done; try lia|]; cbn [k_mem set_mem].
  - by apply hart_ok_settle.
  - unfold ram, PHYSTOP, KERNBASE; lia.
  - by rewrite ld_st_disj by (unfold h_size; lia).
  - by rewrite ld_st_disj by (unfold h_size; lia).
  - by rewrite ld32_st32 by lia.
  - intros u s' ->. apply wp_gets. split; [done|]. split; [done|]. cbn [k_mem set_mem k_hart set_hart].
    split; [|split; [|split]].
    + by rewrite ld64_st64 by lia.
    + rewrite !ld_st_disj by (unfold h_size; lia). by rewrite ld32_st32 by lia.
    + rewrite ld_st_disj by lia. by rewrite ld64_st64 by lia.
    + by apply hart_ok_settle, hart_ok_settle.
Qed.

Lemma knmorecore_first s fuel a l n :
  kmem_inv s (a :: l) -> k_freep s = base_addr -> (0 < fuel)%nat -> 0 <= n <= 2 ^ 28 + 1 ->
  ld64 (k_mem s) base_addr = base_addr -> ld32 (k_mem s) (h_size base_addr) = 0 ->
  let nu := if n <? 4096 then 4096 else n in
  wp (knmorecore fuel n) (fun r s' => r = base_addr /\ k_freep s' = base_addr /\
    ld64 (k_mem s') base_addr = a /\ ld32 (k_mem s') (h_size a) = nu /\
    ld64 (k_mem s') a = base_addr /\ hart_ok (k_hart s')) s.
Proof.
  intros Hinv Hfp Hf Hn Hb Hbs nu. destruct im_base as [Hb1 Hb2].
  pose proof Hinv as [Hok _ _ _ [Hpa _]%Forall_cons]. pose proof (page_ram a Hpa) as [_ Ha2]. destruct Hpa as [_ [Ha1 _]].
  assert (1 <= nu < 2 ^ 30) as Hnu by (unfold nu; destruct (Z.ltb_spec n 4096); lia).
  unfold knmorecore. apply wp_bind. eapply wp_kalloc; [done|]. cbn [hd].
  destruct (kalloc_post_rest (a :: l) s) as [Hh1 Hfp1].
  assert (forall k x, (k <= 8)%nat -> x + Z.of_nat k <= end_sym ->
    ld k (k_mem (kalloc_post (a :: l) s)) x = ld k (k_mem s) x) as Hs1.
  { intros k x Hk Hx. apply ld_frame. intros b Hbb. apply kalloc_frame. lia. }
  apply knmorecore_page; [rewrite Hh1; by apply hart_ok_settle|by rewrite Hfp1|done|done|lia|lia|..].
  - by rewrite Hs1 by lia.
  - by rewrite Hs1 by (unfold h_size; lia).
Qed.

Lemma kmem_inv_klog s l : kmem_inv s l -> kmem_inv (set_hart (settle (k_hart s)) s) l.
Proof. intros [H1 H2 H3 H4 H5]. split; try done. by apply hart_ok_settle. Qed.

(** The messages at the start of [knmalloc]. *)
Lemma knmalloc_start s l : kmem_inv s l ->
  exists h, kmem_inv (set_hart h s) l /\ forall fuel nbytes,
    knmalloc fuel nbytes s = (r ← kr_malloc fuel (knmorecore fuel) nbytes; klog;; mret r) (set_hart h s).
Proof.
  intros Hinv. assert (Hok : hart_ok (k_hart s)) by apply Hinv. exists (settle (settle (k_hart s))).
  split; [apply (kmem_inv_klog (set_hart (settle (k_hart s)) s)), kmem_inv_klog, Hinv|].
  intros fuel nbytes. unfold knmalloc. erewrite bind_ret by (by apply klog_eq).
  by erewrite bind_ret by (by apply klog_eq, hart_ok_settle).
Qed.

(** The page allocator does not look at the free-list header [base]. *)
Lemma kmem_inv_header s a l :
  kmem_inv s (a :: l) ->
  kmem_inv (set_mem (st32 (st64 (k_mem s) base_addr base_addr) (h_size base_addr) 0)
    (set_freep base_addr s)) (a :: l).
Proof.
  intros [H1 H2 H3 H4 H5]. destruct im_base as [Hb1 Hb2]. split; try done.
  simpl k_mem. eapply run_list_same; [|exact H3]. intros x b Hx Hb.
  rewrite Forall_forall in H5. destruct (H5 x Hx) as [_ Hx2].
  rewrite !rd_st_out by (unfold h_size; lia). done.
Qed.

Lemma kmem_inv_header_nil s :
  kmem_inv s [] ->
  kmem_inv (set_mem (st32 (st64 (k_mem s) base_addr base_addr) (h_size base_addr) 0)
    (set_freep base_addr s)) [].
Proof. intros [H1 H2 H3 H4 H5]. by split. Qed.

(** The kernel's allocator hands out memory it does not own.
    [knmorecore] takes one 4096-byte page from [kalloc] but enters a block of
    at least 4096 units, 65536 bytes, and [knmalloc] carves from the end of a
    block: the first allocation lies beyond the page, in memory that [kalloc]
    has not given out for it. *)
Theorem knmalloc_outside_page s a l nbytes fuel :
  kmem_inv s (a :: l) -> k_freep s = 0 -> a + 65536 <= PHYSTOP ->
  0 <= nbytes <= 61424 -> (2 <= fuel)%nat ->
  wp (knmalloc fuel nbytes) (fun r _ =>
    r = a + 65536 - 16 * nunits nbytes + 16 /\ a + PGSIZE <= r /\ r + nbytes <= a + 65536) s.
Proof.
  intros Hinv0 Hfp0 Hend Hnb Hf. destruct (knmalloc_start s (a :: l) Hinv0) as (h0 & Hinv & Heq).
  unfold wp. rewrite Heq. revert Hinv Hfp0. clear Heq Hinv0. change (k_freep s) with (k_freep (set_hart h0 s)).
  generalize (set_hart h0 s). clear s h0. intros s Hinv Hfp. apply wp_bind.
  destruct (nunits_spec nbytes) as [Hn Hn2]; [lia|].
  destruct im_base as [Hb1 Hb2].
  pose proof Hinv as [_ _ _ _ [Hpa _]%Forall_cons]. pose proof (page_ram a Hpa) as [Hr1 Hr2].
  destruct Hpa as [Hal Hpa]. unfold PHYSTOP, KERNBASE, PGSIZE in *.
  assert (nbytes + 16 <= 16 * nunits nbytes <= nbytes + 31) as Hn3.
  { pose proof (Z.div_mod (nbytes + 15) 16 ltac:(lia)).
    pose proof (Z.mod_pos_bound (nbytes + 15) 16 ltac:(lia)). lia. }
  unfold kr_malloc. set (n := nunits nbytes) in *. cbn [kr_getp kernel_mem].
  apply wp_bind, wp_gets. rewrite Hfp, Z.eqb_refl. apply wp_bind. apply wp_malloc_init; [done|].
  set (m := st32 _ _ _). set (s1 := set_mem m _).
  assert (ld64 m base_addr = base_addr /\ ld32 m (h_size base_addr) = 0) as [Hm1 Hm2].
  { unfold m. split; [rewrite ld_st_disj by (unfold h_size; lia); by rewrite ld64_st64 by lia|].
    by rewrite ld32_st32 by lia. }
  cbn [kr_base kernel_mem]. apply wp_bind, wp_load; [unfold ram, h_ptr, PHYSTOP, KERNBASE; lia|].
  unfold h_ptr, s1. cbn [k_mem set_mem kr_base kernel_mem]. rewrite Hm1.
  unfold malloc_search. destruct fuel as [|[|fuel]]; [lia|lia|]. cbn [loop malloc_step kr_load kr_getp kr_setp kr_store kernel_mem].
  apply wp_bind, wp_bind, wp_load; [unfold ram, h_size, PHYSTOP, KERNBASE; lia|].
  cbn [k_mem set_mem]. rewrite Hm2, (proj2 (Z.leb_gt n 0)) by lia.
  apply wp_bind, wp_gets. cbn [k_freep set_mem set_freep]. rewrite Z.eqb_refl.
  apply wp_bind. eapply wp_conseq; [apply (knmorecore_first _ _ a l n); try done; try lia|].
  { by apply (kmem_inv_header s a l). }
  intros r s2 (-> & Hfp2 & Hba & Hsz & _ & Hok2). rewrite (proj2 (Z.eqb_neq base_addr 0)) by lia.
  apply wp_bind, wp_load; [unfold ram, h_ptr, PHYSTOP, KERNBASE; lia|]. unfold h_ptr. rewrite Hba.
  apply wp_ret. apply wp_bind, wp_bind, wp_load; [unfold ram, h_size, PHYSTOP, KERNBASE; lia|].
  rewrite Hsz, (proj2 (Z.ltb_lt n 4096)) by lia.
  rewrite (proj2 (Z.leb_le n 4096)) by lia.
  apply wp_bind. unfold malloc_take. rewrite (proj2 (Z.eqb_neq 4096 n)) by lia.
  apply wp_bind, wp_store; [unfold ram, h_size, PHYSTOP, KERNBASE; lia|].
  apply wp_bind, wp_load; [unfold ram, h_size, PHYSTOP, KERNBASE; lia|]. cbn [k_mem set_mem].
  rewrite (u32_small (4096 - n)), ld32_st32, (hplus_small a) by lia.
  apply wp_bind, wp_store; [unfold ram, h_size, PHYSTOP, KERNBASE; lia|].
  apply wp_bind, wp_modify, wp_ret, wp_ret, wp_ret, wp_bind, wp_klog; [done|]. apply wp_ret. rewrite hplus_small by lia. lia.
Qed.

Lemma knmorecore_exhausted s fuel n :
  kmem_inv s [] -> exists s', knmorecore fuel n s = Err (EFault 8) s'.
Proof.
  intros Hinv. assert (Hok : hart_ok (k_hart s)) by apply Hinv.
  unfold knmorecore. erewrite bind_ret by (by apply (kalloc_eq _ [])).
  erewrite bind_ret by (apply klog_eq; by apply hart_ok_settle). eexists.
  cbn [hd]. change (0 =? 2 ^ 64 - 1) with false. by apply bind_err.
Qed.

(** When [kalloc] has no page left, [knmalloc] does not return 0.
    [knmorecore] compares the result of [kalloc] with -1, the error value of
    [sbrk], so the null pointer passes as a page and the store to its header
    faults at address 8. *)
Theorem knmalloc_exhausted_faults s nbytes fuel :
  kmem_inv s [] -> k_freep s = 0 -> 0 <= nbytes < 2 ^ 32 -> (1 <= fuel)%nat ->
  exists s', knmalloc fuel nbytes s = Err (EFault 8) s'.
Proof.
  intros Hinv0 Hfp0 Hnb Hf. destruct (knmalloc_start s [] Hinv0) as (h0 & Hinv & Heq).
  rewrite Heq. revert Hinv Hfp0. clear Heq Hinv0. change (k_freep s) with (k_freep (set_hart h0 s)).
  generalize (set_hart h0 s). clear s h0. intros s Hinv Hfp.
  enough (exists s', kr_malloc fuel (knmorecore fuel) nbytes s = Err (EFault 8) s') as [s' Hs']
    by (exists s'; by apply bind_err).
  destruct (nunits_spec nbytes Hnb) as [_ Hn].
  destruct im_base as [Hb1 Hb2]. pose proof im_end as Hend. unfold PHYSTOP, KERNBASE, PGSIZE in *.
  unfold kr_malloc. set (n := nunits nbytes) in *. cbn [kr_getp kernel_mem].
  erewrite bind_ret by reflexivity. rewrite Hfp, Z.eqb_refl.
  erewrite bind_ret; [|apply wp_ret_eq; apply wp_malloc_init; [done|split; reflexivity]].
  set (m := st32 _ _ _).
  assert (ld64 m base_addr = base_addr /\ ld32 m (h_size base_addr) = 0) as [Hm1 Hm2].
  { unfold m. split; [rewrite ld_st_disj by (unfold h_size; lia); by rewrite ld64_st64 by lia|].
    by rewrite ld32_st32 by lia. }
  cbn [kr_base kernel_mem kr_load].
  erewrite bind_ret by (apply load_eq; unfold ram, h_ptr, PHYSTOP, KERNBASE; lia).
  unfold h_ptr. cbn [k_mem set_mem]. rewrite Hm1. unfold malloc_search.
  destruct fuel as [|fuel]; [lia|]. cbn [loop malloc_step kr_load kr_getp kernel_mem]. rewrite !bind_assoc.
  erewrite bind_ret by (apply load_eq; unfold ram, h_size, PHYSTOP, KERNBASE; lia).
  cbn [k_mem set_mem]. rewrite Hm2, (proj2 (Z.leb_gt n 0)), !bind_assoc by lia.
  erewrite bind_ret by reflexivity. cbn [k_freep set_mem set_freep]. rewrite Z.eqb_refl, !bind_assoc.
  destruct (knmorecore_exhausted (set_mem m (set_freep base_addr s)) (S fuel) n) as [s' Hs'].
  { by apply kmem_inv_header_nil. }
  exists s'. by apply bind_err.
Qed.

End kmalloc.

(** ** Witnesses *)

Lemma knmalloc_outside_page_witness :
  wp (knmalloc (im := demo_image) 2 16) (fun r _ => r = 0x80040ff0) demo_free_kst.
Proof.
  eapply wp_conseq; [apply (knmalloc_outside_page (im := demo_image) (ImageOk0 := demo_image_ok)
    demo_free_kst 0x80031000 [0x80032000])|].
  - exact demo_kmem_inv.
  - reflexivity.
  - by vm_compute.
  - lia.
  - lia.
  - intros r s' (-> & _). reflexivity.
Defined.

Lemma knmalloc_exhausted_faults_witness :
  exists s', knmalloc (im := demo_image) 3 16 (demo_kst ∅ 0 0) = Err (EFault 8) s'.
Proof.
  apply (knmalloc_exhausted_faults (im := demo_image) (ImageOk0 := demo_image_ok)); [|done|lia|lia].
  split; [apply demo_hart_ok|done|done|constructor|constructor].
Defined.
