(* ===== verification/RcuList.v ===== *)
(** * The RCU process list, [kernel/list_proc.c]

    Nodes ([t_node]: [process] at offset 0, [next] at offset 8) and [struct
    proc]s live in the byte memory; the list head is [process_list].  The
    functions take the list and the writers' lock by pointer; every call in
    the kernel passes [&process_list] and [&rcu_writers_lock], which are
    fields of the state here.  A traversal gets fuel: it is bounded by the
    length of the list, which [proc.c] never lets be cyclic. *)
From stdpp Require Import base gmap strings numbers option list.
From S2P Require Import Prelude Layout Machine Memory Kernel Demo.
Open Scope Z_scope.

(** ** Layout of [t_node] and [struct proc] *)

Definition sizeof_node : Z := 16.
Definition n_process (n : Z) : Z := n.
Definition n_next (n : Z) : Z := n + 8.

Definition sizeof_proc : Z := 376.
Definition sizeof_spinlock : Z := 24.
Definition p_lock (p : Z) : Z := p.
Definition p_state (p : Z) : Z := p + 24.
Definition p_chan (p : Z) : Z := p + 32.
Definition p_killed (p : Z) : Z := p + 40.
Definition p_xstate (p : Z) : Z := p + 44.
Definition p_nKStack (p : Z) : Z := p + 48.
Definition p_pid (p : Z) : Z := p + 52.
Definition p_uid (p : Z) : Z := p + 56.
Definition p_p_uid (p : Z) : Z := p + 64.
Definition p_parent (p : Z) : Z := p + 72.
Definition p_kstack (p : Z) : Z := p + 80.
Definition p_sz (p : Z) : Z := p + 88.
Definition p_pagetable (p : Z) : Z := p + 96.
Definition p_trapframe (p : Z) : Z := p + 104.
Definition p_context (p : Z) : Z := p + 112.
Definition p_ofile (p fd : Z) : Z := p + 224 + 8 * fd.
Definition p_cwd (p : Z) : Z := p + 352.
Definition p_name (p : Z) : Z := p + 360.

Section rculist.
Context `{im : Image}.

(** ** Read side *)

Definition rcu_read_lock : M kst unit := zoom hartL push_off.
Definition rcu_read_unlock : M kst unit := zoom hartL pop_off.

(** A fence, then the pointer itself. *)
Definition rcu_dereference_pointer (node_ptr : Z) : M kst Z := mret node_ptr.

(** A fence, then the store [*list_ptr_dst = node_ptr_src]. *)
Definition rcu_assign_pointer (node_ptr_src : Z) : M kst unit :=
  modify (set_process_list node_ptr_src).

(** [*list_ptr] *)
Definition list_head : M kst Z := gets (fun s => process_list (k_plist s)).

Definition context_eq (c1 c2 : context) : bool :=
  (ra c1 =? ra c2) && (sp c1 =? sp c2) &&
  (s0 c1 =? s0 c2) && (s1 c1 =? s1 c2) && (s2 c1 =? s2 c2) && (s3 c1 =? s3 c2) &&
  (s4 c1 =? s4 c2) && (s5 c1 =? s5 c2) && (s6 c1 =? s6 c2) && (s7 c1 =? s7 c2) &&
  (s8 c1 =? s8 c2) && (s9 c1 =? s9 c2) && (s10 c1 =? s10 c2) && (s11 c1 =? s11 c2).

(** ** Write side *)

Definition list_add_rcu (node_ptr : Z) : M kst unit :=
  zoom writersL acquire;;
  rcu_read_lock;;
  hd ← list_head;
  tmp_node_ptr ← rcu_dereference_pointer hd;
  store64 (n_next node_ptr) tmp_node_ptr;;
  rcu_read_unlock;;
  rcu_assign_pointer node_ptr;;
  zoom writersL release.

(** The three functions below search the list with the same loop, with
    [prev] one node behind [cur]: stop at the end with [r0], act on the first
    node that passes the test, or advance both pointers through [next]. *)
Definition scan {R} (fuel : nat) (test : Z -> M kst bool) (act : Z -> Z -> M kst R)
    (r0 : R) (prev cur : Z) : M kst R :=
  loop fuel (fun '(prev, cur) =>
    if cur =? 0 then mret (inr r0) else
    b ← test cur;
    if (b : bool) then
      r ← act prev cur;
      mret (inr r)
    else
      cur' ← load64 (n_next cur);
      prev' ← load64 (n_next prev);
      mret (inl (prev', cur'))) (prev, cur).

(** [prev->next = cur->next] *)
Definition unlink_next (prev cur : Z) : M kst unit :=
  nx ← load64 (n_next cur);
  store64 (n_next prev) nx.

Definition list_del_loop (fuel : nat) (node_ptr prev tmp : Z) : M kst unit :=
  scan fuel (fun tmp => mret (tmp =? node_ptr)) unlink_next tt prev tmp.

Definition list_del_rcu (fuel : nat) (node_ptr : Z) : M kst unit :=
  h ← list_head;
  if h =? 0 then panic "list_del_rcu" else
  zoom writersL acquire;;
  h ← list_head;
  tmp ← rcu_dereference_pointer h;
  if tmp =? node_ptr then
    nx ← load64 (n_next tmp);
    rcu_assign_pointer nx;;
    zoom writersL release
  else
    let prev := tmp in
    tmp ← load64 (n_next tmp);
    list_del_loop fuel node_ptr prev tmp;;
    zoom writersL release.

(** [node->process->pid] *)
Definition node_pid (node : Z) : M kst Z :=
  p ← load64 (n_process node); loadi (p_pid p).

(** [node->process->pid == proc_ptr->pid] *)
Definition same_pid (proc_ptr node : Z) : M kst bool :=
  pid1 ← node_pid node;
  pid2 ← loadi (p_pid proc_ptr);
  mret (pid1 =? pid2).

(** The search loop of [list_update_rcu]: [found] and the value stored
    through [ptr_to_free]. *)
Definition list_update_loop (fuel : nat) (new_node_ptr proc_ptr prev cur ptr_to_free : Z)
  : M kst (Z * Z) :=
  scan fuel (same_pid proc_ptr) (fun prev cur =>
    nx ← load64 (n_next cur);
    store64 (n_next new_node_ptr) nx;;
    store64 (n_next prev) new_node_ptr;;
    mret (1, cur)) (0, ptr_to_free) prev cur.

(** Returns [found] and the final value of [*ptr_to_free], whose initial
    value is the argument of that name. *)
Definition list_update_rcu (fuel : nat) (new_node_ptr proc_ptr ptr_to_free : Z)
  : M kst (Z * Z) :=
  zoom writersL acquire;;
  rcu_read_lock;;
  h ← list_head;
  cur ← rcu_dereference_pointer h;
  b ← same_pid proc_ptr cur;
  if (b : bool) then
    nx ← load64 (n_next cur);
    store64 (n_next new_node_ptr) nx;;
    rcu_assign_pointer new_node_ptr;;
    rcu_read_unlock;;
    zoom writersL release;;
    mret (1, cur)
  else
    let prev := cur in
    cur ← load64 (n_next cur);
    r ← list_update_loop fuel new_node_ptr proc_ptr prev cur ptr_to_free;
    rcu_read_unlock;;
    zoom writersL release;;
    mret r.

Definition list_del_from_proc_loop (fuel : nat) (proc_ptr prev cur ptr_to_free : Z)
  : M kst (Z * Z) :=
  scan fuel (same_pid proc_ptr) (fun prev cur =>
    unlink_next prev cur;;
    mret (1, cur)) (0, ptr_to_free) prev cur.

Definition list_del_from_proc_rcu (fuel : nat) (proc_ptr ptr_to_free : Z) : M kst (Z * Z) :=
  zoom writersL acquire;;
  rcu_read_lock;;
  h ← list_head;
  cur ← rcu_dereference_pointer h;
  b ← same_pid proc_ptr cur;
  if (b : bool) then
    nx ← load64 (n_next cur);
    rcu_assign_pointer nx;;
    rcu_read_unlock;;
    zoom writersL release;;
    mret (1, cur)
  else
    let prev := cur in
    cur ← load64 (n_next cur);
    r ← list_del_from_proc_loop fuel proc_ptr prev cur ptr_to_free;
    rcu_read_unlock;;
    zoom writersL release;;
    mret r.

Definition init_writers_lock : M kst unit :=
  zoom writersL (zoom lsnd (initlock (strlit "RCU_writers lock"))).

Definition init_list : M kst unit :=
  modify (set_process_list 0);;
  init_writers_lock.

Definition is_empty (l : Z) : Z := if l =? 0 then 1 else 0.

(** ** The list as an abstract sequence of node addresses *)

(** Following [next] from [p] visits exactly the nodes of [l] and then the
    pointer [q]. *)
Fixpoint lseg (m : mem) (p : Z) (l : list Z) (q : Z) : Prop :=
  match l with
  | [] => p = q
  | a :: l' => p = a /\ lseg m (ld64 m (n_next a)) l' q
  end.

(** The chain from [p] to the null pointer. *)
Definition chain (m : mem) (p : Z) (l : list Z) : Prop := lseg m p l 0.

Definition nproc (m : mem) (a : Z) : Z := ld64 m (n_process a).
Definition npid (m : mem) (a : Z) : Z := ldi m (p_pid (nproc m a)).

(** Node [a] and its process are in RAM, and no other node of [l] overlaps
    them. *)
Record node_wf (m : mem) (l : list Z) (a : Z) : Prop := {
  nw_ram : ram a sizeof_node;
  nw_proc : ram (nproc m a) sizeof_proc;
  nw_apart : forall b, b ∈ l -> b <> a -> a + 16 <= b \/ b + 16 <= a;
  nw_proc_apart : forall b, b ∈ l -> b + 16 <= nproc m a \/ nproc m a + 376 <= b
}.

Record list_wf (s : kst) (l : list Z) : Prop := {
  lw_hart : hart_ok (k_hart s);
  lw_lock : lock_free (rcu_writers_lock (k_plist s));
  lw_chain : chain (k_mem s) (process_list (k_plist s)) l;
  lw_nodup : NoDup l;
  lw_nodes : forall a, a ∈ l -> node_wf (k_mem s) l a
}.

Lemma lseg_app m p l1 l2 q :
  lseg m p (l1 ++ l2) q <-> exists r, lseg m p l1 r /\ lseg m r l2 q.
Proof.
  revert p. induction l1 as [|a l1 IH]; intros p; simpl.
  - split; [eauto|]. by intros [r [-> ?]].
  - rewrite IH. naive_solver.
Qed.

Lemma lseg_frame m m' p l q :
  (forall a, a ∈ l -> ld64 m' (n_next a) = ld64 m (n_next a)) -> lseg m p l q -> lseg m' p l q.
Proof.
  revert p. induction l as [|a l IH]; intros p H; simpl; [done|].
  intros [-> Hl]. split; [done|]. rewrite H by set_solver. apply IH; [|done].
  intros b Hb. apply H. set_solver.
Qed.

Lemma lseg_hd m p l q : lseg m p l q -> p = hd q l.
Proof. destruct l; simpl; [done|]. by intros [-> _]. Qed.

Lemma node_nonzero m l a : node_wf m l a -> a <> 0.
Proof. intros [[H _] _ _ _]. unfold KERNBASE in H. lia. Qed.

(** ** Critical sections of the writers' lock

    [inw b s m p] is the state [s] inside the critical section, with memory
    [m] and list head [p]; [b] says whether a read-side section is nested in
    it.  [outw s m p] is the state after the lock has been released. *)
Definition inw (b : bool) (s : kst) (m : mem) (p : Z) : kst :=
  let h := acquired (k_hart s) in
  set_plist (mkPlist p (held (k_hart s) (rcu_writers_lock (k_plist s))))
    (set_hart (if b then pushed h else h) (set_mem m s)).

Definition outw (s : kst) (m : mem) (p : Z) : kst :=
  set_plist (mkPlist p (rcu_writers_lock (k_plist s)))
    (set_hart (settle (k_hart s)) (set_mem m s)).

Lemma inw_mem b s m p : k_mem (inw b s m p) = m.
Proof. done. Qed.

Lemma inw_head b s m p : process_list (k_plist (inw b s m p)) = p.
Proof. done. Qed.

Lemma inw_set_mem b s m p m' : set_mem m' (inw b s m p) = inw b s m' p.
Proof. done. Qed.

Lemma inw_set_head b s m p p' : set_process_list p' (inw b s m p) = inw b s m p'.
Proof. done. Qed.

Lemma wp_writers_acquire s Q :
  hart_ok (k_hart s) -> lock_free (rcu_writers_lock (k_plist s)) ->
  Q tt (inw false s (k_mem s) (process_list (k_plist s))) ->
  wp (zoom writersL acquire) Q s.
Proof.
  intros Hok [Hl _] HQ. apply wp_acquire; [done|done|]. simpl.
  by destruct s as [h m km fp [pl lk] pt tk vm].
Qed.

Lemma wp_writers_release s m p Q :
  hart_ok (k_hart s) -> lock_free (rcu_writers_lock (k_plist s)) ->
  Q tt (outw s m p) -> wp (zoom writersL release) Q (inw false s m p).
Proof.
  intros Hok Hl HQ. apply wp_release; simpl; try done.
  - by apply hart_ok_acquired.
  - rewrite acquired_noff by done. pose proof (cur_noff_nonneg _ Hok). lia.
  - rewrite popped_acquired by done.
    destruct s as [h mm km fp [pl lk] pt tk vm]; simpl in *. unfold outw in HQ; simpl in HQ.
    unfold set_plist, set_hart, set_mem in *; simpl in *. by rewrite lock_free_eta.
Qed.

Lemma wp_rcu_lock s m p Q :
  hart_ok (k_hart s) -> Q tt (inw true s m p) -> wp rcu_read_lock Q (inw false s m p).
Proof.
  intros Hok HQ. apply wp_zoom. eapply wp_eq.
  - apply push_off_eq. simpl. by apply hart_ok_acquired.
  - done.
Qed.

Lemma wp_rcu_unlock s m p Q :
  hart_ok (k_hart s) -> Q tt (inw false s m p) -> wp rcu_read_unlock Q (inw true s m p).
Proof.
  intros Hok HQ. pose proof (hart_ok_acquired _ Hok) as Hok'.
  pose proof (cur_noff_nonneg _ Hok) as Hn. pose proof (acquired_noff _ Hok) as Ha.
  apply wp_zoom. eapply wp_eq.
  - apply pop_off_eq; simpl; [by apply hart_ok_pushed|].
    unfold pushed. rewrite cur_upd by (by apply hart_ok_sie_off). simpl.
    change (cur (sie_off (acquired (k_hart s)))) with (cur (acquired (k_hart s))). lia.
  - simpl. rewrite popped_pushed by done. unfold balanced.
    rewrite upd_id; [done|done|]. rewrite Ha.
    destruct (Z.eqb_spec (c_noff (cur (k_hart s)) + 1) 0); [lia|done].
Qed.

(** ** The search loop *)

Fixpoint first_match (P : Z -> bool) (prev : Z) (post : list Z) : option (Z * Z) :=
  match post with
  | [] => None
  | a :: post' => if P a then Some (prev, a) else first_match P a post'
  end.

Lemma first_match_Some P prev post q x :
  first_match P prev post = Some (q, x) ->
  exists l1 l2, prev :: post = l1 ++ q :: x :: l2 /\ P x = true /\
    forall a, a ∈ tail (l1 ++ [q]) -> P a = false.
Proof.
  revert prev. induction post as [|a post IH]; intros prev; simpl; [done|].
  destruct (P a) eqn:HP.
  - intros [= <- <-]. exists [], post. split; [done|]. split; [done|]. simpl.
    by intros ? ?%elem_of_nil.
  - intros (l1 & l2 & Heq & Hx & Hn)%IH. exists (prev :: l1), l2.
    split; [by rewrite Heq|]. split; [done|]. simpl. intros b Hb.
    destruct l1 as [|c l1]; simpl in *; injection Heq as <- _.
    + apply list_elem_of_singleton in Hb. by subst.
    + apply elem_of_cons in Hb as [->|Hb]; [done|by apply Hn].
Qed.

Lemma first_match_None P prev post :
  first_match P prev post = None -> forall a, a ∈ post -> P a = false.
Proof.
  revert prev. induction post as [|a post IH]; intros prev; simpl.
  - by intros _ ? ?%elem_of_nil.
  - destruct (P a) eqn:HP; [done|]. intros H b [->|Hb]%elem_of_cons; [done|by eapply IH].
Qed.

Lemma scan_eq {R} fuel test act (r0 : R) P s prev cur post :
  ram prev 16 -> ld64 (k_mem s) (n_next prev) = cur ->
  chain (k_mem s) cur post -> (forall a, a ∈ post -> ram a 16) ->
  (forall a, a ∈ post -> test a s = Ret (P a) s) -> (length post < fuel)%nat ->
  scan fuel test act r0 prev cur s =
    match first_match P prev post with
    | None => Ret r0 s
    | Some (q, x) => act q x s
    end.
Proof.
  unfold scan. revert fuel prev cur. induction post as [|a post IH];
    intros fuel prev cur Hp Hnx Hch Hram Ht Hf; (destruct fuel as [|fuel]; [simpl in Hf; lia|]).
  - simpl in Hch. rewrite Hch. done.
  - simpl in Hch. destruct Hch as [-> Hch].
    assert (ram a 16) as Ha by (apply Hram; set_solver).
    assert (a <> 0) by (destruct Ha; unfold KERNBASE in *; lia).
    cbn [loop]. destruct (Z.eqb_spec a 0); [done|].
    rewrite bind_assoc. erewrite bind_ret by (apply Ht; set_solver).
    cbn [first_match]. destruct (P a).
    + unfold mbind, M_bind, mret, M_ret. by destruct (act prev a s).
    + assert (forall b, ram b 16 -> ram (n_next b) 8).
      { unfold ram, n_next. intros; lia. }
      rewrite !bind_assoc. erewrite bind_ret by (apply load_eq; simpl; auto).
      rewrite bind_assoc. erewrite bind_ret by (apply load_eq; simpl; auto).
      unfold mbind, M_bind, mret, M_ret.
      rewrite Hnx. apply IH; simpl in *; try done; try lia; intros; [apply Hram|apply Ht]; set_solver.
Qed.

(** ** Surgery on chains *)

(** A set of nodes that do not overlap each other or each other's processes. *)
Definition pool_wf (m : mem) (L : list Z) : Prop := forall a, a ∈ L -> node_wf m L a.

(** Only [next] fields of nodes of [L] differ. *)
Definition links_only (m m' : mem) (L : list Z) : Prop :=
  forall b, (forall a, a ∈ L -> ~ (n_next a <= b < n_next a + 8)) -> rd m' b = rd m b.

Lemma links_only_refl m L : links_only m m L.
Proof. done. Qed.

Lemma links_only_st m m' L a v :
  a ∈ L -> links_only m m' L -> links_only m (st64 m' (n_next a) v) L.
Proof.
  intros Ha H b Hb. rewrite rd_st_out; [by apply H|]. by apply Hb.
Qed.

Lemma links_only_nproc m m' L a :
  pool_wf m L -> links_only m m' L -> a ∈ L -> nproc m' a = nproc m a.
Proof.
  intros Hp Hl Ha. apply ld_frame. unfold n_process. intros b Hb. apply Hl. intros c Hc.
  destruct (decide (c = a)) as [->|Hne]; [unfold n_next; lia|].
  pose proof (nw_apart _ _ _ (Hp a Ha) c Hc Hne). unfold n_next. lia.
Qed.

Lemma links_only_proc m m' L a b :
  pool_wf m L -> links_only m m' L -> a ∈ L ->
  nproc m a <= b < nproc m a + 376 -> rd m' b = rd m b.
Proof.
  intros Hp Hl Ha Hb. apply Hl. intros c Hc.
  pose proof (nw_proc_apart _ _ _ (Hp a Ha) c Hc). unfold n_next. lia.
Qed.

Lemma links_only_pool m m' L : pool_wf m L -> links_only m m' L -> pool_wf m' L.
Proof.
  intros Hp Hl a Ha. pose proof (Hp a Ha) as [H1 H2 H3 H4].
  pose proof (links_only_nproc _ _ _ _ Hp Hl Ha) as Hn.
  split; try done; rewrite Hn; done.
Qed.

Lemma links_only_npid m m' L a :
  pool_wf m L -> links_only m m' L -> a ∈ L -> npid m' a = npid m a.
Proof.
  intros Hp Hl Ha. unfold npid. rewrite (links_only_nproc _ _ _ _ Hp Hl Ha).
  unfold ldi. f_equal. apply ld_frame. unfold p_pid. intros b Hb.
  apply (links_only_proc _ _ _ _ _ Hp Hl Ha). lia.
Qed.

Lemma pool_sub m L L' : pool_wf m L -> (forall a, a ∈ L' -> a ∈ L) -> pool_wf m L'.
Proof.
  intros Hp Hs a Ha. destruct (Hp a (Hs a Ha)) as [H1 H2 H3 H4].
  split; try done; intros b Hb; [by apply H3, Hs|by apply H4, Hs].
Qed.

(** Writing another node's link does not change this one's. *)
Lemma ld_next_st m L a b v :
  pool_wf m L -> a ∈ L -> b ∈ L -> a <> b ->
  forall m', ld64 (st64 m' (n_next b) v) (n_next a) = ld64 m' (n_next a).
Proof.
  intros Hp Ha Hb Hne m'. apply ld_st_disj.
  pose proof (nw_apart _ _ _ (Hp a Ha) b Hb ltac:(congruence)). unfold n_next. lia.
Qed.

Lemma pool_range m L a : pool_wf m L -> a ∈ L -> 0 <= a < 2 ^ 64.
Proof.
  intros Hp Ha. destruct (Hp a Ha) as [[H1 H2] _ _ _].
  unfold sizeof_node, PHYSTOP, KERNBASE in *. lia.
Qed.

Lemma chain_unlink m L p l1 q x l2 :
  pool_wf m L -> (forall a, a ∈ l1 ++ q :: x :: l2 -> a ∈ L) -> NoDup (l1 ++ q :: x :: l2) ->
  chain m p (l1 ++ q :: x :: l2) ->
  chain (st64 m (n_next q) (ld64 m (n_next x))) p (l1 ++ q :: l2).
Proof.
  intros Hp Hin Hnd Hch. unfold chain in *.
  apply lseg_app in Hch as [r [H1 H2]]. simpl in H2. destruct H2 as [-> [Hx H2]].
  apply NoDup_app in Hnd as (Hnd1 & Hd & Hnd2).
  apply NoDup_cons in Hnd2 as [Hq Hnd2]. apply NoDup_cons in Hnd2 as [Hx' Hnd2].
  apply lseg_app. exists q. split.
  - eapply lseg_frame; [|done]. intros a Ha. eapply ld_next_st; [done|set_solver..|].
    intros ->. eapply Hd; [done|set_solver].
  - simpl. split; [done|]. rewrite ld64_st64 by apply ld64_range.
    eapply lseg_frame; [|done]. intros a Ha. eapply ld_next_st; [done|set_solver..|].
    intros ->. set_solver.
Qed.

(** The store [q->next = n] when [n] already leads to what follows [x]. *)
Lemma chain_splice m L p l1 q x l2 n :
  pool_wf m L -> (forall a, a ∈ l1 ++ q :: x :: l2 -> a ∈ L) -> n ∈ L ->
  n ∉ l1 ++ q :: x :: l2 -> NoDup (l1 ++ q :: x :: l2) ->
  ld64 m (n_next n) = ld64 m (n_next x) -> chain m p (l1 ++ q :: x :: l2) ->
  chain (st64 m (n_next q) n) p (l1 ++ q :: n :: l2).
Proof.
  intros Hp Hin HnL Hn Hnd Hnx Hch. unfold chain in *.
  apply lseg_app in Hch as [r [H1 H2]]. simpl in H2. destruct H2 as [-> [Hx H2]].
  apply NoDup_app in Hnd as (Hnd1 & Hd & Hnd2).
  apply NoDup_cons in Hnd2 as [Hq Hnd2]. apply NoDup_cons in Hnd2 as [Hx' Hnd2].
  assert (q ∈ L /\ n <> q) as [HqL Hnq].
  { split; [apply Hin; set_solver|]. intros ->. apply Hn. set_solver. }
  apply lseg_app. exists q. split.
  - eapply lseg_frame; [|done]. intros a Ha. apply (ld_next_st m L); [done| |done|].
    + apply Hin. set_solver.
    + intros ->. apply (Hd q Ha). set_solver.
  - simpl. split; [done|]. rewrite ld64_st64 by (by eapply pool_range). split; [done|].
    rewrite (ld_next_st m L n q), Hnx by done.
    eapply lseg_frame; [|done]. intros a Ha. apply (ld_next_st m L); [done| |done|].
    + apply Hin. set_solver.
    + intros ->. apply Hq. set_solver.
Qed.

Lemma chain_replace m L p l1 q x l2 n :
  pool_wf m L -> (forall a, a ∈ l1 ++ q :: x :: l2 -> a ∈ L) -> n ∈ L ->
  n ∉ l1 ++ q :: x :: l2 -> NoDup (l1 ++ q :: x :: l2) ->
  chain m p (l1 ++ q :: x :: l2) ->
  chain (st64 (st64 m (n_next n) (ld64 m (n_next x))) (n_next q) n) p (l1 ++ q :: n :: l2).
Proof.
  intros Hp Hin HnL Hn Hnd Hch.
  assert (links_only m (st64 m (n_next n) (ld64 m (n_next x))) L) as Ho.
  { apply links_only_st; [done|apply links_only_refl]. }
  assert (forall a, a ∈ l1 ++ q :: x :: l2 ->
    ld64 (st64 m (n_next n) (ld64 m (n_next x))) (n_next a) = ld64 m (n_next a)) as Hf.
  { intros a Ha. apply (ld_next_st m L); auto. by intros ->. }
  eapply chain_splice; try done; [by eapply links_only_pool| |by eapply lseg_frame].
  rewrite ld64_st64 by apply ld64_range. symmetry. apply Hf. set_solver.
Qed.

(** Storing into a node that is not on the chain leaves the chain alone. *)
Lemma chain_st_new m L p l n v :
  pool_wf m L -> (forall a, a ∈ l -> a ∈ L) -> n ∈ L -> n ∉ l ->
  chain m p l -> chain (st64 m (n_next n) v) p l.
Proof.
  intros Hp Hin HnL Hn. apply lseg_frame. intros a Ha.
  apply (ld_next_st m L); auto. by intros ->.
Qed.

Lemma list_wf_intro s m p l L :
  hart_ok (k_hart s) -> lock_free (rcu_writers_lock (k_plist s)) ->
  pool_wf m L -> (forall a, a ∈ l -> a ∈ L) -> NoDup l -> chain m p l ->
  list_wf (outw s m p) l.
Proof.
  intros Hok Hl Hp Hin Hnd Hch. split; simpl; try done.
  - by apply hart_ok_settle.
  - by apply (pool_sub m L).
Qed.

(** ** What the operations do to the list *)

Lemma first_match_app P h t l0 q x l2 :
  h :: t = l0 ++ [q] -> (forall a, a ∈ t -> P a = false) -> P x = true ->
  first_match P h (t ++ x :: l2) = Some (q, x).
Proof.
  revert h l0. induction t as [|a t IH]; intros h l0 Heq Ht Hx; simpl.
  - destruct l0 as [|c [|d l0]]; simplify_eq/=. by rewrite Hx.
  - rewrite Ht by set_solver. destruct l0 as [|c l0]; simplify_eq/=.
    apply (IH _ l0); [done| |done]. intros b Hb. apply Ht. set_solver.
Qed.

Lemma first_match_none P h t : (forall a, a ∈ t -> P a = false) -> first_match P h t = None.
Proof.
  revert h. induction t as [|a t IH]; intros h Ht; simpl; [done|].
  rewrite Ht by set_solver. apply IH. set_solver.
Qed.

Lemma ram_next a : ram a 16 -> ram (n_next a) 8.
Proof. unfold ram, n_next. lia. Qed.

Lemma ram_process a : ram a 16 -> ram (n_process a) 8.
Proof. unfold ram, n_process. lia. Qed.

Lemma ram_pid p : ram p 376 -> ram (p_pid p) 4.
Proof. unfold ram, p_pid. lia. Qed.

Lemma pool_ram m L a : pool_wf m L -> a ∈ L -> ram a 16.
Proof. intros Hp Ha. by destruct (Hp a Ha). Qed.

#[local] Hint Resolve ram_next ram_process ram_pid pool_ram : xv6.

Lemma same_pid_eq m L pr a s :
  k_mem s = m -> pool_wf m L -> a ∈ L -> ram pr 376 ->
  same_pid pr a s = Ret (npid m a =? ldi m (p_pid pr)) s.
Proof.
  intros <- Hp Ha Hpr. destruct (Hp a Ha) as [H1 H2 H3 H4].
  unfold same_pid, node_pid, loadi. rewrite !bind_assoc.
  erewrite bind_ret by (apply load_eq; by apply ram_process).
  rewrite !bind_assoc. erewrite bind_ret by (apply load_eq; by apply ram_pid).
  unfold mbind, M_bind, mret, M_ret. by rewrite load_eq by (by apply ram_pid).
Qed.

(** Enter the critical section and read the head. *)
Ltac enter :=
  apply wp_bind, wp_writers_acquire; [done|done|].
Ltac enter_rcu :=
  enter; apply wp_bind, wp_rcu_lock; [done|];
  apply wp_bind, wp_gets; rewrite inw_head; apply wp_bind, wp_ret.
Ltac leave := apply wp_writers_release; [done|done|].
Ltac leave_rcu := apply wp_bind, wp_rcu_unlock; [done|].

(** The store by which a writer changes what readers can reach: from a list
    to the memory, head and list after, and the node taken out.  [L] are the
    nodes a reader may hold. *)
Inductive publish (m : mem) (head : Z) (L : list Z) :
    list Z -> mem -> Z -> list Z -> option Z -> Prop :=
| pub_add l n :                                (** [*list_ptr = node_ptr] *)
    n ∉ L -> ld64 m (n_next n) = head ->
    publish m head L l m n (n :: l) None
| pub_replace_head x l2 n :                    (** [*list_ptr = new_node_ptr] *)
    n ∉ L -> ld64 m (n_next n) = ld64 m (n_next x) ->
    publish m head L (x :: l2) m n (n :: l2) (Some x)
| pub_replace l1 q x l2 n :                    (** [prev->next = new_node_ptr] *)
    n ∉ L -> ld64 m (n_next n) = ld64 m (n_next x) ->
    publish m head L (l1 ++ q :: x :: l2) (st64 m (n_next q) n) head (l1 ++ q :: n :: l2) (Some x)
| pub_del_head x l2 :                          (** [*list_ptr = cur->next] *)
    publish m head L (x :: l2) m (ld64 m (n_next x)) l2 (Some x)
| pub_del l1 q x l2 :                          (** [prev->next = cur->next] *)
    publish m head L (l1 ++ q :: x :: l2) (st64 m (n_next q) (ld64 m (n_next x))) head
      (l1 ++ q :: l2) (Some x).

(** What a writer leaves in the state: stores to the [next] field of the
    nodes [ns], which no reader can reach yet, then one publishing store. *)
Definition publishes (s s' : kst) (ns L l l' : list Z) (x : option Z) : Prop :=
  exists m1, links_only (k_mem s) m1 ns /\
    publish m1 (process_list (k_plist s)) L l (k_mem s') (process_list (k_plist s')) l' x.

Lemma list_add_rcu_wf s l n :
  list_wf s l -> pool_wf (k_mem s) (n :: l) -> n ∉ l ->
  wp (list_add_rcu n) (fun _ s' =>
    (list_wf s' (n :: l) /\ links_only (k_mem s) (k_mem s') [n]) /\
    forall L, n ∉ L -> publishes s s' [n] L l (n :: l) None) s.
Proof.
  intros [Hok Hl Hch Hnd Hns] Hp Hn. unfold list_add_rcu. enter_rcu.
  apply wp_bind, wp_store; [apply ram_next; eapply pool_ram; [done|set_solver]|].
  rewrite inw_mem, inw_set_mem. leave_rcu.
  apply wp_bind, wp_modify. rewrite inw_set_head. leave.
  assert (links_only (k_mem s) (st64 (k_mem s) (n_next n) (process_list (k_plist s))) (n :: l)).
  { apply links_only_st; [set_solver|apply links_only_refl]. }
  assert (links_only (k_mem s) (st64 (k_mem s) (n_next n) (process_list (k_plist s))) [n]).
  { apply links_only_st; [set_solver|apply links_only_refl]. }
  assert (0 <= process_list (k_plist s) < 2 ^ 64).
  { rewrite (lseg_hd _ _ _ _ Hch). destruct l as [|a l]; simpl; [lia|].
    eapply pool_range; [done|set_solver]. }
  split; [split; [|done]|].
  - eapply list_wf_intro; try done; [by eapply links_only_pool|by constructor|].
    split; [done|]. rewrite ld64_st64 by done. eapply chain_st_new; try done; set_solver.
  - intros L HL. exists (st64 (k_mem s) (n_next n) (process_list (k_plist s))).
    split; [done|]. refine (pub_add _ _ _ _ _ HL _). by apply ld64_st64.
Qed.

(** [x] is the first node of [l1 ++ x :: l2] whose process has the pid of [pr]. *)
Definition first_pid (m : mem) (pr : Z) (l1 : list Z) (x : Z) : Prop :=
  npid m x = ldi m (p_pid pr) /\ forall a, a ∈ l1 -> npid m a <> ldi m (p_pid pr).

Lemma first_pid_test m pr l1 x :
  first_pid m pr l1 x ->
  (npid m x =? ldi m (p_pid pr)) = true /\
  forall a, a ∈ l1 -> (npid m a =? ldi m (p_pid pr)) = false.
Proof. intros [H1 H2]. split; [by apply Z.eqb_eq|]. intros a Ha. by apply Z.eqb_neq, H2. Qed.

(** The last node of a non-empty prefix. *)
Lemma prefix_last (h : Z) t : exists l0 q, h :: t = l0 ++ [q].
Proof. destruct (exists_last (l := h :: t)) as (l0 & q & H); [done|]. eauto. Qed.

Lemma prefix_app (h : Z) t l0 q y r :
  h :: t = l0 ++ [q] -> h :: t ++ y :: r = l0 ++ q :: y :: r.
Proof. intros H. by rewrite app_comm_cons, H, <- app_assoc. Qed.

(** The loops of [list_update_rcu], [list_del_from_proc_rcu] and
    [list_del_rcu] after the first node [h], inside the critical section. *)
Lemma wp_scan_found {R} b s m p L (test : Z -> M kst bool) P act (r0 : R) Q fuel h t l0 q x l2 :
  pool_wf m L -> (forall a, a ∈ h :: t ++ x :: l2 -> a ∈ L) ->
  chain m p (h :: t ++ x :: l2) -> h :: t = l0 ++ [q] ->
  (forall a, a ∈ L -> test a (inw b s m p) = Ret (P a) (inw b s m p)) ->
  P x = true -> (forall a, a ∈ h :: t -> P a = false) ->
  (length (h :: t ++ x :: l2) <= fuel)%nat ->
  wp (act q x) Q (inw b s m p) ->
  wp (scan fuel test act r0 h (ld64 m (n_next h))) Q (inw b s m p).
Proof.
  intros Hp Hin [-> Hch] Hq Ht Hx Hl Hf HQ. unfold wp at 1.
  erewrite scan_eq with (P := P) (post := t ++ x :: l2); try done.
  - rewrite (first_match_app P h t l0 q); [done|done|set_solver|done].
  - eapply pool_ram; [done|set_solver].
  - intros a Ha. eapply pool_ram; [done|set_solver].
  - intros a Ha. apply Ht. set_solver.
Qed.

Lemma wp_scan_missing {R} b s m p L (test : Z -> M kst bool) P act (r0 : R) Q fuel h t :
  pool_wf m L -> (forall a, a ∈ h :: t -> a ∈ L) -> chain m p (h :: t) ->
  (forall a, a ∈ L -> test a (inw b s m p) = Ret (P a) (inw b s m p)) ->
  (forall a, a ∈ h :: t -> P a = false) -> (length (h :: t) <= fuel)%nat ->
  Q r0 (inw b s m p) ->
  wp (scan fuel test act r0 h (ld64 m (n_next h))) Q (inw b s m p).
Proof.
  intros Hp Hin [-> Hch] Ht Hl Hf HQ. unfold wp at 1.
  erewrite scan_eq with (P := P) (post := t); try done.
  - rewrite first_match_none; [done|set_solver].
  - eapply pool_ram; [done|set_solver].
  - intros a Ha. eapply pool_ram; [done|set_solver].
  - intros a Ha. apply Ht. set_solver.
Qed.

(** The same for the search by pid. *)
Lemma wp_scan_pid_found {R} b s m p L pr act (r0 : R) Q fuel h t x l2 :
  pool_wf m L -> (forall a, a ∈ h :: t ++ x :: l2 -> a ∈ L) ->
  chain m p (h :: t ++ x :: l2) -> ram pr sizeof_proc -> first_pid m pr (h :: t) x ->
  (length (h :: t ++ x :: l2) <= fuel)%nat ->
  (forall l0 q, h :: t = l0 ++ [q] -> wp (act q x) Q (inw b s m p)) ->
  wp (scan fuel (same_pid pr) act r0 h (ld64 m (n_next h))) Q (inw b s m p).
Proof.
  intros Hp Hin Hch Hpr [Hx Hne]%first_pid_test Hf HQ.
  destruct (prefix_last h t) as (l0 & q & Hq).
  apply (wp_scan_found b s m p L _ (fun a => npid m a =? ldi m (p_pid pr)) _ _ _ _ h t l0 q x l2);
    try done; [|by eapply HQ].
  intros a Ha. by apply (same_pid_eq m L).
Qed.

Lemma wp_scan_pid_missing {R} b s m p L pr act (r0 : R) Q fuel h t :
  pool_wf m L -> (forall a, a ∈ h :: t -> a ∈ L) -> chain m p (h :: t) -> ram pr sizeof_proc ->
  (forall a, a ∈ h :: t -> npid m a <> ldi m (p_pid pr)) -> (length (h :: t) <= fuel)%nat ->
  Q r0 (inw b s m p) ->
  wp (scan fuel (same_pid pr) act r0 h (ld64 m (n_next h))) Q (inw b s m p).
Proof.
  intros Hp Hin Hch Hpr Hne Hf HQ.
  apply (wp_scan_missing b s m p L _ (fun a => npid m a =? ldi m (p_pid pr)) _ _ _ _ h t);
    try done.
  - intros a Ha. by apply (same_pid_eq m L).
  - intros a Ha. by apply Z.eqb_neq, Hne.
Qed.

Lemma NoDup_swap (l0 : list Z) q x l2 n :
  n ∉ l0 ++ q :: x :: l2 -> NoDup (l0 ++ q :: x :: l2) -> NoDup (l0 ++ q :: n :: l2).
Proof.
  rewrite !NoDup_app, !NoDup_cons. set_solver.
Qed.

(** The list after [x], which follows [q], has been replaced by [n]. *)
Lemma list_wf_replace s m p l0 q x l2 n :
  let l := l0 ++ q :: x :: l2 in
  let m' := st64 (st64 m (n_next n) (ld64 m (n_next x))) (n_next q) n in
  hart_ok (k_hart s) -> lock_free (rcu_writers_lock (k_plist s)) ->
  pool_wf m (n :: l) -> NoDup l -> n ∉ l -> chain m p l ->
  list_wf (outw s m' p) (l0 ++ q :: n :: l2) /\ links_only m m' (n :: l).
Proof.
  intros l m' Hok Hl Hp Hnd Hn Hch.
  assert (links_only m m' (n :: l)) as Ho.
  { apply links_only_st; [set_solver|]. apply links_only_st; [set_solver|apply links_only_refl]. }
  split; [|done].
  eapply list_wf_intro; [done|done|exact (links_only_pool _ _ _ Hp Ho)|set_solver| |].
  - by eapply NoDup_swap.
  - eapply chain_replace; try done; set_solver.
Qed.

(** The list after [x], which follows [q], has been taken out. *)
Lemma list_wf_unlink s m p l0 q x l2 :
  let l := l0 ++ q :: x :: l2 in
  let m' := st64 m (n_next q) (ld64 m (n_next x)) in
  hart_ok (k_hart s) -> lock_free (rcu_writers_lock (k_plist s)) ->
  pool_wf m l -> NoDup l -> chain m p l ->
  list_wf (outw s m' p) (l0 ++ q :: l2) /\ links_only m m' l.
Proof.
  intros l m' Hok Hl Hp Hnd Hch.
  assert (links_only m m' l) as Ho.
  { apply links_only_st; [set_solver|apply links_only_refl]. }
  split; [|done].
  eapply list_wf_intro; [done|done|exact (links_only_pool _ _ _ Hp Ho)|set_solver| |].
  - unfold l in Hnd. revert Hnd. rewrite !NoDup_app, !NoDup_cons. set_solver.
  - eapply chain_unlink; try done; set_solver.
Qed.

Lemma chain_hd m p a l : chain m p (a :: l) -> p = a.
Proof. by intros [-> _]. Qed.

(** Head of the list and pid test at the start of an operation. *)
Ltac test_head Hp Hpr :=
  apply wp_bind; eapply wp_eq; [eapply same_pid_eq; [apply inw_mem|exact Hp|set_solver|exact Hpr]|].

(** The new node leads to what follows [x]; then it takes the place of [x]. *)
Lemma next_copied m L n x :
  pool_wf m L -> n ∈ L -> x ∈ L -> n <> x ->
  let m1 := st64 m (n_next n) (ld64 m (n_next x)) in
  links_only m m1 [n] /\ ld64 m1 (n_next n) = ld64 m1 (n_next x).
Proof.
  intros Hp Hn Hx Hne m1. split.
  - apply links_only_st; [set_solver|apply links_only_refl].
  - unfold m1. rewrite ld64_st64 by apply ld64_range.
    symmetry. by apply (ld_next_st m L).
Qed.

Lemma publishes_replace_head s L0 x l2 n L :
  pool_wf (k_mem s) L0 -> n ∈ L0 -> x ∈ L0 -> n <> x -> n ∉ L ->
  publishes s (outw s (st64 (k_mem s) (n_next n) (ld64 (k_mem s) (n_next x))) n)
    [n] L (x :: l2) (n :: l2) (Some x).
Proof.
  intros Hp Hn Hx Hne HL. destruct (next_copied _ _ _ _ Hp Hn Hx Hne) as [H1 H2].
  eexists. split; [exact H1|]. by apply pub_replace_head.
Qed.

Lemma publishes_replace s L0 l1 q x l2 n L :
  pool_wf (k_mem s) L0 -> n ∈ L0 -> x ∈ L0 -> n <> x -> n ∉ L ->
  publishes s (outw s (st64 (st64 (k_mem s) (n_next n) (ld64 (k_mem s) (n_next x))) (n_next q) n)
      (process_list (k_plist s)))
    [n] L (l1 ++ q :: x :: l2) (l1 ++ q :: n :: l2) (Some x).
Proof.
  intros Hp Hn Hx Hne HL. destruct (next_copied _ _ _ _ Hp Hn Hx Hne) as [H1 H2].
  eexists. split; [exact H1|]. by apply pub_replace.
Qed.

Lemma list_update_rcu_head s x l2 n pr fr fuel :
  list_wf s (x :: l2) -> pool_wf (k_mem s) (n :: x :: l2) -> n ∉ x :: l2 ->
  ram pr sizeof_proc -> first_pid (k_mem s) pr [] x ->
  wp (list_update_rcu fuel n pr fr) (fun r s' =>
    (r = (1, x) /\ list_wf s' (n :: l2) /\ links_only (k_mem s) (k_mem s') (n :: x :: l2)) /\
    forall L, n ∉ L -> publishes s s' [n] L (x :: l2) (n :: l2) (Some x)) s.
Proof.
  intros [Hok Hl Hch Hnd Hns] Hp Hn Hpr [Hx _]%first_pid_test.
  unfold list_update_rcu. enter_rcu. rewrite (chain_hd _ _ _ _ Hch).
  test_head Hp Hpr. rewrite Hx.
  apply wp_bind, wp_load; [eauto using pool_ram, ram_next with set_solver|].
  apply wp_bind, wp_store; [eapply ram_next, pool_ram; [done|set_solver]|].
  rewrite inw_mem, inw_set_mem. apply wp_bind, wp_modify. rewrite inw_set_head.
  leave_rcu. apply wp_bind. leave. apply wp_ret.
  assert (links_only (k_mem s) (st64 (k_mem s) (n_next n) (ld64 (k_mem s) (n_next x)))
    (n :: x :: l2)) as Ho.
  { apply links_only_st; [set_solver|apply links_only_refl]. }
  split; [|intros L HL; eapply publishes_replace_head; try done; set_solver].
  split; [done|]. split; [|done]. apply NoDup_cons in Hnd as [Hx2 Hnd].
  eapply list_wf_intro; [done|done|exact (links_only_pool _ _ _ Hp Ho)|set_solver|
    constructor; [set_solver|done]|].
  split; [done|]. rewrite ld64_st64 by apply ld64_range.
  eapply chain_st_new; try done; [set_solver..|]. by destruct Hch.
Qed.

Lemma list_update_rcu_rest s h t x l2 n pr fr fuel :
  let l := h :: t ++ x :: l2 in
  list_wf s l -> pool_wf (k_mem s) (n :: l) -> n ∉ l ->
  ram pr sizeof_proc -> first_pid (k_mem s) pr (h :: t) x -> (length l <= fuel)%nat ->
  wp (list_update_rcu fuel n pr fr) (fun r s' =>
    (r = (1, x) /\ list_wf s' (h :: t ++ n :: l2) /\
     links_only (k_mem s) (k_mem s') (n :: l)) /\
    forall L, n ∉ L -> publishes s s' [n] L l (h :: t ++ n :: l2) (Some x)) s.
Proof.
  intros l [Hok Hl Hch Hnd Hns] Hp Hn Hpr Hfp Hf.
  pose proof (first_pid_test _ _ _ _ Hfp) as [Hx Hne].
  pose proof (chain_hd _ _ _ _ Hch) as Hh.
  unfold list_update_rcu. enter_rcu. rewrite Hh in *.
  test_head Hp Hpr. rewrite Hne by set_solver.
  apply wp_bind, wp_load; [eapply ram_next, pool_ram; [done|set_solver]|]. rewrite inw_mem.
  apply wp_bind. apply (wp_scan_pid_found true s (k_mem s) h (n :: l) pr _ _ _ _ h t x l2);
    try done; [set_solver|].
  intros l0 q Hq. assert (q ∈ h :: t) by (rewrite Hq; set_solver).
  apply wp_bind, wp_load; [eapply ram_next, pool_ram; [done|set_solver]|]. rewrite inw_mem.
  apply wp_bind, wp_store; [eapply ram_next, pool_ram; [done|set_solver]|].
  rewrite inw_set_mem, inw_mem.
  apply wp_bind, wp_store; [eapply ram_next, pool_ram; [done|set_solver]|].
  rewrite inw_set_mem, inw_mem. apply wp_ret.
  leave_rcu. apply wp_bind. leave. apply wp_ret.
  unfold l in *. rewrite (prefix_app _ _ _ _ x l2 Hq) in Hch, Hnd, Hp, Hn |- *.
  rewrite (prefix_app _ _ _ _ n l2 Hq). split; [split; [done|by apply list_wf_replace]|].
  intros L HL. rewrite <- Hh. eapply publishes_replace; [exact Hp|set_solver..|done].
Qed.

(** ** [list_update_rcu] *)

Lemma list_update_rcu_found s l1 x l2 n pr fr fuel :
  let l := l1 ++ x :: l2 in
  list_wf s l -> pool_wf (k_mem s) (n :: l) -> n ∉ l ->
  ram pr sizeof_proc -> first_pid (k_mem s) pr l1 x -> (length l <= fuel)%nat ->
  wp (list_update_rcu fuel n pr fr) (fun r s' =>
    (r = (1, x) /\ list_wf s' (l1 ++ n :: l2) /\
     links_only (k_mem s) (k_mem s') (n :: l)) /\
    forall L, n ∉ L -> publishes s s' [n] L l (l1 ++ n :: l2) (Some x)) s.
Proof.
  destruct l1 as [|h t]; intros l; intros.
  - by apply list_update_rcu_head.
  - by apply list_update_rcu_rest.
Qed.

Lemma list_update_rcu_missing s h t n pr fr fuel :
  list_wf s (h :: t) -> ram pr sizeof_proc ->
  (forall a, a ∈ h :: t -> npid (k_mem s) a <> ldi (k_mem s) (p_pid pr)) ->
  (length (h :: t) <= fuel)%nat ->
  wp (list_update_rcu fuel n pr fr) (fun r s' =>
    r = (0, fr) /\ list_wf s' (h :: t) /\ k_mem s' = k_mem s) s.
Proof.
  intros [Hok Hl Hch Hnd Hns] Hpr Hne Hf. pose proof (chain_hd _ _ _ _ Hch) as Hh.
  unfold list_update_rcu. enter_rcu. rewrite Hh in *.
  test_head Hns Hpr. rewrite (proj2 (Z.eqb_neq _ _)) by (apply Hne; set_solver).
  apply wp_bind, wp_load; [eapply ram_next, pool_ram; [exact Hns|set_solver]|]. rewrite inw_mem.
  apply wp_bind. apply (wp_scan_pid_missing true s (k_mem s) h (h :: t) pr _ _ _ _ h t); try done.
  leave_rcu. apply wp_bind. leave. apply wp_ret. split; [done|]. split; [|done].
  by eapply list_wf_intro.
Qed.

(** ** [list_del_from_proc_rcu] *)

Lemma list_del_from_proc_rcu_head s x l2 pr fr fuel :
  list_wf s (x :: l2) -> ram pr sizeof_proc -> first_pid (k_mem s) pr [] x ->
  wp (list_del_from_proc_rcu fuel pr fr) (fun r s' =>
    (r = (1, x) /\ list_wf s' l2 /\ links_only (k_mem s) (k_mem s') (x :: l2)) /\
    forall L, publishes s s' [] L (x :: l2) l2 (Some x)) s.
Proof.
  intros [Hok Hl Hch Hnd Hns] Hpr [Hx _]%first_pid_test.
  unfold list_del_from_proc_rcu. enter_rcu. rewrite (chain_hd _ _ _ _ Hch).
  test_head Hns Hpr. rewrite Hx.
  apply wp_bind, wp_load; [eapply ram_next, pool_ram; [exact Hns|set_solver]|].
  rewrite inw_mem. apply wp_bind, wp_modify. rewrite inw_set_head.
  leave_rcu. apply wp_bind. leave. apply wp_ret.
  split; [|intros L; exists (k_mem s); split; [done|by apply pub_del_head]].
  split; [done|]. split; [|done].
  apply NoDup_cons in Hnd as [Hx2 Hnd]. eapply list_wf_intro; [done|done|exact Hns|set_solver|done|].
  by destruct Hch.
Qed.

Lemma list_del_from_proc_rcu_rest s h t x l2 pr fr fuel :
  let l := h :: t ++ x :: l2 in
  list_wf s l -> ram pr sizeof_proc -> first_pid (k_mem s) pr (h :: t) x ->
  (length l <= fuel)%nat ->
  wp (list_del_from_proc_rcu fuel pr fr) (fun r s' =>
    (r = (1, x) /\ list_wf s' (h :: t ++ l2) /\ links_only (k_mem s) (k_mem s') l) /\
    forall L, publishes s s' [] L l (h :: t ++ l2) (Some x)) s.
Proof.
  intros l [Hok Hl Hch Hnd Hns] Hpr Hfp Hf. pose proof (first_pid_test _ _ _ _ Hfp) as [Hx Hne].
  pose proof (chain_hd _ _ _ _ Hch) as Hh. unfold list_del_from_proc_rcu. enter_rcu.
  rewrite Hh in *. test_head Hns Hpr. rewrite Hne by set_solver.
  apply wp_bind, wp_load; [eapply ram_next, pool_ram; [exact Hns|set_solver]|]. rewrite inw_mem.
  apply wp_bind. apply (wp_scan_pid_found true s (k_mem s) h l pr _ _ _ _ h t x l2); try done.
  intros l0 q Hq. assert (q ∈ h :: t) by (rewrite Hq; set_solver).
  apply wp_bind, wp_bind, wp_load; [eapply ram_next, pool_ram; [exact Hns|set_solver]|].
  rewrite inw_mem. apply wp_store; [eapply ram_next, pool_ram; [exact Hns|set_solver]|].
  rewrite inw_set_mem, inw_mem. apply wp_ret.
  leave_rcu. apply wp_bind. leave. apply wp_ret.
  unfold l in *. rewrite (prefix_app _ _ _ _ x l2 Hq) in Hch, Hnd, Hns |- *.
  replace (h :: t ++ l2) with (l0 ++ q :: l2) by (by rewrite app_comm_cons, Hq, <- app_assoc).
  split; [split; [done|by apply list_wf_unlink]|].
  intros L. exists (k_mem s). split; [done|]. simpl. rewrite Hh. apply pub_del.
Qed.

Lemma list_del_from_proc_rcu_found s l1 x l2 pr fr fuel :
  let l := l1 ++ x :: l2 in
  list_wf s l -> ram pr sizeof_proc -> first_pid (k_mem s) pr l1 x -> (length l <= fuel)%nat ->
  wp (list_del_from_proc_rcu fuel pr fr) (fun r s' =>
    (r = (1, x) /\ list_wf s' (l1 ++ l2) /\ links_only (k_mem s) (k_mem s') l) /\
    forall L, publishes s s' [] L l (l1 ++ l2) (Some x)) s.
Proof.
  destruct l1 as [|h t]; intros l; intros.
  - by apply list_del_from_proc_rcu_head.
  - by apply list_del_from_proc_rcu_rest.
Qed.

Lemma list_del_from_proc_rcu_missing s h t pr fr fuel :
  list_wf s (h :: t) -> ram pr sizeof_proc ->
  (forall a, a ∈ h :: t -> npid (k_mem s) a <> ldi (k_mem s) (p_pid pr)) ->
  (length (h :: t) <= fuel)%nat ->
  wp (list_del_from_proc_rcu fuel pr fr) (fun r s' =>
    r = (0, fr) /\ list_wf s' (h :: t) /\ k_mem s' = k_mem s) s.
Proof.
  intros [Hok Hl Hch Hnd Hns] Hpr Hne Hf. pose proof (chain_hd _ _ _ _ Hch) as Hh.
  unfold list_del_from_proc_rcu. enter_rcu. rewrite Hh in *.
  test_head Hns Hpr. rewrite (proj2 (Z.eqb_neq _ _)) by (apply Hne; set_solver).
  apply wp_bind, wp_load; [eapply ram_next, pool_ram; [exact Hns|set_solver]|]. rewrite inw_mem.
  apply wp_bind. apply (wp_scan_pid_missing true s (k_mem s) h (h :: t) pr _ _ _ _ h t); try done.
  leave_rcu. apply wp_bind. leave. apply wp_ret. split; [done|]. split; [|done].
  by eapply list_wf_intro.
Qed.

(** ** [list_del_rcu] *)

Lemma list_del_rcu_found s l1 x l2 fuel :
  let l := l1 ++ x :: l2 in
  list_wf s l -> (length l <= fuel)%nat ->
  wp (list_del_rcu fuel x) (fun _ s' =>
    list_wf s' (l1 ++ l2) /\ links_only (k_mem s) (k_mem s') l) s.
Proof.
  intros l [Hok Hl Hch Hnd Hns] Hf. unfold list_del_rcu. apply wp_bind, wp_gets.
  assert (hd 0 l ∈ l) as Hhd by (unfold l; destruct l1; set_solver).
  pose proof (lseg_hd _ _ _ _ Hch) as Hh. rewrite Hh in *.
  destruct (Z.eqb_spec (hd 0 l) 0) as [E|_].
  { by apply (node_nonzero _ _ _ (Hns _ Hhd)) in E. }
  enter. rewrite Hh. apply wp_bind, wp_gets. rewrite inw_head. apply wp_bind, wp_ret.
  destruct l1 as [|h t]; simpl in l; unfold l in *; cbn [hd app] in *.
  - rewrite Z.eqb_refl. apply wp_bind, wp_load; [eapply ram_next, pool_ram; [exact Hns|set_solver]|].
    rewrite inw_mem. apply wp_bind, wp_modify. rewrite inw_set_head. leave. split; [|done].
    apply NoDup_cons in Hnd as [Hx2 Hnd].
    eapply list_wf_intro; [done|done|exact Hns|set_solver|done|]. by destruct Hch.
  - assert (h <> x /\ forall a, a ∈ t -> a <> x) as [Hhx Htx].
    { revert Hnd. rewrite NoDup_cons, NoDup_app. set_solver. }
    rewrite (proj2 (Z.eqb_neq h x)) by done.
    apply wp_bind, wp_load; [eapply ram_next, pool_ram; [exact Hns|set_solver]|]. rewrite inw_mem.
    destruct (prefix_last h t) as (l0 & q & Hq). assert (q ∈ h :: t) by (rewrite Hq; set_solver).
    apply wp_bind. eapply (wp_scan_found false s (k_mem s) h (h :: t ++ x :: l2) _
      (fun a => a =? x) _ _ _ _ h t l0 q x l2); try done.
    + apply Z.eqb_refl.
    + intros a Ha. apply Z.eqb_neq. set_solver.
    + apply wp_bind, wp_load; [eapply ram_next, pool_ram; [exact Hns|set_solver]|].
      rewrite inw_mem. apply wp_store; [eapply ram_next, pool_ram; [exact Hns|set_solver]|].
      rewrite inw_set_mem, inw_mem. leave.
      rewrite (prefix_app _ _ _ _ x l2 Hq) in Hch, Hnd, Hns |- *.
      replace (h :: t ++ l2) with (l0 ++ q :: l2) by (by rewrite app_comm_cons, Hq, <- app_assoc).
      by apply list_wf_unlink.
Qed.

(** ** The abstract list and the refinement *)

(** Replace, or remove, the first node that passes the test: the node taken
    out and the new list. *)
Fixpoint replace_first (P : Z -> bool) (n : Z) (l : list Z) : option (Z * list Z) :=
  match l with
  | [] => None
  | a :: l' =>
      if P a then Some (a, n :: l')
      else match replace_first P n l' with
           | Some (x, r) => Some (x, a :: r)
           | None => None
           end
  end.

Fixpoint remove_first (P : Z -> bool) (l : list Z) : option (Z * list Z) :=
  match l with
  | [] => None
  | a :: l' =>
      if P a then Some (a, l')
      else match remove_first P l' with
           | Some (x, r) => Some (x, a :: r)
           | None => None
           end
  end.

Lemma replace_first_spec P n l :
  match replace_first P n l with
  | Some (x, r) => exists l1 l2, l = l1 ++ x :: l2 /\ r = l1 ++ n :: l2 /\ P x = true /\
                     forall a, a ∈ l1 -> P a = false
  | None => forall a, a ∈ l -> P a = false
  end.
Proof.
  induction l as [|a l IH]; simpl; [set_solver|]. destruct (P a) eqn:HP.
  - exists [], l. split; [done|]. split; [done|]. split; [done|set_solver].
  - destruct (replace_first P n l) as [[x r]|]; [|set_solver].
    destruct IH as (l1 & l2 & -> & -> & Hx & Hn). exists (a :: l1), l2. set_solver.
Qed.

Lemma remove_first_spec P l :
  match remove_first P l with
  | Some (x, r) => exists l1 l2, l = l1 ++ x :: l2 /\ r = l1 ++ l2 /\ P x = true /\
                     forall a, a ∈ l1 -> P a = false
  | None => forall a, a ∈ l -> P a = false
  end.
Proof.
  induction l as [|a l IH]; simpl; [set_solver|]. destruct (P a) eqn:HP.
  - exists [], l. split; [done|]. split; [done|]. split; [done|set_solver].
  - destruct (remove_first P l) as [[x r]|]; [|set_solver].
    destruct IH as (l1 & l2 & -> & -> & Hx & Hn). exists (a :: l1), l2. set_solver.
Qed.

(** Has node [a] the pid of process [pr]? *)
Definition has_pid (m : mem) (pr a : Z) : bool := npid m a =? ldi m (p_pid pr).

Lemma has_pid_first m pr l1 x :
  has_pid m pr x = true -> (forall a, a ∈ l1 -> has_pid m pr a = false) -> first_pid m pr l1 x.
Proof.
  unfold has_pid. intros Hx Hn. split; [by apply Z.eqb_eq|]. intros a Ha. by apply Z.eqb_neq, Hn.
Qed.

(** ** Claims *)

(** [list_add_rcu] of a fresh node gives the list with the node in front.
    The lock is free again, and of memory only the new node's [next] field
    has changed. *)
Theorem list_add_rcu_refines s l n :
  list_wf s l -> pool_wf (k_mem s) (n :: l) -> n ∉ l ->
  wp (list_add_rcu n) (fun _ s' =>
    list_wf s' (n :: l) /\ links_only (k_mem s) (k_mem s') [n]) s.
Proof.
  intros. eapply wp_conseq; [by apply list_add_rcu_wf|]. by intros a s' [? _].
Qed.

(** C6: [list_update_rcu] replaces the first node whose process has the pid
    of [pr] by the new node and reports the node taken out through
    [ptr_to_free]; it returns 0 and changes nothing when there is none.  It
    terminates, and only [next] fields are written: no node changes process. *)
Theorem list_update_rcu_refines s l n pr fr fuel :
  list_wf s l -> l <> [] -> pool_wf (k_mem s) (n :: l) -> n ∉ l ->
  ram pr sizeof_proc -> (length l <= fuel)%nat ->
  wp (list_update_rcu fuel n pr fr) (fun r s' =>
    match replace_first (has_pid (k_mem s) pr) n l with
    | Some (x, l') => r = (1, x) /\ list_wf s' l' /\ links_only (k_mem s) (k_mem s') (n :: l)
    | None => r = (0, fr) /\ list_wf s' l /\ k_mem s' = k_mem s
    end) s.
Proof.
  intros Hwf Hne Hp Hn Hpr Hf. pose proof (replace_first_spec (has_pid (k_mem s) pr) n l) as Hs.
  destruct (replace_first _ n l) as [[x r]|].
  - destruct Hs as (l1 & l2 & -> & -> & Hx & Hl1).
    eapply wp_conseq; [apply list_update_rcu_found; try done; by apply has_pid_first|].
    by intros a s' [? _].
  - destruct l as [|h t]; [done|]. apply list_update_rcu_missing; try done.
    intros a Ha. by apply Z.eqb_neq, Hs.
Qed.

(** C17: [list_del_from_proc_rcu] removes the first node whose process has the
    pid of [pr] and reports it through [ptr_to_free]; it returns 0 and
    changes nothing when there is none.  Only [next] fields are written. *)
Theorem list_del_from_proc_rcu_refines s l pr fr fuel :
  list_wf s l -> l <> [] -> ram pr sizeof_proc -> (length l <= fuel)%nat ->
  wp (list_del_from_proc_rcu fuel pr fr) (fun r s' =>
    match remove_first (has_pid (k_mem s) pr) l with
    | Some (x, l') => r = (1, x) /\ list_wf s' l' /\ links_only (k_mem s) (k_mem s') l
    | None => r = (0, fr) /\ list_wf s' l /\ k_mem s' = k_mem s
    end) s.
Proof.
  intros Hwf Hne Hpr Hf. pose proof (remove_first_spec (has_pid (k_mem s) pr) l) as Hs.
  destruct (remove_first _ l) as [[x r]|].
  - destruct Hs as (l1 & l2 & -> & -> & Hx & Hl1).
    eapply wp_conseq; [apply list_del_from_proc_rcu_found; try done; by apply has_pid_first|].
    by intros a s' [? _].
  - destruct l as [|h t]; [done|]. apply list_del_from_proc_rcu_missing; try done.
    intros a Ha. by apply Z.eqb_neq, Hs.
Qed.

(** On an empty list both [list_update_rcu] and [list_del_from_proc_rcu]
    take a page fault at address 0: they read [head->process] before any test
    of the head.  The writers' lock is still held at that point. *)
Theorem list_search_empty_faults s n pr fr fuel :
  list_wf s [] ->
  (exists s', list_update_rcu fuel n pr fr s = Err (EFault 0) s' /\
     lk_locked (rcu_writers_lock (k_plist s')) = 1) /\
  (exists s', list_del_from_proc_rcu fuel pr fr s = Err (EFault 0) s' /\
     lk_locked (rcu_writers_lock (k_plist s')) = 1).
Proof.
  intros [Hok Hl Hch _ _]. simpl in Hch.
  assert (forall A (k : unit -> M kst A), (zoom writersL acquire ≫= k) s =
    k tt (inw false s (k_mem s) 0)) as Ha.
  { intros A k. apply bind_ret, wp_ret_eq. apply wp_writers_acquire; [done..|]. by rewrite Hch. }
  assert (forall A (k : unit -> M kst A), (rcu_read_lock ≫= k) (inw false s (k_mem s) 0) =
    k tt (inw true s (k_mem s) 0)) as Hr.
  { intros A k. apply bind_ret, wp_ret_eq. by apply wp_rcu_lock. }
  split; (eexists; split; [|shelve]).
  - unfold list_update_rcu. rewrite Ha, Hr. reflexivity.
  - unfold list_del_from_proc_rcu. rewrite Ha, Hr. reflexivity.
  Unshelve. all: done.
Qed.

End rculist.

(** ** Witnesses: a list of two nodes and a third, fresh, node *)

(** The invariant as a test. *)
Definition node_wfb (m : mem) (L : list Z) (a : Z) : bool :=
  in_ram a 16 && in_ram (nproc m a) 376 &&
  forallb (fun b => (b =? a) || (a + 16 <=? b) || (b + 16 <=? a)) L &&
  forallb (fun b => (b + 16 <=? nproc m a) || (nproc m a + 376 <=? b)) L.

Lemma in_ram_ram a n : in_ram a n = true -> ram a n.
Proof. unfold in_ram. intros H. bool_prop. done. Qed.

Lemma node_wfb_ok m L a : node_wfb m L a = true -> node_wf m L a.
Proof.
  unfold node_wfb. intros [[[H1 H2]%andb_prop H3]%andb_prop H4]%andb_prop.
  split; [by apply in_ram_ram..| |].
  - intros b Hb Hne. rewrite forallb_forall in H3. specialize (H3 b).
    rewrite <- list_elem_of_In in H3. specialize (H3 Hb).
    destruct (Z.eqb_spec b a), (Z.leb_spec (a + 16) b), (Z.leb_spec (b + 16) a); simpl in *; lia.
  - intros b Hb. rewrite forallb_forall in H4. specialize (H4 b).
    rewrite <- list_elem_of_In in H4. specialize (H4 Hb).
    destruct (Z.leb_spec (b + 16) (nproc m a)), (Z.leb_spec (nproc m a + 376) b); simpl in *; lia.
Qed.

Lemma pool_wfb_ok m L : forallb (node_wfb m L) L = true -> pool_wf m L.
Proof.
  intros H a Ha. apply node_wfb_ok. rewrite forallb_forall in H. by apply H, list_elem_of_In.
Qed.

Definition demo_nodes : list Z := [0x80040000; 0x80040010].
Definition demo_new : Z := 0x80040020.

(** Pids 1 and 2 on the list, and a second version of process 2 in the new node. *)
Definition demo_list_mem : mem :=
  let m := st64 ∅ (n_next 0x80040000) 0x80040010 in
  let m := st64 m (n_process 0x80040000) 0x80050000 in
  let m := st64 m (n_process 0x80040010) 0x80051000 in
  let m := st64 m (n_process demo_new) 0x80052000 in
  let m := st32 m (p_pid 0x80050000) 1 in
  let m := st32 m (p_pid 0x80051000) 2 in
  st32 m (p_pid 0x80052000) 2.

Definition demo_list_kst : kst := demo_kst demo_list_mem 0 0x80040000.

Lemma demo_pool_wf : pool_wf demo_list_mem (demo_new :: demo_nodes).
Proof. apply pool_wfb_ok. vm_compute. reflexivity. Qed.

Lemma demo_new_notin : demo_new ∉ demo_nodes.
Proof. apply (bool_decide_unpack _). vm_compute. exact I. Qed.

Lemma demo_list_wf : list_wf demo_list_kst demo_nodes.
Proof.
  split.
  - apply demo_hart_ok.
  - done.
  - vm_compute. auto.
  - apply (bool_decide_unpack _). vm_compute. exact I.
  - apply (pool_wfb_ok demo_list_mem demo_nodes). vm_compute. reflexivity.
Qed.

Lemma list_add_rcu_refines_witness :
  wp (list_add_rcu (im := demo_image) demo_new)
    (fun _ s' => list_wf s' (demo_new :: demo_nodes)) demo_list_kst.
Proof.
  eapply wp_conseq; [apply (list_add_rcu_refines (im := demo_image) _ demo_nodes)|].
  - exact demo_list_wf.
  - exact demo_pool_wf.
  - exact demo_new_notin.
  - by intros u s' [H _].
Defined.

Lemma list_update_rcu_refines_witness :
  wp (list_update_rcu (im := demo_image) 5 demo_new 0x80052000 0)
    (fun r s' => r = (1, 0x80040010) /\ list_wf s' [0x80040000; demo_new]) demo_list_kst.
Proof.
  eapply wp_conseq;
    [apply (list_update_rcu_refines (im := demo_image) _ demo_nodes demo_new 0x80052000 0 5)|].
  - exact demo_list_wf.
  - done.
  - exact demo_pool_wf.
  - exact demo_new_notin.
  - by vm_compute.
  - simpl. lia.
  - intros r s' H. vm_compute (replace_first _ _ _) in H. destruct H as (H1 & H2 & _). by split.
Defined.

Lemma list_del_from_proc_rcu_refines_witness :
  wp (list_del_from_proc_rcu (im := demo_image) 5 0x80050000 0)
    (fun r s' => r = (1, 0x80040000) /\ list_wf s' [0x80040010]) demo_list_kst.
Proof.
  eapply wp_conseq;
    [apply (list_del_from_proc_rcu_refines (im := demo_image) _ demo_nodes 0x80050000 0 5)|].
  - exact demo_list_wf.
  - done.
  - by vm_compute.
  - simpl. lia.
  - intros r s' H. vm_compute (remove_first _ _) in H. destruct H as (H1 & H2 & _). by split.
Defined.

Lemma list_search_empty_faults_witness :
  exists s', list_update_rcu (im := demo_image) 5 demo_new 0x80052000 0 (demo_kst demo_list_mem 0 0) =
    Err (EFault 0) s'.
Proof.
  destruct (list_search_empty_faults (im := demo_image) (demo_kst demo_list_mem 0 0)
    demo_new 0x80052000 0 5) as [(s' & H & _) _].
  - split; [apply demo_hart_ok|done|done|constructor|by intros a ?%elem_of_nil].
  - by exists s'.
Defined.
