(* ===== verification/Rcu.v ===== *)
(** * Grace periods and reclamation, [synchronize_rcu] of [kernel/list_proc.c]

    [synchronize_rcu] polls the other harts without any lock that they take,
    so it is a state machine here: [sync_step] performs one read of another
    hart's [struct cpu] (its [idle] flag or one word of its saved context),
    with [pc] saying where in the two loops it stands.  [synchronize_rcu] runs
    it over the values that the [cpus] array has at its successive reads.  The
    [system] section interleaves it with harts that run [rcu_read_lock],
    [rcu_read_unlock], the loads of a traversal and stores to their own
    [struct cpu], with writers that publish and unlink nodes, and with
    [knfree], which lets a node's memory be overwritten.  Every hart may do
    anything at any time; the read-side sections that break the rules of RCU
    are marked, and the theorems are about the others. *)
From stdpp Require Import base gmap strings numbers option list.
From S2P Require Import Prelude Layout Machine Memory Kernel Demo RcuList.
Open Scope Z_scope.

(** ** [synchronize_rcu] *)

(** The words of a [struct context] in memory order, as the compiler copies
    them. *)
Definition ctx_words (c : context) : list Z :=
  [ra c; sp c; s0 c; s1 c; s2 c; s3 c; s4 c; s5 c; s6 c; s7 c; s8 c; s9 c; s10 c; s11 c].

Definition ctx_of_words (l : list Z) : context :=
  let w i := nth i l 0 in
  mkContext (w 0%nat) (w 1%nat) (w 2%nat) (w 3%nat) (w 4%nat) (w 5%nat) (w 6%nat)
    (w 7%nat) (w 8%nat) (w 9%nat) (w 10%nat) (w 11%nat) (w 12%nat) (w 13%nat).

Inductive sync_pc :=
| BIdle (i : nat)                           (** first loop: about to read [cpus[i].idle] *)
| BCopy (i : nat)                           (** first loop: copying [cs[i] = cpus[i].context] *)
| WIdle (i : nat) (finished : Z)            (** second loop: at the head of iteration [i] *)
| WCopy (i : nat) (finished : Z) (arg : list Z)
                                            (** second loop: copying the argument of [context_eq] *)
| SyncDone.

Record sync := mkSync {
  sy_pc : sync_pc;
  target_value_achieved : list Z;
  sy_cs : list (list Z)     (** [cs[i]], the words copied so far *)
}.

(** Entry: both arrays are on the stack, not initialised. *)
Definition sync_init (junk : list Z) : sync :=
  mkSync (BIdle 0) junk (replicate (Z.to_nat NCPU) []).

Definition sync_step (cpu_id : nat) (cpus : list cpu) (y : sync) : sync :=
  let '(mkSync pc tva cs) := y in
  let cpu i := nth i cpus (mkCpu 0 context0 0 0 0) in
  match pc with
  | BIdle i =>
      if decide (Z.to_nat NCPU <= i)%nat then mkSync (WIdle 0 1) tva cs else
      if decide (i = cpu_id) then mkSync (BIdle (S i)) tva cs else
      if c_idle (cpu i) =? 1
      then mkSync (BIdle (S i)) (<[i := 1]> tva) cs
      else mkSync (BCopy i) (<[i := 0]> tva) (<[i := []]> cs)
  | BCopy i =>
      let c := nth i cs [] in
      let c' := c ++ [nth (length c) (ctx_words (c_context (cpu i))) 0] in
      mkSync (if decide (length c' < 14)%nat then BCopy i else BIdle (S i)) tva (<[i := c']> cs)
  | WIdle i finished =>
      if decide (Z.to_nat NCPU <= i)%nat then
        (** end of the [for]; [while(!finished)] *)
        mkSync (if finished =? 0 then WIdle 0 1 else SyncDone) tva cs else
      if decide (i = cpu_id) then mkSync (WIdle (S i) finished) tva cs else
      if nth i tva 0 =? 1 then mkSync (WIdle (S i) finished) tva cs else
      if c_idle (cpu i) =? 1
      then mkSync (WIdle (S i) finished) (<[i := 1]> tva) cs
      else mkSync (WCopy i finished []) tva cs
  | WCopy i finished arg =>
      let arg' := arg ++ [nth (length arg) (ctx_words (c_context (cpu i))) 0] in
      if decide (length arg' < 14)%nat then mkSync (WCopy i finished arg') tva cs else
      if negb (context_eq (ctx_of_words (nth i cs [])) (ctx_of_words arg'))
      then mkSync (WIdle (S i) finished) (<[i := 1]> tva) cs
      else mkSync (WIdle (S i) 0) tva cs
  | SyncDone => y
  end.

Section syncseq.
Context `{im : Image}.

(** The loops, when [cpus] has the values [views] at its successive steps:
    [None] while they are not over. *)
Fixpoint sync_run (cpu_id : nat) (views : list (list cpu)) (y : sync) : option sync :=
  match sy_pc y with
  | SyncDone => Some y
  | _ => match views with
         | [] => None
         | cpus :: views' => sync_run cpu_id views' (sync_step cpu_id cpus y)
         end
  end.

(** [junk] is what the stack holds where [target_value_achieved] will be. *)
Definition synchronize_rcu (junk : list Z) (views : list (list cpu)) (cpu_id : Z) : M kst unit :=
  zoom writersL acquire;;
  match sync_run (Z.to_nat cpu_id) views (sync_init junk) with
  | Some _ => zoom writersL release
  | None => fail ESpin
  end.

End syncseq.

(** ** The system: readers, writers and one grace period at a time *)

(** A read-side section: when its outermost [rcu_read_lock] was called, how
    many more are nested in it, and whether it has kept the rules so far. *)
Record section := mkSection {
  sec_start : nat;
  sec_nest : nat;
  sec_kept : bool
}.

(** A hart as seen from outside: its [struct cpu], its [sstatus], the node
    pointer its traversal stands at, and the section it is in. *)
Record rhart := mkRhart {
  rh_cpu : cpu;
  rh_sstatus : Z;
  rh_ptr : Z;
  rh_section : option section
}.

Definition spoil (sec : option section) : option section :=
  match sec with
  | Some (mkSection t n _) => Some (mkSection t n false)
  | None => None
  end.

Definition set_section (sec : option section) (h : rhart) : rhart :=
  mkRhart (rh_cpu h) (rh_sstatus h) (rh_ptr h) sec.

(** What holds [rcu_writers_lock]: nothing, or hart [w] inside
    [synchronize_rcu], called at time [t0] to free node [x] after it, with
    what it has seen of [cpus] so far. *)
Inductive writer :=
| WFree
| WSync (w : nat) (x : Z) (t0 : nat) (junk : list Z) (views : list (list cpu)).

Record sys := mkSys {
  sys_now : nat;
  sys_mem : mem;
  sys_head : Z;
  sys_harts : list rhart;
  sys_writer : writer;
  (** bookkeeping of the proof: the nodes on the list, and those taken out
      but not yet freed, with the time they were taken out *)
  sys_list : list Z;
  sys_removed : list (Z * nat)
}.

(** Nodes whose memory may not be reused. *)
Definition live (s : sys) : list Z := sys_list s ++ (sys_removed s).*1.

Section system.
Context `{im : Image}.

(** The state in which hart [j] executes kernel code. *)
Definition runs_on (m : mem) (head : Z) (cs : list cpu) (j : nat) (ss : Z) (k : kst) : Prop :=
  k_hart k = mkHart cs (Z.of_nat j) ss /\ k_mem k = m /\ process_list (k_plist k) = head.

(** Steps of hart [j].  A section keeps the rules when the hart does not show
    [idle == 1] and does not change its saved context while it is in it, and
    when the pointers it follows were fetched in it. *)
Inductive hart_step (now : nat) (m : mem) (head : Z) (cs : list cpu) (j : nat) :
    rhart -> rhart -> Prop :=
| hs_lock c ss p k k' :                        (** outermost [rcu_read_lock] *)
    runs_on m head cs j ss k -> rcu_read_lock k = Ret tt k' ->
    hart_step now m head cs j (mkRhart c ss p None)
      (mkRhart (cur (k_hart k')) (sstatus (k_hart k')) 0
         (Some (mkSection now 0 (negb (c_idle c =? 1)))))
| hs_lock_carry c ss p k k' :                  (** the same, with a pointer from before *)
    runs_on m head cs j ss k -> rcu_read_lock k = Ret tt k' ->
    hart_step now m head cs j (mkRhart c ss p None)
      (mkRhart (cur (k_hart k')) (sstatus (k_hart k')) p (Some (mkSection now 0 false)))
| hs_nest c ss p t n b k k' :                  (** nested [rcu_read_lock] *)
    runs_on m head cs j ss k -> rcu_read_lock k = Ret tt k' ->
    hart_step now m head cs j (mkRhart c ss p (Some (mkSection t n b)))
      (mkRhart (cur (k_hart k')) (sstatus (k_hart k')) p (Some (mkSection t (S n) b)))
| hs_unlock c ss p t n b k k' :                (** [rcu_read_unlock] *)
    runs_on m head cs j ss k -> rcu_read_unlock k = Ret tt k' ->
    hart_step now m head cs j (mkRhart c ss p (Some (mkSection t n b)))
      (mkRhart (cur (k_hart k')) (sstatus (k_hart k')) p
         (match n with O => None | S n' => Some (mkSection t n' b) end))
| hs_head c ss p sec v k k' :                  (** [p = process_list] *)
    runs_on m head cs j ss k -> list_head k = Ret v k' ->
    hart_step now m head cs j (mkRhart c ss p sec) (mkRhart c ss v sec)
| hs_next c ss p sec v k k' :                  (** [p = p->next] *)
    runs_on m head cs j ss k -> load64 (n_next p) k = Ret v k' ->
    hart_step now m head cs j (mkRhart c ss p sec) (mkRhart c ss v sec)
| hs_idle c ss p sec v k k' :                  (** [mycpu()->idle = v] *)
    runs_on m head cs j ss k -> zoom hartL (mycpu_set (set_idle v)) k = Ret tt k' ->
    hart_step now m head cs j (mkRhart c ss p sec)
      (mkRhart (cur (k_hart k')) ss p (if v =? 1 then spoil sec else sec))
| hs_swtch c ss p sec x :                      (** [swtch(&c->context, ...)] *)
    hart_step now m head cs j (mkRhart c ss p sec) (mkRhart (set_context x c) ss p (spoil sec))
| hs_other c c' ss ss' p sec :                 (** anything else: [proc], [noff], [intena], [sstatus] *)
    c_idle c' = c_idle c -> c_context c' = c_context c ->
    hart_step now m head cs j (mkRhart c ss p sec) (mkRhart c' ss' p sec).

Definition may_run (s : sys) (j : nat) : Prop :=
  match sys_writer s with WSync w _ _ _ _ => j <> w | WFree => True end.

Inductive sys_step : sys -> sys -> Prop :=
| st_hart now m head hs wr l rm j h h' :
    hs !! j = Some h ->
    may_run (mkSys now m head hs wr l rm) j ->
    hart_step now m head (rh_cpu <$> hs) j h h' ->
    sys_step (mkSys now m head hs wr l rm) (mkSys (S now) m head (<[j := h']> hs) wr l rm)
| st_memory now m m' head hs wr l rm :
    (** any store to memory that is not a live node: allocation, freeing and
        initialisation of nodes, and everything unrelated *)
    (forall a b, a ∈ l ++ rm.*1 -> a <= b < a + 16 -> rd m' b = rd m b) ->
    sys_step (mkSys now m head hs wr l rm) (mkSys (S now) m' head hs wr l rm)
| st_publish now m head hs l rm m' head' l' x :
    (** in a critical section of [rcu_writers_lock] *)
    publish m head (l ++ rm.*1) l m' head' l' x ->
    pool_wf m (l' ++ l ++ rm.*1) ->
    sys_step (mkSys now m head hs WFree l rm)
      (mkSys (S now) m' head' hs WFree l' (match x with Some x => (x, now) :: rm | None => rm end))
| st_sync now m head hs l rm w h x r junk :
    (** hart [w] calls [synchronize_rcu]: a section it is in is no longer one
        that anybody waits for *)
    hs !! w = Some h -> (x, r) ∈ rm -> length junk = Z.to_nat NCPU ->
    sys_step (mkSys now m head hs WFree l rm)
      (mkSys (S now) m head (<[w := set_section (spoil (rh_section h)) h]> hs)
         (WSync w x now junk []) l rm)
| st_poll now m head hs w x t0 junk views l rm :
    sys_step (mkSys now m head hs (WSync w x t0 junk views) l rm)
      (mkSys (S now) m head hs (WSync w x t0 junk (views ++ [rh_cpu <$> hs])) l rm)
| st_free now m head hs w x t0 junk views l rm k k' :
    (** [synchronize_rcu] returns and [knfree(x)] follows *)
    synchronize_rcu junk views (Z.of_nat w) k = Ret tt k' ->
    sys_step (mkSys now m head hs (WSync w x t0 junk views) l rm)
      (mkSys (S now) m head hs WFree l (filter (fun e => e.1 <> x) rm)).

Definition reachable : sys -> sys -> Prop := rtc sys_step.

(** The starting point: a well-formed list, no reader, no writer. *)
Record initial (s : sys) : Prop := {
  in_harts : length (sys_harts s) = Z.to_nat NCPU;
  in_idle : forall h, h ∈ sys_harts s -> rh_section h = None;
  in_writer : sys_writer s = WFree;
  in_removed : sys_removed s = [];
  in_chain : chain (sys_mem s) (sys_head s) (sys_list s);
  in_nodup : NoDup (sys_list s);
  in_pool : pool_wf (sys_mem s) (sys_list s)
}.

(** No reader whose section has kept the rules holds a pointer to memory that
    is not a live node. *)
Definition readers_safe (s : sys) : Prop :=
  forall j c ss p t n, sys_harts s !! j = Some (mkRhart c ss p (Some (mkSection t n true))) ->
    p = 0 \/ p ∈ live s.

(** The section of [h], if it has kept the rules: when it began and the
    pointer it holds. *)
Definition reading (h : rhart) : option (nat * Z) :=
  match rh_section h with
  | Some (mkSection t _ true) => Some (t, rh_ptr h)
  | _ => None
  end.

(** ** The grace period *)

Definition NH : nat := Z.to_nat NCPU.

(** The hart is outside read-side sections that keep the rules, or in one
    that began at [t0] or later. *)
Definition quiet (t0 : nat) (h : rhart) : Prop :=
  forall t p, reading h = Some (t, p) -> (t0 <= t)%nat.

(** The words [l] read from the context of hart [h] are those it has now,
    unless it has been quiet since. *)
Definition caught (t0 : nat) (h : rhart) (l : list Z) : Prop :=
  quiet t0 h \/ forall k v, l !! k = Some v -> ctx_words (c_context (rh_cpu h)) !! k = Some v.

Definition hart_inv (now : nat) (h : rhart) : Prop :=
  (c_idle (rh_cpu h) = 1 -> reading h = None) /\
  forall t p, reading h = Some (t, p) -> (t < now)%nat.

(** First hart whose entries the first loop has not filled in yet. *)
Definition boot_bound (pc : sync_pc) : nat :=
  match pc with BIdle i | BCopy i => i | _ => NH end.

(** What [synchronize_rcu] knows of the other harts at each point. *)
Record sync_inv (w t0 : nat) (hs : list rhart) (y : sync) : Prop := {
  si_tva : length (target_value_achieved y) = NH;
  si_cs : length (sy_cs y) = NH;
  si_done : forall j h, (j < boot_bound (sy_pc y))%nat -> j <> w -> hs !! j = Some h ->
    nth j (target_value_achieved y) 0 = 1 -> quiet t0 h;
  si_caught : forall j h, (j < boot_bound (sy_pc y))%nat -> j <> w -> hs !! j = Some h ->
    nth j (target_value_achieved y) 0 <> 1 ->
    length (nth j (sy_cs y) []) = 14%nat /\ caught t0 h (nth j (sy_cs y) []);
  si_pc :
    match sy_pc y with
    | BIdle i => True
    | BCopy i => (i < NH)%nat /\ i <> w /\ nth i (target_value_achieved y) 0 <> 1 /\
        (length (nth i (sy_cs y) []) < 14)%nat /\
        forall h, hs !! i = Some h -> caught t0 h (nth i (sy_cs y) [])
    | WIdle i fin => fin <> 0 ->
        forall j h, (j < i)%nat -> j <> w -> hs !! j = Some h -> quiet t0 h
    | WCopy i fin arg => (i < NH)%nat /\ i <> w /\ (length arg < 14)%nat /\
        nth i (target_value_achieved y) 0 <> 1 /\
        (forall h, hs !! i = Some h -> caught t0 h arg) /\
        (fin <> 0 -> forall j h, (j < i)%nat -> j <> w -> hs !! j = Some h -> quiet t0 h)
    | SyncDone => forall j h, j <> w -> hs !! j = Some h -> quiet t0 h
    end
}.

Lemma quiet_none t0 h : reading h = None -> quiet t0 h.
Proof. intros H t p. by rewrite H. Qed.

(** *** The effect of a step on the section of a hart *)

Lemma reading_spoil h : reading (set_section (spoil (rh_section h)) h) = None.
Proof. unfold reading, set_section, spoil. simpl. by destruct (rh_section h) as [[]|]. Qed.

Lemma zoom_hart_ret {A} (op : M hartst A) k a k' :
  zoom hartL op k = Ret a k' -> op (k_hart k) = Ret a (k_hart k').
Proof.
  unfold zoom; simpl. destruct (op (k_hart k)) as [b h|e h]; [|done]. by intros [= -> <-].
Qed.

(** Only the hart's own nesting depth and interrupt flags change. *)
Definition keeps_cpu (h h' : hartst) : Prop :=
  c_idle (cur h') = c_idle (cur h) /\ c_context (cur h') = c_context (cur h).

Lemma keeps_cpu_upd f h :
  (forall c, c_idle (f c) = c_idle c /\ c_context (f c) = c_context c) ->
  keeps_cpu h (upd_cur f h).
Proof.
  intros Hf. unfold keeps_cpu, cur, upd_cur; simpl. rewrite list_lookup_alter_eq.
  destruct (cpus h !! _) as [c|]; [apply Hf|done].
Qed.

Lemma keeps_cpu_trans h1 h2 h3 : keeps_cpu h1 h2 -> keeps_cpu h2 h3 -> keeps_cpu h1 h3.
Proof. intros [H1 H2] [H3 H4]. split; congruence. Qed.

Lemma mycpu_ret h c h' : mycpu h = Ret c h' -> h' = h /\ c = cur h.
Proof. unfold mycpu, cur. destruct (_ !! _); [|done]. by intros [= -> ->]. Qed.

Lemma mycpu_set_ret f h h' : mycpu_set f h = Ret tt h' -> h' = upd_cur f h.
Proof.
  intros (c & h1 & [-> _]%mycpu_ret & H)%bind_inv. by injection H as <-.
Qed.

Lemma push_off_keeps h h' : push_off h = Ret tt h' -> keeps_cpu h h'.
Proof.
  intros (o & h1 & Ho & H)%bind_inv. injection Ho as _ <-.
  apply bind_inv in H as (u & h1 & Hu & H). apply bind_inv in Hu as (x & h2 & Hx & Hu).
  injection Hx as <- <-. injection Hu as _ <-. fold (sie_off h) in H.
  apply bind_inv in H as (c & h1 & [-> _]%mycpu_ret & H).
  apply bind_inv in H as ([] & h1 & H1 & H).
  apply bind_inv in H as (c2 & h2 & [-> ->]%mycpu_ret & H). apply mycpu_set_ret in H as ->.
  apply (keeps_cpu_trans _ h1); [|by apply keeps_cpu_upd].
  destruct (_ =? 0); [apply mycpu_set_ret in H1 as ->|by injection H1 as <-].
  by apply (keeps_cpu_upd _ (sie_off h)).
Qed.

Lemma pop_off_keeps h h' : pop_off h = Ret tt h' -> keeps_cpu h h'.
Proof.
  intros (o & h1 & Ho & H)%bind_inv. injection Ho as _ <-.
  destruct (negb _); [done|]. apply bind_inv in H as (c & h1 & [-> _]%mycpu_ret & H).
  destruct (_ <? 1); [done|]. apply bind_inv in H as ([] & h1 & ->%mycpu_set_ret & H).
  apply bind_inv in H as (c2 & h2 & [-> _]%mycpu_ret & H).
  set (h1 := upd_cur _ h) in *. assert (keeps_cpu h h1) by (by apply keeps_cpu_upd).
  destruct (_ && _); [|by injection H as <-].
  apply bind_inv in H as (x & h2 & Hx & H). injection Hx as _ <-. by injection H as <-.
Qed.

(** What a step does to a section that keeps the rules. *)
Inductive hart_effect (now : nat) (m : mem) (head : Z) (h h' : rhart) : Prop :=
| he_out :
    reading h' = None -> hart_effect now m head h h'
| he_new :
    reading h' = Some (now, 0) -> c_idle (rh_cpu h') <> 1 -> hart_effect now m head h h'
| he_in t p p' :
    reading h = Some (t, p) -> reading h' = Some (t, p') ->
    p' = p \/ p' = head \/ p <> 0 /\ p' = ld64 m (n_next p) ->
    c_context (rh_cpu h') = c_context (rh_cpu h) ->
    (c_idle (rh_cpu h') = 1 -> c_idle (rh_cpu h) = 1) ->
    hart_effect now m head h h'.

Lemma he_same now m head h h' :
  reading h' = reading h -> c_context (rh_cpu h') = c_context (rh_cpu h) ->
  (c_idle (rh_cpu h') = 1 -> c_idle (rh_cpu h) = 1) -> hart_effect now m head h h'.
Proof.
  intros Hr Hc Hi. destruct (reading h) as [[t p]|] eqn:E; [|by apply he_out].
  apply (he_in _ _ _ _ _ t p p); auto.
Qed.

Lemma he_moved now m head c ss p v sec :
  v = head \/ p <> 0 /\ v = ld64 m (n_next p) ->
  hart_effect now m head (mkRhart c ss p sec) (mkRhart c ss v sec).
Proof.
  intros Hv. destruct sec as [[t n [|]]|]; [|by apply he_out..].
  apply (he_in _ _ _ _ _ t p v); auto.
Qed.

Lemma load_ret n a k v k' : load n a k = Ret v k' -> ram a (Z.of_nat n) /\ v = ld n (k_mem k) a.
Proof.
  unfold load. destruct (in_ram a _) eqn:E; [|done]. intros [= -> _]. split; [|done].
  by apply in_ram_ram.
Qed.

Lemma hart_step_effect now m head cs j h h' :
  hart_step now m head cs j h h' -> cs !! j = Some (rh_cpu h) -> hart_effect now m head h h'.
Proof.
  intros Hs Hj. assert (forall ss k, runs_on m head cs j ss k -> cur (k_hart k) = rh_cpu h) as Hcur.
  { intros ss k (-> & _). unfold cur. simpl. by rewrite Nat2Z.id, Hj. }
  destruct Hs as [c ss p k k' Hk Hr|c ss p k k' Hk Hr|c ss p t n b k k' Hk Hr|
    c ss p t n b k k' Hk Hr|c ss p sec v k k' Hk Hr|c ss p sec v k k' Hk Hr|
    c ss p sec v k k' Hk Hr|c ss p sec x|c c' ss ss' p sec H1 H2].
  - apply zoom_hart_ret, push_off_keeps in Hr as [Hi Hc]. rewrite (Hcur _ _ Hk) in Hi.
    destruct (Z.eqb_spec (c_idle c) 1) as [E|E]; [by apply he_out|].
    apply he_new; [done|]. simpl in *. congruence.
  - by apply he_out.
  - apply zoom_hart_ret, push_off_keeps in Hr as [Hi Hc]. rewrite (Hcur _ _ Hk) in Hi, Hc.
    apply he_same; [by destruct b|done|]. simpl. by rewrite Hi.
  - apply zoom_hart_ret, pop_off_keeps in Hr as [Hi Hc]. rewrite (Hcur _ _ Hk) in Hi, Hc.
    destruct n as [|n]; [by apply he_out|]. apply he_same; [by destruct b|done|].
    simpl. by rewrite Hi.
  - destruct Hk as (_ & _ & <-). injection Hr as <- _. apply he_moved. by left.
  - destruct Hk as (_ & <- & _). apply load_ret in Hr as [Hram ->]. apply he_moved. right.
    split; [|done]. unfold ram, n_next, KERNBASE in Hram. lia.
  - apply zoom_hart_ret, mycpu_set_ret in Hr as ->. unfold cur, upd_cur in *. simpl.
    specialize (Hcur _ _ Hk). destruct Hk as (-> & _). simpl in *.
    rewrite Nat2Z.id, list_lookup_alter_eq, Hj in *. simpl.
    destruct (Z.eqb_spec v 1); [apply he_out; by destruct sec as [[]|]|by apply he_same].
  - apply he_out. by destruct sec as [[]|].
  - apply he_same; [done|done|]. simpl. by rewrite H1.
Qed.

Lemma quiet_step now m hd h h' t0 :
  hart_effect now m hd h h' -> (t0 <= now)%nat -> quiet t0 h -> quiet t0 h'.
Proof.
  intros Hs Ht Hq t' p' H'. destruct Hs as [E|E _|t p q E1 E2 _ _ _]; [congruence| |].
  - rewrite E in H'. by injection H' as <- <-.
  - rewrite E2 in H'. injection H' as <- <-. by eapply Hq.
Qed.

Lemma caught_step now m hd h h' t0 l :
  hart_effect now m hd h h' -> (t0 <= now)%nat -> caught t0 h l -> caught t0 h' l.
Proof.
  intros Hs Ht [Hq|Hc]; [left; by eapply quiet_step|].
  destruct Hs as [E|E _|t p q E1 E2 _ Hx _].
  - left. by apply quiet_none.
  - left. intros t p. rewrite E. by intros [= <- <-].
  - right. by rewrite Hx.
Qed.

Lemma hart_inv_step now m hd h h' :
  hart_effect now m hd h h' -> hart_inv now h -> hart_inv (S now) h'.
Proof.
  intros Hs [Hi Ht]. destruct Hs as [E|E Hn|t p q E1 E2 _ Hx Hn]; split; try done.
  - intros t p. by rewrite E.
  - intros t p. rewrite E. intros [= <- <-]. lia.
  - intros H1. apply Hn, Hi in H1. congruence.
  - intros t' p'. rewrite E2. intros [= <- <-]. apply Ht in E1. lia.
Qed.

Lemma sync_inv_mono w t0 hs hs' y :
  (forall j h', hs' !! j = Some h' -> exists h, hs !! j = Some h /\
     (quiet t0 h -> quiet t0 h') /\ forall l, caught t0 h l -> caught t0 h' l) ->
  sync_inv w t0 hs y -> sync_inv w t0 hs' y.
Proof.
  intros Hm [H1 H2 H3 H4 H5]. split; [done|done| | |].
  - intros j h' Hj Hw Hh Ht. destruct (Hm _ _ Hh) as (h & Hh0 & Hq & _). eauto.
  - intros j h' Hj Hw Hh Ht. destruct (Hm _ _ Hh) as (h & Hh0 & _ & Hc).
    destruct (H4 j h) as [? ?]; auto.
  - destruct (sy_pc y); try done.
    + destruct H5 as (? & ? & ? & ? & Hc). do 4 (split; [done|]).
      intros h' Hh. destruct (Hm _ _ Hh) as (h & Hh0 & _ & Hcc). auto.
    + intros Hf j h' Hj Hw Hh. destruct (Hm _ _ Hh) as (h & Hh0 & Hq & _). eauto.
    + destruct H5 as (? & ? & ? & ? & Hc & Hf). do 4 (split; [done|]). split.
      * intros h' Hh. destruct (Hm _ _ Hh) as (h & Hh0 & _ & Hcc). auto.
      * intros Hf' j h' Hj Hw Hh. destruct (Hm _ _ Hh) as (h & Hh0 & Hq & _). eauto.
    + intros j h' Hw Hh. destruct (Hm _ _ Hh) as (h & Hh0 & Hq & _). eauto.
Qed.

Lemma sync_inv_hart w t0 hs y now m hd j h h' :
  hs !! j = Some h -> hart_effect now m hd h h' -> (t0 <= now)%nat ->
  sync_inv w t0 hs y -> sync_inv w t0 (<[j := h']> hs) y.
Proof.
  intros Hj Hs Ht. apply sync_inv_mono. intros i hi Hi.
  destruct (decide (i = j)) as [->|Hne].
  - rewrite list_lookup_insert_eq in Hi by (by eapply lookup_lt_Some).
    injection Hi as <-. exists h. split; [done|]. split; [by eapply quiet_step|].
    intros l. by eapply caught_step.
  - rewrite list_lookup_insert_ne in Hi by done. exists hi. done.
Qed.

(** Reading one more word. *)
Lemma caught_snoc t0 h l :
  (length l < 14)%nat -> caught t0 h l ->
  caught t0 h (l ++ [nth (length l) (ctx_words (c_context (rh_cpu h))) 0]).
Proof.
  intros Hl [Hq|Hc]; [by left|]. right.
  assert (ctx_words (c_context (rh_cpu h)) !! length l =
    Some (nth (length l) (ctx_words (c_context (rh_cpu h))) 0)) as Hw.
  { rewrite nth_lookup. destruct (ctx_words _ !! length l) eqn:Ew; [done|].
    apply lookup_ge_None in Ew. simpl in Ew. lia. }
  revert Hw. generalize (nth (length l) (ctx_words (c_context (rh_cpu h))) 0) as w.
  intros w Hw k v [Hk|[Hge Hk]]%lookup_app_Some; [auto|].
  destruct (k - length l)%nat eqn:E; [|done]. injection Hk as <-.
  by replace k with (length l) by lia.
Qed.

(** Two copies of the context that differ: the hart switched in between. *)
Lemma caught_differ t0 h l1 l2 :
  length l1 = 14%nat -> length l2 = 14%nat -> caught t0 h l1 -> caught t0 h l2 ->
  context_eq (ctx_of_words l1) (ctx_of_words l2) = false -> quiet t0 h.
Proof.
  intros Hl1 Hl2 [?|H1]; [done|]. intros [?|H2]; [done|]. intros Hne. exfalso.
  assert (l1 = l2) as ->.
  { apply list_eq. intros k. destruct (l1 !! k) eqn:E1, (l2 !! k) eqn:E2; try done.
    - apply H1 in E1. apply H2 in E2. congruence.
    - apply lookup_lt_Some in E1. apply lookup_ge_None in E2. lia.
    - apply lookup_lt_Some in E2. apply lookup_ge_None in E1. lia. }
  revert Hne. unfold context_eq. by rewrite !Z.eqb_refl.
Qed.

Section sync_inv_step.
Context (w t0 : nat) (hs : list rhart).
Hypothesis Hlen : length hs = NH.
Hypothesis Hidle : forall j h, hs !! j = Some h -> c_idle (rh_cpu h) = 1 -> reading h = None.

Lemma hart_at i d :
  (i < NH)%nat -> exists h, hs !! i = Some h /\ nth i (rh_cpu <$> hs) d = rh_cpu h.
Proof.
  intros Hi. destruct (lookup_lt_is_Some_2 hs i) as [h Hh]; [lia|].
  exists h. split; [done|]. by rewrite nth_lookup, list_lookup_fmap, Hh.
Qed.

Lemma idle_quiet i h : hs !! i = Some h -> (c_idle (rh_cpu h) =? 1) = true -> quiet t0 h.
Proof. intros Hh Hi. apply quiet_none, (Hidle i); [done|]. by apply Z.eqb_eq. Qed.

Lemma sync_inv_BIdle i tva cs :
  sync_inv w t0 hs (mkSync (BIdle i) tva cs) ->
  sync_inv w t0 hs (sync_step w (rh_cpu <$> hs) (mkSync (BIdle i) tva cs)).
Proof.
  intros [H1 H2 H3 H4 _]; simpl in *. fold NH. destruct (decide (NH <= i)%nat) as [Hi|Hi].
  { split; simpl; try done.
    - intros j h Hj. apply H3. lia.
    - intros j h Hj. apply H4. lia.
    - intros _ j h Hj. lia. }
  destruct (decide (i = w)) as [->|Hw].
  { split; simpl; try done; intros j h Hj Hjw; [apply H3|apply H4]; lia. }
  destruct (hart_at i (mkCpu 0 context0 0 0 0)) as (h & Hh & ->); [lia|].
  destruct (c_idle (rh_cpu h) =? 1) eqn:Hid.
  - split; simpl; try done; [by rewrite length_insert| |]; intros j h' Hj Hjw Hh'.
    + destruct (decide (j = i)) as [->|Hji].
      * intros _. rewrite Hh in Hh'. injection Hh' as <-. by eapply idle_quiet.
      * rewrite nth_insert_ne by done. apply H3; [lia|done..].
    + destruct (decide (j = i)) as [->|Hji].
      * by rewrite nth_insert_eq by lia.
      * rewrite nth_insert_ne by done. apply H4; [lia|done..].
  - split; simpl; [by rewrite length_insert..| | |].
    + intros j h' Hj Hjw Hh'. rewrite nth_insert_ne by lia. by apply H3.
    + intros j h' Hj Hjw Hh'. rewrite !nth_insert_ne by lia. by apply H4.
    + rewrite !nth_insert_eq by lia. split; [lia|]. split; [done|]. split; [done|].
      split; [simpl; lia|]. intros h' _. right. intros k v. by rewrite lookup_nil.
Qed.

Lemma sync_inv_BCopy i tva cs :
  sync_inv w t0 hs (mkSync (BCopy i) tva cs) ->
  sync_inv w t0 hs (sync_step w (rh_cpu <$> hs) (mkSync (BCopy i) tva cs)).
Proof.
  intros [H1 H2 H3 H4 (Hi & Hw & Hne & Hl & Hc)]; simpl in *.
  destruct (hart_at i (mkCpu 0 context0 0 0 0)) as (h & Hh & ->); [lia|].
  pose proof (caught_snoc t0 h _ Hl (Hc _ Hh)) as Hc'.
  rewrite length_app; simpl. destruct (decide _) as [Hlt|Hge].
  - split; simpl; try done; [by rewrite length_insert| |].
    + intros j h' Hj Hjw Hh'. rewrite !nth_insert_ne by lia. by apply H4.
    + rewrite nth_insert_eq by lia. do 3 (split; [done|]). split; [rewrite length_app; simpl; lia|].
      intros h' Hh'. rewrite Hh in Hh'. by injection Hh' as <-.
  - split; simpl; try done; [by rewrite length_insert| |].
    + intros j h' Hj Hjw Hh' Ht. destruct (decide (j = i)) as [->|]; [done|]. eapply H3; eauto; lia.
    + intros j h' Hj Hjw Hh' Ht. destruct (decide (j = i)) as [->|Hji].
      * rewrite nth_insert_eq by lia. rewrite Hh in Hh'. injection Hh' as <-.
        split; [rewrite length_app; simpl; lia|done].
      * rewrite nth_insert_ne by done. apply H4; [lia|done..].
Qed.

Lemma sync_inv_WIdle i fin tva cs :
  sync_inv w t0 hs (mkSync (WIdle i fin) tva cs) ->
  sync_inv w t0 hs (sync_step w (rh_cpu <$> hs) (mkSync (WIdle i fin) tva cs)).
Proof.
  intros [H1 H2 H3 H4 H5]; simpl in *. fold NH. destruct (decide (NH <= i)%nat) as [Hi|Hi].
  { destruct (Z.eqb_spec fin 0); split; simpl; try done.
    - intros _ j h Hj. lia.
    - intros j h Hjw Hh. apply (H5 ltac:(done) j); [|done..]. apply lookup_lt_Some in Hh. lia. }
  destruct (decide (i = w)) as [->|Hw].
  { split; simpl; try done. intros Hf j h Hj Hjw. apply (H5 Hf j h); lia. }
  destruct (Z.eqb_spec (nth i tva 0) 1) as [Ht|Ht].
  { split; simpl; try done. intros Hf j h Hj Hjw Hh.
    destruct (decide (j = i)) as [->|]; [by apply (H3 i); [lia|..]|].
    apply (H5 Hf j h); [lia|done..]. }
  destruct (hart_at i (mkCpu 0 context0 0 0 0)) as (h & Hh & ->); [lia|].
  destruct (c_idle (rh_cpu h) =? 1) eqn:Hid.
  - assert (quiet t0 h) as Hq by (by eapply idle_quiet).
    split; simpl; try done; [by rewrite length_insert| | |].
    + intros j h' Hj Hjw Hh'. destruct (decide (j = i)) as [->|Hji].
      * intros _. rewrite Hh in Hh'. by injection Hh' as <-.
      * rewrite nth_insert_ne by done. by apply H3.
    + intros j h' Hj Hjw Hh'. destruct (decide (j = i)) as [->|Hji].
      * by rewrite nth_insert_eq by lia.
      * rewrite nth_insert_ne by done. by apply H4.
    + intros Hf j h' Hj Hjw Hh'. destruct (decide (j = i)) as [->|].
      * rewrite Hh in Hh'. by injection Hh' as <-.
      * apply (H5 Hf j h'); [lia|done..].
  - split; simpl; try done. split; [lia|]. split; [done|]. split; [lia|]. split; [done|].
    split; [|done]. intros h' _. right. intros k v. by rewrite lookup_nil.
Qed.

Lemma sync_inv_WCopy i fin arg tva cs :
  sync_inv w t0 hs (mkSync (WCopy i fin arg) tva cs) ->
  sync_inv w t0 hs (sync_step w (rh_cpu <$> hs) (mkSync (WCopy i fin arg) tva cs)).
Proof.
  intros [H1 H2 H3 H4 (Hi & Hw & Hl & Ht & Hc & H5)]; simpl in *.
  destruct (hart_at i (mkCpu 0 context0 0 0 0)) as (h & Hh & ->); [lia|].
  pose proof (caught_snoc t0 h _ Hl (Hc _ Hh)) as Hc'.
  set (arg' := arg ++ _) in *. assert (length arg' = S (length arg)) as Hl'.
  { unfold arg'. rewrite length_app; simpl. lia. }
  destruct (decide _) as [Hlt|Hge].
  { split; simpl; try done. do 4 (split; [done|]). split; [|done].
    intros h' Hh'. rewrite Hh in Hh'. by injection Hh' as <-. }
  destruct (context_eq _ _) eqn:Hce; simpl; [by split; simpl|].
  destruct (H4 i h) as [Hl4 Hc4]; try done.
  assert (quiet t0 h) as Hq 
    by (apply (caught_differ t0 h (nth i cs []) arg'); [done|lia|done|done|done]).
  split; simpl; try done; [by rewrite length_insert| | |].
  - intros j h' Hj Hjw Hh'. destruct (decide (j = i)) as [->|Hji].
    + intros _. rewrite Hh in Hh'. by injection Hh' as <-.
    + rewrite nth_insert_ne by done. by apply H3.
  - intros j h' Hj Hjw Hh'. destruct (decide (j = i)) as [->|Hji].
    + by rewrite nth_insert_eq by lia.
    + rewrite nth_insert_ne by done. by apply H4.
  - intros Hf j h' Hj Hjw Hh'. destruct (decide (j = i)) as [->|].
    + rewrite Hh in Hh'. by injection Hh' as <-.
    + apply (H5 Hf j h'); [lia|done..].
Qed.

Lemma sync_inv_poll y :
  sync_inv w t0 hs y -> sync_inv w t0 hs (sync_step w (rh_cpu <$> hs) y).
Proof.
  destruct y as [[i|i|i fin|i fin arg|] tva cs].
  - apply sync_inv_BIdle.
  - apply sync_inv_BCopy.
  - apply sync_inv_WIdle.
  - apply sync_inv_WCopy.
  - done.
Qed.

Lemma sync_inv_init junk : length junk = NH -> sync_inv w t0 hs (sync_init junk).
Proof. intros Hj. split; simpl; [done|done|intros; lia..|done]. Qed.

End sync_inv_step.

(** The loops have seen the values [views]. *)
Definition polled (w : nat) (views : list (list cpu)) (y : sync) : sync :=
  foldl (fun y cs => sync_step w cs y) y views.

Lemma polled_done w views y : sy_pc y = SyncDone -> polled w views y = y.
Proof.
  intros Hd. unfold polled. induction views as [|v views IH]; [done|]. simpl.
  destruct y as [pc tva cs]. simpl in Hd. by subst pc.
Qed.

Lemma sync_run_polled w views y y' :
  sync_run w views y = Some y' -> polled w views y = y' /\ sy_pc y' = SyncDone.
Proof.
  revert y. induction views as [|v views IH]; intros y; simpl.
  - destruct (sy_pc y) eqn:E; try done. by intros [= <-].
  - intros H. assert (sy_pc y = SyncDone /\ y = y' \/ sync_run w views (sync_step w v y) = Some y')
      as [[Hd ->]|Hr].
    { destruct (sy_pc y); auto. left. by injection H as <-. }
    + split; [by apply (polled_done w (v :: views))|done].
    + by apply IH.
Qed.

(** When the call returns, its loops are over. *)
Lemma synchronize_rcu_done junk views w k k' :
  synchronize_rcu junk views (Z.of_nat w) k = Ret tt k' ->
  sy_pc (polled w views (sync_init junk)) = SyncDone.
Proof.
  intros (u & k1 & _ & H)%bind_inv. rewrite Nat2Z.id in H.
  destruct (sync_run w views _) as [y|] eqn:E; [|done].
  by apply sync_run_polled in E as [-> ?].
Qed.

(** ** The invariant of the system *)

(** Every section in progress that keeps the rules began after [r]. *)
Definition all_after (hs : list rhart) (r : nat) : Prop :=
  forall j h t p, hs !! j = Some h -> reading h = Some (t, p) -> (r < t)%nat.

Record sys_inv (s : sys) : Prop := {
  v_len : length (sys_harts s) = NH;
  v_harts : forall j h, sys_harts s !! j = Some h -> hart_inv (sys_now s) h;
  v_chain : chain (sys_mem s) (sys_head s) (sys_list s);
  v_nodup : NoDup (live s);
  v_pool : pool_wf (sys_mem s) (live s);
  v_removed : forall x r, (x, r) ∈ sys_removed s -> (r < sys_now s)%nat;
  (** a reader holds a node of the list, or one taken out after it began *)
  v_reader : forall j h t p, sys_harts s !! j = Some h -> reading h = Some (t, p) ->
    p = 0 \/ p ∈ sys_list s \/ exists r, (p, r) ∈ sys_removed s /\ (t < r)%nat;
  (** a node taken out still leads to such nodes, unless no reader can be at it *)
  v_next : forall x r, (x, r) ∈ sys_removed s ->
    ld64 (sys_mem s) (n_next x) = 0 \/ ld64 (sys_mem s) (n_next x) ∈ sys_list s \/
    (exists r', (ld64 (sys_mem s) (n_next x), r') ∈ sys_removed s /\ (r <= r')%nat) \/
    all_after (sys_harts s) r;
  v_writer :
    match sys_writer s with
    | WFree => True
    | WSync w x t0 junk views =>
        (t0 < sys_now s)%nat /\ (exists r, (x, r) ∈ sys_removed s /\ (r < t0)%nat) /\
        (exists h, sys_harts s !! w = Some h /\ reading h = None) /\
        sync_inv w t0 (sys_harts s) (polled w views (sync_init junk))
    end
}.

Lemma all_after_step hs r j h h' now m hd :
  hs !! j = Some h -> hart_effect now m hd h h' -> (r < now)%nat ->
  all_after hs r -> all_after (<[j := h']> hs) r.
Proof.
  intros Hj Hs Hr Ha i hi t p Hi Hsec.
  destruct (decide (i = j)) as [->|Hne].
  - rewrite list_lookup_insert_eq in Hi by (by eapply lookup_lt_Some). injection Hi as <-.
    eapply (quiet_step now m hd h h' (S r)); [done|lia| |done].
    intros t' p' H'. by eapply Ha.
  - rewrite list_lookup_insert_ne in Hi by done. by eapply Ha.
Qed.

(** The pointer a reader gets by a step is one it may hold. *)
Lemma chain_next m p l a :
  chain m p l -> a ∈ l -> ld64 m (n_next a) = 0 \/ ld64 m (n_next a) ∈ l.
Proof.
  revert p. induction l as [|b l IH]; intros p Hc Ha; [by apply elem_of_nil in Ha|].
  destruct Hc as [-> Hc]. apply elem_of_cons in Ha as [->|Ha].
  - destruct l as [|c l]; simpl in Hc; [by left|]. destruct Hc as [-> _]. right. set_solver.
  - destruct (IH _ Hc Ha); [by left|]. right. set_solver.
Qed.

Lemma chain_head m p l : chain m p l -> p = 0 \/ p ∈ l.
Proof. destruct l; simpl; [by left|]. intros [-> _]. right. set_solver. Qed.

Lemma inv_hart now m head hs wr l rm j h h' :
  let s := mkSys now m head hs wr l rm in
  sys_inv s -> hs !! j = Some h -> may_run s j -> hart_effect now m head h h' ->
  sys_inv (mkSys (S now) m head (<[j := h']> hs) wr l rm).
Proof.
  intros s [H1 H2 H3 H4 H5 H6 H7 H8 H9] Hj Hr Hs; simpl in *. split; simpl.
  - by rewrite length_insert.
  - intros i hi Hi. apply list_lookup_insert_Some in Hi as [(<- & <- & _)|[Hne Hi]].
    + eapply hart_inv_step; [done|by eapply H2].
    + destruct (H2 _ _ Hi) as [Ha Hb]. split; [done|]. intros t p Hsec. apply Hb in Hsec. lia.
  - done.
  - done.
  - done.
  - intros x r Hx. apply H6 in Hx. lia.
  - intros i hi t p Hi Hsec. apply list_lookup_insert_Some in Hi as [(<- & <- & _)|[Hne Hi]];
      [|by eapply H7].
    destruct Hs as [E|E _|t' q q' E1 E2 Hq _ _]; [congruence| |].
    { rewrite E in Hsec. injection Hsec as <- <-. by left. }
    rewrite E2 in Hsec. injection Hsec as <- <-.
    destruct Hq as [->|[->|[Hq ->]]]; [by eapply H7|destruct (chain_head _ _ _ H3); auto|].
    destruct (H7 _ _ _ _ Hj E1) as [?|[Hin|(r & Hin & Hlt)]]; [done| |].
    + destruct (chain_next _ _ _ _ H3 Hin); auto.
    + destruct (H8 _ _ Hin) as [?|[?|[(r' & ? & ?)|Ha]]]; auto.
      * right. right. exists r'. split; [done|lia].
      * pose proof (Ha _ _ _ _ Hj E1). lia.
  - intros x r Hx. destruct (H8 _ _ Hx) as [?|[?|[?|Ha]]]; auto. right. right. right.
    eapply all_after_step; try done. by apply H6 in Hx.
  - destruct wr as [|w x t0 junk views]; [done|].
    destruct H9 as (Ht & Hx & (hw & Hw & Hsec) & Hy).
    split; [lia|]. split; [done|]. split.
    + exists hw. split; [|done]. rewrite list_lookup_insert_ne; [done|]. simpl in Hr. congruence.
    + eapply sync_inv_hart; try done. lia.
Qed.

Lemma inv_memory now m m' head hs wr l rm :
  sys_inv (mkSys now m head hs wr l rm) ->
  (forall a b, a ∈ l ++ rm.*1 -> a <= b < a + 16 -> rd m' b = rd m b) ->
  sys_inv (mkSys (S now) m' head hs wr l rm).
Proof.
  intros [H1 H2 H3 H4 H5 H6 H7 H8 H9] Hm; simpl in *.
  assert (forall a, a ∈ l ++ rm.*1 -> ld64 m' (n_next a) = ld64 m (n_next a)) as Hn.
  { intros a Ha. apply ld_frame. intros b Hb. unfold n_next in Hb. apply (Hm a); [done|lia]. }
  split; simpl; try done.
  - intros j h Hj. destruct (H2 _ _ Hj) as [Ha Hb]. split; [done|].
    intros t p Hsec. apply Hb in Hsec. lia.
  - eapply lseg_frame; [|done]. intros a Ha. apply Hn. set_solver.
  - intros a Ha. unfold live in *; simpl in *.
    assert (nproc m' a = nproc m a) as Hp.
    { apply ld_frame. intros b Hb. unfold n_process in Hb. apply (Hm a); [done|lia]. }
    destruct (H5 a Ha) as [? ? ? ?]. split; try rewrite Hp; done.
  - intros x r Hx. apply H6 in Hx. lia.
  - intros x r Hx. rewrite Hn; [by apply H8|]. apply elem_of_app. right.
    apply list_elem_of_fmap. by exists (x, r).
  - destruct wr as [|w x t0 junk views]; [done|]. destruct H9 as (Ht & ? & ? & ?).
    split; [lia|done].
Qed.

Definition taken (x : option Z) : list Z := match x with Some x => [x] | None => [] end.

Record published (m m' : mem) (head' : Z) (l l' R : list Z) (x : option Z) : Prop := {
  pb_chain : chain m' head' l';
  pb_nodup : NoDup (l' ++ taken x ++ R);
  pb_links : links_only m m' (l' ++ l ++ R);
  pb_next : forall a, a ∈ taken x ++ R -> ld64 m' (n_next a) = ld64 m (n_next a);
  pb_sub : forall a, a ∈ l -> a ∈ l' \/ x = Some a;
  pb_from : forall a, x = Some a -> a ∈ l
}.

Lemma perm_replace (l1 : list Z) q x l2 n R :
  (l1 ++ q :: n :: l2) ++ x :: R ≡ₚ n :: (l1 ++ q :: x :: l2) ++ R.
Proof.
  rewrite <- !app_assoc. simpl. rewrite <- !Permutation_middle. apply Permutation_swap.
Qed.

Lemma perm_del (l1 : list Z) q x l2 R :
  (l1 ++ q :: l2) ++ x :: R ≡ₚ (l1 ++ q :: x :: l2) ++ R.
Proof.
  rewrite <- !app_assoc. simpl. by rewrite <- !Permutation_middle.
Qed.

Lemma publish_replace m head l1 q x l2 n R :
  n ∉ (l1 ++ q :: x :: l2) ++ R -> ld64 m (n_next n) = ld64 m (n_next x) ->
  chain m head (l1 ++ q :: x :: l2) -> NoDup ((l1 ++ q :: x :: l2) ++ R) ->
  pool_wf m ((l1 ++ q :: n :: l2) ++ (l1 ++ q :: x :: l2) ++ R) ->
  published m (st64 m (n_next q) n) head (l1 ++ q :: x :: l2) (l1 ++ q :: n :: l2) R (Some x).
Proof.
  intros Hn Hnx Hch Hnd Hp. set (L := _ ++ _ ++ R) in Hp.
  assert (forall a, a ∈ (l1 ++ q :: x :: l2) ++ R -> a ∈ L) as HL by (clear; set_solver).
  assert (n ∈ L) as HnL by (clear; set_solver).
  pose proof Hnd as (Hnd1 & Hd & HndR)%NoDup_app.
  split.
  - eapply (chain_splice m L); try done.
    + clear; set_solver.
    + clear -Hn; set_solver.
  - simpl. rewrite perm_replace. by constructor.
  - apply links_only_st; [clear; set_solver|apply links_only_refl].
  - intros a Ha. apply (ld_next_st m L); [done| |apply HL; clear; set_solver|].
    + apply HL. clear -Ha. set_solver.
    + intros ->. apply elem_of_app in Ha as [Ha|Ha]; [|apply (Hd q); [clear; set_solver|done]].
      apply list_elem_of_singleton in Ha as ->.
      apply NoDup_app in Hnd1 as (_ & _ & [Hq _]%NoDup_cons). apply Hq. clear; set_solver.
  - clear; set_solver.
  - intros a [= <-]. clear; set_solver.
Qed.

Lemma publish_del m head l1 q x l2 R :
  chain m head (l1 ++ q :: x :: l2) -> NoDup ((l1 ++ q :: x :: l2) ++ R) ->
  pool_wf m ((l1 ++ q :: l2) ++ (l1 ++ q :: x :: l2) ++ R) ->
  published m (st64 m (n_next q) (ld64 m (n_next x))) head
    (l1 ++ q :: x :: l2) (l1 ++ q :: l2) R (Some x).
Proof.
  intros Hch Hnd Hp. set (L := _ ++ _ ++ R) in Hp.
  assert (forall a, a ∈ (l1 ++ q :: x :: l2) ++ R -> a ∈ L) as HL by (clear; set_solver).
  pose proof Hnd as (Hnd1 & Hd & HndR)%NoDup_app.
  split.
  - eapply (chain_unlink m L); try done. clear; set_solver.
  - simpl. by rewrite perm_del.
  - apply links_only_st; [clear; set_solver|apply links_only_refl].
  - intros a Ha. apply (ld_next_st m L); [done| |apply HL; clear; set_solver|].
    + apply HL. clear -Ha. set_solver.
    + intros ->. apply elem_of_app in Ha as [Ha|Ha]; [|apply (Hd q); [clear; set_solver|done]].
      apply list_elem_of_singleton in Ha as ->.
      apply NoDup_app in Hnd1 as (_ & _ & [Hq _]%NoDup_cons). apply Hq. clear; set_solver.
  - clear; set_solver.
  - intros a [= <-]. clear; set_solver.
Qed.

Lemma publish_ok m head R l m' head' l' x :
  publish m head (l ++ R) l m' head' l' x ->
  chain m head l -> NoDup (l ++ R) -> pool_wf m (l' ++ l ++ R) ->
  published m m' head' l l' R x.
Proof.
  intros Hpub Hch Hnd Hp. remember (l ++ R) as L eqn:HL.
  destruct Hpub as [l0 n Hn Hnx|y l2 n Hn Hnx|l1 q y l2 n Hn Hnx|y l2|l1 q y l2]; subst L.
  - split; simpl; try done; [|by constructor|by set_solver]. split; [done|]. by rewrite Hnx.
  - destruct Hch as [-> Hch]. split; simpl; try done.
    + split; [done|]. by rewrite Hnx.
    + rewrite <- Permutation_middle. by constructor.
    + clear; set_solver.
    + intros a [= <-]. clear; set_solver.
  - by apply publish_replace.
  - destruct Hch as [-> Hch]. split; simpl; try done.
    + by rewrite <- Permutation_middle.
    + clear; set_solver.
    + intros a [= <-]. clear; set_solver.
  - by apply publish_del.
Qed.

Lemma inv_publish now m head hs l rm m' head' l' x :
  sys_inv (mkSys now m head hs WFree l rm) ->
  publish m head (l ++ rm.*1) l m' head' l' x ->
  pool_wf m (l' ++ l ++ rm.*1) ->
  sys_inv (mkSys (S now) m' head' hs WFree l'
    (match x with Some x => (x, now) :: rm | None => rm end)).
Proof.
  intros [H1 H2 H3 H4 H5 H6 H7 H8 H9] Hpub Hp; simpl in *.
  destruct (publish_ok _ _ _ _ _ _ _ _ Hpub H3 H4 Hp) as [P1 P2 P3 P4 P5 P6].
  set (rm' := match x with Some x => (x, now) :: rm | None => rm end).
  assert (rm'.*1 = taken x ++ rm.*1) as Hrm by (by destruct x).
  assert (forall e, e ∈ rm -> e ∈ rm') as Hsub by (destruct x; set_solver).
  assert (forall a, a ∈ l -> a ∈ l' \/ (a, now) ∈ rm') as Hl.
  { intros a Ha. destruct (P5 a Ha) as [?| ->]; [by left|]. right. clear; set_solver. }
  split; simpl; try done.
  - intros j h Hj. destruct (H2 _ _ Hj) as [Ha Hb]. split; [done|].
    intros t p Hsec. apply Hb in Hsec. lia.
  - unfold live; simpl. by rewrite Hrm.
  - unfold live; simpl. rewrite Hrm. eapply pool_sub; [by eapply links_only_pool|].
    intros a. rewrite !elem_of_app. intros [?|[Ha|?]]; auto. destruct x as [x|]; simpl in Ha; [|set_solver].
    apply list_elem_of_singleton in Ha as ->. auto.
  - intros y r Hy. assert ((y, r) ∈ rm \/ r = now) as [Hin| ->]; [|apply H6 in Hin; lia|lia].
    unfold rm' in Hy. destruct x; set_solver.
  - intros j h t p Hj Hsec. destruct (H7 _ _ _ _ Hj Hsec) as [?|[Hin|(r & Hin & Hr)]]; [by left| |].
    + destruct (Hl p Hin); [by auto|]. right. right. exists now. split; [done|].
      destruct (H2 _ _ Hj) as [_ Hb]. by eapply Hb.
    + right. right. exists r. auto.
  - intros y r Hy. assert (y ∈ taken x ++ rm.*1) as Hy1.
    { rewrite <- Hrm. apply list_elem_of_fmap. by exists (y, r). }
    rewrite (P4 y Hy1). assert ((y, r) ∈ rm \/ (x = Some y /\ r = now)) as [Hin|[Hx ->]].
    { unfold rm' in Hy. destruct x; set_solver. }
    + destruct (H8 _ _ Hin) as [?|[Hi|[(r' & Hi & ?)|?]]]; [by left| | |by auto];
      [|right; right; left; exists r'; auto].
      destruct (Hl _ Hi); [by auto|]. right. right. left. exists now. split; [done|].
      apply H6 in Hin. lia.
    + destruct (chain_next _ _ _ _ H3 (P6 y Hx)) as [?|Hi]; [by left|].
      destruct (Hl _ Hi); [by auto|]. right. right. left. exists now. split; [done|lia].
Qed.

Lemma inv_sync now m head hs l rm w h x r junk :
  sys_inv (mkSys now m head hs WFree l rm) ->
  hs !! w = Some h -> (x, r) ∈ rm -> length junk = NH ->
  sys_inv (mkSys (S now) m head (<[w := set_section (spoil (rh_section h)) h]> hs)
    (WSync w x now junk []) l rm).
Proof.
  intros Hinv Hw Hx Hj.
  assert (sys_inv (mkSys (S now) m head (<[w := set_section (spoil (rh_section h)) h]> hs)
    WFree l rm)) as [H1 H2 H3 H4 H5 H6 H7 H8 _].
  { eapply inv_hart; [done|done|done|]. apply he_out, reading_spoil. }
  split; try done. split; [simpl; lia|]. split.
  { exists r. split; [done|]. by apply (v_removed _ Hinv) in Hx. }
  split; [|by apply sync_inv_init]. eexists. split; [|apply reading_spoil].
  apply list_lookup_insert_eq. by eapply lookup_lt_Some.
Qed.

Lemma inv_poll now m head hs w x t0 junk views l rm :
  sys_inv (mkSys now m head hs (WSync w x t0 junk views) l rm) ->
  sys_inv (mkSys (S now) m head hs (WSync w x t0 junk (views ++ [rh_cpu <$> hs])) l rm).
Proof.
  intros [H1 H2 H3 H4 H5 H6 H7 H8 (? & ? & ? & Hy)]; simpl in *. split; simpl; try done.
  - intros j hj Hh. destruct (H2 _ _ Hh) as [Ha Hb]. split; [done|].
    intros t p Hs. apply Hb in Hs. lia.
  - intros z r' Hz. apply H6 in Hz. lia.
  - split; [lia|]. split; [done|]. split; [done|]. unfold polled. rewrite foldl_snoc.
    apply sync_inv_poll; [done| |done]. intros j h Hj. by destruct (H2 _ _ Hj).
Qed.

(** When [synchronize_rcu] has returned, no section that was in progress when
    it was called still is. *)
Lemma grace_period_over now m head hs w x t0 junk views l rm k k' :
  sys_inv (mkSys now m head hs (WSync w x t0 junk views) l rm) ->
  synchronize_rcu junk views (Z.of_nat w) k = Ret tt k' ->
  forall j h, hs !! j = Some h -> quiet t0 h.
Proof.
  intros [_ _ _ _ _ _ _ _ (_ & _ & (hw & Hw & Hsec) & Hy)] Hd%synchronize_rcu_done j h Hj.
  simpl in *.
  destruct (decide (j = w)) as [->|Hne].
  - rewrite Hw in Hj. injection Hj as <-. by apply quiet_none.
  - destruct Hy as [_ _ _ _ Hpc]. rewrite Hd in Hpc. by eapply Hpc.
Qed.

Lemma removed_unique l (rm : list (Z * nat)) x r r' :
  NoDup (l ++ rm.*1) -> (x, r) ∈ rm -> (x, r') ∈ rm -> r = r'.
Proof.
  intros (_ & _ & Hnd)%NoDup_app H1 H2.
  apply list_elem_of_lookup in H1 as [i Hi], H2 as [k Hk].
  assert (i = k) as ->.
  { eapply (NoDup_lookup rm.*1 i k x); [done|by rewrite list_lookup_fmap, Hi|
      by rewrite list_lookup_fmap, Hk]. }
  congruence.
Qed.

Lemma fst_filter_sublist (P : Z * nat -> Prop) `{!forall e, Decision (P e)} rm :
  (filter P rm).*1 `sublist_of` rm.*1.
Proof.
  induction rm as [|e rm IH]; [done|]. rewrite filter_cons. simpl.
  destruct (decide (P e)); simpl; by constructor.
Qed.

Lemma inv_free now m head hs w x t0 junk views l rm k k' :
  sys_inv (mkSys now m head hs (WSync w x t0 junk views) l rm) ->
  synchronize_rcu junk views (Z.of_nat w) k = Ret tt k' ->
  sys_inv (mkSys (S now) m head hs WFree l (filter (fun e => e.1 <> x) rm)).
Proof.
  intros Hinv Hd. pose proof (grace_period_over _ _ _ _ _ _ _ _ _ _ _ _ _ Hinv Hd) as Hq.
  destruct Hinv as [H1 H2 H3 H4 H5 H6 H7 H8 (? & (rx & Hx & Hrx) & ? & Hy)]; simpl in *.
  unfold live in *; simpl in *.
  set (rm' := filter _ rm). assert (forall e, e ∈ rm' <-> e.1 <> x /\ e ∈ rm) as Hrm.
  { intros e. unfold rm'. by rewrite list_elem_of_filter. }
  assert (forall j h t p, hs !! j = Some h -> reading h = Some (t, p) -> (rx < t)%nat) as Hafter.
  { intros j h t p Hj Hs. pose proof (Hq j h Hj t p Hs). lia. }
  assert (forall a, a ∈ l ++ rm'.*1 -> a ∈ l ++ rm.*1) as Hsub.
  { intros a. rewrite !elem_of_app. intros [?|Ha]; [by left|right].
    apply list_elem_of_fmap in Ha as (e & -> & He). apply list_elem_of_fmap. exists e.
    split; [done|]. by apply Hrm. }
  split; simpl; try done.
  - intros j hj Hh. destruct (H2 _ _ Hh) as [Ha Hb]. split; [done|].
    intros t p Hs. apply Hb in Hs. lia.
  - eapply sublist_NoDup; [exact H4|]. apply sublist_app; [done|].
    apply fst_filter_sublist.
  - by eapply pool_sub.
  - intros z r Hz. apply Hrm in Hz as [_ Hz]. apply H6 in Hz. lia.
  - intros j h t p Hj Hs. destruct (H7 _ _ _ _ Hj Hs) as [?|[?|(r & Hp & Ht)]]; auto.
    right. right. exists r. split; [|done]. apply Hrm. split; [|done]. simpl. intros ->.
    rewrite (removed_unique l rm x r rx) in Ht by done.
    pose proof (Hafter _ _ _ _ Hj Hs). lia.
  - intros z r Hz. apply Hrm in Hz as [Hzx Hz].
    destruct (H8 _ _ Hz) as [?|[?|[(r' & Hn & Hr)|?]]]; auto.
    destruct (decide (ld64 m (n_next z) = x)) as [E|Hne].
    + right. right. right. rewrite E in Hn. rewrite (removed_unique l rm x r' rx) in Hr by done.
      intros j h t p Hj Hs. pose proof (Hafter _ _ _ _ Hj Hs). lia.
    + right. right. left. exists r'. split; [|done]. by apply Hrm.
Qed.

Lemma sys_inv_step s s' : sys_inv s -> sys_step s s' -> sys_inv s'.
Proof.
  intros Hinv Hs. destruct Hs as [now m head hs wr l rm j h h' Hj Hr Hs| | | | |].
  - eapply inv_hart; try done. eapply hart_step_effect; [done|].
    by rewrite list_lookup_fmap, Hj.
  - by eapply inv_memory.
  - by eapply inv_publish.
  - by eapply inv_sync.
  - by apply inv_poll.
  - by eapply inv_free.
Qed.

Lemma sys_inv_init s : initial s -> sys_inv s.
Proof.
  intros [H1 H2 H3 H4 H5 H6 H7].
  assert (forall j h, sys_harts s !! j = Some h -> reading h = None) as Hno.
  { intros j h Hj. assert (h ∈ sys_harts s) as Hh by (by eapply list_elem_of_lookup_2).
    unfold reading. by rewrite (H2 h Hh). }
  split; try done.
  - intros j h Hj. pose proof (Hno j h Hj) as Hh. split; [done|]. intros t p. by rewrite Hh.
  - unfold live. rewrite H4. simpl. by rewrite app_nil_r.
  - unfold live. rewrite H4. simpl. by rewrite app_nil_r.
  - rewrite H4. by intros x r ?%elem_of_nil.
  - intros j h t p Hj. by rewrite (Hno j h Hj).
  - rewrite H4. by intros x r ?%elem_of_nil.
  - by rewrite H3.
Qed.

Lemma sys_inv_reachable s0 s : initial s0 -> reachable s0 s -> sys_inv s.
Proof.
  intros Hi%sys_inv_init Hr. induction Hr; [done|]. by eauto using sys_inv_step.
Qed.

(** ** Progress *)

(** Steps left when the other harts are idle from now on. *)
Definition sync_left (y : sync) : nat :=
  match sy_pc y with
  | BIdle i => (NH - i) + NH + 2
  | BCopy i => (14 - length (nth i (sy_cs y) [])) + 1 + ((NH - S i) + NH + 2)
  | WIdle i fin => (NH - i) + 1 + (if Z.eqb fin 0 then NH + 1 else 0)
  | WCopy i fin arg => (14 - length arg) + 1 + ((NH - S i) + NH + 2)
  | SyncDone => 0
  end.

Definition SYNC_POLLS : nat := 2 * NH + 17.

Definition sync_shape (y : sync) : Prop :=
  length (sy_cs y) = NH /\ match sy_pc y with BCopy i => (i < NH)%nat | _ => True end.

Lemma sync_left_bound y : sync_shape y -> (sync_left y <= SYNC_POLLS)%nat.
Proof.
  destruct y as [[i|i|i fin|i fin arg|] tva cs]; unfold sync_left, SYNC_POLLS, sync_shape;
    cbn [sy_pc sy_cs]; try (destruct (fin =? 0)); lia.
Qed.

Lemma sync_shape_step w cs y : sync_shape y -> sync_shape (sync_step w cs y).
Proof.
  destruct y as [[i|i|i fin|i fin arg|] tva xs]; unfold sync_shape; simpl; intros [H1 H2];
    fold NH; repeat case_match; simpl; rewrite ?length_insert; split; try done; simplify_eq/=; lia.
Qed.

Lemma sync_shape_polled w views y : sync_shape y -> sync_shape (polled w views y).
Proof.
  unfold polled. revert y. induction views as [|v views IH]; intros y H; [done|].
  apply IH. by apply sync_shape_step.
Qed.

(** [cs] shows the harts other than [w] idle. *)
Definition others_idle (w : nat) (cs : list cpu) : Prop :=
  forall i, (i < NH)%nat -> i <> w -> exists c, cs !! i = Some c /\ c_idle c = 1.

#[local] Ltac left_lia :=
  cbn [sy_pc sy_cs length Z.eqb];
  repeat match goal with |- context [?x =? 0] => destruct (x =? 0) end; lia.

Lemma sync_step_progress w cs y :
  sync_shape y -> others_idle w cs -> sy_pc y <> SyncDone ->
  (sync_left (sync_step w cs y) < sync_left y)%nat.
Proof.
  intros Hs Hid Hd.
  assert (forall i d, (i < NH)%nat -> i <> w -> (c_idle (nth i cs d) =? 1) = true) as Hi.
  { intros i d H1 H2. destruct (Hid i H1 H2) as (c & Hc & E). by rewrite nth_lookup, Hc, <- Z.eqb_eq in *. }
  destruct y as [[i|i|i fin|i fin arg|] tva xs]; [| | | |done]; destruct Hs as [H1 H2];
    unfold sync_left; cbn [sync_step sy_pc sy_cs] in *; fold NH.
  - destruct (decide (NH <= i)%nat); [left_lia|]. destruct (decide (i = w)); [left_lia|].
    rewrite Hi by lia. left_lia.
  - rewrite length_app. cbn [length]. destruct (decide _); cbn [sy_pc sy_cs]; [|lia].
    rewrite nth_insert_eq, length_app by lia. left_lia.
  - destruct (decide (NH <= i)%nat); [destruct (fin =? 0); left_lia|].
    destruct (decide (i = w)); [left_lia|]. rewrite Hi by lia. destruct (_ =? 1); left_lia.
  - rewrite length_app. cbn [length]. destruct (decide _); cbn [sy_pc sy_cs].
    + rewrite length_app. left_lia.
    + destruct (negb _); left_lia.
Qed.

Lemma sync_run_returns w views y :
  sync_shape y -> Forall (others_idle w) views -> (sync_left y <= length views)%nat ->
  exists y', sync_run w views y = Some y'.
Proof.
  intros Hs Hv. revert y Hs. induction Hv as [|v views Hv Hvs IH]; intros y Hs Hl; simpl in *.
  - destruct (sy_pc y) eqn:E; unfold sync_left in Hl; rewrite E in Hl; try lia. by exists y.
  - assert (sy_pc y = SyncDone \/ sy_pc y <> SyncDone) as [E|E] by (destruct (sy_pc y); auto).
    + rewrite E. by exists y.
    + pose proof (sync_step_progress w v y Hs Hv E).
      destruct (IH (sync_step w v y)) as [y' Hy]; [by apply sync_shape_step|lia|].
      exists y'. by destruct (sy_pc y).
Qed.

Lemma sync_run_app w vs1 vs2 y :
  sync_run w (vs1 ++ vs2) y =
  match sync_run w vs1 y with Some y' => Some y' | None => sync_run w vs2 (polled w vs1 y) end.
Proof.
  revert y. induction vs1 as [|v vs1 IH]; intros y; simpl.
  - by destruct (sy_pc y) eqn:E; destruct vs2; simpl; rewrite ?E.
  - destruct (sy_pc y); try done; apply IH.
Qed.

(** The call returns once the other harts have been idle for a while. *)
Lemma synchronize_rcu_returns junk vs1 vs2 k :
  hart_ok (k_hart k) -> lock_free (rcu_writers_lock (k_plist k)) ->
  Forall (others_idle (Z.to_nat (tp (k_hart k)))) vs2 -> (SYNC_POLLS <= length vs2)%nat ->
  synchronize_rcu junk (vs1 ++ vs2) (tp (k_hart k)) k =
    Ret tt (outw k (k_mem k) (process_list (k_plist k))).
Proof.
  intros Hok Hl Hv Hlen. apply wp_ret_eq. apply wp_bind, wp_writers_acquire; [done..|].
  set (w := Z.to_nat _) in *. assert (sync_shape (sync_init junk)) as Hs by done.
  assert (exists y, sync_run w (vs1 ++ vs2) (sync_init junk) = Some y) as [y ->].
  { rewrite sync_run_app. destruct (sync_run w vs1 _) as [y|]; [by exists y|].
    apply (sync_shape_polled w vs1) in Hs. apply sync_run_returns; [done|done|].
    pose proof (sync_left_bound _ Hs). lia. }
  by apply wp_writers_release.
Qed.

(** ** The writers' operations as runs of the system *)

(** Kernel state [k], outside critical sections of [rcu_writers_lock], has
    the memory and the list of the system. *)
Record models (k : kst) (s : sys) : Prop := {
  mo_mem : k_mem k = sys_mem s;
  mo_head : process_list (k_plist k) = sys_head s;
  mo_list : list_wf k (sys_list s);
  mo_writer : sys_writer s = WFree
}.

(** [op] from [k] does what some steps of the system from [s] do. *)
Definition simulated {A} (op : M kst A) (k : kst) (s : sys) (R : A -> sys -> Prop) : Prop :=
  wp op (fun r k' => exists s', reachable s s' /\ models k' s' /\
    sys_harts s' = sys_harts s /\ R r s') k.

Lemma publishes_run k k' s ns l' x :
  models k s -> pool_wf (sys_mem s) (ns ++ live s) -> (forall a, a ∈ ns -> a ∉ live s) ->
  publishes k k' ns (live s) (sys_list s) l' x -> (forall a, a ∈ l' -> a ∈ ns ++ live s) ->
  list_wf k' l' ->
  exists s', reachable s s' /\ models k' s' /\ sys_harts s' = sys_harts s /\ sys_list s' = l' /\
    sys_removed s' = match x with Some x => [(x, S (sys_now s))] | None => [] end ++ sys_removed s.
Proof.
  intros [Hm Hh Hl Hw] Hp Hn (m1 & Ho & Hpub) Hl' Hwf. destruct s as [now m head hs wr l rm].
  unfold live in *; simpl in *. subst m head wr.
  exists (mkSys (S (S now)) (k_mem k') (process_list (k_plist k')) hs WFree l'
    (match x with Some x => (x, S now) :: rm | None => rm end)).
  split; [|split; [done|split; [done|split; [done|by destruct x]]]].
  eapply rtc_l; [eapply (st_memory now _ m1)|apply rtc_once; eapply st_publish; [done|]].
  - intros a b Ha Hb. apply Ho. intros c Hc.
    assert (c <> a) as Hca by (intros ->; by eapply Hn).
    pose proof (nw_apart _ _ _ (Hp a ltac:(set_solver)) c ltac:(set_solver) Hca).
    unfold n_next. lia.
  - eapply (pool_sub _ (ns ++ l ++ rm.*1)); [eapply links_only_pool; [done|]|].
    + intros b Hb. apply Ho. intros a Ha. apply Hb. set_solver.
    + intros a. rewrite !elem_of_app. intros [Ha|Ha]; [|set_solver].
      apply Hl' in Ha. set_solver.
Qed.

Lemma list_add_simulated k s n :
  models k s -> pool_wf (sys_mem s) (n :: live s) -> n ∉ live s ->
  simulated (list_add_rcu n) k s (fun _ s' =>
    sys_list s' = n :: sys_list s /\ sys_removed s' = sys_removed s).
Proof.
  intros Hmo Hp Hn. pose proof Hmo as [Hm Hh Hl Hw].
  assert (forall a, a ∈ sys_list s -> a ∈ live s) as Hsub by (unfold live; set_solver).
  eapply wp_conseq; [apply (list_add_rcu_wf k (sys_list s)); [done| |by auto]|].
  - rewrite Hm. eapply pool_sub; [done|]. set_solver.
  - intros r k' [[Hwf _] Hpub].
    destruct (publishes_run k k' s [n] (n :: sys_list s) None) as (s' & ? & ? & ? & ? & ?);
      try done; [set_solver|by apply Hpub|set_solver|]. by exists s'.
Qed.

Lemma list_update_simulated k s n pr fr fuel :
  models k s -> sys_list s <> [] -> pool_wf (sys_mem s) (n :: live s) -> n ∉ live s ->
  ram pr sizeof_proc -> (length (sys_list s) <= fuel)%nat ->
  simulated (list_update_rcu fuel n pr fr) k s (fun r s' =>
    match replace_first (has_pid (sys_mem s) pr) n (sys_list s) with
    | Some (x, l') => r = (1, x) /\ sys_list s' = l' /\
        sys_removed s' = (x, S (sys_now s)) :: sys_removed s
    | None => r = (0, fr) /\ s' = s
    end).
Proof.
  intros Hmo Hne Hp Hn Hpr Hf. pose proof Hmo as [Hm Hh Hl Hw].
  pose proof (replace_first_spec (has_pid (sys_mem s) pr) n (sys_list s)) as Hs.
  assert (forall a, a ∈ sys_list s -> a ∈ live s) as Hsub by (unfold live; set_solver).
  destruct (replace_first _ n (sys_list s)) as [[x r]|].
  - destruct Hs as (l1 & l2 & El & -> & Hx & Hl1). rewrite El in *.
    eapply wp_conseq; [apply (list_update_rcu_found k l1 x l2); try done; [| |]|].
    + rewrite Hm. eapply pool_sub; [done|]. set_solver.
    + auto.
    + rewrite Hm. by apply has_pid_first.
    + intros r k' [(-> & Hwf & _) Hpub].
      destruct (publishes_run k k' s [n] (l1 ++ n :: l2) (Some x)) as (s' & ? & ? & ? & ? & ?);
        try done; [set_solver|rewrite El; by apply Hpub|set_solver|]. by exists s'.
  - destruct (sys_list s) as [|h t] eqn:El; [done|].
    eapply wp_conseq; [apply (list_update_rcu_missing k h t); try done|].
    + intros a Ha. rewrite Hm. by apply Z.eqb_neq, Hs.
    + intros r k' (-> & Hwf & Hm'). exists s. split; [apply rtc_refl|].
      split; [|done]. split; [congruence| |by rewrite El|done].
      rewrite <- Hh. rewrite (lseg_hd _ _ _ _ (lw_chain _ _ Hwf)).
      by rewrite (lseg_hd _ _ _ _ (lw_chain _ _ Hl)).
Qed.

Lemma list_del_simulated k s pr fr fuel :
  models k s -> sys_list s <> [] -> pool_wf (sys_mem s) (live s) ->
  ram pr sizeof_proc -> (length (sys_list s) <= fuel)%nat ->
  simulated (list_del_from_proc_rcu fuel pr fr) k s (fun r s' =>
    match remove_first (has_pid (sys_mem s) pr) (sys_list s) with
    | Some (x, l') => r = (1, x) /\ sys_list s' = l' /\
        sys_removed s' = (x, S (sys_now s)) :: sys_removed s
    | None => r = (0, fr) /\ s' = s
    end).
Proof.
  intros Hmo Hne Hp Hpr Hf. pose proof Hmo as [Hm Hh Hl Hw].
  pose proof (remove_first_spec (has_pid (sys_mem s) pr) (sys_list s)) as Hs.
  assert (forall a, a ∈ sys_list s -> a ∈ live s) as Hsub by (unfold live; set_solver).
  destruct (remove_first _ (sys_list s)) as [[x r]|].
  - destruct Hs as (l1 & l2 & El & -> & Hx & Hl1). rewrite El in *.
    eapply wp_conseq; [apply (list_del_from_proc_rcu_found k l1 x l2); try done|].
    + rewrite Hm. by apply has_pid_first.
    + intros r k' [(-> & Hwf & _) Hpub].
      destruct (publishes_run k k' s [] (l1 ++ l2) (Some x)) as (s' & ? & ? & ? & ? & ?);
        try done; [set_solver|rewrite El; by apply Hpub|set_solver|]. by exists s'.
  - destruct (sys_list s) as [|h t] eqn:El; [done|].
    eapply wp_conseq; [apply (list_del_from_proc_rcu_missing k h t); try done|].
    + intros a Ha. rewrite Hm. by apply Z.eqb_neq, Hs.
    + intros r k' (-> & Hwf & Hm'). exists s. split; [apply rtc_refl|].
      split; [|done]. split; [congruence| |by rewrite El|done].
      rewrite <- Hh. rewrite (lseg_hd _ _ _ _ (lw_chain _ _ Hwf)).
      by rewrite (lseg_hd _ _ _ _ (lw_chain _ _ Hl)).
Qed.

(** ** Claims *)



(** C0: the writers of the process list take part in that system.  From a
    kernel state with the memory and the list of the system, [list_add_rcu],
    [list_update_rcu] and [list_del_from_proc_rcu] return, and leave the
    memory and the list of a system reachable from it by stores to the node
    that is not on the list yet and one publishing store: the new node is in
    front, or in the place of the first node with the pid, or that node is
    gone; the node taken out is awaiting its grace period, the readers have
    not been disturbed. *)
Theorem list_writers_simulated k s n pr fr fuel :
  models k s -> sys_list s <> [] -> pool_wf (sys_mem s) (n :: live s) -> n ∉ live s ->
  ram pr sizeof_proc -> (length (sys_list s) <= fuel)%nat ->
  let taken (r : Z * Z) (res : option (Z * list Z)) s' :=
    match res with
    | Some (x, l') => r = (1, x) /\ sys_list s' = l' /\
        sys_removed s' = (x, S (sys_now s)) :: sys_removed s
    | None => r = (0, fr) /\ s' = s
    end in
  simulated (list_add_rcu n) k s (fun _ s' =>
    sys_list s' = n :: sys_list s /\ sys_removed s' = sys_removed s) /\
  simulated (list_update_rcu fuel n pr fr) k s (fun r =>
    taken r (replace_first (has_pid (sys_mem s) pr) n (sys_list s))) /\
  simulated (list_del_from_proc_rcu fuel pr fr) k s (fun r =>
    taken r (remove_first (has_pid (sys_mem s) pr) (sys_list s))).
Proof.
  intros Hmo Hne Hp Hn Hpr Hf. split; [by apply list_add_simulated|].
  split; [by apply list_update_simulated|]. apply list_del_simulated; try done.
  eapply pool_sub; [done|]. set_solver.
Qed.

End system.

(** ** Evaluation on a concrete system: two harts and the list of two nodes *)

#[local] Existing Instance demo_image.

Definition demo_cpu (noff idle : Z) : cpu := mkCpu 0 context0 noff 0 idle.

(** Hart 0 is the writer's and keeps out of sections; hart 1 is [h1]. *)
Definition demo_harts (h1 : rhart) : list rhart := [mkRhart (demo_cpu 0 0) 0 0 None; h1].

Definition demo_at (now : nat) (head : Z) (h1 : rhart) (wr : writer) (l : list Z)
    (rm : list (Z * nat)) : sys :=
  mkSys now demo_list_mem head (demo_harts h1) wr l rm.

(** Hart 1 outside sections, and in one that began at [t]. *)
Definition demo_out (idle p : Z) : rhart := mkRhart (demo_cpu 0 idle) 0 p None.
Definition demo_in (idle p : Z) (t : nat) (kept : bool) : rhart :=
  mkRhart (demo_cpu 1 idle) 0 p (Some (mkSection t 0 kept)).

Definition demo_sys : sys := demo_at 0 0x80040000 (demo_out 0 0) WFree demo_nodes [].

Lemma demo_initial : initial demo_sys.
Proof.
  destruct demo_list_wf as [_ _ H1 H2 H3]. split; try done.
  intros h [->|[->|Hh%elem_of_nil]%elem_of_cons]%elem_of_cons; done.
Qed.

(** A step of hart 1. *)
Lemma demo_hart_step now head h1 h1' wr l rm :
  match wr with WSync w _ _ _ _ => 1%nat <> w | WFree => True end ->
  hart_step now demo_list_mem head (rh_cpu <$> demo_harts h1) 1 h1 h1' ->
  reachable demo_sys (demo_at now head h1 wr l rm) ->
  reachable demo_sys (demo_at (S now) head h1' wr l rm).
Proof.
  intros Hr Hs H. eapply rtc_r; [exact H|].
  by apply (st_hart now _ _ (demo_harts h1) wr l rm 1 h1 h1').
Qed.

(** The kernel state in which hart 1 runs. *)
Definition demo_k (head : Z) (c1 : cpu) : kst :=
  set_hart (mkHart [demo_cpu 0 0; c1] 1 0) (demo_kst demo_list_mem 0 head).

Lemma demo_enter now head idle p wr l rm :
  idle = 0 \/ idle = 1 ->
  match wr with WSync w _ _ _ _ => 1%nat <> w | WFree => True end ->
  reachable demo_sys (demo_at now head (demo_out idle p) wr l rm) ->
  reachable demo_sys (demo_at (S now) head (demo_in idle 0 now (negb (idle =? 1))) wr l rm) /\
  reachable demo_sys (demo_at (S now) head (demo_in idle p now false) wr l rm).
Proof.
  intros Hi Hr H. assert (exists k', rcu_read_lock (demo_k head (demo_cpu 0 idle)) = Ret tt k' /\
    cur (k_hart k') = demo_cpu 1 idle /\ sstatus (k_hart k') = 0) as (k' & Hk & H1 & H2).
  { by destruct Hi as [->| ->]; eexists; split; vm_compute. }
  assert (forall q b, demo_in idle q now b =
    mkRhart (cur (k_hart k')) (sstatus (k_hart k')) q (Some (mkSection now 0 b))) as E.
  { intros q b. by rewrite H1, H2. }
  rewrite !E. split; (eapply demo_hart_step; [done| |exact H]).
  - by apply (hs_lock _ _ _ _ _ (demo_cpu 0 idle) 0 p (demo_k head (demo_cpu 0 idle))).
  - by apply (hs_lock_carry _ _ _ _ _ (demo_cpu 0 idle) 0 p (demo_k head (demo_cpu 0 idle))).
Qed.

Lemma demo_leave now head p t wr l rm :
  match wr with WSync w _ _ _ _ => 1%nat <> w | WFree => True end ->
  reachable demo_sys (demo_at now head (demo_in 0 p t true) wr l rm) ->
  reachable demo_sys (demo_at (S now) head (demo_out 0 p) wr l rm).
Proof.
  intros Hr H. assert (exists k', rcu_read_unlock (demo_k head (demo_cpu 1 0)) = Ret tt k' /\
    cur (k_hart k') = demo_cpu 0 0 /\ sstatus (k_hart k') = 0) as (k' & Hk & H1 & H2).
  { by eexists; split; vm_compute. }
  replace (demo_out 0 p) with (mkRhart (cur (k_hart k')) (sstatus (k_hart k')) p None)
    by (by rewrite H1, H2).
  eapply demo_hart_step; [done| |exact H].
  by apply (hs_unlock _ _ _ _ _ (demo_cpu 1 0) 0 p t 0 true (demo_k head (demo_cpu 1 0))).
Qed.

(** Hart 1 reads the head of the list. *)
Lemma demo_fetch now head idle p t b wr l rm :
  match wr with WSync w _ _ _ _ => 1%nat <> w | WFree => True end ->
  reachable demo_sys (demo_at now head (demo_in idle p t b) wr l rm) ->
  reachable demo_sys (demo_at (S now) head (demo_in idle head t b) wr l rm).
Proof.
  intros Hr H. eapply demo_hart_step; [done| |exact H].
  by apply (hs_head _ _ _ _ _ (demo_cpu 1 idle) 0 p _ _ (demo_k head (demo_cpu 1 idle))
    (demo_k head (demo_cpu 1 idle))).
Qed.

(** Hart 1, outside sections, sets its [idle] flag. *)
Lemma demo_set_idle now head i0 v p wr l rm :
  i0 = 0 \/ i0 = 1 -> v = 0 \/ v = 1 ->
  match wr with WSync w _ _ _ _ => 1%nat <> w | WFree => True end ->
  reachable demo_sys (demo_at now head (demo_out i0 p) wr l rm) ->
  reachable demo_sys (demo_at (S now) head (demo_out v p) wr l rm).
Proof.
  intros H0 Hv Hr H. assert (exists k',
    zoom hartL (mycpu_set (set_idle v)) (demo_k head (demo_cpu 0 i0)) = Ret tt k' /\
    cur (k_hart k') = demo_cpu 0 v) as (k' & Hk & H1).
  { by destruct H0 as [->| ->], Hv as [->| ->]; eexists; split; vm_compute. }
  replace (demo_out v p) with (mkRhart (cur (k_hart k')) 0 p (if v =? 1 then spoil None else None))
    by (rewrite H1; by destruct (v =? 1)).
  eapply demo_hart_step; [done| |exact H].
  by apply (hs_idle _ _ _ _ _ (demo_cpu 0 i0) 0 p None v (demo_k head (demo_cpu 0 i0))).
Qed.

(** Hart 0 takes the first node out and calls [synchronize_rcu]. *)
Lemma demo_unlink now h1 :
  reachable demo_sys (demo_at now 0x80040000 h1 WFree demo_nodes []) ->
  reachable demo_sys
    (demo_at (S (S now)) 0x80040010 h1 (WSync 0 0x80040000 (S now) [0; 0] [])
       [0x80040010] [(0x80040000, now)]).
Proof.
  intros H. eapply rtc_r; [eapply rtc_r; [exact H|]|].
  - apply (st_publish now demo_list_mem 0x80040000 _ demo_nodes [] demo_list_mem 0x80040010
      [0x80040010] (Some 0x80040000)).
    + exact (pub_del_head demo_list_mem 0x80040000 demo_nodes 0x80040000 [0x80040010]).
    + apply pool_wfb_ok. vm_compute. reflexivity.
  - eapply (st_sync (S now) _ _ (demo_harts h1) _ _ 0 (mkRhart (demo_cpu 0 0) 0 0 None) _ now);
      try done. by left.
Qed.

Definition demo_views (n : nat) (h1 : rhart) : list (list cpu) :=
  replicate n (rh_cpu <$> demo_harts h1).

Lemma demo_polls n now head h1 x t0 junk views l rm :
  reachable demo_sys (demo_at now head h1 (WSync 0 x t0 junk views) l rm) ->
  reachable demo_sys
    (demo_at (n + now) head h1 (WSync 0 x t0 junk (views ++ demo_views n h1)) l rm).
Proof.
  revert now views. induction n as [|n IH]; intros now views H; [by rewrite app_nil_r|].
  replace (S n + now)%nat with (n + S now)%nat by lia.
  change (demo_views (S n) h1) with ([rh_cpu <$> demo_harts h1] ++ demo_views n h1).
  rewrite app_assoc. apply IH. eapply rtc_r; [exact H|]. apply st_poll.
Qed.

(** Hart 1 is idle, hart 0 takes a node out and waits: a complete grace
    period. *)
Definition demo_waited : sys :=
  demo_at 24 0x80040010 (demo_out 1 0) (WSync 0 0x80040000 2 [0; 0] (demo_views 21 (demo_out 1 0)))
    [0x80040010] [(0x80040000, 1%nat)].

Lemma demo_waited_reachable : reachable demo_sys demo_waited.
Proof.
  assert (reachable demo_sys (demo_at 1 0x80040000 (demo_out 1 0) WFree demo_nodes [])) as H.
  { by apply (demo_set_idle 0 _ 0); [auto..| |apply rtc_refl]. }
  apply demo_unlink in H. by apply (demo_polls 21) in H.
Qed.

Lemma demo_others_idle : Forall (others_idle 0) (demo_views 21 (demo_out 1 0)).
Proof.
  apply Forall_replicate. intros i Hi Hne. exists (demo_cpu 0 1). split; [|done].
  destruct i as [|[|i]]; [done|done|]. change (S (S i) < 2)%nat in Hi. lia.
Qed.


(** A reader that holds the node while the writer waits for it. *)
Definition demo_reading (n : nat) : sys :=
  demo_at (n + 4) 0x80040010 (demo_in 0 0x80040000 0 true)
    (WSync 0 0x80040000 3 [0; 0] (demo_views n (demo_in 0 0x80040000 0 true)))
    [0x80040010] [(0x80040000, 2%nat)].

Lemma demo_reading_reachable n : reachable demo_sys (demo_reading n).
Proof.
  assert (reachable demo_sys
    (demo_at 2 0x80040000 (demo_in 0 0x80040000 0 true) WFree demo_nodes [])) as H.
  { apply (demo_fetch 1 _ _ 0); [done|]. apply (demo_enter 0 _ 0 0); [auto|done|apply rtc_refl]. }
  apply demo_unlink in H. by apply (demo_polls n) in H.
Qed.


Lemma demo_free now head h1 x t0 junk views l rm y :
  sync_run 0 views (sync_init junk) = Some y ->
  reachable demo_sys (demo_at now head h1 (WSync 0 x t0 junk views) l rm) ->
  reachable demo_sys (demo_at (S now) head h1 WFree l (filter (fun e => e.1 <> x) rm)).
Proof.
  intros Hy H. eapply rtc_r; [exact H|].
  eapply (st_free _ _ _ _ 0 x t0 junk views l rm (demo_kst demo_list_mem 0 head)).
  apply wp_ret_eq, wp_bind, wp_writers_acquire; [exact demo_hart_ok|exact demo_lock_free|].
  change (Z.to_nat (Z.of_nat 0)) with 0%nat. rewrite Hy.
  apply wp_writers_release; [exact demo_hart_ok|exact demo_lock_free|done].
Qed.

(** The rules are needed, and the kernel does not keep them.  The scheduler
    sets [idle] to 1 and then traverses the list inside a read-side section.
    A writer on another hart that unlinks the node the scheduler is at takes
    it for a quiescent hart, [synchronize_rcu] returns, and the node is freed
    under the scheduler. *)
Theorem idle_reader_loses_node :
  exists s, reachable demo_sys s /\
    exists c ss p sec, sys_harts s !! 1%nat = Some (mkRhart c ss p (Some sec)) /\
      c_idle c = 1 /\ p <> 0 /\ p ∉ live s.
Proof.
  assert (reachable demo_sys
    (demo_at 3 0x80040000 (demo_in 1 0x80040000 1 false) WFree demo_nodes [])) as H.
  { apply (demo_fetch 2 _ _ 0); [done|]. apply (demo_enter 1 _ 1 0); [auto|done|].
    by apply (demo_set_idle 0 _ 0); [auto..| |apply rtc_refl]. }
  apply demo_unlink in H. apply (demo_polls 6) in H. eapply demo_free in H; [|by vm_compute].
  eexists. split; [exact H|].
  exists (demo_cpu 1 1), 0, 0x80040000, (mkSection 1 0 false). split; [reflexivity|].
  split; [done|]. split; [done|]. apply (bool_decide_unpack _). vm_compute. exact I.
Qed.

(** [wakeup], [kill], [reparent] and [procdump] leave the section at every
    node and enter a new one before they follow its [next] pointer.  If the
    hart was idle in between, the node can be gone: the new section begins
    with a pointer to freed memory. *)
Theorem carried_pointer_lost :
  exists s, reachable demo_sys s /\
    exists c ss p sec, sys_harts s !! 1%nat = Some (mkRhart c ss p (Some sec)) /\
      c_idle c = 0 /\ p <> 0 /\ p ∉ live s.
Proof.
  assert (reachable demo_sys
    (demo_at 4 0x80040000 (demo_out 1 0x80040000) WFree demo_nodes [])) as H.
  { apply (demo_set_idle 3 _ 0); [auto..|done|]. apply (demo_leave 2 _ _ 0); [done|].
    apply (demo_fetch 1 _ _ 0); [done|]. apply (demo_enter 0 _ 0 0); [auto|done|apply rtc_refl]. }
  apply demo_unlink in H. apply (demo_polls 6) in H. eapply demo_free in H; [|by vm_compute].
  apply (demo_set_idle _ _ 1 0) in H; [|auto..|done]. apply demo_enter in H as [_ H]; [|auto|done].
  eexists. split; [exact H|].
  exists (demo_cpu 1 0), 0, 0x80040000, (mkSection 14 0 false). split; [reflexivity|].
  split; [done|]. split; [done|]. apply (bool_decide_unpack _). vm_compute. exact I.
Qed.

(** The kernel state of [RcuList]'s example and the system it is part of. *)
Lemma list_writers_simulated_witness :
  simulated (list_update_rcu 5 demo_new 0x80051000 0) demo_list_kst demo_sys (fun r s' =>
    r = (1, 0x80040010) /\ sys_list s' = [0x80040000; demo_new] /\
    sys_removed s' = [(0x80040010, 1%nat)]).
Proof.
  destruct (list_writers_simulated demo_list_kst demo_sys demo_new 0x80051000 0 5)
    as (_ & H & _); try done.
  - split; [done|done|exact demo_list_wf|done].
  - apply pool_wfb_ok. vm_compute. reflexivity.
  - apply (bool_decide_unpack _). vm_compute. exact I.
  - simpl. lia.
Defined.
