(* ===== verification/FsState.v ===== *)
(** * The file system's state

    One record holds what the file-system layers share: the running hart, the
    part of the current [struct proc] they use, the buffer cache ([bio.c]), the
    log ([log.c]), the super block and inode table ([fs.c]), the file table
    ([file.c]), the pipes ([pipe.c]), the pages [kalloc] has left, and two byte
    memories: the current process's user memory and the kernel's buffers.
    Pointers to buffers, inodes and files are indices of the arrays they point
    into; a null pointer is [None].  The disk is a map from block numbers to
    blocks, with the sequence of block writes it has received. *)
From stdpp Require Import base gmap strings numbers option list.
From S2P Require Import Prelude Layout Machine Memory.
Open Scope Z_scope.

(** ** [kernel/fs.h], [kernel/stat.h] *)
Definition ROOTINO : Z := 1.
Definition BSIZE : Z := 1024.
Definition FSMAGIC : Z := 0x10203040.
Definition NDIRECT : Z := 12.
Definition NINDIRECT : Z := BSIZE / 4.
Definition MAXFILE : Z := NDIRECT + NINDIRECT.
Definition DINODE_SIZE : Z := 64.
Definition IPB : Z := BSIZE / DINODE_SIZE.
Definition BPB : Z := BSIZE * 8.
Definition DIRSIZ : Z := 14.
Definition DIRENT_SIZE : Z := 16.
Definition PIPESIZE : Z := 512.
Definition T_DIR : Z := 1.
Definition T_FILE : Z := 2.
Definition T_DEVICE : Z := 3.

(** A disk block: [BSIZE] bytes. *)
Abbreviation block := (list Z) (only parsing).
Definition block0 : block := replicate 1024 0.

(** Channels a process sleeps on: the addresses the code passes to [sleep]. *)
Inductive wchan : Type :=
  | WBuf (b : nat)      (** [&b->lock] *)
  | WInode (i : nat)    (** [&ip->lock] *)
  | WLog                (** [&log] *)
  | WPipeR (p : Z)      (** [&pi->nread] *)
  | WPipeW (p : Z).     (** [&pi->nwrite] *)

(** [struct sleeplock] *)
Record sleeplock := mkSleep {
  sl_locked : Z;
  sl_lk : spinlock;
  sl_name : Z;
  sl_pid : Z
}.

(** [struct buf] *)
Record buf := mkBuf {
  b_valid : Z;
  b_disk : Z;
  b_dev : Z;
  b_blockno : Z;
  b_lock : sleeplock;
  b_refcnt : Z;
  b_prev : nat;
  b_next : nat;
  b_data : block
}.

(** [bcache]: the buffers in index order, then [bcache.head] at index [NBUF]. *)
Record bcache_t := mkBcache { bc_lock : spinlock; bc_buf : list buf }.

(** The disk and the writes it has received, newest first. *)
Record disk_t := mkDisk { d_blocks : gmap Z block; d_trace : list (Z * block) }.

(** [struct logheader] *)
Record logheader := mkLH { lh_n : Z; lh_block : list Z }.

(** [struct log] *)
Record log_t := mkLog {
  lg_lock : spinlock;
  lg_start : Z;
  lg_size : Z;
  lg_outstanding : Z;
  lg_committing : Z;
  lg_dev : Z;
  lg_lh : logheader
}.

(** [struct superblock] *)
Record superblock := mkSb {
  sb_magic : Z;
  sb_size : Z;
  sb_nblocks : Z;
  sb_ninodes : Z;
  sb_nlog : Z;
  sb_logstart : Z;
  sb_inodestart : Z;
  sb_bmapstart : Z
}.

(** [struct inode] *)
Record inode := mkInode {
  i_dev : Z;
  i_inum : Z;
  i_ref : Z;
  i_lock : sleeplock;
  i_valid : Z;
  i_type : Z;
  i_major : Z;
  i_minor : Z;
  i_nlink : Z;
  i_size : Z;
  i_addrs : list Z
}.

(** [itable] *)
Record itable_t := mkItable { it_lock : spinlock; it_inode : list inode }.

(** [struct file] *)
Inductive ftype : Type := FD_NONE | FD_PIPE | FD_INODE | FD_DEVICE.

Record file := mkFile {
  fi_type : ftype;
  fi_ref : Z;
  fi_readable : Z;
  fi_writable : Z;
  fi_pipe : Z;
  fi_ip : option nat;
  fi_off : Z;
  fi_major : Z
}.

(** [ftable] *)
Record ftable_t := mkFtable { ft_lock : spinlock; ft_file : list file }.

(** [struct pipe] *)
Record pipe := mkPipe {
  pi_lock : spinlock;
  pi_data : list Z;
  pi_nread : Z;
  pi_nwrite : Z;
  pi_readopen : Z;
  pi_writeopen : Z
}.

(** What the file system uses of the current [struct proc]. *)
Record fproc := mkFproc {
  fp_pid : Z;
  fp_killed : Z;
  fp_sz : Z;
  fp_ofile : list (option nat);
  fp_cwd : option nat;
  fp_tf : list Z  (** [a0] to [a7] of the trapframe *)
}.

Record fstate := mkF {
  f_hart : hartst;
  f_proc : fproc;
  f_bcache : bcache_t;
  f_disk : disk_t;
  f_log : log_t;
  f_sb : superblock;
  f_itable : itable_t;
  f_ftable : ftable_t;
  f_pipes : gmap Z pipe;
  f_pages : list Z;
  f_umem : mem;
  f_kmem : mem;
  f_woken : list wchan
}.

(** ** Field updates *)

Definition setb_valid (x : Z) (s : buf) : buf :=
  mkBuf x (b_disk s) (b_dev s) (b_blockno s) (b_lock s) (b_refcnt s) (b_prev s) (b_next s) (b_data s).
Definition setb_disk (x : Z) (s : buf) : buf :=
  mkBuf (b_valid s) x (b_dev s) (b_blockno s) (b_lock s) (b_refcnt s) (b_prev s) (b_next s) (b_data s).
Definition setb_dev (x : Z) (s : buf) : buf :=
  mkBuf (b_valid s) (b_disk s) x (b_blockno s) (b_lock s) (b_refcnt s) (b_prev s) (b_next s) (b_data s).
Definition setb_blockno (x : Z) (s : buf) : buf :=
  mkBuf (b_valid s) (b_disk s) (b_dev s) x (b_lock s) (b_refcnt s) (b_prev s) (b_next s) (b_data s).
Definition setb_lock (x : sleeplock) (s : buf) : buf :=
  mkBuf (b_valid s) (b_disk s) (b_dev s) (b_blockno s) x (b_refcnt s) (b_prev s) (b_next s) (b_data s).
Definition setb_refcnt (x : Z) (s : buf) : buf :=
  mkBuf (b_valid s) (b_disk s) (b_dev s) (b_blockno s) (b_lock s) x (b_prev s) (b_next s) (b_data s).
Definition setb_prev (x : nat) (s : buf) : buf :=
  mkBuf (b_valid s) (b_disk s) (b_dev s) (b_blockno s) (b_lock s) (b_refcnt s) x (b_next s) (b_data s).
Definition setb_next (x : nat) (s : buf) : buf :=
  mkBuf (b_valid s) (b_disk s) (b_dev s) (b_blockno s) (b_lock s) (b_refcnt s) (b_prev s) x (b_data s).
Definition setb_data (x : block) (s : buf) : buf :=
  mkBuf (b_valid s) (b_disk s) (b_dev s) (b_blockno s) (b_lock s) (b_refcnt s) (b_prev s) (b_next s) x.

Definition setl_lock (x : spinlock) (s : log_t) : log_t :=
  mkLog x (lg_start s) (lg_size s) (lg_outstanding s) (lg_committing s) (lg_dev s) (lg_lh s).
Definition setl_start (x : Z) (s : log_t) : log_t :=
  mkLog (lg_lock s) x (lg_size s) (lg_outstanding s) (lg_committing s) (lg_dev s) (lg_lh s).
Definition setl_size (x : Z) (s : log_t) : log_t :=
  mkLog (lg_lock s) (lg_start s) x (lg_outstanding s) (lg_committing s) (lg_dev s) (lg_lh s).
Definition setl_outstanding (x : Z) (s : log_t) : log_t :=
  mkLog (lg_lock s) (lg_start s) (lg_size s) x (lg_committing s) (lg_dev s) (lg_lh s).
Definition setl_committing (x : Z) (s : log_t) : log_t :=
  mkLog (lg_lock s) (lg_start s) (lg_size s) (lg_outstanding s) x (lg_dev s) (lg_lh s).
Definition setl_dev (x : Z) (s : log_t) : log_t :=
  mkLog (lg_lock s) (lg_start s) (lg_size s) (lg_outstanding s) (lg_committing s) x (lg_lh s).
Definition setl_lh (x : logheader) (s : log_t) : log_t :=
  mkLog (lg_lock s) (lg_start s) (lg_size s) (lg_outstanding s) (lg_committing s) (lg_dev s) x.

Definition seti_dev (x : Z) (s : inode) : inode :=
  mkInode x (i_inum s) (i_ref s) (i_lock s) (i_valid s) (i_type s) (i_major s) (i_minor s) (i_nlink s) (i_size s) (i_addrs s).
Definition seti_inum (x : Z) (s : inode) : inode :=
  mkInode (i_dev s) x (i_ref s) (i_lock s) (i_valid s) (i_type s) (i_major s) (i_minor s) (i_nlink s) (i_size s) (i_addrs s).
Definition seti_ref (x : Z) (s : inode) : inode :=
  mkInode (i_dev s) (i_inum s) x (i_lock s) (i_valid s) (i_type s) (i_major s) (i_minor s) (i_nlink s) (i_size s) (i_addrs s).
Definition seti_lock (x : sleeplock) (s : inode) : inode :=
  mkInode (i_dev s) (i_inum s) (i_ref s) x (i_valid s) (i_type s) (i_major s) (i_minor s) (i_nlink s) (i_size s) (i_addrs s).
Definition seti_valid (x : Z) (s : inode) : inode :=
  mkInode (i_dev s) (i_inum s) (i_ref s) (i_lock s) x (i_type s) (i_major s) (i_minor s) (i_nlink s) (i_size s) (i_addrs s).
Definition seti_type (x : Z) (s : inode) : inode :=
  mkInode (i_dev s) (i_inum s) (i_ref s) (i_lock s) (i_valid s) x (i_major s) (i_minor s) (i_nlink s) (i_size s) (i_addrs s).
Definition seti_major (x : Z) (s : inode) : inode :=
  mkInode (i_dev s) (i_inum s) (i_ref s) (i_lock s) (i_valid s) (i_type s) x (i_minor s) (i_nlink s) (i_size s) (i_addrs s).
Definition seti_minor (x : Z) (s : inode) : inode :=
  mkInode (i_dev s) (i_inum s) (i_ref s) (i_lock s) (i_valid s) (i_type s) (i_major s) x (i_nlink s) (i_size s) (i_addrs s).
Definition seti_nlink (x : Z) (s : inode) : inode :=
  mkInode (i_dev s) (i_inum s) (i_ref s) (i_lock s) (i_valid s) (i_type s) (i_major s) (i_minor s) x (i_size s) (i_addrs s).
Definition seti_size (x : Z) (s : inode) : inode :=
  mkInode (i_dev s) (i_inum s) (i_ref s) (i_lock s) (i_valid s) (i_type s) (i_major s) (i_minor s) (i_nlink s) x (i_addrs s).
Definition seti_addrs (x : list Z) (s : inode) : inode :=
  mkInode (i_dev s) (i_inum s) (i_ref s) (i_lock s) (i_valid s) (i_type s) (i_major s) (i_minor s) (i_nlink s) (i_size s) x.

Definition setfi_type (x : ftype) (s : file) : file :=
  mkFile x (fi_ref s) (fi_readable s) (fi_writable s) (fi_pipe s) (fi_ip s) (fi_off s) (fi_major s).
Definition setfi_ref (x : Z) (s : file) : file :=
  mkFile (fi_type s) x (fi_readable s) (fi_writable s) (fi_pipe s) (fi_ip s) (fi_off s) (fi_major s).
Definition setfi_readable (x : Z) (s : file) : file :=
  mkFile (fi_type s) (fi_ref s) x (fi_writable s) (fi_pipe s) (fi_ip s) (fi_off s) (fi_major s).
Definition setfi_writable (x : Z) (s : file) : file :=
  mkFile (fi_type s) (fi_ref s) (fi_readable s) x (fi_pipe s) (fi_ip s) (fi_off s) (fi_major s).
Definition setfi_pipe (x : Z) (s : file) : file :=
  mkFile (fi_type s) (fi_ref s) (fi_readable s) (fi_writable s) x (fi_ip s) (fi_off s) (fi_major s).
Definition setfi_ip (x : option nat) (s : file) : file :=
  mkFile (fi_type s) (fi_ref s) (fi_readable s) (fi_writable s) (fi_pipe s) x (fi_off s) (fi_major s).
Definition setfi_off (x : Z) (s : file) : file :=
  mkFile (fi_type s) (fi_ref s) (fi_readable s) (fi_writable s) (fi_pipe s) (fi_ip s) x (fi_major s).
Definition setfi_major (x : Z) (s : file) : file :=
  mkFile (fi_type s) (fi_ref s) (fi_readable s) (fi_writable s) (fi_pipe s) (fi_ip s) (fi_off s) x.

Definition setpi_lock (x : spinlock) (s : pipe) : pipe :=
  mkPipe x (pi_data s) (pi_nread s) (pi_nwrite s) (pi_readopen s) (pi_writeopen s).
Definition setpi_data (x : list Z) (s : pipe) : pipe :=
  mkPipe (pi_lock s) x (pi_nread s) (pi_nwrite s) (pi_readopen s) (pi_writeopen s).
Definition setpi_nread (x : Z) (s : pipe) : pipe :=
  mkPipe (pi_lock s) (pi_data s) x (pi_nwrite s) (pi_readopen s) (pi_writeopen s).
Definition setpi_nwrite (x : Z) (s : pipe) : pipe :=
  mkPipe (pi_lock s) (pi_data s) (pi_nread s) x (pi_readopen s) (pi_writeopen s).
Definition setpi_readopen (x : Z) (s : pipe) : pipe :=
  mkPipe (pi_lock s) (pi_data s) (pi_nread s) (pi_nwrite s) x (pi_writeopen s).
Definition setpi_writeopen (x : Z) (s : pipe) : pipe :=
  mkPipe (pi_lock s) (pi_data s) (pi_nread s) (pi_nwrite s) (pi_readopen s) x.

Definition setf_hart (x : hartst) (s : fstate) : fstate :=
  mkF x (f_proc s) (f_bcache s) (f_disk s) (f_log s) (f_sb s) (f_itable s) (f_ftable s) (f_pipes s) (f_pages s) (f_umem s) (f_kmem s) (f_woken s).
Definition setf_proc (x : fproc) (s : fstate) : fstate :=
  mkF (f_hart s) x (f_bcache s) (f_disk s) (f_log s) (f_sb s) (f_itable s) (f_ftable s) (f_pipes s) (f_pages s) (f_umem s) (f_kmem s) (f_woken s).
Definition setf_bcache (x : bcache_t) (s : fstate) : fstate :=
  mkF (f_hart s) (f_proc s) x (f_disk s) (f_log s) (f_sb s) (f_itable s) (f_ftable s) (f_pipes s) (f_pages s) (f_umem s) (f_kmem s) (f_woken s).
Definition setf_disk (x : disk_t) (s : fstate) : fstate :=
  mkF (f_hart s) (f_proc s) (f_bcache s) x (f_log s) (f_sb s) (f_itable s) (f_ftable s) (f_pipes s) (f_pages s) (f_umem s) (f_kmem s) (f_woken s).
Definition setf_log (x : log_t) (s : fstate) : fstate :=
  mkF (f_hart s) (f_proc s) (f_bcache s) (f_disk s) x (f_sb s) (f_itable s) (f_ftable s) (f_pipes s) (f_pages s) (f_umem s) (f_kmem s) (f_woken s).
Definition setf_sb (x : superblock) (s : fstate) : fstate :=
  mkF (f_hart s) (f_proc s) (f_bcache s) (f_disk s) (f_log s) x (f_itable s) (f_ftable s) (f_pipes s) (f_pages s) (f_umem s) (f_kmem s) (f_woken s).
Definition setf_itable (x : itable_t) (s : fstate) : fstate :=
  mkF (f_hart s) (f_proc s) (f_bcache s) (f_disk s) (f_log s) (f_sb s) x (f_ftable s) (f_pipes s) (f_pages s) (f_umem s) (f_kmem s) (f_woken s).
Definition setf_ftable (x : ftable_t) (s : fstate) : fstate :=
  mkF (f_hart s) (f_proc s) (f_bcache s) (f_disk s) (f_log s) (f_sb s) (f_itable s) x (f_pipes s) (f_pages s) (f_umem s) (f_kmem s) (f_woken s).
Definition setf_pipes (x : gmap Z pipe) (s : fstate) : fstate :=
  mkF (f_hart s) (f_proc s) (f_bcache s) (f_disk s) (f_log s) (f_sb s) (f_itable s) (f_ftable s) x (f_pages s) (f_umem s) (f_kmem s) (f_woken s).
Definition setf_pages (x : list Z) (s : fstate) : fstate :=
  mkF (f_hart s) (f_proc s) (f_bcache s) (f_disk s) (f_log s) (f_sb s) (f_itable s) (f_ftable s) (f_pipes s) x (f_umem s) (f_kmem s) (f_woken s).
Definition setf_umem (x : mem) (s : fstate) : fstate :=
  mkF (f_hart s) (f_proc s) (f_bcache s) (f_disk s) (f_log s) (f_sb s) (f_itable s) (f_ftable s) (f_pipes s) (f_pages s) x (f_kmem s) (f_woken s).
Definition setf_kmem (x : mem) (s : fstate) : fstate :=
  mkF (f_hart s) (f_proc s) (f_bcache s) (f_disk s) (f_log s) (f_sb s) (f_itable s) (f_ftable s) (f_pipes s) (f_pages s) (f_umem s) x (f_woken s).
Definition setf_woken (x : list wchan) (s : fstate) : fstate :=
  mkF (f_hart s) (f_proc s) (f_bcache s) (f_disk s) (f_log s) (f_sb s) (f_itable s) (f_ftable s) (f_pipes s) (f_pages s) (f_umem s) (f_kmem s) x.

(** ** Parts of the state *)

Definition bufs (s : fstate) : list buf := bc_buf (f_bcache s).
Definition set_bufs (l : list buf) (s : fstate) : fstate :=
  setf_bcache (mkBcache (bc_lock (f_bcache s)) l) s.
Definition inodes (s : fstate) : list inode := it_inode (f_itable s).
Definition set_inodes (l : list inode) (s : fstate) : fstate :=
  setf_itable (mkItable (it_lock (f_itable s)) l) s.
Definition files (s : fstate) : list file := ft_file (f_ftable s).
Definition set_files (l : list file) (s : fstate) : fstate :=
  setf_ftable (mkFtable (ft_lock (f_ftable s)) l) s.

(** The hart with one of the spin locks. *)
Definition bcacheL : lens fstate (hartst * spinlock) :=
  Lens (fun s => (f_hart s, bc_lock (f_bcache s)))
       (fun p s => setf_bcache (mkBcache p.2 (bc_buf (f_bcache s))) (setf_hart p.1 s)).
Definition logL : lens fstate (hartst * spinlock) :=
  Lens (fun s => (f_hart s, lg_lock (f_log s)))
       (fun p s => setf_log (setl_lock p.2 (f_log s)) (setf_hart p.1 s)).
Definition itableL : lens fstate (hartst * spinlock) :=
  Lens (fun s => (f_hart s, it_lock (f_itable s)))
       (fun p s => setf_itable (mkItable p.2 (it_inode (f_itable s))) (setf_hart p.1 s)).
Definition ftableL : lens fstate (hartst * spinlock) :=
  Lens (fun s => (f_hart s, ft_lock (f_ftable s)))
       (fun p s => setf_ftable (mkFtable p.2 (ft_file (f_ftable s))) (setf_hart p.1 s)).

(** ** The rest of the machine, as the file system sees it

    [env c s] is what the other threads have made of state [s] when a sleep on
    channel [c] returns; [patience] bounds how many times one call sleeps
    before the model gives up on it.  [u_mapped] says which user addresses
    [copyin] and [copyout] can reach.  [virtio_disk_rw b w] stands for the
    driver as [bio.c] uses it, with [w] its [write] argument: what it promises
    is [WorldOk] below, which leaves out what other threads do to the rest of
    the state while the call sleeps; the driver itself is modelled in [Virtio],
    and [VirtioBio] shows that the request it makes is this transfer.  [dev_read] and
    [dev_write] are the entries of [devsw]. *)
Class World := {
  env : wchan -> fstate -> fstate;
  patience : nat;
  u_mapped : Z -> bool;
  virtio_disk_rw : nat -> bool -> M fstate unit;
  dev_read : Z -> option (Z -> Z -> Z -> M fstate Z);
  dev_write : Z -> option (Z -> Z -> Z -> M fstate Z)
}.

Definition disk_get (d : disk_t) (bno : Z) : block := default block0 (d_blocks d !! bno).
Definition disk_put (bno : Z) (v : block) (d : disk_t) : disk_t :=
  mkDisk (<[bno := v]> (d_blocks d)) ((bno, v) :: d_trace d).

(** What a completed transfer does: a write puts the buffer on the disk, a
    read fills the buffer from it. *)
Definition disk_effect (b : nat) (w : bool) (s : fstate) : fstate :=
  match bufs s !! b with
  | None => s
  | Some x =>
      if w then setf_disk (disk_put (b_blockno x) (b_data x) (f_disk s)) s
      else set_bufs (<[b := setb_data (disk_get (f_disk s) (b_blockno x)) x]> (bufs s)) s
  end.

(** The driver's contract: the call returns when the transfer is done. *)
Class WorldOk (w : World) : Prop := {
  disk_rw_ok : forall b dir s, is_Some (bufs s !! b) ->
    virtio_disk_rw b dir s = Ret tt (disk_effect b dir s)
}.

(** [wakeup(chan)]: the channels woken are recorded, newest first; which
    process that makes runnable is not part of this state. *)
Definition wakeup (c : wchan) : M fstate unit := modify (fun s => setf_woken (c :: f_woken s) s).

(** [sleep(chan, lk)]: give the lock up, let the others run, take it again. *)
Definition sleep `{im : Image} `{World} (c : wchan) (l : lens fstate (hartst * spinlock))
  : M fstate unit :=
  zoom l release;; modify (env c);; zoom l acquire.

(** [while(cond) sleep(c, l)] with the retries bounded. *)
Definition sleep_while `{im : Image} `{World} (cond : fstate -> bool) (c : wchan)
    (l : lens fstate (hartst * spinlock)) : M fstate unit :=
  loop (S patience) (fun _ : unit =>
    b ← gets cond;
    if (b : bool) then sleep c l;; mret (inl tt) else mret (inr tt)) tt.
