(* ===== verification/Block.v ===== *)
(** * Bytes inside a disk block

    The file system casts [bp->data] to its on-disk structures.  A block is a
    list of bytes; these are the little-endian fields at byte offsets of it. *)
From stdpp Require Import base gmap strings numbers option list.
From S2P Require Import Prelude Layout Machine Memory FsState.
Open Scope Z_scope.

(** Overwrite the bytes from offset [off] on; bytes beyond the end are lost. *)
Definition bput (l : list Z) (off : Z) (bs : list Z) : list Z :=
  imap (fun i x => if decide (off <= Z.of_nat i < off + Z.of_nat (length bs))
                   then nth (Z.to_nat (Z.of_nat i - off)) bs 0 else x) l.

(** The [n] bytes from offset [off] on. *)
Definition bsub (l : list Z) (off : Z) (n : nat) : list Z :=
  (fun i => nth (Z.to_nat (off + Z.of_nat i)) l 0) <$> seq 0 n.

Fixpoint le_bytes (n : nat) (v : Z) : list Z :=
  match n with
  | O => []
  | S n' => u8 v :: le_bytes n' (v / 256)
  end.
Fixpoint le_val (l : list Z) : Z :=
  match l with
  | [] => 0
  | b :: l' => u8 b + 256 * le_val l'
  end.

Definition bld (n : nat) (l : list Z) (off : Z) : Z := le_val (bsub l off n).
Definition bst (n : nat) (l : list Z) (off v : Z) : list Z := bput l off (le_bytes n v).

Abbreviation bld16 := (bld 2).
Abbreviation bld32 := (bld 4).
Abbreviation bst16 := (bst 2).
Abbreviation bst32 := (bst 4).

Definition i16 (z : Z) : Z := (z + 2 ^ 15) mod 2 ^ 16 - 2 ^ 15.

Lemma length_bput l off bs : length (bput l off bs) = length l.
Proof. apply length_imap. Qed.
Lemma length_le_bytes n v : length (le_bytes n v) = n.
Proof. revert v. induction n as [|n IH]; intros v; simpl; [done|]. by rewrite IH. Qed.
Lemma length_bst n l off v : length (bst n l off v) = length l.
Proof. apply length_bput. Qed.
Lemma length_bsub l off n : length (bsub l off n) = n.
Proof. unfold bsub. by rewrite length_fmap, length_seq. Qed.

Lemma nth_bput l off bs i :
  (i < length l)%nat ->
  nth i (bput l off bs) 0
  = if decide (off <= Z.of_nat i < off + Z.of_nat (length bs))
    then nth (Z.to_nat (Z.of_nat i - off)) bs 0 else nth i l 0.
Proof.
  intros Hi. destruct (lookup_lt_is_Some_2 l i Hi) as [x Hx].
  rewrite (nth_lookup_Some _ _ _ _ Hx). apply nth_lookup_Some.
  unfold bput. rewrite list_lookup_imap, Hx. done.
Qed.

Lemma bsub_ext l l' off off' n :
  (forall i, (i < n)%nat -> nth (Z.to_nat (off + Z.of_nat i)) l 0
                            = nth (Z.to_nat (off' + Z.of_nat i)) l' 0) ->
  bsub l off n = bsub l' off' n.
Proof.
  intros H. unfold bsub. apply list_fmap_ext. intros i x Hx.
  apply lookup_seq in Hx as [-> Hx]. by apply H.
Qed.

(** What was written is read back; other bytes are as before. *)
Lemma bsub_bput l off bs :
  0 <= off -> off + Z.of_nat (length bs) <= Z.of_nat (length l) ->
  bsub (bput l off bs) off (length bs) = bs.
Proof.
  intros H0 H1. apply list_eq. intros i. unfold bsub. rewrite list_lookup_fmap.
  destruct (decide (i < length bs)%nat) as [Hi|Hi].
  - rewrite lookup_seq_lt by done. simpl. rewrite nth_bput by lia.
    rewrite decide_True by lia.
    replace (Z.to_nat (Z.of_nat (Z.to_nat (off + Z.of_nat i)) - off)) with i by lia.
    destruct (lookup_lt_is_Some_2 bs i Hi) as [x Hx]. rewrite Hx. f_equal.
    by apply nth_lookup_Some.
  - rewrite lookup_seq_ge by lia. symmetry. by apply lookup_ge_None_2; lia.
Qed.

Lemma bsub_bput_disj l off bs off' n :
  0 <= off' -> off' + Z.of_nat n <= Z.of_nat (length l) ->
  off + Z.of_nat (length bs) <= off' \/ off' + Z.of_nat n <= off ->
  bsub (bput l off bs) off' n = bsub l off' n.
Proof.
  intros H0 H1 Hd. apply bsub_ext. intros i Hi. rewrite nth_bput by lia.
  by rewrite decide_False by lia.
Qed.

Lemma le_val_bytes n v : le_val (le_bytes n v) = v mod 256 ^ Z.of_nat n.
Proof.
  revert v. induction n as [|n IH]; intros v.
  { simpl. by rewrite Z.mod_1_r. }
  cbn [le_bytes le_val]. rewrite IH, u8_u8.
  rewrite Nat2Z.inj_succ, Z.pow_succ_r by lia. rewrite Z.rem_mul_r by lia.
  unfold u8. change (2 ^ 8) with 256. lia.
Qed.

Lemma le_val_range l : 0 <= le_val l < 256 ^ Z.of_nat (length l).
Proof.
  induction l as [|b l IH]; cbn [le_val length]; [lia|]. pose proof (u8_range b).
  rewrite Nat2Z.inj_succ, Z.pow_succ_r by lia. lia.
Qed.

Lemma bld_range n l off : 0 <= bld n l off < 256 ^ Z.of_nat n.
Proof. unfold bld. pose proof (le_val_range (bsub l off n)) as H. by rewrite length_bsub in H. Qed.

Lemma bld_bst n l off v :
  0 <= off -> off + Z.of_nat n <= Z.of_nat (length l) ->
  bld n (bst n l off v) off = v mod 256 ^ Z.of_nat n.
Proof.
  intros H0 H1. unfold bld, bst. rewrite <- (length_le_bytes n v) at 2.
  rewrite bsub_bput by (by rewrite ?length_le_bytes). apply le_val_bytes.
Qed.

Lemma bld_bst_disj n l off v k off' :
  0 <= off' -> off' + Z.of_nat k <= Z.of_nat (length l) ->
  off + Z.of_nat n <= off' \/ off' + Z.of_nat k <= off ->
  bld k (bst n l off v) off' = bld k l off'.
Proof.
  intros H0 H1 Hd. unfold bld, bst. rewrite bsub_bput_disj; rewrite ?length_le_bytes; done.
Qed.

Lemma bld32_bst32 l off v :
  0 <= off -> off + 4 <= Z.of_nat (length l) -> 0 <= v < 2 ^ 32 ->
  bld32 (bst32 l off v) off = v.
Proof. intros. rewrite bld_bst by lia. apply Z.mod_small. lia. Qed.

#[global] Opaque bput bsub.
Arguments bld : simpl never.
Arguments bst : simpl never.
