(* ===== verification/Sleeplock.v ===== *)
(** * Sleep locks ([kernel/sleeplock.c])

    The operations are written against a lens that picks the sleep lock out of
    the state, so that buffers and inodes share them.  [SleepLens] states what
    such a lens has to satisfy. *)
From stdpp Require Import base gmap strings numbers option list.
From S2P Require Import Prelude Layout Machine Memory Kernel FsState.
Open Scope Z_scope.

(** The hart with the spin lock inside a sleep lock. *)
Definition innerL (l : lens fstate sleeplock) : lens fstate (hartst * spinlock) :=
  Lens (fun s => (f_hart s, sl_lk (lget l s)))
       (fun p s => let x := lget l s in
          lset l (mkSleep (sl_locked x) p.2 (sl_name x) (sl_pid x)) (setf_hart p.1 s)).

Section sleeplock.
Context `{im : Image} `{W : World}.

Definition initsleeplock (name : Z) : M sleeplock unit :=
  zoom (Lens sl_lk (fun k x => mkSleep (sl_locked x) k (sl_name x) (sl_pid x)))
       (initlock (strlit "sleep lock"));;
  modify (fun x => mkSleep (sl_locked x) (sl_lk x) name (sl_pid x));;
  modify (fun x => mkSleep 0 (sl_lk x) (sl_name x) (sl_pid x));;
  modify (fun x => mkSleep (sl_locked x) (sl_lk x) (sl_name x) 0).

Definition set_locked (v : Z) : M sleeplock unit :=
  modify (fun x => mkSleep v (sl_lk x) (sl_name x) (sl_pid x)).
Definition set_pid (v : Z) : M sleeplock unit :=
  modify (fun x => mkSleep (sl_locked x) (sl_lk x) (sl_name x) v).

Definition acquiresleep (l : lens fstate sleeplock) (c : wchan) : M fstate unit :=
  zoom (innerL l) acquire;;
  sleep_while (fun s => negb (sl_locked (lget l s) =? 0)) c (innerL l);;
  zoom l (set_locked 1);;
  pid ← gets (fun s => fp_pid (f_proc s));
  zoom l (set_pid pid);;
  zoom (innerL l) release.

Definition releasesleep (l : lens fstate sleeplock) (c : wchan) : M fstate unit :=
  zoom (innerL l) acquire;;
  zoom l (set_locked 0);;
  zoom l (set_pid 0);;
  wakeup c;;
  zoom (innerL l) release.

Definition holdingsleep (l : lens fstate sleeplock) : M fstate bool :=
  zoom (innerL l) acquire;;
  x ← gets (lget l);
  pid ← gets (fun s => fp_pid (f_proc s));
  let r := negb (sl_locked x =? 0) && (sl_pid x =? pid) in
  zoom (innerL l) release;;
  mret r.

(** ** Critical sections on a settled hart

    A hart that has completed a lock round trip is a fixed point of the next
    one, so the file system's operations leave it as they found it. *)

Definition hart_quiet (h : hartst) : Prop := hart_ok h /\ settle h = h.

Lemma hart_quiet_settle h : hart_ok h -> hart_quiet (settle h).
Proof. intros. split; [by apply hart_ok_settle|by apply settle_settle]. Qed.

Lemma wp_lock {S} (l : lens S (hartst * spinlock)) h lk Q s :
  lget l s = (h, lk) -> hart_quiet h -> lock_free lk ->
  Q tt (lset l (acquired h, held h lk) s) -> wp (zoom l acquire) Q s.
Proof. intros Hg [Hok _] [Hl _] HQ. apply wp_acquire; by rewrite Hg. Qed.

Lemma wp_unlock {S} (l : lens S (hartst * spinlock)) h lk Q s :
  lget l s = (acquired h, held h lk) -> hart_quiet h -> lock_free lk ->
  Q tt (lset l (h, lk) s) -> wp (zoom l release) Q s.
Proof.
  intros Hg [Hok Hs] Hf HQ. pose proof (cur_noff_nonneg h Hok).
  apply wp_release; rewrite Hg; simpl; try done.
  - by apply hart_ok_acquired.
  - rewrite acquired_noff by done. lia.
  - rewrite popped_acquired, Hs, lock_free_eta by done. done.
Qed.

Lemma wp_no_sleep cond c l Q s : cond s = false -> Q tt s -> wp (sleep_while cond c l) Q s.
Proof.
  intros Hc HQ. unfold sleep_while. cbn [loop]. apply wp_bind, wp_bind, wp_gets.
  rewrite Hc. by apply wp_ret, wp_ret.
Qed.

(** ** Lenses to sleep locks *)

(** [V s] says that the lens points at something in [s]. *)
Class SleepLens (l : lens fstate sleeplock) (V : fstate -> Prop) : Prop := {
  sln_V : forall x s, V s -> V (lset l x s);
  sln_Vh : forall h s, V s -> V (setf_hart h s);
  sln_Vw : forall w s, V s -> V (setf_woken w s);
  sln_gs : forall x s, V s -> lget l (lset l x s) = x;
  sln_sg : forall s, V s -> lset l (lget l s) s = s;
  sln_ss : forall x y s, lset l x (lset l y s) = lset l x s;
  sln_gh : forall h s, lget l (setf_hart h s) = lget l s;
  sln_gw : forall w s, lget l (setf_woken w s) = lget l s;
  sln_sh : forall x h s, lset l x (setf_hart h s) = setf_hart h (lset l x s);
  sln_sw : forall x w s, lset l x (setf_woken w s) = setf_woken w (lset l x s);
  sln_h : forall x s, f_hart (lset l x s) = f_hart s;
  sln_w : forall x s, f_woken (lset l x s) = f_woken s;
  sln_p : forall x s, f_proc (lset l x s) = f_proc s
}.

(** Nobody holds the sleep lock, or its spin lock. *)
Definition sleep_free (x : sleeplock) : Prop :=
  sl_locked x = 0 /\ sl_pid x = 0 /\ lock_free (sl_lk x).

(** Process [pid] holds it. *)
Definition sleep_held (pid : Z) (x : sleeplock) : Prop :=
  sl_locked x = 1 /\ sl_pid x = pid /\ lock_free (sl_lk x).

Definition take_sleep (pid : Z) (x : sleeplock) : sleeplock :=
  mkSleep 1 (sl_lk x) (sl_name x) pid.
Definition drop_sleep (x : sleeplock) : sleeplock := mkSleep 0 (sl_lk x) (sl_name x) 0.

Lemma sleep_held_take pid x : sleep_free x -> sleep_held pid (take_sleep pid x).
Proof. by intros (_ & _ & H). Qed.
Lemma sleep_free_drop pid x : sleep_held pid x -> sleep_free (drop_sleep x).
Proof. by intros (_ & _ & H). Qed.

Section ops.
Context (l : lens fstate sleeplock) (V : fstate -> Prop) `{L : !SleepLens l V}.

Ltac sl := repeat first
  [ rewrite sln_gh | rewrite sln_gw | rewrite sln_sh | rewrite sln_sw | rewrite sln_h
  | rewrite sln_p | rewrite sln_w | rewrite sln_ss
  | rewrite sln_gs by (repeat first [assumption | apply sln_V | apply sln_Vh | apply sln_Vw])
  | progress simpl ].

Lemma setf_hart_id s : setf_hart (f_hart s) s = s.
Proof. by destruct s. Qed.
Lemma setf_hart_twice h h' s : setf_hart h (setf_hart h' s) = setf_hart h s.
Proof. done. Qed.

Lemma acquiresleep_eq c s :
  V s -> hart_quiet (f_hart s) -> sleep_free (lget l s) ->
  acquiresleep l c s = Ret tt (lset l (take_sleep (fp_pid (f_proc s)) (lget l s)) s).
Proof.
  intros HV Hq (Hf & _ & Hlk). apply wp_ret_eq. unfold acquiresleep.
  apply wp_bind. eapply wp_lock; [done|done|done|]. cbn [lset innerL]. sl.
  apply wp_bind, wp_no_sleep; [sl; by rewrite Hf|].
  apply wp_bind, wp_zoom, wp_modify. sl. apply wp_bind, wp_gets. sl.
  apply wp_bind, wp_zoom, wp_modify. sl.
  eapply wp_unlock; [cbn [lget innerL]; sl; reflexivity|done|done|]. cbn [lset innerL]. sl.
  split; [done|]. rewrite !setf_hart_twice. rewrite <- (sln_h (take_sleep (fp_pid (f_proc s)) (lget l s)) s) at 1.
  by rewrite setf_hart_id.
Qed.

Lemma releasesleep_eq c s :
  V s -> hart_quiet (f_hart s) -> lock_free (sl_lk (lget l s)) ->
  releasesleep l c s
  = Ret tt (setf_woken (c :: f_woken s) (lset l (drop_sleep (lget l s)) s)).
Proof.
  intros HV Hq Hlk. apply wp_ret_eq. unfold releasesleep.
  apply wp_bind. eapply wp_lock; [done|done|done|]. cbn [lset innerL]. sl.
  do 2 (apply wp_bind, wp_zoom, wp_modify; sl).
  apply wp_bind, wp_modify. sl.
  eapply wp_unlock; [cbn [lget innerL]; sl; reflexivity|done|done|]. cbn [lset innerL]. sl.
  split; [done|]. unfold drop_sleep.
  set (t := lset l _ s). assert (f_hart s = f_hart t) as -> by (symmetry; apply sln_h).
  by destruct t.
Qed.

Lemma holdingsleep_eq s :
  V s -> hart_quiet (f_hart s) -> lock_free (sl_lk (lget l s)) ->
  holdingsleep l s
  = Ret (negb (sl_locked (lget l s) =? 0) && (sl_pid (lget l s) =? fp_pid (f_proc s))) s.
Proof.
  intros HV Hq Hlk. apply wp_ret_eq. unfold holdingsleep.
  apply wp_bind. eapply wp_lock; [done|done|done|]. cbn [lset innerL]. sl.
  do 2 (apply wp_bind, wp_gets; sl). apply wp_bind.
  eapply wp_unlock; [cbn [lget innerL]; sl; reflexivity|done|done|]. cbn [lset innerL]. sl.
  apply wp_ret. split; [done|].
  assert (mkSleep (sl_locked (lget l s)) (sl_lk (lget l s)) (sl_name (lget l s))
    (sl_pid (lget l s)) = lget l s) as -> by (by destruct (lget l s)).
  rewrite sln_sg by done. rewrite setf_hart_twice. apply setf_hart_id.
Qed.

Lemma holdingsleep_held s :
  V s -> hart_quiet (f_hart s) -> sleep_held (fp_pid (f_proc s)) (lget l s) ->
  holdingsleep l s = Ret true s.
Proof.
  intros HV Hq (Hl & Hp & Hlk). rewrite holdingsleep_eq by done.
  by rewrite Hl, Hp, Z.eqb_refl.
Qed.

End ops.

End sleeplock.
