(* ===== verification/Bio.v ===== *)
(** * The buffer cache ([kernel/bio.c])

    The buffers are the array [bcache.buf] with [bcache.head] after them; the
    doubly linked LRU list runs through their [prev] and [next] fields, as
    indices.  The first part translates the code; the rest shows that it
    implements a map of referenced blocks over the disk. *)
From stdpp Require Import base gmap strings numbers option list.
From S2P Require Import Prelude Layout Machine Memory Kernel Demo FsState Sleeplock.
Open Scope Z_scope.

(** ** The code *)

(** [&bcache.head] *)
Definition HEAD : nat := Z.to_nat NBUF.

Definition sleep0 : sleeplock := mkSleep 0 (mkLock 0 0 0) 0 0.

Definition bufsleepL (b : nat) : lens fstate sleeplock :=
  Lens (fun s => default sleep0 (b_lock <$> bufs s !! b))
       (fun x s => set_bufs (alter (setb_lock x) b (bufs s)) s).

(** [*b] and the assignments [b->field = ...]. *)
Definition getb (b : nat) : M fstate buf := fun s =>
  match bufs s !! b with
  | Some x => Ret x s
  | None => Err (EFault (Z.of_nat b)) s
  end.
Definition updb (b : nat) (f : buf -> buf) : M fstate unit :=
  _ ← getb b; modify (fun s => set_bufs (alter f b (bufs s)) s).

Section bio.
Context `{im : Image} `{W : World}.

Definition binit : M fstate unit :=
  zoom bcacheL (zoom lsnd (initlock (strlit "bcache")));;
  updb HEAD (setb_prev HEAD);;
  updb HEAD (setb_next HEAD);;
  forM (seq 0 (Z.to_nat NBUF)) (fun b =>
    h ← getb HEAD;
    updb b (setb_next (b_next h));;
    updb b (setb_prev HEAD);;
    zoom (bufsleepL b) (initsleeplock (strlit "buffer"));;
    h ← getb HEAD;
    updb (b_next h) (setb_prev b);;
    updb HEAD (setb_next b)).

(** The two searches of [bget]: from [b] along [dir] until the head. *)
Definition bsearch_step (dir : buf -> nat) (hit : buf -> bool) (b : nat)
  : M fstate (nat + option nat) :=
  if (b =? HEAD)%nat then mret (inr None) else
  x ← getb b;
  if hit x then mret (inr (Some b)) else mret (inl (dir x)).

Definition bsearch (dir : buf -> nat) (hit : buf -> bool) (b : nat) : M fstate (option nat) :=
  loop (S (S HEAD)) (bsearch_step dir hit) b.

(** [refcnt] is counted without a bound: the code's [uint] would wrap after
    2^32 references to one buffer, and nothing in it prevents that. *)
Definition bget (dev blockno : Z) : M fstate nat :=
  zoom bcacheL acquire;;
  h ← getb HEAD;
  r ← bsearch b_next (fun x => (b_dev x =? dev) && (b_blockno x =? blockno)) (b_next h);
  match r with
  | Some b =>
      x ← getb b;
      updb b (setb_refcnt (b_refcnt x + 1));;
      zoom bcacheL release;;
      acquiresleep (bufsleepL b) (WBuf b);;
      mret b
  | None =>
      h ← getb HEAD;
      r ← bsearch b_prev (fun x => b_refcnt x =? 0) (b_prev h);
      match r with
      | Some b =>
          updb b (setb_dev dev);;
          updb b (setb_blockno blockno);;
          updb b (setb_valid 0);;
          updb b (setb_refcnt 1);;
          zoom bcacheL release;;
          acquiresleep (bufsleepL b) (WBuf b);;
          mret b
      | None => panic "bget: no buffers"
      end
  end.

Definition bread (dev blockno : Z) : M fstate nat :=
  b ← bget dev blockno;
  x ← getb b;
  (if b_valid x =? 0 then virtio_disk_rw b false;; updb b (setb_valid 1) else skip);;
  mret b.

Definition bwrite (b : nat) : M fstate unit :=
  r ← holdingsleep (bufsleepL b);
  if negb r then panic "bwrite" else virtio_disk_rw b true.

(** [brelse]'s list surgery: out of the list, then in at its head. *)
Definition brelse_move (b : nat) : M fstate unit :=
  x ← getb b;
  updb (b_next x) (setb_prev (b_prev x));;
  x ← getb b;
  updb (b_prev x) (setb_next (b_next x));;
  h ← getb HEAD;
  updb b (setb_next (b_next h));;
  updb b (setb_prev HEAD);;
  h ← getb HEAD;
  updb (b_next h) (setb_prev b);;
  updb HEAD (setb_next b).

Definition brelse (b : nat) : M fstate unit :=
  r ← holdingsleep (bufsleepL b);
  if negb r then panic "brelse" else
  releasesleep (bufsleepL b) (WBuf b);;
  zoom bcacheL acquire;;
  x ← getb b;
  updb b (setb_refcnt (b_refcnt x - 1));;
  x ← getb b;
  (if b_refcnt x =? 0 then brelse_move b else skip);;
  zoom bcacheL release.

Definition bpin (b : nat) : M fstate unit :=
  zoom bcacheL acquire;;
  x ← getb b;
  updb b (setb_refcnt (b_refcnt x + 1));;
  zoom bcacheL release.

Definition bunpin (b : nat) : M fstate unit :=
  zoom bcacheL acquire;;
  x ← getb b;
  updb b (setb_refcnt (b_refcnt x - 1));;
  zoom bcacheL release.

End bio.

(** ** Rings of indices *)

Section chain.
Implicit Types nx pv : nat -> nat.

(** [a], the elements of [l] and [z] are linked in this order. *)
Fixpoint chain nx pv (a : nat) (l : list nat) (z : nat) : Prop :=
  match l with
  | [] => nx a = z /\ pv z = a
  | x :: l' => (nx a = x /\ pv x = a) /\ chain nx pv x l' z
  end.

Lemma chain_app nx pv a l1 b l2 z :
  chain nx pv a (l1 ++ b :: l2) z <-> chain nx pv a l1 b /\ chain nx pv b l2 z.
Proof. revert a. induction l1 as [|x l1 IH]; intros a; simpl; [tauto|]. rewrite IH. tauto. Qed.

Lemma chain_rev nx pv a l z : chain nx pv a l z -> chain pv nx z (rev l) a.
Proof.
  revert a. induction l as [|x l IH]; intros a; simpl; [tauto|].
  intros [[H1 H2] H]. apply chain_app. split; [by apply IH|done].
Qed.

Lemma chain_frame nx pv nx' pv' a l z :
  chain nx pv a l z ->
  (forall j, j ∈ a :: l -> nx' j = nx j) -> (forall j, j ∈ l ++ [z] -> pv' j = pv j) ->
  chain nx' pv' a l z.
Proof.
  revert a. induction l as [|x l IH]; intros a; simpl.
  - intros [H1 H2] Hn Hp. rewrite Hn, Hp by apply list_elem_of_here. done.
  - intros [[H1 H2] H] Hn Hp. rewrite Hn, Hp by apply list_elem_of_here. split; [done|].
    apply IH; [done| |]; intros j Hj; [apply Hn|apply Hp]; by apply list_elem_of_further.
Qed.

Lemma ring_next nx pv a l z : chain nx pv a l z -> nx a = hd z l.
Proof. destruct l; simpl; tauto. Qed.

Lemma chain_pred nx pv a l z : chain nx pv a l z -> pv z ∈ a :: l.
Proof.
  revert a. induction l as [|x l IH]; intros a; simpl.
  - intros [_ ->]. apply list_elem_of_here.
  - intros [_ H]. apply list_elem_of_further. by apply IH.
Qed.

(** The end of a chain moved from [b] to [n]. *)
Lemma chain_retarget nx pv nx' pv' a l b n :
  chain nx pv a l b -> NoDup (a :: l) ->
  (forall j, j ∈ a :: l -> j <> pv b -> nx' j = nx j) ->
  (forall j, j ∈ l -> pv' j = pv j) -> nx' (pv b) = n -> pv' n = pv b ->
  chain nx' pv' a l n.
Proof.
  revert a. induction l as [|x l IH]; intros a Hc Hnd Hnx Hpv H1 H2; simpl in *.
  - destruct Hc as [_ Hp]. by rewrite Hp in *.
  - destruct Hc as [[Ha Hx] Hc]. apply NoDup_cons in Hnd as [Ha' Hnd].
    pose proof (chain_pred _ _ _ _ _ Hc) as Hin. split.
    + rewrite Hnx, Hpv; [done|apply list_elem_of_here|apply list_elem_of_here|].
      intros ->. done.
    + apply IH; try done.
      * intros j Hj. apply Hnx. by apply list_elem_of_further.
      * intros j Hj. apply Hpv. by apply list_elem_of_further.
Qed.

(** Taking an element out of a ring. *)
Lemma ring_unlink nx pv nx' pv' h l1 b l2 :
  chain nx pv h (l1 ++ b :: l2) h -> NoDup (h :: l1 ++ b :: l2) ->
  (forall j, nx' j = if decide (j = pv b) then nx b else nx j) ->
  (forall j, pv' j = if decide (j = nx b) then pv b else pv j) ->
  chain nx' pv' h (l1 ++ l2) h.
Proof.
  intros Hc Hnd Hnx Hpv. apply chain_app in Hc as [H1 H2].
  pose proof (chain_pred _ _ _ _ _ H1) as Hp.
  assert (Hn1 : NoDup (h :: l1)).
  { rewrite app_comm_cons in Hnd. by apply NoDup_app in Hnd as [? _]. }
  assert (Hc1 : (forall j, j ∈ l1 -> j <> nx b) -> chain nx' pv' h l1 (nx b)).
  { intros Hl1. apply (chain_retarget nx pv _ _ _ _ b); try done.
    - intros j _ Hj. rewrite Hnx. by case_decide.
    - intros j Hj. rewrite Hpv. case_decide; [|done]. by destruct (Hl1 j).
    - rewrite Hnx. by case_decide.
    - rewrite Hpv. by case_decide. }
  rewrite app_comm_cons in Hnd. apply NoDup_app in Hnd as (_ & Hd & Hn2).
  apply NoDup_cons in Hn2 as [Hb2 Hn2]. destruct l2 as [|n l2]; simpl in H2.
  - destruct H2 as [Hn _]. rewrite Hn in *. rewrite app_nil_r. apply Hc1.
    intros j Hj ->. apply NoDup_cons in Hn1 as [? _]. done.
  - destruct H2 as [[Hn _] H2]. rewrite Hn in *. apply chain_app. split.
    + apply Hc1. intros j Hj ->. apply (Hd n); [by apply list_elem_of_further|].
      apply list_elem_of_further, list_elem_of_here.
    + apply NoDup_cons in Hn2 as [Hn2' Hn2]. apply (chain_frame nx pv); [done| |].
      * intros j Hj. rewrite Hnx. case_decide as Hdj; [|done]. subst j.
        destruct (Hd _ Hp). by apply list_elem_of_further.
      * intros j Hj. rewrite Hpv. case_decide; [|done]. subst j.
        apply elem_of_app in Hj as [Hj|Hj]; [done|].
        apply list_elem_of_singleton in Hj as ->. destruct (Hd h); [apply list_elem_of_here|].
        apply list_elem_of_further, list_elem_of_here.
Qed.

(** Putting an element first. *)
Lemma chain_push nx pv nx' pv' h l b :
  chain nx pv h l h -> NoDup (h :: l) -> b ∉ h :: l ->
  (forall j, nx' j = if decide (j = h) then b else if decide (j = b) then nx h else nx j) ->
  (forall j, pv' j = if decide (j = nx h) then b else if decide (j = b) then h else pv j) ->
  chain nx' pv' h (b :: l) h.
Proof.
  intros Hc Hnd Hb Hnx Hpv. apply not_elem_of_cons in Hb as [Hbh Hbl].
  pose proof (ring_next _ _ _ _ _ Hc) as Hn.
  assert (nx h ≠ b) as Hnb.
  { rewrite Hn. destruct l; simpl; [done|]. apply not_elem_of_cons in Hbl as [? _]. done. }
  split.
  { rewrite Hnx, Hpv. repeat case_decide; done. }
  destruct l as [|x l]; simpl in *.
  - rewrite Hnx, Hpv. repeat case_decide; naive_solver.
  - rewrite Hn in *. destruct Hc as [[_ Hx] Hc]. apply NoDup_cons in Hnd as [Hh Hnd].
    apply NoDup_cons in Hnd as [Hxl Hnd].
    split; [rewrite Hnx, Hpv; repeat case_decide; done|].
    apply (chain_frame nx pv); [done| |]; intros j Hj.
    + rewrite Hnx. repeat case_decide; subst; done.
    + rewrite Hpv. assert (j ≠ x ∧ j ≠ b) as [? ?]; [|by repeat case_decide].
      apply elem_of_app in Hj as [Hj|Hj%list_elem_of_singleton].
      * split; intros ->; [done|]. apply Hbl. by apply list_elem_of_further.
      * subst j. split; [|done]. intros ->. apply Hh, list_elem_of_here.
Qed.

End chain.

(** ** The abstract cache

    What [bio.c] promises: the blocks somebody holds a reference to, with their
    contents, reference counts and holders; every other block has the content
    it has on the disk. *)

Record ablk := mkA { ab_data : block; ab_ref : Z; ab_held : option Z }.
Abbreviation acache := (gmap Z ablk).

Definition content (d : disk_t) (ac : acache) (bno : Z) : block :=
  match ac !! bno with Some a => ab_data a | None => disk_get d bno end.
Definition refs (ac : acache) (bno : Z) : Z :=
  match ac !! bno with Some a => ab_ref a | None => 0 end.

Definition lock_is (o : option Z) (lk : sleeplock) : Prop :=
  match o with None => sleep_free lk | Some p => sleep_held p lk end.

Definition nx (bs : list buf) (i : nat) : nat := default 0%nat (b_next <$> bs !! i).
Definition pv (bs : list buf) (i : nat) : nat := default 0%nat (b_prev <$> bs !! i).

(** A buffer nobody references: unlocked, and clean if it is valid. *)
Definition idle_buf (d : disk_t) (x : buf) : Prop :=
  sleep_free (b_lock x) /\
  (b_valid x <> 0 -> b_dev x = ROOTDEV /\ b_data x = disk_get d (b_blockno x)).

(** A referenced buffer stands for its block. *)
Definition used_buf (ac : acache) (x : buf) : Prop :=
  0 < b_refcnt x /\ b_dev x = ROOTDEV /\ b_valid x <> 0 /\
  exists o, ac !! b_blockno x = Some (mkA (b_data x) (b_refcnt x) o) /\ lock_is o (b_lock x).

Record cached (bs : list buf) (d : disk_t) (ac : acache) (order : list nat) : Prop := {
  ca_len : length bs = S HEAD;
  ca_ring : chain (nx bs) (pv bs) HEAD order HEAD;
  ca_perm : order ≡ₚ seq 0 HEAD;
  ca_one : forall i j x y, (i < HEAD)%nat -> (j < HEAD)%nat ->
    bs !! i = Some x -> bs !! j = Some y -> b_dev x = ROOTDEV -> b_dev y = ROOTDEV ->
    b_blockno x = b_blockno y -> i = j;
  ca_buf : forall i x, (i < HEAD)%nat -> bs !! i = Some x ->
    if decide (b_refcnt x = 0) then idle_buf d x else used_buf ac x;
  ca_abs : forall bno a, ac !! bno = Some a ->
    exists i x, (i < HEAD)%nat /\ bs !! i = Some x /\ b_refcnt x <> 0 /\ b_blockno x = bno
}.

(** Buffer [b] is a referenced buffer of block [bno]. *)
Definition handle (s : fstate) (b : nat) (bno : Z) : Prop :=
  exists x, (b < HEAD)%nat /\ bufs s !! b = Some x /\ b_refcnt x <> 0 /\ b_blockno x = bno.

(** The state implements abstract cache [ac], with LRU order [order]. *)
Record bio (s : fstate) (ac : acache) (order : list nat) : Prop := {
  bio_cached : cached (bufs s) (f_disk s) ac order;
  bio_hart : hart_quiet (f_hart s);
  bio_lock : lock_free (bc_lock (f_bcache s))
}.

(** [s'] differs from [s] in the cache, the disk and the wakeups only. *)
Definition keeps (s s' : fstate) : Prop :=
  exists w d bs, s' = setf_woken w (setf_disk d (set_bufs bs s)).

Lemma keeps_refl s : keeps s s.
Proof. exists (f_woken s), (f_disk s), (bufs s). by destruct s as [? ? [] ? ? ? ? ? ? ? ? ? ?]. Qed.
Lemma keeps_trans s1 s2 s3 : keeps s1 s2 -> keeps s2 s3 -> keeps s1 s3.
Proof. intros (w & d & bs & ->) (w' & d' & bs' & ->). by exists w', d', bs'. Qed.

#[export] Instance keeps_preorder : PreOrder keeps.
Proof. split; [exact keeps_refl|exact keeps_trans]. Qed.

Lemma keeps_bufs bs s : keeps s (set_bufs bs s).
Proof. exists (f_woken s), (f_disk s), bs. by destruct s. Qed.

(** *** The ring as the buffers change *)

Lemma nx_alter f i bs j :
  nx (alter f i bs) j
  = if decide (i = j) then default 0%nat ((fun x => b_next (f x)) <$> bs !! j) else nx bs j.
Proof.
  unfold nx. rewrite list_lookup_alter. case_decide; [|done]. subst.
  by destruct (bs !! j).
Qed.
Lemma pv_alter f i bs j :
  pv (alter f i bs) j
  = if decide (i = j) then default 0%nat ((fun x => b_prev (f x)) <$> bs !! j) else pv bs j.
Proof.
  unfold pv. rewrite list_lookup_alter. case_decide; [|done]. subst.
  by destruct (bs !! j).
Qed.

(** Updates of other fields leave the ring alone. *)
Lemma ring_alter f i bs a l z :
  (forall x, b_next (f x) = b_next x) -> (forall x, b_prev (f x) = b_prev x) ->
  chain (nx bs) (pv bs) a l z -> chain (nx (alter f i bs)) (pv (alter f i bs)) a l z.
Proof.
  intros Hn Hp Hc. apply (chain_frame (nx bs) (pv bs)); [done| |]; intros j _.
  - rewrite nx_alter. case_decide; [|done]. subst. unfold nx. destruct (bs !! j); simpl; auto.
  - rewrite pv_alter. case_decide; [|done]. subst. unfold pv. destruct (bs !! j); simpl; auto.
Qed.

Lemma getb_eq b x s : bufs s !! b = Some x -> getb b s = Ret x s.
Proof. intros H. unfold getb. by rewrite H. Qed.

Lemma updb_eq b f s :
  is_Some (bufs s !! b) -> updb b f s = Ret tt (set_bufs (alter f b (bufs s)) s).
Proof. intros [x Hx]. unfold updb, mbind, M_bind. by rewrite (getb_eq b x). Qed.

Lemma wp_getb b x Q s : bufs s !! b = Some x -> Q x s -> wp (getb b) Q s.
Proof. intros H. apply wp_eq. by apply getb_eq. Qed.

Lemma wp_updb b f Q s :
  is_Some (bufs s !! b) -> Q tt (set_bufs (alter f b (bufs s)) s) -> wp (updb b f) Q s.
Proof. intros H. apply wp_eq. by apply updb_eq. Qed.

(** *** The searches *)

Definition at_buf (bs : list buf) (p : buf -> bool) (i : nat) : bool :=
  match bs !! i with Some x => p x | None => false end.

Lemma bsearch_eq (dir : buf -> nat) hit s (fx fy : nat -> nat) a l fuel :
  (forall i x, bufs s !! i = Some x -> dir x = fx i) ->
  chain fx fy a l HEAD -> Forall (fun i => (i < HEAD)%nat /\ is_Some (bufs s !! i)) l ->
  (length l < fuel)%nat ->
  loop fuel (bsearch_step dir hit) (fx a) s
  = Ret (List.find (at_buf (bufs s) hit) l) s.
Proof.
  intros Hdir. revert a fuel. induction l as [|b l IH]; intros a fuel Hc Hl Hf;
    (destruct fuel as [|fuel]; [simpl in Hf; lia|]); simpl in Hc; cbn [loop].
  - destruct Hc as [-> _]. done.
  - destruct Hc as [[-> _] Hc]. inversion_clear Hl as [|? ? [Hb [x Hx]] Hl'].
    assert (bsearch_step dir hit b s
      = Ret (if hit x then inr (Some b) else inl (dir x)) s) as Hstep.
    { unfold bsearch_step. destruct (Nat.eqb_spec b HEAD); [lia|].
      rewrite (bind_ret _ _ _ x s) by (by apply getb_eq). by destruct (hit x). }
    rewrite (bind_ret _ _ _ _ _ Hstep). cbn [List.find]. unfold at_buf at 1. rewrite Hx.
    destruct (hit x); [done|]. rewrite (Hdir b x Hx). apply IH; [done|done|].
    simpl in Hf. lia.
Qed.

Lemma find_in {A} (f : A -> bool) l :
  match List.find f l with
  | Some x => x ∈ l /\ f x = true
  | None => forall x, x ∈ l -> f x = false
  end.
Proof.
  destruct (List.find f l) eqn:Hf.
  - apply find_some in Hf as [H1 H2]. split; [by apply list_elem_of_In|done].
  - intros x Hx. apply (find_none _ _ Hf). by apply list_elem_of_In.
Qed.

(** *** Changing one buffer *)

Lemma alter_lookup (bs : list buf) (b : nat) x (f : buf -> buf) j :
  bs !! b = Some x -> alter f b bs !! j = if decide (b = j) then Some (f x) else bs !! j.
Proof. intros Hx. rewrite list_lookup_alter. case_decide; [|done]. subst. by rewrite Hx. Qed.

Section change.
Context (bs : list buf) (d : disk_t) (ac : acache) (order : list nat).
Context (C : cached bs d ac order) (b : nat) (x : buf) (f : buf -> buf).
Context (Hb : (b < HEAD)%nat) (Hx : bs !! b = Some x).
Context (Hnx : forall y, b_next (f y) = b_next y) (Hpv : forall y, b_prev (f y) = b_prev y).

(** It is now a referenced buffer of [bno]. *)
Lemma cached_insert bno o :
  b_dev (f x) = ROOTDEV -> b_blockno (f x) = bno -> 0 < b_refcnt (f x) ->
  b_valid (f x) <> 0 -> lock_is o (b_lock (f x)) ->
  b_refcnt x = 0 \/ b_blockno x = bno ->
  (forall j y, (j < HEAD)%nat -> j <> b -> bs !! j = Some y -> b_dev y = ROOTDEV ->
     b_blockno y <> bno) ->
  cached (alter f b bs) d (<[bno := mkA (b_data (f x)) (b_refcnt (f x)) o]> ac) order.
Proof.
  intros Hd Hn Hr Hv Hlk Hold Huniq. destruct C as [Clen Cring Cperm Cone Cbuf Cabs]. split.
  - by rewrite length_alter.
  - by apply ring_alter.
  - done.
  - intros i j y z Hi Hj. rewrite !(alter_lookup _ _ x) by done.
    repeat case_decide; intros ? ? Hyd Hzd He; simplify_eq; try done.
    + destruct (Huniq j z); naive_solver.
    + destruct (Huniq i y); naive_solver.
    + by apply (Cone i j y z).
  - intros i y Hi. rewrite (alter_lookup _ _ x) by done. case_decide; intros Hy; simplify_eq.
    + rewrite decide_False by lia. split; [done|]. split; [done|]. split; [done|].
      exists o. by rewrite lookup_insert_eq.
    + specialize (Cbuf i y Hi Hy). case_decide; [done|].
      destruct Cbuf as (H1 & H2 & H3 & o' & H4 & H5). split; [done|]. split; [done|].
      split; [done|]. exists o'. split; [|done]. rewrite lookup_insert_ne; [done|].
      intros Heq. destruct (Huniq i y); try done; congruence.
  - intros bno' a Ha. destruct (decide (bno' = bno)) as [->|Hne].
    + exists b, (f x). rewrite (alter_lookup _ _ x), decide_True by done.
      repeat split; try done. lia.
    + rewrite lookup_insert_ne in Ha by done. destruct (Cabs bno' a Ha) as (i & y & Hi & Hy & Hr' & Hb').
      exists i, y. rewrite (alter_lookup _ _ x) by done. case_decide; [|done]. simplify_eq. naive_solver.
Qed.

(** It is no longer referenced. *)
Lemma cached_delete bno :
  b_blockno x = bno -> b_dev x = ROOTDEV -> b_dev (f x) = b_dev x ->
  b_blockno (f x) = bno -> b_refcnt (f x) = 0 -> idle_buf d (f x) ->
  cached (alter f b bs) d (delete bno ac) order.
Proof.
  intros Hn Hd Hd' Hn' Hr Hidle. destruct C as [Clen Cring Cperm Cone Cbuf Cabs]. split.
  - by rewrite length_alter.
  - by apply ring_alter.
  - done.
  - intros i j y z Hi Hj. rewrite !(alter_lookup _ _ x) by done.
    repeat case_decide; intros ? ? Hyd Hzd He; simplify_eq; try done.
    + symmetry. apply (Cone j i z x); congruence.
    + apply (Cone i j y x); congruence.
    + by apply (Cone i j y z).
  - intros i y Hi. rewrite (alter_lookup _ _ x) by done. case_decide as Hib; intros Hy; simplify_eq.
    + by rewrite decide_True.
    + pose proof (Cbuf i y Hi Hy) as Hbuf. case_decide; [done|].
      destruct Hbuf as (H1 & H2 & H3 & o' & H4 & H5). split; [done|]. split; [done|].
      split; [done|]. exists o'. split; [|done]. rewrite lookup_delete_ne; [done|].
      intros Heq. apply Hib. apply (Cone b i x y); congruence.
  - intros bno' a Ha. apply lookup_delete_Some in Ha as [Hne Ha].
    destruct (Cabs bno' a Ha) as (i & y & Hi & Hy & Hr' & Hb').
    exists i, y. rewrite (alter_lookup _ _ x) by done. case_decide; [|done]. simplify_eq.
Qed.

End change.

(** Two buffers of the same block are the same buffer. *)
Lemma handle_unique bs d ac order i j x y :
  cached bs d ac order -> (i < HEAD)%nat -> (j < HEAD)%nat ->
  bs !! i = Some x -> bs !! j = Some y -> b_refcnt x <> 0 ->
  b_dev y = ROOTDEV -> b_blockno x = b_blockno y -> i = j.
Proof.
  intros C Hi Hj Hx Hy Hr Hd He. apply (ca_one _ _ _ _ C i j x y); try done.
  pose proof (ca_buf _ _ _ _ C i x Hi Hx) as Hb. rewrite decide_False in Hb by done.
  apply Hb.
Qed.

(** A cache with fewer referenced blocks than buffers has an idle buffer. *)
Lemma some_idle bs d ac order :
  cached bs d ac order -> (size ac < HEAD)%nat ->
  exists i x, (i < HEAD)%nat /\ bs !! i = Some x /\ b_refcnt x = 0.
Proof.
  intros C Hsz. destruct (decide (Exists (fun x => b_refcnt x = 0) (take HEAD bs))) as [He|He].
  { apply Exists_exists in He as (x & Hin & Hr). apply list_elem_of_lookup in Hin as [i Hi].
    apply lookup_take_Some in Hi as [Hi Hlt]. by exists i, x. }
  exfalso. apply not_Exists_Forall in He; [|intros ?; apply _].
  assert (Hsub : list_to_set (b_blockno <$> take HEAD bs) ⊆ (dom ac : gset Z)).
  { intros bno Hin. apply elem_of_list_to_set, list_elem_of_fmap in Hin as (x & -> & Hin).
    pose proof Hin as Hin'. apply list_elem_of_lookup in Hin as [i Hi].
    apply lookup_take_Some in Hi as [Hi Hlt]. rewrite Forall_forall in He.
    pose proof (ca_buf _ _ _ _ C i x Hlt Hi) as Hb.
    rewrite decide_False in Hb by (by apply He). destruct Hb as (_ & _ & _ & o & Ho & _).
    apply elem_of_dom. by eexists. }
  apply subseteq_size in Hsub. rewrite size_dom, size_list_to_set in Hsub.
  - rewrite length_fmap, length_take, (ca_len _ _ _ _ C) in Hsub. lia.
  - apply NoDup_alt. intros i j bno Hi Hj.
    rewrite list_lookup_fmap in Hi, Hj.
    destruct (take HEAD bs !! i) as [x|] eqn:Hx; simplify_eq/=.
    destruct (take HEAD bs !! j) as [y|] eqn:Hy; simplify_eq/=.
    assert (b_refcnt x <> 0 /\ b_refcnt y <> 0) as [Hrx Hry].
    { split; [apply (Forall_lookup_1 _ _ _ _ He Hx)|apply (Forall_lookup_1 _ _ _ _ He Hy)]. }
    apply lookup_take_Some in Hx as [Hx ?], Hy as [Hy ?].
    apply (handle_unique bs d ac order i j x y); try done.
    pose proof (ca_buf _ _ _ _ C j y ltac:(done) Hy) as Hbj.
    rewrite decide_False in Hbj by done. apply Hbj.
Qed.

Section bioproofs.
Context `{im : Image} `{W : World} `{WO : !WorldOk W}.

#[local] Instance bufsleep_lens b : SleepLens (bufsleepL b) (fun s => is_Some (bufs s !! b)).
Proof.
  split; try done; intros; simpl.
  - unfold bufs, set_bufs in *; simpl. rewrite list_lookup_alter, decide_True by done.
    by apply fmap_is_Some.
  - unfold bufs, set_bufs in *; simpl. rewrite list_lookup_alter, decide_True by done.
    destruct H as [y Hy]. by rewrite Hy.
  - destruct H as [y Hy]. rewrite Hy. simpl.
    assert (alter (setb_lock (b_lock y)) b (bufs s) = bufs s) as ->.
    { apply list_eq. intros i. rewrite list_lookup_alter. case_decide; [|done]. subst.
      rewrite Hy. by destruct y. }
    by destruct s as [? ? [] ? ? ? ? ? ? ? ? ? ?].
  - unfold set_bufs, bufs; simpl. rewrite list_alter_alter_eq. done.
Qed.

(** *** What each operation does to the buffers *)

Definition grab (pid : Z) (x : buf) : buf :=
  setb_lock (take_sleep pid (b_lock x)) (setb_refcnt (b_refcnt x + 1) x).
Definition recycle (bno : Z) (x : buf) : buf :=
  setb_refcnt 0 (setb_valid 0 (setb_blockno bno (setb_dev ROOTDEV x))).
Definition fetch (d : disk_t) (x : buf) : buf :=
  if b_valid x =? 0 then setb_valid 1 (setb_data (disk_get d (b_blockno x)) x) else x.

Definition hit (dev bno : Z) (x : buf) : bool := (b_dev x =? dev) && (b_blockno x =? bno).
Definition unused (x : buf) : bool := b_refcnt x =? 0.

(** The buffer [bget] picks. *)
Definition pick (bs : list buf) (order : list nat) (dev bno : Z) : option (nat * bool) :=
  match List.find (at_buf bs (hit dev bno)) order with
  | Some b => Some (b, true)
  | None =>
      match List.find (at_buf bs unused) (rev order) with
      | Some b => Some (b, false)
      | None => None
      end
  end.

Lemma bcacheL_set p s : bufs (lset bcacheL p s) = bufs s.
Proof. done. Qed.

Lemma order_ok bs d ac order :
  cached bs d ac order ->
  Forall (fun i => (i < HEAD)%nat /\ is_Some (bs !! i)) order.
Proof.
  intros C. rewrite (ca_perm _ _ _ _ C). apply Forall_forall. intros i Hi.
  apply elem_of_seq in Hi. split; [lia|]. apply lookup_lt_is_Some_2.
  rewrite (ca_len _ _ _ _ C). lia.
Qed.

Lemma order_len bs d ac order : cached bs d ac order -> length order = HEAD.
Proof. intros C. rewrite (ca_perm _ _ _ _ C). apply length_seq. Qed.

Lemma head_buf bs d ac order :
  cached bs d ac order -> exists h, bs !! HEAD = Some h /\ b_next h = nx bs HEAD /\ b_prev h = pv bs HEAD.
Proof.
  intros C. destruct (lookup_lt_is_Some_2 bs HEAD) as [h Hh];
    [rewrite (ca_len _ _ _ _ C); lia|].
  exists h. unfold nx, pv. by rewrite Hh.
Qed.

Lemma search_next s d ac order p :
  cached (bufs s) d ac order ->
  bsearch b_next p (nx (bufs s) HEAD) s = Ret (List.find (at_buf (bufs s) p) order) s.
Proof.
  intros C. unfold bsearch. apply (bsearch_eq b_next p s _ (pv (bufs s))).
  - intros i x Hx. unfold nx. by rewrite Hx.
  - apply (ca_ring _ _ _ _ C).
  - by eapply order_ok.
  - rewrite (order_len _ _ _ _ C). lia.
Qed.

Lemma search_prev s d ac order p :
  cached (bufs s) d ac order ->
  bsearch b_prev p (pv (bufs s) HEAD) s = Ret (List.find (at_buf (bufs s) p) (rev order)) s.
Proof.
  intros C. unfold bsearch. apply (bsearch_eq b_prev p s _ (nx (bufs s))).
  - intros i x Hx. unfold pv. by rewrite Hx.
  - apply chain_rev, (ca_ring _ _ _ _ C).
  - apply Forall_rev. by eapply order_ok.
  - rewrite length_rev, (order_len _ _ _ _ C). lia.
Qed.

Lemma pick_buf bs d ac order dev bno b w :
  cached bs d ac order -> pick bs order dev bno = Some (b, w) ->
  (b < HEAD)%nat /\ exists x, bs !! b = Some x /\
    if w then hit dev bno x = true else unused x = true.
Proof.
  intros C Hp. unfold pick in Hp.
  pose proof (find_in (at_buf bs (hit dev bno)) order) as H1.
  pose proof (find_in (at_buf bs unused) (rev order)) as H2.
  pose proof (order_ok _ _ _ _ C) as Ho. rewrite Forall_forall in Ho.
  destruct (List.find _ order); simplify_eq.
  - destruct H1 as [Hin Hb]. destruct (Ho _ Hin) as [? [x Hx]]. split; [done|].
    exists x. split; [done|]. unfold at_buf in Hb. by rewrite Hx in Hb.
  - destruct (List.find _ (rev order)); simplify_eq. destruct H2 as [Hin Hb].
    apply list_elem_of_In, in_rev, list_elem_of_In in Hin.
    destruct (Ho _ Hin) as [? [x Hx]]. split; [done|].
    exists x. split; [done|]. unfold at_buf in Hb. by rewrite Hx in Hb.
Qed.

Lemma bc_unlock bs' p s :
  lset bcacheL (f_hart s, bc_lock (f_bcache s)) (set_bufs bs' (lset bcacheL p s)) = set_bufs bs' s.
Proof. by destruct s. Qed.

Lemma bufs_set bs s : bufs (set_bufs bs s) = bs.
Proof. done. Qed.
Lemma set_bufs_twice l l' s : set_bufs l (set_bufs l' s) = set_bufs l s.
Proof. done. Qed.

Lemma alter_at (f g : buf -> buf) (b : nat) (bs : list buf) x :
  bs !! b = Some x -> f x = g x -> alter f b bs = alter g b bs.
Proof.
  intros Hx Hfg. apply list_eq. intros i. rewrite !list_lookup_alter.
  case_decide; [|done]. subst. rewrite Hx. simpl. by rewrite Hfg.
Qed.

(** Taking a buffer's sleep lock. *)
Lemma acquiresleep_buf b bs s x :
  hart_quiet (f_hart s) -> bs !! b = Some x -> sleep_free (b_lock x) ->
  acquiresleep (bufsleepL b) (WBuf b) (set_bufs bs s)
  = Ret tt (set_bufs (alter (fun y => setb_lock (take_sleep (fp_pid (f_proc s)) (b_lock y)) y) b bs) s).
Proof.
  intros Hq Hx Hf. rewrite (acquiresleep_eq _ (fun s => is_Some (bufs s !! b))).
  - simpl. rewrite bufs_set, Hx. simpl. rewrite set_bufs_twice. do 2 f_equal. by apply (alter_at _ _ _ _ x).
  - rewrite bufs_set. by eexists.
  - done.
  - simpl. rewrite bufs_set, Hx. done.
Qed.

Ltac upd_at := apply wp_bind, wp_updb;
  [rewrite ?bufs_set; repeat rewrite list_lookup_alter, decide_True by done; by apply fmap_is_Some
  |rewrite ?bufs_set, ?set_bufs_twice, ?list_alter_alter_eq].

Lemma bget_eq s ac order bno b w x :
  bio s ac order -> pick (bufs s) order ROOTDEV bno = Some (b, w) ->
  bufs s !! b = Some x -> sleep_free (b_lock x) ->
  bget ROOTDEV bno s
  = Ret b (set_bufs (alter (fun y => grab (fp_pid (f_proc s)) (if w then y else recycle bno y)) b (bufs s)) s).
Proof.
  intros [C Hq Hl] Hpick Hx Hfree. apply wp_ret_eq. unfold bget.
  destruct (head_buf _ _ _ _ C) as (h & Hh & Hnx & Hpv).
  apply wp_bind. eapply wp_lock; [done|done|done|]. set (s1 := lset bcacheL _ s).
  assert (bufs s1 = bufs s) as Hb1 by done.
  apply wp_bind, (wp_getb _ h); [by rewrite Hb1|]. rewrite Hnx. rewrite <- Hb1.
  apply wp_bind. eapply wp_eq; [eapply search_next; rewrite Hb1; exact C|].
  rewrite Hb1. unfold pick, hit in Hpick.
  assert (Hend : forall bs y, bs !! b = Some y -> b_lock y = b_lock x ->
    wp (zoom bcacheL release;; acquiresleep (bufsleepL b) (WBuf b);; mret b)
      (fun a t => a = b /\ t = set_bufs (alter (fun y => setb_lock (take_sleep (fp_pid (f_proc s)) (b_lock y)) y) b bs) s)
      (set_bufs bs s1)).
  { intros bs y Hy Hly. apply wp_bind, (wp_unlock _ (f_hart s) (bc_lock (f_bcache s))); [done..|]. unfold s1. rewrite bc_unlock.
    apply wp_bind. eapply wp_eq; [eapply acquiresleep_buf; [done|done|by rewrite Hly]|].
    by apply wp_ret. }
  destruct (List.find _ order) as [b'|] eqn:Hf; simplify_eq.
  - apply wp_bind, (wp_getb _ x); [done|]. apply wp_bind, wp_updb; [by eexists|].
    eapply wp_conseq; [eapply Hend; [rewrite list_lookup_alter, decide_True, Hb1, Hx by done; reflexivity|done]|].
    intros a t [-> ->]. split; [done|]. f_equal. rewrite list_alter_alter_eq, Hb1.
    by apply (alter_at _ _ _ _ x).
  - apply wp_bind, (wp_getb _ h); [by rewrite Hb1|]. rewrite Hpv, <- Hb1.
    apply wp_bind. eapply wp_eq; [eapply search_prev; rewrite Hb1; exact C|].
    rewrite Hb1. unfold unused in Hpick. destruct (List.find _ (rev order)); simplify_eq.
    apply wp_bind, wp_updb; [by eexists|].
    rewrite Hb1. do 3 upd_at.
    eapply wp_conseq; [eapply Hend; [rewrite list_lookup_alter, decide_True, Hx by done; reflexivity|done]|].
    intros a t [-> ->]. split; [done|]. f_equal. rewrite list_alter_alter_eq.
    by apply (alter_at _ _ _ _ x).
Qed.

Lemma bread_eq s ac order bno b w x :
  bio s ac order -> pick (bufs s) order ROOTDEV bno = Some (b, w) ->
  bufs s !! b = Some x -> sleep_free (b_lock x) ->
  bread ROOTDEV bno s
  = Ret b (set_bufs (alter (fun y => fetch (f_disk s)
      (grab (fp_pid (f_proc s)) (if w then y else recycle bno y))) b (bufs s)) s).
Proof.
  intros B Hpick Hx Hfree. apply wp_ret_eq. unfold bread. apply wp_bind.
  eapply wp_eq; [by eapply bget_eq|].
  set (y := grab (fp_pid (f_proc s)) (if w then x else recycle bno x)).
  apply wp_bind, (wp_getb _ y).
  { rewrite bufs_set, list_lookup_alter, decide_True, Hx by done. done. }
  assert (Hfin : forall f, f x = fetch (f_disk s) y ->
    wp (mret b) (fun a t => a = b /\ t = set_bufs (alter (fun y => fetch (f_disk s)
      (grab (fp_pid (f_proc s)) (if w then y else recycle bno y))) b (bufs s)) s)
      (set_bufs (alter f b (bufs s)) s)).
  { intros f Hf. apply wp_ret. split; [done|]. f_equal. by apply (alter_at _ _ _ _ x). }
  unfold fetch in Hfin at 1. destruct (Z.eqb_spec (b_valid y) 0) as [Hv|Hv].
  - apply wp_bind, wp_bind. eapply wp_eq.
    { apply disk_rw_ok. rewrite bufs_set, list_lookup_alter, decide_True, Hx by done. by eexists. }
    unfold disk_effect. rewrite bufs_set, list_lookup_alter, decide_True, Hx by done. simpl.
    apply wp_updb; [rewrite bufs_set, list_lookup_insert_eq;
      [by eexists|rewrite length_alter; by eapply lookup_lt_Some]|].
    rewrite !bufs_set, !set_bufs_twice.
    replace (alter (setb_valid 1) b _) with
      (alter (fun z => setb_valid 1 (setb_data (disk_get (f_disk s) (b_blockno y)) (grab (fp_pid (f_proc s))
         (if w then z else recycle bno z)))) b (bufs s)); [by apply Hfin|].
    apply list_eq. intros i. rewrite !list_lookup_alter.
    case_decide; [subst i|by rewrite list_lookup_insert_ne, list_lookup_alter, decide_False by done].
    rewrite list_lookup_insert_eq, Hx; [done|].
    rewrite length_alter. by eapply lookup_lt_Some.
  - apply wp_bind, wp_skip. by apply Hfin.
Qed.

(** *** The operations on the abstract cache *)

(** [bread] may be called for [bno]: its buffer is not locked, or there is a
    buffer left for it. *)
Definition can_read (ac : acache) (bno : Z) : Prop :=
  match ac !! bno with Some a => ab_held a = None | None => (size ac < HEAD)%nat end.

Definition acquire_blk (d : disk_t) (pid bno : Z) (ac : acache) : acache :=
  <[bno := mkA (content d ac bno) (refs ac bno + 1) (Some pid)]> ac.

Lemma hit_true bno x : hit ROOTDEV bno x = true <-> b_dev x = ROOTDEV /\ b_blockno x = bno.
Proof. unfold hit. rewrite andb_true_iff, !Z.eqb_eq. done. Qed.

Lemma not_hit bs d ac order bno :
  cached bs d ac order -> (forall i, i ∈ order -> at_buf bs (hit ROOTDEV bno) i = false) ->
  forall j y, (j < HEAD)%nat -> bs !! j = Some y -> b_dev y = ROOTDEV -> b_blockno y <> bno.
Proof.
  intros C Hno j y Hj Hy Hd He. specialize (Hno j). unfold at_buf in Hno. rewrite Hy in Hno.
  assert (hit ROOTDEV bno y = true) as Ht by (by apply hit_true). rewrite Ht in Hno.
  discriminate Hno. rewrite (ca_perm _ _ _ _ C). apply elem_of_seq. lia.
Qed.

(** [bget] finds a buffer whenever it may be called. *)
Lemma pick_total bs d ac order bno :
  cached bs d ac order -> can_read ac bno ->
  exists b w x, pick bs order ROOTDEV bno = Some (b, w) /\ (b < HEAD)%nat /\
    bs !! b = Some x /\ sleep_free (b_lock x) /\
    (if w then b_dev x = ROOTDEV /\ b_blockno x = bno
     else b_refcnt x = 0 /\ ac !! bno = None /\
       forall j y, (j < HEAD)%nat -> bs !! j = Some y -> b_dev y = ROOTDEV -> b_blockno y <> bno).
Proof.
  intros C Hcan. unfold pick.
  pose proof (find_in (at_buf bs (hit ROOTDEV bno)) order) as H1.
  destruct (List.find _ order) as [b|] eqn:Hf.
  - destruct H1 as [Hin Hh].
    pose proof (order_ok _ _ _ _ C) as Ho. rewrite Forall_forall in Ho.
    destruct (Ho _ Hin) as [Hb [x Hx]]. unfold at_buf in Hh. rewrite Hx in Hh.
    apply hit_true in Hh as [Hd Hn]. exists b, true, x. repeat split; try done;
    pose proof (ca_buf _ _ _ _ C b x Hb Hx) as Hbuf; (case_decide; [by apply Hbuf|]);
    destruct Hbuf as (_ & _ & _ & o & Ho' & Hlk); unfold can_read in Hcan;
    rewrite Hn in Ho'; rewrite Ho' in Hcan; simpl in Hcan; subst o; by apply Hlk.
  - pose proof (not_hit _ _ _ _ _ C H1) as Hno.
    assert (Hnone : ac !! bno = None).
    { destruct (ac !! bno) as [a|] eqn:Ha; [|done].
      destruct (ca_abs _ _ _ _ C bno a Ha) as (i & y & Hi & Hy & Hr & Hb).
      pose proof (ca_buf _ _ _ _ C i y Hi Hy) as Hbuf. rewrite decide_False in Hbuf by done.
      destruct (Hno i y); try done. apply Hbuf. }
    unfold can_read in Hcan. rewrite Hnone in Hcan.
    destruct (some_idle _ _ _ _ C Hcan) as (i & y & Hi & Hy & Hr).
    pose proof (find_in (at_buf bs unused) (rev order)) as H2.
    destruct (List.find _ (rev order)) as [b|] eqn:Hf2.
    + destruct (pick_buf bs d ac order ROOTDEV bno b false C) as (Hb & x & Hx & Hu);
        [unfold pick; by rewrite Hf, Hf2|].
      apply Z.eqb_eq in Hu. exists b, false, x.
      pose proof (ca_buf _ _ _ _ C b x Hb Hx) as Hbuf. rewrite decide_True in Hbuf by done.
      destruct Hbuf. done.
    + exfalso. specialize (H2 i). unfold at_buf, unused in H2. rewrite Hy, Hr in H2.
      discriminate H2. apply list_elem_of_In, in_rev. rewrite rev_involutive.
      apply list_elem_of_In. rewrite (ca_perm _ _ _ _ C). apply elem_of_seq. lia.
Qed.

Definition read_buf (s : fstate) (w : bool) (bno : Z) (y : buf) : buf :=
  fetch (f_disk s) (grab (fp_pid (f_proc s)) (if w then y else recycle bno y)).

Lemma read_buf_fields s w bno y :
  b_next (read_buf s w bno y) = b_next y /\ b_prev (read_buf s w bno y) = b_prev y /\
  b_valid (read_buf s w bno y) <> 0 /\
  b_refcnt (read_buf s w bno y) = (if w then b_refcnt y else 0) + 1 /\
  b_blockno (read_buf s w bno y) = (if w then b_blockno y else bno) /\
  b_dev (read_buf s w bno y) = (if w then b_dev y else ROOTDEV) /\
  b_lock (read_buf s w bno y) = take_sleep (fp_pid (f_proc s)) (b_lock y).
Proof.
  unfold read_buf, fetch. destruct w; simpl; [|done].
  destruct (Z.eqb_spec (b_valid y) 0); simpl; done.
Qed.

(** The abstract entry a cached buffer stands for. *)
Lemma cached_content bs d ac order b x :
  cached bs d ac order -> (b < HEAD)%nat -> bs !! b = Some x -> b_dev x = ROOTDEV ->
  refs ac (b_blockno x) = b_refcnt x /\
  (b_valid x <> 0 -> content d ac (b_blockno x) = b_data x) /\
  (b_valid x = 0 -> content d ac (b_blockno x) = disk_get d (b_blockno x)).
Proof.
  intros C Hb Hx Hd. unfold refs, content.
  pose proof (ca_buf _ _ _ _ C b x Hb Hx) as Hbuf. case_decide as Hr.
  - assert (ac !! b_blockno x = None) as ->.
    { destruct (ac !! b_blockno x) as [a|] eqn:Ha; [|done].
      destruct (ca_abs _ _ _ _ C _ a Ha) as (i & y & Hi & Hy & Hry & Hn).
      assert (i = b) as -> by (by apply (handle_unique bs d ac order i b y x)).
      congruence. }
    destruct Hbuf as [_ Hc]. split; [done|]. split; [|done]. intros Hv.
    by destruct (Hc Hv) as [_ ->].
  - destruct Hbuf as (_ & _ & Hv & o & -> & _). done.
Qed.

Lemma bread_spec s ac order bno :
  bio s ac order -> can_read ac bno ->
  wp (bread ROOTDEV bno) (fun b s' =>
    bio s' (acquire_blk (f_disk s) (fp_pid (f_proc s)) bno ac) order /\
    handle s' b bno /\ keeps s s' /\ f_disk s' = f_disk s /\
    (forall b' bno', handle s b' bno' -> handle s' b' bno')) s.
Proof.
  intros B Hcan. pose proof (bio_cached _ _ _ B) as C.
  destruct (pick_total _ _ _ _ _ C Hcan) as (b & w & x & Hp & Hb & Hx & Hfree & Hw).
  eapply wp_eq; [by eapply bread_eq|]. fold (read_buf s w bno).
  change (fun y : buf => read_buf s w bno y) with (read_buf s w bno).
  destruct (read_buf_fields s w bno x) as (_ & _ & Hv & Hr & Hn & Hd & Hl).
  assert (Hdata : b_data (read_buf s w bno x) = content (f_disk s) ac bno /\
                  b_refcnt (read_buf s w bno x) = refs ac bno + 1).
  { rewrite Hr. destruct w.
    - destruct Hw as [Hd' <-]. destruct (cached_content _ _ _ _ _ _ C Hb Hx Hd') as (-> & H1 & H2).
      split; [|done]. unfold read_buf, fetch; simpl.
      destruct (Z.eqb_spec (b_valid x) 0); simpl; symmetry; auto.
    - destruct Hw as (_ & Hnone & _). unfold content, refs. by rewrite Hnone. }
  assert (Hbno : b_blockno (read_buf s w bno x) = bno) by (rewrite Hn; destruct w; naive_solver).
  assert (Hpos : 0 < b_refcnt (read_buf s w bno x)).
  { rewrite Hr. destruct w; [|lia]. pose proof (ca_buf _ _ _ _ C b x Hb Hx) as Hbuf.
    case_decide; [lia|]. destruct Hbuf. lia. }
  split; [|split; [|split; [|split]]].
  - split; [|by apply B..]. unfold acquire_blk. destruct Hdata as [<- <-].
    change (f_disk (set_bufs _ s)) with (f_disk s). rewrite bufs_set.
    apply cached_insert with (x := x); try done.
    + intros. apply read_buf_fields.
    + intros. apply read_buf_fields.
    + rewrite Hd. destruct w; naive_solver.
    + rewrite Hl. by apply sleep_held_take.
    + destruct w; naive_solver.
    + intros j y Hj Hne Hy Hdy. destruct w; [|naive_solver]. destruct Hw as [Hd' <-].
      intros He. apply Hne. by apply (ca_one _ _ _ _ C j b y x).
  - exists (read_buf s w bno x). rewrite bufs_set, (alter_lookup _ _ x), decide_True by done.
    repeat split; try done. lia.
  - apply keeps_bufs.
  - done.
  - intros b' bno' (y & Hb' & Hy & Hry & Hny). unfold handle.
    rewrite bufs_set. setoid_rewrite (fun f j => alter_lookup _ _ _ f j Hx).
    case_decide; [|by exists y]. simplify_eq. exists (read_buf s w bno x).
    repeat split; try done; [lia|]. rewrite Hbno. destruct w; naive_solver.
Qed.

(** *** Moving a buffer to the front *)

Definition unlinked (bs : list buf) (b : nat) : list buf :=
  alter (setb_next (nx bs b)) (pv bs b) (alter (setb_prev (pv bs b)) (nx bs b) bs).
Definition pushed_front (bs : list buf) (b : nat) : list buf :=
  alter (setb_next b) HEAD (alter (setb_prev b) (nx bs HEAD)
    (alter (setb_prev HEAD) b (alter (setb_next (nx bs HEAD)) b bs))).

Definition links_off (x : buf) : buf := setb_next 0 (setb_prev 0 x).

(** Only [next] and [prev] fields differ. *)
Definition same_links_off (bs bs' : list buf) : Prop := links_off <$> bs' = links_off <$> bs.

Lemma links_off_alter f i bs :
  (forall x, links_off (f x) = links_off x) -> same_links_off bs (alter f i bs).
Proof.
  intros Hf. apply list_eq. intros j. rewrite !list_lookup_fmap, list_lookup_alter.
  case_decide; [|done]. subst. destruct (bs !! j); simpl; [|done]. by rewrite Hf.
Qed.

Lemma links_off_unlinked bs b : same_links_off bs (unlinked bs b).
Proof. unfold unlinked, same_links_off. etrans; by apply links_off_alter. Qed.
Lemma links_off_pushed bs b : same_links_off bs (pushed_front bs b).
Proof.
  unfold pushed_front, same_links_off. do 3 (etrans; [by apply links_off_alter|]).
  by apply links_off_alter.
Qed.

(** The fields after one link assignment. *)
Lemma nx_set_next v i bs j :
  is_Some (bs !! i) -> nx (alter (setb_next v) i bs) j = if decide (j = i) then v else nx bs j.
Proof.
  intros [x Hx]. rewrite nx_alter. destruct (decide (i = j)) as [->|];
    destruct (decide (j = _)); try done. by rewrite Hx.
Qed.
Lemma pv_set_prev v i bs j :
  is_Some (bs !! i) -> pv (alter (setb_prev v) i bs) j = if decide (j = i) then v else pv bs j.
Proof.
  intros [x Hx]. rewrite pv_alter. destruct (decide (i = j)) as [->|];
    destruct (decide (j = _)); try done. by rewrite Hx.
Qed.
Lemma nx_set_prev v i bs j : nx (alter (setb_prev v) i bs) j = nx bs j.
Proof. rewrite nx_alter. case_decide; [|done]. subst. unfold nx. by destruct (bs !! j). Qed.
Lemma pv_set_next v i bs j : pv (alter (setb_next v) i bs) j = pv bs j.
Proof. rewrite pv_alter. case_decide; [|done]. subst. unfold pv. by destruct (bs !! j). Qed.

Lemma alter_is_Some (f : buf -> buf) (i : nat) (bs : list buf) (j : nat) :
  is_Some (alter f i bs !! j) <-> is_Some (bs !! j).
Proof. rewrite list_lookup_alter. case_decide; [subst|done]. apply fmap_is_Some. Qed.


Lemma links_off_lookup bs bs' i x' :
  same_links_off bs bs' -> bs' !! i = Some x' ->
  exists x, bs !! i = Some x /\ links_off x = links_off x'.
Proof.
  intros H Hx. apply (f_equal (fun l => l !! i)) in H. rewrite !list_lookup_fmap, Hx in H.
  destruct (bs !! i) as [x|]; [|discriminate H]. exists x. split; [done|].
  by apply (inj Some) in H.
Qed.

Lemma cached_links bs bs' d ac order order' :
  cached bs d ac order -> same_links_off bs bs' ->
  chain (nx bs') (pv bs') HEAD order' HEAD -> order' ≡ₚ order -> cached bs' d ac order'.
Proof.
  intros [Clen Cring Cperm Cone Cbuf Cabs] Hs Hc Hp.
  assert (Hs' : same_links_off bs' bs) by done.
  assert (Hback : forall i x', bs' !! i = Some x' -> exists x, bs !! i = Some x /\
    b_dev x = b_dev x' /\ b_blockno x = b_blockno x' /\ b_refcnt x = b_refcnt x' /\
    b_valid x = b_valid x' /\ b_data x = b_data x' /\ b_lock x = b_lock x').
  { intros i x' Hx'. destruct (links_off_lookup _ _ _ _ Hs Hx') as (x & Hx & He).
    exists x. split; [done|]. destruct x, x'. unfold links_off in He. simpl in *. naive_solver. }
  split; try done.
  - apply (f_equal length) in Hs. rewrite !length_fmap in Hs. congruence.
  - by rewrite Hp.
  - intros i j x' y' Hi Hj Hx' Hy'.
    destruct (Hback _ _ Hx') as (x & Hx & <- & <- & _), (Hback _ _ Hy') as (y & Hy & <- & <- & _).
    by apply Cone.
  - intros i x' Hi Hx'. destruct (Hback _ _ Hx') as (x & Hx & E1 & E2 & E3 & E4 & E5 & E6).
    specialize (Cbuf i x Hi Hx). unfold idle_buf, used_buf in *.
    by rewrite <- E1, <- E2, <- E3, <- E4, <- E5, <- E6.
  - intros bno a Ha. destruct (Cabs bno a Ha) as (i & x & Hi & Hx & Hr & Hn).
    destruct (links_off_lookup _ _ _ _ Hs' Hx) as (x' & Hx' & He).
    exists i, x'. destruct x, x'. unfold links_off in He. simpl in *. naive_solver.
Qed.

Lemma move_front_ring bs d ac order b l1 l2 :
  cached bs d ac order -> order = l1 ++ b :: l2 ->
  let bs' := pushed_front (unlinked bs b) b in
  chain (nx bs') (pv bs') HEAD (b :: l1 ++ l2) HEAD.
Proof.
  intros C Ho. pose proof (ca_ring _ _ _ _ C) as Hc. pose proof (ca_len _ _ _ _ C) as Hlen.
  assert (Hnd : NoDup (HEAD :: order)).
  { apply NoDup_cons. rewrite (ca_perm _ _ _ _ C). split; [|apply NoDup_seq].
    rewrite elem_of_seq. lia. }
  assert (Hin : forall i, i ∈ HEAD :: order -> is_Some (bs !! i)).
  { intros i Hi. apply lookup_lt_is_Some_2. rewrite Hlen. apply elem_of_cons in Hi as [->|Hi]; [lia|].
    rewrite (ca_perm _ _ _ _ C), elem_of_seq in Hi. lia. }
  subst order. pose proof Hc as Hc'. apply chain_app in Hc' as [Hc1 Hc2].
  pose proof (chain_pred _ _ _ _ _ Hc1) as Hpb.
  assert (Hnb : nx bs b ∈ HEAD :: (l1 ++ b :: l2)).
  { rewrite (ring_next _ _ _ _ _ Hc2). destruct l2; simpl; set_solver. }
  assert (Hpi : is_Some (bs !! pv bs b)).
  { apply Hin. rewrite app_comm_cons. apply elem_of_app. by left. }
  assert (Hni : is_Some (bs !! nx bs b)) by (by apply Hin).
  assert (Hu : chain (nx (unlinked bs b)) (pv (unlinked bs b)) HEAD (l1 ++ l2) HEAD).
  { apply (ring_unlink (nx bs) (pv bs) _ _ HEAD l1 b l2); [done|done| |]; intros j; unfold unlinked.
    - rewrite nx_set_next, nx_set_prev by (by apply alter_is_Some). done.
    - rewrite pv_set_next, pv_set_prev by done. done. }
  assert (Hsub : HEAD :: l1 ++ l2 ⊆ HEAD :: l1 ++ b :: l2) by set_solver.
  set (bs1 := unlinked bs b) in *.
  assert (Hin1 : forall i, i ∈ HEAD :: l1 ++ b :: l2 -> is_Some (bs1 !! i)).
  { intros i Hi. unfold bs1, unlinked. rewrite !alter_is_Some. by apply Hin. }
  assert ((b ∉ HEAD :: l1 ++ l2) /\ NoDup (HEAD :: l1 ++ l2)) as [Hb Hnd'].
  { assert ((HEAD :: l1 ++ b :: l2) ≡ₚ (b :: HEAD :: l1 ++ l2)) as Hperm by solve_Permutation.
    rewrite Hperm in Hnd. by apply NoDup_cons in Hnd. }
  assert (Hb1 : is_Some (bs1 !! b)) by (apply Hin1; set_solver).
  assert (Hh1 : is_Some (bs1 !! nx bs1 HEAD)).
  { apply Hin1, Hsub. rewrite (ring_next _ _ _ _ _ Hu). clear. destruct (l1 ++ l2); set_solver. }
  apply (chain_push (nx bs1) (pv bs1)); [done..| |]; intros j; unfold pushed_front.
  - rewrite nx_set_next, !nx_set_prev, nx_set_next; [done|done|].
    rewrite !alter_is_Some. apply Hin1, list_elem_of_here.
  - rewrite pv_set_next, !pv_set_prev, pv_set_next; [done| |]; by rewrite ?alter_is_Some.
Qed.

(** *** Operations on a referenced buffer *)

Lemma handle_used s ac order b bno :
  bio s ac order -> handle s b bno ->
  exists x o, (b < HEAD)%nat /\ bufs s !! b = Some x /\ b_blockno x = bno /\
    b_dev x = ROOTDEV /\ b_valid x <> 0 /\ 0 < b_refcnt x /\ lock_is o (b_lock x) /\
    ac !! bno = Some (mkA (b_data x) (b_refcnt x) o) /\
    (forall j y, (j < HEAD)%nat -> j <> b -> bufs s !! j = Some y -> b_dev y = ROOTDEV ->
       b_blockno y <> bno).
Proof.
  intros B (x & Hb & Hx & Hr & Hn). pose proof (bio_cached _ _ _ B) as C.
  pose proof (ca_buf _ _ _ _ C b x Hb Hx) as Hbuf. rewrite decide_False in Hbuf by done.
  destruct Hbuf as (Hpos & Hd & Hv & o & Ho & Hl). subst bno. exists x, o.
  repeat split; try done. intros j y Hj Hne Hy Hdy He. apply Hne.
  by apply (ca_one _ _ _ _ C j b y x).
Qed.

(** A change of one referenced buffer that keeps it referenced. *)
Lemma bio_change s ac order b bno x f o :
  bio s ac order -> handle s b bno -> bufs s !! b = Some x ->
  (forall y, b_next (f y) = b_next y) -> (forall y, b_prev (f y) = b_prev y) ->
  b_dev (f x) = b_dev x -> b_blockno (f x) = b_blockno x -> 0 < b_refcnt (f x) ->
  b_valid (f x) = b_valid x -> lock_is o (b_lock (f x)) ->
  bio (set_bufs (alter f b (bufs s)) s) (<[bno := mkA (b_data (f x)) (b_refcnt (f x)) o]> ac) order /\
  (forall b' bno', handle s b' bno' -> handle (set_bufs (alter f b (bufs s)) s) b' bno').
Proof.
  intros B H Hx Hnx Hpv Hd Hn Hr Hv Hl.
  destruct (handle_used _ _ _ _ _ B H) as (x' & o' & Hb & Hx' & Hn' & Hd' & Hv' & _ & _ & _ & Hu).
  simplify_eq. split.
  - split; [|by apply B..]. apply cached_insert with (x := x); try done; try congruence.
    + apply B.
    + by right.
  - intros b' bno' (y & Hb' & Hy & Hry & Hny). unfold handle. rewrite bufs_set.
    setoid_rewrite (fun f j => alter_lookup _ _ _ f j Hx). case_decide; [|by exists y].
    simplify_eq. exists (f x). repeat split; try done. lia.
Qed.

(** Assigning to [b->data]. *)
Lemma setdata_spec s ac order b bno a v :
  bio s ac order -> handle s b bno -> ac !! bno = Some a ->
  wp (updb b (setb_data v)) (fun _ s' =>
    bio s' (<[bno := mkA v (ab_ref a) (ab_held a)]> ac) order /\ keeps s s' /\
    f_disk s' = f_disk s /\ (forall b' bno', handle s b' bno' -> handle s' b' bno')) s.
Proof.
  intros B H Ha.
  destruct (handle_used _ _ _ _ _ B H) as (x & o & Hb & Hx & Hn & Hd & Hv & Hr & Hl & Ho & Hu).
  rewrite Ho in Ha. simplify_eq. apply wp_updb; [by eexists|].
  destruct (bio_change s ac order b (b_blockno x) x (setb_data v) o B H Hx) as [HB HH]; try done.
  split; [exact HB|]. split; [apply keeps_bufs|]. done.
Qed.

Lemma bpin_spec s ac order b bno a :
  bio s ac order -> handle s b bno -> ac !! bno = Some a ->
  wp (bpin b) (fun _ s' =>
    bio s' (<[bno := mkA (ab_data a) (ab_ref a + 1) (ab_held a)]> ac) order /\ keeps s s' /\
    f_disk s' = f_disk s /\ (forall b' bno', handle s b' bno' -> handle s' b' bno')) s.
Proof.
  intros B H Ha.
  destruct (handle_used _ _ _ _ _ B H) as (x & o & Hb & Hx & Hn & Hd & Hv & Hr & Hl & Ho & Hu).
  rewrite Ho in Ha. simplify_eq. unfold bpin.
  apply wp_bind. eapply wp_lock; [done|apply B|apply B|].
  apply wp_bind, (wp_getb _ x); [done|]. apply wp_bind, wp_updb; [by eexists|].
  apply (wp_unlock _ (f_hart s) (bc_lock (f_bcache s))); [done|apply B|apply B|].
  rewrite bc_unlock, bcacheL_set.
  destruct (bio_change s ac order b (b_blockno x) x (setb_refcnt (b_refcnt x + 1)) o B H Hx)
    as [HB HH]; try done; [simpl; lia|].
  split; [exact HB|]. split; [apply keeps_bufs|]. done.
Qed.

Lemma bunpin_spec s ac order b bno a :
  bio s ac order -> handle s b bno -> ac !! bno = Some a -> 1 < ab_ref a ->
  wp (bunpin b) (fun _ s' =>
    bio s' (<[bno := mkA (ab_data a) (ab_ref a - 1) (ab_held a)]> ac) order /\ keeps s s' /\
    f_disk s' = f_disk s /\ (forall b' bno', handle s b' bno' -> handle s' b' bno')) s.
Proof.
  intros B H Ha Hlt.
  destruct (handle_used _ _ _ _ _ B H) as (x & o & Hb & Hx & Hn & Hd & Hv & Hr & Hl & Ho & Hu).
  rewrite Ho in Ha. simplify_eq. unfold bunpin.
  apply wp_bind. eapply wp_lock; [done|apply B|apply B|].
  apply wp_bind, (wp_getb _ x); [done|]. apply wp_bind, wp_updb; [by eexists|].
  apply (wp_unlock _ (f_hart s) (bc_lock (f_bcache s))); [done|apply B|apply B|].
  rewrite bc_unlock, bcacheL_set. simpl in Hlt.
  destruct (bio_change s ac order b (b_blockno x) x (setb_refcnt (b_refcnt x - 1)) o B H Hx)
    as [HB HH]; try done; [simpl; lia|].
  split; [exact HB|]. split; [apply keeps_bufs|]. done.
Qed.

(** A block write concerns that block's buffer only. *)
Lemma bwrite_spec s ac order b bno a :
  bio s ac order -> handle s b bno -> ac !! bno = Some a ->
  ab_held a = Some (fp_pid (f_proc s)) ->
  wp (bwrite b) (fun _ s' =>
    bio s' ac order /\ keeps s s' /\ f_disk s' = disk_put bno (ab_data a) (f_disk s) /\
    (forall b' bno', handle s b' bno' -> handle s' b' bno')) s.
Proof.
  intros B H Ha Hh.
  destruct (handle_used _ _ _ _ _ B H) as (x & o & Hb & Hx & Hn & Hd & Hv & Hr & Hl & Ho & Hu).
  rewrite Ho in Ha. simplify_eq. simpl in Hh. subst o. unfold bwrite. apply wp_bind.
  eapply wp_eq.
  { apply (holdingsleep_held _ (fun s => is_Some (bufs s !! b))); [by eexists|apply B|].
    simpl. by rewrite Hx. }
  simpl. eapply wp_eq; [apply disk_rw_ok; by eexists|]. unfold disk_effect. rewrite Hx.
  split; [|split; [|done]].
  - split; [|apply B..]. pose proof (bio_cached _ _ _ B) as [Clen Cring Cperm Cone Cbuf Cabs].
    split; try done. intros i y Hi Hy. specialize (Cbuf i y Hi Hy). case_decide; [|done].
    destruct Cbuf as [Hf Hc]. split; [done|]. intros Hvy. destruct (Hc Hvy) as [Hdy Hdat].
    split; [done|]. rewrite Hdat. unfold disk_get. simpl. rewrite lookup_insert_ne; [done|].
    intros He. apply (Hu i y); try done. intros ->. unfold bufs in *; simpl in *. simplify_eq. lia.
  - exists (f_woken s), (disk_put (b_blockno x) (b_data x) (f_disk s)), (bufs s).
    by destruct s as [? ? [] ? ? ? ? ? ? ? ? ? ?].
Qed.

Lemma buf_links bs i x : bs !! i = Some x -> b_next x = nx bs i /\ b_prev x = pv bs i.
Proof. unfold nx, pv. by intros ->. Qed.

Lemma in_order bs d ac order b : cached bs d ac order -> b ∈ order <-> (b < HEAD)%nat.
Proof. intros C. rewrite (ca_perm _ _ _ _ C), elem_of_seq. lia. Qed.

(** A buffer's neighbours exist and are not itself. *)
Lemma neighbours bs d ac order b :
  cached bs d ac order -> (b < HEAD)%nat ->
  is_Some (bs !! nx bs b) /\ is_Some (bs !! pv bs b) /\ nx bs b <> b /\
  is_Some (bs !! nx bs HEAD).
Proof.
  intros C Hb. assert (Hin : forall i, i ∈ HEAD :: order -> is_Some (bs !! i)).
  { intros i Hi. apply lookup_lt_is_Some_2. rewrite (ca_len _ _ _ _ C).
    apply elem_of_cons in Hi as [->|Hi]; [lia|]. rewrite in_order in Hi by done. lia. }
  pose proof (ca_ring _ _ _ _ C) as Hc.
  assert (Hnd : NoDup order) by (rewrite (ca_perm _ _ _ _ C); apply NoDup_seq).
  pose proof Hb as Hbo. rewrite <- in_order in Hbo by done.
  apply list_elem_of_split in Hbo as (l1 & l2 & ->).
  pose proof (ring_next _ _ _ _ _ Hc) as Hh.
  apply chain_app in Hc as [H1 H2]. pose proof (ring_next _ _ _ _ _ H2) as Hn.
  pose proof (chain_pred _ _ _ _ _ H1) as Hp.
  apply NoDup_app in Hnd as (_ & _ & Hnd). apply NoDup_cons in Hnd as [Hbl _].
  split; [|split; [|split]].
  - rewrite Hn. apply Hin. destruct l2; set_solver.
  - apply Hin. set_solver.
  - rewrite Hn. destruct l2; simpl; [lia|set_solver].
  - rewrite Hh. apply Hin. destruct l1; set_solver.
Qed.

Lemma wp_getlinks b Q s :
  is_Some (bufs s !! b) ->
  (forall x, b_next x = nx (bufs s) b -> b_prev x = pv (bufs s) b -> Q x s) ->
  wp (getb b) Q s.
Proof.
  intros [x Hx] HQ. apply (wp_getb _ x); [done|]. destruct (buf_links _ _ _ Hx). by apply HQ.
Qed.

Lemma brelse_move_eq s d ac order b :
  cached (bufs s) d ac order -> (b < HEAD)%nat ->
  brelse_move b s = Ret tt (set_bufs (pushed_front (unlinked (bufs s) b) b) s).
Proof.
  intros C Hb. apply wp_ret_eq. destruct (neighbours _ _ _ _ _ C Hb) as (Hn & Hp & Hne & _).
  assert (Hbi : is_Some (bufs s !! b)) by (apply lookup_lt_is_Some_2; rewrite (ca_len _ _ _ _ C); lia).
  assert (Hhi : is_Some (bufs s !! HEAD)) by (apply lookup_lt_is_Some_2; rewrite (ca_len _ _ _ _ C); lia).
  assert (Hu : is_Some (unlinked (bufs s) b !! nx (unlinked (bufs s) b) HEAD)).
  { unfold unlinked. rewrite !alter_is_Some, nx_set_next, nx_set_prev by (by rewrite alter_is_Some).
    case_decide; [done|]. by eapply neighbours. }
  unfold brelse_move.
  apply wp_bind, wp_getlinks; [done|]. intros x Hxn Hxp. rewrite Hxn, Hxp.
  apply wp_bind, wp_updb; [done|]. apply wp_bind, wp_getlinks; [by rewrite bufs_set, alter_is_Some|].
  rewrite bufs_set, nx_set_prev, pv_set_prev, decide_False by done.
  intros y Hyn Hyp. rewrite Hyn, Hyp. apply wp_bind, wp_updb; [by rewrite bufs_set, alter_is_Some|].
  rewrite !bufs_set, set_bufs_twice. fold (unlinked (bufs s) b).
  set (bs1 := unlinked (bufs s) b) in *.
  assert (Hs1 : forall i, is_Some (bufs s !! i) -> is_Some (bs1 !! i)).
  { intros i Hi. unfold bs1, unlinked. by rewrite !alter_is_Some. }
  apply wp_bind, wp_getlinks; [by apply Hs1|]. rewrite bufs_set. intros h Hhn _. rewrite Hhn.
  apply wp_bind, wp_updb; [by apply Hs1|]. rewrite bufs_set, set_bufs_twice.
  apply wp_bind, wp_updb; [rewrite bufs_set, alter_is_Some; by apply Hs1|].
  rewrite bufs_set, set_bufs_twice.
  apply wp_bind, wp_getlinks; [rewrite bufs_set, !alter_is_Some; by apply Hs1|].
  rewrite bufs_set, nx_set_prev, nx_set_next, decide_False by (try apply Hs1; done || lia).
  intros h' Hhn' _. rewrite Hhn'.
  apply wp_bind, wp_updb; [by rewrite bufs_set, !alter_is_Some|]. rewrite bufs_set, set_bufs_twice.
  apply wp_updb; [rewrite bufs_set, !alter_is_Some; by apply Hs1|].
  rewrite bufs_set, set_bufs_twice. done.
Qed.

Definition release_blk (bno : Z) (ac : acache) : acache :=
  match ac !! bno with
  | Some a => if ab_ref a =? 1 then delete bno ac
              else <[bno := mkA (ab_data a) (ab_ref a - 1) None]> ac
  | None => ac
  end.
Definition to_front (b : nat) (order : list nat) : list nat :=
  b :: filter (fun i => i <> b) order.

Lemma filter_keep (P : nat -> Prop) `{forall i, Decision (P i)} (l : list nat) :
  (forall i, i ∈ l -> P i) -> filter P l = l.
Proof.
  induction l as [|i l IH]; intros Hl; [done|]. rewrite filter_cons_True, IH; [done| |].
  - intros j Hj. by apply Hl, list_elem_of_further.
  - apply Hl, list_elem_of_here.
Qed.

Lemma to_front_split b l1 l2 : NoDup (l1 ++ b :: l2) -> to_front b (l1 ++ b :: l2) = b :: l1 ++ l2.
Proof.
  intros Hnd. apply NoDup_app in Hnd as (_ & Hd & Hnd). apply NoDup_cons in Hnd as [Hb _].
  unfold to_front. f_equal. rewrite filter_app, filter_cons_False by naive_solver.
  rewrite !filter_keep; [done| |]; intros i Hi ->; [done|].
  apply (Hd b Hi). apply list_elem_of_here.
Qed.

Definition put_back (x : buf) : buf := setb_refcnt (b_refcnt x - 1) (setb_lock (drop_sleep (b_lock x)) x).

Lemma bio_woken w s ac order : bio s ac order -> bio (setf_woken w s) ac order.
Proof. intros [C Hq Hl]. by split. Qed.

Lemma lru_front s ac order b :
  bio s ac order -> (b < HEAD)%nat ->
  bio (set_bufs (pushed_front (unlinked (bufs s) b) b) s) ac (to_front b order).
Proof.
  intros [C Hq Hl] Hb. split; [|done..]. pose proof Hb as Hbo. rewrite <- in_order in Hbo by done.
  apply list_elem_of_split in Hbo as (l1 & l2 & ->).
  rewrite to_front_split by (rewrite (ca_perm _ _ _ _ C); apply NoDup_seq).
  rewrite bufs_set. eapply cached_links; [exact C| | |].
  - unfold same_links_off. etrans; [apply links_off_pushed|apply links_off_unlinked].
  - by eapply move_front_ring.
  - apply Permutation_middle.
Qed.

Lemma handle_links s s' b bno :
  handle s b bno -> same_links_off (bufs s) (bufs s') -> handle s' b bno.
Proof.
  intros (x & Hb & Hx & Hr & Hn) Hs.
  destruct (links_off_lookup (bufs s') (bufs s) b x) as (x' & Hx' & He); [done..|].
  exists x'. destruct x, x'. unfold links_off in He. simpl in *. naive_solver.
Qed.

(** Dropping the lock and one reference. *)
Lemma put_back_bio s ac order b x :
  bio s ac order -> (b < HEAD)%nat -> bufs s !! b = Some x -> b_refcnt x <> 0 ->
  lock_is (Some (fp_pid (f_proc s))) (b_lock x) ->
  (b_refcnt x = 1 -> disk_get (f_disk s) (b_blockno x) = b_data x) ->
  let s' := set_bufs (alter put_back b (bufs s)) s in
  bio s' (release_blk (b_blockno x) ac) order /\
  (forall b' bno', handle s b' bno' -> bno' <> b_blockno x \/ b_refcnt x <> 1 -> handle s' b' bno').
Proof.
  intros B Hb Hx Hr0 Hl Hclean. assert (H : handle s b (b_blockno x)) by (by exists x).
  destruct (handle_used _ _ _ _ _ B H) as (x' & o & _ & Hx' & Hn & Hd & Hv & Hr & _ & Ho & Hu).
  simplify_eq. unfold release_blk. rewrite Ho. simpl. destruct (Z.eqb_spec (b_refcnt x) 1) as [H1|H1].
  - split.
    + split; [|by apply B..]. rewrite bufs_set. change (f_disk (set_bufs _ s)) with (f_disk s).
      apply cached_delete with (x := x); try done; [apply B|simpl; lia|].
      split; simpl; [by eapply sleep_free_drop|]. intros _. split; [done|]. by rewrite Hclean.
    + intros b' bno' (y & Hb' & Hy & Hry & Hny) Hor. exists y. rewrite bufs_set.
      rewrite (alter_lookup _ _ _ _ _ Hx). case_decide; [|done]. simplify_eq. naive_solver.
  - destruct (bio_change s ac order b (b_blockno x) x put_back None B H Hx) as [HB HH]; try done.
    + simpl. lia.
    + simpl. by eapply sleep_free_drop.
    + split; [exact HB|]. intros b' bno' Hh _. by apply HH.
Qed.

Lemma brelse_spec s ac order b bno a :
  bio s ac order -> handle s b bno -> ac !! bno = Some a ->
  ab_held a = Some (fp_pid (f_proc s)) ->
  (ab_ref a = 1 -> disk_get (f_disk s) bno = ab_data a) ->
  wp (brelse b) (fun _ s' =>
    bio s' (release_blk bno ac) (if ab_ref a =? 1 then to_front b order else order) /\
    keeps s s' /\ f_disk s' = f_disk s /\
    (forall b' bno', handle s b' bno' -> bno' <> bno \/ ab_ref a <> 1 -> handle s' b' bno')) s.
Proof.
  intros B H Ha Hh Hclean.
  destruct (handle_used _ _ _ _ _ B H) as (x & o & Hb & Hx & Hn & Hd & Hv & Hr & Hl & Ho & Hu).
  rewrite Ho in Ha. simplify_eq. simpl in Hh, Hclean. subst o. unfold brelse. apply wp_bind.
  eapply wp_eq.
  { apply (holdingsleep_held _ (fun s => is_Some (bufs s !! b))); [by eexists|apply B|].
    simpl. by rewrite Hx. }
  simpl. apply wp_bind. eapply wp_eq.
  { apply (releasesleep_eq _ (fun s => is_Some (bufs s !! b))); [by eexists|apply B|].
    simpl. rewrite Hx. apply Hl. }
  simpl. rewrite Hx. simpl. set (s1 := setf_woken _ _).
  assert (Hs1 : bufs s1 = alter (setb_lock (drop_sleep (b_lock x))) b (bufs s)) by done.
  apply wp_bind. apply (wp_lock _ (f_hart s) (bc_lock (f_bcache s))); [done|apply B|apply B|].
  apply wp_bind, (wp_getb _ (setb_lock (drop_sleep (b_lock x)) x)).
  { rewrite bcacheL_set, Hs1. by rewrite (alter_lookup _ _ x), decide_True. }
  apply wp_bind, wp_updb.
  { rewrite bcacheL_set, Hs1, (alter_lookup _ _ x), decide_True by done. by eexists. }
  rewrite bcacheL_set. set (bs1 := alter _ b (bufs s1)).
  assert (Hbs1 : bs1 = alter put_back b (bufs s)).
  { unfold bs1. rewrite Hs1, list_alter_alter_eq. by apply (alter_at _ _ _ _ x). }
  clearbody bs1. subst bs1. apply wp_bind, (wp_getb _ (put_back x)).
  { rewrite bufs_set. by rewrite (alter_lookup _ _ x), decide_True. }
  apply wp_bind.
  destruct (put_back_bio s ac order b x B Hb Hx ltac:(lia) Hl Hclean) as [HB HH].
  assert (Hwk : exists w, s1 = setf_woken w (set_bufs (bufs s1) s)) by (by eexists).
  destruct Hwk as [w Hwk].
  assert (Hun : forall bs', lset bcacheL (f_hart s, bc_lock (f_bcache s))
    (set_bufs bs' (lset bcacheL (acquired (f_hart s), held (f_hart s) (bc_lock (f_bcache s))) s1))
    = setf_woken w (set_bufs bs' s)) by (intros; rewrite Hwk; by destruct s).
  change (b_refcnt (put_back x)) with (b_refcnt x - 1).
  replace (b_refcnt x - 1 =? 0) with (b_refcnt x =? 1) by lia.
  destruct (Z.eqb_spec (b_refcnt x) 1) as [H1|H1].
  - eapply wp_eq; [eapply brelse_move_eq; [apply HB|done]|]. rewrite bufs_set, set_bufs_twice.
    apply (wp_unlock _ (f_hart s) (bc_lock (f_bcache s))); [done|apply B|apply B|].
    rewrite Hun. split; [|split; [by eexists _, _, _|split; [done|]]].
    + apply bio_woken. apply (lru_front _ _ _ b HB Hb).
    + intros b' bno' Hh Hor. apply (handle_links _ _ _ _ (HH b' bno' Hh Hor)).
      unfold same_links_off. etrans; [apply links_off_pushed|apply links_off_unlinked].
  - apply wp_skip. apply (wp_unlock _ (f_hart s) (bc_lock (f_bcache s))); [done|apply B|apply B|].
    rewrite Hun. split; [by apply bio_woken|]. split; [by eexists _, _, _|]. done.
Qed.

(** *** Boot *)

(** A buffer of the zeroed [bcache], but for its data. *)
Definition bss_buf (v : block) : buf := mkBuf 0 0 0 0 sleep0 0 0 0 v.
Definition bss_bcache (v : block) : bcache_t :=
  mkBcache (mkLock 0 0 0) (replicate (S HEAD) (bss_buf v)).

(** The buffers [binit] makes of them. *)
Definition init_buf (v : block) (i : nat) : buf :=
  mkBuf 0 0 0 0 (mkSleep 0 (mkLock 0 (strlit "sleep lock") 0) (strlit "buffer") 0) 0
    (if (i =? HEAD - 1)%nat then HEAD else S i) (if (i =? 0)%nat then HEAD else i - 1)%nat v.
Definition init_bufs (v : block) : list buf :=
  (init_buf v <$> seq 0 HEAD) ++ [mkBuf 0 0 0 0 sleep0 0 0%nat (HEAD - 1) v].

Lemma binit_eq s v :
  f_bcache s = bss_bcache v ->
  binit s = Ret tt (setf_bcache (mkBcache (mkLock 0 (strlit "bcache") 0) (init_bufs v)) s).
Proof. destruct s. simpl. intros ->. vm_compute. reflexivity. Qed.

Lemma init_bufs_idle v i x :
  (i < HEAD)%nat -> init_bufs v !! i = Some x -> x = init_buf v i.
Proof.
  intros Hi Hx. unfold init_bufs in Hx. rewrite lookup_app_l in Hx
    by (by rewrite length_fmap, length_seq).
  rewrite list_lookup_fmap, lookup_seq_lt in Hx by done. by simplify_eq/=.
Qed.

Lemma init_cached d v : cached (init_bufs v) d ∅ (rev (seq 0 HEAD)).
Proof.
  split.
  - done.
  - vm_compute. repeat split.
  - symmetry. apply Permutation_rev.
  - intros i j x y Hi Hj Hx Hy Hd. rewrite (init_bufs_idle v i x) in Hd by done. done.
  - intros i x Hi Hx. rewrite (init_bufs_idle v i x) by done. simpl. by split.
  - intros bno a Ha. by rewrite lookup_empty in Ha.
Qed.

Lemma binit_spec s v :
  f_bcache s = bss_bcache v -> hart_quiet (f_hart s) ->
  wp binit (fun _ s' => bio s' ∅ (rev (seq 0 HEAD)) /\ f_disk s' = f_disk s) s.
Proof.
  intros Hb Hq. eapply wp_eq; [by apply (binit_eq s v)|].
  split; [|done]. split; [apply (init_cached (f_disk s) v)|done|done].
Qed.

End bioproofs.

(** ** What the buffer cache guarantees *)

Section claims.
Context `{im : Image} `{W : World} `{WO : !WorldOk W}.

(** C11: [bread] implements the abstract cache.  When the block's buffer is not
    locked, or fewer blocks than buffers are referenced, it returns a buffer of
    that block: the block is now referenced once more and locked by the caller,
    with the content the cache or the disk had for it; no other block, no
    buffer handed out before, and nothing on the disk changes. *)
Theorem bread_refines s ac order bno :
  bio s ac order -> can_read ac bno ->
  wp (bread ROOTDEV bno) (fun b s' =>
    bio s' (acquire_blk (f_disk s) (fp_pid (f_proc s)) bno ac) order /\
    handle s' b bno /\ keeps s s' /\ f_disk s' = f_disk s /\
    (forall b' bno', handle s b' bno' -> handle s' b' bno')) s.
Proof. apply bread_spec. Qed.

(** [brelse] by the holder drops the lock and one reference; with the last
    reference the buffer moves to the front of the LRU list, which keeps the
    order of the others, and the block leaves the abstract cache. *)
Theorem brelse_refines s ac order b bno a :
  bio s ac order -> handle s b bno -> ac !! bno = Some a ->
  ab_held a = Some (fp_pid (f_proc s)) ->
  (ab_ref a = 1 -> disk_get (f_disk s) bno = ab_data a) ->
  wp (brelse b) (fun _ s' =>
    bio s' (release_blk bno ac) (if ab_ref a =? 1 then to_front b order else order) /\
    keeps s s' /\ f_disk s' = f_disk s /\
    (forall b' bno', handle s b' bno' -> bno' <> bno \/ ab_ref a <> 1 -> handle s' b' bno')) s.
Proof. apply brelse_spec. Qed.

(** [binit] on the zeroed cache links the buffers into the ring and leaves
    an empty abstract cache. *)
Theorem binit_establishes s v :
  f_bcache s = bss_bcache v -> hart_quiet (f_hart s) ->
  wp binit (fun _ s' => bio s' ∅ (rev (seq 0 HEAD)) /\ f_disk s' = f_disk s) s.
Proof. apply binit_spec. Qed.

(** A caller that does not hold the buffer's lock cannot release or write it. *)
Lemma brelse_not_held s ac order b bno a :
  bio s ac order -> handle s b bno -> ac !! bno = Some a ->
  ab_held a <> Some (fp_pid (f_proc s)) ->
  brelse b s = Err (EPanic "brelse") s /\ bwrite b s = Err (EPanic "bwrite") s.
Proof.
  intros B H Ha Hh.
  destruct (handle_used _ _ _ _ _ B H) as (x & o & Hb & Hx & Hn & Hd & Hv & Hr & Hl & Ho & Hu).
  rewrite Ho in Ha. simplify_eq. simpl in Hh.
  assert (Hhold : holdingsleep (bufsleepL b) s = Ret false s).
  { rewrite (holdingsleep_eq _ (fun s => is_Some (bufs s !! b))
      (L := bufsleep_lens b)); [|by eexists|apply B|].
    - simpl. rewrite Hx. simpl. f_equal. destruct o as [p|]; simpl in Hl.
      + destruct Hl as (-> & -> & _). simpl. apply Z.eqb_neq. congruence.
      + destruct Hl as (-> & _). done.
    - simpl. rewrite Hx. simpl. destruct o; apply Hl. }
  split; unfold brelse, bwrite; by rewrite (bind_ret _ _ _ _ _ Hhold).
Qed.

End claims.

(** ** A concrete file-system state *)

(** Nobody else runs, every user address is mapped, and transfers complete. *)
Definition demo_world : World := {|
  env := fun _ s => s;
  patience := 0;
  u_mapped := fun _ => true;
  virtio_disk_rw := fun b w s => Ret tt (disk_effect b w s);
  dev_read := fun _ => None;
  dev_write := fun _ => None
|}.
Lemma demo_world_ok : WorldOk demo_world.
Proof. done. Qed.

Definition demo_qhart : hartst := settle demo_hart.
Lemma demo_quiet : hart_quiet demo_qhart.
Proof. apply hart_quiet_settle, demo_hart_ok. Qed.

Definition demo_proc : fproc := mkFproc 1 0 0x4000 (replicate 16 None) None (replicate 8 0).
Definition demo_log : log_t := mkLog demo_lock 2 30 0 0 ROOTDEV (mkLH 0 (replicate 30 0)).
Definition demo_sb : superblock := mkSb FSMAGIC 1000 941 200 30 2 32 45.

(** The file system's state just before [binit]. *)
Definition demo_bss (d : disk_t) : fstate :=
  mkF demo_qhart demo_proc (bss_bcache block0) d demo_log demo_sb
    (mkItable demo_lock []) (mkFtable demo_lock []) ∅ [] ∅ ∅ [].

Definition demo_fs (d : disk_t) : fstate :=
  setf_bcache (mkBcache (mkLock 0 (strlit (Image := demo_image) "bcache") 0)
    (init_bufs (im := demo_image) block0)) (demo_bss d).

Lemma demo_bio d : bio (demo_fs d) ∅ (rev (seq 0 HEAD)).
Proof. split; [apply init_cached|apply demo_quiet|done]. Qed.

Lemma binit_establishes_witness :
  wp (binit (im := demo_image)) (fun _ s' => bio s' ∅ (rev (seq 0 HEAD)) /\ f_disk s' = mkDisk ∅ [])
    (demo_bss (mkDisk ∅ [])).
Proof. apply (binit_establishes (demo_bss (mkDisk ∅ [])) block0); [reflexivity|apply demo_quiet]. Defined.

Lemma bread_refines_witness :
  wp (bread (im := demo_image) (W := demo_world) ROOTDEV 5) (fun b s' =>
    bio s' (acquire_blk (mkDisk ∅ []) 1 5 ∅) (rev (seq 0 HEAD)) /\ handle s' b 5)
    (demo_fs (mkDisk ∅ [])).
Proof.
  eapply wp_conseq.
  - apply (bread_refines (WO := demo_world_ok) _ _ _ 5 (demo_bio (mkDisk ∅ []))).
    vm_compute. lia.
  - intros b s' (H1 & H2 & _). by split.
Defined.

(** Block 5 read: its buffer and the state. *)
Definition demo_read (d : disk_t) : nat * fstate :=
  match bread (im := demo_image) (W := demo_world) ROOTDEV 5 (demo_fs d) with
  | Ret b s => (b, s)
  | Err _ s => (0%nat, s)
  end.

Lemma demo_read_bio d :
  bio (demo_read d).2 (acquire_blk d 1 5 ∅) (rev (seq 0 HEAD)) /\
  handle (demo_read d).2 (demo_read d).1 5 /\ f_disk (demo_read d).2 = d /\
  keeps (demo_fs d) (demo_read d).2.
Proof.
  assert (Hcan : can_read ∅ 5) by (vm_compute; lia).
  destruct (wp_inv _ _ _ (bread_spec (WO := demo_world_ok) (im := demo_image) (demo_fs d) ∅ _ 5
    (demo_bio d) Hcan)) as (b & s & Heq & H1 & H2 & H3 & H4 & _).
  unfold demo_read. rewrite Heq. exact (conj H1 (conj H2 (conj H4 H3))).
Qed.

Lemma brelse_refines_witness :
  wp (brelse (im := demo_image) (demo_read (mkDisk ∅ [])).1) (fun _ s' =>
    bio s' (release_blk 5 (acquire_blk (mkDisk ∅ []) 1 5 ∅))
      (to_front (demo_read (mkDisk ∅ [])).1 (rev (seq 0 HEAD))))
    (demo_read (mkDisk ∅ [])).2.
Proof.
  destruct (demo_read_bio (mkDisk ∅ [])) as (HB & HH & Hd & w & d & bs & Hk).
  destruct (demo_read (mkDisk ∅ [])) as [b s]. cbn [fst snd] in *. eapply wp_conseq.
  - apply (brelse_refines (WO := demo_world_ok) _ _ _ _ 5 (mkA (disk_get (mkDisk ∅ []) 5) 1 (Some 1)) HB HH).
    + reflexivity.
    + rewrite Hk. reflexivity.
    + intros _. by rewrite Hd.
  - intros u s' (H1 & _). exact H1.
Defined.
