(* ===== verification/BioLogic.v ===== *)
(** * Reasoning about clients of the buffer cache

    [cstate s0 ac d hs s] is what a client knows between two calls: [s] came
    from [s0] by cache and disk changes only, implements abstract cache [ac]
    over disk [d], and the pairs of [hs] are buffers it holds a reference to.
    One rule per operation of [bio.c]; the log and the file system are proved
    with these rules, never with the buffers themselves. *)
From stdpp Require Import base gmap strings numbers option list.
From S2P Require Import Prelude Layout Machine Memory Kernel FsState Block Sleeplock Bio.
Open Scope Z_scope.

Record cstate (s0 : fstate) (ac : acache) (d : disk_t) (hs : list (nat * Z)) (s : fstate) : Prop := {
  cs_bio : exists order, bio s ac order;
  cs_keeps : keeps s0 s;
  cs_disk : f_disk s = d;
  cs_handles : Forall (fun p => handle s p.1 p.2) hs
}.

Lemma keeps_proc s s' : keeps s s' -> f_proc s' = f_proc s.
Proof. by intros (w & d & bs & ->). Qed.
Lemma keeps_log s s' : keeps s s' -> f_log s' = f_log s.
Proof. by intros (w & d & bs & ->). Qed.
Lemma keeps_hart s s' : keeps s s' -> f_hart s' = f_hart s.
Proof. by intros (w & d & bs & ->). Qed.

Section rules.
Context `{im : Image} `{W : World} `{WO : !WorldOk W}.
Context (s0 : fstate).
Let pid := fp_pid (f_proc s0).

Lemma cstate_init ac order :
  bio s0 ac order -> cstate s0 ac (f_disk s0) [] s0.
Proof. intros B. split; [by exists order|reflexivity|done|done]. Qed.

Lemma cstate_sub ac d hs hs' s :
  cstate s0 ac d hs s -> hs' ⊆ hs -> cstate s0 ac d hs' s.
Proof.
  intros [HB HK HD HH] Hs. split; try done. rewrite Forall_forall in *. intros p Hp.
  apply HH, Hs, Hp.
Qed.

Lemma cstate_ext ac ac' d hs s :
  cstate s0 ac d hs s -> (forall k, ac' !! k = ac !! k) -> cstate s0 ac' d hs s.
Proof. intros C H. by rewrite (map_eq ac' ac H). Qed.

Lemma cs_step ac d hs s s' ac' d' hs' :
  cstate s0 ac d hs s ->
  (exists order, bio s' ac' order) -> keeps s s' -> f_disk s' = d' ->
  (forall p, p ∈ hs' -> handle s' p.1 p.2) -> cstate s0 ac' d' hs' s'.
Proof.
  intros [_ HK _ _] HB HK' HD HH. split; try done; [by transitivity s|]. by apply Forall_forall.
Qed.

Lemma cs_bread ac d hs s bno Q :
  cstate s0 ac d hs s -> can_read ac bno ->
  (forall b s', cstate s0 (acquire_blk d pid bno ac) d ((b, bno) :: hs) s' -> Q b s') ->
  wp (bread ROOTDEV bno) Q s.
Proof.
  intros C Hcan HQ. destruct C as [[order B] HK HD HH] eqn:EC. clear EC.
  eapply wp_conseq; [by apply (bread_spec s ac order bno)|].
  intros b s' (B' & Hb & HK' & HD' & HH'). apply HQ. subst d.
  rewrite (keeps_proc _ _ HK) in B'.
  apply (cs_step _ _ _ _ _ _ _ _ C); try done; [by eexists|].
  intros p Hp. apply elem_of_cons in Hp as [->|Hp]; [done|].
  rewrite Forall_forall in HH. by apply HH', HH.
Qed.

Lemma cs_getb ac d hs s b bno a Q :
  cstate s0 ac d hs s -> (b, bno) ∈ hs -> ac !! bno = Some a ->
  (forall x, b_data x = ab_data a -> b_blockno x = bno -> Q x s) -> wp (getb b) Q s.
Proof.
  intros [[order B] HK HD HH] Hin Ha HQ. rewrite Forall_forall in HH.
  destruct (handle_used _ _ _ _ _ B (HH _ Hin))
    as (x & o & Hb & Hx & Hn & Hd & Hv & Hr & Hl & Ho & Hu).
  simpl in *. rewrite Ho in Ha. simplify_eq. apply (wp_getb _ x); [done|]. by apply HQ.
Qed.

Lemma cs_setdata ac d hs s b bno a v Q :
  cstate s0 ac d hs s -> (b, bno) ∈ hs -> ac !! bno = Some a ->
  (forall s', cstate s0 (<[bno := mkA v (ab_ref a) (ab_held a)]> ac) d hs s' -> Q tt s') ->
  wp (updb b (setb_data v)) Q s.
Proof.
  intros C Hin Ha HQ. destruct C as [[order B] HK HD HH] eqn:EC. clear EC.
  rewrite Forall_forall in HH.
  eapply wp_conseq; [by apply (setdata_spec s ac order b bno a v B (HH _ Hin))|].
  intros [] s' (B' & HK' & HD' & HH'). apply HQ.
  apply (cs_step _ _ _ _ _ _ _ _ C); try congruence; [by eexists|].
  intros p Hp. by apply HH', HH.
Qed.

Lemma cs_bwrite ac d hs s b bno a Q :
  cstate s0 ac d hs s -> (b, bno) ∈ hs -> ac !! bno = Some a -> ab_held a = Some pid ->
  (forall s', cstate s0 ac (disk_put bno (ab_data a) d) hs s' -> Q tt s') ->
  wp (bwrite b) Q s.
Proof.
  intros C Hin Ha Hh HQ. destruct C as [[order B] HK HD HH] eqn:EC. clear EC.
  rewrite Forall_forall in HH.
  eapply wp_conseq; [apply (bwrite_spec s ac order b bno a B (HH _ Hin) Ha)|].
  - by rewrite (keeps_proc _ _ HK).
  - intros [] s' (B' & HK' & HD' & HH'). apply HQ. subst d.
    apply (cs_step _ _ _ _ _ _ _ _ C); try done; [by eexists|].
    intros p Hp. by apply HH', HH.
Qed.

Lemma cs_bpin ac d hs s b bno a Q :
  cstate s0 ac d hs s -> (b, bno) ∈ hs -> ac !! bno = Some a ->
  (forall s', cstate s0 (<[bno := mkA (ab_data a) (ab_ref a + 1) (ab_held a)]> ac) d hs s' ->
     Q tt s') ->
  wp (bpin b) Q s.
Proof.
  intros C Hin Ha HQ. destruct C as [[order B] HK HD HH] eqn:EC. clear EC.
  rewrite Forall_forall in HH.
  eapply wp_conseq; [by apply (bpin_spec s ac order b bno a B (HH _ Hin) Ha)|].
  intros [] s' (B' & HK' & HD' & HH'). apply HQ.
  apply (cs_step _ _ _ _ _ _ _ _ C); try congruence; [by eexists|].
  intros p Hp. by apply HH', HH.
Qed.

Lemma cs_bunpin ac d hs s b bno a Q :
  cstate s0 ac d hs s -> (b, bno) ∈ hs -> ac !! bno = Some a -> 1 < ab_ref a ->
  (forall s', cstate s0 (<[bno := mkA (ab_data a) (ab_ref a - 1) (ab_held a)]> ac) d hs s' ->
     Q tt s') ->
  wp (bunpin b) Q s.
Proof.
  intros C Hin Ha Hr HQ. destruct C as [[order B] HK HD HH] eqn:EC. clear EC.
  rewrite Forall_forall in HH.
  eapply wp_conseq; [by apply (bunpin_spec s ac order b bno a B (HH _ Hin) Ha)|].
  intros [] s' (B' & HK' & HD' & HH'). apply HQ.
  apply (cs_step _ _ _ _ _ _ _ _ C); try congruence; [by eexists|].
  intros p Hp. by apply HH', HH.
Qed.

Lemma cs_brelse ac d hs hs' s b bno a Q :
  cstate s0 ac d hs s -> (b, bno) ∈ hs -> ac !! bno = Some a -> ab_held a = Some pid ->
  (ab_ref a = 1 -> disk_get d bno = ab_data a) ->
  (forall p, p ∈ hs' -> p ∈ hs /\ (p.2 <> bno \/ ab_ref a <> 1)) ->
  (forall s', cstate s0 (release_blk bno ac) d hs' s' -> Q tt s') ->
  wp (brelse b) Q s.
Proof.
  intros C Hin Ha Hh Hc Hs HQ. destruct C as [[order B] HK HD HH] eqn:EC. clear EC. subst d.
  rewrite Forall_forall in HH.
  eapply wp_conseq; [apply (brelse_spec s ac order b bno a B (HH _ Hin) Ha)|].
  - by rewrite (keeps_proc _ _ HK).
  - done.
  - intros [] s' (B' & HK' & HD' & HH'). apply HQ.
    apply (cs_step _ _ _ _ _ _ _ _ C); try done; [by eexists|].
    intros p Hp. destruct (Hs p Hp) as [Hp' Hor]. apply HH'; [by apply HH|done].
Qed.

End rules.

(** Abstract caches are compared block by block. *)
Ltac ac_lookup :=
  repeat first
    [ rewrite lookup_insert_eq
    | rewrite lookup_delete_eq
    | rewrite lookup_insert_ne by (congruence || lia)
    | rewrite lookup_delete_ne by (congruence || lia) ].
