(* ===== verification/Log.v ===== *)
(** * The log ([kernel/log.c])

    A file-system call's writes reach the disk through the log: the blocks are
    copied to the log area, the header block is written (the commit point), the
    blocks are installed at home and the header is cleared.  The first part
    translates the code; [LogCrash] proves what a crash in the middle of it
    leaves after recovery. *)
From stdpp Require Import base gmap strings numbers option list.
From S2P Require Import Prelude Layout Machine Memory Kernel Demo FsState Block Sleeplock.
From S2P Require Import Bio.
Open Scope Z_scope.

Definition lh (s : fstate) : logheader := lg_lh (f_log s).

(** Assignments to [log.field]. *)
Definition setlog (f : log_t -> log_t) : M fstate unit := modify (fun s => setf_log (f (f_log s)) s).
Definition set_lh_n (n : Z) : M fstate unit :=
  setlog (fun g => setl_lh (mkLH n (lh_block (lg_lh g))) g).

(** [log.lh.block[i] = v]; past the end of the array is out of the object. *)
Definition set_lh_block (i v : Z) : M fstate unit := fun s =>
  if (0 <=? i) && (i <? LOGSIZE) then
    setlog (fun g => setl_lh (mkLH (lh_n (lg_lh g))
      (<[Z.to_nat i := v]> (lh_block (lg_lh g)))) g) s
  else Err (EFault i) s.

(** [log.lh.block[i]] *)
Definition get_lh_block (i : Z) : M fstate Z := fun s =>
  match lh_block (lh s) !! Z.to_nat i with
  | Some v => if 0 <=? i then Ret v s else Err (EFault i) s
  | None => Err (EFault i) s
  end.

(** The on-disk header: [n] and then the block numbers. *)
Definition hd_n (v : block) : Z := i32 (bld32 v 0).
Definition hd_block (v : block) (i : Z) : Z := i32 (bld32 v (4 + 4 * i)).
Definition LOGHEADER_SIZE : Z := 4 + 4 * LOGSIZE.

Section log.
Context `{im : Image} `{W : World}.

(** The body of the loop of [install_trans]. *)
Definition install_one (recovering : bool) (tail : Z) : M fstate unit :=
  g ← gets f_log;
  lbuf ← bread (lg_dev g) (u32 (lg_start g + tail + 1));
  bno ← get_lh_block tail;
  dbuf ← bread (lg_dev g) (u32 bno);
  x ← getb lbuf;
  updb dbuf (setb_data (b_data x));;
  bwrite dbuf;;
  (if recovering then skip else bunpin dbuf);;
  brelse lbuf;;
  brelse dbuf.

Definition install_trans (recovering : bool) : M fstate unit :=
  n ← gets (fun s => lh_n (lh s));
  forM (seqZ 0 n) (install_one recovering).

Definition read_head : M fstate unit :=
  g ← gets f_log;
  b ← bread (lg_dev g) (u32 (lg_start g));
  x ← getb b;
  set_lh_n (hd_n (b_data x));;
  forM (seqZ 0 (hd_n (b_data x))) (fun i =>
    x ← getb b;
    set_lh_block i (hd_block (b_data x) i));;
  brelse b.

Definition write_head : M fstate unit :=
  g ← gets f_log;
  b ← bread (lg_dev g) (u32 (lg_start g));
  n ← gets (fun s => lh_n (lh s));
  x ← getb b;
  updb b (setb_data (bst32 (b_data x) 0 n));;
  forM (seqZ 0 n) (fun i =>
    x ← getb b;
    v ← get_lh_block i;
    updb b (setb_data (bst32 (b_data x) (4 + 4 * i) v)));;
  bwrite b;;
  brelse b.

Definition recover_from_log : M fstate unit :=
  read_head;;
  install_trans true;;
  set_lh_n 0;;
  write_head.

Definition initlog (dev : Z) (sb : superblock) : M fstate unit :=
  if BSIZE <=? LOGHEADER_SIZE then panic "initlog: too big logheader" else
  zoom logL (zoom lsnd (initlock (strlit "log")));;
  setlog (setl_start (i32 (sb_logstart sb)));;
  setlog (setl_size (i32 (sb_nlog sb)));;
  setlog (setl_dev dev);;
  recover_from_log.

(** The loop of [begin_op]: sleep while a commit runs or the log could not
    hold another operation's blocks. *)
Definition begin_op : M fstate unit :=
  zoom logL acquire;;
  sleep_while (fun s => let g := f_log s in
    negb (lg_committing g =? 0)
    || (LOGSIZE <? lh_n (lg_lh g) + (lg_outstanding g + 1) * MAXOPBLOCKS)) WLog logL;;
  g ← gets f_log;
  setlog (setl_outstanding (lg_outstanding g + 1));;
  zoom logL release.

(** The body of the loop of [write_log]. *)
Definition write_log_one (tail : Z) : M fstate unit :=
  g ← gets f_log;
  to ← bread (lg_dev g) (u32 (lg_start g + tail + 1));
  bno ← get_lh_block tail;
  from ← bread (lg_dev g) (u32 bno);
  x ← getb from;
  updb to (setb_data (b_data x));;
  bwrite to;;
  brelse from;;
  brelse to.

Definition write_log : M fstate unit :=
  n ← gets (fun s => lh_n (lh s));
  forM (seqZ 0 n) write_log_one.

Definition commit : M fstate unit :=
  n ← gets (fun s => lh_n (lh s));
  if 0 <? n then
    write_log;;
    write_head;;
    install_trans false;;
    set_lh_n 0;;
    write_head
  else skip.

Definition end_op : M fstate unit :=
  zoom logL acquire;;
  g ← gets f_log;
  setlog (setl_outstanding (lg_outstanding g - 1));;
  g ← gets f_log;
  if negb (lg_committing g =? 0) then panic "log.committing" else
  let do_commit := lg_outstanding g =? 0 in
  (if do_commit then setlog (setl_committing 1) else wakeup WLog);;
  zoom logL release;;
  if do_commit then
    commit;;
    zoom logL acquire;;
    setlog (setl_committing 0);;
    wakeup WLog;;
    zoom logL release
  else skip.

(** [for(i = 0; i < log.lh.n; i++) if(log.lh.block[i] == b->blockno) break;] *)
Definition log_index (bno : Z) (g : logheader) : Z :=
  match list_find (fun v => u32 v = bno) (take (Z.to_nat (lh_n g)) (lh_block g)) with
  | Some (i, _) => Z.of_nat i
  | None => Z.max 0 (lh_n g)
  end.

Definition log_write (b : nat) : M fstate unit :=
  zoom logL acquire;;
  g ← gets f_log;
  if (LOGSIZE <=? lh_n (lg_lh g)) || (lg_size g - 1 <=? lh_n (lg_lh g))
  then panic "too big a transaction" else
  if lg_outstanding g <? 1 then panic "log_write outside of trans" else
  x ← getb b;
  let i := log_index (b_blockno x) (lg_lh g) in
  set_lh_block i (i32 (b_blockno x));;
  (if i =? lh_n (lg_lh g) then
     bpin b;;
     set_lh_n (lh_n (lg_lh g) + 1)
   else skip);;
  zoom logL release.

End log.
