(* ===== verification/LogCrash.v ===== *)
(** * Crash safety of the log

    What each routine of [log.c] writes to the disk, in order; what recovery
    makes of a disk; and that, wherever a crash cuts the sequence of writes of
    a commit or of a recovery, recovery yields all of the transaction or none
    of it.  A block write is the unit that a crash cannot split. *)
From stdpp Require Import base gmap strings numbers option list.
From S2P Require Import Prelude Layout Machine Memory Kernel Demo FsState Block Sleeplock.
From S2P Require Import Bio BioLogic Log.
Open Scope Z_scope.

(** ** Sequences of block writes *)

Definition puts_d (ws : list (Z * block)) (d : disk_t) : disk_t :=
  foldl (fun d w => disk_put w.1 w.2 d) d ws.

Lemma puts_d_app ws ws' d : puts_d (ws ++ ws') d = puts_d ws' (puts_d ws d).
Proof. apply foldl_app. Qed.

Lemma puts_d_cons b v ws d : puts_d ((b, v) :: ws) d = puts_d ws (disk_put b v d).
Proof. done. Qed.

Lemma disk_get_put b v d k : disk_get (disk_put b v d) k = if decide (b = k) then v else disk_get d k.
Proof. unfold disk_get. simpl. rewrite lookup_insert. by case_decide. Qed.

Lemma puts_d_notin ws d k : k ∉ ws.*1 -> disk_get (puts_d ws d) k = disk_get d k.
Proof.
  revert d. induction ws as [|[b v] ws IH]; intros d Hk; [done|]. simpl.
  apply not_elem_of_cons in Hk as [Hne Hk]. rewrite (IH _ Hk), disk_get_put.
  by rewrite decide_False by (simpl in *; congruence).
Qed.

Lemma puts_d_in ws d k v : NoDup ws.*1 -> (k, v) ∈ ws -> disk_get (puts_d ws d) k = v.
Proof.
  revert d. induction ws as [|[b w] ws IH]; intros d Hnd Hin; [by apply elem_of_nil in Hin|].
  simpl in *. apply NoDup_cons in Hnd as [Hb Hnd].
  apply elem_of_cons in Hin as [He|Hin]; [|by apply IH].
  simplify_eq. rewrite puts_d_notin by done. rewrite disk_get_put. by rewrite decide_True.
Qed.

Lemma puts_d_agree ws d d' k :
  disk_get d k = disk_get d' k -> disk_get (puts_d ws d) k = disk_get (puts_d ws d') k.
Proof.
  revert d d'. induction ws as [|[b v] ws IH]; intros d d' H; [done|]. simpl. apply IH.
  rewrite !disk_get_put. by case_decide.
Qed.

(** Repeating a prefix of the writes first makes no difference. *)
Lemma puts_d_redo ws j d k :
  NoDup ws.*1 -> disk_get (puts_d ws (puts_d (take j ws) d)) k = disk_get (puts_d ws d) k.
Proof.
  intros Hnd. destruct (decide (k ∈ ws.*1)) as [Hin|Hin].
  - apply list_elem_of_fmap in Hin as ([k' v] & -> & Hin). simpl. by rewrite !(puts_d_in _ _ k' v).
  - rewrite !puts_d_notin; try done. intros Hin'. apply Hin.
    rewrite fmap_take in Hin'. by apply elem_of_take in Hin' as (i & Hi%list_elem_of_lookup_2 & _).
Qed.

(** The blocks [vs] of the transaction in the log area. *)
Definition log_writes (st : Z) (vs : list block) : list (Z * block) :=
  imap (fun i v => (st + Z.of_nat i + 1, v)) vs.

Lemma log_writes_lookup st vs i :
  log_writes st vs !! i = (fun v => (st + Z.of_nat i + 1, v)) <$> vs !! i.
Proof. unfold log_writes. by rewrite list_lookup_imap. Qed.

Lemma log_writes_area st vs k :
  k ∈ (log_writes st vs).*1 -> st < k <= st + Z.of_nat (length vs).
Proof.
  intros Hk. apply list_elem_of_fmap in Hk as ([k' v] & -> & Hin).
  apply list_elem_of_lookup in Hin as [i Hi]. rewrite log_writes_lookup in Hi.
  destruct (vs !! i) eqn:Hv; simplify_eq/=. apply lookup_lt_Some in Hv. lia.
Qed.

Lemma log_writes_nodup st vs : NoDup (log_writes st vs).*1.
Proof.
  apply NoDup_alt. intros i j k Hi Hj. rewrite !list_lookup_fmap, !log_writes_lookup in *.
  destruct (vs !! i), (vs !! j); simplify_eq/=. lia.
Qed.

Lemma log_writes_get st vs d i v :
  vs !! i = Some v -> disk_get (puts_d (log_writes st vs) d) (st + Z.of_nat i + 1) = v.
Proof.
  intros Hv. apply puts_d_in; [apply log_writes_nodup|].
  apply (list_elem_of_lookup_2 _ i). by rewrite log_writes_lookup, Hv.
Qed.

Lemma puts_d_take_S ws d i w :
  ws !! i = Some w -> puts_d (take (S i) ws) d = disk_put w.1 w.2 (puts_d (take i ws) d).
Proof. intros Hw. rewrite (take_S_r _ _ w), puts_d_app by done. done. Qed.

(** ** The header block *)

Fixpoint put_blocks (v : block) (i : Z) (l : list Z) : block :=
  match l with
  | [] => v
  | x :: l' => put_blocks (bst32 v (4 + 4 * i) x) (i + 1) l'
  end.

(** The header block for the block numbers [l], written over [v]. *)
Definition head_data (v : block) (l : list Z) : block :=
  put_blocks (bst32 v 0 (Z.of_nat (length l))) 0 l.

Lemma put_blocks_snoc v i l x :
  put_blocks v i (l ++ [x]) = bst32 (put_blocks v i l) (4 + 4 * (i + Z.of_nat (length l))) x.
Proof.
  revert v i. induction l as [|y l IH]; intros v i; simpl; [do 2 f_equal; lia|].
  rewrite IH. f_equal. lia.
Qed.

(** ** Pinned blocks *)

(** The reference a logged block holds, given back. *)
Definition unpin (bno : Z) (ac : acache) : acache := release_blk bno ac.

Definition unpin_all (l : list Z) (ac : acache) : acache := foldl (fun ac b => unpin b ac) ac l.

Lemma release_blk_ne b ac k : k <> b -> release_blk b ac !! k = ac !! k.
Proof.
  intros Hk. unfold release_blk. destruct (ac !! b) as [a|]; [|done].
  destruct (ab_ref a =? 1); by ac_lookup.
Qed.

Lemma release_blk_size b ac : (size (release_blk b ac) <= size ac)%nat.
Proof.
  unfold release_blk. destruct (ac !! b) as [a|] eqn:Ha; [|done]. destruct (ab_ref a =? 1).
  - rewrite map_size_delete, Ha. simpl. lia.
  - rewrite map_size_insert, Ha. simpl. lia.
Qed.

Lemma unpin_all_notin l ac k : k ∉ l -> unpin_all l ac !! k = ac !! k.
Proof.
  revert ac. induction l as [|b l IH]; intros ac Hk; [done|].
  apply not_elem_of_cons in Hk as [? ?]. simpl. rewrite IH by done. by apply release_blk_ne.
Qed.

Lemma unpin_all_size l ac : (size (unpin_all l ac) <= size ac)%nat.
Proof.
  revert ac. induction l as [|b l IH]; intros ac; simpl; [done|].
  etrans; [apply IH|apply release_blk_size].
Qed.

Lemma unpin_all_snoc l b ac : unpin_all (l ++ [b]) ac = unpin b (unpin_all l ac).
Proof. unfold unpin_all. by rewrite foldl_app. Qed.

Definition pinned (ac : acache) (b : Z) (v : block) : Prop :=
  exists r, ac !! b = Some (mkA v r None) /\ 1 <= r.

(** ** The steps of the routines *)

Section steps.
Context `{im : Image} `{W : World} `{WO : !WorldOk W}.
Context (s0 : fstate) (Hdev : lg_dev (f_log s0) = ROOTDEV).
Let start := lg_start (f_log s0).

Lemma get_lh_block_eq i v s :
  keeps s0 s -> 0 <= i -> lh_block (lh s0) !! Z.to_nat i = Some v ->
  get_lh_block i s = Ret v s.
Proof.
  intros HK Hi Hv. unfold get_lh_block, lh in *. rewrite (keeps_log _ _ HK), Hv.
  by destruct (Z.leb_spec 0 i); [|lia].
Qed.

Ltac mem2 := rewrite ?elem_of_cons; naive_solver.

(** One iteration of [write_log]. *)
Lemma write_log_step ac d s tail hb v r :
  cstate s0 ac d [] s -> 0 <= tail -> 0 <= start -> start + tail + 1 < 2 ^ 32 ->
  lh_block (lh s0) !! Z.to_nat tail = Some hb -> 0 <= hb < 2 ^ 32 -> start + tail + 1 <> hb ->
  ac !! (start + tail + 1) = None -> (size ac < HEAD)%nat ->
  ac !! hb = Some (mkA v r None) -> 1 <= r ->
  wp (write_log_one tail)
    (fun _ s' => cstate s0 ac (disk_put (start + tail + 1) v d) [] s') s.
Proof.
  intros C Ht H0 Hl Hhb Hr Hne Hnone Hsz Hpin Hr1. unfold write_log_one.
  apply wp_bind, wp_gets. rewrite (keeps_log _ _ (cs_keeps _ _ _ _ _ C)), Hdev. fold start.
  rewrite u32_small by lia. set (lb := start + tail + 1) in *.
  apply wp_bind, (cs_bread s0 ac d [] s lb); [done|by unfold can_read; rewrite Hnone|].
  intros to s1 C1. apply wp_bind. eapply wp_eq.
  { apply (get_lh_block_eq _ hb); [apply C1|done|done]. }
  rewrite (u32_small hb) by lia. unfold acquire_blk in C1.
  apply wp_bind. eapply (cs_bread s0); [exact C1|unfold can_read; by ac_lookup; rewrite Hpin|].
  intros from s2 C2. unfold acquire_blk, content, refs in C2.
  rewrite lookup_insert_ne in C2 by done. rewrite Hpin, Hnone in C2. cbn [ab_data ab_ref] in C2.
  apply wp_bind. eapply (cs_getb s0); [exact C2|mem2|by ac_lookup|].
  intros x Hx _. rewrite Hx. cbn [ab_data].
  apply wp_bind. eapply (cs_setdata s0); [exact C2|mem2|by ac_lookup|]. intros s3 C3.
  cbn [ab_ref ab_held] in C3.
  apply wp_bind. eapply (cs_bwrite s0); [exact C3|mem2|by ac_lookup|done|]. intros s4 C4.
  cbn [ab_data] in C4.
  apply wp_bind. eapply (cs_brelse s0 _ _ _ [(to, lb)]); [exact C4|mem2|by ac_lookup|done| | |].
  { cbn [ab_ref]. lia. }
  { cbn [ab_ref snd]. intros p Hp. apply list_elem_of_singleton in Hp as ->. split; [mem2|]. by left. }
  intros s5 C5. unfold release_blk in C5. rewrite lookup_insert_ne, lookup_insert_eq in C5 by done.
  cbn [ab_ref ab_data] in C5. destruct (Z.eqb_spec (r + 1) 1); [lia|].
  eapply (cs_brelse s0 _ _ _ []); [exact C5|mem2|by ac_lookup|done| | |].
  { intros _. cbn [ab_data]. unfold disk_get. simpl. by rewrite lookup_insert_eq. }
  { intros p Hp. by apply elem_of_nil in Hp. }
  intros s6 C6. unfold release_blk in C6. rewrite lookup_insert_ne, lookup_insert_eq in C6 by done.
  cbn [ab_ref] in C6. rewrite Z.eqb_refl in C6.
  apply (cstate_ext _ _ _ _ _ _ C6). intros k.
  destruct (decide (k = lb)) as [->|]; [by ac_lookup; rewrite Hnone|].
  destruct (decide (k = hb)) as [->|]; ac_lookup; [|done]. rewrite Hpin. do 2 f_equal. lia.
Qed.

(** One iteration of [install_trans(0)]: the home block was pinned. *)
Lemma install_step ac d s tail hb w r :
  cstate s0 ac d [] s -> 0 <= tail -> 0 <= start -> start + tail + 1 < 2 ^ 32 ->
  lh_block (lh s0) !! Z.to_nat tail = Some hb -> 0 <= hb < 2 ^ 32 -> start + tail + 1 <> hb ->
  ac !! (start + tail + 1) = None -> (size ac < HEAD)%nat ->
  ac !! hb = Some (mkA w r None) -> 1 <= r -> w = disk_get d (start + tail + 1) ->
  wp (install_one false tail)
    (fun _ s' => cstate s0 (unpin hb ac) (disk_put hb w d) [] s') s.
Proof.
  intros C Ht H0 Hl Hhb Hr Hne Hnone Hsz Hpin Hr1 Hw. unfold install_one.
  apply wp_bind, wp_gets. rewrite (keeps_log _ _ (cs_keeps _ _ _ _ _ C)), Hdev. fold start.
  rewrite u32_small by lia. set (lb := start + tail + 1) in *.
  apply wp_bind, (cs_bread s0 ac d [] s lb); [done|by unfold can_read; rewrite Hnone|].
  intros lbuf s1 C1. apply wp_bind. eapply wp_eq.
  { apply (get_lh_block_eq _ hb); [apply C1|done|done]. }
  rewrite (u32_small hb) by lia. unfold acquire_blk in C1.
  apply wp_bind. eapply (cs_bread s0); [exact C1|unfold can_read; by ac_lookup; rewrite Hpin|].
  intros dbuf s2 C2. unfold acquire_blk, content, refs in C2.
  rewrite lookup_insert_ne in C2 by done. rewrite Hpin, Hnone in C2. cbn [ab_data ab_ref] in C2.
  apply wp_bind. eapply (cs_getb s0); [exact C2|mem2|by ac_lookup|].
  intros x Hx _. rewrite Hx. cbn [ab_data]. rewrite <- Hw.
  apply wp_bind. eapply (cs_setdata s0); [exact C2|mem2|by ac_lookup|]. intros s3 C3.
  cbn [ab_ref ab_held] in C3.
  apply wp_bind. eapply (cs_bwrite s0); [exact C3|mem2|by ac_lookup|done|]. intros s4 C4.
  cbn [ab_data] in C4.
  apply wp_bind. eapply (cs_bunpin s0); [exact C4|mem2|by ac_lookup|simpl; lia|]. intros s5 C5.
  cbn [ab_data ab_ref ab_held] in C5. replace (r + 1 - 1) with r in C5 by lia.
  apply wp_bind. eapply (cs_brelse s0 _ _ _ [(dbuf, hb)]); [exact C5|mem2|by ac_lookup|done| | |].
  { intros _. cbn [ab_data]. unfold disk_get in *. simpl. by rewrite lookup_insert_ne. }
  { intros p Hp. apply list_elem_of_singleton in Hp as ->. split; [mem2|]. left. simpl. congruence. }
  intros s6 C6. unfold release_blk in C6. rewrite !lookup_insert_ne, lookup_insert_eq in C6 by done.
  cbn [ab_ref] in C6. rewrite Z.eqb_refl in C6.
  eapply (cs_brelse s0 _ _ _ []); [exact C6|mem2|by ac_lookup|done| | |].
  { intros _. cbn [ab_data]. unfold disk_get. simpl. by rewrite lookup_insert_eq. }
  { intros p Hp. by apply elem_of_nil in Hp. }
  intros s7 C7. unfold release_blk in C7.
  rewrite lookup_delete_ne, lookup_insert_eq in C7 by done. cbn [ab_ref ab_data] in C7.
  unfold unpin, release_blk. rewrite Hpin. cbn [ab_ref ab_data].
  apply (cstate_ext _ _ _ _ _ _ C7). intros k. destruct (r =? 1).
  all: destruct (decide (k = lb)) as [->|]; [by ac_lookup; rewrite Hnone|].
  all: destruct (decide (k = hb)) as [->|]; by ac_lookup.
Qed.

(** One iteration of [install_trans(1)]: nothing is cached. *)
Lemma recover_step ac d s tail hb :
  cstate s0 ac d [] s -> 0 <= tail -> 0 <= start -> start + tail + 1 < 2 ^ 32 ->
  lh_block (lh s0) !! Z.to_nat tail = Some hb -> 0 <= hb < 2 ^ 32 -> start + tail + 1 <> hb ->
  ac !! (start + tail + 1) = None -> ac !! hb = None -> (size ac + 1 < HEAD)%nat ->
  wp (install_one true tail)
    (fun _ s' => cstate s0 ac (disk_put hb (disk_get d (start + tail + 1)) d) [] s') s.
Proof.
  intros C Ht H0 Hl Hhb Hr Hne Hnone Hnone' Hsz. unfold install_one.
  apply wp_bind, wp_gets. rewrite (keeps_log _ _ (cs_keeps _ _ _ _ _ C)), Hdev. fold start.
  rewrite u32_small by lia. set (lb := start + tail + 1) in *.
  apply wp_bind, (cs_bread s0 ac d [] s lb); [done|unfold can_read; rewrite Hnone; lia|].
  intros lbuf s1 C1. apply wp_bind. eapply wp_eq.
  { apply (get_lh_block_eq _ hb); [apply C1|done|done]. }
  rewrite (u32_small hb) by lia. unfold acquire_blk in C1.
  apply wp_bind. eapply (cs_bread s0); [exact C1| |].
  { unfold can_read. ac_lookup. rewrite Hnone', map_size_insert_None by done. lia. }
  intros dbuf s2 C2. unfold acquire_blk, content, refs in C2.
  rewrite lookup_insert_ne in C2 by done. rewrite Hnone', Hnone in C2. cbn [ab_data ab_ref] in C2.
  apply wp_bind. eapply (cs_getb s0); [exact C2|mem2|by ac_lookup|].
  intros x Hx _. rewrite Hx. cbn [ab_data].
  apply wp_bind. eapply (cs_setdata s0); [exact C2|mem2|by ac_lookup|]. intros s3 C3.
  cbn [ab_ref ab_held] in C3.
  apply wp_bind. eapply (cs_bwrite s0); [exact C3|mem2|by ac_lookup|done|]. intros s4 C4.
  cbn [ab_data] in C4. apply wp_bind, wp_skip.
  apply wp_bind. eapply (cs_brelse s0 _ _ _ [(dbuf, hb)]); [exact C4|mem2|by ac_lookup|done| | |].
  { intros _. cbn [ab_data]. unfold disk_get in *. simpl. by rewrite lookup_insert_ne. }
  { intros p Hp. apply list_elem_of_singleton in Hp as ->. split; [mem2|]. left. simpl. congruence. }
  intros s6 C6. unfold release_blk in C6. rewrite !lookup_insert_ne, lookup_insert_eq in C6 by done.
  cbn [ab_ref] in C6. rewrite Z.eqb_refl in C6.
  eapply (cs_brelse s0 _ _ _ []); [exact C6|mem2|by ac_lookup|done| | |].
  { intros _. cbn [ab_data]. unfold disk_get. simpl. by rewrite lookup_insert_eq. }
  { intros p Hp. by apply elem_of_nil in Hp. }
  intros s7 C7. unfold release_blk in C7.
  rewrite lookup_delete_ne, lookup_insert_eq in C7 by done. cbn [ab_ref ab_data] in C7.
  rewrite Z.eqb_refl in C7. apply (cstate_ext _ _ _ _ _ _ C7). intros k.
  destruct (decide (k = lb)) as [->|]; [by ac_lookup|].
  destruct (decide (k = hb)) as [->|]; by ac_lookup.
Qed.

Lemma write_head_spec ac d s l :
  cstate s0 ac d [] s -> 0 <= start < 2 ^ 32 ->
  ac !! start = None -> (size ac < HEAD)%nat ->
  lh_n (lh s0) = Z.of_nat (length l) -> l `prefix_of` lh_block (lh s0) ->
  wp write_head
    (fun _ s' => cstate s0 ac (disk_put start (head_data (disk_get d start) l) d) [] s') s.
Proof.
  intros C Hs Hnone Hsz Hn Hpre. unfold write_head.
  apply wp_bind, wp_gets. rewrite (keeps_log _ _ (cs_keeps _ _ _ _ _ C)), Hdev. fold start.
  rewrite u32_small by lia.
  apply wp_bind, (cs_bread s0 ac d [] s start); [done|by unfold can_read; rewrite Hnone|].
  intros b s1 C1. unfold acquire_blk, content, refs in C1. rewrite Hnone in C1.
  assert (Hlh : lh s1 = lh s0) by (unfold lh; by rewrite (keeps_log _ _ (cs_keeps _ _ _ _ _ C1))).
  apply wp_bind, wp_gets. rewrite Hlh, Hn.
  apply wp_bind. eapply (cs_getb s0); [exact C1|mem2|by ac_lookup|]. intros x Hx _. rewrite Hx.
  apply wp_bind. eapply (cs_setdata s0); [exact C1|mem2|by ac_lookup|]. intros s2 C2.
  cbn [ab_ref ab_held ab_data] in C2. rewrite insert_insert_eq in C2. apply wp_bind.
  set (v0 := bst32 (disk_get d start) 0 (Z.of_nat (length l))) in *.
  eapply wp_conseq; [apply (wp_forZ _ _ (fun i t => cstate s0
    (<[start := mkA (put_blocks v0 0 (take (Z.to_nat i) l)) (0 + 1) (Some (fp_pid (f_proc s0)))]> ac)
    d [(b, start)] t)); [|lia|exact C2]|].
  - intros i s3 Hi C3. apply wp_bind. eapply (cs_getb s0); [exact C3|mem2|by ac_lookup|].
    intros y Hy _. destruct (lookup_lt_is_Some_2 l (Z.to_nat i)) as [w Hw]; [lia|].
    apply wp_bind. eapply wp_eq.
    { apply (get_lh_block_eq _ w); [apply C3|lia|]. by eapply prefix_lookup_Some. }
    rewrite Hy. cbn [ab_data]. eapply (cs_setdata s0); [exact C3|mem2|by ac_lookup|].
    intros s4 C4. cbn [ab_ref ab_held] in C4. rewrite insert_insert_eq in C4.
    replace (Z.to_nat (i + 1)) with (S (Z.to_nat i)) by lia.
    rewrite (take_S_r _ _ w), put_blocks_snoc, length_take_le by (done || lia).
    by rewrite Z2Nat.id by lia.
  - intros u s3 C3. rewrite Nat2Z.id, firstn_all in C3.
    apply wp_bind. eapply (cs_bwrite s0); [exact C3|mem2|by ac_lookup|done|]. intros s4 C4.
    eapply (cs_brelse s0 _ _ _ []); [exact C4|mem2|by ac_lookup|done| | |].
    { intros _. cbn [ab_data]. unfold disk_get. simpl. by rewrite lookup_insert_eq. }
    { intros p Hp. by apply elem_of_nil in Hp. }
    intros s5 C5. unfold release_blk in C5. rewrite lookup_insert_eq in C5. cbn [ab_ref] in C5.
    rewrite Z.eqb_refl, delete_insert_id in C5 by done. exact C5.
Qed.

(** *** The loops *)

(** What the log routines need of the in-memory log: [l] is the transaction. *)
Record txn_ok (ac : acache) (l : list Z) : Prop := {
  tx_start : 0 <= start;
  tx_end : start + lg_size (f_log s0) < 2 ^ 31;
  tx_n : lh_n (lh s0) = Z.of_nat (length l);
  tx_pre : l `prefix_of` lh_block (lh s0);
  tx_fit : Z.of_nat (length l) < lg_size (f_log s0);
  tx_home : forall b, b ∈ l -> 0 <= b < 2 ^ 31 /\ ~ (start <= b < start + lg_size (f_log s0));
  tx_area : forall k, start <= k < start + lg_size (f_log s0) -> ac !! k = None;
  tx_room : (size ac < HEAD)%nat
}.

Lemma write_log_spec ac d s l vs :
  cstate s0 ac d [] s -> txn_ok ac l -> Forall2 (pinned ac) l vs ->
  wp write_log (fun _ s' => cstate s0 ac (puts_d (log_writes start vs) d) [] s') s.
Proof.
  intros C T HF. pose proof (Forall2_length _ _ _ HF) as Hlen. unfold write_log.
  apply wp_bind, wp_gets. unfold lh at 1. rewrite (keeps_log _ _ (cs_keeps _ _ _ _ _ C)).
  fold (lh s0). rewrite (tx_n _ _ T).
  eapply wp_conseq; [apply (wp_forZ _ _ (fun i t => cstate s0 ac
    (puts_d (take (Z.to_nat i) (log_writes start vs)) d) [] t)); [|lia|exact C]|].
  - intros i s1 Hi C1. destruct (lookup_lt_is_Some_2 l (Z.to_nat i)) as [b Hb]; [lia|].
    destruct (Forall2_lookup_l _ _ _ _ _ HF Hb) as (v & Hv & r & Hr & Hr1).
    pose proof (list_elem_of_lookup_2 _ _ _ Hb) as Hin. destruct (tx_home _ _ T b Hin) as [Hb1 Hb2].
    pose proof (tx_fit _ _ T). pose proof (tx_start _ _ T). pose proof (tx_end _ _ T).
    eapply wp_conseq.
    + eapply (write_log_step ac _ s1 i b v r C1); try lia.
      * by eapply prefix_lookup_Some, T.
      * apply (tx_area _ _ T). lia.
      * apply T.
      * done.
    + intros u s2 C2. replace (Z.to_nat (i + 1)) with (S (Z.to_nat i)) by lia.
      erewrite puts_d_take_S; [|by rewrite log_writes_lookup, Hv]. simpl.
      by rewrite Z2Nat.id by lia.
  - intros u s1 C1. rewrite Nat2Z.id, Hlen in C1.
    rewrite take_ge in C1; [done|]. unfold log_writes. by rewrite length_imap.
Qed.

Lemma install_false_spec ac d s l vs :
  cstate s0 ac d [] s -> txn_ok ac l -> NoDup l -> Forall2 (pinned ac) l vs ->
  (forall i v, vs !! i = Some v -> disk_get d (start + Z.of_nat i + 1) = v) ->
  wp (install_trans false) (fun _ s' => cstate s0 (unpin_all l ac) (puts_d (zip l vs) d) [] s') s.
Proof.
  intros C T Hnd HF Hlog. pose proof (Forall2_length _ _ _ HF) as Hlen. unfold install_trans.
  apply wp_bind, wp_gets. unfold lh at 1. rewrite (keeps_log _ _ (cs_keeps _ _ _ _ _ C)).
  fold (lh s0). rewrite (tx_n _ _ T).
  eapply wp_conseq; [apply (wp_forZ _ _ (fun i t => cstate s0 (unpin_all (take (Z.to_nat i) l) ac)
    (puts_d (take (Z.to_nat i) (zip l vs)) d) [] t)); [|lia|exact C]|].
  - intros i s1 Hi C1. destruct (lookup_lt_is_Some_2 l (Z.to_nat i)) as [b Hb]; [lia|].
    destruct (Forall2_lookup_l _ _ _ _ _ HF Hb) as (v & Hv & r & Hr & Hr1).
    pose proof (list_elem_of_lookup_2 _ _ _ Hb) as Hin. destruct (tx_home _ _ T b Hin) as [Hb1 Hb2].
    pose proof (tx_fit _ _ T). pose proof (tx_start _ _ T). pose proof (tx_end _ _ T).
    assert (Hnot : forall k, start <= k < start + lg_size (f_log s0) -> k ∉ take (Z.to_nat i) l).
    { intros k Hk Hin'. apply elem_of_take in Hin' as (j & Hj & _).
      destruct (tx_home _ _ T k (list_elem_of_lookup_2 _ _ _ Hj)). lia. }
    assert (Hbt : b ∉ take (Z.to_nat i) l).
    { intros Hin'. apply elem_of_take in Hin' as (j & Hj & Hlt).
      assert (j = Z.to_nat i) by (by eapply NoDup_lookup). lia. }
    eapply wp_conseq.
    + eapply (install_step _ _ s1 i b v r C1); try lia.
      * by eapply prefix_lookup_Some, T.
      * rewrite unpin_all_notin by (apply Hnot; lia). apply (tx_area _ _ T). lia.
      * pose proof (tx_room _ _ T). pose proof (unpin_all_size (take (Z.to_nat i) l) ac). lia.
      * by rewrite unpin_all_notin.
      * rewrite puts_d_notin; [rewrite <- (Hlog _ _ Hv); f_equal; lia|].
        rewrite fmap_take, fst_zip by lia. apply Hnot. lia.
    + intros u s2 C2. replace (Z.to_nat (i + 1)) with (S (Z.to_nat i)) by lia.
      rewrite (take_S_r _ _ b), unpin_all_snoc by done.
      rewrite (puts_d_take_S _ _ _ (b, v)); [exact C2|]. by apply lookup_zip_Some.
  - intros u s1 C1. rewrite Nat2Z.id in C1.
    rewrite (take_ge l), (take_ge (zip l vs)) in C1 by (rewrite ?length_zip; lia). done.
Qed.

(** Recovery installs with nothing cached. *)
Lemma install_true_spec d s l vs :
  cstate s0 ∅ d [] s -> txn_ok ∅ l -> length l = length vs ->
  (forall i v, vs !! i = Some v -> disk_get d (start + Z.of_nat i + 1) = v) ->
  wp (install_trans true) (fun _ s' => cstate s0 ∅ (puts_d (zip l vs) d) [] s') s.
Proof.
  intros C T Hlen Hlog. unfold install_trans.
  apply wp_bind, wp_gets. unfold lh at 1. rewrite (keeps_log _ _ (cs_keeps _ _ _ _ _ C)).
  fold (lh s0). rewrite (tx_n _ _ T).
  eapply wp_conseq; [apply (wp_forZ _ _ (fun i t => cstate s0 ∅
    (puts_d (take (Z.to_nat i) (zip l vs)) d) [] t)); [|lia|exact C]|].
  - intros i s1 Hi C1. destruct (lookup_lt_is_Some_2 l (Z.to_nat i)) as [b Hb]; [lia|].
    destruct (lookup_lt_is_Some_2 vs (Z.to_nat i)) as [v Hv]; [lia|].
    pose proof (list_elem_of_lookup_2 _ _ _ Hb) as Hin. destruct (tx_home _ _ T b Hin) as [Hb1 Hb2].
    pose proof (tx_fit _ _ T). pose proof (tx_start _ _ T). pose proof (tx_end _ _ T).
    eapply wp_conseq.
    + eapply (recover_step _ _ s1 i b C1); try lia; try by apply lookup_empty.
      * by eapply prefix_lookup_Some, T.
      * vm_compute. lia.
    + intros u s2 C2. replace (Z.to_nat (i + 1)) with (S (Z.to_nat i)) by lia.
      rewrite (puts_d_take_S _ _ _ (b, v)); [|by apply lookup_zip_Some].
      simpl in C2. rewrite puts_d_notin in C2.
      * replace (start + i + 1) with (start + Z.of_nat (Z.to_nat i) + 1) in C2 by lia.
        by rewrite (Hlog _ _ Hv) in C2.
      * rewrite fmap_take, fst_zip by lia. intros Hin'. apply elem_of_take in Hin' as (j & Hj & _).
        destruct (tx_home _ _ T _ (list_elem_of_lookup_2 _ _ _ Hj)). lia.
  - intros u s1 C1. rewrite Nat2Z.id in C1.
    rewrite (take_ge (zip l vs)) in C1 by (rewrite ?length_zip; lia). done.
Qed.

End steps.

(** *** The header read back *)

Lemma length_put_blocks v i l : length (put_blocks v i l) = length v.
Proof. revert v i. induction l as [|x l IH]; intros v i; simpl; [done|]. by rewrite IH, length_bst. Qed.
Lemma length_head_data v l : length (head_data v l) = length v.
Proof. unfold head_data. by rewrite length_put_blocks, length_bst. Qed.

Lemma put_blocks_before v i l off :
  0 <= off -> off + 4 <= 4 + 4 * i -> off + 4 <= Z.of_nat (length v) ->
  bld32 (put_blocks v i l) off = bld32 v off.
Proof.
  revert v i. induction l as [|x l IH]; intros v i H0 H1 H2; simpl; [done|].
  rewrite IH by (rewrite ?length_bst; lia). apply bld_bst_disj; lia.
Qed.

Lemma put_blocks_get v i l j x :
  0 <= i -> l !! j = Some x -> 4 + 4 * (i + Z.of_nat (length l)) <= Z.of_nat (length v) ->
  0 <= x < 2 ^ 32 -> bld32 (put_blocks v i l) (4 + 4 * (i + Z.of_nat j)) = x.
Proof.
  revert v i j. induction l as [|y l IH]; intros v i j Hi Hj Hl Hx; [done|].
  cbn [length] in Hl. destruct j as [|j]; simpl in Hj; simplify_eq; simpl put_blocks.
  - rewrite put_blocks_before by (rewrite ?length_bst; lia).
    replace (i + Z.of_nat 0) with i by lia. apply bld32_bst32; lia.
  - replace (i + Z.of_nat (S j)) with (i + 1 + Z.of_nat j) by lia.
    apply IH; try done; rewrite ?length_bst; lia.
Qed.

(** The transaction a header block announces. *)
Definition announces (v : block) (l : list Z) : Prop :=
  hd_n v = Z.of_nat (length l) /\ forall i b, l !! i = Some b -> hd_block v (Z.of_nat i) = b.

Lemma head_data_announces v l :
  length v = Z.to_nat BSIZE -> Z.of_nat (length l) <= LOGSIZE ->
  (forall b, b ∈ l -> 0 <= b < 2 ^ 31) -> announces (head_data v l) l.
Proof.
  intros Hv Hl Hr. change (Z.to_nat BSIZE) with 1024%nat in Hv. change LOGSIZE with 30 in Hl.
  unfold announces, hd_n, hd_block, head_data. split.
  - rewrite put_blocks_before by (rewrite ?length_bst; lia).
    rewrite bld32_bst32 by lia. apply i32_small. lia.
  - intros i b Hb. pose proof (list_elem_of_lookup_2 _ _ _ Hb) as Hin. apply Hr in Hin.
    pose proof (lookup_lt_Some _ _ _ Hb).
    replace (4 + 4 * Z.of_nat i) with (4 + 4 * (0 + Z.of_nat i)) by lia.
    rewrite (put_blocks_get _ _ _ _ b); [apply i32_small; lia|lia|done|rewrite length_bst; lia|lia].
Qed.

(** ** [commit] *)

Section commit.
Context `{im : Image} `{W : World} `{WO : !WorldOk W}.

Lemma cstate_setlog s0 ac d hs s g :
  cstate s0 ac d hs s -> cstate (setf_log g s0) ac d hs (setf_log g s).
Proof.
  intros [[order B] (w & d' & bs & HK) HD HH]. split.
  - exists order. destruct B. by split.
  - exists w, d', bs. by rewrite HK.
  - done.
  - done.
Qed.

Definition with_n (n : Z) (s : fstate) : fstate :=
  setf_log (setl_lh (mkLH n (lh_block (lh s))) (f_log s)) s.

Lemma cs_set_lh_n s0 ac d hs s n Q :
  cstate s0 ac d hs s ->
  (forall s', cstate (with_n n s0) ac d hs s' -> Q tt s') -> wp (set_lh_n n) Q s.
Proof.
  intros C HQ. apply wp_modify, HQ. unfold with_n, lh.
  rewrite <- (keeps_log _ _ (cs_keeps _ _ _ _ _ C)). by apply cstate_setlog.
Qed.

(** The disk writes of a commit of blocks [l] with contents [vs], over header
    block [v]. *)
Definition commit_writes (start : Z) (v : block) (l : list Z) (vs : list block)
  : list (Z * block) :=
  log_writes start vs ++ (start, head_data v l) :: zip l vs
    ++ [(start, head_data (head_data v l) [])].

Lemma commit_spec s ac order l vs :
  bio s ac order -> lg_dev (f_log s) = ROOTDEV -> txn_ok s ac l -> l <> [] -> NoDup l ->
  Forall2 (pinned ac) l vs ->
  let start := lg_start (f_log s) in
  wp commit (fun _ s' => cstate (with_n 0 s) (unpin_all l ac)
    (puts_d (commit_writes start (disk_get (f_disk s) start) l vs) (f_disk s)) [] s') s.
Proof.
  intros B Hdev T Hne Hnd HF start. pose proof (cstate_init _ _ _ B) as C.
  pose proof (Forall2_length _ _ _ HF) as Hlen.
  assert (Hpos : (0 < length l)%nat) by (destruct l; simpl; [done|lia]).
  pose proof (tx_start _ _ _ T). pose proof (tx_end _ _ _ T). pose proof (tx_fit _ _ _ T).
  set (d := f_disk s) in *. set (v := disk_get d start).
  unfold commit. apply wp_bind, wp_gets. rewrite (tx_n _ _ _ T).
  destruct (Z.ltb_spec 0 (Z.of_nat (length l))); [|lia].
  apply wp_bind. eapply wp_conseq; [by eapply write_log_spec|]. intros u1 s1 C1. fold start in C1.
  assert (Hv1 : disk_get (puts_d (log_writes start vs) d) start = v).
  { rewrite puts_d_notin; [done|]. intros Hin%log_writes_area. lia. }
  apply wp_bind. eapply wp_conseq.
  { apply (write_head_spec s Hdev _ _ _ l C1); [fold start; lia|apply (tx_area _ _ _ T); lia|apply T..]. }
  intros u2 s2 C2. simpl in C2. fold start in C2. rewrite Hv1 in C2.
  apply wp_bind. eapply wp_conseq.
  { apply (install_false_spec s Hdev _ _ _ l vs C2 T Hnd HF). fold start. intros i w Hw.
    rewrite disk_get_put, decide_False by lia. by apply log_writes_get. }
  intros u3 s3 C3. apply wp_bind, (cs_set_lh_n _ _ _ _ _ 0 _ C3). intros s4 C4.
  eapply wp_conseq.
  { apply (write_head_spec (with_n 0 s) Hdev _ _ _ [] C4); [simpl; fold start; lia| | |done|apply prefix_nil].
    - rewrite unpin_all_notin; [apply (tx_area _ _ _ T); simpl; lia|].
      intros Hin. destruct (tx_home _ _ _ T _ Hin). simpl in *. lia.
    - pose proof (unpin_all_size l ac). pose proof (tx_room _ _ _ T). lia. }
  intros u4 s5 C5. simpl in C5. fold start in C5. unfold commit_writes.
  rewrite puts_d_app, puts_d_cons, puts_d_app, puts_d_cons. simpl.
  rewrite puts_d_notin, disk_get_put, decide_True in C5; [done|done|].
  rewrite fst_zip by lia. intros Hin. destruct (tx_home _ _ _ T _ Hin). lia.
Qed.

(** ** Recovery *)

Definition with_lh (n : Z) (l : list Z) (s : fstate) : fstate :=
  setf_log (setl_lh (mkLH n l) (f_log s)) s.

Lemma cs_set_lh_block s0 n l ac d hs s i v Q :
  cstate (with_lh n l s0) ac d hs s -> 0 <= i < LOGSIZE ->
  (forall s', cstate (with_lh n (<[Z.to_nat i := v]> l) s0) ac d hs s' -> Q tt s') ->
  wp (set_lh_block i v) Q s.
Proof.
  intros C Hi HQ. unfold set_lh_block, wp.
  destruct (Z.leb_spec 0 i), (Z.ltb_spec i LOGSIZE); try lia. simpl. apply HQ.
  pose proof (keeps_log _ _ (cs_keeps _ _ _ _ _ C)) as Hg. simpl in Hg. rewrite Hg. simpl.
  apply (cstate_setlog _ _ _ _ _ (setl_lh (mkLH n (<[Z.to_nat i:=v]> l)) (f_log s0))) in C.
  exact C.
Qed.

(** The header array with [i] entries of [l] copied over [old]. *)
Definition copied (i : nat) (l old : list Z) : list Z := take i l ++ drop i old.

Lemma copied_S i l old x :
  l !! i = Some x -> (length l <= length old)%nat ->
  <[i := x]> (copied i l old) = copied (S i) l old.
Proof.
  intros Hx Hl. unfold copied. pose proof (lookup_lt_Some _ _ _ Hx).
  rewrite (take_S_r _ _ x) by done. rewrite <- app_assoc. simpl.
  destruct (lookup_lt_is_Some_2 old i) as [y Hy]; [lia|].
  rewrite (drop_S old y i) by done.
  rewrite insert_app_r_alt; rewrite length_take_le by lia; [|lia].
  by rewrite Nat.sub_diag.
Qed.

Lemma read_head_spec s0 ac d s l :
  lg_dev (f_log s0) = ROOTDEV -> let start := lg_start (f_log s0) in
  cstate s0 ac d [] s -> 0 <= start < 2 ^ 32 -> ac !! start = None -> (size ac < HEAD)%nat ->
  announces (disk_get d start) l -> Z.of_nat (length l) <= LOGSIZE ->
  length (lh_block (lh s0)) = Z.to_nat LOGSIZE ->
  wp read_head (fun _ s' => cstate
    (with_lh (Z.of_nat (length l)) (copied (length l) l (lh_block (lh s0))) s0) ac d [] s') s.
Proof.
  intros Hdev start C Hs Hnone Hsz [Hn Hbl] Hlen Hold. unfold read_head.
  apply wp_bind, wp_gets. rewrite (keeps_log _ _ (cs_keeps _ _ _ _ _ C)), Hdev. fold start.
  rewrite u32_small by lia.
  apply wp_bind, (cs_bread s0 ac d [] s start); [done|by unfold can_read; rewrite Hnone|].
  intros b s1 C1. unfold acquire_blk, content, refs in C1. rewrite Hnone in C1.
  apply wp_bind. eapply (cs_getb s0); [exact C1|by apply list_elem_of_here|by ac_lookup|].
  intros x Hx _. rewrite Hx. cbn [ab_data]. rewrite Hn.
  apply wp_bind, (cs_set_lh_n _ _ _ _ _ _ _ C1). intros s2 C2. apply wp_bind.
  eapply wp_conseq; [apply (wp_forZ _ _ (fun i t => cstate
    (with_lh (Z.of_nat (length l)) (copied (Z.to_nat i) l (lh_block (lh s0))) s0)
    (<[start := mkA (disk_get d start) (0 + 1) (Some (fp_pid (f_proc s0)))]> ac)
    d [(b, start)] t)); [|lia|exact C2]|].
  - intros i s3 Hi C3. apply wp_bind.
    eapply (cs_getb _); [exact C3|by apply list_elem_of_here|by ac_lookup|].
    intros y Hy _. rewrite Hy. cbn [ab_data].
    destruct (lookup_lt_is_Some_2 l (Z.to_nat i)) as [w Hw]; [lia|].
    apply (cs_set_lh_block _ _ _ _ _ _ _ _ _ _ C3); [lia|]. intros s4 C4.
    replace (Z.to_nat (i + 1)) with (S (Z.to_nat i)) by lia.
    rewrite <- (copied_S _ _ _ w); [|done|rewrite Hold; lia].
    specialize (Hbl _ _ Hw). rewrite Z2Nat.id in Hbl by lia. by rewrite <- Hbl.
  - intros u s3 C3. rewrite Nat2Z.id in C3.
    eapply (cs_brelse _ _ _ _ []); [exact C3|by apply list_elem_of_here|by ac_lookup|done|done| |].
    { intros p Hp. by apply elem_of_nil in Hp. }
    intros s4 C4. unfold release_blk in C4. rewrite lookup_insert_eq in C4. cbn [ab_ref] in C4.
    rewrite Z.eqb_refl, delete_insert_id in C4 by done. exact C4.
Qed.

(** The disk writes of a recovery that finds transaction [l] in the log. *)
Definition recover_writes (start : Z) (l : list Z) (d : disk_t) : list (Z * block) :=
  zip l ((fun i => disk_get d (start + Z.of_nat i + 1)) <$> seq 0 (length l))
    ++ [(start, head_data (disk_get d start) [])].

(** What recovery needs of the disk and of the log's place on it. *)
Record logged (start size : Z) (d : disk_t) (l : list Z) : Prop := {
  ld_start : 0 <= start;
  ld_end : start + size < 2 ^ 31;
  ld_fit : Z.of_nat (length l) < size;
  ld_max : Z.of_nat (length l) <= LOGSIZE;
  ld_head : announces (disk_get d start) l;
  ld_home : forall b, b ∈ l -> 0 <= b < 2 ^ 31 /\ ~ (start <= b < start + size)
}.

Lemma recover_spec s order l :
  bio s ∅ order -> lg_dev (f_log s) = ROOTDEV ->
  length (lh_block (lh s)) = Z.to_nat LOGSIZE ->
  let start := lg_start (f_log s) in
  logged start (lg_size (f_log s)) (f_disk s) l ->
  wp recover_from_log (fun _ s' => (exists order', bio s' ∅ order') /\
    f_disk s' = puts_d (recover_writes start l (f_disk s)) (f_disk s)) s.
Proof.
  intros B Hdev Hold start [H0 H1 Hfit Hmax Hann Hhome].
  pose proof (cstate_init _ _ _ B) as C. set (d := f_disk s) in *.
  assert (Hroom : (size (∅ : acache) < HEAD)%nat) by (vm_compute; lia).
  unfold recover_from_log. apply wp_bind. eapply wp_conseq.
  { apply (read_head_spec s ∅ d s l Hdev C); try done; fold start; lia. }
  intros u1 s1 C1. apply wp_bind.
  set (vs := (fun i => disk_get d (start + Z.of_nat i + 1)) <$> seq 0 (length l)).
  assert (Hvs : length vs = length l) by (unfold vs; by rewrite length_fmap, length_seq).
  eapply wp_conseq.
  { apply (install_true_spec (with_lh _ _ s) Hdev d s1 l vs C1); [|done|].
    - split; try done. simpl. unfold copied. rewrite (firstn_all l). by eexists.
    - intros i v Hv. unfold vs in Hv. rewrite list_lookup_fmap in Hv.
      destruct (seq 0 (length l) !! i) eqn:Hi; simplify_eq/=.
      apply lookup_seq in Hi as [-> _]. done. }
  intros u2 s2 C2. apply wp_bind, (cs_set_lh_n _ _ _ _ _ 0 _ C2). intros s3 C3.
  eapply wp_conseq.
  { apply (write_head_spec (with_n 0 (with_lh _ _ s)) Hdev _ _ _ [] C3); [simpl; fold start; lia|done|done|done|apply prefix_nil]. }
  intros u3 s4 C4. simpl in C4. fold start in C4. split; [apply C4|].
  rewrite (cs_disk _ _ _ _ _ C4). unfold recover_writes. fold vs.
  rewrite puts_d_app, puts_d_cons. simpl. rewrite puts_d_notin; [done|].
  rewrite fst_zip by lia. intros Hin. destruct (Hhome _ Hin). lia.
Qed.

Lemma initlog_spec s order sb l :
  bio s ∅ order -> length (lh_block (lh s)) = Z.to_nat LOGSIZE ->
  0 <= sb_logstart sb < 2 ^ 31 -> 0 <= sb_nlog sb < 2 ^ 31 ->
  logged (sb_logstart sb) (sb_nlog sb) (f_disk s) l ->
  wp (initlog ROOTDEV sb) (fun _ s' => (exists order', bio s' ∅ order') /\
    f_disk s' = puts_d (recover_writes (sb_logstart sb) l (f_disk s)) (f_disk s)) s.
Proof.
  intros B Hold H1 H2 L. unfold initlog. change (BSIZE <=? LOGHEADER_SIZE) with false. cbv iota.
  apply wp_bind, wp_zoom, wp_zoom. cbn. do 3 (apply wp_bind, wp_modify). cbn.
  rewrite !i32_small by lia.
  match goal with |- wp _ _ ?t => set (s1 := t) end.
  apply (recover_spec s1 order l); try done. split; apply B.
Qed.

(** ** Crashes *)

(** The machine after a reboot with disk contents [d]: an empty cache over it. *)
Definition rebooted (d : disk_t) (s : fstate) : Prop :=
  (exists order, bio s ∅ order) /\ (forall b, disk_get (f_disk s) b = disk_get d b) /\
  length (lh_block (lh s)) = Z.to_nat LOGSIZE.

(** Block [b] once the transaction is on the disk. *)
Definition committed (l : list Z) (vs : list block) (d : disk_t) (b : Z) : block :=
  disk_get (puts_d (zip l vs) d) b.

Lemma announces_ext d d' start l :
  announces (disk_get d start) l -> disk_get d' start = disk_get d start ->
  announces (disk_get d' start) l.
Proof. by intros H ->. Qed.

Lemma nil_logged start size d :
  0 <= start -> 0 < size -> start + size < 2 ^ 31 -> announces (disk_get d start) [] ->
  logged start size d [].
Proof.
  intros. split; try done. intros b Hb. by apply elem_of_nil in Hb.
Qed.

(** Recovery of a disk whose log is empty. *)
Lemma recover_empty d s sb :
  rebooted d s -> 0 <= sb_logstart sb -> 0 < sb_nlog sb -> sb_logstart sb + sb_nlog sb < 2 ^ 31 ->
  announces (disk_get d (sb_logstart sb)) [] ->
  wp (initlog ROOTDEV sb) (fun _ s' => forall b, b <> sb_logstart sb ->
    disk_get (f_disk s') b = disk_get d b) s.
Proof.
  intros ([order B] & Hd & Hlen) H0 H1 H2 Hann. eapply wp_conseq.
  { apply (initlog_spec s order sb []); try done; try lia. apply nil_logged; try done.
    by rewrite Hd. }
  intros u s' [_ ->] b Hb. simpl. by rewrite disk_get_put, decide_False, Hd by congruence.
Qed.

(** Recovery of a disk whose log holds [l] with contents [vs]. *)
Lemma recover_full d s sb l vs :
  rebooted d s -> logged (sb_logstart sb) (sb_nlog sb) d l -> NoDup l -> length l = length vs ->
  (forall i v, vs !! i = Some v -> disk_get d (sb_logstart sb + Z.of_nat i + 1) = v) ->
  wp (initlog ROOTDEV sb) (fun _ s' => forall b, b <> sb_logstart sb ->
    disk_get (f_disk s') b = committed l vs d b) s.
Proof.
  intros ([order B] & Hd & Hlen) L Hnd Hlv Hvs. destruct L as [H0 H1 Hfit Hmax Hann Hhome].
  eapply wp_conseq.
  { apply (initlog_spec s order sb l); try done; [lia..|]. split; try done. by rewrite Hd. }
  intros u s' [_ ->] b Hb. unfold recover_writes, committed.
  assert ((fun i => disk_get (f_disk s) (sb_logstart sb + Z.of_nat i + 1)) <$> seq 0 (length l) = vs) as ->.
  { apply list_eq. intros i. rewrite list_lookup_fmap.
    destruct (vs !! i) as [v|] eqn:Hv.
    - pose proof (lookup_lt_Some _ _ _ Hv). rewrite lookup_seq_lt by lia. simpl.
      by rewrite Hd, (Hvs _ _ Hv).
    - apply lookup_ge_None in Hv. by rewrite lookup_seq_ge by lia. }
  rewrite puts_d_app, puts_d_cons. simpl. rewrite disk_get_put, decide_False by congruence.
  by apply puts_d_agree.
Qed.

(** A commit that can start: the transaction [l] with contents [vs] is pinned in
    the cache, the log area is free and its header is clear. *)
Record committable (s : fstate) (ac : acache) (l : list Z) (vs : list block) : Prop := {
  cm_dev : lg_dev (f_log s) = ROOTDEV;
  cm_txn : txn_ok s ac l;
  cm_max : Z.of_nat (length l) <= LOGSIZE;
  cm_ne : l <> [];
  cm_nodup : NoDup l;
  cm_pinned : Forall2 (pinned ac) l vs;
  cm_len : length (disk_get (f_disk s) (lg_start (f_log s))) = Z.to_nat BSIZE;
  cm_clear : announces (disk_get (f_disk s) (lg_start (f_log s))) []
}.

(** The disk after the first [k] writes of a commit, and what recovery makes of
    it. *)
Lemma crash_before s ac l vs sb k s1 :
  committable s ac l vs -> sb_logstart sb = lg_start (f_log s) -> sb_nlog sb = lg_size (f_log s) ->
  let st := lg_start (f_log s) in
  rebooted (puts_d (take k (log_writes st vs)) (f_disk s)) s1 ->
  wp (initlog ROOTDEV sb) (fun _ s' => forall b, ~ (st <= b < st + lg_size (f_log s)) ->
    disk_get (f_disk s') b = disk_get (f_disk s) b) s1.
Proof.
  intros [Hdev T Hmax Hne Hnd HF Hlen Hclr] Hst Hsz st R.
  pose proof (Forall2_length _ _ _ HF) as Hlv.
  pose proof (tx_start _ _ _ T). pose proof (tx_end _ _ _ T). pose proof (tx_fit _ _ _ T).
  assert (Hnot : forall b, ~ (st < b < st + lg_size (f_log s)) -> b ∉ (take k (log_writes st vs)).*1).
  { intros b Hb Hin. rewrite fmap_take in Hin.
    apply elem_of_take in Hin as (i & Hi%list_elem_of_lookup_2%log_writes_area & _). lia. }
  eapply wp_conseq.
  { eapply (recover_empty _ _ sb R); rewrite ?Hst, ?Hsz; try lia.
    eapply announces_ext; [exact Hclr|]. apply puts_d_notin, Hnot. fold st. lia. }
  intros u s' H' b Hb. rewrite H' by (rewrite Hst; fold st; lia).
  apply puts_d_notin, Hnot. lia.
Qed.

Lemma crash_after s ac l vs sb j s1 :
  committable s ac l vs -> sb_logstart sb = lg_start (f_log s) -> sb_nlog sb = lg_size (f_log s) ->
  let st := lg_start (f_log s) in
  let v := head_data (disk_get (f_disk s) st) l in
  rebooted (puts_d (take j (zip l vs)) (disk_put st v (puts_d (log_writes st vs) (f_disk s)))) s1 ->
  wp (initlog ROOTDEV sb) (fun _ s' => forall b, ~ (st <= b < st + lg_size (f_log s)) ->
    disk_get (f_disk s') b = committed l vs (f_disk s) b) s1.
Proof.
  intros [Hdev T Hmax Hne Hnd HF Hlen Hclr] Hst Hsz st v R.
  pose proof (Forall2_length _ _ _ HF) as Hlv.
  pose proof (tx_start _ _ _ T). pose proof (tx_end _ _ _ T). pose proof (tx_fit _ _ _ T).
  assert (Hnd' : NoDup (zip l vs).*1) by (by rewrite fst_zip by lia).
  assert (Hnot : forall b, st <= b < st + lg_size (f_log s) -> b ∉ (take j (zip l vs)).*1).
  { intros b Hb Hin. rewrite fmap_take, fst_zip in Hin by lia.
    apply elem_of_take in Hin as (i & Hi%list_elem_of_lookup_2 & _).
    destruct (tx_home _ _ _ T _ Hi). lia. }
  eapply wp_conseq.
  { eapply (recover_full _ _ sb l vs R); try done; rewrite ?Hst, ?Hsz.
    - split; try done; try lia; [|apply T]. fold st. rewrite puts_d_notin by (apply Hnot; lia).
      rewrite disk_get_put, decide_True by done. apply head_data_announces; try done.
      intros b Hb. by apply T.
    - intros i w Hw. fold st. pose proof (lookup_lt_Some _ _ _ Hw).
      rewrite puts_d_notin by (apply Hnot; lia). rewrite disk_get_put, decide_False by lia.
      by apply log_writes_get. }
  intros u s' H' b Hb. rewrite H' by (rewrite Hst; fold st; lia).
  unfold committed. rewrite puts_d_redo by done. apply puts_d_agree.
  rewrite disk_get_put, decide_False by lia. apply puts_d_notin.
  intros Hin%log_writes_area. lia.
Qed.

Lemma crash_done s ac l vs sb s1 :
  committable s ac l vs -> sb_logstart sb = lg_start (f_log s) -> sb_nlog sb = lg_size (f_log s) ->
  let st := lg_start (f_log s) in
  rebooted (puts_d (commit_writes st (disk_get (f_disk s) st) l vs) (f_disk s)) s1 ->
  wp (initlog ROOTDEV sb) (fun _ s' => forall b, ~ (st <= b < st + lg_size (f_log s)) ->
    disk_get (f_disk s') b = committed l vs (f_disk s) b) s1.
Proof.
  intros [Hdev T Hmax Hne Hnd HF Hlen Hclr] Hst Hsz st R.
  pose proof (Forall2_length _ _ _ HF) as Hlv.
  pose proof (tx_start _ _ _ T). pose proof (tx_end _ _ _ T). pose proof (tx_fit _ _ _ T).
  unfold commit_writes in R. rewrite puts_d_app, puts_d_cons, puts_d_app, puts_d_cons in R. simpl in R.
  eapply wp_conseq.
  { eapply (recover_empty _ _ sb R); rewrite ?Hst, ?Hsz; try lia. fold st.
    rewrite disk_get_put, decide_True by done. apply head_data_announces; try done.
    - by rewrite length_head_data.
    - intros b Hb. by apply elem_of_nil in Hb. }
  intros u s' H' b Hb. rewrite H' by (rewrite Hst; fold st; lia).
  rewrite disk_get_put, decide_False by lia. unfold committed. apply puts_d_agree.
  rewrite disk_get_put, decide_False by lia. apply puts_d_notin. intros Hin%log_writes_area. lia.
Qed.

(** C1: a commit is atomic with respect to crashes.  [commit] returns, having
    issued a fixed sequence of block writes; if the machine stops after the
    first [k] of them and reboots, [initlog]'s recovery leaves every block
    outside the log area as it was before the commit when the header block had
    not been written, and with the transaction's contents when it had. *)
Theorem commit_crash_safe s ac order l vs sb :
  bio s ac order -> committable s ac l vs ->
  sb_logstart sb = lg_start (f_log s) -> sb_nlog sb = lg_size (f_log s) ->
  exists ws, wp commit (fun _ s' => f_disk s' = puts_d ws (f_disk s)) s /\
  forall k s1, rebooted (puts_d (take k ws) (f_disk s)) s1 ->
  wp (initlog ROOTDEV sb) (fun _ s' => forall b,
    ~ (lg_start (f_log s) <= b < lg_start (f_log s) + lg_size (f_log s)) ->
    disk_get (f_disk s') b =
      if (k <=? length l)%nat then disk_get (f_disk s) b else committed l vs (f_disk s) b) s1.
Proof.
  intros B Cm Hst Hsz. pose proof Cm as [Hdev T Hmax Hne Hnd HF Hlen Hclr].
  pose proof (Forall2_length _ _ _ HF) as Hlv. set (st := lg_start (f_log s)).
  exists (commit_writes st (disk_get (f_disk s) st) l vs). split.
  { eapply wp_conseq; [by eapply commit_spec|]. intros u s' C. apply C. }
  assert (Hln : length (log_writes st vs) = length l)
    by (unfold log_writes; rewrite length_imap; lia).
  intros k s1 R. unfold commit_writes in R. destruct (Nat.leb_spec k (length l)) as [Hk|Hk].
  { rewrite take_app_le in R by lia. by apply (crash_before s ac l vs sb k). }
  rewrite take_app_ge, Hln in R by lia.
  destruct (k - length l)%nat as [|j] eqn:Hj; [lia|]. cbn [take] in R.
  destruct (decide (j <= length l)%nat) as [Hjl|Hjl].
  - rewrite take_app_le in R by (rewrite length_zip; lia).
    rewrite puts_d_app, puts_d_cons in R. by apply (crash_after s ac l vs sb j).
  - rewrite (take_ge (zip l vs ++ _)) in R by (rewrite length_app, length_zip; simpl; lia).
    by apply (crash_done s ac l vs sb).
Qed.

(** C5: recovery is idempotent under crashes.  If the machine stops after any
    number of recovery's block writes and recovers again, every block outside
    the log area ends up as the uninterrupted recovery leaves it. *)
Theorem recovery_crash_safe d s sb l :
  rebooted d s -> f_disk s = d -> logged (sb_logstart sb) (sb_nlog sb) d l -> NoDup l ->
  length (disk_get d (sb_logstart sb)) = Z.to_nat BSIZE ->
  exists ws, wp (initlog ROOTDEV sb) (fun _ s' => f_disk s' = puts_d ws d) s /\
  forall k s1, rebooted (puts_d (take k ws) d) s1 ->
  wp (initlog ROOTDEV sb) (fun _ s' => forall b,
    ~ (sb_logstart sb <= b < sb_logstart sb + sb_nlog sb) ->
    disk_get (f_disk s') b = disk_get (puts_d ws d) b) s1.
Proof.
  intros ([order B] & _ & Hlen) <- L Hnd Hv. pose proof L as [H0 H1 Hfit Hmax Hann Hhome].
  set (d := f_disk s) in *. set (st := sb_logstart sb) in *.
  exists (recover_writes st l d). split.
  { eapply wp_conseq; [apply (initlog_spec s order sb l); try done; fold st; lia|].
    intros u s' [_ Hd]. exact Hd. }
  intros k s1 R. unfold recover_writes in *.
  set (vs := (fun i => disk_get d (st + Z.of_nat i + 1)) <$> seq 0 (length l)) in *.
  assert (Hlv : length l = length vs) by (unfold vs; by rewrite length_fmap, length_seq).
  assert (Hnd' : NoDup (zip l vs).*1) by (by rewrite fst_zip by lia).
  assert (Hnot : forall i b, st <= b < st + sb_nlog sb -> b ∉ (take i (zip l vs)).*1).
  { intros i b Hb Hin. rewrite fmap_take, fst_zip in Hin by lia.
    apply elem_of_take in Hin as (j & Hi%list_elem_of_lookup_2 & _).
    destruct (Hhome _ Hi). lia. }
  rewrite puts_d_app, puts_d_cons. simpl. destruct (decide (k <= length l)%nat) as [Hk|Hk].
  - rewrite take_app_le in R by (rewrite length_zip; lia). eapply wp_conseq.
    { eapply (recover_full _ _ sb l vs R); try done; fold st.
      - split; try done. by rewrite puts_d_notin by (apply Hnot; lia).
      - intros i w Hw. pose proof (lookup_lt_Some _ _ _ Hw).
        rewrite puts_d_notin by (apply Hnot; lia). unfold vs in Hw. rewrite list_lookup_fmap in Hw.
        destruct (seq 0 (length l) !! i) eqn:Hi; simplify_eq/=. by apply lookup_seq in Hi as [-> _]. }
    intros u s' H' b Hb. rewrite H' by (fold st; lia). unfold committed.
    rewrite puts_d_redo by done. by rewrite disk_get_put, decide_False by lia.
  - rewrite take_ge, puts_d_app, puts_d_cons in R by (rewrite length_app, length_zip; simpl; lia).
    simpl in R. eapply wp_conseq.
    { eapply (recover_empty _ _ sb R); fold st; try lia.
      rewrite disk_get_put, decide_True by done. apply head_data_announces; try done.
      intros b Hb. by apply elem_of_nil in Hb. }
    intros u s' H' b Hb. by rewrite H' by (fold st; lia).
Qed.

End commit.
