(* ===== verification/LogOps.v ===== *)
(** * Transactions: [begin_op], [log_write], [end_op]

    The interface of [log.c] to the file system.  [txn s ac l] says that [l]
    is the list of blocks the open transaction has modified. *)
From stdpp Require Import base gmap strings numbers option list.
From S2P Require Import Prelude Layout Machine Memory Kernel Demo FsState Block Sleeplock.
From S2P Require Import Bio BioLogic Log LogCrash.
Open Scope Z_scope.

(** The blocks logged so far, each pinned in the cache and unlocked or locked
    by whoever is still changing it. *)
Record txn (s : fstate) (ac : acache) (l : list Z) : Prop := {
  txn_lock : lock_free (lg_lock (f_log s));
  txn_n : lh_n (lh s) = Z.of_nat (length l);
  txn_len : length (lh_block (lh s)) = Z.to_nat LOGSIZE;
  txn_pre : l `prefix_of` lh_block (lh s);
  txn_nodup : NoDup l;
  txn_range : forall b, b ∈ l -> 0 <= b < 2 ^ 31;
  txn_refs : forall b, b ∈ l -> 1 <= refs ac b
}.

Section logops.
Context `{im : Image} `{W : World} `{WO : !WorldOk W}.

Lemma hart_quiet_acquired h : hart_quiet h -> hart_quiet (acquired h).
Proof. intros [Hok _]. split; [by apply hart_ok_acquired|by apply settle_acquired]. Qed.

Lemma cstate_logL p s0 ac d hs s :
  hart_quiet p.1 -> cstate s0 ac d hs s -> cstate (lset logL p s0) ac d hs (lset logL p s).
Proof.
  intros Hq [[order B] (w & d' & bs & HK) HD HH]. split.
  - exists order. destruct B. by split.
  - exists w, d', bs. by rewrite HK.
  - done.
  - done.
Qed.

Lemma logL_restore n l s p :
  lset logL (f_hart s, lg_lock (f_log s)) (with_lh n l (lset logL p s)) = with_lh n l s.
Proof. by destruct s. Qed.

Lemma log_index_spec bno l g :
  lh_n g = Z.of_nat (length l) -> l `prefix_of` lh_block g ->
  (forall b, b ∈ l -> 0 <= b < 2 ^ 31) ->
  ((bno ∈ l) /\ exists i, log_index bno g = Z.of_nat i /\ l !! i = Some bno) \/
  ((bno ∉ l) /\ log_index bno g = Z.of_nat (length l)).
Proof.
  intros Hn [k Hk] Hr. unfold log_index. rewrite Hn, Nat2Z.id, Hk, take_app_length.
  destruct (list_find _ l) as [[i v]|] eqn:Hf.
  - apply list_find_Some in Hf as (Hi & Hv & _). pose proof (list_elem_of_lookup_2 _ _ _ Hi) as Hin.
    pose proof (Hr _ Hin). rewrite u32_small in Hv by lia. subst v. left. split; [done|].
    by exists i.
  - apply list_find_None in Hf. right. split; [|lia]. intros Hin.
    rewrite Forall_forall in Hf. pose proof (Hr _ Hin). apply (Hf _ Hin). apply u32_small. lia.
Qed.

(** The block list after [log_write] of [bno]. *)
Definition logged_add (bno : Z) (l : list Z) : list Z := if decide (bno ∈ l) then l else l ++ [bno].
Definition log_pin (bno : Z) (l : list Z) (ac : acache) : acache :=
  if decide (bno ∈ l) then ac
  else match ac !! bno with
       | Some a => <[bno := mkA (ab_data a) (ab_ref a + 1) (ab_held a)]> ac
       | None => ac
       end.

Lemma prefix_insert_snoc (l m : list Z) x :
  l `prefix_of` m -> (length l < length m)%nat -> l ++ [x] `prefix_of` <[length l := x]> m.
Proof.
  intros [k ->] Hlt. rewrite length_app in Hlt. destruct k as [|y k]; [simpl in Hlt; lia|].
  exists k. rewrite insert_app_r_alt by lia. rewrite Nat.sub_diag. simpl.
  by rewrite <- app_assoc.
Qed.

(** The state with the lock taken implements the same cache. *)
Lemma cstate_locked s ac order hs :
  bio s ac order -> (forall p, p ∈ hs -> handle s p.1 p.2) ->
  let s1 := lset logL (acquired (f_hart s), held (f_hart s) (lg_lock (f_log s))) s in
  cstate s1 ac (f_disk s) hs s1.
Proof.
  intros B Hh s1. apply cstate_logL.
  - apply hart_quiet_acquired, B.
  - split; [by exists order|reflexivity|done|]. by apply Forall_forall.
Qed.

Lemma with_lh_id s : with_lh (lh_n (lh s)) (lh_block (lh s)) s = s.
Proof. destruct s as [? ? ? ? [? ? ? ? ? ? []]]. done. Qed.

(** Giving the log's lock back. *)
Lemma cs_log_release s ac d hs n blk s2 Q :
  let s1 := lset logL (acquired (f_hart s), held (f_hart s) (lg_lock (f_log s))) s in
  hart_quiet (f_hart s) -> lock_free (lg_lock (f_log s)) ->
  cstate (with_lh n blk s1) ac d hs s2 ->
  (forall s', cstate (with_lh n blk s) ac d hs s' -> Q tt s') -> wp (zoom logL release) Q s2.
Proof.
  intros s1 Hq Hlk C HQ. pose proof (cs_keeps _ _ _ _ _ C) as HK.
  apply (wp_unlock _ (f_hart s) (lg_lock (f_log s))); [|done|done|].
  - cbn [lget logL]. by rewrite (keeps_hart _ _ HK), (keeps_log _ _ HK).
  - apply HQ. rewrite <- (logL_restore n blk s (acquired (f_hart s), held (f_hart s) (lg_lock (f_log s)))).
    by apply cstate_logL.
Qed.

Lemma log_write_spec s ac order hs b bno a l :
  bio s ac order -> txn s ac l -> (forall p, p ∈ hs -> handle s p.1 p.2) -> (b, bno) ∈ hs -> ac !! bno = Some a -> 0 <= bno < 2 ^ 31 ->
  1 <= lg_outstanding (f_log s) -> Z.of_nat (length l) < LOGSIZE ->
  Z.of_nat (length l) < lg_size (f_log s) - 1 ->
  wp (log_write b) (fun _ s' => exists blk,
    cstate (with_lh (Z.of_nat (length (logged_add bno l))) blk s) (log_pin bno l ac)
      (f_disk s) hs s' /\
    logged_add bno l `prefix_of` blk /\ length blk = Z.to_nat LOGSIZE) s.
Proof.
  intros B T H Hin0 Ha Hbno Hout Hmax Hsize. destruct T as [Hlk Hn Hlen Hpre Hnd Hr Hrefs].
  assert (C1 := cstate_locked s ac order hs B).
  unfold log_write. apply wp_bind, (wp_lock _ (f_hart s) (lg_lock (f_log s))); [done|apply B|done|].
  set (p := (acquired (f_hart s), held (f_hart s) (lg_lock (f_log s)))) in *. cbv zeta in C1.
  set (s1 := lset logL p s) in *. specialize (C1 H).
  apply wp_bind, wp_gets. assert (Hn1 : lh_n (lg_lh (f_log s1)) = Z.of_nat (length l)) by exact Hn.
  rewrite Hn1. destruct (Z.leb_spec LOGSIZE (Z.of_nat (length l))); [lia|].
  destruct (Z.leb_spec (lg_size (f_log s1) - 1) (Z.of_nat (length l))); [simpl in *; lia|]. simpl orb.
  destruct (Z.ltb_spec (lg_outstanding (f_log s1)) 1); [simpl in *; lia|].
  apply wp_bind. eapply (cs_getb s1); [exact C1|exact Hin0|exact Ha|].
  intros x _ Hx. rewrite Hx, i32_small by lia.
  rewrite <- (with_lh_id s1) in C1 at 1. assert (Hlb : lh_block (lh s1) = lh_block (lh s)) by done.
  change (lh_n (lh s1)) with (lh_n (lh s)) in C1. rewrite Hlb in C1.
  unfold logged_add, log_pin. change LOGSIZE with 30 in *.
  destruct (log_index_spec bno l (lg_lh (f_log s1)) Hn Hpre Hr) as [[Hin (i & -> & Hi)]|[Hin ->]];
    [rewrite !decide_True by done|rewrite !decide_False by done].
  - pose proof (lookup_lt_Some _ _ _ Hi).
    apply wp_bind. eapply cs_set_lh_block; [exact C1|change LOGSIZE with 30; lia|]. intros s2 C2.
    destruct (Z.eqb_spec (Z.of_nat i) (Z.of_nat (length l))); [lia|]. apply wp_bind, wp_skip.
    rewrite Nat2Z.id, list_insert_id in C2 by (by eapply prefix_lookup_Some).
    rewrite Hn in C2. eapply cs_log_release; [apply B|done|exact C2|]. intros s' C'.
    by exists (lh_block (lh s)).
  - apply wp_bind. eapply cs_set_lh_block; [exact C1|change LOGSIZE with 30; lia|]. intros s2 C2.
    rewrite Z.eqb_refl, Nat2Z.id in *. apply wp_bind, wp_bind.
    eapply cs_bpin; [exact C2|exact Hin0|exact Ha|]. intros s3 C3.
    eapply cs_set_lh_n; [exact C3|]. intros s4 C4. rewrite Ha.
    eapply cs_log_release; [apply B|done|exact C4|]. intros s' C'.
    eexists. split; [|split; [apply prefix_insert_snoc; [done|rewrite Hlen; lia]
      |by rewrite length_insert]].
    rewrite length_app. simpl. by replace (Z.of_nat (length l + 1)) with (Z.of_nat (length l) + 1) by lia.
Qed.

(** ** Admission *)

Lemma zoom_inv {S T A} (l : lens S T) (m : M T A) s a s' :
  zoom l m s = Ret a s' -> exists t, s' = lset l t s.
Proof. unfold zoom. destruct (m (lget l s)) as [x t|]; [|done]. intros [= -> <-]. by exists t. Qed.

(** A sleeping loop is left in a state where its condition is false. *)
Lemma sleep_while_inv cond c l s s' : sleep_while cond c l s = Ret tt s' -> cond s' = false.
Proof.
  unfold sleep_while. generalize (S patience). intros fuel. revert s.
  induction fuel as [|fuel IH]; intros s H; cbn [loop] in H; [done|].
  apply bind_inv in H as (r & s1 & Hr & H). apply bind_inv in Hr as (c' & s2 & Hc & Hr).
  injection Hc as <- <-. destruct (cond s) eqn:Hcond.
  - apply bind_inv in Hr as (u & s3 & _ & Hr). injection Hr as <- <-. by apply (IH _ H).
  - injection Hr as <- <-. by injection H as <-.
Qed.

Definition admissible (g : log_t) : Prop :=
  lg_committing g = 0 /\ lh_n (lg_lh g) + (lg_outstanding g + 1) * MAXOPBLOCKS <= LOGSIZE.

(** [begin_op] reserves log space.  Whatever the other threads do while it
    sleeps, when it returns no commit is running and the log can hold what is
    in it plus [MAXOPBLOCKS] blocks for each outstanding operation, its own
    included; and when that already holds on entry it returns without sleeping,
    having changed only the count. *)
Theorem begin_op_reserves s :
  (forall s', begin_op s = Ret tt s' ->
     lg_committing (f_log s') = 0 /\
     lh_n (lh s') + lg_outstanding (f_log s') * MAXOPBLOCKS <= LOGSIZE) /\
  (hart_quiet (f_hart s) -> lock_free (lg_lock (f_log s)) -> admissible (f_log s) ->
     begin_op s = Ret tt (setf_log (setl_outstanding (lg_outstanding (f_log s) + 1) (f_log s)) s)).
Proof.
  split.
  - intros s' H. unfold begin_op in H. apply bind_inv in H as (u & s1 & _ & H).
    apply bind_inv in H as ([] & s2 & Hs & H). apply sleep_while_inv in Hs. cbv zeta in Hs. bool_prop.
    apply bind_inv in H as (g & s3 & Hg & H). injection Hg as <- <-.
    apply bind_inv in H as (v & s4 & Hs4 & H). injection Hs4 as <- <-.
    apply zoom_inv in H as (t & ->). unfold lh. simpl. split; [done|lia].
  - intros Hq Hlk [Hc Ha]. apply wp_ret_eq. unfold begin_op.
    apply wp_bind, (wp_lock _ (f_hart s) (lg_lock (f_log s))); [done..|].
    apply wp_bind, wp_no_sleep.
    { simpl. rewrite Hc. simpl. apply Z.ltb_ge. lia. }
    apply wp_bind, wp_gets. apply wp_bind, wp_modify.
    apply (wp_unlock _ (f_hart s) (lg_lock (f_log s))); [done..|]. split; [done|]. by destruct s.
Qed.

(** [log_write] absorbs repeated writes.  Inside an operation, with room in
    the log, writing block [bno] leaves the transaction's block list as it is
    when [bno] is already in it, and otherwise appends [bno] and pins its
    buffer, so that it cannot be evicted before the commit. *)
Theorem log_write_absorbs s ac order b bno a l :
  bio s ac order -> txn s ac l -> handle s b bno -> ac !! bno = Some a -> 0 <= bno < 2 ^ 31 ->
  1 <= lg_outstanding (f_log s) -> Z.of_nat (length l) < LOGSIZE ->
  Z.of_nat (length l) < lg_size (f_log s) - 1 ->
  wp (log_write b) (fun _ s' => exists blk,
    cstate (with_lh (Z.of_nat (length (logged_add bno l))) blk s) (log_pin bno l ac)
      (f_disk s) [(b, bno)] s' /\
    logged_add bno l `prefix_of` blk /\ length blk = Z.to_nat LOGSIZE) s.
Proof.
  intros B T H. apply log_write_spec with (order := order); [done|done| |apply list_elem_of_here].
  by intros p ->%list_elem_of_singleton.
Qed.

(** The space [begin_op] reserves is more than [log_write] accepts: with a log
    of [LOGSIZE] blocks, the [LOGSIZE]th block of three operations panics. *)
Lemma log_write_overcommit s b :
  hart_quiet (f_hart s) -> lock_free (lg_lock (f_log s)) -> lg_size (f_log s) = LOGSIZE ->
  lh_n (lh s) = LOGSIZE - 1 -> lg_outstanding (f_log s) = 3 ->
  lh_n (lh s) < lg_outstanding (f_log s) * MAXOPBLOCKS /\
  lg_outstanding (f_log s) * MAXOPBLOCKS <= LOGSIZE /\
  exists s', log_write b s = Err (EPanic "too big a transaction") s'.
Proof.
  intros [Hok Hs] [Hlk _] Hsz Hn Hout. rewrite Hn, Hout.
  split; [reflexivity|]. split; [vm_compute; discriminate|].
  assert (Hacq : zoom logL acquire s = Ret tt (lset logL (acquired (f_hart s), held (f_hart s) (lg_lock (f_log s))) s)).
  { unfold zoom. simpl. by rewrite acquire_eq. }
  unfold log_write. rewrite (bind_ret _ _ _ _ _ Hacq). unfold mbind at 1, M_bind at 1, gets at 1.
  unfold lh in Hn. simpl. rewrite Hn, Hsz. by eexists.
Qed.

(** ** The last operation commits *)

Definition end_log (g : log_t) : log_t :=
  setl_committing 0 (setl_outstanding 0 (setl_lh (mkLH 0 (lh_block (lg_lh g))) g)).

Lemma bio_setlog g s ac order : bio s ac order -> bio (setf_log g s) ac order.
Proof. intros B. split; apply B. Qed.

Lemma end_op_spec s ac order l vs :
  bio s ac order -> committable s ac l vs -> lock_free (lg_lock (f_log s)) ->
  lg_outstanding (f_log s) = 1 -> lg_committing (f_log s) = 0 ->
  let st := lg_start (f_log s) in
  wp end_op (fun _ s' =>
    (exists order', bio s' (unpin_all l ac) order') /\
    f_disk s' = puts_d (commit_writes st (disk_get (f_disk s) st) l vs) (f_disk s) /\
    f_log s' = end_log (f_log s) /\ head (f_woken s') = Some WLog) s.
Proof.
  intros B Cm Hlk Hout Hc st. pose proof (bio_hart _ _ _ B) as Hq. unfold end_op.
  apply wp_bind, (wp_lock _ (f_hart s) (lg_lock (f_log s))); [done..|].
  apply wp_bind, wp_gets. apply wp_bind, wp_modify. apply wp_bind, wp_gets. simpl.
  rewrite Hc, Hout. simpl. apply wp_bind, wp_modify.
  apply wp_bind, (wp_unlock _ (f_hart s) (lg_lock (f_log s))); [done..|].
  match goal with |- wp _ _ ?t => set (s1 := t) end.
  assert (Hs1 : s1 = setf_log (setl_committing 1 (setl_outstanding 0 (f_log s))) s) by (by destruct s).
  clearbody s1. subst s1.
  apply wp_bind. eapply wp_conseq.
  { apply (commit_spec _ ac order l vs); try apply Cm. by apply bio_setlog.
    destruct (cm_txn _ _ _ _ Cm). by split. }
  intros u s2 C. simpl in C. fold st in C. pose proof (cs_keeps _ _ _ _ _ C) as HK.
  pose proof (keeps_hart _ _ HK) as Hh2. pose proof (keeps_log _ _ HK) as Hl2.
  simpl in Hh2, Hl2.
  apply wp_bind, (wp_lock _ (f_hart s) (lg_lock (f_log s))); [simpl; by rewrite Hh2, Hl2|done|done|].
  apply wp_bind, wp_modify. apply wp_bind, wp_modify.
  apply (wp_unlock _ (f_hart s) (lg_lock (f_log s))); [done..|].
  destruct C as [[order' B'] _ HD _]. split; [|split; [done|split; [|done]]].
  - exists order'. split; [apply B'|simpl; done|apply B'].
  - simpl. rewrite Hl2. by destruct (f_log s).
Qed.

(** The last outstanding operation commits.  [end_op] then writes the whole
    transaction to its home blocks, unpins its buffers, clears the log, and
    leaves the log open for new operations with the sleepers woken. *)
Theorem end_op_commits s ac order l vs :
  bio s ac order -> committable s ac l vs -> lock_free (lg_lock (f_log s)) ->
  lg_outstanding (f_log s) = 1 -> lg_committing (f_log s) = 0 ->
  wp end_op (fun _ s' =>
    (exists order', bio s' (unpin_all l ac) order') /\
    (forall i b v, l !! i = Some b -> vs !! i = Some v -> disk_get (f_disk s') b = v) /\
    announces (disk_get (f_disk s') (lg_start (f_log s))) [] /\
    f_log s' = end_log (f_log s) /\ head (f_woken s') = Some WLog) s.
Proof.
  intros B Cm Hlk Hout Hc. eapply wp_conseq; [by apply (end_op_spec s ac order l vs)|].
  destruct Cm as [Hdev T Hmax Hne Hnd HF Hlen Hclr].
  pose proof (Forall2_length _ _ _ HF) as Hlv.
  intros u s' (HB & Hd & Hl & Hw). split; [done|]. rewrite Hd. unfold commit_writes.
  rewrite puts_d_app, puts_d_cons, puts_d_app, puts_d_cons. simpl. split; [|split; [|done]].
  - intros i b v Hb Hv. destruct (tx_home _ _ _ T b (list_elem_of_lookup_2 _ _ _ Hb)) as [_ Ho].
    pose proof (tx_fit _ _ _ T). rewrite disk_get_put, decide_False by lia.
    apply puts_d_in; [by rewrite fst_zip by lia|].
    apply (list_elem_of_lookup_2 _ i). by apply lookup_zip_Some.
  - rewrite disk_get_put, decide_True by done. apply head_data_announces; try done.
    + by rewrite length_head_data.
    + intros b Hb. by apply elem_of_nil in Hb.
Qed.

End logops.

(** ** A concrete transaction: block 50, changed to all ones *)

Definition demo_disk : disk_t := mkDisk ∅ [].
Definition demo_val : block := replicate 1024 1.

Definition demo_pin (o : sleeplock -> sleeplock) (x : buf) : buf :=
  setb_lock (o (b_lock x)) (setb_data demo_val (setb_valid 1 (setb_refcnt 1
    (setb_blockno 50 (setb_dev ROOTDEV x))))).

(** The cache with block 50 in its first buffer. *)
Definition demo_pinned (o : sleeplock -> sleeplock) : fstate :=
  set_bufs (alter (demo_pin o) 0%nat (init_bufs (im := demo_image) block0)) (demo_fs demo_disk).

Definition demo_txn_log (n : Z) (l : list Z) (g : log_t) : log_t :=
  setl_outstanding 1 (setl_lh (mkLH n (l ++ replicate (30 - length l) 0)) g).

Definition demo_commit_fs : fstate :=
  setf_log (demo_txn_log 1 [50] demo_log) (demo_pinned (fun x => x)).

Definition demo_ac (o : option Z) : acache := <[50 := mkA demo_val 1 o]> ∅.

Lemma demo_pinned_bio o lo :
  (forall x, sleep_free x -> lock_is lo (o x)) ->
  bio (demo_pinned o) (demo_ac lo) (rev (seq 0 HEAD)).
Proof.
  intros Ho. pose proof (init_bufs_idle (im := demo_image) block0) as Hid.
  split; [|apply demo_quiet|done]. unfold demo_pinned, demo_ac. rewrite bufs_set.
  apply (cached_insert (init_bufs (im := demo_image) block0) _ ∅ _ (init_cached _ _) 0
    (init_buf (im := demo_image) block0 0) (demo_pin o)); try done.
  - vm_compute. lia.
  - by apply Ho.
  - by left.
  - intros j y Hj _ Hy. by rewrite (Hid j y Hj Hy).
Qed.

Lemma demo_commit_bio : bio demo_commit_fs (demo_ac None) (rev (seq 0 HEAD)).
Proof. apply bio_setlog, demo_pinned_bio. done. Qed.

Lemma demo_ac_lookup o k : k <> 50 -> demo_ac o !! k = None.
Proof. intros. unfold demo_ac. by rewrite lookup_insert_ne. Qed.

Lemma demo_committable : committable demo_commit_fs (demo_ac None) [50] [demo_val].
Proof.
  split; try done.
  - split; try done.
    + by eexists.
    + intros b ->%list_elem_of_singleton. cbn. lia.
    + intros k Hk. apply demo_ac_lookup. cbn in Hk. lia.
    + vm_compute. lia.
  - apply NoDup_singleton.
  - constructor; [|constructor]. by exists 1.
Qed.

Lemma commit_crash_safe_witness :
  exists ws, wp (commit (im := demo_image) (W := demo_world))
    (fun _ s' => f_disk s' = puts_d ws demo_disk) demo_commit_fs /\
  forall k s1, rebooted (puts_d (take k ws) demo_disk) s1 ->
  wp (initlog (im := demo_image) (W := demo_world) ROOTDEV demo_sb) (fun _ s' =>
    disk_get (f_disk s') 50 = if (k <=? 1)%nat then block0 else demo_val) s1.
Proof.
  destruct (commit_crash_safe (WO := demo_world_ok) (im := demo_image) _ _ _ [50] [demo_val] demo_sb
    demo_commit_bio demo_committable eq_refl eq_refl) as (ws & Hc & Hr).
  exists ws. split; [exact Hc|]. intros k s1 R. eapply wp_conseq; [by apply (Hr k s1 R)|].
  intros u s' H. rewrite (H 50) by (cbn; lia). by destruct (k <=? _)%nat.
Defined.

Lemma end_op_commits_witness :
  wp (end_op (im := demo_image) (W := demo_world)) (fun _ s' =>
    disk_get (f_disk s') 50 = demo_val /\ lh_n (lh s') = 0) demo_commit_fs.
Proof.
  eapply wp_conseq.
  { apply (end_op_commits (WO := demo_world_ok) _ _ _ [50] [demo_val] demo_commit_bio demo_committable);
      done. }
  intros u s' (_ & Hd & _ & Hl & _). split; [by apply (Hd 0%nat)|]. unfold lh. by rewrite Hl.
Defined.

(** Block 50 locked by the process, before its first [log_write]. *)
Definition demo_write_fs : fstate :=
  setf_log (demo_txn_log 0 [] demo_log) (demo_pinned (take_sleep 1)).

Lemma log_write_absorbs_witness :
  wp (log_write (im := demo_image) 0) (fun _ s' => exists blk,
    cstate (with_lh 1 blk demo_write_fs) (log_pin 50 [] (demo_ac (Some 1))) demo_disk [(0%nat, 50)] s' /\
    [50] `prefix_of` blk) demo_write_fs.
Proof.
  eapply wp_conseq.
  - apply (log_write_absorbs (im := demo_image) demo_write_fs (demo_ac (Some 1))
      (rev (seq 0 HEAD)) 0 50 (mkA demo_val 1 (Some 1)) []).
    + apply bio_setlog, demo_pinned_bio. intros x Hx. by apply sleep_held_take.
    + split; try done; try (intros b Hb; by apply elem_of_nil in Hb).
      * apply prefix_nil.
      * apply NoDup_nil_2.
    + eexists. repeat split; try done; vm_compute; lia.
    + done.
    + lia.
    + cbn. lia.
    + done.
    + done.
  - intros u s' (blk & C & Hp & _). by exists blk.
Defined.

(** The disk with the transaction in the log, not yet installed. *)
Definition demo_crashed : disk_t :=
  puts_d (log_writes 2 [demo_val] ++ [(2, head_data block0 [50])]) demo_disk.

Lemma recovery_crash_safe_witness :
  exists ws, wp (initlog (im := demo_image) (W := demo_world) ROOTDEV demo_sb)
    (fun _ s' => f_disk s' = puts_d ws demo_crashed) (demo_fs demo_crashed) /\
  forall k s1, rebooted (puts_d (take k ws) demo_crashed) s1 ->
  wp (initlog (im := demo_image) (W := demo_world) ROOTDEV demo_sb) (fun _ s' =>
    disk_get (f_disk s') 50 = disk_get (puts_d ws demo_crashed) 50) s1.
Proof.
  destruct (recovery_crash_safe (WO := demo_world_ok) (im := demo_image) demo_crashed
    (demo_fs demo_crashed) demo_sb [50]) as (ws & Hc & Hr).
  - split; [eexists; apply demo_bio|]. by split.
  - done.
  - split; try done.
    + apply head_data_announces; [done|done|]. intros b ->%list_elem_of_singleton. lia.
    + intros b ->%list_elem_of_singleton. cbn. lia.
  - apply NoDup_singleton.
  - apply (length_head_data block0).
  - exists ws. split; [exact Hc|]. intros k s1 R. eapply wp_conseq; [by apply (Hr k s1 R)|].
    intros u s' H. apply H. cbn. lia.
Defined.
