(* ===== verification/Fs.v ===== *)
(** * The file system ([kernel/fs.c])

    Blocks, inodes, file contents, directories and path names, each function as
    the code has it.  Path names and directory-entry names are the bytes of the
    C strings; the local [struct dirent de] lives at [DE_ADDR] of the kernel's
    memory. *)
From stdpp Require Import base gmap strings numbers option list.
From S2P Require Import Prelude Layout Machine Memory Kernel FsState Block Sleeplock Bio.
From S2P Require Import Log.
Open Scope Z_scope.

(** ** Access to the inode table *)

Definition inodesleepL (i : nat) : lens fstate sleeplock :=
  Lens (fun s => default sleep0 (i_lock <$> inodes s !! i))
       (fun x s => set_inodes (alter (seti_lock x) i (inodes s)) s).

Definition geti (i : nat) : M fstate inode := fun s =>
  match inodes s !! i with
  | Some x => Ret x s
  | None => Err (EFault (Z.of_nat i)) s
  end.
Definition updi (i : nat) (f : inode -> inode) : M fstate unit :=
  _ ← geti i; modify (fun s => set_inodes (alter f i (inodes s)) s).

(** ** Copies between the kernel and the current process *)

(** How many of the [n] user bytes at [va] can be reached. *)
Fixpoint reachable `{World} (va : Z) (n : nat) : nat :=
  match n with
  | O => O
  | S n' => if u_mapped va then S (reachable (va + 1) n') else O
  end.

Section fs.
Context `{im : Image} `{W : World}.

(** [u_copyout] and [u_copyin] stop at the first page that is not mapped. *)
Definition u_copyout (dstva : Z) (bs : list Z) : M fstate Z := fun s =>
  let k := reachable dstva (length bs) in
  Ret (if (k =? length bs)%nat then 0 else -1)
      (setf_umem (wr_bytes (f_umem s) dstva (take k bs)) s).

(** The bytes read, and whether all of them were. *)
Definition u_copyin (srcva : Z) (n : Z) : M fstate (list Z * Z) := fun s =>
  let k := reachable srcva (Z.to_nat n) in
  Ret (rd_bytes (f_umem s) srcva k, if (k =? Z.to_nat n)%nat then 0 else -1) s.

Definition either_copyout (user_dst : bool) (dst : Z) (bs : list Z) : M fstate Z :=
  if user_dst then u_copyout dst bs
  else modify (fun s => setf_kmem (wr_bytes (f_kmem s) dst bs) s);; mret 0.

Definition either_copyin (user_src : bool) (src n : Z) : M fstate (list Z * Z) :=
  if user_src then u_copyin src n
  else bs ← gets (fun s => rd_bytes (f_kmem s) src (Z.to_nat n)); mret (bs, 0).

(** ** Super block and free map *)

Definition sb_of (v : block) : superblock :=
  mkSb (bld32 v 0) (bld32 v 4) (bld32 v 8) (bld32 v 12) (bld32 v 16) (bld32 v 20) (bld32 v 24)
    (bld32 v 28).

Definition readsb (dev : Z) : M fstate unit :=
  bp ← bread dev 1;
  x ← getb bp;
  modify (setf_sb (sb_of (b_data x)));;
  brelse bp.

Definition fsinit (dev : Z) : M fstate unit :=
  readsb dev;;
  sb ← gets f_sb;
  if negb (sb_magic sb =? FSMAGIC) then panic "invalid file system" else
  initlog dev sb.

Definition bzero (dev bno : Z) : M fstate unit :=
  bp ← bread dev bno;
  updb bp (setb_data block0);;
  log_write bp;;
  brelse bp.

Definition IBLOCK (i : Z) (sb : superblock) : Z := u32 (i / IPB + sb_inodestart sb).
Definition BBLOCK (b : Z) (sb : superblock) : Z := u32 (b / BPB + sb_bmapstart sb).

(** [bp->data[bi/8]] and the bit of [bi] in it *)
Definition map_byte (v : block) (bi : Z) : Z := nth (Z.to_nat (bi / 8)) v 0.
Definition map_mask (bi : Z) : Z := Z.shiftl 1 (bi mod 8).
Definition map_set (v : block) (bi x : Z) : block := <[Z.to_nat (bi / 8) := u8 x]> v.

(** One step of [balloc]'s inner loop. *)
Definition balloc_bit (dev b : Z) (bp : nat) (bi : Z) : M fstate (option Z) :=
  let m := map_mask bi in
  x ← getb bp;
  if Z.land (map_byte (b_data x) bi) m =? 0 then
    updb bp (setb_data (map_set (b_data x) bi (Z.lor (map_byte (b_data x) bi) m)));;
    log_write bp;;
    brelse bp;;
    bzero dev (b + bi);;
    mret (Some (b + bi))
  else mret None.

(** One step of its outer loop: the bitmap block that covers [b]. *)
Definition balloc_blk (dev b : Z) : M fstate (option Z) :=
  sb ← gets f_sb;
  bp ← bread dev (BBLOCK b sb);
  r ← for_find (seqZ 0 (Z.min BPB (sb_size sb - b))) (balloc_bit dev b bp);
  match r with
  | Some v => mret (Some v)
  | None => brelse bp;; mret None
  end.

Definition balloc (dev : Z) : M fstate Z :=
  sb ← gets f_sb;
  r ← for_find (seqZ 0 ((sb_size sb + BPB - 1) / BPB)) (fun k => balloc_blk dev (BPB * k));
  match r with
  | Some v => mret v
  | None => panic "balloc: out of blocks"
  end.

Definition bfree (dev b : Z) : M fstate unit :=
  sb ← gets f_sb;
  bp ← bread dev (BBLOCK b sb);
  let bi := b mod BPB in
  let m := map_mask bi in
  x ← getb bp;
  if Z.land (map_byte (b_data x) bi) m =? 0 then panic "freeing free block" else
  updb bp (setb_data (map_set (b_data x) bi (Z.land (map_byte (b_data x) bi) (Z.lnot m))));;
  log_write bp;;
  brelse bp.

(** ** Inodes *)

Definition iinit : M fstate unit :=
  zoom itableL (zoom lsnd (initlock (strlit "itable")));;
  forM (seq 0 (Z.to_nat NINODE)) (fun i =>
    zoom (inodesleepL i) (initsleeplock (strlit "inode"))).

(** [(struct dinode* )bp->data + inum%IPB]: its offset, and its fields. *)
Definition dip_off (inum : Z) : Z := DINODE_SIZE * (inum mod IPB).
Definition dip_type (v : block) (o : Z) : Z := i16 (bld16 v o).
Definition dip_major (v : block) (o : Z) : Z := i16 (bld16 v (o + 2)).
Definition dip_minor (v : block) (o : Z) : Z := i16 (bld16 v (o + 4)).
Definition dip_nlink (v : block) (o : Z) : Z := i16 (bld16 v (o + 6)).
Definition dip_size (v : block) (o : Z) : Z := bld32 v (o + 8).
Definition dip_addrs (v : block) (o : Z) : list Z :=
  (fun i => bld32 v (o + 12 + 4 * i)) <$> seqZ 0 (NDIRECT + 1).

Fixpoint put_addrs (v : block) (o : Z) (l : list Z) : block :=
  match l with
  | [] => v
  | a :: l' => put_addrs (bst32 v o a) (o + 4) l'
  end.

(** The in-memory inode's disk fields written at [o]. *)
Definition put_dinode (v : block) (o : Z) (ip : inode) : block :=
  let v := bst16 v o (i_type ip) in
  let v := bst16 v (o + 2) (i_major ip) in
  let v := bst16 v (o + 4) (i_minor ip) in
  let v := bst16 v (o + 6) (i_nlink ip) in
  let v := bst32 v (o + 8) (i_size ip) in
  put_addrs v (o + 12) (i_addrs ip).

Definition get_dinode (v : block) (o : Z) (ip : inode) : inode :=
  let ip := seti_type (dip_type v o) ip in
  let ip := seti_major (dip_major v o) ip in
  let ip := seti_minor (dip_minor v o) ip in
  let ip := seti_nlink (dip_nlink v o) ip in
  let ip := seti_size (dip_size v o) ip in
  seti_addrs (dip_addrs v o) ip.

(** The loop of [iget] over the table: the entry of the inode, or else the
    first entry that is free. *)
Fixpoint iget_scan (dev inum : Z) (l : list inode) (i : nat) (empty : option nat)
  : nat + option nat :=
  match l with
  | [] => inr empty
  | ip :: l' =>
      if (0 <? i_ref ip) && (i_dev ip =? dev) && (i_inum ip =? inum) then inl i
      else iget_scan dev inum l' (S i)
             (match empty with
              | None => if i_ref ip =? 0 then Some i else None
              | Some e => Some e
              end)
  end.

Definition iget (dev inum : Z) : M fstate nat :=
  zoom itableL acquire;;
  l ← gets inodes;
  match iget_scan dev inum l 0 None with
  | inl i =>
      ip ← geti i;
      updi i (seti_ref (i_ref ip + 1));;
      zoom itableL release;;
      mret i
  | inr None => panic "iget: no inodes"
  | inr (Some i) =>
      updi i (seti_dev dev);;
      updi i (seti_inum inum);;
      updi i (seti_ref 1);;
      updi i (seti_valid 0);;
      zoom itableL release;;
      mret i
  end.

Definition ialloc_one (dev type inum : Z) : M fstate (option nat) :=
  sb ← gets f_sb;
  bp ← bread dev (IBLOCK inum sb);
  x ← getb bp;
  let o := dip_off inum in
  if dip_type (b_data x) o =? 0 then
    updb bp (setb_data (bst16 (bput (b_data x) o (replicate 64 0)) o type));;
    log_write bp;;
    brelse bp;;
    i ← iget dev inum;
    mret (Some i)
  else brelse bp;; mret None.

Definition ialloc (dev type : Z) : M fstate nat :=
  sb ← gets f_sb;
  r ← for_find (seqZ 1 (sb_ninodes sb - 1)) (ialloc_one dev type);
  match r with
  | Some i => mret i
  | None => panic "ialloc: no inodes"
  end.

Definition iupdate (i : nat) : M fstate unit :=
  ip ← geti i;
  sb ← gets f_sb;
  bp ← bread (i_dev ip) (IBLOCK (i_inum ip) sb);
  x ← getb bp;
  updb bp (setb_data (put_dinode (b_data x) (dip_off (i_inum ip)) ip));;
  log_write bp;;
  brelse bp.

Definition idup (i : nat) : M fstate nat :=
  zoom itableL acquire;;
  ip ← geti i;
  updi i (seti_ref (i_ref ip + 1));;
  zoom itableL release;;
  mret i.

Definition ilock (ip : option nat) : M fstate unit :=
  match ip with
  | None => panic "ilock"
  | Some i =>
      x ← geti i;
      if i_ref x <? 1 then panic "ilock" else
      acquiresleep (inodesleepL i) (WInode i);;
      x ← geti i;
      if i_valid x =? 0 then
        sb ← gets f_sb;
        bp ← bread (i_dev x) (IBLOCK (i_inum x) sb);
        y ← getb bp;
        updi i (get_dinode (b_data y) (dip_off (i_inum x)));;
        brelse bp;;
        updi i (seti_valid 1);;
        x ← geti i;
        if i_type x =? 0 then panic "ilock: no type" else skip
      else skip
  end.

Definition iunlock (ip : option nat) : M fstate unit :=
  match ip with
  | None => panic "iunlock"
  | Some i =>
      h ← holdingsleep (inodesleepL i);
      x ← geti i;
      if negb h || (i_ref x <? 1) then panic "iunlock" else
      releasesleep (inodesleepL i) (WInode i)
  end.

(** ** File contents *)

Definition addr (ip : inode) (k : Z) : Z := nth (Z.to_nat k) (i_addrs ip) 0.
Definition set_addr (k v : Z) (ip : inode) : inode :=
  seti_addrs (<[Z.to_nat k := v]> (i_addrs ip)) ip.

(** [if((addr = ip->addrs[k]) == 0) ip->addrs[k] = addr = balloc(ip->dev);] *)
Definition bmap_slot (i : nat) (k : Z) : M fstate Z :=
  ip ← geti i;
  if addr ip k =? 0 then
    a ← balloc (i_dev ip);
    updi i (set_addr k a);;
    mret a
  else mret (addr ip k).

Definition bmap (i : nat) (bn : Z) : M fstate Z :=
  if bn <? NDIRECT then bmap_slot i bn else
  let bn := bn - NDIRECT in
  if bn <? NINDIRECT then
    a ← bmap_slot i NDIRECT;
    ip ← geti i;
    bp ← bread (i_dev ip) a;
    x ← getb bp;
    r ← (let a := bld32 (b_data x) (4 * bn) in
         if a =? 0 then
           a ← balloc (i_dev ip);
           x ← getb bp;
           updb bp (setb_data (bst32 (b_data x) (4 * bn) a));;
           log_write bp;;
           mret a
         else mret a);
    brelse bp;;
    mret r
  else panic "bmap: out of range".

Definition itrunc (i : nat) : M fstate unit :=
  forM (seqZ 0 NDIRECT) (fun k =>
    ip ← geti i;
    if negb (addr ip k =? 0) then
      bfree (i_dev ip) (addr ip k);;
      updi i (set_addr k 0)
    else skip);;
  ip ← geti i;
  (if negb (addr ip NDIRECT =? 0) then
     bp ← bread (i_dev ip) (addr ip NDIRECT);
     forM (seqZ 0 NINDIRECT) (fun j =>
       x ← getb bp;
       let a := bld32 (b_data x) (4 * j) in
       if negb (a =? 0) then bfree (i_dev ip) a else skip);;
     brelse bp;;
     bfree (i_dev ip) (addr ip NDIRECT);;
     updi i (set_addr NDIRECT 0)
   else skip);;
  updi i (seti_size 0);;
  iupdate i.

Definition iput (i : nat) : M fstate unit :=
  zoom itableL acquire;;
  ip ← geti i;
  (if (i_ref ip =? 1) && negb (i_valid ip =? 0) && (i_nlink ip =? 0) then
     acquiresleep (inodesleepL i) (WInode i);;
     zoom itableL release;;
     itrunc i;;
     updi i (seti_type 0);;
     iupdate i;;
     updi i (seti_valid 0);;
     releasesleep (inodesleepL i) (WInode i);;
     zoom itableL acquire
   else skip);;
  ip ← geti i;
  updi i (seti_ref (i_ref ip - 1));;
  zoom itableL release.

Definition iunlockput (i : nat) : M fstate unit :=
  iunlock (Some i);;
  iput i.

(** [struct stat] *)
Record stat := mkStat { st_dev : Z; st_ino : Z; st_type : Z; st_nlink : Z; st_size : Z }.

Definition stati (i : nat) : M fstate stat :=
  ip ← geti i;
  mret (mkStat (i32 (i_dev ip)) (i_inum ip) (i_type ip) (i_nlink ip) (i_size ip)).

(** The loop of [readi] makes at most one step per block touched. *)
Definition rw_fuel (n : Z) : nat := Z.to_nat (n / BSIZE) + 3.

Definition readi_step (i : nat) (user_dst : bool) (n : Z) (st : Z * Z * Z)
  : M fstate (Z * Z * Z + Z) :=
  let '(tot, off, dst) := st in
  if negb (tot <? n) then mret (inr tot) else
  ip ← geti i;
  a ← bmap i (off / BSIZE);
  bp ← bread (i_dev ip) a;
  let m := Z.min (n - tot) (BSIZE - off mod BSIZE) in
  x ← getb bp;
  r ← either_copyout user_dst dst (bsub (b_data x) (off mod BSIZE) (Z.to_nat m));
  if r =? -1 then brelse bp;; mret (inr (-1)) else
  brelse bp;;
  mret (inl (tot + m, u32 (off + m), u64 (dst + m))).

Definition readi (i : nat) (user_dst : bool) (dst off n : Z) : M fstate Z :=
  ip ← geti i;
  if (i_size ip <? off) || (u32 (off + n) <? off) then mret 0 else
  let n := if i_size ip <? u32 (off + n) then u32 (i_size ip - off) else n in
  loop (rw_fuel n) (readi_step i user_dst n) (0, off, dst).

Definition writei_step (i : nat) (user_src : bool) (n : Z) (st : Z * Z * Z)
  : M fstate (Z * Z * Z + Z * Z) :=
  let '(tot, off, src) := st in
  if negb (tot <? n) then mret (inr (tot, off)) else
  ip ← geti i;
  a ← bmap i (off / BSIZE);
  bp ← bread (i_dev ip) a;
  let m := Z.min (n - tot) (BSIZE - off mod BSIZE) in
  r ← either_copyin user_src src m;
  x ← getb bp;
  updb bp (setb_data (bput (b_data x) (off mod BSIZE) r.1));;
  if r.2 =? -1 then brelse bp;; mret (inr (tot, off)) else
  log_write bp;;
  brelse bp;;
  mret (inl (tot + m, u32 (off + m), u64 (src + m))).

Definition writei (i : nat) (user_src : bool) (src off n : Z) : M fstate Z :=
  ip ← geti i;
  if (i_size ip <? off) || (u32 (off + n) <? off) then mret (-1) else
  if MAXFILE * BSIZE <? u32 (off + n) then mret (-1) else
  r ← loop (rw_fuel n) (writei_step i user_src n) (0, off, src);
  ip ← geti i;
  (if i_size ip <? r.2 then updi i (seti_size r.2) else skip);;
  iupdate i;;
  mret r.1.

(** ** Directories *)

(** The address of the local [de]. *)
Definition DE_ADDR : Z := 0x3fffff0000.

(** [strncmp] on strings given by their bytes. *)
Fixpoint strncmp_l (n : nat) (p q : list Z) : Z :=
  match n with
  | O => 0
  | S n' =>
      if negb (hd 0 p =? 0) && (hd 0 p =? hd 0 q) then strncmp_l n' (tl p) (tl q)
      else hd 0 p - hd 0 q
  end.

Definition namecmp (s t : list Z) : Z := strncmp_l (Z.to_nat DIRSIZ) s t.

(** The [inum] and [name] of the [struct dirent] at [DE_ADDR]. *)
Definition de_inum (m : mem) : Z := ld 2 m DE_ADDR.
Definition de_name (m : mem) : list Z := rd_bytes m (DE_ADDR + 2) 14.

(** One step of [dirlookup]'s loop, at the [k]th entry: the inode and the
    entry's offset. *)
Definition dirlookup_one (dp : nat) (name : list Z) (k : Z) : M fstate (option (nat * Z)) :=
  let off := DIRENT_SIZE * k in
  r ← readi dp false DE_ADDR off DIRENT_SIZE;
  if negb (r =? DIRENT_SIZE) then panic "dirlookup read" else
  m ← gets f_kmem;
  if de_inum m =? 0 then mret None else
  if namecmp name (de_name m) =? 0 then
    ip ← geti dp;
    i ← iget (i_dev ip) (de_inum m);
    mret (Some (i, off))
  else mret None.

Definition dirlookup (dp : nat) (name : list Z) : M fstate (option (nat * Z)) :=
  ip ← geti dp;
  if negb (i_type ip =? T_DIR) then panic "dirlookup not DIR" else
  for_find (seqZ 0 ((i_size ip + DIRENT_SIZE - 1) / DIRENT_SIZE)) (dirlookup_one dp name).

(** The offset of the first empty entry. *)
Definition dirlink_one (dp : nat) (k : Z) : M fstate (option Z) :=
  let off := DIRENT_SIZE * k in
  r ← readi dp false DE_ADDR off DIRENT_SIZE;
  if negb (r =? DIRENT_SIZE) then panic "dirlink read" else
  m ← gets f_kmem;
  if de_inum m =? 0 then mret (Some off) else mret None.

(** [strncpy(de.name, name, DIRSIZ)] pads with zeros. *)
Definition pad_name (name : list Z) : list Z :=
  take 14 name ++ replicate (14 - length name) 0.

Definition dirlink (dp : nat) (name : list Z) (inum : Z) : M fstate Z :=
  r ← dirlookup dp name;
  match r with
  | Some (i, _) => iput i;; mret (-1)
  | None =>
      ip ← geti dp;
      let n := (i_size ip + DIRENT_SIZE - 1) / DIRENT_SIZE in
      o ← for_find (seqZ 0 n) (dirlink_one dp);
      let off := default (DIRENT_SIZE * n) o in
      modify (fun s => setf_kmem (wr_bytes (f_kmem s) (DE_ADDR + 2) (pad_name name)) s);;
      modify (fun s => setf_kmem (st 2 (f_kmem s) DE_ADDR inum) s);;
      r ← writei dp false DE_ADDR off DIRENT_SIZE;
      if negb (r =? DIRENT_SIZE) then panic "dirlink" else mret 0
  end.

(** ** Paths *)

Definition SLASH : Z := 47.

Fixpoint skip_slashes (p : list Z) : list Z :=
  match p with
  | c :: p' => if c =? SLASH then skip_slashes p' else p
  | [] => []
  end.

(** The bytes before the next slash, and the rest. *)
Fixpoint path_elem (p : list Z) : list Z * list Z :=
  match p with
  | [] => ([], [])
  | c :: p' => if c =? SLASH then ([], p) else let '(e, r) := path_elem p' in (c :: e, r)
  end.

(** The element copied to [name] and the rest of the path; [None] when there
    is no element. *)
Definition skipelem (path : list Z) : option (list Z * list Z) :=
  match skip_slashes path with
  | [] => None
  | p => let '(e, r) := path_elem p in Some (take (Z.to_nat DIRSIZ) e, skip_slashes r)
  end.

(** One turn of [namex]'s loop, at inode [i] with [path] left; [name] is what
    the last turn copied. *)
Definition namex_step (nameiparent : bool) (st : nat * list Z * list Z)
  : M fstate (nat * list Z * list Z + option (nat * list Z)) :=
  let '(i, path, name) := st in
  match skipelem path with
  | None =>
      if nameiparent then iput i;; mret (inr None) else mret (inr (Some (i, name)))
  | Some (name, path) =>
      ilock (Some i);;
      ip ← geti i;
      if negb (i_type ip =? T_DIR) then iunlockput i;; mret (inr None) else
      if nameiparent && bool_decide (path = []) then
        iunlock (Some i);; mret (inr (Some (i, name)))
      else
        r ← dirlookup i name;
        match r with
        | None => iunlockput i;; mret (inr None)
        | Some (next, _) => iunlockput i;; mret (inl (next, path, name))
        end
  end.

Definition namex (path : list Z) (nameiparent : bool) : M fstate (option (nat * list Z)) :=
  i ← (if bool_decide (hd 0 path = SLASH) then iget ROOTDEV ROOTINO
       else c ← gets (fun s => fp_cwd (f_proc s));
            match c with
            | Some c => idup c
            | None => fail (EFault 0)
            end);
  loop (S (S (length path))) (namex_step nameiparent) (i, path, []).

Definition namei (path : list Z) : M fstate (option nat) :=
  r ← namex path false; mret (fst <$> r).

Definition nameiparent (path : list Z) : M fstate (option (nat * list Z)) := namex path true.

End fs.
