(* ===== verification/FsLogic.v ===== *)
(** * Reasoning inside a transaction

    [tstate s0 ac d l hs s] is what file-system code knows between two calls:
    [s] came from [s0] by changes of the cache, the disk and the logged block
    list only, implements abstract cache [ac] over disk [d], has logged the
    blocks [l], and the code holds references to the buffers [hs].  The rules
    are those of [BioLogic] with [log_write] added; [fs.c] is proved with
    them. *)
From stdpp Require Import base gmap strings numbers option list.
From S2P Require Import Prelude Layout Machine Memory Kernel Demo FsState Block Sleeplock.
From S2P Require Import Bio BioLogic Log LogCrash LogOps Fs.
Open Scope Z_scope.

(** [s'] differs from [s] in the cache, the disk, the wakeups and the log
    header only. *)
Definition keepsl (s s' : fstate) : Prop :=
  exists w d bs g,
    s' = setf_woken w (setf_disk d (set_bufs bs (setf_log (setl_lh g (f_log s)) s))).

#[export] Instance keepsl_preorder : PreOrder keepsl.
Proof.
  split.
  - intros s. exists (f_woken s), (f_disk s), (bufs s), (lh s).
    by destruct s as [? ? [] ? [] ? ? ? ? ? ? ? ?].
  - intros s1 s2 s3 (w & d & bs & g & ->) (w' & d' & bs' & g' & ->). by exists w', d', bs', g'.
Qed.

Lemma keeps_keepsl s s' : keeps s s' -> keepsl s s'.
Proof.
  intros (w & d & bs & ->). exists w, d, bs, (lh s). by destruct s as [? ? [] ? [] ? ? ? ? ? ? ? ?].
Qed.

Lemma keepsl_fields s s' :
  keepsl s s' ->
  f_proc s' = f_proc s /\ f_hart s' = f_hart s /\ f_sb s' = f_sb s /\
  f_itable s' = f_itable s /\ f_kmem s' = f_kmem s /\ f_umem s' = f_umem s /\
  lg_size (f_log s') = lg_size (f_log s) /\ lg_start (f_log s') = lg_start (f_log s) /\
  lg_outstanding (f_log s') = lg_outstanding (f_log s) /\ lg_lock (f_log s') = lg_lock (f_log s).
Proof. by intros (w & d & bs & g & ->). Qed.

Record tstate (s0 : fstate) (ac : acache) (d : disk_t) (l : list Z) (hs : list (nat * Z))
    (s : fstate) : Prop := {
  ts_bio : exists order, bio s ac order;
  ts_keeps : keepsl s0 s;
  ts_disk : f_disk s = d;
  ts_handles : Forall (fun p => handle s p.1 p.2) hs;
  ts_txn : txn s ac l
}.

(** Room in the log for [bno]. *)
Definition log_room (s0 : fstate) (l : list Z) : Prop :=
  1 <= lg_outstanding (f_log s0) /\ Z.of_nat (length l) < LOGSIZE /\
  Z.of_nat (length l) < lg_size (f_log s0) - 1.

Lemma txn_keeps s s' ac ac' l :
  txn s ac l -> keeps s s' -> (forall b, b ∈ l -> 1 <= refs ac' b) -> txn s' ac' l.
Proof.
  intros [H1 H2 H3 H4 H5 H6 H7] HK Hr. pose proof (keeps_log _ _ HK) as Hg.
  split; try done; unfold lh in *; by rewrite Hg.
Qed.

Lemma refs_insert ac b a k : refs (<[b := a]> ac) k = if decide (b = k) then ab_ref a else refs ac k.
Proof. unfold refs. rewrite lookup_insert. by case_decide. Qed.

Section rules.
Context `{im : Image} `{W : World} `{WO : !WorldOk W}.
Context (s0 : fstate).
Let pid := fp_pid (f_proc s0).

Lemma ts_cstate ac d l hs s : tstate s0 ac d l hs s -> cstate s ac d hs s.
Proof. intros [HB HK HD HH _]. by split. Qed.

Lemma ts_pid ac d l hs s : tstate s0 ac d l hs s -> fp_pid (f_proc s) = pid.
Proof. intros T. by destruct (keepsl_fields _ _ (ts_keeps _ _ _ _ _ _ T)) as (-> & _). Qed.

Lemma ts_step ac d l hs s ac' d' hs' s' :
  tstate s0 ac d l hs s -> cstate s ac' d' hs' s' -> (forall b, b ∈ l -> 1 <= refs ac' b) ->
  tstate s0 ac' d' l hs' s'.
Proof.
  intros T [HB HK HD HH] Hr. split; try done.
  - transitivity s; [apply T|by apply keeps_keepsl].
  - by apply (txn_keeps s _ ac); [apply T|..].
Qed.

Lemma ts_bread ac d l hs s bno Q :
  tstate s0 ac d l hs s -> can_read ac bno ->
  (forall b s', tstate s0 (acquire_blk d pid bno ac) d l ((b, bno) :: hs) s' -> Q b s') ->
  wp (bread ROOTDEV bno) Q s.
Proof.
  intros T Hcan HQ. eapply cs_bread; [by eapply ts_cstate|done|].
  intros b s' C. apply HQ. rewrite (ts_pid _ _ _ _ _ T) in C.
  apply (ts_step _ _ _ _ _ _ _ _ _ T C). intros k Hk. unfold acquire_blk. rewrite refs_insert.
  pose proof (txn_refs _ _ _ (ts_txn _ _ _ _ _ _ T) k Hk). case_decide; [subst|done]. simpl. lia.
Qed.

Lemma ts_getb ac d l hs s b bno a Q :
  tstate s0 ac d l hs s -> (b, bno) ∈ hs -> ac !! bno = Some a ->
  (forall x, b_data x = ab_data a -> b_blockno x = bno -> Q x s) -> wp (getb b) Q s.
Proof. intros T Hin Ha HQ. eapply cs_getb; [by eapply ts_cstate|done|done|done]. Qed.

Lemma ts_setdata ac d l hs s b bno a v Q :
  tstate s0 ac d l hs s -> (b, bno) ∈ hs -> ac !! bno = Some a ->
  (forall s', tstate s0 (<[bno := mkA v (ab_ref a) (ab_held a)]> ac) d l hs s' -> Q tt s') ->
  wp (updb b (setb_data v)) Q s.
Proof.
  intros T Hin Ha HQ. eapply cs_setdata; [by eapply ts_cstate|done|done|].
  intros s' C. apply HQ, (ts_step _ _ _ _ _ _ _ _ _ T C). intros k Hk. rewrite refs_insert.
  pose proof (txn_refs _ _ _ (ts_txn _ _ _ _ _ _ T) k Hk) as Hr. case_decide; [subst|done].
  unfold refs in Hr. by rewrite Ha in Hr.
Qed.

Lemma ts_brelse ac d l hs hs' s b bno a Q :
  tstate s0 ac d l hs s -> (b, bno) ∈ hs -> ac !! bno = Some a -> ab_held a = Some pid ->
  (ab_ref a = 1 -> disk_get d bno = ab_data a) -> (bno ∈ l -> 2 <= ab_ref a) ->
  (forall p, p ∈ hs' -> p ∈ hs /\ (p.2 <> bno \/ ab_ref a <> 1)) ->
  (forall s', tstate s0 (release_blk bno ac) d l hs' s' -> Q tt s') ->
  wp (brelse b) Q s.
Proof.
  intros T Hin Ha Hh Hc Hl Hs HQ.
  eapply (cs_brelse s _ _ _ hs'); [by eapply ts_cstate|done|done| |done|done|].
  { by rewrite (ts_pid _ _ _ _ _ T). }
  intros s' C. apply HQ, (ts_step _ _ _ _ _ _ _ _ _ T C). intros k Hk.
  pose proof (txn_refs _ _ _ (ts_txn _ _ _ _ _ _ T) k Hk) as Hr.
  destruct (decide (k = bno)) as [->|Hne].
  - unfold release_blk. rewrite Ha. specialize (Hl Hk).
    destruct (Z.eqb_spec (ab_ref a) 1); [lia|]. rewrite refs_insert, decide_True by done. simpl. lia.
  - unfold refs in *. by rewrite release_blk_ne.
Qed.

Lemma ts_log_write ac d l hs s b bno a Q :
  tstate s0 ac d l hs s -> (b, bno) ∈ hs -> ac !! bno = Some a -> 0 <= bno < 2 ^ 31 ->
  1 <= ab_ref a -> log_room s0 l ->
  (forall s', tstate s0 (log_pin bno l ac) d (logged_add bno l) hs s' -> Q tt s') ->
  wp (log_write b) Q s.
Proof.
  intros T Hin Ha Hb Hr1 (Ho & Hl1 & Hl2) HQ. pose proof T as [[order B] HK HD HH Tx].
  destruct (keepsl_fields _ _ HK) as (_ & _ & _ & _ & _ & _ & Hsz & _ & Hout & _).
  rewrite Forall_forall in HH.
  eapply wp_conseq.
  { apply (log_write_spec s ac order hs b bno a l); try done; lia. }
  intros [] s' (blk & C & Hpre & Hlen). apply HQ. destruct C as [HB' HK' HD' HH'].
  pose proof (keeps_log _ _ HK') as Hg. destruct Tx as [T1 T2 T3 T4 T5 T6 T7].
  split; try done.
  - transitivity s; [done|]. transitivity (with_lh (Z.of_nat (length (logged_add bno l))) blk s);
      [|by apply keeps_keepsl]. unfold with_lh.
    exists (f_woken s), (f_disk s), (bufs s), (mkLH (Z.of_nat (length (logged_add bno l))) blk).
    by destruct s as [? ? [] ? [] ? ? ? ? ? ? ? ?].
  - rewrite HD'. done.
  - split; unfold lh; rewrite ?Hg; try done.
    + unfold logged_add. case_decide; [done|]. apply NoDup_app. split; [done|].
      split; [|apply NoDup_singleton]. intros x Hx ->%list_elem_of_singleton. done.
    + unfold logged_add. case_decide; [done|]. intros x Hx.
      apply elem_of_app in Hx as [Hx|Hx%list_elem_of_singleton]; [auto|by subst].
    + unfold logged_add, log_pin. case_decide as Hd; [done|]. rewrite Ha.
      intros x Hx. rewrite refs_insert.
      apply elem_of_app in Hx as [Hx|Hx%list_elem_of_singleton]; [|subst x].
      * rewrite decide_False by naive_solver. auto.
      * rewrite decide_True by done. simpl. lia.
Qed.

(** *** Whole block accesses *)

Lemma ts_refs_pos ac d l hs s b a :
  tstate s0 ac d l hs s -> ac !! b = Some a -> 0 < ab_ref a.
Proof.
  intros [[order B] _ _ _ _] Ha. destruct (ca_abs _ _ _ _ (bio_cached _ _ _ B) b a Ha)
    as (i & x & Hi & Hx & Hr & Hn).
  destruct (handle_used s ac order i b B) as (y & o & _ & Hy & _ & _ & _ & Hp & _ & Ho & _).
  { by exists x. }
  rewrite Ho in Ha. by simplify_eq.
Qed.

(** Reading a block and giving it back. *)
Lemma ts_brelse_read ac d l hs s b bno Q :
  tstate s0 (acquire_blk d pid bno ac) d l ((b, bno) :: hs) s -> can_read ac bno ->
  (forall a, ac !! bno = Some a -> 0 < ab_ref a) -> (bno ∈ l -> is_Some (ac !! bno)) ->
  (forall p, p ∈ hs -> p.2 <> bno) ->
  (forall s', tstate s0 ac d l hs s' -> Q tt s') -> wp (brelse b) Q s.
Proof.
  intros T Hcan Hpos Hl Hhs HQ. unfold can_read in Hcan.
  eapply (ts_brelse _ _ _ _ hs); [exact T|apply list_elem_of_here|apply lookup_insert_eq|done| | | |].
  - simpl. unfold refs, content. destruct (ac !! bno) as [a|] eqn:Ha; [|done].
    specialize (Hpos a eq_refl). lia.
  - simpl. intros Hin. destruct (Hl Hin) as [a Ha]. unfold refs. rewrite Ha.
    specialize (Hpos a Ha). lia.
  - intros p Hp. split; [by apply list_elem_of_further|]. left. by apply Hhs.
  - intros s' T'. apply HQ. unfold release_blk, acquire_blk in T'. rewrite lookup_insert_eq in T'.
    simpl in T'. unfold refs, content in T'.
    assert (Hac : (if (match ac !! bno with Some a => ab_ref a | None => 0 end) + 1 =? 1
      then delete bno (acquire_blk d pid bno ac)
      else <[bno := mkA (content d ac bno) (refs ac bno + 1 - 1) None]> (acquire_blk d pid bno ac)) = ac).
    { apply map_eq. intros k. unfold acquire_blk, refs, content.
      destruct (ac !! bno) as [[v r o]|] eqn:Ha; simpl in *.
      - specialize (Hpos _ eq_refl). simpl in *. subst o.
        destruct (Z.eqb_spec (r + 1) 1); [lia|]. replace (r + 1 - 1) with r by lia.
        destruct (decide (k = bno)) as [->|]; ac_lookup; [by rewrite Ha|done].
      - destruct (decide (k = bno)) as [->|]; ac_lookup; [by rewrite Ha|done]. }
    unfold acquire_blk, refs, content in Hac. by rewrite Hac in T'.
Qed.

(** The cache after block [bno] has been set to [v] and logged. *)
Definition put_blk (l : list Z) (bno : Z) (v : block) (ac : acache) : acache :=
  <[bno := mkA v (if decide (bno ∈ l) then refs ac bno else refs ac bno + 1) None]> ac.

(** The same while its buffer is still held. *)
Definition put_held (l : list Z) (bno : Z) (v : block) (ac : acache) : acache :=
  <[bno := mkA v (if decide (bno ∈ l) then refs ac bno + 1 else refs ac bno + 2) (Some pid)]> ac.

(** [b->data = v; log_write(b); k] after a [bread]. *)
Lemma ts_put {B} ac d l hs s b bno v (k : M fstate B) Q :
  tstate s0 (acquire_blk d pid bno ac) d l ((b, bno) :: hs) s ->
  0 <= bno < 2 ^ 31 -> log_room s0 l -> 0 <= refs ac bno ->
  (forall s', tstate s0 (put_held l bno v ac) d (logged_add bno l) ((b, bno) :: hs) s' -> wp k Q s') ->
  wp (updb b (setb_data v);; log_write b;; k) Q s.
Proof.
  intros T Hb Hroom Hr HQ. unfold acquire_blk in T.
  apply wp_bind. eapply ts_setdata; [exact T|apply list_elem_of_here|apply lookup_insert_eq|].
  intros s1 T1. rewrite insert_insert_eq in T1. cbn [ab_ref ab_held] in T1.
  apply wp_bind. eapply ts_log_write;
    [exact T1|apply list_elem_of_here|apply lookup_insert_eq|done|simpl; lia|done|].
  intros s2 T2. apply HQ. unfold log_pin in T2. rewrite lookup_insert_eq in T2.
  rewrite insert_insert_eq in T2. cbn [ab_ref ab_held ab_data] in T2. unfold put_held.
  replace (refs ac bno + 2) with (refs ac bno + 1 + 1) by lia. by case_decide.
Qed.

(** The [brelse] that follows. *)
Lemma ts_put_brelse ac d l hs s b bno v Q :
  tstate s0 (put_held l bno v ac) d (logged_add bno l) ((b, bno) :: hs) s ->
  0 <= refs ac bno -> (bno ∈ l -> 1 <= refs ac bno) -> (forall p, p ∈ hs -> p.2 <> bno) ->
  (forall s', tstate s0 (put_blk l bno v ac) d (logged_add bno l) hs s' -> Q tt s') ->
  wp (brelse b) Q s.
Proof.
  intros T Hr Hl Hhs HQ. unfold put_held in T.
  assert (Hc : 2 <= (if decide (bno ∈ l) then refs ac bno + 1 else refs ac bno + 2)).
  { case_decide as Hin; [specialize (Hl Hin)|]; lia. }
  assert (He : (if decide (bno ∈ l) then refs ac bno else refs ac bno + 1) =
    (if decide (bno ∈ l) then refs ac bno + 1 else refs ac bno + 2) - 1) by (case_decide; lia).
  set (r := if decide (bno ∈ l) then refs ac bno + 1 else refs ac bno + 2) in *. clearbody r.
  eapply (ts_brelse _ _ _ _ hs); [exact T|apply list_elem_of_here|apply lookup_insert_eq|done| | | |].
  - cbn [ab_ref]. lia.
  - cbn [ab_ref]. lia.
  - intros p Hp. split; [by apply list_elem_of_further|]. left. by apply Hhs.
  - intros s3 T3. apply HQ. unfold release_blk in T3. rewrite lookup_insert_eq in T3.
    cbn [ab_ref ab_data] in T3. destruct (Z.eqb_spec r 1); [lia|].
    rewrite insert_insert_eq, <- He in T3. exact T3.
Qed.

End rules.
