(* ===== verification/FsAlloc.v ===== *)
(** * Block allocation

    [balloc] and [bfree] of [fs.c] against the free map: the bit of block [n]
    in the bitmap blocks, as the cache and the log make them. *)
From stdpp Require Import base gmap strings numbers option list.
From S2P Require Import Prelude Layout Machine Memory Kernel Demo FsState Block Sleeplock.
From S2P Require Import Bio BioLogic Log LogCrash LogOps Fs FsLogic.
Open Scope Z_scope.

(** ** The free map *)

(** Bit [bi] of bitmap block [v], as [balloc] tests it. *)
Definition bit_used (v : block) (bi : Z) : bool :=
  negb (Z.land (map_byte v bi) (map_mask bi) =? 0).

(** Block [n] is marked in use. *)
Definition block_used (view : Z -> block) (sb : superblock) (n : Z) : bool :=
  bit_used (view (BBLOCK n sb)) (n mod BPB).

Lemma land_mask_zero x k : 0 <= k -> (Z.land x (Z.shiftl 1 k) =? 0) = negb (Z.testbit x k).
Proof.
  intros Hk. rewrite Z.shiftl_1_l. destruct (Z.testbit x k) eqn:Hb; simpl.
  - apply Z.eqb_neq. intros H0. apply (f_equal (fun z => Z.testbit z k)) in H0.
    by rewrite Z.land_spec, Hb, Z.pow2_bits_true, Z.bits_0 in H0 by done.
  - apply Z.eqb_eq, Z.bits_inj'. intros i Hi.
    rewrite Z.land_spec, Z.pow2_bits_eqb, Z.bits_0 by done.
    destruct (Z.eqb_spec k i); [subst; by rewrite Hb|by rewrite andb_false_r].
Qed.

Lemma bit_used_testbit v bi : bit_used v bi = Z.testbit (map_byte v bi) (bi mod 8).
Proof.
  unfold bit_used, map_mask. rewrite land_mask_zero by (apply Z.mod_pos_bound; lia).
  apply negb_involutive.
Qed.

Lemma u8_testbit x k : 0 <= k < 8 -> Z.testbit (u8 x) k = Z.testbit x k.
Proof. intros. unfold u8. apply Z.mod_pow2_bits_low. lia. Qed.

Lemma map_byte_set v bi bj x :
  0 <= bi -> 0 <= bj -> (Z.to_nat (bi / 8) < length v)%nat ->
  map_byte (map_set v bi x) bj = if decide (bj / 8 = bi / 8) then u8 x else map_byte v bj.
Proof.
  intros Hi Hj Hlen. unfold map_byte, map_set.
  assert (0 <= bi / 8) by (apply Z.div_pos; lia). assert (0 <= bj / 8) by (apply Z.div_pos; lia).
  rewrite !nth_lookup. case_decide as Hd.
  - rewrite Hd, list_lookup_insert_eq by done. done.
  - rewrite list_lookup_insert_ne by lia. done.
Qed.

(** Setting and clearing a bit change that bit only. *)
Lemma bit_used_set v bi bj :
  0 <= bi -> 0 <= bj -> (Z.to_nat (bi / 8) < length v)%nat ->
  bit_used (map_set v bi (Z.lor (map_byte v bi) (map_mask bi))) bj
  = if decide (bj = bi) then true else bit_used v bj.
Proof.
  intros Hi Hj Hlen. rewrite !bit_used_testbit, map_byte_set by done.
  pose proof (Z.mod_pos_bound bi 8). pose proof (Z.mod_pos_bound bj 8).
  pose proof (Z.div_mod bi 8). pose proof (Z.div_mod bj 8).
  destruct (decide (bj / 8 = bi / 8)) as [Hd|Hd];
    [|rewrite decide_False; [done|by intros ->]].
  rewrite u8_testbit, Z.lor_spec by lia. unfold map_mask.
  rewrite Z.shiftl_1_l, Z.pow2_bits_eqb by lia.
  destruct (Z.eqb_spec (bi mod 8) (bj mod 8)) as [He|He]; case_decide; try lia.
  unfold map_byte. rewrite Hd. apply orb_false_r.
Qed.

Lemma bit_used_clear v bi bj :
  0 <= bi -> 0 <= bj -> (Z.to_nat (bi / 8) < length v)%nat ->
  bit_used (map_set v bi (Z.land (map_byte v bi) (Z.lnot (map_mask bi)))) bj
  = if decide (bj = bi) then false else bit_used v bj.
Proof.
  intros Hi Hj Hlen. rewrite !bit_used_testbit, map_byte_set by done.
  pose proof (Z.mod_pos_bound bi 8). pose proof (Z.mod_pos_bound bj 8).
  pose proof (Z.div_mod bi 8). pose proof (Z.div_mod bj 8).
  destruct (decide (bj / 8 = bi / 8)) as [Hd|Hd];
    [|rewrite decide_False; [done|by intros ->]].
  rewrite u8_testbit, Z.land_spec, Z.lnot_spec by lia. unfold map_mask.
  rewrite Z.shiftl_1_l, Z.pow2_bits_eqb by lia.
  destruct (Z.eqb_spec (bi mod 8) (bj mod 8)) as [He|He]; case_decide; try lia.
  unfold map_byte. rewrite Hd. apply andb_true_r.
Qed.

(** ** The operations *)

Section alloc.
Context `{im : Image} `{W : World} `{WO : !WorldOk W}.
Context (s0 : fstate).
Let pid := fp_pid (f_proc s0).

(** Entries of the cache are referenced, and logged blocks are in it. *)
Lemma ts_good ac d l hs s :
  tstate s0 ac d l hs s ->
  (forall b a, ac !! b = Some a -> 0 < ab_ref a) /\ (forall b, b ∈ l -> is_Some (ac !! b)).
Proof.
  intros T. split; [intros b a; by eapply ts_refs_pos|]. intros b Hb.
  pose proof (txn_refs _ _ _ (ts_txn _ _ _ _ _ _ T) b Hb) as Hr. unfold refs in Hr.
  destruct (ac !! b); [by eexists|lia].
Qed.

Lemma ts_refs ac d l hs s b :
  tstate s0 ac d l hs s -> 0 <= refs ac b /\ (b ∈ l -> 1 <= refs ac b).
Proof.
  intros T. split; [|apply (txn_refs _ _ _ (ts_txn _ _ _ _ _ _ T))]. unfold refs.
  destruct (ac !! b) as [a|] eqn:Ha; [|done]. pose proof (ts_refs_pos _ _ _ _ _ _ _ _ T Ha). lia.
Qed.

Lemma ts_sb ac d l hs s : tstate s0 ac d l hs s -> f_sb s = f_sb s0.
Proof. intros T. apply (keepsl_fields _ _ (ts_keeps _ _ _ _ _ _ T)). Qed.

(** No buffer of block [b] is among those the code holds. *)
Definition not_held (hs : list (nat * Z)) (b : Z) : Prop := forall p, p ∈ hs -> p.2 <> b.

Lemma bzero_spec ac d l hs s n Q :
  tstate s0 ac d l hs s -> can_read ac n -> not_held hs n -> 0 <= n < 2 ^ 31 -> log_room s0 l ->
  (forall s', tstate s0 (put_blk l n block0 ac) d (logged_add n l) hs s' -> Q tt s') ->
  wp (bzero ROOTDEV n) Q s.
Proof.
  intros T Hcan Hh Hn Hroom HQ. destruct (ts_refs _ _ _ _ _ n T) as [Hr1 Hr2].
  unfold bzero. apply wp_bind. eapply ts_bread; [exact T|done|]. intros bp s1 T1.
  eapply ts_put; [exact T1|done|done|done|]. intros s2 T2.
  by eapply ts_put_brelse.
Qed.

(** A bit that is set is passed over. *)
Lemma balloc_bit_used ac d l hs s b bp bb a bi Q :
  tstate s0 ac d l hs s -> (bp, bb) ∈ hs -> ac !! bb = Some a -> bit_used (ab_data a) bi = true ->
  Q None s -> wp (balloc_bit ROOTDEV b bp bi) Q s.
Proof.
  intros T Hin Ha Hu HQ. unfold balloc_bit. apply wp_bind. eapply ts_getb; [exact T|done|done|].
  intros x Hx _. rewrite Hx. unfold bit_used in Hu. apply negb_true_iff in Hu. rewrite Hu.
  by apply wp_ret.
Qed.

(** A bit that is clear is taken, and its block zeroed. *)
Lemma balloc_bit_free ac d l hs s b bp bb bi Q :
  let v := content d ac bb in
  let l1 := logged_add bb l in
  let ac1 := put_blk l bb (map_set v bi (Z.lor (map_byte v bi) (map_mask bi))) ac in
  tstate s0 (acquire_blk d pid bb ac) d l ((bp, bb) :: hs) s ->
  0 <= refs ac bb -> (bb ∈ l -> 1 <= refs ac bb) -> not_held hs bb -> 0 <= bb < 2 ^ 31 ->
  log_room s0 l -> bit_used v bi = false ->
  can_read ac1 (b + bi) -> not_held hs (b + bi) -> 0 <= b + bi < 2 ^ 31 -> log_room s0 l1 ->
  (forall s', tstate s0 (put_blk l1 (b + bi) block0 ac1) d (logged_add (b + bi) l1) hs s' ->
     Q (Some (b + bi)) s') ->
  wp (balloc_bit ROOTDEV b bp bi) Q s.
Proof.
  intros v l1 ac1 T Hr1 Hr2 Hhb Hbb Hroom Hu Hcan Hh Hn Hroom1 HQ. unfold balloc_bit.
  apply wp_bind. eapply ts_getb; [exact T|apply list_elem_of_here|apply lookup_insert_eq|].
  intros x Hx _. rewrite Hx. cbn [ab_data]. fold v. unfold bit_used in Hu.
  apply negb_false_iff in Hu. rewrite Hu.
  eapply ts_put; [exact T|done|done|done|]. intros s1 T1.
  apply wp_bind. eapply ts_put_brelse; [exact T1|done|done|done|]. intros s2 T2.
  apply wp_bind. eapply bzero_spec; [exact T2|done|done|done|done|]. intros s3 T3.
  by apply wp_ret, HQ.
Qed.

Lemma BBLOCK_in k bi sb : 0 <= bi < BPB -> BBLOCK (BPB * k + bi) sb = BBLOCK (BPB * k) sb.
Proof.
  intros Hb. unfold BBLOCK. change BPB with 8192 in *.
  replace ((8192 * k + bi) / 8192) with k by (apply Z.div_unique with bi; lia).
  by replace (8192 * k / 8192) with k by (rewrite Z.mul_comm, Z.div_mul; lia).
Qed.

Lemma BPB_mod k bi : 0 <= bi < BPB -> (BPB * k + bi) mod BPB = bi.
Proof.
  intros Hb. symmetry. apply Z.mod_unique with k; [left; done|lia].
Qed.

(** A bitmap block without a clear bit is read and given back. *)
Lemma balloc_blk_full ac d l hs s k Q :
  let sb := f_sb s0 in let bb := BBLOCK (BPB * k) sb in
  tstate s0 ac d l hs s -> can_read ac bb -> not_held hs bb ->
  (forall bi, 0 <= bi < Z.min BPB (sb_size sb - BPB * k) -> bit_used (content d ac bb) bi = true) ->
  (forall s', tstate s0 ac d l hs s' -> Q None s') ->
  wp (balloc_blk ROOTDEV (BPB * k)) Q s.
Proof.
  intros sb bb T Hcan Hh Hfull HQ. destruct (ts_good _ _ _ _ _ T) as [G1 G2].
  unfold balloc_blk. apply wp_bind, wp_gets. rewrite (ts_sb _ _ _ _ _ T). fold sb bb.
  apply wp_bind. eapply ts_bread; [exact T|done|]. intros bp s1 T1. apply wp_bind.
  eapply wp_conseq; [eapply (wp_for_find_none _ _ (fun t =>
    tstate s0 (acquire_blk d pid bb ac) d l ((bp, bb) :: hs) t)); [|exact T1]|].
  - intros bi t Hbi Tt. apply elem_of_seqZ in Hbi.
    eapply balloc_bit_used; [exact Tt|apply list_elem_of_here|apply lookup_insert_eq| |done].
    cbn [ab_data]. apply Hfull. lia.
  - intros r t [-> Tt]. apply wp_bind.
    eapply ts_brelse_read; [exact Tt|done|apply G1|apply G2|done|]. intros s' T'. by apply wp_ret, HQ.
Qed.

(** The first free block is [n], and it can be taken. *)
Record allocable (ac : acache) (d : disk_t) (l : list Z) (hs : list (nat * Z)) (n : Z) : Prop := {
  al_n : 0 <= n < sb_size (f_sb s0) /\ n < 2 ^ 31;
  al_free : block_used (content d ac) (f_sb s0) n = false;
  al_first : forall m, 0 <= m < n -> block_used (content d ac) (f_sb s0) m = true;
  al_map : forall m, 0 <= m <= n ->
    can_read ac (BBLOCK m (f_sb s0)) /\ not_held hs (BBLOCK m (f_sb s0));
  al_bb : 0 <= BBLOCK n (f_sb s0) < 2 ^ 31;
  al_ne : forall m, 0 <= m < sb_size (f_sb s0) -> n <> BBLOCK m (f_sb s0);
  al_blk : match ac !! n with Some a => ab_held a = None | None => (S (size ac) < HEAD)%nat end;
  al_held : not_held hs n;
  al_room : 1 <= lg_outstanding (f_log s0) /\ Z.of_nat (length l) + 1 < LOGSIZE /\
            Z.of_nat (length l) + 1 < lg_size (f_log s0) - 1
}.

(** The cache and the logged blocks after block [n] has been allocated. *)
Definition alloc_map (d : disk_t) (ac : acache) (n : Z) : block :=
  let v := content d ac (BBLOCK n (f_sb s0)) in
  map_set v (n mod BPB) (Z.lor (map_byte v (n mod BPB)) (map_mask (n mod BPB))).
Definition alloc_log (l : list Z) (n : Z) : list Z :=
  logged_add n (logged_add (BBLOCK n (f_sb s0)) l).
Definition alloc_ac (d : disk_t) (l : list Z) (n : Z) (ac : acache) : acache :=
  put_blk (logged_add (BBLOCK n (f_sb s0)) l) n block0
    (put_blk l (BBLOCK n (f_sb s0)) (alloc_map d ac n) ac).

Lemma length_logged_add b l : (length (logged_add b l) <= S (length l))%nat.
Proof. unfold logged_add. case_decide; [lia|]. rewrite length_app. simpl. lia. Qed.

Lemma size_put_blk l b v ac : (size (put_blk l b v ac) <= S (size ac))%nat.
Proof.
  unfold put_blk. rewrite map_size_insert. destruct (ac !! b); simpl; lia.
Qed.

Lemma balloc_blk_free ac d l hs s n Q :
  tstate s0 ac d l hs s -> allocable ac d l hs n ->
  (forall s', tstate s0 (alloc_ac d l n ac) d (alloc_log l n) hs s' -> Q (Some n) s') ->
  wp (balloc_blk ROOTDEV (BPB * (n / BPB))) Q s.
Proof.
  intros T A HQ. destruct A as [[Hn1 Hn2] Hfree Hfirst Hmap Hbb Hne Hblk Hheld (Hout & Hr1 & Hr2)].
  set (sb := f_sb s0) in *. set (k := n / BPB). set (bi := n mod BPB).
  assert (Hdm : n = BPB * k + bi) by (apply Z.div_mod; done).
  assert (Hbi : 0 <= bi < BPB) by (by apply Z.mod_pos_bound).
  assert (Hbk : BBLOCK (BPB * k) sb = BBLOCK n sb) by (rewrite Hdm; symmetry; by apply BBLOCK_in).
  assert (0 <= k) by (apply Z.div_pos; done || lia).
  assert (0 <= BPB * k) by (apply Z.mul_nonneg_nonneg; done).
  destruct (Hmap n) as [Hcan Hh]; [lia|]. destruct (ts_refs _ _ _ _ _ (BBLOCK n sb) T) as [R1 R2].
  unfold balloc_blk. apply wp_bind, wp_gets. rewrite (ts_sb _ _ _ _ _ T). fold sb. rewrite Hbk.
  apply wp_bind. eapply ts_bread; [exact T|done|]. intros bp s1 T1. apply wp_bind.
  rewrite (seqZ_split 0 _ bi) by lia. rewrite Z.add_0_l.
  eapply (wp_for_find_at _ _ _ _ (fun t =>
    tstate s0 (acquire_blk d pid (BBLOCK n sb) ac) d l ((bp, BBLOCK n sb) :: hs) t)); [| |exact T1].
  - intros bj t Hbj Tt. apply elem_of_seqZ in Hbj.
    eapply balloc_bit_used; [exact Tt|apply list_elem_of_here|apply lookup_insert_eq| |done].
    cbn [ab_data]. assert (0 <= bj < BPB) by lia.
    specialize (Hfirst (BPB * k + bj) ltac:(lia)). unfold block_used in Hfirst.
    by rewrite BBLOCK_in, BPB_mod, Hbk in Hfirst by done.
  - intros t Tt. pose proof (length_logged_add (BBLOCK n sb) l).
    pose proof (balloc_bit_free ac d l hs t (BPB * k) bp (BBLOCK n sb) bi) as Hstep.
    cbv zeta in Hstep. rewrite <- Hdm in Hstep. apply Hstep; try done; try lia.
    + split; [done|lia].
    + unfold can_read, put_blk. rewrite lookup_insert_ne by (symmetry; by apply Hne).
      destruct (ac !! n); [done|].
      pose proof (size_put_blk l (BBLOCK n sb) (alloc_map d ac n) ac) as Hs. unfold put_blk in Hs.
      unfold alloc_map in Hs. fold sb bi in Hs. lia.
    + split; [done|lia].
    + intros s' T'. split; [by eexists|]. apply wp_ret, HQ. exact T'.
Qed.

(** What [balloc] leaves: the first free block is returned, marked in use in
    the bitmap and zeroed, both through the log. *)
Lemma balloc_spec ac d l hs s n Q :
  tstate s0 ac d l hs s -> allocable ac d l hs n ->
  (forall s', tstate s0 (alloc_ac d l n ac) d (alloc_log l n) hs s' -> Q n s') ->
  wp (balloc ROOTDEV) Q s.
Proof.
  intros T A HQ. pose proof A as [[Hn1 Hn2] Hfree Hfirst Hmap _ _ _ _ _].
  set (sb := f_sb s0) in *. set (k := n / BPB).
  assert (Hk : 0 <= k < (sb_size sb + BPB - 1) / BPB).
  { split; [apply Z.div_pos; done || lia|]. unfold k. change BPB with 8192.
    apply Z.div_lt_upper_bound; [lia|]. pose proof (Z.div_mod (sb_size sb + 8192 - 1) 8192).
    pose proof (Z.mod_pos_bound (sb_size sb + 8192 - 1) 8192). lia. }
  unfold balloc. apply wp_bind, wp_gets. rewrite (ts_sb _ _ _ _ _ T). fold sb. apply wp_bind.
  rewrite (seqZ_split 0 _ k) by done. rewrite Z.add_0_l.
  eapply (wp_for_find_at _ _ _ _ (fun t => tstate s0 ac d l hs t)); [| |exact T].
  - intros j t Hj Tt. apply elem_of_seqZ in Hj.
    assert (Hjn : BPB * j + BPB <= n).
    { unfold k in Hj. change BPB with 8192 in *.
      pose proof (Z.div_mod n 8192). pose proof (Z.mod_pos_bound n 8192). lia. }
    assert (0 < BPB) by done. assert (0 <= BPB * j) by (apply Z.mul_nonneg_nonneg; lia).
    eapply balloc_blk_full; [exact Tt|apply (Hmap (BPB * j)); lia|apply (Hmap (BPB * j)); lia| |].
    + intros bi Hbi. specialize (Hfirst (BPB * j + bi)). unfold block_used in Hfirst. fold sb.
      rewrite BBLOCK_in, BPB_mod in Hfirst by lia. apply Hfirst. fold sb in Hbi. lia.
    + intros s' T'. by split.
  - intros t Tt. eapply balloc_blk_free; [exact Tt|exact A|]. intros s' T'.
    split; [by eexists|]. by apply wp_ret, HQ.
Qed.

(** *** The free map after the operations *)

Lemma content_put d l b v ac k :
  content d (put_blk l b v ac) k = if decide (b = k) then v else content d ac k.
Proof. unfold content, put_blk. rewrite lookup_insert. by case_decide. Qed.

(** The bitmap block of [n] with the bit of [n] changed to [u]. *)
Lemma used_after view view' n m (u : bool) :
  let sb := f_sb s0 in let v := view (BBLOCK n sb) in
  (Z.to_nat BSIZE <= length v)%nat -> 0 <= n -> 0 <= m ->
  view' (BBLOCK n sb) = map_set v (n mod BPB)
    (if u then Z.lor (map_byte v (n mod BPB)) (map_mask (n mod BPB))
     else Z.land (map_byte v (n mod BPB)) (Z.lnot (map_mask (n mod BPB)))) ->
  (BBLOCK m sb <> BBLOCK n sb -> view' (BBLOCK m sb) = view (BBLOCK m sb)) ->
  (BBLOCK m sb = BBLOCK n sb -> m / BPB = n / BPB) ->
  block_used view' sb m = if decide (m = n) then u else block_used view sb m.
Proof.
  intros sb v Hlen Hn Hm Hv Hother Hinj. unfold block_used.
  assert (HB : 0 < BPB) by done.
  pose proof (Z.mod_pos_bound n BPB HB). pose proof (Z.mod_pos_bound m BPB HB).
  assert (Hl : (Z.to_nat (n mod BPB / 8) < length v)%nat).
  { assert (n mod BPB / 8 < 1024) by (apply Z.div_lt_upper_bound; [lia|]; exact (proj2 H)).
    assert (0 <= n mod BPB / 8) by (apply Z.div_pos; lia).
    change (Z.to_nat BSIZE) with 1024%nat in Hlen. lia. }
  destruct (decide (BBLOCK m sb = BBLOCK n sb)) as [He|Hne].
  - rewrite He, Hv. fold v. specialize (Hinj He).
    pose proof (Z.div_mod m BPB). pose proof (Z.div_mod n BPB).
    destruct u; [rewrite bit_used_set by (done || lia)|rewrite bit_used_clear by (done || lia)].
    all: destruct (decide (m = n)) as [->|Hmn]; [by rewrite decide_True|].
    all: rewrite decide_False; [done|]; intros Hd; apply Hmn; rewrite Hinj, Hd in *; lia.
  - rewrite Hother by done. rewrite decide_False; [done|]. by intros ->.
Qed.

(** [bfree] clears the bit of a block in use. *)
Definition free_map (d : disk_t) (ac : acache) (n : Z) : block :=
  let v := content d ac (BBLOCK n (f_sb s0)) in
  map_set v (n mod BPB) (Z.land (map_byte v (n mod BPB)) (Z.lnot (map_mask (n mod BPB)))).

Lemma bfree_spec ac d l hs s n Q :
  let bb := BBLOCK n (f_sb s0) in
  tstate s0 ac d l hs s -> can_read ac bb -> not_held hs bb -> 0 <= bb < 2 ^ 31 ->
  log_room s0 l -> block_used (content d ac) (f_sb s0) n = true ->
  (forall s', tstate s0 (put_blk l bb (free_map d ac n) ac) d (logged_add bb l) hs s' -> Q tt s') ->
  wp (bfree ROOTDEV n) Q s.
Proof.
  intros bb T Hcan Hh Hbb Hroom Hu HQ. destruct (ts_refs _ _ _ _ _ bb T) as [R1 R2].
  unfold bfree. apply wp_bind, wp_gets. rewrite (ts_sb _ _ _ _ _ T). fold bb.
  apply wp_bind. eapply ts_bread; [exact T|done|]. intros bp s1 T1.
  apply wp_bind. eapply ts_getb; [exact T1|apply list_elem_of_here|apply lookup_insert_eq|].
  intros x Hx _. rewrite Hx. cbn [ab_data]. unfold block_used, bit_used in Hu. fold bb in Hu.
  apply negb_true_iff in Hu. rewrite Hu.
  eapply ts_put; [exact T1|done|done|done|]. intros s2 T2. by eapply ts_put_brelse.
Qed.

(** Freeing a free block panics. *)
Lemma bfree_free_panics ac d l hs s n :
  let bb := BBLOCK n (f_sb s0) in
  tstate s0 ac d l hs s -> can_read ac bb -> block_used (content d ac) (f_sb s0) n = false ->
  exists s', bfree ROOTDEV n s = Err (EPanic "freeing free block") s'.
Proof.
  intros bb T Hcan Hu.
  destruct (wp_inv (bread ROOTDEV bb) (fun b t =>
    tstate s0 (acquire_blk d pid bb ac) d l ((b, bb) :: hs) t) s) as (b & t & Hbr & T1).
  { eapply ts_bread; [exact T|done|done]. }
  destruct (wp_inv (getb b) (fun x t' => b_data x = content d ac bb /\ t' = t) t)
    as (x & t' & Hg & Hdat & ->).
  { eapply ts_getb; [exact T1|apply list_elem_of_here|apply lookup_insert_eq|done]. }
  unfold bfree. rewrite (bind_ret _ _ _ (f_sb s) s) by done. rewrite (ts_sb _ _ _ _ _ T).
  rewrite (bind_ret _ _ _ _ _ Hbr), (bind_ret _ _ _ _ _ Hg), Hdat.
  unfold block_used, bit_used in Hu. fold bb in Hu. apply negb_false_iff in Hu. rewrite Hu. by eexists.
Qed.

(** Distinct bitmap blocks cover distinct ranges: the super block is sane. *)
Definition map_sane (sb : superblock) : Prop :=
  0 <= sb_bmapstart sb /\ sb_bmapstart sb + sb_size sb / BPB < 2 ^ 31.

Lemma BBLOCK_inj sb n m :
  map_sane sb -> 0 <= n < sb_size sb -> 0 <= m < sb_size sb ->
  BBLOCK m sb = BBLOCK n sb -> m / BPB = n / BPB.
Proof.
  intros [H0 H1] Hn Hm He. unfold BBLOCK in He.
  assert (forall k, 0 <= k < sb_size sb -> 0 <= k / BPB <= sb_size sb / BPB) as Hd.
  { intros k Hk. split; [apply Z.div_pos; done || lia|apply Z.div_le_mono; done || lia]. }
  pose proof (Hd n Hn). pose proof (Hd m Hm). rewrite !u32_small in He by lia. lia.
Qed.

(** [balloc] allocates the first free block.  In a transaction with room
    for two more blocks it returns the least [n] whose bit is clear; afterwards
    that bit is set, every other bit of the free map is as before, block [n] is
    zero and every block that is neither [n] nor its bitmap block is
    untouched.  Nothing has been written to the disk: both blocks are in the
    transaction. *)
Theorem balloc_allocates ac d l hs s n :
  tstate s0 ac d l hs s -> allocable ac d l hs n -> map_sane (f_sb s0) ->
  length (content d ac (BBLOCK n (f_sb s0))) = Z.to_nat BSIZE ->
  wp (balloc ROOTDEV) (fun r s' => r = n /\ exists ac' l',
    tstate s0 ac' d l' hs s' /\ (n ∈ l') /\ (BBLOCK n (f_sb s0) ∈ l') /\
    content d ac' n = block0 /\
    (forall m, 0 <= m < sb_size (f_sb s0) -> block_used (content d ac') (f_sb s0) m =
       if decide (m = n) then true else block_used (content d ac) (f_sb s0) m) /\
    (forall b, b <> n -> b <> BBLOCK n (f_sb s0) -> content d ac' b = content d ac b)) s.
Proof.
  intros T A Hsane Hlen. pose proof A as [[Hn1 Hn2] _ _ _ _ Hne _ _ _].
  eapply balloc_spec; [exact T|exact A|]. intros s' T'. split; [done|].
  exists (alloc_ac d l n ac), (alloc_log l n). split; [exact T'|].
  assert (Hin : forall b k, b ∈ logged_add b k).
  { intros b k. unfold logged_add. case_decide; [done|]. apply elem_of_app. right.
    by apply list_elem_of_singleton. }
  split; [apply Hin|]. split.
  { unfold alloc_log, logged_add at 1. case_decide; [apply Hin|]. apply elem_of_app. left. apply Hin. }
  assert (Hc : forall b, content d (alloc_ac d l n ac) b = if decide (n = b) then block0 else
    if decide (BBLOCK n (f_sb s0) = b) then alloc_map d ac n else content d ac b).
  { intros b. unfold alloc_ac. by rewrite !content_put. }
  split; [rewrite Hc; by rewrite decide_True|]. split.
  - intros m Hm. apply (used_after (content d ac) _ n m true); try lia.
    + rewrite Hc, decide_False, decide_True; [done|done|by apply Hne].
    + intros Hmn. rewrite Hc, !decide_False; [done|congruence|by apply Hne].
    + by apply BBLOCK_inj.
  - intros b H1 H2. rewrite Hc, !decide_False by congruence. done.
Qed.

(** [bfree] releases a block.  Given a block in use it clears that block's
    bit and changes nothing else; given a block that is already free it
    panics. *)
Theorem bfree_frees ac d l hs s n :
  let bb := BBLOCK n (f_sb s0) in
  tstate s0 ac d l hs s -> can_read ac bb -> not_held hs bb -> log_room s0 l ->
  0 <= n < sb_size (f_sb s0) -> map_sane (f_sb s0) -> length (content d ac bb) = Z.to_nat BSIZE ->
  if block_used (content d ac) (f_sb s0) n
  then wp (bfree ROOTDEV n) (fun _ s' => exists ac',
    tstate s0 ac' d (logged_add bb l) hs s' /\
    (forall m, 0 <= m < sb_size (f_sb s0) -> block_used (content d ac') (f_sb s0) m =
       if decide (m = n) then false else block_used (content d ac) (f_sb s0) m) /\
    (forall b, b <> bb -> content d ac' b = content d ac b)) s
  else exists s', bfree ROOTDEV n s = Err (EPanic "freeing free block") s'.
Proof.
  intros bb T Hcan Hh Hroom Hn Hsane Hlen. destruct (block_used _ _ n) eqn:Hu;
    [|by eapply bfree_free_panics].
  assert (Hbb : 0 <= bb < 2 ^ 31).
  { destruct Hsane as [H0 H1]. unfold bb, BBLOCK.
    assert (0 <= n / BPB <= sb_size (f_sb s0) / BPB)
      by (split; [apply Z.div_pos; done || lia|apply Z.div_le_mono; done || lia]).
    rewrite u32_small by lia. lia. }
  eapply bfree_spec; [exact T|done|done|done|done|done|]. intros s' T'. fold bb in T'.
  eexists. split; [exact T'|]. split.
  - intros m Hm. apply (used_after (content d ac) _ n m false); fold bb; try lia.
    + by rewrite content_put, decide_True.
    + intros Hmn. rewrite content_put, decide_False by done. done.
    + by apply BBLOCK_inj.
  - intros b Hb. rewrite content_put, decide_False by done. done.
Qed.

End alloc.
(** ** A concrete free map: blocks 0 and 1 in use *)

Definition demo_map : block := 3 :: replicate 1023 0.
Definition demo_alloc_disk : disk_t := mkDisk {[45 := demo_map]} [].

Definition demo_alloc_fs : fstate :=
  setf_log (demo_txn_log 0 [] demo_log) (demo_fs demo_alloc_disk).

Lemma tstate_init s ac order l : bio s ac order -> txn s ac l -> tstate s ac (f_disk s) l [] s.
Proof. intros B T. split; try done; by exists order. Qed.

Lemma demo_alloc_tstate : tstate demo_alloc_fs ∅ demo_alloc_disk [] [] demo_alloc_fs.
Proof.
  change demo_alloc_disk with (f_disk demo_alloc_fs) at 1.
  apply (tstate_init demo_alloc_fs ∅ (rev (seq 0 HEAD))).
  - apply bio_setlog, demo_bio.
  - split; try done; try (intros b Hb; by apply elem_of_nil in Hb).
    + apply prefix_nil.
    + apply NoDup_nil_2.
Qed.

Lemma demo_not_held b : not_held [] b.
Proof. intros p Hp. by apply elem_of_nil in Hp. Qed.

Lemma demo_BBLOCK m : 0 <= m < 1000 -> BBLOCK m demo_sb = 45.
Proof. intros Hm. unfold BBLOCK. by rewrite Z.div_small by (change BPB with 8192; lia). Qed.

Lemma demo_allocable : allocable demo_alloc_fs ∅ demo_alloc_disk [] [] 2.
Proof.
  split; try done; try (apply demo_not_held).
  - intros m Hm. assert (m = 0 \/ m = 1) as [->| ->] by lia; vm_compute; reflexivity.
  - intros m Hm. change (f_sb demo_alloc_fs) with demo_sb. rewrite demo_BBLOCK by lia.
    split; [vm_compute; lia|apply demo_not_held].
  - intros m. change (f_sb demo_alloc_fs) with demo_sb. intros Hm. by rewrite demo_BBLOCK.
  - vm_compute. lia.
Qed.

Lemma demo_map_sane : map_sane demo_sb.
Proof. split; vm_compute; [discriminate|reflexivity]. Qed.

Lemma balloc_allocates_witness :
  wp (balloc (im := demo_image) (W := demo_world) ROOTDEV) (fun r s' => r = 2 /\ exists ac' l',
    tstate demo_alloc_fs ac' demo_alloc_disk l' [] s' /\
    block_used (content demo_alloc_disk ac') demo_sb 2 = true) demo_alloc_fs.
Proof.
  eapply wp_conseq.
  - apply (balloc_allocates (WO := demo_world_ok) demo_alloc_fs _ _ _ _ _ 2 demo_alloc_tstate
      demo_allocable demo_map_sane). reflexivity.
  - intros r s' (-> & ac' & l' & T & _ & _ & _ & Hu & _). split; [done|]. exists ac', l'.
    split; [exact T|]. exact (Hu 2 ltac:(vm_compute; split; [discriminate|reflexivity])).
Defined.

Lemma demo_room : log_room demo_alloc_fs [].
Proof. split; [vm_compute; discriminate|]. split; vm_compute; reflexivity. Qed.

Lemma bfree_frees_witness :
  wp (bfree (im := demo_image) (W := demo_world) ROOTDEV 1) (fun _ s' => exists ac',
    tstate demo_alloc_fs ac' demo_alloc_disk [45] [] s' /\
    block_used (content demo_alloc_disk ac') demo_sb 1 = false) demo_alloc_fs.
Proof.
  pose proof (bfree_frees (WO := demo_world_ok) (im := demo_image) demo_alloc_fs ∅ demo_alloc_disk
    [] [] demo_alloc_fs 1 demo_alloc_tstate) as H. cbv zeta in H.
  assert (Hu1 : block_used (content demo_alloc_disk ∅) (f_sb demo_alloc_fs) 1 = true)
    by (vm_compute; reflexivity).
  rewrite Hu1 in H. eapply wp_conseq.
  - apply H; [vm_compute; lia|apply demo_not_held|apply demo_room| |apply demo_map_sane|].
    + vm_compute. split; [discriminate|reflexivity].
    + vm_compute. reflexivity.
  - intros u s' (ac' & T & Hu & _). exists ac'. split; [exact T|].
    exact (Hu 1 ltac:(vm_compute; split; [discriminate|reflexivity])).
Defined.
