(* ===== verification/FsInode.v ===== *)
(** * Inodes

    The on-disk inode as bytes, [iupdate] and [ilock], and the inode table of
    [iget], [idup] and [iput]. *)
From stdpp Require Import base gmap strings numbers option list.
From S2P Require Import Prelude Layout Machine Memory Kernel Demo FsState Block Sleeplock.
From S2P Require Import Bio BioLogic Log LogCrash LogOps Fs FsLogic FsAlloc.
Open Scope Z_scope.

(** ** The on-disk inode *)

Definition short (z : Z) : Prop := - 2 ^ 15 <= z < 2 ^ 15.

(** The disk fields of an inode are in the range of their C types. *)
Record inode_ok (ip : inode) : Prop := {
  io_type : short (i_type ip);
  io_major : short (i_major ip);
  io_minor : short (i_minor ip);
  io_nlink : short (i_nlink ip);
  io_size : 0 <= i_size ip < 2 ^ 32;
  io_len : length (i_addrs ip) = Z.to_nat (NDIRECT + 1);
  io_addrs : forall a, a ∈ i_addrs ip -> 0 <= a < 2 ^ 32
}.

(** The fields that live on disk. *)
Definition disk_fields (ip : inode) : Z * Z * Z * Z * Z * list Z :=
  (i_type ip, i_major ip, i_minor ip, i_nlink ip, i_size ip, i_addrs ip).

Lemma disk_fields_valid x ip : disk_fields (seti_valid x ip) = disk_fields ip.
Proof. done. Qed.

Lemma i16_mod z : short z -> i16 (z mod 65536) = z.
Proof.
  intros Hz. unfold i16, short in *. change (2 ^ 15) with 32768 in *. change (2 ^ 16) with 65536.
  rewrite Zplus_mod_idemp_l, Z.mod_small by lia. lia.
Qed.

Lemma length_put_addrs v o l : length (put_addrs v o l) = length v.
Proof. revert v o. induction l as [|x l IH]; intros v o; simpl; [done|]. by rewrite IH, length_bst. Qed.

Lemma put_addrs_disj k v o l off :
  0 <= off -> off + Z.of_nat k <= Z.of_nat (length v) ->
  off + Z.of_nat k <= o \/ o + 4 * Z.of_nat (length l) <= off ->
  bld k (put_addrs v o l) off = bld k v off.
Proof.
  revert v o. induction l as [|x l IH]; intros v o H0 H1 H2; simpl; [done|]. cbn [length] in H2.
  rewrite IH by (rewrite ?length_bst; lia). apply bld_bst_disj; lia.
Qed.

Lemma put_addrs_get v o l j x :
  0 <= o -> l !! j = Some x -> o + 4 * Z.of_nat (length l) <= Z.of_nat (length v) ->
  0 <= x < 2 ^ 32 -> bld32 (put_addrs v o l) (o + 4 * Z.of_nat j) = x.
Proof.
  revert v o j. induction l as [|y l IH]; intros v o j Ho Hj Hl Hx; [done|].
  cbn [length] in Hl. destruct j as [|j]; simpl in Hj; simplify_eq; simpl put_addrs.
  - rewrite put_addrs_disj by (rewrite ?length_bst; lia).
    replace (o + 4 * Z.of_nat 0) with o by lia. apply bld32_bst32; lia.
  - replace (o + 4 * Z.of_nat (S j)) with (o + 4 + 4 * Z.of_nat j) by lia.
    apply IH; try done; rewrite ?length_bst; lia.
Qed.

Lemma length_put_dinode v o ip : length (put_dinode v o ip) = length v.
Proof. unfold put_dinode. by rewrite length_put_addrs, !length_bst. Qed.

(** Writing an inode and reading it back gives its fields. *)
Lemma get_put_dinode v o ip ip' :
  inode_ok ip -> 0 <= o -> o + 64 <= Z.of_nat (length v) ->
  disk_fields (get_dinode (put_dinode v o ip) o ip') = disk_fields ip.
Proof.
  intros [H1 H2 H3 H4 H5 H6 H7] Ho Hl. change (Z.to_nat (NDIRECT + 1)) with 13%nat in H6.
  unfold disk_fields, get_dinode, dip_type, dip_major, dip_minor, dip_nlink, dip_size, put_dinode.
  cbn [i_type i_major i_minor i_nlink i_size i_addrs seti_addrs seti_size seti_nlink seti_minor
       seti_major seti_type].
  repeat first [rewrite put_addrs_disj by (rewrite ?length_bst; lia)
               |rewrite bld_bst by (rewrite ?length_bst; lia)
               |rewrite bld_bst_disj by (rewrite ?length_bst; lia)].
  change (256 ^ Z.of_nat 2) with 65536. change (256 ^ Z.of_nat 4) with (2 ^ 32).
  rewrite !i16_mod, Z.mod_small by done. f_equal.
  apply list_eq. intros i. unfold dip_addrs. rewrite list_lookup_fmap.
  change (NDIRECT + 1) with 13. destruct (i_addrs ip !! i) as [a|] eqn:Ha.
  - pose proof (lookup_lt_Some _ _ _ Ha). rewrite lookup_seqZ_lt by lia. simpl. f_equal.
    rewrite Z.add_0_l. apply put_addrs_get; [lia|done|rewrite !length_bst; lia|].
    apply H7. by eapply list_elem_of_lookup_2.
  - apply lookup_ge_None in Ha. by rewrite lookup_seqZ_ge by lia.
Qed.

(** The other inodes of the block keep theirs. *)
Lemma get_put_dinode_other v o o' ip ip' :
  length (i_addrs ip) = Z.to_nat (NDIRECT + 1) ->
  0 <= o' -> o' + 64 <= Z.of_nat (length v) -> o + 64 <= o' \/ o' + 64 <= o ->
  disk_fields (get_dinode (put_dinode v o ip) o' ip') = disk_fields (get_dinode v o' ip').
Proof.
  intros H6 Ho Hl Hd. change (Z.to_nat (NDIRECT + 1)) with 13%nat in H6.
  unfold disk_fields, get_dinode, dip_type, dip_major, dip_minor, dip_nlink, dip_size, put_dinode.
  cbn [i_type i_major i_minor i_nlink i_size i_addrs seti_addrs seti_size seti_nlink seti_minor
       seti_major seti_type].
  repeat first [rewrite put_addrs_disj by (rewrite ?length_bst; lia)
               |rewrite bld_bst_disj by (rewrite ?length_bst; lia)].
  f_equal. unfold dip_addrs. apply list_fmap_ext. intros i k Hk.
  apply lookup_seqZ in Hk as [-> Hk]. change (NDIRECT + 1) with 13 in Hk.
  repeat first [rewrite put_addrs_disj by (rewrite ?length_bst; lia)
               |rewrite bld_bst_disj by (rewrite ?length_bst; lia)].
  done.
Qed.

(** ** The inode table inside a transaction *)

#[export] Instance inodesleep_lens i : SleepLens (inodesleepL i) (fun s => is_Some (inodes s !! i)).
Proof.
  split; try done; intros; simpl.
  - unfold inodes, set_inodes in *; simpl. rewrite list_lookup_alter, decide_True by done.
    by apply fmap_is_Some.
  - unfold inodes, set_inodes in *; simpl. rewrite list_lookup_alter, decide_True by done.
    destruct H as [y Hy]. by rewrite Hy.
  - destruct H as [y Hy]. rewrite Hy. simpl.
    assert (alter (seti_lock (i_lock y)) i (inodes s) = inodes s) as ->.
    { apply list_eq. intros k. rewrite list_lookup_alter. case_decide; [|done]. subst.
      rewrite Hy. by destruct y. }
    by destruct s as [? ? ? ? ? ? [] ? ? ? ? ? ?].
  - unfold set_inodes, inodes; simpl. by rewrite list_alter_alter_eq.
Qed.

Lemma tstate_inodes x s0 ac d l hs s :
  tstate s0 ac d l hs s -> tstate (set_inodes x s0) ac d l hs (set_inodes x s).
Proof.
  intros [[order [B1 B2 B3]] (w & d' & bs & g & ->) HD HH [T1 T2 T3 T4 T5 T6 T7]]. split; try done.
  - exists order. by split.
  - by exists w, d', bs, g.
Qed.

Section inode.
Context `{im : Image} `{W : World} `{WO : !WorldOk W}.

Lemma ts_inodes s0 ac d l hs s : tstate s0 ac d l hs s -> inodes s = inodes s0.
Proof.
  intros T. destruct (keepsl_fields _ _ (ts_keeps _ _ _ _ _ _ T)) as (_ & _ & _ & H & _).
  unfold inodes. by rewrite H.
Qed.

Lemma ts_hart s0 ac d l hs s : tstate s0 ac d l hs s -> hart_quiet (f_hart s).
Proof. intros [[order B] _ _ _ _]. apply B. Qed.

(** The inode of entry [i] is [ip]. *)
Definition entry (s : fstate) (i : nat) (ip : inode) : Prop := inodes s !! i = Some ip.
Definition put_entry (i : nat) (ip : inode) (s : fstate) : fstate :=
  set_inodes (<[i := ip]> (inodes s)) s.

Lemma entry_put s i ip ip' : entry s i ip -> entry (put_entry i ip' s) i ip'.
Proof. intros H. apply list_lookup_insert_eq. by eapply lookup_lt_Some. Qed.

Lemma put_entry_put i x y s : put_entry i x (put_entry i y s) = put_entry i x s.
Proof. unfold put_entry, set_inodes, inodes. simpl. by rewrite list_insert_insert_eq. Qed.

Lemma put_entry_id s i ip : entry s i ip -> put_entry i ip s = s.
Proof.
  intros H. unfold put_entry, entry in *. rewrite list_insert_id by done.
  by destruct s as [? ? ? ? ? ? [] ? ? ? ? ? ?].
Qed.

Lemma alter_entry s i ip (f : inode -> inode) :
  inodes s !! i = Some ip -> set_inodes (alter f i (inodes s)) s = put_entry i (f ip) s.
Proof.
  intros H. unfold put_entry. f_equal. apply list_eq. intros k.
  rewrite list_lookup_alter, list_lookup_insert.
  pose proof (lookup_lt_Some _ _ _ H). destruct (decide (i = k)) as [->|Hn].
  - rewrite decide_True by done. by rewrite H.
  - rewrite decide_False by naive_solver. done.
Qed.

Lemma ts_geti s0 ac d l hs s i ip (Q : inode -> fstate -> Prop) :
  tstate s0 ac d l hs s -> entry s0 i ip -> Q ip s -> wp (geti i) Q s.
Proof. intros T Hi HQ. unfold wp, geti. rewrite (ts_inodes _ _ _ _ _ _ T). by rewrite Hi. Qed.

Lemma ts_put_entry s0 ac d l hs s i ip :
  tstate s0 ac d l hs s -> tstate (put_entry i ip s0) ac d l hs (put_entry i ip s).
Proof.
  intros T. unfold put_entry. rewrite (ts_inodes _ _ _ _ _ _ T). by apply tstate_inodes.
Qed.

Lemma ts_updi s0 ac d l hs s i ip f Q :
  tstate s0 ac d l hs s -> entry s0 i ip ->
  (forall s', tstate (put_entry i (f ip) s0) ac d l hs s' -> Q tt s') -> wp (updi i f) Q s.
Proof.
  intros T Hi HQ. unfold updi. apply wp_bind. eapply ts_geti; [exact T|done|].
  apply wp_modify, HQ. rewrite (alter_entry s i ip).
  - by apply ts_put_entry.
  - by rewrite (ts_inodes _ _ _ _ _ _ T).
Qed.

Lemma ts_isleep s0 ac d l hs s i ip Q :
  tstate s0 ac d l hs s -> entry s0 i ip -> sleep_free (i_lock ip) ->
  (forall s', tstate (put_entry i (seti_lock (take_sleep (fp_pid (f_proc s0)) (i_lock ip)) ip) s0)
     ac d l hs s' -> Q tt s') ->
  wp (acquiresleep (inodesleepL i) (WInode i)) Q s.
Proof.
  intros T Hi Hf HQ. pose proof (ts_inodes _ _ _ _ _ _ T) as He. unfold entry in Hi.
  rewrite <- He in Hi. assert (Hg : lget (inodesleepL i) s = i_lock ip) by (simpl; by rewrite Hi).
  unfold wp.
  rewrite (acquiresleep_eq _ (fun s => is_Some (inodes s !! i))); [|by eexists|by eapply ts_hart|by rewrite Hg].
  apply HQ. rewrite Hg, (ts_pid _ _ _ _ _ _ T). cbn [lset inodesleepL].
  rewrite (alter_entry s i ip) by done. by apply ts_put_entry.
Qed.

(** The block of an inode, and where it is in it. *)
Definition iblk (s0 : fstate) (ip : inode) : Z := IBLOCK (i_inum ip) (f_sb s0).

Lemma iupdate_spec s0 ac d l hs s i ip Q :
  let ib := iblk s0 ip in
  tstate s0 ac d l hs s -> entry s0 i ip -> i_dev ip = ROOTDEV ->
  can_read ac ib -> not_held hs ib -> 0 <= ib < 2 ^ 31 -> log_room s0 l ->
  (forall s', tstate s0 (put_blk l ib (put_dinode (content d ac ib) (dip_off (i_inum ip)) ip) ac) d
     (logged_add ib l) hs s' -> Q tt s') ->
  wp (iupdate i) Q s.
Proof.
  intros ib T Hi Hdev Hcan Hh Hib Hroom HQ. destruct (ts_refs _ _ _ _ _ _ ib T) as [R1 R2].
  unfold iupdate. apply wp_bind. eapply ts_geti; [exact T|done|].
  apply wp_bind, wp_gets. rewrite Hdev, (ts_sb _ _ _ _ _ _ T). fold (iblk s0 ip). fold ib.
  apply wp_bind. eapply ts_bread; [exact T|done|]. intros bp s1 T1.
  apply wp_bind. eapply ts_getb; [exact T1|apply list_elem_of_here|apply lookup_insert_eq|].
  intros x Hx _. rewrite Hx. cbn [ab_data].
  eapply ts_put; [exact T1|done|done|done|]. intros s2 T2. by eapply ts_put_brelse.
Qed.

(** The entry after [ilock] has loaded it. *)
Definition loaded (s0 : fstate) (v : block) (ip : inode) : inode :=
  seti_valid 1 (get_dinode v (dip_off (i_inum ip))
    (seti_lock (take_sleep (fp_pid (f_proc s0)) (i_lock ip)) ip)).

Lemma ilock_spec s0 ac d l hs s i ip Q :
  let ib := iblk s0 ip in
  tstate s0 ac d l hs s -> entry s0 i ip -> i_dev ip = ROOTDEV -> 1 <= i_ref ip ->
  sleep_free (i_lock ip) -> i_valid ip = 0 -> can_read ac ib -> not_held hs ib ->
  dip_type (content d ac ib) (dip_off (i_inum ip)) <> 0 ->
  (forall s', tstate (put_entry i (loaded s0 (content d ac ib) ip) s0) ac d l hs s' -> Q tt s') ->
  wp (ilock (Some i)) Q s.
Proof.
  intros ib T Hi Hdev Href Hf Hv Hcan Hh Hty HQ. unfold ilock.
  apply wp_bind. eapply ts_geti; [exact T|done|]. destruct (Z.ltb_spec (i_ref ip) 1); [lia|].
  apply wp_bind. eapply ts_isleep; [exact T|done|done|]. intros s1 T1.
  set (ip1 := seti_lock _ _) in T1. pose proof (entry_put s0 i ip ip1 Hi) as Hi1.
  apply wp_bind. eapply ts_geti; [exact T1|done|]. change (i_valid ip1) with (i_valid ip).
  rewrite Hv. cbn [Z.eqb]. apply wp_bind, wp_gets. rewrite (ts_sb _ _ _ _ _ _ T1).
  change (IBLOCK (i_inum ip1) (f_sb (put_entry i ip1 s0))) with ib.
  change (i_dev ip1) with (i_dev ip). rewrite Hdev.
  destruct (ts_good _ _ _ _ _ _ T1) as [G1 G2].
  apply wp_bind. eapply ts_bread; [exact T1|done|]. intros bp s2 T2.
  apply wp_bind. eapply ts_getb; [exact T2|apply list_elem_of_here|apply lookup_insert_eq|].
  intros x Hx _. rewrite Hx. cbn [ab_data].
  apply wp_bind. eapply ts_updi; [exact T2|done|]. intros s3 T3. rewrite put_entry_put in T3.
  apply wp_bind. eapply ts_brelse_read; [exact T3|exact Hcan|exact (G1 ib)|exact (G2 ib)|exact Hh|].
  intros s4 T4. apply wp_bind. eapply ts_updi; [exact T4|by eapply entry_put|]. intros s5 T5.
  rewrite put_entry_put in T5. apply wp_bind. eapply ts_geti; [exact T5|by eapply entry_put|].
  change (i_type _) with (dip_type (content d ac ib) (dip_off (i_inum ip))).
  destruct (Z.eqb_spec (dip_type (content d ac ib) (dip_off (i_inum ip))) 0); [done|].
  apply wp_skip, HQ, T5.
Qed.

(** Where the inode is in its block. *)
Lemma dip_off_bound k : 0 <= dip_off k /\ dip_off k + 64 <= Z.of_nat (Z.to_nat BSIZE).
Proof.
  unfold dip_off. change DINODE_SIZE with 64. change IPB with 16.
  change (Z.of_nat (Z.to_nat BSIZE)) with 1024. pose proof (Z.mod_pos_bound k 16). lia.
Qed.

(** The copy of an inode on disk is its table entry.  [iupdate] of an entry
    whose fields fit their C types, followed by any loss of the cached fields
    (the entry is recycled) and an [ilock], gives an entry that is locked,
    valid and has the type, major, minor, link count, size and block addresses
    that were saved; the fields of every other inode of the block are the ones
    it had before, and no block but the inode's has changed. *)
Theorem iupdate_ilock_roundtrip s0 ac d l hs s i ip (lose : inode -> inode) :
  let ib := iblk s0 ip in
  tstate s0 ac d l hs s -> entry s0 i ip -> i_dev ip = ROOTDEV -> 1 <= i_ref ip ->
  sleep_free (i_lock ip) -> inode_ok ip -> i_type ip <> 0 ->
  (forall x, i_dev (lose x) = i_dev x /\ i_inum (lose x) = i_inum x /\ i_ref (lose x) = i_ref x /\
     i_lock (lose x) = i_lock x /\ i_valid (lose x) = 0) ->
  can_read ac ib -> not_held hs ib -> 0 <= ib < 2 ^ 31 -> log_room s0 l ->
  length (content d ac ib) = Z.to_nat BSIZE ->
  wp (iupdate i;; updi i lose;; ilock (Some i)) (fun _ s' => exists ip' ac',
    tstate (put_entry i ip' s0) ac' d (logged_add ib l) hs s' /\
    disk_fields ip' = disk_fields ip /\ i_valid ip' = 1 /\
    sleep_held (fp_pid (f_proc s0)) (i_lock ip') /\
    (forall k x, 0 <= k -> k mod IPB <> i_inum ip mod IPB ->
       disk_fields (get_dinode (content d ac' ib) (dip_off k) x) =
       disk_fields (get_dinode (content d ac ib) (dip_off k) x)) /\
    (forall b, b <> ib -> content d ac' b = content d ac b)) s.
Proof.
  intros ib T Hi Hdev Href Hf Hok Hty Hlose Hcan Hh Hib Hroom Hlen.
  destruct (Hlose ip) as (L1 & L2 & L3 & L4 & L5).
  destruct (dip_off_bound (i_inum ip)) as [O1 O2].
  apply wp_bind. eapply iupdate_spec; [exact T|done..|]. fold ib. intros s1 T1.
  set (v := put_dinode _ _ _) in T1. set (ac1 := put_blk _ _ _ _) in T1.
  assert (Hc : content d ac1 ib = v) by (unfold ac1; by rewrite content_put, decide_True).
  assert (Hfields : forall x, disk_fields (get_dinode v (dip_off (i_inum ip)) x) = disk_fields ip).
  { intros x. unfold v. apply get_put_dinode; [done|done|by rewrite Hlen]. }
  apply wp_bind. eapply ts_updi; [exact T1|done|]. intros s2 T2.
  assert (Hi2 : iblk (put_entry i (lose ip) s0) (lose ip) = ib) by (unfold iblk; by rewrite L2).
  eapply ilock_spec; [exact T2|by eapply entry_put|..]; rewrite ?L1, ?L2, ?L3, ?L4, ?Hi2; try done.
  { unfold ac1. unfold can_read, put_blk. by rewrite lookup_insert_eq. }
  { rewrite Hc. specialize (Hfields ip). unfold disk_fields in Hfields.
    injection Hfields as Ht _ _ _ _ _. by rewrite Ht. }
  intros s3 T3. rewrite put_entry_put, Hc in T3. eexists _, ac1. split; [exact T3|].
  unfold loaded. rewrite L2. rewrite disk_fields_valid, Hfields. split; [done|]. split; [done|]. split.
  { apply sleep_held_take. by rewrite L4. }
  split.
  - intros k x Hk Hne. rewrite Hc. destruct (dip_off_bound k).
    apply get_put_dinode_other; [apply Hok|done|by rewrite Hlen|].
    unfold dip_off. change DINODE_SIZE with 64. lia.
  - intros b Hb. unfold ac1. by rewrite content_put, decide_False.
Qed.

(** ** Finding an inode in the table *)

(** Entry [x] is in use for inode [inum] of [dev]. *)
Definition in_use (dev inum : Z) (x : inode) : Prop :=
  0 < i_ref x /\ i_dev x = dev /\ i_inum x = inum.

(** No inode has two entries, and no reference count is negative. *)
Definition itable_inv (l : list inode) : Prop :=
  (forall i j x y, l !! i = Some x -> l !! j = Some y -> 0 < i_ref x ->
     in_use (i_dev x) (i_inum x) y -> i = j) /\
  (forall i x, l !! i = Some x -> 0 <= i_ref x).

(** What the scan of the table finds. *)
Inductive scan_found (dev inum : Z) (l : list inode) : nat + option nat -> Prop :=
| scan_hit k x : l !! k = Some x -> in_use dev inum x -> scan_found dev inum l (inl k)
| scan_free k x : (forall j y, l !! j = Some y -> ~ in_use dev inum y) ->
    l !! k = Some x -> i_ref x = 0 -> (forall j y, (j < k)%nat -> l !! j = Some y -> i_ref y <> 0) ->
    scan_found dev inum l (inr (Some k))
| scan_full : (forall j y, l !! j = Some y -> ~ in_use dev inum y /\ i_ref y <> 0) ->
    scan_found dev inum l (inr None).

Lemma iget_scan_app dev inum l1 l2 e :
  (forall j y, l1 !! j = Some y -> ~ in_use dev inum y) ->
  match e with
  | Some k => exists x, l1 !! k = Some x /\ i_ref x = 0 /\
                (forall j y, (j < k)%nat -> l1 !! j = Some y -> i_ref y <> 0)
  | None => forall j y, l1 !! j = Some y -> i_ref y <> 0
  end ->
  scan_found dev inum (l1 ++ l2) (iget_scan dev inum l2 (length l1) e).
Proof.
  revert l1 e. induction l2 as [|ip l2 IH]; intros l1 e Hno He; simpl.
  - rewrite app_nil_r. destruct e as [k|].
    + destruct He as (x & Hx & Hr & Hf). by eapply scan_free.
    + apply scan_full. intros j y Hj. split; [by eapply Hno|by eapply He].
  - destruct ((0 <? i_ref ip) && (i_dev ip =? dev) && (i_inum ip =? inum)) eqn:Hm.
    { apply (scan_hit _ _ _ _ ip); [by apply list_lookup_middle|]. split_and!; lia. }
    assert (Hm' : ~ in_use dev inum ip) by (intros (H1 & H2 & H3); lia).
    replace (S (length l1)) with (length (l1 ++ [ip])) by (rewrite length_app; simpl; lia).
    rewrite cons_middle, app_assoc. apply IH.
    { intros j y [Hj|[_ Hj]]%lookup_app_Some; [by eapply Hno|].
      apply list_lookup_singleton_Some in Hj as [_ <-]. done. }
    assert (Hsnoc : forall k x, l1 !! k = Some x -> (l1 ++ [ip]) !! k = Some x).
    { intros k x Hk. by apply lookup_app_l_Some. }
    assert (Hpre : forall k j y, (k <= length l1)%nat ->
      (forall j y, (j < k)%nat -> l1 !! j = Some y -> i_ref y <> 0) ->
      (j < k)%nat -> (l1 ++ [ip]) !! j = Some y -> i_ref y <> 0).
    { intros k j y Hk Hf Hj Hy. rewrite lookup_app_l in Hy by lia. by eapply Hf. }
    destruct e as [k|].
    + destruct He as (x & Hx & Hr & Hf). exists x. split; [by apply Hsnoc|]. split; [done|].
      intros j y. apply Hpre; [|done]. apply lookup_lt_Some in Hx. lia.
    + destruct (Z.eqb_spec (i_ref ip) 0).
      * exists ip. split; [by apply list_lookup_middle|]. split; [done|].
        intros j y. apply Hpre; [lia|]. intros j' y' _. apply He.
      * intros j y [Hj|[_ Hj]]%lookup_app_Some; [by eapply He|].
        apply list_lookup_singleton_Some in Hj as [_ <-]. done.
Qed.

Lemma iget_scan_found dev inum l : scan_found dev inum l (iget_scan dev inum l 0 None).
Proof. apply (iget_scan_app dev inum [] l None); intros j y Hj; done. Qed.

(** The entry given to an inode that had none. *)
Definition fresh_entry (dev inum : Z) (x : inode) : inode :=
  seti_valid 0 (seti_ref 1 (seti_inum inum (seti_dev dev x))).

Lemma itable_inv_hit l k x :
  itable_inv l -> l !! k = Some x -> 0 < i_ref x -> itable_inv (<[k := seti_ref (i_ref x + 1) x]> l).
Proof.
  intros [H1 H2] Hk Hr. split.
  - intros i j y z Hi Hj Hy Hz. apply list_lookup_insert_Some in Hi, Hj.
    destruct Hi as [(-> & <- & _)|[Hi1 Hi2]], Hj as [(<- & <- & _)|[Hj1 Hj2]]; try done.
    + by eapply (H1 i j x z).
    + eapply (H1 i k y x); try done. destruct Hz as (_ & Hz). by split.
    + by eapply H1.
  - intros i y Hi. apply list_lookup_insert_Some in Hi as [(_ & <- & _)|[_ Hi]]; [simpl; lia|].
    by eapply H2.
Qed.

Lemma itable_inv_fresh l k x dev inum :
  itable_inv l -> l !! k = Some x -> (forall j y, l !! j = Some y -> ~ in_use dev inum y) ->
  itable_inv (<[k := fresh_entry dev inum x]> l).
Proof.
  intros [H1 H2] Hk Hno. split.
  - intros i j y z Hi Hj Hy Hz. apply list_lookup_insert_Some in Hi, Hj.
    destruct Hi as [(-> & <- & _)|[Hi1 Hi2]], Hj as [(<- & <- & _)|[Hj1 Hj2]]; try done.
    + by destruct (Hno j z Hj2).
    + destruct (Hno i y Hi2). destruct Hz as (_ & H3 & H4). by split_and!.
    + by eapply H1.
  - intros i y Hi. apply list_lookup_insert_Some in Hi as [(_ & <- & _)|[_ Hi]]; [done|].
    by eapply H2.
Qed.

(** The table's lock is free and the hart quiet. *)
Definition itable_idle (s : fstate) : Prop :=
  hart_quiet (f_hart s) /\ lock_free (it_lock (f_itable s)).

Lemma geti_ok s i ip (Q : inode -> fstate -> Prop) : entry s i ip -> Q ip s -> wp (geti i) Q s.
Proof. intros Hi HQ. unfold wp, geti. by rewrite Hi. Qed.

Lemma updi_ok s i ip f Q : entry s i ip -> Q tt (put_entry i (f ip) s) -> wp (updi i f) Q s.
Proof.
  intros Hi HQ. unfold updi. apply wp_bind. eapply geti_ok; [done|]. apply wp_modify.
  by rewrite (alter_entry s i ip).
Qed.

(** The state while the table is locked. *)
Definition ilocked (s : fstate) : fstate :=
  lset itableL (acquired (f_hart s), held (f_hart s) (it_lock (f_itable s))) s.

Lemma wp_ilock_table s Q : itable_idle s -> Q tt (ilocked s) -> wp (zoom itableL acquire) Q s.
Proof. intros [Hq Hf] HQ. by eapply wp_lock. Qed.

Lemma wp_iunlock_table s i ip Q :
  itable_idle s -> Q tt (put_entry i ip s) ->
  wp (zoom itableL release) Q (put_entry i ip (ilocked s)).
Proof.
  intros [Hq Hf] HQ. eapply (wp_unlock _ (f_hart s) (it_lock (f_itable s))); [done|done|done|].
  by destruct s as [? ? ? ? ? ? [] ? ? ? ? ? ?].
Qed.

Lemma iget_hit s dev inum k x :
  itable_idle s -> iget_scan dev inum (inodes s) 0 None = inl k -> entry s k x ->
  iget dev inum s = Ret k (put_entry k (seti_ref (i_ref x + 1) x) s).
Proof.
  intros Hidle Hs Hk. apply wp_ret_eq. unfold iget. apply wp_bind, wp_ilock_table; [done|].
  apply wp_bind, wp_gets. change (inodes (ilocked s)) with (inodes s). rewrite Hs.
  apply wp_bind, (geti_ok _ _ x); [done|]. apply wp_bind, (updi_ok _ _ x); [done|].
  by apply wp_bind, wp_iunlock_table, wp_ret.
Qed.

Lemma iget_free s dev inum k x :
  itable_idle s -> iget_scan dev inum (inodes s) 0 None = inr (Some k) -> entry s k x ->
  iget dev inum s = Ret k (put_entry k (fresh_entry dev inum x) s).
Proof.
  intros Hidle Hs Hk. apply wp_ret_eq. unfold iget. apply wp_bind, wp_ilock_table; [done|].
  apply wp_bind, wp_gets. change (inodes (ilocked s)) with (inodes s). rewrite Hs.
  assert (Hk' : entry (ilocked s) k x) by done.
  do 4 (apply wp_bind; eapply updi_ok; [first [exact Hk'|eapply entry_put; exact Hk']|];
        rewrite ?put_entry_put).
  by apply wp_bind, wp_iunlock_table, wp_ret.
Qed.

Lemma iget_none s dev inum :
  itable_idle s -> iget_scan dev inum (inodes s) 0 None = inr None ->
  iget dev inum s = Err (EPanic "iget: no inodes") (ilocked s).
Proof.
  intros Hidle Hs. unfold iget. rewrite (bind_ret _ _ _ tt (ilocked s)).
  2: { apply wp_ret_eq, wp_ilock_table; done. }
  rewrite (bind_ret _ _ _ (inodes s) (ilocked s)) by done. by rewrite Hs.
Qed.

(** C32: an inode has one entry in the table.  When the table has an entry in
    use for the inode, [iget] returns it with one more reference; otherwise it
    takes the first entry nobody references, makes it the inode's with one
    reference and marks it not read from disk; when there is none it panics.
    It changes no other entry and nothing else, and keeps the invariant that
    two entries in use are for different inodes. *)
Theorem iget_unique_entry s dev inum :
  itable_idle s -> itable_inv (inodes s) ->
  match iget dev inum s with
  | Ret i s' =>
      itable_inv (inodes s') /\ exists x,
      inodes s !! i = Some x /\
      ((in_use dev inum x /\ s' = put_entry i (seti_ref (i_ref x + 1) x) s) \/
       (i_ref x = 0 /\ (forall j y, inodes s !! j = Some y -> ~ in_use dev inum y) /\
        (forall j y, (j < i)%nat -> inodes s !! j = Some y -> i_ref y <> 0) /\
        s' = put_entry i (fresh_entry dev inum x) s))
  | Err e _ => e = EPanic "iget: no inodes" /\
      (forall j y, inodes s !! j = Some y -> ~ in_use dev inum y /\ i_ref y <> 0)
  end.
Proof.
  intros Hidle Hinv.
  assert (Hput : forall k x y, inodes s !! k = Some x -> inodes (put_entry k y s) = <[k := y]> (inodes s))
    by done.
  pose proof (iget_scan_found dev inum (inodes s)) as HS.
  destruct (iget_scan dev inum (inodes s) 0 None) as [k|[k|]] eqn:E; inversion HS; subst.
  - rewrite (iget_hit s dev inum k x) by done. rewrite (Hput k x) by done.
    split; [by apply itable_inv_hit; [..|apply H1]|]. exists x. split; [done|]. by left.
  - rewrite (iget_free s dev inum k x) by done. rewrite (Hput k x) by done.
    split; [by apply itable_inv_fresh|]. exists x. split; [done|]. by right.
  - rewrite iget_none by done. done.
Qed.

End inode.

(** ** A concrete inode *)

(** Inode 5 of the root device, referenced once: a file of 3000 bytes. *)
Definition demo_inode : inode :=
  mkInode ROOTDEV 5 1 (mkSleep 0 (mkLock 0 0 0) 0 0) 1 2 0 0 1 3000
    (60 :: 61 :: 62 :: replicate 10 0).
Definition demo_inode_fs : fstate :=
  set_inodes (demo_inode :: replicate 49 (mkInode 0 0 0 (mkSleep 0 (mkLock 0 0 0) 0 0) 0 0 0 0 0 0
    (replicate 13 0))) demo_alloc_fs.

Lemma demo_inode_tstate : tstate demo_inode_fs ∅ demo_alloc_disk [] [] demo_inode_fs.
Proof. apply tstate_inodes, demo_alloc_tstate. Qed.

Lemma demo_inode_ok : inode_ok demo_inode.
Proof.
  split; [split; vm_compute; [discriminate|reflexivity]..|done|].
  intros a Ha. unfold demo_inode in Ha. cbn [i_addrs] in Ha.
  repeat (apply elem_of_cons in Ha as [->|Ha]; [lia|]). by apply elem_of_nil in Ha.
Qed.

Lemma iupdate_ilock_roundtrip_witness :
  wp (iupdate (im := demo_image) (W := demo_world) 0;; updi 0 (fun x => seti_valid 0 (seti_size 7 x));;
      ilock (im := demo_image) (W := demo_world) (Some 0%nat))
    (fun _ s' => exists ip', entry s' 0 ip' /\ i_size ip' = 3000) demo_inode_fs.
Proof.
  eapply wp_conseq.
  - apply (iupdate_ilock_roundtrip (WO := demo_world_ok) demo_inode_fs ∅ demo_alloc_disk [] []
      demo_inode_fs 0 demo_inode (fun x => seti_valid 0 (seti_size 7 x)) demo_inode_tstate).
    + reflexivity.
    + reflexivity.
    + vm_compute. discriminate.
    + repeat (split; try reflexivity).
    + exact demo_inode_ok.
    + discriminate.
    + intros x. split_and!; reflexivity.
    + vm_compute. lia.
    + apply demo_not_held.
    + vm_compute. split; [discriminate|reflexivity].
    + exact demo_room.
    + reflexivity.
  - intros u s' (ip' & ac' & T & Hd & _). exists ip'. split.
    + unfold entry. rewrite (ts_inodes _ _ _ _ _ _ T). done.
    + injection Hd as _ _ _ _ -> _. done.
Defined.

Lemma iget_unique_entry_witness :
  exists x, inodes demo_inode_fs !! 0%nat = Some x /\ in_use ROOTDEV 5 x /\
    exists s', iget (im := demo_image) ROOTDEV 5 demo_inode_fs = Ret 0%nat s' /\
      itable_inv (inodes s').
Proof.
  exists demo_inode. split; [reflexivity|]. split; [split_and!; reflexivity|].
  assert (Hidle : itable_idle demo_inode_fs) by (split; [apply demo_quiet|split; reflexivity]).
  assert (Hinv : itable_inv (inodes demo_inode_fs)).
  { assert (Hl : forall i x, inodes demo_inode_fs !! i = Some x -> i = 0%nat \/ i_ref x = 0).
    { intros [|i] x Hx; [by left|]. right. change (inodes demo_inode_fs !! S i) with
        (replicate 49 (mkInode 0 0 0 (mkSleep 0 (mkLock 0 0 0) 0 0) 0 0 0 0 0 0 (replicate 13 0)) !! i) in Hx.
      by apply lookup_replicate in Hx as [-> _]. }
    split.
    - intros i j x y Hi Hj Hx (Hy & _). destruct (Hl i x Hi), (Hl j y Hj); lia.
    - intros i x Hi. destruct (Hl i x Hi) as [->|H0]; [|by rewrite H0]. injection Hi as <-. done. }
  pose proof (iget_unique_entry (im := demo_image) demo_inode_fs ROOTDEV 5 Hidle Hinv) as H.
  change (iget ROOTDEV 5 demo_inode_fs) with
    (Ret 0%nat (put_entry 0 (seti_ref 2 demo_inode) demo_inode_fs) : outcome fstate nat) in H |- *.
  eexists. split; [reflexivity|]. exact (proj1 H).
Defined.
