(* ===== verification/FsRead.v ===== *)
(** * Reading files

    [bmap] on blocks a file has, and [readi] against the contents of the file
    as a function from offsets to bytes. *)
From stdpp Require Import base gmap strings numbers option list.
From S2P Require Import Prelude Layout Machine Memory Kernel Demo FsState Block Sleeplock.
From S2P Require Import Bio BioLogic Log LogCrash LogOps Fs FsLogic FsAlloc FsInode.
Open Scope Z_scope.

(** ** The contents of a file *)

(** The disk block of block [bn] of a file, over a view of the disk. *)
Definition blk_of (view : Z -> list Z) (ip : inode) (bn : Z) : Z :=
  if bn <? NDIRECT then addr ip bn
  else bld32 (view (addr ip NDIRECT)) (4 * (bn - NDIRECT)).

Definition file_byte (view : Z -> list Z) (ip : inode) (k : Z) : Z :=
  nth (Z.to_nat (k mod BSIZE)) (view (blk_of view ip (k / BSIZE))) 0.

(** The [n] bytes at offset [off]. *)
Definition file_bytes (view : Z -> list Z) (ip : inode) (off n : Z) : list Z :=
  file_byte view ip <$> seqZ off n.

Lemma length_file_bytes view ip off n : length (file_bytes view ip off n) = Z.to_nat n.
Proof. unfold file_bytes. by rewrite length_fmap, length_seqZ. Qed.

Lemma file_bytes_app view ip off n m :
  0 <= n -> 0 <= m ->
  file_bytes view ip off (n + m) = file_bytes view ip off n ++ file_bytes view ip (off + n) m.
Proof. intros Hn Hm. unfold file_bytes. by rewrite seqZ_app, fmap_app by lia. Qed.

Transparent bsub.
(** A piece of one block. *)
Lemma file_bytes_block view ip off m :
  0 <= off -> 0 <= m -> off mod BSIZE + m <= BSIZE ->
  file_bytes view ip off m = bsub (view (blk_of view ip (off / BSIZE))) (off mod BSIZE) (Z.to_nat m).
Proof.
  intros Ho Hm Hb. unfold file_bytes, bsub. apply list_eq. intros i. rewrite !list_lookup_fmap.
  assert (HB : 0 < BSIZE) by done. pose proof (Z.div_mod off BSIZE).
  pose proof (Z.mod_pos_bound off BSIZE HB).
  destruct (decide (i < Z.to_nat m)%nat).
  - rewrite lookup_seqZ_lt, lookup_seq_lt by lia. simpl. unfold file_byte. f_equal.
    replace (off + Z.of_nat i) with (off mod BSIZE + Z.of_nat i + off / BSIZE * BSIZE) by lia.
    rewrite Z.mod_add, Z.div_add by lia.
    rewrite (Z.mod_small (off mod BSIZE + Z.of_nat i)), (Z.div_small (off mod BSIZE + Z.of_nat i)) by lia.
    done.
  - rewrite lookup_seqZ_ge, lookup_seq_ge by lia. done.
Qed.
Opaque bsub.

(** ** Delivering bytes *)

Lemma wr_bytes_app m a l1 l2 :
  wr_bytes m a (l1 ++ l2) = wr_bytes (wr_bytes m a l1) (a + Z.of_nat (length l1)) l2.
Proof.
  revert m a. induction l1 as [|b l1 IH]; intros m a; simpl.
  - by rewrite Z.add_0_r.
  - rewrite IH. f_equal. lia.
Qed.

Definition deliver (user : bool) (dst : Z) (bs : list Z) (s : fstate) : fstate :=
  if user then setf_umem (wr_bytes (f_umem s) dst bs) s
  else setf_kmem (wr_bytes (f_kmem s) dst bs) s.

Lemma deliver_nil user dst s : deliver user dst [] s = s.
Proof. by destruct user, s. Qed.

Lemma deliver_app user dst l1 l2 s :
  deliver user dst (l1 ++ l2) s = deliver user (dst + Z.of_nat (length l1)) l2 (deliver user dst l1 s).
Proof. by destruct user; simpl; rewrite wr_bytes_app. Qed.

Lemma deliver_entry user dst bs s i ip : entry s i ip -> entry (deliver user dst bs s) i ip.
Proof. by destruct user. Qed.

Lemma deliver_proc user dst bs s : f_proc (deliver user dst bs s) = f_proc s.
Proof. by destruct user. Qed.

Lemma tstate_deliver user dst bs s0 ac d l hs s :
  tstate s0 ac d l hs s -> tstate (deliver user dst bs s0) ac d l hs (deliver user dst bs s).
Proof.
  intros [[order [B1 B2 B3]] (w & d' & bs' & g & ->) HD HH [T1 T2 T3 T4 T5 T6 T7]].
  destruct user; (split; [exists order; by split|by exists w, d', bs', g|done..|by split]).
Qed.

Section read.
Context `{im : Image} `{W : World} `{WO : !WorldOk W}.

(** The destination can take [n] bytes. *)
Definition writable (user : bool) (dst n : Z) : Prop :=
  0 <= dst /\ dst + n < 2 ^ 64 /\ (user = true -> forall k, 0 <= k < n -> u_mapped (dst + k) = true).

Lemma reachable_all a n :
  (forall k, 0 <= k < Z.of_nat n -> u_mapped (a + k) = true) -> reachable a n = n.
Proof.
  revert a. induction n as [|n IH]; intros a H; [done|]. simpl.
  rewrite <- (Z.add_0_r a) at 1. rewrite H by lia. f_equal. apply IH. intros k Hk.
  rewrite <- Z.add_assoc. apply H. lia.
Qed.

Lemma either_copyout_all user dst bs s Q :
  writable user dst (Z.of_nat (length bs)) ->
  Q 0 (deliver user dst bs s) -> wp (either_copyout user dst bs) Q s.
Proof.
  intros (_ & _ & Hm) HQ. unfold either_copyout. destruct user; [|by apply wp_bind, wp_modify, wp_ret].
  unfold wp, u_copyout. rewrite reachable_all by (by apply Hm). by rewrite Nat.eqb_refl, take_ge.
Qed.

(** ** Blocks of a file *)

(** Block [bn] of the file exists and can be read. *)
Definition readable (ac : acache) (d : disk_t) (hs : list (nat * Z)) (ip : inode) (bn : Z) : Prop :=
  let a := blk_of (content d ac) ip bn in
  0 <= bn < MAXFILE /\ a <> 0 /\ can_read ac a /\ not_held hs a /\
  (NDIRECT <= bn -> addr ip NDIRECT <> 0 /\ can_read ac (addr ip NDIRECT) /\
     not_held hs (addr ip NDIRECT)).

Lemma bmap_slot_mapped s0 ac d l hs s i ip k (Q : Z -> fstate -> Prop) :
  tstate s0 ac d l hs s -> entry s0 i ip -> addr ip k <> 0 -> Q (addr ip k) s ->
  wp (bmap_slot i k) Q s.
Proof.
  intros T Hi Ha HQ. unfold bmap_slot. apply wp_bind. eapply ts_geti; [exact T|done|].
  destruct (Z.eqb_spec (addr ip k) 0); [done|]. by apply wp_ret.
Qed.

Lemma bmap_mapped s0 ac d l hs s i ip bn (Q : Z -> fstate -> Prop) :
  tstate s0 ac d l hs s -> entry s0 i ip -> i_dev ip = ROOTDEV -> readable ac d hs ip bn ->
  (forall s', tstate s0 ac d l hs s' -> Q (blk_of (content d ac) ip bn) s') ->
  wp (bmap i bn) Q s.
Proof.
  intros T Hi Hdev (Hbn & Ha & Hcan & Hh & Hind) HQ. unfold bmap, blk_of in *.
  destruct (Z.ltb_spec bn NDIRECT). { eapply bmap_slot_mapped; [exact T|done|done|]. by apply HQ. }
  destruct Hind as (N1 & N2 & N3); [done|].
  unfold MAXFILE in Hbn. destruct (Z.ltb_spec (bn - NDIRECT) NINDIRECT); [|lia].
  destruct (ts_good _ _ _ _ _ _ T) as [G1 G2].
  apply wp_bind. eapply bmap_slot_mapped; [exact T|done|done|].
  apply wp_bind. eapply ts_geti; [exact T|done|]. rewrite Hdev.
  apply wp_bind. eapply ts_bread; [exact T|done|]. intros bp s1 T1.
  apply wp_bind. eapply ts_getb; [exact T1|apply list_elem_of_here|apply lookup_insert_eq|].
  intros x Hx _. rewrite Hx. cbn [ab_data]. rewrite (proj2 (Z.eqb_neq _ _) Ha).
  apply wp_bind, wp_ret, wp_bind.
  eapply ts_brelse_read; [exact T1|done|by apply G1|apply G2|done|].
  intros s2 T2. by apply wp_ret, HQ.
Qed.

(** ** The loop of [readi] *)

(** How many bytes [readi] moves for a request of [n] bytes at [off]. *)
Definition read_len (ip : inode) (off n : Z) : Z := Z.min n (i_size ip - off).

(** The request is well-formed and the blocks it touches are there. *)
Record readable_range (ac : acache) (d : disk_t) (hs : list (nat * Z)) (ip : inode)
    (user : bool) (dst off n : Z) : Prop := {
  rr_dev : i_dev ip = ROOTDEV;
  rr_off : 0 <= off;
  rr_n : 0 <= n;
  rr_end : off + n < 2 ^ 32;
  rr_dst : writable user dst n;
  rr_blocks : forall bn, off / BSIZE <= bn -> bn * BSIZE < off + n -> readable ac d hs ip bn
}.

Lemma readi_step_spec s0 ac d l hs s i ip user dst off n tot Q :
  entry s0 i ip -> readable_range ac d hs ip user dst off n -> 0 <= tot < n ->
  let view := content d ac in
  let m := Z.min (n - tot) (BSIZE - (off + tot) mod BSIZE) in
  tstate (deliver user dst (file_bytes view ip off tot) s0) ac d l hs s ->
  (forall s', tstate (deliver user dst (file_bytes view ip off (tot + m)) s0) ac d l hs s' ->
     Q (inl (tot + m, off + (tot + m), dst + (tot + m))) s') ->
  wp (readi_step i user n (tot, off + tot, dst + tot)) Q s.
Proof.
  intros Hi [Hdev Hoff Hn Hend (Hd0 & Hd1 & Hd2) Hblocks] Htot view m T HQ.
  assert (HB : 0 < BSIZE) by done. pose proof (Z.mod_pos_bound (off + tot) BSIZE HB).
  pose proof (Z.div_mod (off + tot) BSIZE ltac:(done)).
  unfold readi_step. rewrite (proj2 (Z.ltb_lt tot n)) by lia. cbn [negb].
  pose proof (deliver_entry user dst (file_bytes view ip off tot) s0 i ip Hi) as Hi1.
  apply wp_bind. eapply ts_geti; [exact T|exact Hi1|].
  assert (Hr : readable ac d hs ip ((off + tot) / BSIZE)).
  { apply Hblocks; [apply Z.div_le_mono; lia|lia]. }
  apply wp_bind. eapply bmap_mapped; [exact T|exact Hi1|done|done|]. intros s1 T1.
  destruct Hr as (_ & _ & Hcan & Hh & _). rewrite Hdev. fold view. fold view in Hcan, Hh.
  destruct (ts_good _ _ _ _ _ _ T1) as [G1 G2].
  apply wp_bind. eapply ts_bread; [exact T1|done|]. intros bp s2 T2. fold m.
  apply wp_bind. eapply ts_getb; [exact T2|apply list_elem_of_here|apply lookup_insert_eq|].
  intros x Hx _. rewrite Hx. cbn [ab_data]. fold view.
  rewrite <- file_bytes_block by lia.
  apply wp_bind, either_copyout_all.
  { rewrite length_file_bytes. split; [lia|]. split; [lia|]. intros Hu k Hk.
    rewrite <- Z.add_assoc. apply Hd2; [done|lia]. }
  apply (tstate_deliver user (dst + tot) (file_bytes view ip (off + tot) m)) in T2.
  replace (dst + tot) with (dst + Z.of_nat (length (file_bytes view ip off tot))) in T2 at 1
    by (rewrite length_file_bytes; lia).
  rewrite <- deliver_app, <- file_bytes_app in T2 by lia.
  change (0 =? -1) with false. apply wp_bind.
  rewrite deliver_proc, <- (deliver_proc user dst (file_bytes view ip off (tot + m))) in T2.
  eapply ts_brelse_read; [exact T2|done|by apply G1|apply G2|done|].
  intros s3 T3. apply wp_ret. rewrite !u64_small, u32_small by lia. rewrite <- !Z.add_assoc. by apply HQ.
Qed.

(** Blocks still to visit. *)
Definition rw_left (off n tot : Z) : nat :=
  if tot <? n then Z.to_nat ((off + n - 1) / BSIZE - (off + tot) / BSIZE + 1) else 0.

Lemma rw_left_step off n tot :
  0 <= off -> 0 <= tot < n ->
  (rw_left off n (tot + Z.min (n - tot) (BSIZE - (off + tot) mod BSIZE)) < rw_left off n tot)%nat.
Proof.
  intros Ho Ht. unfold rw_left. assert (HB : 0 < BSIZE) by done.
  pose proof (Z.mod_pos_bound (off + tot) BSIZE HB).
  pose proof (Z.div_mod (off + tot) BSIZE ltac:(done)).
  assert ((off + tot) / BSIZE <= (off + n - 1) / BSIZE) by (apply Z.div_le_mono; lia).
  rewrite (proj2 (Z.ltb_lt tot n)) by lia. case_match eqn:E; [|lia].
  apply Z.ltb_lt in E. rewrite Z.min_r in E |- * by lia.
  replace (off + (tot + (BSIZE - (off + tot) mod BSIZE))) with (((off + tot) / BSIZE + 1) * BSIZE) by lia.
  rewrite Z.div_mul by done.
  assert ((off + tot) / BSIZE + 1 <= (off + n - 1) / BSIZE).
  { apply Z.div_le_lower_bound; lia. }
  lia.
Qed.

Lemma rw_left_fuel off n : 0 <= off -> 0 <= n -> (rw_left off n 0 < rw_fuel n)%nat.
Proof.
  intros Ho Hn. unfold rw_left, rw_fuel. assert (HB : 0 < BSIZE) by done.
  pose proof (Z.div_pos n BSIZE Hn HB). case_match eqn:E; [|lia]. rewrite Z.add_0_r.
  pose proof (Z.div_mod off BSIZE ltac:(done)). pose proof (Z.mod_pos_bound off BSIZE HB).
  pose proof (Z.div_mod n BSIZE ltac:(done)). pose proof (Z.mod_pos_bound n BSIZE HB).
  assert ((off + n - 1) / BSIZE < off / BSIZE + n / BSIZE + 2).
  { apply Z.div_lt_upper_bound; lia. }
  lia.
Qed.

Lemma readi_loop s0 ac d l hs s i ip user dst off n Q :
  entry s0 i ip -> readable_range ac d hs ip user dst off n -> tstate s0 ac d l hs s ->
  (forall s', tstate (deliver user dst (file_bytes (content d ac) ip off n) s0) ac d l hs s' -> Q n s') ->
  wp (loop (rw_fuel n) (readi_step i user n) (0, off, dst)) Q s.
Proof.
  intros Hi HR T HQ. set (view := content d ac) in *. pose proof HR as [_ Hoff Hn _ _ _].
  apply (wp_loop _ (fun a t => exists tot, a = (tot, off + tot, dst + tot) /\ 0 <= tot <= n /\
      tstate (deliver user dst (file_bytes view ip off tot) s0) ac d l hs t)
    (fun a _ => rw_left off n a.1.1)).
  - intros ? t (tot & -> & Htot & Tt). destruct (decide (tot < n)) as [Hlt|Hge].
    + eapply readi_step_spec; [exact Hi|exact HR|lia|exact Tt|]. intros t' T'. split.
      * eexists. split; [reflexivity|]. split; [|exact T'].
        pose proof (Z.mod_pos_bound (off + tot) BSIZE eq_refl). lia.
      * cbn [fst]. apply (rw_left_step off n tot); [done|split; [apply Htot|done]].
    + assert (tot = n) as -> by lia. unfold readi_step. rewrite Z.ltb_irrefl. by apply wp_ret, HQ.
  - by apply rw_left_fuel.
  - exists 0. rewrite !Z.add_0_r. split; [done|]. split; [lia|]. unfold file_bytes. simpl.
    by rewrite deliver_nil.
Qed.

Lemma readi_spec s0 ac d l hs s i ip user dst off n :
  tstate s0 ac d l hs s -> entry s0 i ip -> 0 <= off < 2 ^ 32 -> 0 <= n < 2 ^ 32 ->
  0 <= i_size ip < 2 ^ 32 ->
  readable_range ac d hs ip user dst off (read_len ip off n) \/ i_size ip < off \/ 2 ^ 32 <= off + n ->
  wp (readi i user dst off n) (fun r s' =>
    if decide (i_size ip < off \/ 2 ^ 32 <= off + n) then r = 0 /\ s' = s
    else r = read_len ip off n /\
      tstate (deliver user dst (file_bytes (content d ac) ip off (read_len ip off n)) s0) ac d l hs s') s.
Proof.
  intros T Hi Hoff Hn Hsz HR. unfold readi. apply wp_bind. eapply ts_geti; [exact T|done|].
  destruct (decide (i_size ip < off \/ 2 ^ 32 <= off + n)) as [Hb|Hb].
  { assert (((i_size ip <? off) || (u32 (off + n) <? off)) = true) as ->; [|by apply wp_ret].
    destruct (Z.ltb_spec (i_size ip) off); [done|]. apply Z.ltb_lt. unfold u32.
    rewrite <- (Z_mod_plus_full _ (-1)), Z.mod_small; change (2 ^ 32) with 4294967296 in *; lia. }
  rewrite u32_small by lia. rewrite (proj2 (Z.ltb_ge (i_size ip) off)) by lia.
  rewrite (proj2 (Z.ltb_ge (off + n) off)) by lia. cbn [orb].
  destruct HR as [HR|HR]; [|lia].
  assert (Hlen : (if i_size ip <? off + n then u32 (i_size ip - off) else n) = read_len ip off n).
  { unfold read_len. destruct (Z.ltb_spec (i_size ip) (off + n)); rewrite ?u32_small by lia; lia. }
  rewrite Hlen. eapply readi_loop; [done|done|exact T|done].
Qed.

(** C10: [readi] reads the file.  A request that starts beyond the end of the
    file, or whose end overflows, moves nothing and returns 0.  Any other
    request for [n] bytes at [off] returns the number of bytes up to the end of
    the file, has put exactly the bytes of the file at those offsets, through
    the direct and the indirect blocks, into the destination (kernel or user
    memory), and has changed neither the disk, the transaction, the cache's
    contents nor anything else. *)
Theorem readi_reads_file s0 ac d l hs s i ip user dst off n :
  tstate s0 ac d l hs s -> entry s0 i ip -> 0 <= off < 2 ^ 32 -> 0 <= n < 2 ^ 32 ->
  0 <= i_size ip < 2 ^ 32 ->
  readable_range ac d hs ip user dst off (read_len ip off n) \/ i_size ip < off \/ 2 ^ 32 <= off + n ->
  wp (readi i user dst off n) (fun r s' =>
    if decide (i_size ip < off \/ 2 ^ 32 <= off + n) then r = 0 /\ s' = s
    else r = read_len ip off n /\
      tstate (deliver user dst (file_bytes (content d ac) ip off (read_len ip off n)) s0) ac d l hs s') s.
Proof. apply readi_spec. Qed.

End read.

(** Ten bytes across the boundary of the first two blocks. *)
Lemma readi_reads_file_witness :
  wp (readi (im := demo_image) (W := demo_world) 0 false 4096 1020 10) (fun r s' => r = 10 /\
    tstate (deliver false 4096 (file_bytes (content demo_alloc_disk ∅) demo_inode 1020 10) demo_inode_fs)
      ∅ demo_alloc_disk [] [] s') demo_inode_fs.
Proof.
  assert (HR : readable_range (W := demo_world) ∅ demo_alloc_disk [] demo_inode false 4096 1020 10).
  { split; [reflexivity|lia|lia|lia|split; [lia|split; [lia|discriminate]]|].
    intros bn H1 H2. change (1020 / BSIZE) with 0 in H1. change BSIZE with 1024 in H2.
    assert (bn = 0 \/ bn = 1) as [->| ->] by lia.
    all: split; [split; [lia|reflexivity]|]; split; [discriminate|]; split; [vm_compute; lia|].
    all: split; [apply demo_not_held|]; intros H3; change NDIRECT with 12 in H3; lia. }
  eapply wp_conseq.
  - apply (readi_reads_file (WO := demo_world_ok) demo_inode_fs ∅ demo_alloc_disk [] [] demo_inode_fs
      0 demo_inode false 4096 1020 10 demo_inode_tstate); [reflexivity|lia|lia| |by left].
    vm_compute. split; [discriminate|reflexivity].
  - intros r s' H. cbv beta in H.
    destruct (decide (i_size demo_inode < 1020 \/ 2 ^ 32 <= 1020 + 10)) as [Hb|_]; [|exact H].
    change (i_size demo_inode) with 3000 in Hb. lia.
Defined.
