(* ===== verification/FsFile.v ===== *)
(** * Well-formed files

    Which blocks a file owns and when a file system is well formed, over a view
    of the disk: the blocks of a file are data blocks marked in use, no block
    serves two purposes, and every block below the size is there.  The steps
    by which a file grows (a block for a direct slot, for the indirect block,
    for an entry of the indirect block, a write into a block of its own) keep
    all of this and touch nothing of other files. *)
From stdpp Require Import base gmap strings numbers option list.
From S2P Require Import Prelude Layout Machine Memory Kernel Demo FsState Block Sleeplock.
From S2P Require Import Bio BioLogic Log LogCrash LogOps Fs FsLogic FsAlloc FsInode FsRead.
Open Scope Z_scope.

Abbreviation view := (Z -> list Z).

(** ** Blocks of a file *)

(** The disk block of block [bn] of the file, 0 when there is none. *)
Definition fblk (V : view) (ip : inode) (bn : Z) : Z :=
  if (NDIRECT <=? bn) && (addr ip NDIRECT =? 0) then 0 else blk_of V ip bn.

Definition owns (V : view) (ip : inode) (b : Z) : Prop :=
  b <> 0 /\ (addr ip NDIRECT = b \/ exists bn, 0 <= bn < MAXFILE /\ fblk V ip bn = b).

Lemma fblk_direct V ip bn : bn < NDIRECT -> fblk V ip bn = addr ip bn.
Proof.
  intros H. unfold fblk, blk_of. rewrite (proj2 (Z.leb_gt _ _)) by lia. by rewrite (proj2 (Z.ltb_lt _ _)).
Qed.

Lemma fblk_indirect V ip bn : NDIRECT <= bn -> addr ip NDIRECT <> 0 ->
  fblk V ip bn = bld32 (V (addr ip NDIRECT)) (4 * (bn - NDIRECT)).
Proof.
  intros H Ha. unfold fblk, blk_of. rewrite (proj2 (Z.eqb_neq _ _)), andb_false_r by done.
  by rewrite (proj2 (Z.ltb_ge _ _)) by lia.
Qed.

Lemma fblk_none V ip bn : NDIRECT <= bn -> addr ip NDIRECT = 0 -> fblk V ip bn = 0.
Proof. intros H Ha. unfold fblk. rewrite Ha. by rewrite (proj2 (Z.leb_le _ _)). Qed.

Lemma fblk_blk_of V ip bn : fblk V ip bn <> 0 -> fblk V ip bn = blk_of V ip bn.
Proof. unfold fblk. by case_match. Qed.

Lemma fblk_ext V V' ip ip' bn :
  i_addrs ip' = i_addrs ip -> (NDIRECT <= bn -> addr ip NDIRECT <> 0 -> V' (addr ip NDIRECT) = V (addr ip NDIRECT)) ->
  fblk V' ip' bn = fblk V ip bn.
Proof.
  intros Ha Hv. assert (He : forall k, addr ip' k = addr ip k) by (intros k; unfold addr; by rewrite Ha).
  unfold fblk, blk_of. rewrite !He. destruct (Z.leb_spec NDIRECT bn), (Z.eqb_spec (addr ip NDIRECT) 0); simpl; try done.
  - rewrite Hv by done. done.
  - by rewrite (proj2 (Z.ltb_lt bn NDIRECT)).
  - by rewrite (proj2 (Z.ltb_lt bn NDIRECT)).
Qed.

Lemma addr_set k n ip j :
  0 <= k <= NDIRECT -> 0 <= j -> length (i_addrs ip) = Z.to_nat (NDIRECT + 1) ->
  addr (set_addr k n ip) j = if decide (j = k) then n else addr ip j.
Proof.
  intros Hk Hj Hl. unfold addr, set_addr. cbn [i_addrs seti_addrs]. rewrite !nth_lookup.
  change (Z.to_nat (NDIRECT + 1)) with 13%nat in Hl. change NDIRECT with 12 in Hk. case_decide as Hd.
  - subst j. by rewrite list_lookup_insert_eq by lia.
  - by rewrite list_lookup_insert_ne by lia.
Qed.

Section files.
Context (sb : superblock).

(** ** The file system *)

(** The first block after the free map. *)
Definition data_start : Z := sb_bmapstart sb + sb_size sb / BPB + 1.

Record sb_sane : Prop := {
  sn_map : 0 <= sb_bmapstart sb;
  sn_data : data_start <= sb_size sb;
  sn_size : sb_size sb < 2 ^ 31
}.

(** Whole blocks, and everything before the data marked in use. *)
Record fs_wf (V : view) : Prop := {
  fs_len : forall b, 0 <= b < sb_size sb -> length (V b) = Z.to_nat BSIZE;
  fs_meta : forall m, 0 <= m < data_start -> block_used V sb m = true
}.

Definition live (V : view) (b : Z) : Prop := data_start <= b < sb_size sb /\ block_used V sb b = true.

Record file_wf (V : view) (ip : inode) : Prop := {
  fw_addrs : length (i_addrs ip) = Z.to_nat (NDIRECT + 1);
  fw_blk : forall bn, 0 <= bn < MAXFILE -> fblk V ip bn <> 0 -> live V (fblk V ip bn);
  fw_ind : addr ip NDIRECT <> 0 -> live V (addr ip NDIRECT);
  fw_inj : forall bn bm, 0 <= bn < MAXFILE -> 0 <= bm < MAXFILE ->
    fblk V ip bn <> 0 -> fblk V ip bn = fblk V ip bm -> bn = bm;
  fw_apart : forall bn, 0 <= bn < MAXFILE -> addr ip NDIRECT <> 0 -> fblk V ip bn <> addr ip NDIRECT;
  fw_size : 0 <= i_size ip <= MAXFILE * BSIZE;
  fw_mapped : forall bn, 0 <= bn -> bn * BSIZE < i_size ip -> fblk V ip bn <> 0
}.

Lemma owns_live V ip b : file_wf V ip -> owns V ip b -> live V b.
Proof. intros F [Hn [<-|(bn & Hb & <-)]]; [by apply F|by apply F]. Qed.

Context (SN : sb_sane).

Lemma data_pos : 0 < data_start.
Proof.
  destruct SN as [H1 H2 H3]. unfold data_start in *. assert (0 <= sb_size sb \/ sb_size sb < 0) as [H|H] by lia.
  - pose proof (Z.div_pos (sb_size sb) BPB H eq_refl). lia.
  - exfalso. pose proof (Z.div_le_mono (-1) 0 BPB eq_refl). pose proof (Z.div_mod (sb_size sb) BPB ltac:(done)).
    pose proof (Z.mod_pos_bound (sb_size sb) BPB eq_refl). change BPB with 8192 in *. lia.
Qed.

Lemma low_range b : b < sb_bmapstart sb -> b < data_start /\ b < sb_size sb.
Proof.
  intros Hb. pose proof data_pos. destruct SN as [H1 H2 H3]. pose proof (Z.div_pos (sb_size sb) BPB ltac:(lia) eq_refl).
  unfold data_start in *. lia.
Qed.

Lemma sane_map : map_sane sb.
Proof. destruct SN as [H1 H2 H3]. unfold data_start in *. split; lia. Qed.

Lemma bblock_range m : 0 <= m < sb_size sb -> sb_bmapstart sb <= BBLOCK m sb < data_start /\ BBLOCK m sb < sb_size sb.
Proof.
  intros Hm. destruct SN as [H1 H2 H3]. unfold BBLOCK, data_start in *.
  pose proof (Z.div_pos m BPB ltac:(lia) eq_refl). pose proof (Z.div_le_mono m (sb_size sb) BPB eq_refl ltac:(lia)).
  rewrite u32_small by lia. lia.
Qed.

(** The free map is read from its blocks only. *)
Lemma used_ext V V' m : V' (BBLOCK m sb) = V (BBLOCK m sb) -> block_used V' sb m = block_used V sb m.
Proof. unfold block_used. by intros ->. Qed.

(** ** Free blocks *)

Definition free_count (V : view) : Z :=
  Z.of_nat (length (filter (fun m => block_used V sb m = false) (seqZ 0 (sb_size sb)))).

Lemma filter_used_ext V V' (l : list Z) :
  (forall m, m ∈ l -> block_used V' sb m = block_used V sb m) ->
  filter (fun m => block_used V' sb m = false) l = filter (fun m => block_used V sb m = false) l.
Proof.
  intros H. induction l as [|x l IH]; [done|]. rewrite !filter_cons.
  rewrite (H x) by (by left). rewrite IH; [done|]. intros m Hm. apply H. by right.
Qed.

Lemma free_count_ext V V' :
  (forall m, 0 <= m < sb_size sb -> block_used V' sb m = block_used V sb m) -> free_count V' = free_count V.
Proof.
  intros H. unfold free_count. rewrite (filter_used_ext V V'); [done|]. intros m Hm. apply elem_of_seqZ in Hm. apply H. lia.
Qed.

Lemma first_free V : 0 < free_count V ->
  exists n, 0 <= n < sb_size sb /\ block_used V sb n = false /\ forall m, 0 <= m < n -> block_used V sb m = true.
Proof.
  intros Hc. destruct (list_find (fun m => block_used V sb m = false) (seqZ 0 (sb_size sb))) as [[i n]|] eqn:E.
  - apply list_find_Some in E as (Hi & Hf & Hlt). apply lookup_seqZ in Hi as [-> Hi]. exists (0 + Z.of_nat i).
    split; [lia|]. split; [done|]. intros m Hm. destruct (block_used V sb m) eqn:Hu; [done|exfalso].
    apply (Hlt (Z.to_nat m) m); [apply lookup_seqZ; lia|lia|done].
  - apply list_find_None in E. exfalso. unfold free_count in Hc.
    assert (filter (fun m => block_used V sb m = false) (seqZ 0 (sb_size sb)) = []) as H0.
    { clear Hc. induction E as [|x l Hx _ IH]; [done|]. by rewrite filter_cons_False. }
    rewrite H0 in Hc. simpl in Hc. lia.
Qed.

(** ** Allocation of block [n] *)

Record alloc_view (V V' : view) (n : Z) : Prop := {
  av_n : 0 <= n < sb_size sb;
  av_free : block_used V sb n = false;
  av_zero : V' n = block0;
  av_used : forall m, 0 <= m < sb_size sb -> block_used V' sb m = if decide (m = n) then true else block_used V sb m;
  av_same : forall b, b <> n -> b <> BBLOCK n sb -> V' b = V b;
  av_len : length (V' (BBLOCK n sb)) = length (V (BBLOCK n sb))
}.

Lemma alloc_free_count V V' n : alloc_view V V' n -> free_count V = free_count V' + 1.
Proof.
  intros [Hn Hf _ Hu _ _]. unfold free_count. rewrite (seqZ_split 0 _ n) by lia. rewrite !filter_app, Z.add_0_l.
  rewrite filter_cons_True by done. rewrite filter_cons_False by (rewrite Hu by lia; by rewrite decide_True).
  rewrite !(filter_used_ext V V').
  - rewrite !length_app. simpl. lia.
  - intros m Hm. apply elem_of_seqZ in Hm. rewrite Hu by lia. by rewrite decide_False by lia.
  - intros m Hm. apply elem_of_seqZ in Hm. rewrite Hu by lia. by rewrite decide_False by lia.
Qed.

Lemma alloc_data V V' n : fs_wf V -> alloc_view V V' n -> data_start <= n < sb_size sb.
Proof.
  intros F A. destruct A as [Hn Hf _ _ _ _]. destruct (Z.le_gt_cases data_start n); [lia|].
  rewrite (fs_meta _ F) in Hf by lia. done.
Qed.

Lemma alloc_keeps V V' n b : fs_wf V -> alloc_view V V' n -> live V b -> V' b = V b.
Proof.
  intros F A [Hb Hu]. pose proof (bblock_range n (av_n _ _ _ A)). apply (av_same _ _ _ A); [|lia].
  intros ->. rewrite (av_free _ _ _ A) in Hu. done.
Qed.

Lemma alloc_live V V' n b : alloc_view V V' n -> live V b -> live V' b.
Proof.
  intros A [Hb Hu]. split; [done|]. pose proof data_pos. rewrite (av_used _ _ _ A) by lia. by case_decide.
Qed.

Lemma alloc_new_live V V' n : fs_wf V -> alloc_view V V' n -> live V' n.
Proof.
  intros F A. split; [by eapply alloc_data|]. rewrite (av_used _ _ _ A) by apply A. by rewrite decide_True.
Qed.

Lemma alloc_fs_wf V V' n : fs_wf V -> alloc_view V V' n -> fs_wf V'.
Proof.
  intros F A. split.
  - intros b Hb. destruct (decide (b = n)) as [->|]; [by rewrite (av_zero _ _ _ A)|].
    destruct (decide (b = BBLOCK n sb)) as [->|]; [rewrite (av_len _ _ _ A); by apply F|].
    rewrite (av_same _ _ _ A) by done. by apply F.
  - intros m Hm. destruct SN. rewrite (av_used _ _ _ A) by lia. rewrite (fs_meta _ F) by done. by case_decide.
Qed.

(** ** Growth of a file *)

(** From [V] and [ip] to [V'] and [ip'] the file got the blocks [new], and
    nothing of any other file has changed. *)
Record grows (V : view) (ip : inode) (V' : view) (ip' : inode) (new : list Z) : Prop := {
  gw_fs : fs_wf V';
  gw_file : file_wf V' ip';
  gw_ip : ip' = seti_addrs (i_addrs ip') ip;
  gw_blk : forall bn, 0 <= bn < MAXFILE -> fblk V ip bn <> 0 -> fblk V' ip' bn = fblk V ip bn;
  gw_ind : addr ip NDIRECT <> 0 -> addr ip' NDIRECT = addr ip NDIRECT;
  gw_used : forall m, 0 <= m < sb_size sb -> block_used V' sb m = block_used V sb m || bool_decide (m ∈ new);
  gw_new : forall m, m ∈ new -> block_used V sb m = false /\ owns V' ip' m;
  gw_own : forall b, owns V' ip' b -> owns V ip b \/ b ∈ new;
  gw_other : forall b, live V b -> ~ owns V ip b -> V' b = V b;
  gw_low : forall b, 0 <= b < sb_bmapstart sb -> V' b = V b;
  gw_free : free_count V = free_count V' + Z.of_nat (length new)
}.

Lemma grows_owns V ip V' ip' new b : grows V ip V' ip' new -> owns V ip b -> owns V' ip' b.
Proof.
  intros G [Hn [<-|(bn & Hb & <-)]]; (split; [done|]).
  - left. by apply (gw_ind _ _ _ _ _ G).
  - right. exists bn. split; [done|]. by apply (gw_blk _ _ _ _ _ G).
Qed.

Lemma grows_live V ip V' ip' new b : grows V ip V' ip' new -> live V b -> live V' b.
Proof.
  intros G [Hb Hu]. split; [done|]. pose proof data_pos. rewrite (gw_used _ _ _ _ _ G) by lia. by rewrite Hu.
Qed.

Lemma grows_refl V ip : fs_wf V -> file_wf V ip -> grows V ip V ip [].
Proof.
  intros F W. split; try done.
  - by destruct ip.
  - intros m _. rewrite bool_decide_eq_false_2 by (by intros ?%elem_of_nil). by rewrite orb_false_r.
  - by intros m ?%elem_of_nil.
  - auto.
  - simpl. lia.
Qed.

Lemma grows_trans V ip V1 ip1 V2 ip2 n1 n2 :
  grows V ip V1 ip1 n1 -> grows V1 ip1 V2 ip2 n2 -> grows V ip V2 ip2 (n1 ++ n2).
Proof.
  intros G1 G2. pose proof data_pos. split.
  - apply G2.
  - apply G2.
  - rewrite (gw_ip _ _ _ _ _ G2), (gw_ip _ _ _ _ _ G1) at 1. done.
  - intros bn Hb Hn. pose proof (gw_blk _ _ _ _ _ G1 bn Hb Hn) as He. rewrite <- He. apply (gw_blk _ _ _ _ _ G2); [done|congruence].
  - intros Hn. pose proof (gw_ind _ _ _ _ _ G1 Hn) as He. rewrite <- He. apply (gw_ind _ _ _ _ _ G2). congruence.
  - intros m Hm. rewrite (gw_used _ _ _ _ _ G2), (gw_used _ _ _ _ _ G1), <- orb_assoc by done. f_equal.
    rewrite <- bool_decide_or. apply bool_decide_ext. by rewrite elem_of_app.
  - intros m [Hm|Hm]%elem_of_app.
    + destruct (gw_new _ _ _ _ _ G1 m Hm). split; [done|]. by eapply grows_owns.
    + destruct (gw_new _ _ _ _ _ G2 m Hm) as [Hu Ho]. split; [|done].
      destruct (owns_live _ _ _ (gw_file _ _ _ _ _ G2) Ho) as [Hr _].
      rewrite (gw_used _ _ _ _ _ G1) in Hu by lia. by apply orb_false_iff in Hu as [? _].
  - intros b Hb. rewrite elem_of_app. apply (gw_own _ _ _ _ _ G2) in Hb as [Hb|Hb]; [|tauto].
    apply (gw_own _ _ _ _ _ G1) in Hb. tauto.
  - intros b Hu Hn. rewrite (gw_other _ _ _ _ _ G2 b), (gw_other _ _ _ _ _ G1 b); try done; [by eapply grows_live|].
    intros Ho. apply (gw_own _ _ _ _ _ G1) in Ho as [Ho|Ho]; [done|].
    destruct (gw_new _ _ _ _ _ G1 b Ho) as [Hu' _]. destruct Hu as [_ Hu]. congruence.
  - intros b Hb. rewrite (gw_low _ _ _ _ _ G2 b), (gw_low _ _ _ _ _ G1 b); done.
  - rewrite (gw_free _ _ _ _ _ G1), (gw_free _ _ _ _ _ G2), length_app. lia.
Qed.

(** The file gets block [n] as its block [bn]. *)
Lemma file_wf_block V V' ip ip' bn n :
  file_wf V ip -> length (i_addrs ip') = length (i_addrs ip) -> i_size ip' = i_size ip ->
  addr ip' NDIRECT = addr ip NDIRECT -> (forall b, live V b -> live V' b) -> live V' n -> block_used V sb n = false ->
  0 <= bn < MAXFILE -> fblk V ip bn = 0 ->
  (forall bm, 0 <= bm < MAXFILE -> fblk V' ip' bm = if decide (bm = bn) then n else fblk V ip bm) ->
  file_wf V' ip'.
Proof.
  intros F Hl Hsz Hind Hmono Hn Hf Hbn Hz He. pose proof data_pos as HP.
  assert (Hfresh : forall b, live V b -> b <> n) by (intros b [_ Hu] ->; congruence).
  assert (Hn0 : n <> 0) by (destruct Hn; lia).
  split.
  - rewrite Hl. apply F.
  - intros bm Hb. rewrite He by done. case_decide; [done|]. intros Hnz. by apply Hmono, F.
  - rewrite Hind. intros Hnz. by apply Hmono, F.
  - intros bm bk H1 H2. rewrite !He by done. do 2 case_decide; try congruence.
    + intros _ Hk. exfalso. apply (Hfresh (fblk V ip bk)); [apply F; [done|congruence]|done].
    + intros Hk1 Hk2. exfalso. apply (Hfresh (fblk V ip bm)); [by apply F|done].
    + by apply F.
  - intros bm Hb. rewrite Hind, He by done. intros Hnz. case_decide; [|by apply F].
    intros E. apply (Hfresh (addr ip NDIRECT)); [by apply F|done].
  - rewrite Hsz. apply F.
  - intros bm H0 Hs. rewrite Hsz in Hs. pose proof (fw_size _ _ F). rewrite He by (change BSIZE with 1024 in *; lia).
    case_decide; [done|]. by apply F.
Qed.

(** The file gets block [n] as its indirect block. *)
Lemma file_wf_indirect V V' ip ip' n :
  file_wf V ip -> length (i_addrs ip') = length (i_addrs ip) -> i_size ip' = i_size ip ->
  addr ip' NDIRECT = n -> (forall b, live V b -> live V' b) -> live V' n -> block_used V sb n = false ->
  (forall bm, 0 <= bm < MAXFILE -> fblk V' ip' bm = fblk V ip bm) -> file_wf V' ip'.
Proof.
  intros F Hl Hsz Hind Hmono Hn Hf He. split.
  - rewrite Hl. apply F.
  - intros bm Hb. rewrite He by done. intros Hnz. by apply Hmono, F.
  - by rewrite Hind.
  - intros bm bk H1 H2. rewrite !He by done. by apply F.
  - intros bm Hb _. rewrite He, Hind by done. intros E. destruct (decide (fblk V ip bm = 0)) as [E0|Hnz].
    + pose proof data_pos. destruct Hn. lia.
    + destruct (fw_blk _ _ F bm Hb Hnz) as [_ Hu]. congruence.
  - rewrite Hsz. apply F.
  - intros bm H0 Hs. rewrite Hsz in Hs. pose proof (fw_size _ _ F). rewrite He by (change BSIZE with 1024 in *; lia).
    by apply F.
Qed.

Lemma map_not_owned V ip m : file_wf V ip -> 0 <= m < sb_size sb -> ~ owns V ip (BBLOCK m sb).
Proof. intros F Hm Ho. apply (owns_live _ _ _ F) in Ho as [Ho _]. pose proof (bblock_range m Hm). lia. Qed.

Lemma low_not_owned V ip b : file_wf V ip -> 0 <= b < sb_bmapstart sb -> ~ owns V ip b.
Proof.
  intros F Hb Ho. apply (owns_live _ _ _ F) in Ho as [Ho _]. pose proof (low_range b). lia.
Qed.

(** One block more, possibly entered into a block of the file. *)
Lemma grows_one V V1 V' ip ip' n :
  fs_wf V -> file_wf V ip -> alloc_view V V1 n -> (forall b, ~ owns V ip b -> V' b = V1 b) ->
  fs_wf V' -> file_wf V' ip' -> ip' = seti_addrs (i_addrs ip') ip ->
  (forall bn, 0 <= bn < MAXFILE -> fblk V ip bn <> 0 -> fblk V' ip' bn = fblk V ip bn) ->
  (addr ip NDIRECT <> 0 -> addr ip' NDIRECT = addr ip NDIRECT) ->
  owns V' ip' n -> (forall b, owns V' ip' b -> owns V ip b \/ b = n) -> grows V ip V' ip' [n].
Proof.
  intros F W A Hv F' W' Hip Hblk Hind Hn Hown.
  assert (Hu : forall m, 0 <= m < sb_size sb -> block_used V' sb m = if decide (m = n) then true else block_used V sb m).
  { intros m Hm. rewrite <- (av_used _ _ _ A) by done. apply used_ext, Hv. by apply map_not_owned. }
  split; try done.
  - intros m Hm. rewrite Hu by done. case_decide as Hd.
    + rewrite bool_decide_eq_true_2 by (by apply list_elem_of_singleton). by rewrite orb_true_r.
    + rewrite bool_decide_eq_false_2 by (by intros ?%list_elem_of_singleton). by rewrite orb_false_r.
  - intros m ->%list_elem_of_singleton. split; [apply A|done].
  - intros b Hb. rewrite list_elem_of_singleton. by apply Hown.
  - intros b Hb Ho. rewrite Hv by done. by eapply alloc_keeps.
  - intros b Hb. rewrite Hv by (by apply low_not_owned). apply (av_same _ _ _ A).
    + pose proof (alloc_data _ _ _ F A). pose proof (low_range b). lia.
    + pose proof (bblock_range n (av_n _ _ _ A)). lia.
  - rewrite (alloc_free_count _ _ _ A). simpl. rewrite (free_count_ext V1 V'); [lia|].
    intros m Hm. rewrite Hu, (av_used _ _ _ A) by done. done.
Qed.

(** The blocks of the file stay the same otherwise. *)
Definition same_blocks (V : view) (ip : inode) (V' : view) (ip' : inode) (bn n : Z) : Prop :=
  forall bm, 0 <= bm < MAXFILE -> fblk V' ip' bm = if decide (bm = bn) then n else fblk V ip bm.

Lemma same_blocks_own V ip V' ip' bn n b :
  same_blocks V ip V' ip' bn n -> addr ip' NDIRECT = addr ip NDIRECT -> owns V' ip' b -> owns V ip b \/ b = n.
Proof.
  intros Hs Hi [Hn [<-|(bm & Hb & <-)]].
  - left. rewrite Hi in *. split; [done|]. by left.
  - rewrite Hs in * by done. case_decide; [by right|]. left. split; [done|]. right. by exists bm.
Qed.

Lemma set_addr_eq k n ip : set_addr k n ip = seti_addrs (i_addrs (set_addr k n ip)) ip.
Proof. done. Qed.

Lemma grow_direct V V' ip k n :
  fs_wf V -> file_wf V ip -> alloc_view V V' n -> 0 <= k < NDIRECT -> addr ip k = 0 ->
  grows V ip V' (set_addr k n ip) [n] /\ same_blocks V ip V' (set_addr k n ip) k n.
Proof.
  intros F W A Hk Hz. pose proof (fw_addrs _ _ W) as Hl. assert (HM : NDIRECT < MAXFILE) by done.
  assert (Hi : addr (set_addr k n ip) NDIRECT = addr ip NDIRECT).
  { rewrite addr_set by (done || lia). by rewrite decide_False by lia. }
  assert (Hs : same_blocks V ip V' (set_addr k n ip) k n).
  { intros bm Hb. destruct (Z.lt_ge_cases bm NDIRECT).
    - rewrite !fblk_direct, addr_set by (done || lia). done.
    - rewrite decide_False by lia. destruct (decide (addr ip NDIRECT = 0)).
      + rewrite !fblk_none by (done || congruence). done.
      + rewrite !fblk_indirect, Hi by (done || congruence). by rewrite (alloc_keeps V V' n) by (done || by apply W). }
  assert (W' : file_wf V' (set_addr k n ip)).
  { apply (file_wf_block V V' ip _ k n); try done; [apply length_insert|by intros b; eapply alloc_live
      |by eapply alloc_new_live|apply A|lia|by rewrite fblk_direct by lia]. }
  assert (Ho : owns V' (set_addr k n ip) n).
  { split; [pose proof (alloc_data _ _ _ F A); pose proof data_pos; lia|]. right. exists k. split; [lia|].
    rewrite Hs by lia. by rewrite decide_True. }
  split; [|done]. apply (grows_one V V'); try done; [by eapply alloc_fs_wf| |intros b; by eapply same_blocks_own].
  intros bm Hb Hn. rewrite Hs by done. rewrite decide_False; [done|]. intros ->. by rewrite fblk_direct in Hn by lia.
Qed.

Lemma nth_block0 i : nth i block0 0 = 0.
Proof.
  rewrite nth_lookup. unfold block0. destruct (replicate 1024 0 !! _) eqn:E; [|done]. by apply lookup_replicate in E as [-> _].
Qed.

#[local] Transparent bsub.
Lemma bsub_block0 o n : bsub block0 o n = replicate n 0.
Proof.
  unfold bsub. apply list_eq. intros i. rewrite list_lookup_fmap. destruct (decide (i < n)%nat).
  - rewrite lookup_seq_lt, lookup_replicate_2 by done. exact (f_equal Some (nth_block0 _)).
  - rewrite lookup_seq_ge, lookup_ge_None_2; [done|rewrite length_replicate; lia|lia].
Qed.
#[local] Opaque bsub.

Lemma bld32_block0 o : bld32 block0 o = 0.
Proof. unfold bld. by rewrite bsub_block0. Qed.

Lemma grow_indirect V V' ip n :
  fs_wf V -> file_wf V ip -> alloc_view V V' n -> addr ip NDIRECT = 0 ->
  grows V ip V' (set_addr NDIRECT n ip) [n] /\
  (forall bm, 0 <= bm < MAXFILE -> fblk V' (set_addr NDIRECT n ip) bm = fblk V ip bm).
Proof.
  intros F W A Hz. pose proof (fw_addrs _ _ W) as Hl. set (ip' := set_addr NDIRECT n ip).
  assert (Hi : addr ip' NDIRECT = n) by (unfold ip'; rewrite addr_set by done; by rewrite decide_True).
  assert (Hn : n <> 0) by (pose proof (alloc_data _ _ _ F A); pose proof data_pos; lia).
  assert (Hs : forall bm, 0 <= bm < MAXFILE -> fblk V' ip' bm = fblk V ip bm).
  { intros bm Hb. destruct (Z.lt_ge_cases bm NDIRECT).
    - rewrite !fblk_direct by done. unfold ip'. rewrite addr_set by (done || lia). by rewrite decide_False by lia.
    - rewrite (fblk_none V), fblk_indirect by (done || congruence). by rewrite Hi, (av_zero _ _ _ A), bld32_block0. }
  assert (W' : file_wf V' ip').
  { apply (file_wf_indirect V V' ip _ n); try done; [apply length_insert|by intros b; eapply alloc_live
      |by eapply alloc_new_live|apply A]. }
  split; [|done]. apply (grows_one V V'); try done.
  - by eapply alloc_fs_wf.
  - intros bm Hb _. by apply Hs.
  - split; [done|by left].
  - intros b [Hb [E|(bm & Hbm & <-)]]; [right; congruence|]. left. rewrite Hs in * by done. split; [done|]. right. by exists bm.
Qed.

(** [V'] is [V] with block [b] set to [v]. *)
Definition is_put (V : view) (b : Z) (v : list Z) (V' : view) : Prop :=
  forall k, V' k = if decide (b = k) then v else V k.

Lemma put_eq V b v V' : is_put V b v V' -> V' b = v.
Proof. intros P. by rewrite P, decide_True. Qed.
Lemma put_ne V b v V' k : is_put V b v V' -> k <> b -> V' k = V k.
Proof. intros P H. by rewrite P, decide_False. Qed.

Lemma put_used V b v V' m : is_put V b v V' -> data_start <= b -> 0 <= m < sb_size sb ->
  block_used V' sb m = block_used V sb m.
Proof. intros P Hb Hm. apply used_ext, (put_ne _ _ _ _ _ P). pose proof (bblock_range m Hm). lia. Qed.

Lemma put_fs_wf V b v V' : is_put V b v V' -> fs_wf V -> data_start <= b < sb_size sb -> length v = length (V b) -> fs_wf V'.
Proof.
  intros P F Hb Hv. pose proof data_pos. split.
  - intros k Hk. rewrite P. case_decide; [subst; rewrite Hv|]; by apply F.
  - intros m Hm. destruct SN. rewrite (put_used V b v) by (done || lia). by apply F.
Qed.

Lemma put_live V b v V' k : is_put V b v V' -> data_start <= b -> live V k -> live V' k.
Proof. intros P Hb [Hk Hu]. split; [done|]. pose proof data_pos. by rewrite (put_used V b v) by (done || lia). Qed.

(** The number of block [n] is entered into the indirect block. *)
Lemma grow_entry V V1 V' ip bn n :
  let ind := addr ip NDIRECT in is_put V1 ind (bst32 (V1 ind) (4 * (bn - NDIRECT)) n) V' ->
  fs_wf V -> file_wf V ip -> alloc_view V V1 n -> ind <> 0 -> NDIRECT <= bn < MAXFILE -> fblk V ip bn = 0 ->
  grows V ip V' ip [n] /\ same_blocks V ip V' ip bn n.
Proof.
  intros ind P F W A Hi Hbn Hz. assert (0 <= NDIRECT) by done. pose proof data_pos as HP. pose proof (alloc_data _ _ _ F A) as Hn.
  pose proof (fw_ind _ _ W Hi) as Hiu. fold ind in Hiu. pose proof (proj1 Hiu) as Hir.
  assert (Hni : n <> ind) by (intros ->; destruct Hiu as [_ Hu]; rewrite (av_free _ _ _ A) in Hu; done).
  assert (F1 : fs_wf V1) by (by eapply alloc_fs_wf).
  assert (Hlen : length (V1 ind) = 1024%nat) by (apply (fs_len _ F1); lia).
  assert (Hs : same_blocks V ip V' ip bn n).
  { intros bm Hb. destruct (Z.lt_ge_cases bm NDIRECT).
    - rewrite !fblk_direct by done. by rewrite decide_False by lia.
    - rewrite !fblk_indirect by done. fold ind. rewrite (put_eq _ _ _ _ P).
      unfold MAXFILE, NINDIRECT in *. change BSIZE with 1024 in *. change (1024 / 4) with 256 in *.
      destruct SN. case_decide as Hd.
      + subst bm. apply bld32_bst32; rewrite ?Hlen; lia.
      + rewrite bld_bst_disj by (rewrite ?Hlen; lia). by rewrite (alloc_keeps V V1 n). }
  assert (Hmono : forall b, live V b -> live V' b).
  { intros b Hb. apply (put_live _ _ _ _ _ P); [lia|]. by eapply alloc_live. }
  assert (Hn' : live V' n) by (apply (put_live _ _ _ _ _ P); [lia|]; by apply (alloc_new_live V V1 n)).
  assert (W' : file_wf V' ip) by (apply (file_wf_block V V' ip ip bn n); try done; [apply A|lia]).
  split; [|done]. apply (grows_one V V1); try done.
  - intros b Hb. apply (put_ne _ _ _ _ _ P). intros ->. apply Hb. split; [done|by left].
  - apply (put_fs_wf _ _ _ _ P); [done|lia|apply length_bst].
  - by destruct ip.
  - intros bm Hb Hnz. rewrite Hs by done. rewrite decide_False; [done|]. congruence.
  - split; [lia|]. right. exists bn. split; [lia|]. rewrite Hs by lia. by rewrite decide_True.
  - intros b. by eapply same_blocks_own.
Qed.

(** The blocks of the file are the same. *)
Lemma file_wf_same V V' ip ip' :
  file_wf V ip -> i_addrs ip' = i_addrs ip -> (forall bn, 0 <= bn < MAXFILE -> fblk V' ip' bn = fblk V ip bn) ->
  (forall b, live V b -> live V' b) -> 0 <= i_size ip' <= MAXFILE * BSIZE ->
  (forall bn, 0 <= bn -> bn * BSIZE < i_size ip' -> fblk V ip bn <> 0) -> file_wf V' ip'.
Proof.
  intros W Ha Hs Hu Hsz Hm. assert (Hi : addr ip' NDIRECT = addr ip NDIRECT) by (unfold addr; by rewrite Ha).
  split; rewrite ?Hi.
  - rewrite Ha. apply W.
  - intros bm Hb. rewrite Hs by done. intros H0. apply Hu. by apply W.
  - intros H0. apply Hu. by apply W.
  - intros bm bk H1 H2. rewrite !Hs by done. by apply W.
  - intros bm Hb. rewrite Hs by done. by apply W.
  - done.
  - intros bm H0 H1. rewrite Hs by (change BSIZE with 1024 in *; lia). by apply Hm.
Qed.

(** A write into block [bn] of the file. *)
Lemma grow_data V V' ip bn v :
  is_put V (fblk V ip bn) v V' -> fs_wf V -> file_wf V ip -> 0 <= bn < MAXFILE -> fblk V ip bn <> 0 -> length v = length (V (fblk V ip bn)) ->
  grows V ip V' ip [] /\ forall bm, 0 <= bm < MAXFILE -> fblk V' ip bm = fblk V ip bm.
Proof.
  intros P F W Hbn Hnz Hv. pose proof data_pos as HP. destruct (fw_blk _ _ W bn Hbn Hnz) as [Hr _].
  assert (Hs : forall bm, 0 <= bm < MAXFILE -> fblk V' ip bm = fblk V ip bm).
  { intros bm Hb. apply fblk_ext; [done|]. intros _ Hi. apply (put_ne _ _ _ _ _ P).
    intros E. symmetry in E. revert E. by apply W. }
  assert (Hu : forall m, 0 <= m < sb_size sb -> block_used V' sb m = block_used V sb m).
  { intros m Hm. apply (put_used _ _ _ _ _ P); [lia|done]. }
  assert (Ho : forall b, owns V' ip b <-> owns V ip b).
  { intros b. unfold owns. apply and_iff_compat_l, or_iff_compat_l.
    split; intros (bm & Hb & <-); exists bm; (split; [done|]); by rewrite Hs. }
  split; [|done]. split; try done.
  - by apply (put_fs_wf _ _ _ _ P).
  - apply (file_wf_same V V' ip ip); try done; [|apply W|apply W]. intros b. apply (put_live _ _ _ _ _ P). lia.
  - by destruct ip.
  - intros bm Hb _. by apply Hs.
  - intros m Hm. rewrite Hu by done. rewrite bool_decide_eq_false_2 by (by intros ?%elem_of_nil). by rewrite orb_false_r.
  - by intros m ?%elem_of_nil.
  - intros b Hb. left. by apply Ho.
  - intros b _ Hb. apply (put_ne _ _ _ _ _ P). intros ->. apply Hb. split; [done|]. right. by exists bn.
  - intros b Hb. apply (put_ne _ _ _ _ _ P). intros ->. apply (low_not_owned V ip (fblk V ip bn)); [done|done|].
    split; [done|]. right. by exists bn.
  - rewrite (free_count_ext V V' Hu). simpl. lia.
Qed.

End files.
