(* ===== verification/FsWrite.v ===== *)
(** * Writing files

    [bmap] on any block of a file, which may allocate it and the indirect
    block, and [writei]: the file gets the bytes, every other file keeps its
    own, and the number of blocks in the transaction is bounded by what
    [filewrite] reserves. *)
From stdpp Require Import base gmap strings numbers option list.
From S2P Require Import Prelude Layout Machine Memory Kernel Demo FsState Block Sleeplock.
From S2P Require Import Bio BioLogic Log LogCrash LogOps Fs FsLogic FsAlloc FsInode FsRead FsFile.
Open Scope Z_scope.

Section write.
Context `{im : Image} `{W : World} `{WO : !WorldOk W}.
Context (B : Z).

(** ** The cache and the log have room *)

(** Nobody but the code holds a buffer. *)
Definition calm (ac : acache) (hs : list (nat * Z)) : Prop :=
  forall b a, ac !! b = Some a -> not_held hs b -> ab_held a = None.

(** [c] blocks more fit in a transaction of at most [B], and one buffer on
    top. *)
Definition room (s0 : fstate) (ac : acache) (l : list Z) (c : Z) : Prop :=
  1 <= lg_outstanding (f_log s0) /\ B <= LOGSIZE /\ B <= lg_size (f_log s0) - 1 /\
  Z.of_nat (length l) + c <= B /\ Z.of_nat (size ac) + c + 1 <= NBUF.

Lemma room_le s0 ac l c c' : room s0 ac l c -> c' <= c -> room s0 ac l c'.
Proof. unfold room. lia. Qed.

Lemma room_log s0 ac l c : room s0 ac l c -> 1 <= c -> log_room s0 l.
Proof. intros (H1 & H2 & H3 & H4 & _) Hc. split; [done|]. lia. Qed.

Lemma logged_in b l : b ∈ l -> logged_add b l = l.
Proof. intros H. unfold logged_add. by rewrite decide_True. Qed.

Lemma elem_logged b l : b ∈ logged_add b l.
Proof. unfold logged_add. case_decide; [done|]. apply elem_of_app. right. by apply list_elem_of_singleton. Qed.

Lemma elem_logged_mono x b l : x ∈ l -> x ∈ logged_add b l.
Proof. intros H. unfold logged_add. case_decide; [done|]. apply elem_of_app. by left. Qed.

Lemma room_put s0 ac l c b v : room s0 ac l (c + 1) -> room s0 (put_blk l b v ac) (logged_add b l) c.
Proof.
  unfold room. pose proof (length_logged_add s0 b l). pose proof (size_put_blk s0 l b v ac). lia.
Qed.

Lemma room_put_in s0 ac l c b v :
  room s0 ac l c -> b ∈ l -> is_Some (ac !! b) -> room s0 (put_blk l b v ac) (logged_add b l) c.
Proof.
  intros H Hb [a Ha]. rewrite logged_in by done. unfold room, put_blk in *.
  by rewrite map_size_insert, Ha.
Qed.

Lemma calm_put ac l b v hs : calm ac hs -> calm (put_blk l b v ac) hs.
Proof.
  intros C k a. unfold put_blk. rewrite lookup_insert. case_decide; [by intros [= <-]|]. apply C.
Qed.

Lemma calm_acquire ac d pid b bp hs : calm ac hs -> calm (acquire_blk d pid b ac) ((bp, b) :: hs).
Proof.
  intros C k a. unfold acquire_blk. rewrite lookup_insert. case_decide as Hd.
  - subst. intros _ Hn. exfalso. apply (Hn (bp, k)); [by left|done].
  - intros Ha Hn. apply (C k a Ha). intros p Hp. apply Hn. by right.
Qed.

Lemma calm_can_read ac hs b : calm ac hs -> not_held hs b -> Z.of_nat (size ac) < NBUF -> can_read ac b.
Proof.
  intros C Hn Hs. unfold can_read. destruct (ac !! b) eqn:E; [by apply (C b)|]. unfold HEAD. lia.
Qed.

Lemma not_held_nil b : not_held [] b.
Proof. by intros p ?%elem_of_nil. Qed.

Lemma content_acquire d pid b ac k : content d (acquire_blk d pid b ac) k = content d ac k.
Proof. unfold content, acquire_blk. rewrite lookup_insert. case_decide; [by subst|done]. Qed.

Lemma size_acquire d pid b ac : (size (acquire_blk d pid b ac) <= S (size ac))%nat.
Proof. unfold acquire_blk. rewrite map_size_insert. destruct (ac !! b); simpl; lia. Qed.

(** ** Allocation *)

(** A free block can be allocated while buffers of blocks in use are held. *)
Lemma can_allocate s0 ac d l hs :
  let sb := f_sb s0 in let V := content d ac in
  sb_sane sb -> fs_wf sb V -> calm ac hs -> (forall p, p ∈ hs -> live sb V p.2) ->
  1 <= lg_outstanding (f_log s0) -> Z.of_nat (length l) + 2 <= LOGSIZE ->
  Z.of_nat (length l) + 2 <= lg_size (f_log s0) - 1 -> Z.of_nat (size ac) + 2 <= NBUF ->
  0 < free_count sb V -> exists n, allocable s0 ac d l hs n.
Proof.
  intros sb V SN F C Hhs Ho Hl1 Hl2 Hs Hf. destruct (first_free sb V Hf) as (n & Hn & Hfree & Hfirst).
  assert (Hdn : data_start sb <= n).
  { destruct (Z.le_gt_cases (data_start sb) n); [done|]. rewrite (fs_meta _ _ F) in Hfree by lia. done. }
  assert (Hmap : forall m, 0 <= m < sb_size sb -> not_held hs (BBLOCK m sb)).
  { intros m Hm p Hp E. destruct (Hhs p Hp) as [Hr _]. pose proof (bblock_range sb SN m Hm). lia. }
  assert (Hheld : not_held hs n).
  { intros p Hp <-. destruct (Hhs p Hp) as [_ Hu]. congruence. }
  pose proof (sn_map _ SN) as S1. pose proof (sn_data _ SN) as S2. pose proof (sn_size _ SN) as S3. exists n. split; try done.
  - split; [done|lia].
  - intros m Hm. split; [|apply Hmap; lia]. eapply calm_can_read; [done|apply Hmap; lia|lia].
  - fold sb. pose proof (bblock_range sb SN n Hn). lia.
  - intros m Hm. fold sb. fold sb in Hm. pose proof (bblock_range sb SN m Hm). lia.
  - destruct (ac !! n) eqn:E; [by apply (C n)|]. unfold HEAD. lia.
  - split_and!; [done|lia|lia].
Qed.

Lemma alloc_ac_view s0 ac d l hs n :
  let sb := f_sb s0 in sb_sane sb -> fs_wf sb (content d ac) -> allocable s0 ac d l hs n ->
  alloc_view sb (content d ac) (content d (alloc_ac s0 d l n ac)) n.
Proof.
  intros sb SN F A. destruct A as [[Hn _] Hfree _ _ _ Hne _ _ _].
  assert (Hc : forall b, content d (alloc_ac s0 d l n ac) b = if decide (n = b) then block0 else
    if decide (BBLOCK n sb = b) then alloc_map s0 d ac n else content d ac b).
  { intros b. unfold alloc_ac. by rewrite !content_put. }
  assert (Hbb : content d (alloc_ac s0 d l n ac) (BBLOCK n sb) = alloc_map s0 d ac n).
  { rewrite Hc, decide_False, decide_True by (done || by apply Hne). done. }
  pose proof (bblock_range sb SN n Hn) as Hbr. pose proof (sn_map _ SN) as S1. pose proof (sn_data _ SN) as S2. pose proof (sn_size _ SN) as S3.
  assert (Hlen : length (content d ac (BBLOCK n sb)) = Z.to_nat BSIZE) by (apply F; lia).
  split; try done.
  - by rewrite Hc, decide_True.
  - intros m Hm. apply (used_after s0 (content d ac) _ n m true); try lia; fold sb.
    + by rewrite Hlen.
    + done.
    + intros Hmn. rewrite Hc, !decide_False; [done|congruence|by apply Hne].
    + apply (BBLOCK_inj s0); [apply (sane_map sb SN)|done|done].
  - intros b H1 H2. rewrite Hc, !decide_False by congruence. done.
  - rewrite Hbb. unfold alloc_map, map_set. by rewrite length_insert.
Qed.

Lemma room_alloc s0 ac d l n c : room s0 ac l (c + 2) -> room s0 (alloc_ac s0 d l n ac) (alloc_log s0 l n) c.
Proof. intros H. apply room_put, room_put. eapply room_le; [exact H|lia]. Qed.

Lemma calm_alloc s0 ac d l n hs : calm ac hs -> calm (alloc_ac s0 d l n ac) hs.
Proof. intros H. by apply calm_put, calm_put. Qed.

Lemma elem_alloc_log s0 l n : n ∈ alloc_log s0 l n.
Proof. apply elem_logged. Qed.

Lemma elem_alloc_mono s0 l n x : x ∈ l -> x ∈ alloc_log s0 l n.
Proof. intros H. by apply elem_logged_mono, elem_logged_mono. Qed.

(** ** Blocks of a file *)

(** Blocks the indirect block may still cost, in the log and of the disk. *)
Definition pot (ip : inode) (l : list Z) : Z :=
  if decide (addr ip NDIRECT <> 0 /\ addr ip NDIRECT ∈ l) then 0 else 2.
Definition ind_need (ip : inode) : Z := if decide (addr ip NDIRECT = 0) then 1 else 0.

Lemma pot_nonneg ip l : 0 <= pot ip l.
Proof. unfold pot. case_decide; lia. Qed.

Lemma pot_mono ip ip' l l' :
  (addr ip NDIRECT <> 0 -> addr ip' NDIRECT = addr ip NDIRECT) -> (forall x, x ∈ l -> x ∈ l') -> pot ip' l' <= pot ip l.
Proof.
  intros Ha Hl. unfold pot. case_decide as H1; case_decide as H2; try lia. destruct H2 as [H2 H3].
  exfalso. apply H1. rewrite Ha by done. auto.
Qed.

(** [bmap] has given the file block [r] as its block [bn]. *)
Record bmapped (sb : superblock) (V : view) (ip : inode) (V' : view) (ip' : inode) (bn r : Z) (new : list Z) : Prop := {
  bm_grows : grows sb V ip V' ip' new;
  bm_blocks : same_blocks V ip V' ip' bn r;
  bm_zero : V' r = block0;
  bm_nz : r <> 0;
  bm_data : forall bm, 0 <= bm < MAXFILE -> fblk V ip bm <> 0 -> V' (fblk V ip bm) = V (fblk V ip bm);
  bm_count : Z.of_nat (length new) + ind_need ip' <= 1 + ind_need ip
}.

Lemma bmap_slot_new s0 ac d l s i ip k c (Q : Z -> fstate -> Prop) :
  let sb := f_sb s0 in let V := content d ac in
  sb_sane sb -> tstate s0 ac d l [] s -> entry s0 i ip -> i_dev ip = ROOTDEV -> fs_wf sb V ->
  addr ip k = 0 -> calm ac [] -> 0 <= c -> room s0 ac l (c + 2) -> 0 < free_count sb V ->
  (forall n s', alloc_view sb V (content d (alloc_ac s0 d l n ac)) n ->
     tstate (put_entry i (set_addr k n ip) s0) (alloc_ac s0 d l n ac) d (alloc_log s0 l n) [] s' -> Q n s') ->
  wp (bmap_slot i k) Q s.
Proof.
  intros sb V SN T Hi Hdev F Hz C Hc (R1 & R2 & R3 & R5 & R4) Hf HQ.
  destruct (can_allocate s0 ac d l []) as [n A]; try done; try lia; [by intros p ?%elem_of_nil|].
  unfold bmap_slot. apply wp_bind. eapply ts_geti; [exact T|done|]. rewrite (proj2 (Z.eqb_eq _ _) Hz), Hdev.
  apply wp_bind. eapply balloc_spec; [exact T|exact A|]. intros s1 T1. apply wp_bind.
  eapply ts_updi; [exact T1|exact Hi|]. intros s2 T2. apply wp_ret, HQ; [|done]. by eapply alloc_ac_view.
Qed.

Lemma put_acquire d pid b l k v ac :
  k <> b -> put_blk l k v (acquire_blk d pid b ac) = acquire_blk d pid b (put_blk l k v ac).
Proof.
  intros H. unfold put_blk, acquire_blk, content, refs. rewrite (lookup_insert_ne _ k b), (lookup_insert_ne _ b k) by done.
  by apply insert_insert_ne.
Qed.

Lemma alloc_acquire s0 d pid b l n ac :
  n <> b -> BBLOCK n (f_sb s0) <> b ->
  alloc_ac s0 d l n (acquire_blk d pid b ac) = acquire_blk d pid b (alloc_ac s0 d l n ac).
Proof.
  intros H1 H2. unfold alloc_ac. rewrite <- !put_acquire by done. unfold alloc_map. by rewrite content_acquire.
Qed.

(** What [bmap] does after it has the indirect block [a]. *)
Definition bmap_rest (i : nat) (a bn : Z) : M fstate Z :=
  ip ← geti i;
  bp ← bread (i_dev ip) a;
  x ← getb bp;
  r ← (let a := bld32 (b_data x) (4 * bn) in
       if a =? 0 then
         a ← balloc (i_dev ip);
         x ← getb bp;
         updb bp (setb_data (bst32 (b_data x) (4 * bn) a));;
         log_write bp;;
         mret a
       else mret a);
  brelse bp;;
  mret r.

Lemma bmap_indirect i bn :
  NDIRECT <= bn < MAXFILE -> bmap i bn = (a ← bmap_slot i NDIRECT; bmap_rest i a (bn - NDIRECT)).
Proof.
  intros H. unfold bmap. rewrite (proj2 (Z.ltb_ge _ _)) by lia. unfold MAXFILE in H.
  by rewrite (proj2 (Z.ltb_lt (bn - NDIRECT) NINDIRECT)) by lia.
Qed.

(** A block can be allocated while the indirect block is held. *)
Lemma held_allocate s0 ac d l bp ind :
  let sb := f_sb s0 in let V := content d ac in let ac1 := acquire_blk d (fp_pid (f_proc s0)) ind ac in
  sb_sane sb -> fs_wf sb V -> live sb V ind -> calm ac [] -> room s0 ac l 2 -> 0 < free_count sb V ->
  exists n, allocable s0 ac1 d l [(bp, ind)] n /\ n <> ind /\ BBLOCK n sb <> ind /\
    alloc_ac s0 d l n ac1 = acquire_blk d (fp_pid (f_proc s0)) ind (alloc_ac s0 d l n ac) /\
    alloc_view sb V (content d (alloc_ac s0 d l n ac)) n.
Proof.
  intros sb V ac1 SN F [Hir Hiu] C (R1 & R2 & R3 & R5 & R4) Hf.
  assert (Hv1 : forall k, content d ac1 k = V k) by (intros k; apply content_acquire).
  pose proof (size_acquire d (fp_pid (f_proc s0)) ind ac) as Hs1. fold ac1 in Hs1.
  assert (Hu1 : forall m, block_used (content d ac1) sb m = block_used V sb m) by (intros m; apply used_ext, Hv1).
  assert (F1 : fs_wf sb (content d ac1)).
  { split; [intros b Hb; rewrite Hv1; by apply F|intros m Hm; rewrite Hu1; by apply F]. }
  destruct (can_allocate s0 ac1 d l [(bp, ind)]) as [n A]; try done; try lia.
  { by apply calm_acquire. }
  { intros p ->%list_elem_of_singleton. split; [done|]. fold sb. by rewrite Hu1. }
  { fold sb. rewrite (free_count_ext sb V); [done|]. intros m _. apply Hu1. }
  pose proof (alloc_ac_view s0 ac1 d l _ n SN F1 A) as Av. fold sb in Av.
  pose proof (av_n _ _ _ _ Av) as Hn. pose proof (av_free _ _ _ _ Av) as Hfree. rewrite Hu1 in Hfree.
  assert (Hne : n <> ind) by (intros ->; congruence).
  assert (Hbne : BBLOCK n sb <> ind) by (pose proof (bblock_range sb SN n Hn); lia).
  pose proof (alloc_acquire s0 d (fp_pid (f_proc s0)) ind l n ac Hne Hbne) as He. fold ac1 in He.
  exists n. split_and!; try done. destruct Av as [_ _ Z1 U1 S1 L1]. rewrite He in Z1, U1, S1, L1.
  rewrite content_acquire in Z1, L1. rewrite Hv1 in L1. split; try done.
  - intros m Hm. specialize (U1 m Hm). rewrite Hu1 in U1. rewrite <- U1. symmetry. apply used_ext, content_acquire.
  - intros b H1 H2. specialize (S1 b H1 H2). by rewrite content_acquire, Hv1 in S1.
Qed.

Lemma refs_alloc s0 d l n ac k : n <> k -> BBLOCK n (f_sb s0) <> k ->
  refs (alloc_ac s0 d l n ac) k = refs ac k.
Proof. intros H1 H2. unfold alloc_ac, put_blk. rewrite !refs_insert. by rewrite !decide_False. Qed.

Lemma elem_alloc_inv s0 l n x : x ∈ alloc_log s0 l n -> x <> n -> x <> BBLOCK n (f_sb s0) -> x ∈ l.
Proof.
  unfold alloc_log, logged_add. repeat case_decide; try done; rewrite ?elem_of_app, ?list_elem_of_singleton; tauto.
Qed.

Lemma bmap_rest_new s0 ac d l s i ip bn c (Q : Z -> fstate -> Prop) :
  let sb := f_sb s0 in let V := content d ac in let ind := addr ip NDIRECT in
  sb_sane sb -> tstate s0 ac d l [] s -> entry s0 i ip -> i_dev ip = ROOTDEV -> fs_wf sb V -> file_wf sb V ip ->
  ind <> 0 -> NDIRECT <= bn < MAXFILE -> fblk V ip bn = 0 -> calm ac [] -> 1 <= c ->
  room s0 ac l (c + pot ip l + 2) -> 0 < free_count sb V ->
  (forall r ac' l' s', tstate s0 ac' d l' [] s' -> bmapped sb V ip (content d ac') ip bn r [r] ->
     calm ac' [] -> room s0 ac' l' (c + pot ip l') -> (r ∈ l') -> Q r s') ->
  wp (bmap_rest i ind (bn - NDIRECT)) Q s.
Proof.
  intros sb V ind SN T Hi Hdev F WF Hind Hbn Hz C Hc R Hf HQ. pose proof R as (R1 & R2 & R3 & R5 & R4).
  pose proof (pot_nonneg ip l) as Hp.
  pose proof (fw_ind _ _ _ WF Hind) as Hiu. fold ind in Hiu. pose proof (proj1 Hiu) as Hir.
  pose proof (data_pos sb SN) as HP. pose proof (sn_size _ SN) as HS.
  unfold bmap_rest. apply wp_bind. eapply ts_geti; [exact T|done|]. rewrite Hdev.
  apply wp_bind. eapply ts_bread; [exact T|eapply calm_can_read; [done|apply not_held_nil|lia]|]. intros bp s1 T1.
  apply wp_bind. eapply ts_getb; [exact T1|apply list_elem_of_here|apply lookup_insert_eq|]. intros x Hx _. rewrite Hx.
  cbn [ab_data]. fold V. pose proof Hz as Hz'. rewrite fblk_indirect in Hz' by (done || lia). fold ind in Hz'.
  cbv zeta. rewrite Hz', Z.eqb_refl.
  destruct (held_allocate s0 ac d l bp ind SN F Hiu C) as (n & A & Hne & Hbne & He & Av); [eapply room_le; [exact R|lia]|done|].
  apply wp_bind, wp_bind. eapply balloc_spec; [exact T1|exact A|]. intros s2 T2. rewrite He in T2.
  set (ac2 := alloc_ac s0 d l n ac) in *. set (l2 := alloc_log s0 l n) in *. fold sb V in Av. fold sb in Hbne.
  assert (R' : room s0 ac2 l2 (c + pot ip l)) by (by apply room_alloc).
  destruct (ts_refs _ _ _ _ _ _ ind T) as [Q1 Q2]. pose proof (refs_alloc s0 d l n ac ind Hne Hbne) as Hr2. fold ac2 in Hr2.
  assert (Q3 : ind ∈ l2 -> 1 <= refs ac2 ind).
  { intros Hin. rewrite Hr2. apply Q2. eapply elem_alloc_inv; [exact Hin|done|done]. }
  apply wp_bind. eapply ts_getb; [exact T2|apply list_elem_of_here|apply lookup_insert_eq|]. intros y Hy _. rewrite Hy.
  cbn [ab_data]. eapply ts_put; [exact T2|lia|eapply room_log; [exact R'|lia]|lia|]. intros s3 T3. apply wp_ret.
  apply wp_bind. eapply ts_put_brelse; [exact T3|lia|done|apply not_held_nil|]. intros s4 T4. apply wp_ret.
  eapply HQ; [exact T4| | | |].
  - destruct (grow_entry sb SN V (content d ac2) (content d (put_blk l2 ind (bst32 (content d ac2 ind) (4 * (bn - NDIRECT)) n) ac2))
      ip bn n) as [G1 G2]; try done; [intros k; apply content_put|]. split; try done.
    + rewrite content_put, decide_False by done. apply Av.
    + destruct (gw_new _ _ _ _ _ _ G1 n) as [_ [? _]]; [by left|done].
    + intros bm Hb Hnz. rewrite content_put, decide_False by (intros E; symmetry in E; revert E; by apply WF).
      eapply (alloc_keeps sb SN); [done|exact Av|]. by apply WF.
  - by apply calm_put, calm_alloc.
  - assert (pot ip (logged_add ind l2) = 0) as ->.
    { unfold pot. rewrite decide_True; [done|]. split; [done|apply elem_logged]. }
    unfold pot in R'. case_decide as Hd.
    + apply room_put_in; [done|apply elem_alloc_mono, Hd|]. specialize (Q3 (elem_alloc_mono _ _ _ _ (proj2 Hd))).
      unfold refs in Q3. destruct (ac2 !! ind); [by eexists|lia].
    + apply room_put. eapply room_le; [exact R'|lia].
  - apply elem_logged_mono, elem_alloc_log.
Qed.

(** [bmap] on a block the file does not have. *)
Lemma bmap_new s0 ac d l s i ip bn c (Q : Z -> fstate -> Prop) :
  let sb := f_sb s0 in let V := content d ac in
  sb_sane sb -> tstate s0 ac d l [] s -> entry s0 i ip -> i_dev ip = ROOTDEV -> fs_wf sb V -> file_wf sb V ip ->
  0 <= bn < MAXFILE -> fblk V ip bn = 0 -> calm ac [] -> 1 <= c ->
  room s0 ac l (c + pot ip l + 2) -> 1 + ind_need ip <= free_count sb V ->
  (forall r ip' ac' l' new s', tstate (put_entry i ip' s0) ac' d l' [] s' ->
     bmapped sb V ip (content d ac') ip' bn r new -> calm ac' [] -> room s0 ac' l' (c + pot ip' l') -> (r ∈ l') -> Q r s') ->
  wp (bmap i bn) Q s.
Proof.
  intros sb V SN T Hi Hdev F WF Hbn Hz C Hc R Hf HQ. assert (HND : NDIRECT < MAXFILE) by done.
  pose proof (pot_nonneg ip l) as Hp.
  assert (Hin : 0 <= ind_need ip) by (unfold ind_need; case_decide; lia).
  assert (Hf1 : 0 < free_count (f_sb s0) (content d ac)) by (fold sb V; lia).
  destruct (Z.lt_ge_cases bn NDIRECT) as [Hlt|Hge].
  - unfold bmap. rewrite (proj2 (Z.ltb_lt _ _)) by done. rewrite fblk_direct in Hz by done.
    eapply (bmap_slot_new _ _ _ _ _ _ _ _ (c + pot ip l)); try done; try lia. intros n s' Av T'.
    destruct (grow_direct sb SN V _ ip bn n F WF Av ltac:(lia) Hz) as [G1 G2].
    assert (Hind : addr (set_addr bn n ip) NDIRECT = addr ip NDIRECT).
    { rewrite addr_set by (done || lia || apply WF). by rewrite decide_False by lia. }
    eapply HQ; [exact T'| |by apply calm_alloc| |apply elem_alloc_log].
    + split; try done; [apply Av| | |].
      * destruct (gw_new _ _ _ _ _ _ G1 n) as [_ [? _]]; [by left|done].
      * intros bm Hb Hnz. eapply (alloc_keeps sb SN); [done|exact Av|]. by apply WF.
      * unfold ind_need. by rewrite Hind.
    + eapply room_le; [apply room_alloc; exact R|].
      pose proof (pot_mono ip (set_addr bn n ip) l (alloc_log s0 l n) (fun _ => Hind) (fun x => elem_alloc_mono _ _ _ x)). lia.
  - rewrite bmap_indirect by lia. apply wp_bind. destruct (decide (addr ip NDIRECT = 0)) as [Hi0|Hi0].
    + assert (Hpot : pot ip l = 2) by (unfold pot; rewrite decide_False; [done|tauto]).
      assert (Hneed : ind_need ip = 1) by (unfold ind_need; by rewrite decide_True). rewrite Hpot, Hneed in *.
      eapply (bmap_slot_new _ _ _ _ _ _ _ _ (c + 2)); try done; try lia. intros n s1 Av T1.
      destruct (grow_indirect sb SN V _ ip n F WF Av Hi0) as [G1 G2]. set (ip1 := set_addr NDIRECT n ip) in *.
      assert (Hind : addr ip1 NDIRECT = n) by (unfold ip1; rewrite addr_set by (done || apply WF); by rewrite decide_True).
      assert (Hnz : n <> 0) by (destruct (gw_new _ _ _ _ _ _ G1 n) as [_ [? _]]; [by left|done]).
      assert (Hpot1 : pot ip1 (alloc_log s0 l n) = 0).
      { unfold pot. rewrite Hind, decide_True; [done|]. split; [done|apply elem_alloc_log]. }
      rewrite <- Hind at 1.
      eapply (bmap_rest_new (put_entry i ip1 s0) _ _ _ _ _ ip1 bn c); try done.
      * by eapply entry_put.
      * apply G1.
      * apply G1.
      * congruence.
      * lia.
      * by rewrite G2.
      * by apply calm_alloc.
      * rewrite Hpot1, Z.add_0_r. by apply (room_alloc s0).
      * pose proof (gw_free _ _ _ _ _ _ G1) as Hfc. simpl in Hfc. change (f_sb (put_entry i ip1 s0)) with sb. fold sb V in Hf. lia.
      * intros r ac' l' s' T' B' C' R' Hr'. 
        eapply HQ; [exact T'| |done|exact R'|done]. destruct B' as [B1 B2 B3 B4 B5 B6].
        split; [eapply (grows_trans sb SN); [exact G1|exact B1]| |done|done| |].
        -- intros bm Hb. rewrite B2 by done. case_decide; [done|]. by apply G2.
        -- intros bm Hb Hn0. rewrite <- G2 in Hn0 |- * by done. rewrite B5 by done. rewrite G2 in Hn0 |- * by done.
           eapply (alloc_keeps sb SN); [done|exact Av|]. by apply WF.
        -- assert (Hn1 : ind_need ip1 = 0) by (unfold ind_need; rewrite Hind; by rewrite decide_False).
           rewrite Hneed, Hn1. simpl. lia.
    + eapply bmap_slot_mapped; [exact T|exact Hi|done|].
      eapply (bmap_rest_new s0 _ _ _ _ _ ip bn c); try done; try lia.
      intros r ac' l' s' T' B' C' R' Hr'. eapply HQ; [|exact B'|done|done|done]. by rewrite put_entry_id.
Qed.

(** A block of the file can be read when the cache is calm. *)
Lemma readable_calm ac d ip bn :
  calm ac [] -> Z.of_nat (size ac) < NBUF -> 0 <= bn < MAXFILE -> fblk (content d ac) ip bn <> 0 -> readable ac d [] ip bn.
Proof.
  intros C Hs Hb Hnz. assert (Hcan : forall b, can_read ac b) by (intros b; eapply calm_can_read; [done|apply not_held_nil|done]).
  unfold readable. rewrite <- fblk_blk_of by done.
  split; [done|]. split; [done|]. split; [apply Hcan|]. split; [apply not_held_nil|]. intros Hge.
  split; [|split; [apply Hcan|apply not_held_nil]]. intros E. by rewrite fblk_none in Hnz.
Qed.

(** Any block of the file: it is there or gets allocated. *)
Record bmap_post (sb : superblock) (V : view) (ip : inode) (V' : view) (ip' : inode) (bn r : Z) (new : list Z) : Prop := {
  bp_grows : grows sb V ip V' ip' new;
  bp_blocks : same_blocks V ip V' ip' bn r;
  bp_nz : r <> 0;
  bp_old : fblk V ip bn <> 0 -> r = fblk V ip bn;
  bp_data : forall bm, 0 <= bm < MAXFILE -> fblk V ip bm <> 0 -> V' (fblk V ip bm) = V (fblk V ip bm);
  bp_count : Z.of_nat (length new) + ind_need ip' <= 1 + ind_need ip
}.

Lemma bmap_any s0 ac d l s i ip bn c (Q : Z -> fstate -> Prop) :
  let sb := f_sb s0 in let V := content d ac in
  sb_sane sb -> tstate s0 ac d l [] s -> entry s0 i ip -> i_dev ip = ROOTDEV -> fs_wf sb V -> file_wf sb V ip ->
  0 <= bn < MAXFILE -> calm ac [] -> 1 <= c -> room s0 ac l (c + pot ip l + 1) ->
  (fblk V ip bn = 0 -> room s0 ac l (c + pot ip l + 2) /\ 1 + ind_need ip <= free_count sb V) ->
  (forall r ip' ac' l' new s', tstate (put_entry i ip' s0) ac' d l' [] s' ->
     bmap_post sb V ip (content d ac') ip' bn r new -> calm ac' [] ->
     room s0 ac' l' (c + pot ip' l' + if decide (r ∈ l') then 0 else 1) -> Q r s') ->
  wp (bmap i bn) Q s.
Proof.
  intros sb V SN T Hi Hdev F WF Hbn C Hc R Hnew HQ. destruct (decide (fblk V ip bn = 0)) as [Hz|Hnz].
  - destruct (Hnew Hz) as [R2 Hf]. eapply bmap_new; try done. intros r ip' ac' l' new s' T' [B1 B2 B3 B4 B5 B6] C' R' Hr.
    eapply HQ; [exact T'|by split|done|]. rewrite decide_True by done. by rewrite Z.add_0_r.
  - pose proof (pot_nonneg ip l) as Hp. destruct R as (R1 & R2 & R3 & R5 & R4) eqn:ER.
    assert (Hr : readable ac d [] ip bn) by (apply readable_calm; (done || lia)).
    eapply bmap_mapped; [exact T|exact Hi|done|exact Hr|]. intros s' T'. rewrite <- fblk_blk_of by done. fold V.
    eapply (HQ _ ip ac l []); [by rewrite put_entry_id| |done|].
    + split; try done; [by apply grows_refl| |simpl; lia]. intros bm Hb. by case_decide; subst.
    + case_decide; [eapply room_le; [exact R|lia]|exact R].
Qed.

(** ** The contents of the file *)

Definition fbyte (V : view) (ip : inode) (k : Z) : Z := nth (Z.to_nat (k mod BSIZE)) (V (fblk V ip (k / BSIZE))) 0.

(** The bytes at [src] in [m] have been written at [off], [tot] of them. *)
Definition written (V : view) (ip : inode) (m : mem) (src off : Z) (V' : view) (ip' : inode) (tot : Z) : Prop :=
  forall k, 0 <= k < MAXFILE * BSIZE -> k < i_size ip \/ off <= k < off + tot ->
    fblk V' ip' (k / BSIZE) <> 0 /\
    fbyte V' ip' k = if decide (off <= k < off + tot) then rd m (src + (k - off)) else fbyte V ip k.

Lemma length_rd_bytes m a n : length (rd_bytes m a n) = n.
Proof. unfold rd_bytes. by rewrite length_fmap, length_seq. Qed.

Lemma nth_rd_bytes m a n j : (j < n)%nat -> nth j (rd_bytes m a n) 0 = rd m (a + Z.of_nat j).
Proof.
  intros H. unfold rd_bytes. rewrite nth_lookup, list_lookup_fmap, lookup_seq_lt by done. done.
Qed.

Lemma written_step sb V ip V1 ip1 V2 ip2 V3 m src off tot n r new :
  let bn := (off + tot) / BSIZE in
  sb_sane sb -> written V ip m src off V1 ip1 tot -> 0 <= off -> 0 <= tot -> 0 <= n -> (off + tot) mod BSIZE + n <= BSIZE ->
  0 <= bn < MAXFILE -> bmap_post sb V1 ip1 V2 ip2 bn r new ->
  is_put V2 r (bput (V2 r) ((off + tot) mod BSIZE) (rd_bytes m (src + tot) (Z.to_nat n))) V3 ->
  grows sb V1 ip1 V3 ip2 new /\ written V ip m src off V3 ip2 (tot + n).
Proof.
  intros bn SN Hw Ho Ht Hn Hfit Hbn [G HB Hnz Hold Hdata _] P.
  pose proof (gw_file _ _ _ _ _ _ G) as W2. pose proof (gw_fs _ _ _ _ _ _ G) as F2.
  assert (Hr : fblk V2 ip2 bn = r) by (rewrite HB by done; by rewrite decide_True).
  assert (Hru : data_start sb <= r < sb_size sb) by (rewrite <- Hr; apply W2; [done|congruence]).
  pose proof (data_pos sb SN) as HP. assert (Hlen : length (V2 r) = Z.to_nat BSIZE) by (apply F2; lia).
  pose proof P as P'. rewrite <- Hr in P at 1.
  destruct (grow_data sb SN V2 V3 ip2 bn _ P F2 W2 Hbn) as [G3 H3]; [congruence|by rewrite length_bput, Hr|].
  split; [rewrite <- (app_nil_r new); by eapply (grows_trans sb SN)|].
  assert (HBS : BSIZE = 1024) by done. rewrite HBS in *.
  pose proof (Z.div_mod (off + tot) 1024 ltac:(done)) as D1. pose proof (Z.mod_pos_bound (off + tot) 1024 ltac:(lia)) as M1.
  change ((off + tot) / 1024) with bn in D1.
  intros k Hk Hin. unfold fbyte. rewrite HBS. assert (Hkb : 0 <= k / 1024 < MAXFILE).
  { split; [apply Z.div_pos; lia|]. apply Z.div_lt_upper_bound; lia. }
  pose proof (Z.div_mod k 1024 ltac:(done)) as D2. pose proof (Z.mod_pos_bound k 1024 ltac:(lia)) as M2.
  rewrite H3 by done. destruct (decide (k / 1024 = bn)) as [Hb|Hb].
  - rewrite Hb, Hr. split; [done|]. rewrite (put_eq _ _ _ _ P'), nth_bput by (rewrite Hlen; lia).
    rewrite Hb in D2. case_decide as Hd; rewrite length_rd_bytes in Hd.
    + rewrite nth_rd_bytes, decide_True by lia. f_equal. lia.
    + destruct (Hw k Hk) as [E1 E2]; [lia|]. unfold fbyte in E2. rewrite HBS, Hb in *. rewrite (Hold E1), Hdata, E2 by done.
      destruct (decide (off <= k < off + tot)); [rewrite decide_True by lia|rewrite decide_False by lia]; done.
  - assert (Hin' : k < i_size ip \/ off <= k < off + tot).
    { destruct Hin as [?|Hin]; [by left|]. destruct (decide (k < off + tot)); [lia|]. exfalso. apply Hb.
      symmetry. apply Z.div_unique with (k - 1024 * bn); lia. }
    destruct (Hw k Hk Hin') as [E1 E2]. unfold fbyte in E2. rewrite HBS in *.
    assert (He : fblk V2 ip2 (k / 1024) = fblk V1 ip1 (k / 1024)) by (rewrite HB by done; by rewrite decide_False).
    rewrite He. split; [done|]. rewrite (put_ne _ _ _ _ _ P').
    + rewrite Hdata, E2 by done.
      destruct (decide (off <= k < off + tot)); [rewrite decide_True by lia|rewrite decide_False by lia]; done.
    + rewrite <- He, <- Hr. intros E. apply Hb. eapply (fw_inj _ _ _ W2); [done|done| |exact E]. by rewrite He.
Qed.

(** ** The loop of [writei] *)

(** The memory [writei] reads from, and that it can be read. *)
Definition src_mem (user : bool) (s : fstate) : mem := if user then f_umem s else f_kmem s.
Definition src_ok (user : bool) (src n : Z) : Prop :=
  0 <= src /\ src + n < 2 ^ 64 /\ (user = true -> forall k, 0 <= k < n -> u_mapped (src + k) = true).

Lemma either_copyin_all user src n s Q :
  src_ok user src n -> Q (rd_bytes (src_mem user s) src (Z.to_nat n), 0) s -> wp (either_copyin user src n) Q s.
Proof.
  intros (_ & _ & Hm) HQ. unfold either_copyin. destruct user; [|by apply wp_bind, wp_gets, wp_ret].
  unfold wp, u_copyin. rewrite reachable_all by (intros k Hk; apply Hm; [done|lia]). by rewrite Nat.eqb_refl.
Qed.

Lemma ts_src_mem user s0 ac d l hs s : tstate s0 ac d l hs s -> src_mem user s = src_mem user s0.
Proof.
  intros T. destruct (keepsl_fields _ _ (ts_keeps _ _ _ _ _ _ T)) as (_ & _ & _ & _ & H1 & H2 & _).
  unfold src_mem. by rewrite H1, H2.
Qed.

(** What the rest of the loop and the inode may add to the transaction. *)
Definition cost_left (off n tot : Z) : Z :=
  1 + 2 * Z.of_nat (rw_left off n tot) - if decide (tot = 0 /\ off mod BSIZE <> 0 /\ 0 < n) then 1 else 0.

(** The state of the loop after [tot] bytes. *)
Record wloop (s0 : fstate) (V : view) (d : disk_t) (i : nat) (ip : inode) (m : mem) (src off n tot : Z)
    (ip' : inode) (ac' : acache) (l' new : list Z) (s : fstate) : Prop := {
  wl_state : tstate (put_entry i ip' s0) ac' d l' [] s;
  wl_grows : grows (f_sb s0) V ip (content d ac') ip' new;
  wl_written : written V ip m src off (content d ac') ip' tot;
  wl_calm : calm ac' [];
  wl_room : room s0 ac' l' (cost_left off n tot + pot ip' l');
  wl_free : Z.of_nat (rw_left off n tot) + ind_need ip' <= free_count (f_sb s0) (content d ac')
}.

(** The request: inside the file or at its end. *)
Record write_req (s0 : fstate) (V : view) (ip : inode) (user : bool) (src off n : Z) : Prop := {
  wq_sane : sb_sane (f_sb s0);
  wq_dev : i_dev ip = ROOTDEV;
  wq_file : file_wf (f_sb s0) V ip;
  wq_off : 0 <= off <= i_size ip;
  wq_n : 0 <= n;
  wq_end : off + n <= MAXFILE * BSIZE;
  wq_src : src_ok user src n
}.

Lemma grows_dev sb V ip V' ip' new : grows sb V ip V' ip' new -> i_dev ip' = i_dev ip.
Proof. intros G. by rewrite (gw_ip _ _ _ _ _ _ G). Qed.

(** The first block of a write that does not start on a boundary is there. *)
Lemma step_budget s0 V d i ip m src off n tot ip' ac' l' new s user :
  write_req s0 V ip user src off n -> wloop s0 V d i ip m src off n tot ip' ac' l' new s -> 0 <= tot < n ->
  let k := Z.min (n - tot) (BSIZE - (off + tot) mod BSIZE) in
  let c := cost_left off n (tot + k) in
  1 <= c /\ room s0 ac' l' (c + pot ip' l' + 1) /\
  (fblk (content d ac') ip' ((off + tot) / BSIZE) = 0 ->
   room s0 ac' l' (c + pot ip' l' + 2) /\ 1 + ind_need ip' <= free_count (f_sb s0) (content d ac')).
Proof.
  intros WQ WL Ht k c. destruct WQ as [SN Hdev WF Hoff Hn Hend Hsrc]. destruct WL as [T G Hw C R Hf].
  assert (HB : 0 < BSIZE) by done. pose proof (Z.mod_pos_bound (off + tot) BSIZE HB) as Hmod.
  pose proof (rw_left_step off n tot ltac:(lia) Ht) as Hstep. fold k in Hstep.
  assert (Hk : 0 < k) by lia. assert (Hc : c = 1 + 2 * Z.of_nat (rw_left off n (tot + k))).
  { unfold c, cost_left. rewrite decide_False by lia. lia. }
  unfold cost_left in R. split; [lia|]. split.
  - eapply room_le; [exact R|]. case_decide; lia.
  - intros Hz. split; [|lia]. eapply room_le; [exact R|]. rewrite decide_False; [lia|]. intros (-> & Ho & _).
    rewrite Z.add_0_r in *. revert Hz. pose proof (Z.div_mod off BSIZE ltac:(done)) as Hd.
    assert (0 <= off / BSIZE) by (apply Z.div_pos; lia). assert (Hlt : off / BSIZE < MAXFILE).
    { apply Z.div_lt_upper_bound; lia. }
    assert (Hnz : fblk V ip (off / BSIZE) <> 0).
    { apply (fw_mapped _ _ _ WF); [done|]. rewrite Z.mul_comm. lia. }
    by rewrite (gw_blk _ _ _ _ _ _ G).
Qed.

Lemma writei_step_spec s0 V d i ip user src off n tot ip' ac' l' new s Q :
  let m := src_mem user s0 in
  let k := Z.min (n - tot) (BSIZE - (off + tot) mod BSIZE) in
  entry s0 i ip -> write_req s0 V ip user src off n ->
  wloop s0 V d i ip m src off n tot ip' ac' l' new s -> 0 <= tot < n ->
  (forall ip2 ac2 l2 new2 s2, wloop s0 V d i ip m src off n (tot + k) ip2 ac2 l2 new2 s2 ->
     Q (inl (tot + k, off + (tot + k), src + (tot + k))) s2) ->
  wp (writei_step i user n (tot, off + tot, src + tot)) Q s.
Proof.
  intros m k Hi WQ WL Ht HQ. destruct (step_budget _ _ _ _ _ _ _ _ _ _ _ _ _ _ _ _ WQ WL Ht) as (Hc & R1 & R2).
  fold k in Hc, R1, R2. set (c := cost_left off n (tot + k)) in *.
  destruct WQ as [SN Hdev WF Hoff Hn Hend (Hs0 & Hs1 & Hs2)]. destruct WL as [T G Hw C R Hf].
  assert (HB : BSIZE = 1024) by done. pose proof (Z.mod_pos_bound (off + tot) BSIZE eq_refl) as Hmod.
  pose proof (Z.div_mod (off + tot) BSIZE ltac:(done)) as Hdm. set (bn := (off + tot) / BSIZE) in *.
  assert (Hbn : 0 <= bn < MAXFILE).
  { split; [apply Z.div_pos; lia|]. apply Z.div_lt_upper_bound; lia. }
  pose proof (entry_put s0 i ip ip' Hi) as Hi1. pose proof (grows_dev _ _ _ _ _ _ G) as Hdev1. rewrite Hdev in Hdev1.
  unfold writei_step. rewrite (proj2 (Z.ltb_lt tot n)) by lia. cbn [negb].
  apply wp_bind. eapply ts_geti; [exact T|exact Hi1|]. rewrite Hdev1. fold bn.
  apply wp_bind. eapply (bmap_any (put_entry i ip' s0) _ _ _ _ _ ip' bn c); [exact SN|exact T|done|done|apply G|apply G|done|done|done|done|done|].
  intros r ip2 ac2 l2 new2 s2 T2 BP C2 RR. rewrite put_entry_put in T2.
  pose proof RR as (Q1 & Q2 & Q3 & Q4 & Q5). pose proof (pot_nonneg ip2 l2) as Hp.
  assert (Hx : 0 <= (if decide (r ∈ l2) then 0 else 1)) by (destruct (decide (r ∈ l2)); lia).
  pose proof (gw_file _ _ _ _ _ _ (bp_grows _ _ _ _ _ _ _ _ BP)) as W2.
  assert (Hr : fblk (content d ac2) ip2 bn = r) by (rewrite (bp_blocks _ _ _ _ _ _ _ _ BP) by done; by rewrite decide_True).
  assert (Hru : data_start (f_sb s0) <= r < sb_size (f_sb s0)).
  { rewrite <- Hr. apply (fw_blk _ _ _ W2 bn Hbn). rewrite Hr. exact (bp_nz _ _ _ _ _ _ _ _ BP). }
  pose proof (data_pos _ SN) as HP. pose proof (sn_size _ SN) as HS.
  destruct (ts_refs _ _ _ _ _ _ r T2) as [F1 F2]. destruct (ts_good _ _ _ _ _ _ T2) as [_ F3].
  apply wp_bind. eapply ts_bread; [exact T2|eapply calm_can_read; [done|apply not_held_nil|lia]|]. intros bp s3 T3. fold k.
  apply wp_bind, either_copyin_all.
  { split; [lia|]. split; [lia|]. intros Hu j Hj. rewrite <- Z.add_assoc. apply Hs2; [done|lia]. }
  rewrite (ts_src_mem user _ _ _ _ _ _ T3). change (src_mem user (put_entry i ip2 s0)) with m. cbn [fst snd].
  apply wp_bind. eapply ts_getb; [exact T3|apply list_elem_of_here|apply lookup_insert_eq|]. intros x Hx' _. rewrite Hx'.
  cbn [ab_data]. change (0 =? -1) with false. cbv iota.
  eapply ts_put; [exact T3|lia|eapply room_log; [exact RR|lia]|done|]. intros s4 T4.
  apply wp_bind. eapply ts_put_brelse; [exact T4|done|done|apply not_held_nil|]. intros s5 T5.
  apply wp_ret. rewrite u64_small by lia. unfold MAXFILE, NINDIRECT in Hend. rewrite HB in Hend. change (1024 / 4) with 256 in Hend.
  change NDIRECT with 12 in Hend. rewrite u32_small by lia. rewrite <- !Z.add_assoc.
  set (ac5 := put_blk l2 r _ ac2) in T5.
  destruct (written_step (f_sb s0) V ip (content d ac') ip' (content d ac2) ip2 (content d ac5) m src off tot k r new2)
    as [G5 W5]; try done; try lia; [intros z; apply content_put|].
  eapply (HQ ip2 ac5 (logged_add r l2) (new ++ new2)). split; [exact T5| |done|by apply calm_put| |].
  - by eapply (grows_trans _ SN).
  - assert (pot ip2 (logged_add r l2) <= pot ip2 l2) by (apply pot_mono; [done|]; intros z; apply elem_logged_mono).
    fold c. case_decide.
    + apply room_put_in; [|done|by apply F3]. eapply room_le; [exact RR|lia].
    + apply room_put. eapply room_le; [exact RR|lia].
  - pose proof (gw_free _ _ _ _ _ _ G5). pose proof (bp_count _ _ _ _ _ _ _ _ BP).
    pose proof (rw_left_step off n tot ltac:(lia) Ht) as Hstep. fold k in Hstep. lia.
Qed.

Lemma writei_loop s0 ac d l s i ip user src off n Q :
  let V := content d ac in let m := src_mem user s0 in
  entry s0 i ip -> write_req s0 V ip user src off n -> tstate s0 ac d l [] s -> fs_wf (f_sb s0) V -> calm ac [] ->
  room s0 ac l (cost_left off n 0 + pot ip l) ->
  Z.of_nat (rw_left off n 0) + ind_need ip <= free_count (f_sb s0) V ->
  (forall ip' ac' l' new s', wloop s0 V d i ip m src off n n ip' ac' l' new s' -> Q (n, off + n) s') ->
  wp (loop (rw_fuel n) (writei_step i user n) (0, off, src)) Q s.
Proof.
  intros V m Hi WQ T F C R Hf HQ. pose proof (wq_off _ _ _ _ _ _ _ WQ) as Hoff. pose proof (wq_n _ _ _ _ _ _ _ WQ) as Hn.
  apply (wp_loop _ (fun a t => exists tot ip' ac' l' new, a = (tot, off + tot, src + tot) /\ 0 <= tot <= n /\
      wloop s0 V d i ip m src off n tot ip' ac' l' new t)
    (fun a _ => rw_left off n a.1.1)).
  - intros ? t (tot & ip' & ac' & l' & new & -> & Htot & WL). destruct (decide (tot < n)) as [Hlt|Hge].
    + eapply writei_step_spec; [exact Hi|exact WQ|exact WL|lia|]. intros ip2 ac2 l2 new2 s2 WL2. split.
      * exists (tot + Z.min (n - tot) (BSIZE - (off + tot) mod BSIZE)), ip2, ac2, l2, new2. split; [done|]. split; [|done].
        pose proof (Z.mod_pos_bound (off + tot) BSIZE eq_refl). lia.
      * cbn [fst]. apply (rw_left_step off n tot); lia.
    + assert (tot = n) as -> by lia. unfold writei_step. rewrite Z.ltb_irrefl. apply wp_ret. by eapply HQ.
  - apply rw_left_fuel; lia.
  - exists 0, ip, ac, l, []. rewrite !Z.add_0_r. split; [done|]. split; [lia|]. split; try done.
    + by rewrite put_entry_id.
    + apply grows_refl; [done|]. apply WQ.
    + intros k Hk [Hs|Hs]; [|lia]. rewrite decide_False by lia. split; [|done].
      apply (fw_mapped _ _ _ (wq_file _ _ _ _ _ _ _ WQ)); [apply Z.div_pos; [lia|done]|].
      pose proof (Z.div_mod k BSIZE ltac:(done)). pose proof (Z.mod_pos_bound k BSIZE eq_refl). lia.
Qed.

(** ** The inode is written *)

(** The file after a write of the [n] bytes at [src] at offset [off]. *)
Record file_written (sb : superblock) (ib : Z) (V : view) (ip : inode) (m : mem) (src off n : Z) (V' : view) (ip' : inode) : Prop := {
  fwr_fs : fs_wf sb V';
  fwr_file : file_wf sb V' ip';
  fwr_ip : ip' = seti_size (Z.max (i_size ip) (off + n)) (seti_addrs (i_addrs ip') ip);
  fwr_bytes : forall k, 0 <= k < i_size ip' ->
    file_byte V' ip' k = if decide (off <= k < off + n) then rd m (src + (k - off)) else file_byte V ip k;
  fwr_kept : forall b, owns V ip b -> owns V' ip' b;
  fwr_own : forall b, owns V' ip' b -> owns V ip b \/ block_used V sb b = false;
  fwr_other : forall b, live sb V b -> ~ owns V ip b -> V' b = V b;
  fwr_low : forall b, 0 <= b < sb_bmapstart sb -> b <> ib -> V' b = V b;
  fwr_used : forall b, 0 <= b < sb_size sb -> block_used V' sb b = true <-> block_used V sb b = true \/ owns V' ip' b;
  fwr_inode : forall x, disk_fields (get_dinode (V' ib) (dip_off (i_inum ip)) x) = disk_fields ip';
  fwr_inodes : forall k x, 0 <= k -> k mod IPB <> i_inum ip mod IPB ->
    disk_fields (get_dinode (V' ib) (dip_off k) x) = disk_fields (get_dinode (V ib) (dip_off k) x)
}.

Lemma file_byte_fbyte V ip k : fblk V ip (k / BSIZE) <> 0 -> file_byte V ip k = fbyte V ip k.
Proof. intros H. unfold file_byte, fbyte. by rewrite fblk_blk_of. Qed.

(** A block before the free map changes: the files do not. *)
Lemma put_low sb V V' b v ip ip' :
  sb_sane sb -> is_put V b v V' -> 0 <= b < sb_bmapstart sb -> length v = length (V b) -> fs_wf sb V -> file_wf sb V ip ->
  i_addrs ip' = i_addrs ip ->
  fs_wf sb V' /\ (forall m, 0 <= m < sb_size sb -> block_used V' sb m = block_used V sb m) /\
  (forall bn, fblk V' ip' bn = fblk V ip bn) /\ (forall k, owns V' ip' k <-> owns V ip k) /\
  (forall k, owns V ip k -> V' k = V k).
Proof.
  intros SN P Hb Hl F WF Ha.
  assert (Hu : forall m, 0 <= m < sb_size sb -> block_used V' sb m = block_used V sb m).
  { intros m Hm. apply used_ext, (put_ne _ _ _ _ _ P). pose proof (bblock_range sb SN m Hm). lia. }
  assert (Ho : forall k, owns V ip k -> V' k = V k).
  { intros k Hk. apply (put_ne _ _ _ _ _ P). intros ->. by apply (low_not_owned sb SN V ip b WF Hb). }
  assert (He : forall bn, fblk V' ip' bn = fblk V ip bn).
  { intros bn. apply fblk_ext; [done|]. intros _ Hn. apply Ho. split; [done|by left]. }
  split_and!; try done.
  - split.
    + intros k Hk. rewrite P. case_decide; [subst; rewrite Hl|]; by apply F.
    + intros k Hk. pose proof (sn_data _ SN). rewrite Hu by lia. by apply F.
  - intros k. assert (addr ip' NDIRECT = addr ip NDIRECT) as E by (unfold addr; by rewrite Ha). unfold owns. rewrite E.
    apply and_iff_compat_l, or_iff_compat_l. split; intros (bn & H1 & <-); exists bn; by rewrite He.
Qed.

Lemma addr_range sb V ip a : sb_sane sb -> file_wf sb V ip -> a ∈ i_addrs ip -> 0 <= a < 2 ^ 32.
Proof.
  intros SN WF Ha. apply list_elem_of_lookup in Ha as [k Hk]. pose proof (lookup_lt_Some _ _ _ Hk) as Hlt.
  rewrite (fw_addrs _ _ _ WF) in Hlt. change (Z.to_nat (NDIRECT + 1)) with 13%nat in Hlt.
  assert (Hak : addr ip (Z.of_nat k) = a) by (unfold addr; rewrite Nat2Z.id; by apply nth_lookup_Some).
  destruct (decide (a = 0)) as [->|Hnz]; [lia|]. pose proof (data_pos sb SN). pose proof (sn_size _ SN).
  enough (live sb V a) as [? _] by lia. apply (owns_live sb V ip a WF). split; [done|].
  destruct (decide (Z.of_nat k = NDIRECT)) as [E|Hne]; [left; congruence|]. right. exists (Z.of_nat k).
  unfold MAXFILE, NINDIRECT. change NDIRECT with 12 in *. change (BSIZE / 4) with 256. split; [lia|].
  rewrite fblk_direct by (change NDIRECT with 12; lia). done.
Qed.

Definition set_end (e : Z) (ip : inode) : inode := if i_size ip <? e then seti_size e ip else ip.

Lemma set_end_eq e ip : set_end e ip = seti_size (Z.max (i_size ip) e) ip.
Proof.
  unfold set_end. destruct (Z.ltb_spec (i_size ip) e).
  - by rewrite Z.max_r by lia.
  - rewrite Z.max_l by lia. by destruct ip.
Qed.

Lemma dip_off_apart k j : 0 <= k -> 0 <= j -> k mod IPB <> j mod IPB -> dip_off j + 64 <= dip_off k \/ dip_off k + 64 <= dip_off j.
Proof.
  intros Hk Hj H. unfold dip_off, DINODE_SIZE in *. lia.
Qed.

Lemma file_done s0 V ip user src off n V1 ip1 new V3 :
  let sb := f_sb s0 in let ib := iblk s0 ip in let ip2 := set_end (off + n) ip1 in let m := src_mem user s0 in
  write_req s0 V ip user src off n -> inode_ok ip -> 0 <= i_inum ip -> 0 <= ib < sb_bmapstart sb ->
  fs_wf sb V -> grows sb V ip V1 ip1 new -> written V ip m src off V1 ip1 n ->
  is_put V1 ib (put_dinode (V1 ib) (dip_off (i_inum ip)) ip2) V3 ->
  file_written sb ib V ip m src off n V3 ip2 /\ inode_ok ip2.
Proof.
  intros sb ib ip2 m [SN Hdev WF Hoff Hn Hend _] IO Hin Hib F G Hw P.
  pose proof (gw_ip _ _ _ _ _ _ G) as Hip1. pose proof (gw_file _ _ _ _ _ _ G) as W1.
  assert (Hip2 : ip2 = seti_size (Z.max (i_size ip) (off + n)) (seti_addrs (i_addrs ip1) ip)).
  { unfold ip2. rewrite set_end_eq, Hip1. done. }
  assert (Ha : i_addrs ip2 = i_addrs ip1) by (by rewrite Hip2).
  assert (Hsz : i_size ip2 = Z.max (i_size ip) (off + n)) by (by rewrite Hip2).
  pose proof (fw_size _ _ _ WF) as Hs. assert (HB : BSIZE = 1024) by done. rewrite HB in *.
  destruct (put_low sb V1 V3 ib _ ip1 ip2 SN P Hib (length_put_dinode _ _ _) (gw_fs _ _ _ _ _ _ G) W1 Ha)
    as (F3 & U3 & B3 & O3 & K3).
  assert (HM : MAXFILE = 268) by done.
  assert (Hmap : forall bn, 0 <= bn -> bn * 1024 < i_size ip2 -> fblk V1 ip1 bn <> 0).
  { intros bn H0 H1. rewrite Hsz in H1. destruct (Hw (bn * 1024)) as [E _]; rewrite ?HB; [lia|lia|].
    by rewrite HB, Z.div_mul in E. }
  assert (W3 : file_wf sb V3 ip2).
  { apply (file_wf_same sb V1 V3 ip1 ip2); try done; rewrite ?HB, ?Hsz.
    - intros b [H1 H2]. split; [done|]. pose proof (data_pos sb SN). by rewrite U3 by lia.
    - lia. }
  assert (IO2 : inode_ok ip2).
  { destruct IO as [I1 I2 I3 I4 I5 I6 I7]. rewrite Hip2.
    split; try done; cbn [i_size i_addrs seti_size seti_addrs]; [lia|apply W1|]. intros a. by eapply addr_range. }
  split; [|done]. destruct (dip_off_bound (i_inum ip)) as [D1 D2].
  assert (Hlen : length (V1 ib) = Z.to_nat BSIZE).
  { apply (fs_len _ _ (gw_fs _ _ _ _ _ _ G)). pose proof (low_range sb SN ib). lia. }
  split; try done.
  - by rewrite Ha.
  - intros k Hk. rewrite Hsz in Hk. assert (Hkb : 0 <= k / 1024) by (apply Z.div_pos; lia).
    pose proof (Z.mul_div_le k 1024 eq_refl) as Hk2.
    assert (E0 : fblk V1 ip1 (k / 1024) <> 0) by (apply Hmap; rewrite ?Hsz; lia).
    rewrite file_byte_fbyte by (rewrite HB, B3; done). unfold fbyte. rewrite HB, B3, K3.
    2: { split; [done|]. right. exists (k / 1024). split; [|done]. split; [done|]. apply Z.div_lt_upper_bound; lia. }
    destruct (Hw k) as [_ E]; rewrite ?HB; [lia|lia|]. unfold fbyte at 1 in E. rewrite HB in E. rewrite E.
    case_decide; [done|]. symmetry. apply file_byte_fbyte. rewrite HB. apply (fw_mapped _ _ _ WF); [done|]. rewrite HB. lia.
  - intros b Hb. apply O3. by eapply grows_owns.
  - intros b Hb. apply O3 in Hb. apply (gw_own _ _ _ _ _ _ G) in Hb as [H|H]; [by left|right]. by apply (gw_new _ _ _ _ _ _ G).
  - intros b Hb Ho. rewrite (put_ne _ _ _ _ _ P); [by apply (gw_other _ _ _ _ _ _ G)|]. intros ->. destruct Hb as [Hb _].
    pose proof (low_range sb SN ib). lia.
  - intros b Hb Hne. rewrite (put_ne _ _ _ _ _ P) by done. by apply (gw_low _ _ _ _ _ _ G).
  - intros b Hb. rewrite U3, (gw_used _ _ _ _ _ _ G), orb_true_iff, bool_decide_eq_true, O3 by done. split.
    + intros [H|H]; [by left|right]. by apply (gw_new _ _ _ _ _ _ G).
    + intros [H|H]; [by left|]. apply (gw_own _ _ _ _ _ _ G) in H as [H|H]; [left|by right].
      by apply (owns_live sb V ip b WF).
  - intros x. rewrite (put_eq _ _ _ _ P). apply get_put_dinode; [done|done|by rewrite Hlen].
  - intros k x Hk Hne. rewrite (put_eq _ _ _ _ P), get_put_dinode_other.
    + by rewrite (gw_low _ _ _ _ _ _ G).
    + rewrite Ha. apply W1.
    + apply dip_off_bound.
    + rewrite Hlen. apply dip_off_bound.
    + by apply dip_off_apart.
Qed.

Lemma writei_spec s0 ac d l s i ip user src off n Q :
  let V := content d ac in let sb := f_sb s0 in
  tstate s0 ac d l [] s -> entry s0 i ip -> write_req s0 V ip user src off n -> fs_wf sb V -> inode_ok ip ->
  0 <= i_inum ip -> 0 <= iblk s0 ip < sb_bmapstart sb -> calm ac [] -> room s0 ac l (cost_left off n 0 + pot ip l) ->
  Z.of_nat (rw_left off n 0) + ind_need ip <= free_count sb V ->
  (forall ip' ac' l' s', tstate (put_entry i ip' s0) ac' d l' [] s' ->
     file_written sb (iblk s0 ip) V ip (src_mem user s0) src off n (content d ac') ip' -> inode_ok ip' ->
     calm ac' [] -> room s0 ac' l' 0 -> Q n s') ->
  wp (writei i user src off n) Q s.
Proof.
  intros V sb T Hi WQ F IO Hin Hib C R Hf HQ. pose proof WQ as [SN Hdev WF Hoff Hn Hend _].
  assert (HM : MAXFILE * BSIZE = 274432) by done. unfold writei. apply wp_bind. eapply ts_geti; [exact T|exact Hi|].
  rewrite u32_small by lia. rewrite (proj2 (Z.ltb_ge (i_size ip) off)), (proj2 (Z.ltb_ge (off + n) off)) by lia. cbn [orb].
  rewrite (proj2 (Z.ltb_ge (MAXFILE * BSIZE) _)) by lia.
  apply wp_bind. eapply writei_loop; try done. intros ip1 ac1 l1 new s1 [T1 G1 W1 C1 R1 _].
  pose proof (entry_put s0 i ip ip1 Hi) as Hi1. cbn [fst snd].
  assert (Hc : cost_left off n n = 1).
  { unfold cost_left, rw_left. rewrite Z.ltb_irrefl. rewrite decide_False by lia. done. }
  rewrite Hc in R1. pose proof (pot_nonneg ip1 l1) as Hp. pose proof R1 as (_ & _ & _ & _ & Q5).
  pose proof (sn_size _ SN) as HS. pose proof (low_range _ SN (iblk s0 ip)) as Hlr. fold sb in HS, Hlr.
  set (ip2 := set_end (off + n) ip1).
  assert (Hip2 : i_dev ip2 = ROOTDEV /\ i_inum ip2 = i_inum ip).
  { unfold ip2. rewrite set_end_eq, (gw_ip _ _ _ _ _ _ G1). done. }
  assert (Hib2 : iblk (put_entry i ip2 s0) ip2 = iblk s0 ip) by (unfold iblk; by rewrite (proj2 Hip2)).
  assert (Hfin : forall s2, tstate (put_entry i ip2 s0) ac1 d l1 [] s2 -> wp (iupdate i;; mret n) Q s2).
  { intros s2 T2. apply wp_bind.
    eapply (iupdate_spec (put_entry i ip2 s0) _ _ _ _ _ _ ip2); [exact T2|by eapply entry_put|apply Hip2| | | | |];
      rewrite ?Hib2; [eapply calm_can_read; [done|apply not_held_nil|lia]|apply not_held_nil|lia|eapply (room_log s0); [exact R1|lia]|].
    rewrite (proj2 Hip2). intros s3 T3. apply wp_ret.
    destruct (file_done s0 V ip user src off n (content d ac1) ip1 new
      (content d (put_blk l1 (iblk s0 ip) (put_dinode (content d ac1 (iblk s0 ip)) (dip_off (i_inum ip)) ip2) ac1)))
      as [FW IO2]; try done; [intros k; apply content_put|].
    eapply (HQ ip2); [exact T3|exact FW|exact IO2|by apply calm_put|]. apply room_put. eapply room_le; [exact R1|lia]. }
  apply wp_bind. eapply ts_geti; [exact T1|exact Hi1|]. apply wp_bind. unfold ip2, set_end in Hfin.
  destruct (i_size ip1 <? off + n).
  - eapply ts_updi; [exact T1|exact Hi1|]. intros s2 T2. apply Hfin. by rewrite put_entry_put in T2.
  - apply wp_ret. by apply Hfin.
Qed.

End write.

(** ** [writei] *)

(** Most blocks a write of [n] bytes at [off] adds to a transaction: a data
    block and a bitmap block for each block it touches, one block less when
    the first is there already, the indirect block and its bitmap block, and
    the inode. *)
Definition write_cost (off n : Z) : Z := cost_left off n 0 + 2.

Definition write_bad (ip : inode) (off n : Z) : Prop :=
  i_size ip < off \/ 2 ^ 32 <= off + n \/ MAXFILE * BSIZE < off + n.
#[export] Instance write_bad_dec ip off n : Decision (write_bad ip off n) := ltac:(unfold write_bad; apply _).

(** The file system is well formed and has room for the write. *)
Record write_ready `{W : World} (s0 : fstate) (ac : acache) (d : disk_t) (l : list Z) (ip : inode) (user : bool)
    (src off n c : Z) : Prop := {
  ry_req : write_req s0 (content d ac) ip user src off n;
  ry_fs : fs_wf (f_sb s0) (content d ac);
  ry_inode : inode_ok ip;
  ry_inum : 0 <= i_inum ip;
  ry_iblk : 0 <= iblk s0 ip < sb_bmapstart (f_sb s0);
  ry_calm : calm ac [];
  ry_room : room (Z.of_nat (length l) + c) s0 ac l c;
  ry_free : Z.of_nat (rw_left off n 0) + 1 <= free_count (f_sb s0) (content d ac)
}.

Section claims.
Context `{im : Image} `{W : World} `{WO : !WorldOk W}.

Lemma writei_ready s0 ac d l s i ip user src off n c (Q : Z -> fstate -> Prop) :
  tstate s0 ac d l [] s -> entry s0 i ip -> write_ready s0 ac d l ip user src off n c -> write_cost off n <= c ->
  (forall ip' ac' l' s', tstate (put_entry i ip' s0) ac' d l' [] s' ->
     file_written (f_sb s0) (iblk s0 ip) (content d ac) ip (src_mem user s0) src off n (content d ac') ip' -> inode_ok ip' ->
     calm ac' [] -> room (Z.of_nat (length l) + c) s0 ac' l' 0 -> Q n s') ->
  wp (writei i user src off n) Q s.
Proof.
  intros T Hi [R1 R2 R3 R4 R5 R6 R7 R8] Hc HQ. eapply (writei_spec (Z.of_nat (length l) + c)); try done.
  - eapply room_le; [exact R7|]. unfold write_cost in Hc. unfold pot. case_decide; lia.
  - unfold ind_need. case_decide; lia.
Qed.

(** C7: [writei] writes the file.  A request that starts beyond the end of the
    file, overflows, or ends beyond the largest file changes nothing and
    returns -1.  Any other, in a well-formed file system with room, returns
    [n]: the file has the bytes of the source (kernel or user memory) at
    [off], its other bytes are as before, its size is the larger of the old
    one and the end of the write, and the inode block holds the new inode
    beside the old ones of its neighbours.  The file system is well formed
    again; the blocks of every other file are untouched; exactly the blocks
    the file got are newly marked in use; nothing was written to the disk; and
    the transaction has grown by at most [write_cost]. *)
Theorem writei_writes_file s0 ac d l s i ip user src off n :
  tstate s0 ac d l [] s -> entry s0 i ip -> 0 <= off < 2 ^ 32 -> 0 <= n < 2 ^ 32 -> 0 <= i_size ip ->
  write_bad ip off n \/ write_ready s0 ac d l ip user src off n (write_cost off n) ->
  wp (writei i user src off n) (fun r s' =>
    if decide (write_bad ip off n) then r = -1 /\ s' = s
    else r = n /\ exists ip' ac' l',
      tstate (put_entry i ip' s0) ac' d l' [] s' /\
      file_written (f_sb s0) (iblk s0 ip) (content d ac) ip (src_mem user s0) src off n (content d ac') ip' /\
      Z.of_nat (length l') <= Z.of_nat (length l) + write_cost off n) s.
Proof.
  intros T Hi Hoff Hn Hsz HR. destruct (decide (write_bad ip off n)) as [Hb|Hb].
  - unfold writei. apply wp_bind. eapply ts_geti; [exact T|exact Hi|]. unfold write_bad in Hb.
    assert (HM : MAXFILE * BSIZE = 274432) by done.
    destruct (Z.ltb_spec (i_size ip) off); [by apply wp_ret|]. cbn [orb].
    destruct (Z.le_gt_cases (2 ^ 32) (off + n)) as [Ho|Ho].
    + rewrite (proj2 (Z.ltb_lt (u32 (off + n)) off)); [by apply wp_ret|]. unfold u32.
      rewrite <- (Z_mod_plus_full _ (-1)), Z.mod_small; change (2 ^ 32) with 4294967296 in *; lia.
    + rewrite u32_small by lia. rewrite (proj2 (Z.ltb_ge (off + n) off)) by lia.
      rewrite (proj2 (Z.ltb_lt (MAXFILE * BSIZE) (off + n))) by lia. by apply wp_ret.
  - destruct HR as [HR|HR]; [done|]. eapply writei_ready; [exact T|exact Hi|exact HR|lia|].
    intros ip' ac' l' s' T' FW _ _ (_ & _ & _ & R4 & _). split; [done|]. exists ip', ac', l'. split; [done|]. split; [done|]. lia.
Qed.

Lemma file_bytes_rd V ip m src off n :
  (forall k, off <= k < off + n -> file_byte V ip k = rd m (src + (k - off))) ->
  file_bytes V ip off n = rd_bytes m src (Z.to_nat n).
Proof.
  intros H. unfold file_bytes, rd_bytes. apply list_eq. intros j. rewrite !list_lookup_fmap.
  destruct (decide (j < Z.to_nat n)%nat).
  - rewrite lookup_seqZ_lt, lookup_seq_lt by lia. simpl. f_equal. rewrite H by lia. f_equal. lia.
  - by rewrite lookup_seqZ_ge, lookup_seq_ge by lia.
Qed.

(** C16: what is written is read back.  [writei] of [n] bytes at [off] followed
    by [readi] of the same range into kernel memory at [dst] returns [n] and
    leaves at [dst] the bytes of the source. *)
Theorem writei_readi_roundtrip s0 ac d l s i ip user src off n dst :
  tstate s0 ac d l [] s -> entry s0 i ip -> write_ready s0 ac d l ip user src off n (write_cost off n) ->
  0 <= dst -> dst + n < 2 ^ 64 ->
  wp (writei i user src off n;; readi i false dst off n) (fun r s' =>
    r = n /\ f_kmem s' = wr_bytes (f_kmem s0) dst (rd_bytes (src_mem user s0) src (Z.to_nat n))) s.
Proof.
  intros T Hi R Hd0 Hd1. apply wp_bind. eapply writei_ready; [exact T|exact Hi|exact R|lia|].
  intros ip' ac' l' s1 T1 FW IO C1 (_ & _ & _ & _ & R5). destruct (ry_req _ _ _ _ _ _ _ _ _ _ R) as [SN Hdev WF Hoff Hn Hend _].
  pose proof (fwr_ip _ _ _ _ _ _ _ _ _ _ FW) as Hip. pose proof (fwr_file _ _ _ _ _ _ _ _ _ _ FW) as W1.
  assert (HM : MAXFILE = 268) by done. assert (HB : BSIZE = 1024) by done.
  assert (Hsz : i_size ip' = Z.max (i_size ip) (off + n)) by (by rewrite Hip).
  assert (Hlen : read_len ip' off n = n) by (unfold read_len; lia).
  pose proof (fw_size _ _ _ WF) as Hs0. rewrite HM, HB in Hend, Hs0.
  eapply wp_conseq.
  { apply (readi_spec (put_entry i ip' s0) ac' d l' [] s1 i ip' false dst off n); [exact T1|by eapply entry_put|lia|lia|lia|].
    left. rewrite Hlen. split; [by rewrite Hip|lia|lia|lia|split; [done|split; [done|discriminate]]|].
    intros bn H1 H2. rewrite HB in *. assert (0 <= off / 1024) by (apply Z.div_pos; lia).
    apply readable_calm; [done|lia|lia|]. apply (fw_mapped _ _ _ W1); [lia|]. rewrite HB. lia. }
  intros r s' Hr. cbv beta in Hr. destruct (decide _) as [Hb|_]; [lia|]. destruct Hr as [-> T2]. rewrite Hlen in *. split; [done|].
  destruct (keepsl_fields _ _ (ts_keeps _ _ _ _ _ _ T2)) as (_ & _ & _ & _ & -> & _). simpl. f_equal.
  apply file_bytes_rd. intros k Hk. rewrite (fwr_bytes _ _ _ _ _ _ _ _ _ _ FW) by lia. by rewrite decide_True.
Qed.

End claims.

(** ** A concrete file system *)

(** Everything before block 46 and the blocks 60, 61 and 62 are in use. *)
Definition demo_write_map : block := replicate 5 255 ++ [63; 0; 112] ++ replicate 1016 0.
Definition demo_write_disk : disk_t := mkDisk {[45 := demo_write_map]} [].

(** In a transaction, with nothing in the cache. *)
Definition demo_fs_with (d : disk_t) (l : list inode) : fstate := set_inodes l (setf_log (demo_txn_log 0 [] demo_log) (demo_fs d)).
Definition demo_write_fs : fstate := demo_fs_with demo_write_disk (inodes demo_inode_fs).
Definition demo_V : view := content demo_write_disk ∅.

Lemma demo_tstate d l : tstate (demo_fs_with d l) ∅ d [] [] (demo_fs_with d l).
Proof.
  apply tstate_inodes. change d with (f_disk (setf_log (demo_txn_log 0 [] demo_log) (demo_fs d))) at 2.
  apply (tstate_init _ ∅ (rev (seq 0 HEAD))).
  - apply bio_setlog, demo_bio.
  - split; try done; try (intros b Hb; by apply elem_of_nil in Hb).
    + apply prefix_nil.
    + apply NoDup_nil_2.
Qed.

Lemma demo_write_tstate : tstate demo_write_fs ∅ demo_write_disk [] [] demo_write_fs.
Proof. apply demo_tstate. Qed.

Lemma demo_sane : sb_sane demo_sb.
Proof. split; vm_compute; [discriminate|discriminate|reflexivity]. Qed.

Lemma forall_below (P : Z -> bool) n : forallb P (seqZ 0 n) = true -> forall k, 0 <= k < n -> P k = true.
Proof. rewrite forallb_forall. intros H k Hk. apply H, list_elem_of_In, elem_of_seqZ. lia. Qed.

Lemma demo_fs_wf : fs_wf demo_sb demo_V.
Proof.
  split.
  - intros b Hb. apply Nat.eqb_eq. revert b Hb. apply forall_below. vm_compute. reflexivity.
  - intros m Hm. revert m Hm. apply forall_below. vm_compute. reflexivity.
Qed.

Lemma demo_fblk bn : 0 <= bn < MAXFILE -> fblk demo_V demo_inode bn = if bn <? 3 then 60 + bn else 0.
Proof.
  intros Hb. apply Z.eqb_eq. revert bn Hb. apply forall_below. vm_compute. reflexivity.
Qed.

Lemma demo_file_wf : file_wf demo_sb demo_V demo_inode.
Proof.
  split.
  - reflexivity.
  - intros bn Hb Hn. rewrite demo_fblk in * by done. destruct (Z.ltb_spec bn 3); [|done].
    assert (bn = 0 \/ bn = 1 \/ bn = 2) as [->|[->| ->]] by lia; vm_compute; split; [split|..]; done.
  - intros H. exfalso. apply H. reflexivity.
  - intros bn bm H1 H2. rewrite !demo_fblk by done. destruct (Z.ltb_spec bn 3), (Z.ltb_spec bm 3); lia.
  - intros bn _ H. exfalso. apply H. reflexivity.
  - vm_compute. split; discriminate.
  - intros bn H0 H1. change (i_size demo_inode) with 3000 in H1. change BSIZE with 1024 in H1.
    rewrite demo_fblk by (change MAXFILE with 268; lia). rewrite (proj2 (Z.ltb_lt _ _)) by lia. lia.
Qed.

(** A hundred bytes at the end of the file, into a block it does not have. *)
Lemma demo_write_ready c : 6 <= c <= 20 -> write_ready (W := demo_world) demo_write_fs ∅ demo_write_disk [] demo_inode false 4096 3000 100 c.
Proof.
  intros Hc. split.
  - split; [exact demo_sane|reflexivity|exact demo_file_wf|vm_compute; split; discriminate|lia|vm_compute; discriminate|].
    split; [lia|]. split; [lia|discriminate].
  - exact demo_fs_wf.
  - exact demo_inode_ok.
  - vm_compute. discriminate.
  - vm_compute. split; [discriminate|reflexivity].
  - intros b a Ha. by rewrite lookup_empty in Ha.
  - split; [vm_compute; discriminate|]. simpl. split; [unfold LOGSIZE, MAXOPBLOCKS; lia|].
    change (lg_size (demo_txn_log 0 [] demo_log)) with 30. split; [lia|]. split; [lia|]. rewrite map_size_empty. unfold NBUF, MAXOPBLOCKS. lia.
  - vm_compute. discriminate.
Qed.

Lemma writei_writes_file_witness :
  wp (writei (im := demo_image) (W := demo_world) 0 false 4096 3000 100) (fun r s' => r = 100 /\ exists ip' ac' l',
    tstate (put_entry 0 ip' demo_write_fs) ac' demo_write_disk l' [] s' /\
    file_written demo_sb 32 demo_V demo_inode (f_kmem demo_write_fs) 4096 3000 100 (content demo_write_disk ac') ip' /\
    Z.of_nat (length l') <= 6) demo_write_fs.
Proof.
  eapply wp_conseq.
  - apply (writei_writes_file (im := demo_image) (W := demo_world) (WO := demo_world_ok) demo_write_fs ∅ demo_write_disk [] demo_write_fs
      0 demo_inode false 4096 3000 100 demo_write_tstate).
    + reflexivity.
    + lia.
    + lia.
    + vm_compute. discriminate.
    + right. apply demo_write_ready. vm_compute. split; discriminate.
  - intros r s' H. cbv beta in H. destruct (decide (write_bad demo_inode 3000 100)) as [Hb|_]; [|exact H].
    unfold write_bad in Hb. change (i_size demo_inode) with 3000 in Hb. change (MAXFILE * BSIZE) with 274432 in Hb. lia.
Defined.

Lemma writei_readi_roundtrip_witness :
  wp (writei (im := demo_image) (W := demo_world) 0 false 4096 3000 100;; readi (im := demo_image) (W := demo_world) 0 false 8192 3000 100)
    (fun r s' => r = 100 /\ f_kmem s' = wr_bytes (f_kmem demo_write_fs) 8192 (rd_bytes (f_kmem demo_write_fs) 4096 100)) demo_write_fs.
Proof.
  apply (writei_readi_roundtrip (im := demo_image) (W := demo_world) (WO := demo_world_ok) demo_write_fs ∅ demo_write_disk [] demo_write_fs
    0 demo_inode false 4096 3000 100 8192 demo_write_tstate).
  - reflexivity.
  - apply demo_write_ready. vm_compute. split; discriminate.
  - lia.
  - lia.
Defined.
