(* ===== verification/FsVolume.v ===== *)
(** * The files of a volume

    [volume_wf] is what a consistency check of the disk looks for: every file
    is well formed, no block belongs to two files, and the blocks the free map
    says are in use are exactly those that belong to a file.  [writei] keeps
    it, and the contents of all other files. *)
From stdpp Require Import base gmap strings numbers option list.
From S2P Require Import Prelude Layout Machine Memory Kernel Demo FsState Block Sleeplock.
From S2P Require Import Bio BioLogic Log LogCrash LogOps Fs FsLogic FsAlloc FsInode FsRead FsFile FsWrite.
Open Scope Z_scope.

Record volume_wf (sb : superblock) (V : view) (files : list inode) : Prop := {
  vw_fs : fs_wf sb V;
  vw_file : forall k ip, files !! k = Some ip -> file_wf sb V ip;
  vw_apart : forall j k jp ip b, files !! j = Some jp -> files !! k = Some ip -> owns V jp b -> owns V ip b -> j = k;
  vw_used : forall b, live sb V b -> exists k ip, files !! k = Some ip /\ owns V ip b
}.

(** The file [jp] has none of the blocks of [ip]. *)
Definition disjoint_files (V : view) (ip jp : inode) : Prop := forall b, owns V jp b -> ~ owns V ip b.

Section other.
Context (sb : superblock) (ib : Z) (V V' : view) (ip ip' : inode) (m : mem) (src off n : Z).
Context (SN : sb_sane sb) (FW : file_written sb ib V ip m src off n V' ip').

Lemma live_kept b : live sb V b -> live sb V' b.
Proof.
  intros [H1 H2]. split; [done|]. pose proof (data_pos sb SN).
  apply (fwr_used _ _ _ _ _ _ _ _ _ _ FW); [lia|by left].
Qed.

Context (jp : inode) (WJ : file_wf sb V jp) (HD : disjoint_files V ip jp).

Lemma other_block b : owns V jp b -> V' b = V b.
Proof. intros Hb. apply (fwr_other _ _ _ _ _ _ _ _ _ _ FW); [by eapply owns_live|by apply HD]. Qed.

Lemma other_fblk bn : fblk V' jp bn = fblk V jp bn.
Proof.
  unfold fblk, blk_of. destruct (Z.eqb_spec (addr jp NDIRECT) 0) as [E|E].
  - rewrite andb_true_r. destruct (Z.leb_spec NDIRECT bn); [done|]. by rewrite (proj2 (Z.ltb_lt _ _)).
  - rewrite andb_false_r. destruct (bn <? NDIRECT); [done|]. rewrite other_block; [done|]. split; [done|by left].
Qed.

Lemma other_owns b : owns V' jp b <-> owns V jp b.
Proof. unfold owns. by setoid_rewrite other_fblk. Qed.

Lemma other_file_wf : file_wf sb V' jp.
Proof.
  apply (file_wf_same sb V V' jp jp); try done; [intros; apply other_fblk|apply live_kept|apply WJ|apply WJ].
Qed.

Lemma other_bytes o k : 0 <= o -> o + k <= i_size jp -> file_bytes V' jp o k = file_bytes V jp o k.
Proof.
  intros Ho Hk. unfold file_bytes. apply list_fmap_ext. intros j x Hx. apply lookup_seqZ in Hx as [-> Hj].
  pose proof (fw_size _ _ _ WJ) as Hs. set (x := o + Z.of_nat j). assert (Hx : 0 <= x < i_size jp) by (unfold x; lia).
  change (MAXFILE * BSIZE) with (268 * BSIZE) in Hs. change BSIZE with 1024 in Hs.
  assert (H0 : 0 <= x / 1024 < 268) by (split; [apply Z.div_pos; lia|apply Z.div_lt_upper_bound; lia]).
  assert (Hm : fblk V jp (x / BSIZE) <> 0).
  { apply (fw_mapped _ _ _ WJ); change BSIZE with 1024; [lia|]. pose proof (Z.mul_div_le x 1024 eq_refl). lia. }
  rewrite !file_byte_fbyte by (rewrite ?other_fblk; done). unfold fbyte. rewrite other_fblk, other_block; [done|].
  split; [done|]. right. exists (x / BSIZE). done.
Qed.

End other.

(** The volume after the write: only the file that was written differs. *)
Lemma volume_written sb ib V V' ip ip' m src off n files k :
  sb_sane sb -> file_written sb ib V ip m src off n V' ip' -> volume_wf sb V files -> files !! k = Some ip ->
  volume_wf sb V' (<[k := ip']> files).
Proof.
  intros SN FW [VF VW VA VU] Hk.
  assert (HD : forall j jp, j <> k -> files !! j = Some jp -> disjoint_files V ip jp).
  { intros j jp Hj Hl b H1 H2. by apply Hj, (VA j k jp ip b). }
  assert (Hown : forall j jp b, j <> k -> files !! j = Some jp -> owns V' jp b <-> owns V jp b).
  { intros j jp b Hj Hl. eapply other_owns; eauto. }
  assert (Hnew : forall j jp b, j <> k -> files !! j = Some jp -> owns V' jp b -> owns V' ip' b -> False).
  { intros j jp b Hj Hl H1 H2. apply (Hown j) in H1; [|done|done].
    apply (fwr_own _ _ _ _ _ _ _ _ _ _ FW) in H2 as [H2|H2]; [by eapply HD|].
    destruct (owns_live sb V jp b) as [_ H3]; [by eapply VW|done|]. congruence. }
  assert (Hlt : (k < length files)%nat) by (by eapply lookup_lt_Some).
  split.
  - apply FW.
  - intros j jp Hl. destruct (decide (j = k)) as [->|Hj].
    + rewrite list_lookup_insert_eq in Hl by done. injection Hl as <-. apply FW.
    + rewrite list_lookup_insert_ne in Hl by done. eapply other_file_wf; eauto.
  - intros j i jp ip1 b Hj Hi H1 H2. destruct (decide (j = k)) as [->|Hnj], (decide (i = k)) as [->|Hni]; try done;
      rewrite ?list_lookup_insert_eq, ?list_lookup_insert_ne in * by done; simplify_eq; try (by exfalso; eauto).
    apply (VA j i jp ip1 b); try done; [by apply (Hown j)|by apply (Hown i)].
  - intros b [H1 H2]. pose proof (data_pos sb SN).
    apply (fwr_used _ _ _ _ _ _ _ _ _ _ FW) in H2 as [H2|H2]; [|exists k, ip'; by rewrite list_lookup_insert_eq|lia].
    destruct (VU b) as (j & jp & Hj & Ho); [done|]. destruct (decide (j = k)) as [->|Hnj].
    + simplify_eq. exists k, ip'. rewrite list_lookup_insert_eq by done. split; [done|]. by apply FW.
    + exists j, jp. rewrite list_lookup_insert_ne by done. split; [done|]. by eapply Hown.
Qed.

Section claims.
Context `{im : Image} `{W : World} `{WO : !WorldOk W}.

(** C8: [writei] keeps the volume well typed.  On a volume whose files are well
    formed and share no block, and whose free map marks exactly the blocks of
    files, a write to one of the files that has room leaves such a volume, with
    that file's inode replaced, and every byte of every other file as it was. *)
Theorem writei_keeps_volume s0 ac d l s i ip user src off n files k :
  tstate s0 ac d l [] s -> entry s0 i ip -> write_ready s0 ac d l ip user src off n (write_cost off n) ->
  volume_wf (f_sb s0) (content d ac) files -> files !! k = Some ip ->
  wp (writei i user src off n) (fun r s' => exists ip' ac' l',
    tstate (put_entry i ip' s0) ac' d l' [] s' /\
    volume_wf (f_sb s0) (content d ac') (<[k := ip']> files) /\
    forall j jp o m, j <> k -> files !! j = Some jp -> 0 <= o -> o + m <= i_size jp ->
      file_bytes (content d ac') jp o m = file_bytes (content d ac) jp o m) s.
Proof.
  intros T Hi R VW Hk. eapply writei_ready; [exact T|exact Hi|exact R|lia|].
  intros ip' ac' l' s' T' FW _ _ _. destruct (ry_req _ _ _ _ _ _ _ _ _ _ R) as [SN _ _ _ _ _ _].
  exists ip', ac', l'. split; [exact T'|]. split; [by eapply volume_written|].
  intros j jp o m Hj Hl. eapply other_bytes; [exact FW|by eapply vw_file|].
  intros b H1 H2. by apply Hj, (vw_apart _ _ _ VW j k jp ip b).
Qed.

End claims.

(** ** The concrete file system *)

(** A file with three blocks and an empty one. *)
Definition demo_empty_file : inode := seti_size 0 (seti_addrs (replicate 13 0) demo_inode).

Lemma demo_empty_fblk bn : 0 <= bn < MAXFILE -> fblk demo_V demo_empty_file bn = 0.
Proof. intros Hb. apply Z.eqb_eq. revert bn Hb. apply forall_below. vm_compute. reflexivity. Qed.

Lemma demo_empty_owns b : ~ owns demo_V demo_empty_file b.
Proof. intros [Hb [H|(bn & Hn & H)]]; [by vm_compute in H; subst|]. rewrite demo_empty_fblk in H by done. by subst. Qed.

Lemma demo_live_owned b : live demo_sb demo_V b -> owns demo_V demo_inode b.
Proof.
  intros [H1 H2]. assert (Hb : 60 <= b < 63).
  { assert (HA : forall b, 0 <= b < sb_size demo_sb ->
      (negb (block_used demo_V demo_sb b) || (b <? data_start demo_sb) || ((60 <=? b) && (b <? 63))) = true)
      by (apply forall_below; vm_compute; reflexivity).
    pose proof (data_pos demo_sb demo_sane). specialize (HA b ltac:(lia)). rewrite H2 in HA.
    rewrite (proj2 (Z.ltb_ge _ _)) in HA by lia. simpl in HA.
    apply andb_true_iff in HA as [HA1 HA2]. apply Z.leb_le in HA1. apply Z.ltb_lt in HA2. lia. }
  split; [lia|]. right. exists (b - 60). change MAXFILE with 268. split; [lia|].
  rewrite demo_fblk by (change MAXFILE with 268; lia). rewrite (proj2 (Z.ltb_lt _ _)) by lia. lia.
Qed.

Lemma demo_volume_wf : volume_wf demo_sb demo_V [demo_inode; demo_empty_file].
Proof.
  split.
  - exact demo_fs_wf.
  - intros [|[|k]] ip H; simpl in H; simplify_eq; [exact demo_file_wf|].
    split.
    + reflexivity.
    + intros bn Hb Hn. by rewrite demo_empty_fblk in Hn.
    + intros H. exfalso. by apply H.
    + intros bn bm Hb _ Hn. by rewrite demo_empty_fblk in Hn.
    + intros bn _ H. exfalso. by apply H.
    + vm_compute. split; discriminate.
    + intros bn H0 H1. change (i_size demo_empty_file) with 0 in H1. change BSIZE with 1024 in H1. lia.
  - intros [|[|j]] [|[|k]] jp ip b Hj Hk H1 H2; simpl in *; simplify_eq; try done; exfalso; by eapply demo_empty_owns.
  - intros b Hb. exists 0%nat, demo_inode. split; [done|]. by apply demo_live_owned.
Qed.

Lemma writei_keeps_volume_witness :
  wp (writei (im := demo_image) (W := demo_world) 0 false 4096 3000 100) (fun r s' => exists ip' ac' l',
    tstate (put_entry 0 ip' demo_write_fs) ac' demo_write_disk l' [] s' /\
    volume_wf demo_sb (content demo_write_disk ac') (<[0%nat := ip']> [demo_inode; demo_empty_file]) /\
    forall j jp o m, j <> 0%nat -> [demo_inode; demo_empty_file] !! j = Some jp -> 0 <= o -> o + m <= i_size jp ->
      file_bytes (content demo_write_disk ac') jp o m = file_bytes demo_V jp o m) demo_write_fs.
Proof.
  apply (writei_keeps_volume (im := demo_image) (W := demo_world) (WO := demo_world_ok) demo_write_fs ∅ demo_write_disk []
    demo_write_fs 0 demo_inode false 4096 3000 100 [demo_inode; demo_empty_file] 0%nat demo_write_tstate).
  - reflexivity.
  - apply demo_write_ready. vm_compute. split; discriminate.
  - exact demo_volume_wf.
  - reflexivity.
Defined.
