(* ===== verification/FsDir.v ===== *)
(** * Directories

    A directory as the list of its entries, and [dirlookup] and [dirlink]
    against it. *)
From stdpp Require Import base gmap strings numbers option list.
From S2P Require Import Prelude Layout Machine Memory Kernel Demo FsState Block Sleeplock.
From S2P Require Import Bio BioLogic Log LogCrash LogOps Fs FsLogic FsAlloc FsInode FsRead FsFile FsWrite.
Open Scope Z_scope.

(** ** Entries *)

(** The string in a buffer of [n] bytes: it ends at a NUL or with the buffer. *)
Fixpoint trunc (n : nat) (l : list Z) : list Z :=
  match n, l with
  | S n', c :: l' => if c =? 0 then [] else c :: trunc n' l'
  | _, _ => []
  end.

(** [strncmp] is 0 on equal strings only. *)
Lemma strncmp_zero n p q : strncmp_l n p q = 0 <-> trunc n p = trunc n q.
Proof.
  revert p q. induction n as [|n IH]; intros p q; simpl; [done|].
  destruct p as [|c p], q as [|e q]; simpl.
  - done.
  - destruct (Z.eqb_spec e 0) as [->|He]; [done|]. split; [lia|done].
  - destruct (Z.eqb_spec c 0) as [->|Hc]; simpl; [done|]. destruct (Z.eqb_spec c 0); [done|]. split; [lia|done].
  - destruct (Z.eqb_spec c 0) as [->|Hc]; simpl.
    + destruct (Z.eqb_spec e 0) as [->|He]; [done|]. split; [lia|done].
    + destruct (Z.eqb_spec c e) as [->|Hce].
      * rewrite IH, (proj2 (Z.eqb_neq e 0)) by done. split; [by intros ->|by intros [= ->]].
      * split; [lia|]. destruct (e =? 0); [done|]. intros [= ->]. done.
Qed.

Definition ent_byte (V : view) (ip : inode) (k j : Z) : Z := u8 (file_byte V ip (DIRENT_SIZE * k + j)).
Definition ent_inum (V : view) (ip : inode) (k : Z) : Z := ent_byte V ip k 0 + 256 * ent_byte V ip k 1.
Definition ent_name (V : view) (ip : inode) (k : Z) : list Z := (fun j => ent_byte V ip k (2 + Z.of_nat j)) <$> seq 0 14.

(** Entry [k] is for [name]. *)
Definition ent_is (V : view) (ip : inode) (name : list Z) (k : Z) : bool :=
  negb (ent_inum V ip k =? 0) && bool_decide (trunc 14 name = trunc 14 (ent_name V ip k)).

Definition ents (ip : inode) : Z := i_size ip / DIRENT_SIZE.

Lemma ents_size ip : i_size ip mod DIRENT_SIZE = 0 -> i_size ip = 16 * ents ip.
Proof. intros H. unfold ents. pose proof (Z.div_mod (i_size ip) DIRENT_SIZE ltac:(done)). change DIRENT_SIZE with 16 in *. lia. Qed.

(** The first entry with the property. *)
Definition dir_first (ip : inode) (P : Z -> bool) : option Z :=
  snd <$> list_find (fun k => P k = true) (seqZ 0 (ents ip)).
Definition dir_find (V : view) (ip : inode) (name : list Z) : option Z := dir_first ip (ent_is V ip name).

Lemma dir_first_some ip P k : dir_first ip P = Some k <->
  0 <= k < ents ip /\ P k = true /\ forall j, 0 <= j < k -> P j = false.
Proof.
  unfold dir_first. rewrite fmap_Some. split.
  - intros ([i x] & H & ->). simpl. apply list_find_Some in H as (H1 & H2 & H3). apply lookup_seqZ in H1 as [-> H1].
    split; [lia|]. split; [done|]. intros j Hj. apply not_true_iff_false. intros Hp.
    apply (H3 (Z.to_nat j) j); [apply lookup_seqZ; lia|lia|done].
  - intros (H1 & H2 & H3). exists (Z.to_nat k, k). split; [|done]. apply list_find_Some.
    split; [apply lookup_seqZ; lia|]. split; [done|]. intros j y Hj Hlt Hp. apply lookup_seqZ in Hj as [-> Hj].
    rewrite H3 in Hp by lia. done.
Qed.

Lemma dir_first_none ip P : dir_first ip P = None <-> forall j, 0 <= j < ents ip -> P j = false.
Proof.
  unfold dir_first. rewrite fmap_None, list_find_None, Forall_forall. split.
  - intros H j Hj. apply not_true_iff_false, H, elem_of_seqZ. lia.
  - intros H j Hj. apply elem_of_seqZ in Hj. rewrite H by lia. done.
Qed.

Lemma rd_wr_bytes m a bs b :
  rd (wr_bytes m a bs) b = if decide (a <= b < a + Z.of_nat (length bs)) then u8 (nth (Z.to_nat (b - a)) bs 0) else rd m b.
Proof.
  revert m a. induction bs as [|c bs IH]; intros m a; simpl.
  - rewrite decide_False by lia. done.
  - rewrite IH. destruct (decide (b = a)) as [->|Hne].
    + rewrite decide_False, decide_True by lia. rewrite rd_wr_eq, Z.sub_diag. done.
    + rewrite rd_wr_ne by congruence. case_decide as Hd.
      * rewrite decide_True by lia. replace (Z.to_nat (b - a)) with (S (Z.to_nat (b - (a + 1)))) by lia. done.
      * rewrite decide_False by lia. done.
Qed.

(** The entry in memory after it has been read. *)
Lemma read_entry m V ip k : let m' := wr_bytes m DE_ADDR (file_bytes V ip (DIRENT_SIZE * k) DIRENT_SIZE) in
  de_inum m' = ent_inum V ip k /\ de_name m' = ent_name V ip k.
Proof.
  intros m'. assert (Hb : forall j, 0 <= j < 16 -> rd m' (DE_ADDR + j) = ent_byte V ip k j).
  { intros j Hj. unfold m'. rewrite rd_wr_bytes, length_file_bytes. change (Z.of_nat (Z.to_nat DIRENT_SIZE)) with 16.
    rewrite decide_True by lia. unfold ent_byte. f_equal. unfold file_bytes. rewrite nth_lookup, list_lookup_fmap.
    replace (DE_ADDR + j - DE_ADDR) with j by lia. rewrite lookup_seqZ_lt by (rewrite Z2Nat.id by lia; exact (proj2 Hj)).
    simpl. f_equal. lia. }
  split.
  - unfold de_inum, ent_inum. rewrite <- (Hb 0), <- (Hb 1), Z.add_0_r by lia.
    change (ld 2 m' DE_ADDR) with (rd m' DE_ADDR + 256 * (rd m' (DE_ADDR + 1) + 256 * 0)). lia.
  - unfold de_name, ent_name, rd_bytes. apply list_fmap_ext. intros i x Hx. apply lookup_seq in Hx as [-> Hx].
    rewrite <- Hb by lia. f_equal. lia.
Qed.

(** ** [dirlookup] *)

Record dir_ready (s0 : fstate) (ac : acache) (d : disk_t) (ip : inode) : Prop := {
  dr_dev : i_dev ip = ROOTDEV;
  dr_type : i_type ip = T_DIR;
  dr_file : file_wf (f_sb s0) (content d ac) ip;
  dr_whole : i_size ip mod DIRENT_SIZE = 0;
  dr_calm : calm ac [];
  dr_cache : Z.of_nat (size ac) < NBUF
}.

(** What [iget] makes of entry [x] of the table for inode [inum]. *)
Definition igot (inum : Z) (x x' : inode) : Prop :=
  (FsInode.in_use ROOTDEV inum x /\ x' = seti_ref (i_ref x + 1) x) \/
  (i_ref x = 0 /\ x' = fresh_entry ROOTDEV inum x).

(** Every inode has an entry or can get one. *)
Definition itable_room (s : fstate) : Prop := forall inum, iget_scan ROOTDEV inum (inodes s) 0 None <> inr None.

Section dir.
Context `{im : Image} `{W : World} `{WO : !WorldOk W}.

Lemma tstate_kmem m s0 ac d l hs s : tstate s0 ac d l hs s -> tstate (setf_kmem m s0) ac d l hs (setf_kmem m s).
Proof.
  intros [[order [B1 B2 B3]] (w & d' & bs & g & ->) HD HH [T1 T2 T3 T4 T5 T6 T7]].
  split; [exists order; by split|by exists w, d', bs, g|done..|by split].
Qed.

Lemma read_ent_spec s0 ac d l s dp ip m k (Q : Z -> fstate -> Prop) :
  tstate (setf_kmem m s0) ac d l [] s -> entry s0 dp ip -> dir_ready s0 ac d ip -> 0 <= k < ents ip ->
  (forall m' s', tstate (setf_kmem m' s0) ac d l [] s' -> f_kmem s' = m' ->
     de_inum m' = ent_inum (content d ac) ip k -> de_name m' = ent_name (content d ac) ip k -> Q DIRENT_SIZE s') ->
  wp (readi dp false DE_ADDR (DIRENT_SIZE * k) DIRENT_SIZE) Q s.
Proof.
  intros T Hi [D1 D2 D3 D4 D5 D6] Hk HQ. pose proof (ents_size ip D4) as Hes. change DIRENT_SIZE with 16 in *.
  pose proof (fw_size _ _ _ D3) as Hs. change (MAXFILE * BSIZE) with 274432 in Hs. assert (HD : DE_ADDR = 274877841408) by done.
  assert (Hlen : read_len ip (16 * k) 16 = 16) by (unfold read_len; lia).
  eapply wp_conseq.
  { apply (readi_spec (setf_kmem m s0) ac d l [] s dp ip false DE_ADDR (16 * k) 16 T Hi); [lia|lia|lia|]. left. rewrite Hlen.
    split; [done|lia|lia|lia|split; [lia|split; [lia|discriminate]]|]. intros bn H1 H2. change BSIZE with 1024 in *.
    assert (0 <= 16 * k / 1024) by (apply Z.div_pos; lia).
    apply readable_calm; [done|done|change MAXFILE with 268; lia|]. apply (fw_mapped _ _ _ D3); [lia|]. change BSIZE with 1024. lia. }
  intros r s' Hr. cbv beta in Hr. destruct (decide _) as [Hb|_]; [lia|]. rewrite Hlen in Hr. destruct Hr as [-> T2].
  destruct (read_entry m (content d ac) ip k) as [E1 E2]. change DIRENT_SIZE with 16 in *.
  eapply HQ; [exact T2| |exact E1|exact E2].
  by destruct (keepsl_fields _ _ (ts_keeps _ _ _ _ _ _ T2)) as (_ & _ & _ & _ & -> & _).
Qed.

Lemma iget_spec s0 ac d l s inum (Q : nat -> fstate -> Prop) :
  tstate s0 ac d l [] s -> lock_free (it_lock (f_itable s0)) -> itable_room s0 ->
  (forall j x x' s', entry s0 j x -> igot inum x x' -> tstate (put_entry j x' s0) ac d l [] s' -> Q j s') ->
  wp (iget ROOTDEV inum) Q s.
Proof.
  intros T Hl Hr HQ. pose proof (ts_inodes _ _ _ _ _ _ T) as He.
  assert (Hidle : itable_idle s).
  { split; [by eapply ts_hart|]. by destruct (keepsl_fields _ _ (ts_keeps _ _ _ _ _ _ T)) as (_ & _ & _ & -> & _). }
  pose proof (iget_scan_found ROOTDEV inum (inodes s)) as HS. specialize (Hr inum). rewrite <- He in Hr. unfold wp.
  destruct (iget_scan ROOTDEV inum (inodes s) 0 None) as [k|[k|]] eqn:E; [inversion HS; subst|inversion HS; subst|done].
  - rewrite (iget_hit s ROOTDEV inum k x) by done. apply (HQ k x (seti_ref (i_ref x + 1) x)).
    + unfold entry. by rewrite <- He.
    + by left.
    + by apply ts_put_entry.
  - rewrite (iget_free s ROOTDEV inum k x) by done. apply (HQ k x (fresh_entry ROOTDEV inum x)).
    + unfold entry. by rewrite <- He.
    + by right.
    + by apply ts_put_entry.
Qed.

Lemma ents_count ip : 0 <= i_size ip -> i_size ip mod DIRENT_SIZE = 0 -> (i_size ip + DIRENT_SIZE - 1) / DIRENT_SIZE = ents ip.
Proof.
  intros H0 H. pose proof (ents_size ip H) as E. change DIRENT_SIZE with 16. symmetry.
  apply Z.div_unique with 15; lia.
Qed.

(** An entry that is free or for another name is passed over. *)
Lemma dirlookup_skip s0 ac d l s dp ip name m k :
  tstate (setf_kmem m s0) ac d l [] s -> entry s0 dp ip -> dir_ready s0 ac d ip -> 0 <= k < ents ip ->
  ent_is (content d ac) ip name k = false ->
  wp (dirlookup_one dp name k) (fun r s' => r = None /\ exists m', tstate (setf_kmem m' s0) ac d l [] s') s.
Proof.
  intros T Hi D Hk Hf. unfold dirlookup_one. apply wp_bind. eapply read_ent_spec; [exact T|exact Hi|exact D|done|].
  intros m' s' T' Hm E1 E2. rewrite Z.eqb_refl. cbn [negb]. apply wp_bind, wp_gets. rewrite Hm, E1, E2.
  unfold ent_is in Hf. destruct (_ =? 0); cbn [negb andb] in Hf; [apply wp_ret; eauto|].
  apply bool_decide_eq_false in Hf. destruct (Z.eqb_spec (namecmp name (ent_name (content d ac) ip k)) 0) as [E|_].
  - by apply strncmp_zero in E.
  - apply wp_ret. eauto.
Qed.

(** The entry for the name. *)
Lemma dirlookup_hit s0 ac d l s dp ip name m k (Q : option (nat * Z) -> fstate -> Prop) :
  tstate (setf_kmem m s0) ac d l [] s -> entry s0 dp ip -> dir_ready s0 ac d ip -> 0 <= k < ents ip ->
  lock_free (it_lock (f_itable s0)) -> itable_room s0 -> ent_is (content d ac) ip name k = true ->
  (forall m' j x x' s', entry s0 j x -> igot (ent_inum (content d ac) ip k) x x' ->
     tstate (put_entry j x' (setf_kmem m' s0)) ac d l [] s' -> Q (Some (j, DIRENT_SIZE * k)) s') ->
  wp (dirlookup_one dp name k) Q s.
Proof.
  intros T Hi D Hk Hl Hr Hf HQ. unfold dirlookup_one. apply wp_bind. eapply read_ent_spec; [exact T|exact Hi|exact D|done|].
  intros m' s' T' Hm E1 E2. rewrite Z.eqb_refl. cbn [negb]. apply wp_bind, wp_gets. rewrite Hm, E1, E2.
  unfold ent_is in Hf. apply andb_true_iff in Hf as [Hf1 Hf2]. apply negb_true_iff in Hf1. rewrite Hf1.
  apply bool_decide_eq_true in Hf2. rewrite (proj2 (Z.eqb_eq _ _)) by (by apply strncmp_zero).
  apply wp_bind. eapply (ts_geti (setf_kmem m' s0)); [exact T'|exact Hi|]. rewrite (dr_dev _ _ _ _ D).
  apply wp_bind. eapply (iget_spec (setf_kmem m' s0)); [exact T'|done|done|]. intros j x x' s2 Hj Hx T2. apply wp_ret. by eapply HQ.
Qed.

Lemma dirlookup_spec s0 ac d l s dp ip name m (Q : option (nat * Z) -> fstate -> Prop) :
  tstate (setf_kmem m s0) ac d l [] s -> entry s0 dp ip -> dir_ready s0 ac d ip ->
  lock_free (it_lock (f_itable s0)) -> itable_room s0 ->
  (forall m' s', dir_find (content d ac) ip name = None -> tstate (setf_kmem m' s0) ac d l [] s' -> Q None s') ->
  (forall k m' j x x' s', dir_find (content d ac) ip name = Some k -> entry s0 j x ->
     igot (ent_inum (content d ac) ip k) x x' ->
     tstate (put_entry j x' (setf_kmem m' s0)) ac d l [] s' -> Q (Some (j, DIRENT_SIZE * k)) s') ->
  wp (dirlookup dp name) Q s.
Proof.
  intros T Hi D Hl Hr HN HS. pose proof (fw_size _ _ _ (dr_file _ _ _ _ D)) as Hs.
  unfold dirlookup. apply wp_bind. eapply (ts_geti (setf_kmem m s0)); [exact T|exact Hi|].
  rewrite (dr_type _ _ _ _ D), Z.eqb_refl. cbn [negb]. rewrite ents_count by (lia || exact (dr_whole _ _ _ _ D)).
  destruct (dir_find (content d ac) ip name) as [k|] eqn:E.
  - pose proof E as E'. apply dir_first_some in E' as (Hk & Hm & Hf). rewrite (seqZ_split 0 _ k) by done. rewrite Z.add_0_l.
    apply (wp_for_find_at _ _ _ _ (fun t => exists m', tstate (setf_kmem m' s0) ac d l [] t)); [| |eauto].
    + intros j t Hj [m' T']. apply elem_of_seqZ in Hj. eapply dirlookup_skip; [exact T'|exact Hi|exact D|lia|]. apply Hf. lia.
    + intros t [m' T']. eapply dirlookup_hit; [exact T'|exact Hi|exact D|done|done|done|done|].
      intros m2 j x x' s' H1 H2 H3. split; [by eexists|]. by eapply HS.
  - pose proof E as E'. pose proof (proj1 (dir_first_none _ _) E') as E2. clear E'.
    eapply wp_conseq; [apply (wp_for_find_none _ _ (fun t => exists m', tstate (setf_kmem m' s0) ac d l [] t)); [|eauto]|].
    + intros j t Hj [m' T']. apply elem_of_seqZ in Hj. eapply dirlookup_skip; [exact T'|exact Hi|exact D|lia|]. apply E2. lia.
    + intros r t [-> [m' T']]. by eapply HN.
Qed.

(** C14: [dirlookup] finds names.  On a well-formed directory it looks at the
    entries in order; names are compared as strings of at most [DIRSIZ] bytes,
    and free entries never match.  When no entry matches it returns 0 and has
    changed nothing but its local buffer; otherwise it returns the entry of the
    inode table for the inode that the first match names, with a reference
    taken, and the offset of the match. *)
Theorem dirlookup_finds s0 ac d l s dp ip name :
  tstate s0 ac d l [] s -> entry s0 dp ip -> dir_ready s0 ac d ip ->
  lock_free (it_lock (f_itable s0)) -> itable_room s0 ->
  wp (dirlookup dp name) (fun r s' => exists m,
    match dir_find (content d ac) ip name with
    | None => r = None /\ tstate (setf_kmem m s0) ac d l [] s'
    | Some k => exists j x x', r = Some (j, DIRENT_SIZE * k) /\ entry s0 j x /\
        igot (ent_inum (content d ac) ip k) x x' /\ tstate (put_entry j x' (setf_kmem m s0)) ac d l [] s'
    end) s.
Proof.
  intros T Hi D Hl Hr. replace s0 with (setf_kmem (f_kmem s0) s0) in T by (by destruct s0).
  eapply dirlookup_spec; [exact T|done|done|done|done| |].
  - intros m' s' -> T'. by exists m'.
  - intros k m' j x x' s' -> H1 H2 H3. exists m', j, x, x'. done.
Qed.

(** ** [dirlink] *)

Definition ent_free (V : view) (ip : inode) (k : Z) : bool := ent_inum V ip k =? 0.

(** Where a new entry goes: the first free one, or the end. *)
Definition dir_slot (V : view) (ip : inode) : Z := default (ents ip) (dir_first ip (ent_free V ip)).

Lemma dir_slot_range V ip : 0 <= i_size ip -> 0 <= dir_slot V ip <= ents ip /\
  (dir_slot V ip < ents ip -> ent_free V ip (dir_slot V ip) = true).
Proof.
  intros Hs. assert (0 <= ents ip) by (apply Z.div_pos; done). unfold dir_slot.
  destruct (dir_first ip (ent_free V ip)) as [k|] eqn:E; simpl; [|lia].
  apply dir_first_some in E as (H1 & H2 & _). split; [lia|done].
Qed.

Lemma dirlink_scan s0 ac d l s dp ip m (Q : option Z -> fstate -> Prop) :
  tstate (setf_kmem m s0) ac d l [] s -> entry s0 dp ip -> dir_ready s0 ac d ip ->
  (forall m' s', tstate (setf_kmem m' s0) ac d l [] s' ->
     Q (Z.mul DIRENT_SIZE <$> dir_first ip (ent_free (content d ac) ip)) s') ->
  wp (for_find (seqZ 0 (ents ip)) (dirlink_one dp)) Q s.
Proof.
  intros T Hi D HQ. set (V := content d ac) in *.
  assert (Hone : forall k m1 t, 0 <= k < ents ip -> tstate (setf_kmem m1 s0) ac d l [] t ->
    wp (dirlink_one dp k) (fun r t' => r = (if ent_free V ip k then Some (DIRENT_SIZE * k) else None) /\
      exists m2, tstate (setf_kmem m2 s0) ac d l [] t') t).
  { intros k m1 t Hk Tt. unfold dirlink_one. apply wp_bind. eapply read_ent_spec; [exact Tt|exact Hi|exact D|done|].
    intros m2 t' T' Hm E1 _. rewrite Z.eqb_refl. cbn [negb]. apply wp_bind, wp_gets. rewrite Hm, E1. fold V. unfold ent_free.
    destruct (ent_inum V ip k =? 0); apply wp_ret; eauto. }
  destruct (dir_first ip (ent_free V ip)) as [k|] eqn:E.
  - apply dir_first_some in E as (Hk & Hm & Hf). rewrite (seqZ_split 0 _ k) by done. rewrite Z.add_0_l.
    apply (wp_for_find_at _ _ _ _ (fun t => exists m', tstate (setf_kmem m' s0) ac d l [] t)); [| |eauto].
    + intros j t Hj [m' T']. apply elem_of_seqZ in Hj. eapply wp_conseq; [eapply Hone; [|exact T']; lia|].
      intros r t' [-> Ht']. rewrite Hf by lia. done.
    + intros t [m' T']. eapply wp_conseq; [eapply Hone; [|exact T']; lia|]. intros r t' [-> [m2 Ht']]. rewrite Hm. split; [by eexists|].
      by eapply HQ.
  - pose proof (proj1 (dir_first_none _ _) E) as E2.
    eapply wp_conseq; [apply (wp_for_find_none _ _ (fun t => exists m', tstate (setf_kmem m' s0) ac d l [] t)); [|eauto]|].
    + intros j t Hj [m' T']. apply elem_of_seqZ in Hj. eapply wp_conseq; [eapply Hone; [|exact T']; lia|].
      intros r t' [-> Ht']. rewrite E2 by lia. done.
    + intros r t [-> [m' T']]. by eapply HQ.
Qed.

(** The entry in memory before it is written. *)
Definition new_entry (m : mem) (name : list Z) (inum : Z) : mem :=
  st 2 (wr_bytes m (DE_ADDR + 2) (pad_name name)) DE_ADDR inum.

Lemma length_pad_name name : length (pad_name name) = 14%nat.
Proof. unfold pad_name. rewrite length_app, length_take, length_replicate. lia. Qed.

Lemma new_entry_bytes m name inum : 0 <= inum < 2 ^ 16 -> let m' := new_entry m name inum in
  rd m' DE_ADDR + 256 * rd m' (DE_ADDR + 1) = inum /\
  forall j, 0 <= j < 14 -> rd m' (DE_ADDR + (2 + j)) = u8 (nth (Z.to_nat j) (pad_name name) 0).
Proof.
  intros Hi m'. unfold m', new_entry. split.
  - set (m2 := wr_bytes m (DE_ADDR + 2) (pad_name name)). pose proof (ld_st_same 2 m2 DE_ADDR inum) as E.
    change (256 ^ Z.of_nat 2) with (2 ^ 16) in E. rewrite Z.mod_small in E by lia.
    change (ld 2 (st 2 m2 DE_ADDR inum) DE_ADDR) with
      (rd (st 2 m2 DE_ADDR inum) DE_ADDR + 256 * (rd (st 2 m2 DE_ADDR inum) (DE_ADDR + 1) + 256 * 0)) in E. lia.
  - intros j Hj. rewrite rd_st_out by lia. rewrite rd_wr_bytes, length_pad_name, decide_True by lia.
    f_equal. f_equal. lia.
Qed.

(** The bytes of a C string. *)
Definition name_ok (name : list Z) : Prop := Forall (fun c => 0 < c < 256) name.

Lemma trunc_name name : name_ok name -> forall n k, trunc n (u8 <$> (take n name ++ replicate k 0)) = trunc n name.
Proof.
  induction 1 as [|c name Hc _ IH]; intros n k.
  - destruct n, k; done.
  - destruct n as [|n]; [by destruct k|]. simpl. rewrite u8_small by lia. rewrite (proj2 (Z.eqb_neq c 0)) by lia. f_equal. apply IH.
Qed.

(** The directory after [name] has been entered as entry [k]. *)
Record dir_added (V : view) (ip : inode) (V' : view) (ip' : inode) (name : list Z) (inum k : Z) : Prop := {
  da_found : dir_find V' ip' name = Some k;
  da_inum : ent_inum V' ip' k = inum;
  da_same : forall j, 0 <= j < ents ip -> j <> k -> ent_inum V' ip' j = ent_inum V ip j /\ ent_name V' ip' j = ent_name V ip j;
  da_others : forall name', trunc 14 name' <> trunc 14 name -> dir_find V' ip' name' = dir_find V ip name';
  da_whole : i_size ip' mod DIRENT_SIZE = 0
}.

Lemma written_entry sb ib V ip m name inum V' ip' :
  let k := dir_slot V ip in
  file_written sb ib V ip (new_entry m name inum) DE_ADDR (DIRENT_SIZE * k) DIRENT_SIZE V' ip' ->
  0 <= i_size ip -> i_size ip mod DIRENT_SIZE = 0 -> 0 <= inum < 2 ^ 16 -> name_ok name ->
  ents ip' = Z.max (ents ip) (k + 1) /\ i_size ip' mod DIRENT_SIZE = 0 /\
  ent_inum V' ip' k = inum /\ trunc 14 (ent_name V' ip' k) = trunc 14 name /\
  forall j, 0 <= j < ents ip -> j <> k -> ent_inum V' ip' j = ent_inum V ip j /\ ent_name V' ip' j = ent_name V ip j.
Proof.
  intros k FW H0 Hw Hi Hn. destruct (dir_slot_range V ip H0) as [Hk _]. fold k in Hk. pose proof (ents_size ip Hw) as Hes.
  change DIRENT_SIZE with 16 in *. pose proof (fwr_ip _ _ _ _ _ _ _ _ _ _ FW) as Hip.
  assert (Hsz : i_size ip' = 16 * Z.max (ents ip) (k + 1)) by (rewrite Hip; cbn [i_size seti_size]; lia).
  destruct (new_entry_bytes m name inum Hi) as [N1 N2].
  assert (Hb : forall j, 0 <= j < 16 -> ent_byte V' ip' k j = rd (new_entry m name inum) (DE_ADDR + j)).
  { intros j Hj. unfold ent_byte. change DIRENT_SIZE with 16. rewrite (fwr_bytes _ _ _ _ _ _ _ _ _ _ FW) by lia.
    rewrite decide_True by lia. replace (16 * k + j - 16 * k) with j by lia. apply u8_u8. }
  split; [unfold ents at 1; rewrite Hsz, Z.mul_comm; by apply Z.div_mul|].
  split; [rewrite Hsz, Z.mul_comm; by apply Z.mod_mul|]. split; [|split].
  - unfold ent_inum. rewrite !Hb by lia. by rewrite Z.add_0_r.
  - assert (ent_name V' ip' k = u8 <$> pad_name name) as ->; [|by apply trunc_name].
    apply list_eq. intros j. unfold ent_name. rewrite !list_lookup_fmap. destruct (decide (j < 14)%nat) as [Hj|Hj].
    + rewrite lookup_seq_lt by done. simpl. rewrite Hb, N2, Nat2Z.id by lia.
      destruct (lookup_lt_is_Some_2 (pad_name name) j) as [x Hx]; [by rewrite length_pad_name|].
      rewrite Hx. simpl. by rewrite (nth_lookup_Some _ _ _ _ Hx).
    + rewrite lookup_seq_ge, (lookup_ge_None_2 (pad_name name)); [done|rewrite length_pad_name; lia|lia].
  - intros j Hj Hne. assert (He : forall t, 0 <= t < 16 -> ent_byte V' ip' j t = ent_byte V ip j t).
    { intros t Ht. unfold ent_byte. change DIRENT_SIZE with 16. rewrite (fwr_bytes _ _ _ _ _ _ _ _ _ _ FW) by lia.
      by rewrite decide_False by lia. }
    split; [unfold ent_inum; by rewrite !He by lia|]. unfold ent_name. apply list_fmap_ext. intros i x Hx.
    apply lookup_seq in Hx as [-> Hx]. apply He. lia.
Qed.

Lemma ent_is_ext V ip V' ip' name j :
  ent_inum V' ip' j = ent_inum V ip j -> ent_name V' ip' j = ent_name V ip j -> ent_is V' ip' name j = ent_is V ip name j.
Proof. unfold ent_is. by intros -> ->. Qed.

Lemma dir_added_intro sb ib V ip m name inum V' ip' :
  let k := dir_slot V ip in
  file_written sb ib V ip (new_entry m name inum) DE_ADDR (DIRENT_SIZE * k) DIRENT_SIZE V' ip' ->
  0 <= i_size ip -> i_size ip mod DIRENT_SIZE = 0 -> 0 < inum < 2 ^ 16 -> name_ok name -> dir_find V ip name = None ->
  dir_added V ip V' ip' name inum k.
Proof.
  intros k FW H0 Hw Hi Hn Hf. destruct (written_entry _ _ _ _ _ _ _ _ _ FW) as (E1 & E2 & E3 & E4 & E5); try done; [lia|].
  destruct (dir_slot_range V ip H0) as [Hk Hfree]. fold k in Hk, Hfree, E1, E3, E4, E5.
  assert (Hsame : forall nm j, 0 <= j < ents ip -> j <> k -> ent_is V' ip' nm j = ent_is V ip nm j).
  { intros nm j Hj Hne. destruct (E5 j Hj Hne). by apply ent_is_ext. }
  assert (Hk' : forall nm, ent_is V' ip' nm k = bool_decide (trunc 14 nm = trunc 14 name)).
  { intros nm. unfold ent_is. rewrite E3, E4, (proj2 (Z.eqb_neq inum 0)) by lia. done. }
  assert (Hold : forall nm, k < ents ip -> ent_is V ip nm k = false).
  { intros nm Hlt. specialize (Hfree Hlt). unfold ent_is, ent_free in *. by rewrite Hfree. }
  split; [|done|done| |done].
  - apply dir_first_some. split; [lia|]. split; [rewrite Hk'; by apply bool_decide_eq_true|].
    intros j Hj. rewrite Hsame by lia. apply (proj1 (dir_first_none _ _) Hf). lia.
  - intros nm Hnm. assert (Hkn : ent_is V' ip' nm k = false) by (rewrite Hk'; by apply bool_decide_eq_false).
    destruct (dir_find V ip nm) as [j|] eqn:Ej.
    + apply dir_first_some in Ej as (J1 & J2 & J3). assert (j <> k) by (intros ->; rewrite Hold in J2; (done || lia)).
      apply dir_first_some. split; [lia|]. split; [by rewrite Hsame|]. intros i Hi'. destruct (decide (i = k)) as [->|]; [done|].
      rewrite Hsame by lia. by apply J3.
    + pose proof (proj1 (dir_first_none _ _) Ej) as J. apply dir_first_none. intros i Hi'. rewrite E1 in Hi'.
      destruct (decide (i = k)) as [->|]; [done|]. rewrite Hsame by lia. apply J. lia.
Qed.

Lemma write_ready_kmem s0 ac d l ip src off n c m :
  write_ready s0 ac d l ip false src off n c -> write_ready (setf_kmem m s0) ac d l ip false src off n c.
Proof. intros [[Q1 Q2 Q3 Q4 Q5 Q6 Q7] R2 R3 R4 R5 R6 R7 R8]. split; try done. Qed.

(** C9: [dirlink] adds a name.  For a name that is not in the directory it
    returns 0, and afterwards a lookup of the name finds the inode number given
    in the first entry that was free, or in a new one at the end; every other
    lookup and every other entry is as before, and the directory is well formed
    again. *)
Theorem dirlink_adds s0 ac d l s dp ip name inum :
  let V := content d ac in let off := DIRENT_SIZE * dir_slot V ip in
  tstate s0 ac d l [] s -> entry s0 dp ip -> dir_ready s0 ac d ip ->
  lock_free (it_lock (f_itable s0)) -> itable_room s0 ->
  dir_find V ip name = None -> name_ok name -> 0 < inum < 2 ^ 16 ->
  write_ready s0 ac d l ip false DE_ADDR off DIRENT_SIZE (write_cost off DIRENT_SIZE) ->
  wp (dirlink dp name inum) (fun r s' => r = 0 /\ exists m ip' ac' l',
    tstate (put_entry dp ip' (setf_kmem m s0)) ac' d l' [] s' /\
    dir_added V ip (content d ac') ip' name inum (dir_slot V ip) /\
    file_wf (f_sb s0) (content d ac') ip' /\ fs_wf (f_sb s0) (content d ac')) s.
Proof.
  intros V off T Hi D Hl Hr Hf Hn Hin R. replace s0 with (setf_kmem (f_kmem s0) s0) in T by (by destruct s0).
  pose proof (fw_size _ _ _ (dr_file _ _ _ _ D)) as Hs. pose proof (dr_whole _ _ _ _ D) as Hw.
  unfold dirlink. apply wp_bind. eapply dirlookup_spec; [exact T|done|done|done|done| |by intros ? ? ? ? ? ? E; fold V in E; rewrite Hf in E].
  intros m1 s1 _ T1. apply wp_bind. eapply (ts_geti (setf_kmem m1 s0)); [exact T1|exact Hi|].
  rewrite ents_count by (lia || done). apply wp_bind. eapply dirlink_scan; [exact T1|done|done|]. intros m2 s2 T2. fold V.
  assert (default (DIRENT_SIZE * ents ip) (Z.mul DIRENT_SIZE <$> dir_first ip (ent_free V ip)) = off) as ->.
  { unfold off, dir_slot. by destruct (dir_first ip (ent_free V ip)). }
  apply wp_bind, wp_modify, wp_bind, wp_modify. set (s3 := setf_kmem _ _).
  assert (T3 : tstate (setf_kmem (new_entry m2 name inum) s0) ac d l [] s3).
  { apply (tstate_kmem (new_entry m2 name inum)) in T2 as T3. unfold s3. cbn [f_kmem setf_kmem].
    destruct (keepsl_fields _ _ (ts_keeps _ _ _ _ _ _ T2)) as (_ & _ & _ & _ & -> & _). exact T3. }
  apply wp_bind. eapply (writei_ready (setf_kmem (new_entry m2 name inum) s0)); [exact T3|exact Hi|by apply write_ready_kmem|lia|].
  intros ip' ac' l' s' T' FW _ _ _. rewrite Z.eqb_refl. cbn [negb]. apply wp_ret. split; [done|].
  exists (new_entry m2 name inum), ip', ac', l'. split; [exact T'|]. split; [|split; apply FW].
  eapply (dir_added_intro (f_sb s0) (iblk s0 ip)); try done; [exact FW|lia].
Qed.

End dir.

(** ** A concrete directory *)

(** The entries ".", "..", a free one and "ab" in block 60. *)
Definition demo_dir_block : block :=
  [1; 0; 46] ++ replicate 13 0 ++ [1; 0; 46; 46] ++ replicate 12 0 ++ replicate 16 0 ++ [7; 0; 97; 98] ++ replicate 972 0.
Definition demo_dir_disk : disk_t := mkDisk {[45 := demo_write_map; 60 := demo_dir_block]} [].
Definition demo_dir : inode := mkInode ROOTDEV 5 1 (mkSleep 0 (mkLock 0 0 0) 0 0) 1 T_DIR 0 0 1 64 (60 :: replicate 12 0).
Definition demo_dir_fs : fstate := demo_fs_with demo_dir_disk (<[0%nat := demo_dir]> (inodes demo_inode_fs)).
Definition demo_dir_V : view := content demo_dir_disk ∅.

Lemma demo_dir_fblk bn : 0 <= bn < MAXFILE -> fblk demo_dir_V demo_dir bn = if bn <? 1 then 60 else 0.
Proof. intros Hb. apply Z.eqb_eq. revert bn Hb. apply forall_below. vm_compute. reflexivity. Qed.

Lemma demo_dir_wf : file_wf demo_sb demo_dir_V demo_dir.
Proof.
  split.
  - reflexivity.
  - intros bn Hb Hn. rewrite demo_dir_fblk in * by done. destruct (Z.ltb_spec bn 1); [|done]. vm_compute. split; [split|..]; done.
  - intros H. exfalso. apply H. reflexivity.
  - intros bn bm H1 H2. rewrite !demo_dir_fblk by done. destruct (Z.ltb_spec bn 1), (Z.ltb_spec bm 1); lia.
  - intros bn _ H. exfalso. apply H. reflexivity.
  - vm_compute. split; discriminate.
  - intros bn H0 H1. change (i_size demo_dir) with 64 in H1. change BSIZE with 1024 in H1.
    rewrite demo_dir_fblk by (change MAXFILE with 268; lia). by rewrite (proj2 (Z.ltb_lt _ _)) by lia.
Qed.

Lemma demo_dir_ready : dir_ready demo_dir_fs ∅ demo_dir_disk demo_dir.
Proof.
  split; [reflexivity|reflexivity|exact demo_dir_wf|reflexivity| |reflexivity]. intros b a Ha. by rewrite lookup_empty in Ha.
Qed.

Lemma demo_itable_room : itable_room demo_dir_fs.
Proof.
  intros inum E. pose proof (iget_scan_found ROOTDEV inum (inodes demo_dir_fs)) as HS. rewrite E in HS. inversion HS as [| |H].
  destruct (H 1%nat _ eq_refl) as [_ H1]. by apply H1.
Qed.

Lemma dirlookup_finds_witness :
  wp (dirlookup (im := demo_image) (W := demo_world) 0 [97; 98]) (fun r s' => exists m j x x',
    r = Some (j, 48) /\ entry demo_dir_fs j x /\ igot 7 x x' /\
    tstate (put_entry j x' (setf_kmem m demo_dir_fs)) ∅ demo_dir_disk [] [] s') demo_dir_fs.
Proof.
  eapply wp_conseq.
  - apply (dirlookup_finds (im := demo_image) (W := demo_world) (WO := demo_world_ok) demo_dir_fs ∅ demo_dir_disk [] demo_dir_fs
      0 demo_dir [97; 98] (demo_tstate _ _) eq_refl demo_dir_ready); [split; reflexivity|exact demo_itable_room].
  - intros r s' [m H]. exists m. assert (E : dir_find (content demo_dir_disk ∅) demo_dir [97; 98] = Some 3) by (vm_compute; reflexivity).
    rewrite E in H. assert (E2 : ent_inum (content demo_dir_disk ∅) demo_dir 3 = 7) by (vm_compute; reflexivity). rewrite E2 in H. exact H.
Defined.

Lemma dirlink_adds_witness :
  wp (dirlink (im := demo_image) (W := demo_world) 0 [99] 9) (fun r s' => r = 0 /\ exists m ip' ac' l',
    tstate (put_entry 0 ip' (setf_kmem m demo_dir_fs)) ac' demo_dir_disk l' [] s' /\
    dir_find (content demo_dir_disk ac') ip' [99] = Some 2 /\ ent_inum (content demo_dir_disk ac') ip' 2 = 9) demo_dir_fs.
Proof.
  assert (E : dir_slot (content demo_dir_disk ∅) demo_dir = 2) by (vm_compute; reflexivity).
  eapply wp_conseq.
  - apply (dirlink_adds (im := demo_image) (W := demo_world) (WO := demo_world_ok) demo_dir_fs ∅ demo_dir_disk [] demo_dir_fs
      0 demo_dir [99] 9 (demo_tstate _ _) eq_refl demo_dir_ready).
    + split; reflexivity.
    + exact demo_itable_room.
    + vm_compute. reflexivity.
    + repeat constructor; lia.
    + lia.
    + rewrite E. split.
      * split; [exact demo_sane|reflexivity|exact demo_dir_wf|vm_compute; split; discriminate|discriminate|vm_compute; discriminate|].
        split; [discriminate|]. split; [reflexivity|discriminate].
      * split; [intros b Hb; apply Nat.eqb_eq; revert b Hb|intros m Hm; revert m Hm]; apply forall_below; vm_compute; reflexivity.
      * split; [split; vm_compute; [discriminate|reflexivity]..|done|]. intros a Ha. unfold demo_dir in Ha. cbn [i_addrs] in Ha.
        repeat (apply elem_of_cons in Ha as [->|Ha]; [lia|]). by apply elem_of_nil in Ha.
      * discriminate.
      * split; [discriminate|reflexivity].
      * intros b a Ha. by rewrite lookup_empty in Ha.
      * split_and!; vm_compute; discriminate.
      * vm_compute. discriminate.
  - intros r s' (-> & m & ip' & ac' & l' & T & [A1 A2 _ _ _] & _). rewrite E in A1, A2. split; [done|]. exists m, ip', ac', l'. done.
Defined.
