(* ===== verification/FsPath.v ===== *)
(** * Path names

    [skipelem] against splitting a path at its slashes. *)
From stdpp Require Import base gmap strings numbers option list.
From S2P Require Import Prelude Layout Machine Memory Kernel FsState Block Sleeplock Bio.
From S2P Require Import Log Fs.
Open Scope Z_scope.

(** A path split at every slash. *)
Fixpoint split_slash (p : list Z) : list (list Z) :=
  match p with
  | [] => [[]]
  | c :: p' =>
      if decide (c = SLASH) then [] :: split_slash p'
      else match split_slash p' with
           | [] => [[c]]
           | e :: es => (c :: e) :: es
           end
  end.

(** Its components: the pieces that are not empty. *)
Definition components (p : list Z) : list (list Z) := filter (fun e => e <> []) (split_slash p).

Lemma components_slash p : components (SLASH :: p) = components p.
Proof. done. Qed.

Lemma skip_slashes_components p : components (skip_slashes p) = components p.
Proof.
  induction p as [|c p IH]; [done|]. simpl. destruct (Z.eqb_spec c SLASH) as [->|Hc]; [|done].
  by rewrite IH, components_slash.
Qed.

Lemma skip_slashes_shape p :
  skip_slashes p = [] \/ exists c p', skip_slashes p = c :: p' /\ c <> SLASH.
Proof.
  induction p as [|c p IH]; simpl; [by left|]. destruct (Z.eqb_spec c SLASH); [done|].
  right. by exists c, p.
Qed.

Lemma skip_slashes_length p : (length (skip_slashes p) <= length p)%nat.
Proof. induction p as [|c p IH]; simpl; [done|]. destruct (c =? SLASH); simpl; lia. Qed.

(** The element and what follows it. *)
Lemma path_elem_split p e r :
  path_elem p = (e, r) ->
  p = e ++ r /\ (length r <= length p)%nat /\
  exists es, split_slash p = e :: es /\ components r = filter (fun e => e <> []) es.
Proof.
  revert e r. induction p as [|c p IH]; intros e r H; simpl in H.
  { simplify_eq. split; [done|]. split; [done|]. by exists []. }
  destruct (Z.eqb_spec c SLASH) as [->|Hc]; simplify_eq.
  - split; [done|]. split; [done|]. by exists (split_slash p).
  - destruct (path_elem p) as [e' r'] eqn:E. simplify_eq.
    destruct (IH _ _ eq_refl) as (-> & Hl & es & Hs & Hc'). split; [done|].
    split; [simpl; lia|]. exists es. simpl. by rewrite decide_False, Hs.
Qed.

(** A path whose first byte is not a slash starts with a component. *)
Lemma components_cons c p e r :
  c <> SLASH -> path_elem (c :: p) = (e, r) -> components (c :: p) = e :: components r /\ e <> [].
Proof.
  intros Hc H. assert (e <> []).
  { simpl in H. rewrite (proj2 (Z.eqb_neq _ _) Hc) in H. destruct (path_elem p). by simplify_eq. }
  destruct (path_elem_split _ _ _ H) as (_ & _ & es & Hs & He).
  unfold components at 1. rewrite Hs, filter_cons_True by done. by rewrite He.
Qed.

Lemma components_nil p : skip_slashes p = [] <-> components p = [].
Proof.
  rewrite <- skip_slashes_components. destruct (skip_slashes_shape p) as [->|(c & p' & -> & Hc)]; [done|].
  split; [done|]. intros H. destruct (path_elem (c :: p')) as [e r] eqn:E.
  destruct (components_cons c p' e r Hc E) as [H' _]. congruence.
Qed.

Lemma skipelem_cases path :
  match skipelem path with
  | None => components path = []
  | Some (name, rest) => exists e,
      components path = e :: components rest /\ name = take (Z.to_nat DIRSIZ) e /\ name <> [] /\
      (length rest < length path)%nat /\ (rest = [] <-> components rest = [])
  end.
Proof.
  unfold skipelem. rewrite <- (skip_slashes_components path).
  pose proof (skip_slashes_length path) as Hl.
  destruct (skip_slashes_shape path) as [H|(c & p & H & Hc)]; rewrite H in *; [done|].
  destruct (path_elem (c :: p)) as [e r] eqn:E.
  destruct (components_cons c p e r Hc E) as [Hcomp Hne].
  destruct (path_elem_split _ _ _ E) as (Hsplit & _ & _).
  exists e. rewrite skip_slashes_components. split; [done|]. split; [done|].
  split; [by destruct e; simpl|]. split.
  - pose proof (skip_slashes_length r). assert (length (c :: p) = length e + length r)%nat
      by (rewrite Hsplit; by rewrite length_app). destruct e; [done|]. cbn [length] in *. lia.
  - apply components_nil.
Qed.

(** [skipelem] takes the next path component.  It returns null exactly when
    the path has no component left; otherwise the name it copies is the first
    component cut to [DIRSIZ] bytes, what it returns has the remaining
    components, is strictly shorter, and is empty exactly when no component
    remains, which is how [namex] recognises the last one. *)
Theorem skipelem_next_component path :
  match skipelem path with
  | None => components path = []
  | Some (name, rest) => exists e,
      components path = e :: components rest /\ name = take (Z.to_nat DIRSIZ) e /\ name <> [] /\
      (length rest < length path)%nat /\ (rest = [] <-> components rest = [])
  end.
Proof. apply skipelem_cases. Qed.
