(* ===== verification/Ring.v ===== *)
(** * Ring buffers

    The byte rings of the pipe, the console and the UART: an array of [N] bytes
    with free-running counters that wrap at [W], a multiple of [N]. *)
From stdpp Require Import base numbers option list.
From S2P Require Import Prelude.
Open Scope Z_scope.

(** The [k] bytes from counter [a] on. *)
Definition window (N : Z) (data : list Z) (a k : Z) : list Z :=
  (fun i => nth (Z.to_nat ((a + i) mod N)) data 0) <$> seqZ 0 k.

Lemma length_window N data a k : length (window N data a k) = Z.to_nat k.
Proof. unfold window. by rewrite length_fmap, length_seqZ. Qed.

Lemma window_0 N data a : window N data a 0 = [].
Proof. done. Qed.

Section ring.
Context (N W : Z) (HN : 0 < N) (HW : 0 < W) (Hdiv : (N | W)).

Lemma mod_ring x : (x mod W) mod N = x mod N.
Proof using Hdiv. by apply Z.mod_mod_divide. Qed.

Lemma window_mod data a k : window N data (a mod W) k = window N data a k.
Proof using Hdiv.
  unfold window. apply list_fmap_ext. intros i x _. f_equal. f_equal.
  rewrite Zplus_mod, mod_ring, <- Zplus_mod. done.
Qed.

Lemma window_app data a k1 k2 :
  0 <= k1 -> 0 <= k2 -> window N data a (k1 + k2) = window N data a k1 ++ window N data (a + k1) k2.
Proof using.
  intros H1 H2. unfold window. rewrite seqZ_app, fmap_app by lia. f_equal.
  apply list_eq. intros i. rewrite !list_lookup_fmap. destruct (decide (Z.of_nat i < k2)).
  - rewrite !lookup_seqZ_lt by lia. cbn [fmap option_fmap option_map]. do 4 f_equal. lia.
  - by rewrite !lookup_seqZ_ge by lia.
Qed.

Lemma window_1 data a : window N data a 1 = [nth (Z.to_nat (a mod N)) data 0].
Proof using. unfold window. change (seqZ 0 1) with [0]. cbn [fmap list_fmap]. by rewrite Z.add_0_r. Qed.

(** The oldest byte and the rest. *)
Lemma window_cons data a k :
  0 < k -> window N data a k = nth (Z.to_nat (a mod N)) data 0 :: window N data (a + 1) (k - 1).
Proof using.
  intros Hk. replace k with (1 + (k - 1)) at 1 by lia. rewrite window_app by lia. by rewrite window_1.
Qed.

(** A write outside the window. *)
Lemma window_insert_out data a k j x :
  length data = Z.to_nat N -> 0 <= k -> k <= j < N ->
  window N (<[Z.to_nat ((a + j) mod N) := x]> data) a k = window N data a k.
Proof using HN.
  intros Hlen Hk Hj. unfold window. apply list_fmap_ext. intros i y Hy.
  apply lookup_seqZ in Hy as [-> Hi]. rewrite !nth_lookup, list_lookup_insert_ne; [done|]. intros He.
  pose proof (Z.mod_pos_bound (a + j) N HN). pose proof (Z.mod_pos_bound (a + (0 + Z.of_nat i)) N HN).
  assert (Hz : (j - Z.of_nat i) mod N = 0).
  { replace (j - Z.of_nat i) with ((a + j) - (a + (0 + Z.of_nat i))) by lia.
    rewrite Zminus_mod. replace ((a + j) mod N) with ((a + (0 + Z.of_nat i)) mod N) by lia.
    by rewrite Z.sub_diag. }
  rewrite Z.mod_small in Hz by lia. lia.
Qed.

(** A byte appended. *)
Lemma window_snoc data a k x :
  length data = Z.to_nat N -> 0 <= k < N ->
  window N (<[Z.to_nat ((a + k) mod N) := x]> data) a (k + 1) = window N data a k ++ [x].
Proof using HN.
  intros Hlen Hk. rewrite window_app by lia. rewrite window_insert_out by lia. f_equal.
  rewrite window_1, nth_lookup, list_lookup_insert_eq; [done|]. rewrite Hlen.
  pose proof (Z.mod_pos_bound (a + k) N HN). lia.
Qed.

End ring.

(** ** Differences of 32-bit counters *)

Lemma u32_cases x : - 2 ^ 32 <= x < 2 ^ 32 -> u32 x = if x <? 0 then x + 2 ^ 32 else x.
Proof.
  intros Hx. unfold u32. destruct (Z.ltb_spec x 0); [|apply Z.mod_small; lia].
  rewrite <- (Z_mod_plus_full x 1), Z.mod_small; lia.
Qed.

Lemma u32_cases_up x : 0 <= x < 2 ^ 33 -> u32 x = if x <? 2 ^ 32 then x else x - 2 ^ 32.
Proof.
  intros Hx. unfold u32. destruct (Z.ltb_spec x (2 ^ 32)); [apply Z.mod_small; lia|].
  rewrite <- (Z_mod_plus_full x (-1)), Z.mod_small; change (2 ^ 33) with (2 * 2 ^ 32) in Hx; lia.
Qed.

Ltac wrap32 :=
  repeat match goal with
  | H : context [u32 (?a - ?b)] |- _ => rewrite (u32_cases (a - b)) in H by lia
  | |- context [u32 (?a - ?b)] => rewrite (u32_cases (a - b)) by lia
  | H : context [u32 (?a + ?b)] |- _ => rewrite (u32_cases_up (a + b)) in H by lia
  | |- context [u32 (?a + ?b)] => rewrite (u32_cases_up (a + b)) by lia
  | H : context [if ?b then _ else _] |- _ => destruct b eqn:?
  | |- context [if ?b then _ else _] => destruct b eqn:?
  end; rewrite ?Z.ltb_lt, ?Z.ltb_ge in *; try lia.
