(* ===== verification/Pipe.v ===== *)
(** * Pipes ([kernel/pipe.c])

    [pipeclose], [pipewrite] and [piperead]; [pipealloc], which also allocates
    files, is in [File].  A pipe occupies a page of the allocator and is known
    by the page's address.  The bytes in flight are a first-in first-out queue,
    whatever the wrap-around of the two 32-bit counters and of the ring. *)
From stdpp Require Import base gmap strings numbers option list.
From S2P Require Import Prelude Layout Machine Memory Kernel Demo FsState Block Sleeplock Bio.
From S2P Require Import Log Fs FsRead Ring.
Open Scope Z_scope.

Definition pipe0 : pipe := mkPipe (mkLock 0 0 0) [] 0 0 0 0.

(** The hart with the lock of the pipe at [pi]. *)
Definition pipeL (pi : Z) : lens fstate (hartst * spinlock) :=
  Lens (fun s => (f_hart s, pi_lock (default pipe0 (f_pipes s !! pi))))
       (fun p s => setf_pipes (alter (setpi_lock p.2) pi (f_pipes s)) (setf_hart p.1 s)).

Definition getp (pi : Z) : M fstate pipe := fun s =>
  match f_pipes s !! pi with
  | Some p => Ret p s
  | None => Err (EFault pi) s
  end.
Definition updp (pi : Z) (f : pipe -> pipe) : M fstate unit :=
  _ ← getp pi; modify (fun s => setf_pipes (alter f pi (f_pipes s)) s).

(** The page allocator as the file system sees it: [kalloc] takes the first
    free page, [kfree] gives one back. *)
Definition f_kalloc : M fstate Z := fun s =>
  match f_pages s with
  | [] => Ret 0 s
  | p :: ps => Ret p (setf_pages ps s)
  end.
Definition f_kfree (pa : Z) : M fstate unit :=
  modify (fun s => setf_pipes (delete pa (f_pipes s)) (setf_pages (pa :: f_pages s) s)).

Section pipe.
Context `{im : Image} `{W : World}.

Definition pipeclose (pi : Z) (writable : Z) : M fstate unit :=
  zoom (pipeL pi) acquire;;
  (if negb (writable =? 0) then updp pi (setpi_writeopen 0);; wakeup (WPipeR pi)
   else updp pi (setpi_readopen 0);; wakeup (WPipeW pi));;
  p ← getp pi;
  if (pi_readopen p =? 0) && (pi_writeopen p =? 0) then
    zoom (pipeL pi) release;; f_kfree pi
  else zoom (pipeL pi) release.

(** [pi->data[pi->nwrite++ % PIPESIZE] = ch] *)
Definition push (ch : Z) (p : pipe) : pipe :=
  setpi_nwrite (u32 (pi_nwrite p + 1))
    (setpi_data (<[Z.to_nat (pi_nwrite p mod PIPESIZE) := ch]> (pi_data p)) p).

(** One turn of [pipewrite]'s loop at [i]; the loop ends with the count, or
    with nothing when the lock has been released and -1 returned. *)
Definition pipewrite_step (pi addr n i : Z) : M fstate (Z + option Z) :=
  if negb (i <? n) then mret (inr (Some i)) else
  p ← getp pi;
  k ← gets (fun s => fp_killed (f_proc s));
  if (pi_readopen p =? 0) || negb (k =? 0) then
    zoom (pipeL pi) release;; mret (inr None)
  else if pi_nwrite p =? u32 (pi_nread p + PIPESIZE) then
    wakeup (WPipeR pi);; sleep (WPipeW pi) (pipeL pi);; mret (inl i)
  else
    r ← u_copyin (u64 (addr + i)) 1;
    if r.2 =? -1 then mret (inr (Some i)) else
    updp pi (push (hd 0 r.1));;
    mret (inl (i + 1)).

Definition pipewrite (pi addr n : Z) : M fstate Z :=
  zoom (pipeL pi) acquire;;
  r ← loop (Z.to_nat n + patience + 1) (pipewrite_step pi addr n) 0;
  match r with
  | None => mret (-1)
  | Some i =>
      wakeup (WPipeR pi);;
      zoom (pipeL pi) release;;
      mret i
  end.

(** The wait of [piperead]: whether the process was killed. *)
Definition piperead_wait (pi : Z) : M fstate bool :=
  loop (S patience) (fun _ : unit =>
    p ← getp pi;
    if (pi_nread p =? pi_nwrite p) && negb (pi_writeopen p =? 0) then
      k ← gets (fun s => fp_killed (f_proc s));
      if negb (k =? 0) then zoom (pipeL pi) release;; mret (inr true)
      else sleep (WPipeR pi) (pipeL pi);; mret (inl tt)
    else mret (inr false)) tt.

Definition piperead_step (pi addr n i : Z) : M fstate (Z + Z) :=
  if negb (i <? n) then mret (inr i) else
  p ← getp pi;
  if pi_nread p =? pi_nwrite p then mret (inr i) else
  let ch := nth (Z.to_nat (pi_nread p mod PIPESIZE)) (pi_data p) 0 in
  updp pi (setpi_nread (u32 (pi_nread p + 1)));;
  r ← u_copyout (u64 (addr + i)) [ch];
  if r =? -1 then mret (inr i) else mret (inl (i + 1)).

Definition piperead (pi addr n : Z) : M fstate Z :=
  zoom (pipeL pi) acquire;;
  killed ← piperead_wait pi;
  if (killed : bool) then mret (-1) else
  i ← loop (Z.to_nat n + 1) (piperead_step pi addr n) 0;
  wakeup (WPipeW pi);;
  zoom (pipeL pi) release;;
  mret i.

End pipe.

(** ** The queue in the ring *)

Record pipe_ok (p : pipe) : Prop := {
  po_data : length (pi_data p) = Z.to_nat PIPESIZE;
  po_nread : 0 <= pi_nread p < 2 ^ 32;
  po_nwrite : 0 <= pi_nwrite p < 2 ^ 32;
  po_fill : u32 (pi_nwrite p - pi_nread p) <= PIPESIZE;
  po_lock : lock_free (pi_lock p)
}.

(** The bytes in flight, oldest first. *)
Definition queue (p : pipe) : list Z :=
  window PIPESIZE (pi_data p) (pi_nread p) (u32 (pi_nwrite p - pi_nread p)).

Lemma length_queue p : Z.of_nat (length (queue p)) = u32 (pi_nwrite p - pi_nread p).
Proof.
  unfold queue. rewrite length_window. unfold u32.
  pose proof (Z.mod_pos_bound (pi_nwrite p - pi_nread p) (2 ^ 32)). lia.
Qed.

Lemma ring_div : (PIPESIZE | 2 ^ 32).
Proof. by exists (2 ^ 23). Qed.

Lemma pipe_full p :
  pipe_ok p -> (pi_nwrite p =? u32 (pi_nread p + PIPESIZE)) = (Z.of_nat (length (queue p)) =? PIPESIZE).
Proof.
  intros [H1 H2 H3 H4 _]. rewrite length_queue. change PIPESIZE with 512 in *.
  apply eq_true_iff_eq. rewrite !Z.eqb_eq. wrap32.
Qed.

Lemma pipe_empty p :
  pipe_ok p -> (pi_nread p =? pi_nwrite p) = bool_decide (queue p = []).
Proof.
  intros [H1 H2 H3 H4 _]. pose proof (length_queue p) as Hl. change PIPESIZE with 512 in *.
  case_bool_decide as Hq.
  - rewrite Hq in Hl. cbn in Hl. wrap32.
  - apply Z.eqb_neq. intros He. destruct (queue p); [done|]. cbn [length] in Hl. wrap32.
Qed.

Lemma push_queue ch p :
  pipe_ok p -> Z.of_nat (length (queue p)) < PIPESIZE ->
  pipe_ok (push ch p) /\ queue (push ch p) = queue p ++ [ch].
Proof.
  intros [H1 H2 H3 H4 H5] Hlt. rewrite length_queue in Hlt.
  assert (Hlen : u32 (u32 (pi_nwrite p + 1) - pi_nread p) = u32 (pi_nwrite p - pi_nread p) + 1).
  { change PIPESIZE with 512 in *. wrap32. }
  split.
  - split; try done; cbn [push pi_data pi_nread pi_nwrite setpi_nwrite setpi_data]; try lia.
    + by rewrite length_insert.
    + unfold u32. apply Z.mod_pos_bound. done.
  - unfold queue. cbn [push pi_nread pi_nwrite pi_data setpi_nwrite setpi_data]. rewrite Hlen.
    set (k := u32 (pi_nwrite p - pi_nread p)) in *.
    assert (Hk : 0 <= k) by (unfold k, u32; apply Z.mod_pos_bound; done).
    assert (Hw : pi_nwrite p mod PIPESIZE = (pi_nread p + k) mod PIPESIZE).
    { unfold k, u32. rewrite Zplus_mod, (mod_ring PIPESIZE (2 ^ 32)), <- Zplus_mod by apply ring_div.
      f_equal. lia. }
    rewrite Hw. by apply window_snoc.
Qed.

Lemma pop_queue p c q :
  pipe_ok p -> queue p = c :: q ->
  nth (Z.to_nat (pi_nread p mod PIPESIZE)) (pi_data p) 0 = c /\ pipe_ok (setpi_nread (u32 (pi_nread p + 1)) p) /\
  queue (setpi_nread (u32 (pi_nread p + 1)) p) = q.
Proof.
  intros [H1 H2 H3 H4 H5] Hq. pose proof (length_queue p) as Hl. rewrite Hq in Hl. cbn [length] in Hl.
  assert (Hlen : u32 (pi_nwrite p - u32 (pi_nread p + 1)) = u32 (pi_nwrite p - pi_nread p) - 1).
  { change PIPESIZE with 512 in *. wrap32. }
  unfold queue in Hq. rewrite window_cons in Hq by lia. injection Hq as Hc Hq.
  split; [done|]. split.
  - split; try done; cbn [pi_nread pi_nwrite setpi_nread]; [|lia].
    unfold u32. apply Z.mod_pos_bound. done.
  - rewrite <- Hq. unfold queue. cbn [pi_nread pi_nwrite pi_data setpi_nread]. rewrite Hlen.
    unfold u32 at 1. apply window_mod, ring_div.
Qed.

(** ** The operations *)

(** State [s] with pipe [p] at [pi], and the same while its lock is held. *)
Definition at_pipe (pi : Z) (p : pipe) (s : fstate) : fstate := setf_pipes (<[pi := p]> (f_pipes s)) s.
Definition plocked `{im : Image} (pi : Z) (p : pipe) (s : fstate) : fstate :=
  setf_hart (acquired (f_hart s)) (at_pipe pi (setpi_lock (held (f_hart s) (pi_lock p)) p) s).

Lemma at_pipe_id pi p s : f_pipes s !! pi = Some p -> at_pipe pi p s = s.
Proof. intros H. unfold at_pipe. rewrite insert_id by done. by destruct s. Qed.

(** A field update that leaves the lock alone. *)
Definition lockless (f : pipe -> pipe) : Prop :=
  forall l p, f (setpi_lock l p) = setpi_lock l (f p) /\ pi_lock (f p) = pi_lock p.

Lemma setpi_lock_id p : setpi_lock (pi_lock p) p = p.
Proof. by destruct p. Qed.

Section specs.
Context `{im : Image} `{W : World}.

Lemma p_acquire pi p s Q :
  hart_quiet (f_hart s) -> lock_free (pi_lock p) -> Q tt (plocked pi p s) ->
  wp (zoom (pipeL pi) acquire) Q (at_pipe pi p s).
Proof.
  intros Hq Hf HQ. eapply (wp_lock _ (f_hart s) (pi_lock p)); [|done|done|].
  - simpl. by rewrite lookup_insert_eq.
  - simpl. unfold at_pipe. simpl. rewrite alter_insert_eq. done.
Qed.

Lemma p_release pi p s Q :
  hart_quiet (f_hart s) -> lock_free (pi_lock p) -> Q tt (at_pipe pi p s) ->
  wp (zoom (pipeL pi) release) Q (plocked pi p s).
Proof.
  intros Hq Hf HQ. eapply (wp_unlock _ (f_hart s) (pi_lock p)); [|done|done|].
  - simpl. by rewrite lookup_insert_eq.
  - unfold plocked, at_pipe. simpl. rewrite alter_insert_eq. simpl.
    assert (setpi_lock (pi_lock p) (setpi_lock (held (f_hart s) (pi_lock p)) p) = p) as -> by (by destruct p).
    by destruct s.
Qed.

Lemma p_getp pi p s (Q : pipe -> fstate -> Prop) :
  Q (setpi_lock (held (f_hart s) (pi_lock p)) p) (plocked pi p s) -> wp (getp pi) Q (plocked pi p s).
Proof. intros HQ. unfold wp, getp, plocked. simpl. by rewrite lookup_insert_eq. Qed.

Lemma p_updp pi p s f Q :
  lockless f -> Q tt (plocked pi (f p) s) -> wp (updp pi f) Q (plocked pi p s).
Proof.
  intros Hf HQ. unfold updp. apply wp_bind, p_getp, wp_modify. unfold plocked, at_pipe in *. simpl in *.
  rewrite alter_insert_eq. destruct (Hf (held (f_hart s) (pi_lock p)) p) as [-> E].
  by rewrite <- E at 1.
Qed.

Lemma lockless_push ch : lockless (push ch).
Proof. done. Qed.
Lemma lockless_nread x : lockless (setpi_nread x).
Proof. done. Qed.

(** [sleep] hands the unlocked state to the other threads. *)
Lemma p_sleep c pi p s Q :
  hart_quiet (f_hart s) -> lock_free (pi_lock p) ->
  wp (zoom (pipeL pi) acquire) Q (env c (at_pipe pi p s)) ->
  wp (sleep c (pipeL pi)) Q (plocked pi p s).
Proof. intros Hq Hf HQ. unfold sleep. apply wp_bind, p_release; [done|done|]. by apply wp_bind, wp_modify. Qed.

(** What the writing process relies on while it sleeps: the readers keep the
    pipe well-formed and open, and take bytes from the front of a full queue;
    the process is not killed and its memory stays. *)
Definition readers_drain (pi : Z) (umem : mem) : Prop :=
  forall s p, f_pipes s !! pi = Some p -> pipe_ok p -> hart_quiet (f_hart s) ->
    fp_killed (f_proc s) = 0 -> pi_readopen p <> 0 -> f_umem s = umem ->
    Z.of_nat (length (queue p)) = PIPESIZE ->
    let s' := env (WPipeW pi) s in
    exists p' taken, f_pipes s' !! pi = Some p' /\ pipe_ok p' /\ hart_quiet (f_hart s') /\
      fp_killed (f_proc s') = 0 /\ pi_readopen p' <> 0 /\ f_umem s' = umem /\
      queue p = taken ++ queue p' /\ taken <> [].

(** A blocking append to the queue of pipe [pi], as a machine: the bytes still
    to be put in, the bytes that readers have taken meanwhile, the state.  A
    byte goes in when there is room; on a full queue the readers are woken up
    and the writer waits, and what is gone when it runs again the others took
    from the front. *)
Inductive append_step (pi : Z) : list Z * list Z * fstate -> list Z * list Z * fstate -> Prop :=
| append_put c bs taken s p p' :
    f_pipes s !! pi = Some p -> Z.of_nat (length (queue p)) < PIPESIZE ->
    queue p' = queue p ++ [c] -> pi_readopen p' = pi_readopen p -> pi_writeopen p' = pi_writeopen p ->
    append_step pi (c :: bs, taken, s) (bs, taken, at_pipe pi p' s)
| append_wait c bs taken t s p p' :
    f_pipes s !! pi = Some p -> Z.of_nat (length (queue p)) = PIPESIZE ->
    f_pipes (env (WPipeW pi) (setf_woken (WPipeR pi :: f_woken s) s)) !! pi = Some p' ->
    queue p = t ++ queue p' ->
    append_step pi (c :: bs, taken, s)
      (c :: bs, taken ++ t, env (WPipeW pi) (setf_woken (WPipeR pi :: f_woken s) s)).

(** Where the writer is after [i] of its bytes: what it started with and has
    sent is what the readers took and what is in the pipe. *)
Definition writing (pi : Z) (s0 : fstate) (p0 : pipe) (addr n i : Z) (s : fstate) (p : pipe) : Prop :=
  pipe_ok p /\ hart_quiet (f_hart s) /\ fp_killed (f_proc s) = 0 /\ pi_readopen p <> 0 /\
  f_umem s = f_umem s0 /\ f_pipes s !! pi = Some p /\
  exists taken,
    rtc (append_step pi) (rd_bytes (f_umem s0) addr (Z.to_nat n), [], s0)
      (rd_bytes (f_umem s0) (addr + i) (Z.to_nat (n - i)), taken, s) /\
    queue p0 ++ rd_bytes (f_umem s0) addr (Z.to_nat i) = taken ++ queue p.

Lemma rd_bytes_cons m a n : rd_bytes m a (S n) = rd m a :: rd_bytes m (a + 1) n.
Proof.
  unfold rd_bytes. rewrite <- cons_seq. cbn [fmap list_fmap]. f_equal; [f_equal; lia|].
  rewrite <- fmap_S_seq, <- list_fmap_compose. apply list_fmap_ext. intros i x _. unfold compose. f_equal. lia.
Qed.

Lemma rd_bytes_snoc m a n : rd_bytes m a (S n) = rd_bytes m a n ++ [rd m (a + Z.of_nat n)].
Proof. unfold rd_bytes. by rewrite seq_S, fmap_app. Qed.

(** The two steps of the machine, from the writer's place. *)
Lemma writing_put pi s0 p0 addr n i s p :
  writing pi s0 p0 addr n i s p -> 0 <= i < n -> Z.of_nat (length (queue p)) < PIPESIZE ->
  let p' := push (rd (f_umem s0) (addr + i)) p in
  writing pi s0 p0 addr n (i + 1) (at_pipe pi p' s) p' /\ length (queue p') = S (length (queue p)).
Proof.
  intros (Hok & Hq & Hk & Hro & Hu & Hp & taken & Hrun & Heq) Hi Hlt p'.
  destruct (push_queue (rd (f_umem s0) (addr + i)) p Hok Hlt) as [Hok' Hq'].
  split; [|unfold p'; rewrite Hq', length_app; simpl; lia].
  split_and!; try done; [apply lookup_insert_eq|]. exists taken. split.
  - eapply rtc_r; [exact Hrun|]. replace (Z.to_nat (n - i)) with (S (Z.to_nat (n - (i + 1)))) by lia.
    rewrite rd_bytes_cons, Z.add_assoc. by apply append_put with p.
  - replace (Z.to_nat (i + 1)) with (S (Z.to_nat i)) by lia. unfold p'.
    rewrite rd_bytes_snoc, Hq', app_assoc, Heq, <- app_assoc. do 4 f_equal. lia.
Qed.

Lemma writing_wait pi s0 p0 addr n i s p :
  readers_drain pi (f_umem s0) -> writing pi s0 p0 addr n i s p -> 0 <= i < n ->
  Z.of_nat (length (queue p)) = PIPESIZE ->
  let s' := env (WPipeW pi) (setf_woken (WPipeR pi :: f_woken s) s) in
  exists p', writing pi s0 p0 addr n i s' p' /\ (length (queue p') < length (queue p))%nat.
Proof.
  intros Henv (Hok & Hq & Hk & Hro & Hu & Hp & taken & Hrun & Heq) Hi Hfull s'.
  destruct (Henv (setf_woken (WPipeR pi :: f_woken s) s) p)
    as (p' & t & E1 & E2 & E3 & E4 & E5 & E6 & E7 & E8); try done.
  exists p'. split; [|rewrite E7, length_app; destruct t; [done|]; cbn [length]; lia].
  split_and!; try done. exists (taken ++ t). split.
  - eapply rtc_r; [exact Hrun|]. replace (Z.to_nat (n - i)) with (S (Z.to_nat (n - (i + 1)))) by lia.
    rewrite rd_bytes_cons. by apply append_wait with p p'.
  - by rewrite Heq, E7, app_assoc.
Qed.

(** The next byte goes in, or the writer sleeps. *)
Lemma pipewrite_step_spec pi s0 p0 addr n i s p Q :
  readers_drain pi (f_umem s0) -> 0 <= i < n -> 0 <= addr -> addr + n < 2 ^ 64 ->
  (forall k, 0 <= k < n -> u_mapped (addr + k) = true) ->
  writing pi s0 p0 addr n i s p ->
  (forall s' p', writing pi s0 p0 addr n (i + 1) s' p' ->
     length (queue p') = S (length (queue p)) -> Q (inl (i + 1)) (plocked pi p' s')) ->
  (forall s' p', writing pi s0 p0 addr n i s' p' ->
     (length (queue p') < length (queue p))%nat -> Q (inl i) (plocked pi p' s')) ->
  wp (pipewrite_step pi addr n i) Q (plocked pi p s).
Proof.
  intros Henv Hi Ha0 Ha Hmap HW HQ1 HQ2. pose proof HW as (Hok & Hq & Hk & Hro & Hu & Hp & _).
  unfold pipewrite_step. rewrite (proj2 (Z.ltb_lt i n)) by lia. cbn [negb].
  apply wp_bind, p_getp, wp_bind, wp_gets.
  change (fp_killed (f_proc (plocked pi p s))) with (fp_killed (f_proc s)). rewrite Hk.
  cbn [pi_readopen setpi_lock pi_nwrite pi_nread]. rewrite (proj2 (Z.eqb_neq _ _) Hro). cbn [orb negb Z.eqb].
  rewrite pipe_full by done. destruct (Z.eqb_spec (Z.of_nat (length (queue p))) PIPESIZE) as [Hfull|Hroom].
  - apply wp_bind, wp_modify, wp_bind.
    set (sw := setf_woken (WPipeR pi :: f_woken s) s).
    change (setf_woken _ (plocked pi p s)) with (plocked pi p sw).
    apply p_sleep; [done|apply Hok|]. rewrite (at_pipe_id pi p sw) by done.
    destruct (writing_wait _ _ _ _ _ _ _ _ Henv HW Hi Hfull) as (p' & HW' & Hl). fold sw in HW'.
    pose proof HW' as (Hok' & Hq' & _ & _ & _ & Hp' & _). rewrite <- (at_pipe_id _ _ _ Hp').
    apply p_acquire; [done|apply Hok'|]. by apply wp_ret, HQ2.
  - assert (Hlt : Z.of_nat (length (queue p)) < PIPESIZE).
    { pose proof (length_queue p). destruct Hok. lia. }
    rewrite u64_small by lia.
    apply wp_bind. unfold wp at 1, u_copyin. rewrite reachable_all.
    2: { intros k Hk'. rewrite <- Z.add_assoc. apply Hmap. change (Z.of_nat (Z.to_nat 1)) with 1 in Hk'. lia. }
    change (f_umem (plocked pi p s)) with (f_umem s). rewrite Hu. cbn [Z.to_nat Pos.to_nat Pos.iter_op Nat.eqb snd Z.eqb fst].
    replace (hd 0 (rd_bytes (f_umem s0) (addr + i) (Z.to_nat 1))) with (rd (f_umem s0) (addr + i))
      by (unfold rd_bytes; simpl; f_equal; lia).
    apply wp_bind, p_updp; [apply lockless_push|]. apply wp_ret.
    destruct (writing_put _ _ _ _ _ _ _ _ HW Hi Hlt) as [HW' Hl]. specialize (HQ1 _ _ HW' Hl).
    unfold plocked, at_pipe in HQ1 |- *. simpl in HQ1 |- *. by rewrite insert_insert_eq in HQ1.
Qed.

(** Bytes and sleeps still to come: a sleep frees at least one place. *)
Lemma pipewrite_loop pi s0 p0 addr n s p (Q : option Z -> fstate -> Prop) :
  readers_drain pi (f_umem s0) -> 0 <= n -> (Z.to_nat n + Z.to_nat PIPESIZE <= patience)%nat ->
  0 <= addr -> addr + n < 2 ^ 64 -> (forall k, 0 <= k < n -> u_mapped (addr + k) = true) ->
  writing pi s0 p0 addr n 0 s p ->
  (forall s' p', writing pi s0 p0 addr n n s' p' -> Q (Some n) (plocked pi p' s')) ->
  wp (loop (Z.to_nat n + patience + 1) (pipewrite_step pi addr n) 0) Q (plocked pi p s).
Proof.
  intros Henv Hn Hpat Ha0 Ha Hmap HW HQ.
  apply (wp_loop _ (fun i t => 0 <= i <= n /\ exists s' p', t = plocked pi p' s' /\
      writing pi s0 p0 addr n i s' p')
    (fun i t => 2 * Z.to_nat (n - i) +
       match f_pipes t !! pi with Some p' => length (queue p') | None => 0 end)%nat).
  - intros i t (Hi & s' & p' & -> & HW').
    assert (Hlen : forall p s, match f_pipes (plocked pi p s) !! pi with
      Some p' => length (queue p') | None => 0%nat end = length (queue p)).
    { intros p1 s1. unfold plocked, at_pipe. simpl. by rewrite lookup_insert_eq. }
    destruct (decide (i < n)) as [Hlt|Hge].
    + eapply pipewrite_step_spec; [done|lia|done|done|done|exact HW'|..].
      * intros s2 p2 HW2 Hl. split; [split; [lia|by eexists _, _]|]. rewrite !Hlen. lia.
      * intros s2 p2 HW2 Hl. split; [split; [lia|by eexists _, _]|]. rewrite !Hlen. lia.
    + assert (i = n) as -> by lia. unfold pipewrite_step. rewrite Z.ltb_irrefl. by apply wp_ret, HQ.
  - destruct HW as (Hok & _). unfold plocked, at_pipe. simpl. rewrite lookup_insert_eq.
    change (queue (setpi_lock (held (f_hart s) (pi_lock p)) p)) with (queue p).
    pose proof (length_queue p). destruct Hok. lia.
  - split; [lia|]. by exists s, p.
Qed.

(** C29: [pipewrite] is a blocking append to a first-in first-out queue.
    Against readers that keep the pipe open and, whenever the writer sleeps on
    a full pipe, take some bytes from the front, a write of [n] mapped bytes
    terminates and returns [n].  Its run is a run of the machine [append_step]
    that puts all the bytes in: each byte goes behind the queue when there is
    room, and on a full queue the readers are woken up and the others run, so
    that a byte leaves the queue only while the writer sleeps, from the front.
    The final state is the machine's with one more wakeup of the readers; the
    old contents followed by the bytes written are what the readers took during
    these sleeps followed by what is in the pipe. *)
Theorem pipewrite_appends pi addr n s p :
  readers_drain pi (f_umem s) -> 0 <= n -> (Z.to_nat n + Z.to_nat PIPESIZE <= patience)%nat ->
  0 <= addr -> addr + n < 2 ^ 64 -> (forall k, 0 <= k < n -> u_mapped (addr + k) = true) ->
  f_pipes s !! pi = Some p -> pipe_ok p -> hart_quiet (f_hart s) ->
  fp_killed (f_proc s) = 0 -> pi_readopen p <> 0 ->
  wp (pipewrite pi addr n) (fun r s' => r = n /\ exists s2 p' taken,
    rtc (append_step pi) (rd_bytes (f_umem s) addr (Z.to_nat n), [], s) ([], taken, s2) /\
    s' = setf_woken (WPipeR pi :: f_woken s2) s2 /\
    f_pipes s' !! pi = Some p' /\ pipe_ok p' /\ hart_quiet (f_hart s') /\ f_umem s' = f_umem s /\
    queue p ++ rd_bytes (f_umem s) addr (Z.to_nat n) = taken ++ queue p') s.
Proof.
  intros Henv Hn Hpat Ha0 Ha Hmap Hp Hok Hq Hk Hro. unfold pipewrite.
  rewrite <- (at_pipe_id pi p s) at 1 by done. apply wp_bind, p_acquire; [done|apply Hok|].
  apply wp_bind. eapply (pipewrite_loop pi s p addr n); try done.
  { split_and!; try done. exists []. rewrite Z.add_0_r, Z.sub_0_r. split; [done|]. by rewrite app_nil_r. }
  intros s' p' (Hok' & Hq' & _ & _ & Hu' & Hp' & taken & Hrun & Ht).
  apply wp_bind, wp_modify, wp_bind.
  change (setf_woken _ (plocked pi p' s')) with (plocked pi p' (setf_woken (WPipeR pi :: f_woken s') s')).
  apply p_release; [done|apply Hok'|]. apply wp_ret. split; [done|]. rewrite at_pipe_id by done.
  rewrite Z.sub_diag in Hrun. by exists s', p', taken.
Qed.

(** ** Reading *)

Lemma u_copyout_one a c s : u_mapped a = true -> u_copyout a [c] s = Ret 0 (setf_umem (wr (f_umem s) a c) s).
Proof. intros H. unfold u_copyout. simpl. by rewrite H. Qed.

Lemma piperead_step_take pi addr n i s p c q Q :
  pipe_ok p -> queue p = c :: q -> 0 <= i < n -> 0 <= addr -> addr + n < 2 ^ 64 ->
  u_mapped (addr + i) = true ->
  (forall p', pipe_ok p' -> queue p' = q ->
     Q (inl (i + 1)) (plocked pi p' (setf_umem (wr (f_umem s) (addr + i) c) s))) ->
  wp (piperead_step pi addr n i) Q (plocked pi p s).
Proof.
  intros Hok Hq Hi Ha0 Ha Hm HQ. unfold piperead_step. rewrite (proj2 (Z.ltb_lt i n)) by lia. cbn [negb].
  apply wp_bind, p_getp. cbn [pi_nread pi_nwrite pi_data setpi_lock].
  rewrite pipe_empty by done. rewrite bool_decide_eq_false_2 by (by rewrite Hq).
  destruct (pop_queue p c q Hok Hq) as (Hc & Hok' & Hq').
  rewrite Hc, u64_small by lia.
  apply wp_bind, p_updp; [apply lockless_nread|]. apply wp_bind.
  unfold wp at 1. rewrite u_copyout_one by done. cbn [Z.eqb]. apply wp_ret.
  specialize (HQ _ Hok' Hq'). exact HQ.
Qed.

(** The loop delivers the front of the queue. *)
Lemma piperead_loop pi addr n s p Q :
  pipe_ok p -> 0 <= n -> 0 <= addr -> addr + n < 2 ^ 64 ->
  (forall k, 0 <= k < n -> u_mapped (addr + k) = true) ->
  let k := Nat.min (Z.to_nat n) (length (queue p)) in
  (forall p', pipe_ok p' -> queue p' = drop k (queue p) ->
     Q (Z.of_nat k) (plocked pi p' (setf_umem (wr_bytes (f_umem s) addr (take k (queue p))) s))) ->
  wp (loop (Z.to_nat n + 1) (piperead_step pi addr n) 0) Q (plocked pi p s).
Proof.
  intros Hok Hn Ha0 Ha Hmap k HQ.
  apply (wp_loop _ (fun i t => 0 <= i <= Z.of_nat k /\ exists p', pipe_ok p' /\
      queue p' = drop (Z.to_nat i) (queue p) /\
      t = plocked pi p' (setf_umem (wr_bytes (f_umem s) addr (take (Z.to_nat i) (queue p))) s))
    (fun i _ => Z.to_nat (n - i))).
  - intros i t (Hi & p' & Hok' & Hq' & ->). destruct (decide (i < Z.of_nat k)) as [Hlt|Hge].
    + destruct (lookup_lt_is_Some_2 (queue p) (Z.to_nat i)) as [c Hc]; [lia|].
      rewrite (drop_S _ _ _ Hc) in Hq'.
      eapply piperead_step_take; [exact Hok'|exact Hq'|lia|done|done|apply Hmap; lia|].
      intros p2 Hok2 Hq2. split; [|lia]. split; [lia|]. exists p2.
      replace (Z.to_nat (i + 1)) with (S (Z.to_nat i)) by lia. split; [done|]. split; [done|].
      rewrite (take_S_r _ _ _ Hc), wr_bytes_app, length_take, Nat.min_l, Z2Nat.id by lia. done.
    + assert (i = Z.of_nat k) as -> by lia. rewrite Nat2Z.id in *. unfold piperead_step.
      destruct (Z.ltb_spec (Z.of_nat k) n); cbn [negb]; [|by apply wp_ret, HQ].
      apply wp_bind, p_getp. cbn [pi_nread pi_nwrite setpi_lock]. rewrite pipe_empty by done.
      rewrite bool_decide_eq_true_2; [by apply wp_ret, HQ|]. rewrite Hq'. apply drop_ge. lia.
  - lia.
  - split; [lia|]. exists p. split; [done|]. split; [done|]. simpl. by destruct s.
Qed.

(** What the reading process relies on while it sleeps on an empty pipe: when
    it wakes up there is something to read, or no writer is left. *)
Definition writers_fill (pi : Z) : Prop :=
  forall s p, f_pipes s !! pi = Some p -> pipe_ok p -> hart_quiet (f_hart s) -> queue p = [] ->
    let s' := env (WPipeR pi) s in
    exists p', f_pipes s' !! pi = Some p' /\ pipe_ok p' /\ hart_quiet (f_hart s') /\
      (queue p' <> [] \/ pi_writeopen p' = 0).

(** The reader has to wait for a writer. *)
Definition must_wait (p : pipe) : bool := bool_decide (queue p = []) && negb (pi_writeopen p =? 0).

(** The state in which the reader starts to copy. *)
Definition after_wait (pi : Z) (p : pipe) (s : fstate) : fstate :=
  if must_wait p then env (WPipeR pi) s else s.

Lemma piperead_wait_spec pi p s Q :
  writers_fill pi -> (1 <= patience)%nat -> f_pipes s !! pi = Some p -> pipe_ok p ->
  hart_quiet (f_hart s) -> fp_killed (f_proc s) = 0 ->
  (forall p', f_pipes (after_wait pi p s) !! pi = Some p' -> pipe_ok p' ->
     hart_quiet (f_hart (after_wait pi p s)) ->
     Q false (plocked pi p' (after_wait pi p s))) ->
  wp (piperead_wait pi) Q (plocked pi p s).
Proof.
  intros Henv Hpat Hp Hok Hq Hk HQ. unfold piperead_wait, after_wait in *. cbn [loop].
  assert (Hstop : forall p1 s1 fuel, pipe_ok p1 -> must_wait p1 = false ->
    Q false (plocked pi p1 s1) -> wp (loop (S fuel) (fun _ : unit =>
      p ← getp pi;
      if (pi_nread p =? pi_nwrite p) && negb (pi_writeopen p =? 0) then
        k ← gets (fun s => fp_killed (f_proc s));
        if negb (k =? 0) then zoom (pipeL pi) release;; mret (inr true)
        else sleep (WPipeR pi) (pipeL pi);; mret (inl tt)
      else mret (inr false)) tt) Q (plocked pi p1 s1)).
  { intros p1 s1 fuel Hok1 Hm HQ1. cbn [loop]. apply wp_bind, wp_bind, p_getp.
    cbn [pi_nread pi_nwrite pi_writeopen setpi_lock]. rewrite pipe_empty by done.
    unfold must_wait in Hm. rewrite Hm. by apply wp_ret, wp_ret. }
  destruct (must_wait p) eqn:Hm; [|by apply Hstop; [..|apply HQ]].
  apply wp_bind, wp_bind, p_getp. cbn [pi_nread pi_nwrite pi_writeopen setpi_lock].
  rewrite pipe_empty by done. unfold must_wait in Hm. rewrite Hm.
  apply wp_bind, wp_gets. change (fp_killed (f_proc (plocked pi p s))) with (fp_killed (f_proc s)).
  rewrite Hk. cbn [Z.eqb negb]. apply wp_bind, p_sleep; [done|apply Hok|].
  rewrite at_pipe_id by done. apply andb_true_iff in Hm as [Hm _]. apply bool_decide_eq_true in Hm.
  destruct (Henv s p Hp Hok Hq Hm) as (p' & E1 & E2 & E3 & E4).
  rewrite <- (at_pipe_id _ _ _ E1). apply p_acquire; [done|apply E2|]. apply wp_ret.
  destruct patience as [|fuel]; [lia|]. apply Hstop; [done| |by apply HQ].
  unfold must_wait. destruct E4 as [E4| ->]; [by rewrite bool_decide_eq_false_2|apply andb_false_r].
Qed.

(** C30: [piperead] takes from the front of the queue.  It waits only while the
    pipe is empty and a writer is left; then it delivers, in order, the first
    [min(n, length)] bytes of the queue to the user's memory, returns that
    number and leaves the rest of the queue, and returns 0 when the pipe is
    empty and closed. *)
Theorem piperead_takes pi addr n s p :
  writers_fill pi -> (1 <= patience)%nat -> f_pipes s !! pi = Some p -> pipe_ok p ->
  hart_quiet (f_hart s) -> fp_killed (f_proc s) = 0 -> 0 <= n -> 0 <= addr -> addr + n < 2 ^ 64 ->
  (forall k, 0 <= k < n -> u_mapped (addr + k) = true) ->
  let s1 := after_wait pi p s in
  wp (piperead pi addr n) (fun r s' => exists p1 p',
    f_pipes s1 !! pi = Some p1 /\ r = Z.min n (Z.of_nat (length (queue p1))) /\
    pipe_ok p' /\ queue p1 = take (Z.to_nat r) (queue p1) ++ queue p' /\
    s' = setf_woken (WPipeW pi :: f_woken s1)
           (at_pipe pi p' (setf_umem (wr_bytes (f_umem s1) addr (take (Z.to_nat r) (queue p1))) s1))) s.
Proof.
  intros Henv Hpat Hp Hok Hq Hk Hn Ha0 Ha Hmap s1. unfold piperead.
  rewrite <- (at_pipe_id pi p s) at 1 by done. apply wp_bind, p_acquire; [done|apply Hok|].
  apply wp_bind. eapply piperead_wait_spec; try done. fold s1. intros p1 Hp1 Hok1 Hq1.
  apply wp_bind. apply piperead_loop; [done|done|done|done|done|]. intros p' Hok' Hq'.
  apply wp_bind, wp_modify, wp_bind.
  set (s2 := setf_umem _ s1). change (setf_woken _ (plocked pi p' s2)) with
    (plocked pi p' (setf_woken (WPipeW pi :: f_woken s1) s2)).
  apply p_release; [done|apply Hok'|]. apply wp_ret. exists p1, p'.
  split; [done|]. split; [lia|]. rewrite Nat2Z.id. split; [done|]. split; [|done].
  by rewrite Hq', take_drop.
Qed.

End specs.

(** ** A concrete world: readers empty the pipe, writers put one byte *)

Definition pipe_world : World := {|
  env := fun c s =>
    match c with
    | WPipeW pi => setf_pipes (alter (fun p => setpi_nread (pi_nwrite p) p) pi (f_pipes s)) s
    | WPipeR pi => setf_pipes (alter (push 7) pi (f_pipes s)) s
    | _ => s
    end;
  patience := 1000;
  u_mapped := fun _ => true;
  virtio_disk_rw := fun b w s => Ret tt (disk_effect b w s);
  dev_read := fun _ => None;
  dev_write := fun _ => None
|}.

Lemma pipe_world_drains pi umem : readers_drain (W := pipe_world) pi umem.
Proof.
  intros s p Hp Hok Hq Hk Hr Hu Hfull s'.
  assert (Hz : u32 (pi_nwrite p - pi_nwrite p) = 0) by (by rewrite Z.sub_diag).
  assert (Hq' : queue (setpi_nread (pi_nwrite p) p) = []).
  { unfold queue. cbn [pi_nread pi_nwrite setpi_nread]. by rewrite Hz. }
  exists (setpi_nread (pi_nwrite p) p), (queue p). split_and!; try done.
  - unfold s'. simpl. by rewrite lookup_alter_eq, Hp.
  - destruct Hok. split; try done. cbn [pi_nread pi_nwrite setpi_nread]. rewrite Hz. done.
  - by rewrite Hq', app_nil_r.
  - intros H. by rewrite H in Hfull.
Qed.

Lemma pipe_world_fills pi : writers_fill (W := pipe_world) pi.
Proof.
  intros s p Hp Hok Hq He s'. destruct (push_queue 7 p Hok) as [H1 H2].
  { by rewrite He. }
  exists (push 7 p). split_and!; try done.
  - unfold s'. simpl. by rewrite lookup_alter_eq, Hp.
  - left. by rewrite H2, He.
Qed.

(** A pipe with 511 bytes whose counters are about to wrap. *)
Definition demo_pipe : pipe := mkPipe (mkLock 0 0 0) (replicate 512 1) (2 ^ 32 - 20) 491 1 1.
Definition demo_pipe_fs : fstate :=
  setf_pipes {[4096 := demo_pipe]} (demo_fs (mkDisk ∅ [])).

Lemma demo_pipe_ok : pipe_ok demo_pipe.
Proof.
  split; [reflexivity|split; vm_compute; [discriminate|reflexivity]..| |split; reflexivity].
  vm_compute. discriminate.
Qed.

Lemma pipewrite_appends_witness :
  wp (pipewrite (im := demo_image) (W := pipe_world) 4096 64 3) (fun r s' => r = 3 /\
    exists p' taken, f_pipes s' !! 4096 = Some p' /\ pipe_ok p' /\
      queue demo_pipe ++ [0; 0; 0] = taken ++ queue p') demo_pipe_fs.
Proof.
  eapply wp_conseq.
  - apply (pipewrite_appends (W := pipe_world) 4096 64 3 demo_pipe_fs demo_pipe).
    + apply pipe_world_drains.
    + lia.
    + change (3 + 512 <= 1000)%nat. lia.
    + lia.
    + lia.
    + reflexivity.
    + reflexivity.
    + exact demo_pipe_ok.
    + apply demo_quiet.
    + reflexivity.
    + discriminate.
  - intros r s' (-> & s2 & p' & taken & _ & _ & H1 & H2 & _ & _ & H3). split; [reflexivity|].
    exists p', taken. split; [exact H1|]. split; [exact H2|]. exact H3.
Defined.

Lemma piperead_takes_witness :
  wp (piperead (im := demo_image) (W := pipe_world) 4096 64 3) (fun r s' => r = 3) demo_pipe_fs.
Proof.
  eapply wp_conseq.
  - apply (piperead_takes (W := pipe_world) 4096 64 3 demo_pipe_fs demo_pipe).
    + apply pipe_world_fills.
    + change (1 <= 1000)%nat. lia.
    + reflexivity.
    + exact demo_pipe_ok.
    + apply demo_quiet.
    + reflexivity.
    + lia.
    + lia.
    + lia.
    + reflexivity.
  - intros r s' (p1 & p' & H1 & -> & _).
    change (f_pipes (after_wait 4096 demo_pipe demo_pipe_fs) !! 4096) with (Some demo_pipe) in H1.
    injection H1 as <-. reflexivity.
Defined.
