(* ===== verification/File.v ===== *)
(** * Open files ([kernel/file.c], and [pipealloc] of [kernel/pipe.c])

    The table of [struct file]s and the operations that system calls on file
    descriptors end in. *)
From stdpp Require Import base gmap strings numbers option list.
From S2P Require Import Prelude Layout Machine Memory Kernel Demo FsState Block Sleeplock Bio.
From S2P Require Import Log Fs FsRead Pipe.
Open Scope Z_scope.

Definition getf (f : nat) : M fstate file := fun s =>
  match files s !! f with
  | Some x => Ret x s
  | None => Err (EFault (Z.of_nat f)) s
  end.
Definition updf (f : nat) (g : file -> file) : M fstate unit :=
  _ ← getf f; modify (fun s => set_files (alter g f (files s)) s).

(** The local [struct stat st] of [filestat]. *)
Definition ST_ADDR : Z := 0x3fffff0100.

(** Its bytes; the four after [nlink] are padding, whatever the stack holds. *)
Definition stat_bytes (pad : list Z) (st : stat) : list Z :=
  le_bytes 4 (st_dev st) ++ le_bytes 4 (st_ino st) ++ le_bytes 2 (st_type st) ++
  le_bytes 2 (st_nlink st) ++ pad ++ le_bytes 8 (st_size st).

Section file.
Context `{im : Image} `{W : World}.

Definition fileinit : M fstate unit := zoom ftableL (zoom lsnd (initlock (strlit "ftable"))).

Definition filealloc : M fstate (option nat) :=
  zoom ftableL acquire;;
  r ← for_find (seq 0 (Z.to_nat NFILE)) (fun f =>
    x ← getf f;
    if fi_ref x =? 0 then
      updf f (setfi_ref 1);;
      zoom ftableL release;;
      mret (Some f)
    else mret None);
  match r with
  | Some f => mret (Some f)
  | None => zoom ftableL release;; mret None
  end.

Definition filedup (f : nat) : M fstate nat :=
  zoom ftableL acquire;;
  x ← getf f;
  if fi_ref x <? 1 then panic "filedup" else
  updf f (setfi_ref (fi_ref x + 1));;
  zoom ftableL release;;
  mret f.

Definition fileclose (f : nat) : M fstate unit :=
  zoom ftableL acquire;;
  x ← getf f;
  if fi_ref x <? 1 then panic "fileclose" else
  updf f (setfi_ref (fi_ref x - 1));;
  if 0 <? fi_ref x - 1 then zoom ftableL release else
  ff ← getf f;
  updf f (setfi_ref 0);;
  updf f (setfi_type FD_NONE);;
  zoom ftableL release;;
  match fi_type ff with
  | FD_PIPE => pipeclose (fi_pipe ff) (fi_writable ff)
  | FD_INODE | FD_DEVICE =>
      begin_op;;
      match fi_ip ff with
      | Some i => iput i
      | None => fail (EFault 0)
      end;;
      end_op
  | FD_NONE => skip
  end.

(** [pipealloc]: the files of the read and the write end, or [None] for -1. *)
Definition pipealloc : M fstate (option (nat * nat)) :=
  let bad (pi : Z) (f0 f1 : option nat) : M fstate (option (nat * nat)) :=
    (if negb (pi =? 0) then f_kfree pi else skip);;
    match f0 with Some f => fileclose f | None => skip end;;
    match f1 with Some f => fileclose f | None => skip end;;
    mret None in
  r0 ← filealloc;
  match r0 with
  | None => bad 0 None None
  | Some f0 =>
      r1 ← filealloc;
      match r1 with
      | None => bad 0 (Some f0) None
      | Some f1 =>
          pi ← f_kalloc;
          if pi =? 0 then bad 0 (Some f0) (Some f1) else
          modify (fun s => setf_pipes (<[pi := mkPipe (mkLock 0 0 0)
            (replicate (Z.to_nat PIPESIZE) 5) 0 0 1 1]> (f_pipes s)) s);;
          zoom (pipeL pi) (zoom lsnd (initlock (strlit "pipe")));;
          updf f0 (setfi_type FD_PIPE);;
          updf f0 (setfi_readable 1);;
          updf f0 (setfi_writable 0);;
          updf f0 (setfi_pipe pi);;
          updf f1 (setfi_type FD_PIPE);;
          updf f1 (setfi_readable 0);;
          updf f1 (setfi_writable 1);;
          updf f1 (setfi_pipe pi);;
          mret (Some (f0, f1))
      end
  end.

(** [f->ip] where the code uses it without a check. *)
Definition the_ip (x : file) : M fstate nat :=
  match fi_ip x with
  | Some i => mret i
  | None => fail (EFault 0)
  end.

Definition filestat (f : nat) (addr : Z) : M fstate Z :=
  x ← getf f;
  match fi_type x with
  | FD_INODE | FD_DEVICE =>
      i ← the_ip x;
      ilock (Some i);;
      st ← stati i;
      iunlock (Some i);;
      pad ← gets (fun s => rd_bytes (f_kmem s) (ST_ADDR + 12) 4);
      r ← u_copyout addr (stat_bytes pad st);
      mret (if r <? 0 then -1 else 0)
  | _ => mret (-1)
  end.

Definition fileread (f : nat) (addr n : Z) : M fstate Z :=
  x ← getf f;
  if fi_readable x =? 0 then mret (-1) else
  match fi_type x with
  | FD_PIPE => piperead (fi_pipe x) addr n
  | FD_DEVICE =>
      if (fi_major x <? 0) || (NDEV <=? fi_major x) then mret (-1) else
      match dev_read (fi_major x) with
      | None => mret (-1)
      | Some rd => rd 1 addr n
      end
  | FD_INODE =>
      i ← the_ip x;
      ilock (Some i);;
      x ← getf f;
      r ← readi i true addr (fi_off x) (u32 n);
      let r := i32 r in
      (if 0 <? r then updf f (setfi_off (u32 (fi_off x + r))) else skip);;
      iunlock (Some i);;
      mret r
  | FD_NONE => panic "fileread"
  end.

(** [((MAXOPBLOCKS-1-1-2) / 2) * BSIZE] *)
Definition WRITE_MAX : Z := ((MAXOPBLOCKS - 1 - 1 - 2) / 2) * BSIZE.

(** One transaction of [filewrite]; the loop ends with [i]. *)
Definition filewrite_step (f : nat) (ip : nat) (addr n i : Z) : M fstate (Z + Z) :=
  if negb (i <? n) then mret (inr i) else
  let n1 := Z.min (n - i) WRITE_MAX in
  begin_op;;
  ilock (Some ip);;
  x ← getf f;
  r ← writei ip true (u64 (addr + i)) (fi_off x) n1;
  (if 0 <? r then updf f (setfi_off (u32 (fi_off x + r))) else skip);;
  iunlock (Some ip);;
  end_op;;
  if negb (r =? n1) then mret (inr i) else mret (inl (i + r)).

Definition filewrite (f : nat) (addr n : Z) : M fstate Z :=
  x ← getf f;
  if fi_writable x =? 0 then mret (-1) else
  match fi_type x with
  | FD_PIPE => pipewrite (fi_pipe x) addr n
  | FD_DEVICE =>
      if (fi_major x <? 0) || (NDEV <=? fi_major x) then mret (-1) else
      match dev_write (fi_major x) with
      | None => mret (-1)
      | Some wr => wr 1 addr n
      end
  | FD_INODE =>
      ip ← the_ip x;
      i ← loop (Z.to_nat n + 1) (filewrite_step f ip addr n) 0;
      mret (if i =? n then n else -1)
  | FD_NONE => panic "filewrite"
  end.

End file.
