(* ===== verification/Sysfile.v ===== *)
(** * File-system calls ([kernel/sysfile.c], the arguments of [kernel/syscall.c])

    Arguments come from the trapframe of the current process.  Strings fetched
    from user memory are the bytes before the NUL. *)
From stdpp Require Import base gmap strings numbers option list.
From S2P Require Import Prelude Layout Machine Memory Kernel Demo FsState Block Sleeplock Bio.
From S2P Require Import Log Fs FsRead Pipe File.
Open Scope Z_scope.

Definition O_RDONLY : Z := 0x000.
Definition O_WRONLY : Z := 0x001.
Definition O_RDWR : Z := 0x002.
Definition O_CREATE : Z := 0x200.
Definition O_TRUNC : Z := 0x400.

Definition setp_ofile (x : list (option nat)) (p : fproc) : fproc :=
  mkFproc (fp_pid p) (fp_killed p) (fp_sz p) x (fp_cwd p) (fp_tf p).
Definition setp_cwd (x : option nat) (p : fproc) : fproc :=
  mkFproc (fp_pid p) (fp_killed p) (fp_sz p) (fp_ofile p) x (fp_tf p).
Definition setp_tf (x : list Z) (p : fproc) : fproc :=
  mkFproc (fp_pid p) (fp_killed p) (fp_sz p) (fp_ofile p) (fp_cwd p) x.

Definition ofile (s : fstate) : list (option nat) := fp_ofile (f_proc s).
Definition set_ofile (l : list (option nat)) (s : fstate) : fstate := setf_proc (setp_ofile l (f_proc s)) s.

(** ** Arguments *)

Definition argraw (n : Z) : M fstate Z :=
  if (0 <=? n) && (n <=? 5) then gets (fun s => nth (Z.to_nat n) (fp_tf (f_proc s)) 0)
  else panic "argraw".

Definition argint (n : Z) : M fstate Z := r ← argraw n; mret (i32 r).
Definition argaddr (n : Z) : M fstate Z := argraw n.

(** The NUL-terminated string at [va], if it is reachable and shorter than
    [max]. *)
Fixpoint user_str `{World} (m : mem) (va : Z) (max : nat) : option (list Z) :=
  match max with
  | O => None
  | S max' =>
      if u_mapped va then
        if rd m va =? 0 then Some []
        else (fun l => rd m va :: l) <$> user_str m (va + 1) max'
      else None
  end.

Section sysfile.
Context `{im : Image} `{W : World}.

(** [fetchaddr]: the value, or [None] for -1. *)
Definition fetchaddr (addr : Z) : M fstate (option Z) :=
  sz ← gets (fun s => fp_sz (f_proc s));
  if (sz <=? addr) || (sz <? u64 (addr + 8)) then mret None else
  r ← u_copyin addr 8;
  mret (if negb (r.2 =? 0) then None else Some (le_val r.1)).

(** [fetchstr]: the string, whose length the code returns, or [None] for -1. *)
Definition fetchstr (addr max : Z) : M fstate (option (list Z)) :=
  gets (fun s => user_str (f_umem s) addr (Z.to_nat max)).

Definition argstr (n max : Z) : M fstate (option (list Z)) :=
  addr ← argaddr n; fetchstr addr max.

(** [argfd]: the descriptor and its file. *)
Definition argfd (n : Z) : M fstate (option (Z * nat)) :=
  fd ← argint n;
  if (fd <? 0) || (NOFILE <=? fd) then mret None else
  l ← gets ofile;
  mret (match l !! Z.to_nat fd with
        | Some (Some f) => Some (fd, f)
        | _ => None
        end).

(** The first free descriptor, or -1. *)
Definition fdalloc (f : nat) : M fstate Z :=
  r ← for_find (seqZ 0 NOFILE) (fun fd =>
    l ← gets ofile;
    if bool_decide (l !! Z.to_nat fd = Some None) then
      modify (set_ofile (<[Z.to_nat fd := Some f]> l));;
      mret (Some fd)
    else mret None);
  mret (default (-1) r).

Definition set_fd (fd : Z) (x : option nat) : M fstate unit :=
  modify (fun s => set_ofile (<[Z.to_nat fd := x]> (ofile s)) s).

(** ** The calls on descriptors *)

Definition sys_dup : M fstate Z :=
  r ← argfd 0;
  match r with
  | None => mret (-1)
  | Some (_, f) =>
      fd ← fdalloc f;
      if fd <? 0 then mret (-1) else
      filedup f;;
      mret fd
  end.

Definition sys_read : M fstate Z :=
  r ← argfd 0;
  match r with
  | None => mret (-1)
  | Some (_, f) => n ← argint 2; p ← argaddr 1; fileread f p n
  end.

Definition sys_write : M fstate Z :=
  r ← argfd 0;
  match r with
  | None => mret (-1)
  | Some (_, f) => n ← argint 2; p ← argaddr 1; filewrite f p n
  end.

Definition sys_close : M fstate Z :=
  r ← argfd 0;
  match r with
  | None => mret (-1)
  | Some (fd, f) => set_fd fd None;; fileclose f;; mret 0
  end.

Definition sys_fstat : M fstate Z :=
  r ← argfd 0;
  match r with
  | None => mret (-1)
  | Some (_, f) => st ← argaddr 1; filestat f st
  end.

(** [fileclose(rf); fileclose(wf); return -1;] *)
Definition pipe_fail (rf wf : nat) : M fstate Z := fileclose rf;; fileclose wf;; mret (-1).

Definition sys_pipe : M fstate Z :=
  fdarray ← argaddr 0;
  r ← pipealloc;
  match r with
  | None => mret (-1)
  | Some (rf, wf) =>
      fd0 ← fdalloc rf;
      if fd0 <? 0 then pipe_fail rf wf else
      fd1 ← fdalloc wf;
      if fd1 <? 0 then set_fd fd0 None;; pipe_fail rf wf else
      r0 ← u_copyout fdarray (le_bytes 4 fd0);
      r1 ← (if r0 <? 0 then mret (-1) else u_copyout (u64 (fdarray + 4)) (le_bytes 4 fd1));
      if (r0 <? 0) || (r1 <? 0) then
        set_fd fd0 None;;
        set_fd fd1 None;;
        pipe_fail rf wf
      else mret 0
  end.

(** ** The calls on paths *)

(** [dp->nlink++], [ip->nlink--] *)
Definition nlink_add (i : nat) (k : Z) : M fstate unit :=
  x ← geti i; updi i (seti_nlink (i16 (i_nlink x + k))).

Definition DOT : list Z := [46].
Definition DOTDOT : list Z := [46; 46].

(** The [bad:] exit of [sys_link]. *)
Definition link_bad (ip : nat) : M fstate Z :=
  ilock (Some ip);; nlink_add ip (-1);; iupdate ip;; iunlockput ip;; end_op;; mret (-1).

Definition sys_link : M fstate Z :=
  old ← argstr 0 MAXPATH;
  match old with
  | None => mret (-1)
  | Some old =>
  new ← argstr 1 MAXPATH;
  match new with
  | None => mret (-1)
  | Some new =>
  begin_op;;
  r ← namei old;
  match r with
  | None => end_op;; mret (-1)
  | Some ip =>
      ilock (Some ip);;
      x ← geti ip;
      if i_type x =? T_DIR then iunlockput ip;; end_op;; mret (-1) else
      nlink_add ip 1;;
      iupdate ip;;
      iunlock (Some ip);;
      rp ← nameiparent new;
      match rp with
      | None => link_bad ip
      | Some (dp, name) =>
          ilock (Some dp);;
          xd ← geti dp;
          x ← geti ip;
          ok ← (if negb (i_dev xd =? i_dev x) then mret false
                else l ← dirlink dp name (i_inum x); mret (negb (l <? 0)));
          if negb (ok : bool) then iunlockput dp;; link_bad ip else
          iunlockput dp;;
          iput ip;;
          end_op;;
          mret 0
      end
  end end end.

(** Does the directory have only its first two entries?  The loop runs over
    the entries from the third. *)
Definition isdirempty (dp : nat) : M fstate bool :=
  x ← geti dp;
  r ← for_find (seqZ 2 ((i_size x + 15) / 16 - 2)) (fun k =>
    n ← readi dp false DE_ADDR (16 * k) 16;
    if negb (n =? 16) then panic "isdirempty: readi" else
    inum ← gets (fun s => de_inum (f_kmem s));
    mret (if negb (inum =? 0) then Some tt else None));
  mret (match r with Some _ => false | None => true end).

Definition unlink_bad (dp : nat) : M fstate Z := iunlockput dp;; end_op;; mret (-1).

Definition sys_unlink : M fstate Z :=
  path ← argstr 0 MAXPATH;
  match path with
  | None => mret (-1)
  | Some path =>
  begin_op;;
  r ← nameiparent path;
  match r with
  | None => end_op;; mret (-1)
  | Some (dp, name) =>
      ilock (Some dp);;
      if (namecmp name DOT =? 0) || (namecmp name DOTDOT =? 0) then unlink_bad dp else
      rl ← dirlookup dp name;
      match rl with
      | None => unlink_bad dp
      | Some (ip, off) =>
          ilock (Some ip);;
          x ← geti ip;
          if i_nlink x <? 1 then panic "unlink: nlink < 1" else
          full ← (if i_type x =? T_DIR then e ← isdirempty ip; mret (negb e) else mret false);
          if (full : bool) then iunlockput ip;; unlink_bad dp else
          modify (fun s => setf_kmem (wr_bytes (f_kmem s) DE_ADDR (replicate 16 0)) s);;
          n ← writei dp false DE_ADDR off 16;
          if negb (n =? 16) then panic "unlink: writei" else
          (if i_type x =? T_DIR then nlink_add dp (-1);; iupdate dp else skip);;
          iunlockput dp;;
          nlink_add ip (-1);;
          iupdate ip;;
          iunlockput ip;;
          end_op;;
          mret 0
      end
  end end.

(** [create]: the locked inode, or [None] for a null pointer. *)
Definition create (path : list Z) (type major minor : Z) : M fstate (option nat) :=
  r ← nameiparent path;
  match r with
  | None => mret None
  | Some (dp, name) =>
      ilock (Some dp);;
      rl ← dirlookup dp name;
      match rl with
      | Some (ip, _) =>
          iunlockput dp;;
          ilock (Some ip);;
          x ← geti ip;
          if (type =? T_FILE) && ((i_type x =? T_FILE) || (i_type x =? T_DEVICE)) then mret (Some ip)
          else iunlockput ip;; mret None
      | None =>
          xd ← geti dp;
          ip ← ialloc (i_dev xd) type;
          ilock (Some ip);;
          updi ip (seti_major major);;
          updi ip (seti_minor minor);;
          updi ip (seti_nlink 1);;
          iupdate ip;;
          x ← geti ip;
          (if type =? T_DIR then
             nlink_add dp 1;;
             iupdate dp;;
             r1 ← dirlink ip DOT (i_inum x);
             if r1 <? 0 then panic "create dots" else
             r2 ← dirlink ip DOTDOT (i_inum xd);
             if r2 <? 0 then panic "create dots" else skip
           else skip);;
          l ← dirlink dp name (i_inum x);
          if l <? 0 then panic "create: dirlink" else
          iunlockput dp;;
          mret (Some ip)
      end
  end.

(** The part of [sys_open] after the inode is there, locked. *)
Definition open_inode (ip : nat) (omode : Z) : M fstate Z :=
  x ← geti ip;
  if (i_type x =? T_DEVICE) && ((i_major x <? 0) || (NDEV <=? i_major x)) then
    iunlockput ip;; end_op;; mret (-1)
  else
  rf ← filealloc;
  match rf with
  | None => iunlockput ip;; end_op;; mret (-1)
  | Some f =>
      fd ← fdalloc f;
      if fd <? 0 then fileclose f;; iunlockput ip;; end_op;; mret (-1) else
      (if i_type x =? T_DEVICE then
         updf f (setfi_type FD_DEVICE);;
         updf f (setfi_major (i_major x))
       else
         updf f (setfi_type FD_INODE);;
         updf f (setfi_off 0));;
      updf f (setfi_ip (Some ip));;
      updf f (setfi_readable (if Z.land omode O_WRONLY =? 0 then 1 else 0));;
      updf f (setfi_writable
        (if negb (Z.land omode O_WRONLY =? 0) || negb (Z.land omode O_RDWR =? 0) then 1 else 0));;
      (if negb (Z.land omode O_TRUNC =? 0) && (i_type x =? T_FILE) then itrunc ip else skip);;
      iunlock (Some ip);;
      end_op;;
      mret fd
  end.

Definition sys_open : M fstate Z :=
  path ← argstr 0 MAXPATH;
  match path with
  | None => mret (-1)
  | Some path =>
  omode ← argint 1;
  begin_op;;
  if negb (Z.land omode O_CREATE =? 0) then
    r ← create path T_FILE 0 0;
    match r with
    | None => end_op;; mret (-1)
    | Some ip => open_inode ip omode
    end
  else
    r ← namei path;
    match r with
    | None => end_op;; mret (-1)
    | Some ip =>
        ilock (Some ip);;
        x ← geti ip;
        if (i_type x =? T_DIR) && negb (omode =? O_RDONLY) then
          iunlockput ip;; end_op;; mret (-1)
        else open_inode ip omode
    end
  end.

Definition sys_mkdir : M fstate Z :=
  begin_op;;
  path ← argstr 0 MAXPATH;
  r ← match path with None => mret None | Some path => create path T_DIR 0 0 end;
  match r with
  | None => end_op;; mret (-1)
  | Some ip => iunlockput ip;; end_op;; mret 0
  end.

Definition sys_mknod : M fstate Z :=
  begin_op;;
  path ← argstr 0 MAXPATH;
  r ← match path with
      | None => mret None
      | Some path =>
          major ← argint 1;
          minor ← argint 2;
          create path T_DEVICE (i16 major) (i16 minor)
      end;
  match r with
  | None => end_op;; mret (-1)
  | Some ip => iunlockput ip;; end_op;; mret 0
  end.

Definition sys_chdir : M fstate Z :=
  begin_op;;
  path ← argstr 0 MAXPATH;
  r ← match path with None => mret None | Some path => namei path end;
  match r with
  | None => end_op;; mret (-1)
  | Some ip =>
      ilock (Some ip);;
      x ← geti ip;
      if negb (i_type x =? T_DIR) then iunlockput ip;; end_op;; mret (-1) else
      iunlock (Some ip);;
      cwd ← gets (fun s => fp_cwd (f_proc s));
      match cwd with Some c => iput c | None => fail (EFault 0) end;;
      end_op;;
      modify (fun s => setf_proc (setp_cwd (Some ip) (f_proc s)) s);;
      mret 0
  end.

End sysfile.
