(* ===== verification/FileLogic.v ===== *)
(** * Descriptors, files and pipes

    What [filealloc], [filedup], [fileclose], [pipeclose] and [fdalloc] do to
    the tables, and the system calls made of them. *)
From stdpp Require Import base gmap strings numbers option list.
From S2P Require Import Prelude Layout Machine Memory Kernel Demo FsState Block Sleeplock Bio.
From S2P Require Import Log Fs FsRead Pipe File Sysfile.
Open Scope Z_scope.

(** Nobody is in the file table, and the current hart is quiet. *)
Definition ftable_idle (s : fstate) : Prop :=
  hart_quiet (f_hart s) /\ lock_free (ft_lock (f_ftable s)).

Lemma seq_split f n : (f < n)%nat -> seq 0 n = seq 0 f ++ f :: seq (S f) (n - S f).
Proof.
  intros H. replace n with (f + S (n - S f))%nat at 1 by lia. rewrite seq_app. done.
Qed.

Definition put_file (f : nat) (x : file) (s : fstate) : fstate := set_files (<[f := x]> (files s)) s.
Definition flocked `{im : Image} (s : fstate) : fstate :=
  lset ftableL (acquired (f_hart s), held (f_hart s) (ft_lock (f_ftable s))) s.

Lemma put_file_put f x y s : put_file f x (put_file f y s) = put_file f x s.
Proof. unfold put_file, set_files, files. simpl. by rewrite list_insert_insert_eq. Qed.

Lemma put_file_comm f g x y s :
  f <> g -> put_file f x (put_file g y s) = put_file g y (put_file f x s).
Proof.
  intros H. unfold put_file, set_files, files. simpl. by rewrite list_insert_insert_ne.
Qed.

Lemma put_file_id f x s : files s !! f = Some x -> put_file f x s = s.
Proof.
  intros H. unfold put_file. rewrite list_insert_id by done.
  by destruct s as [? ? ? ? ? ? ? [] ? ? ? ? ?].
Qed.

Lemma length_put_file f x s : length (files (put_file f x s)) = length (files s).
Proof. apply length_insert. Qed.

Lemma files_put f x y s : files s !! f = Some x -> files (put_file f y s) !! f = Some y.
Proof. intros H. apply list_lookup_insert_eq. by eapply lookup_lt_Some. Qed.

Lemma files_put_ne f g y s : f <> g -> files (put_file f y s) !! g = files s !! g.
Proof. intros H. by apply list_lookup_insert_ne. Qed.

Lemma alter_file s f x (g : file -> file) :
  files s !! f = Some x -> set_files (alter g f (files s)) s = put_file f (g x) s.
Proof.
  intros H. unfold put_file. f_equal. apply list_eq. intros k.
  rewrite list_lookup_alter, list_lookup_insert.
  pose proof (lookup_lt_Some _ _ _ H). destruct (decide (f = k)) as [->|Hn].
  - rewrite decide_True by done. by rewrite H.
  - rewrite decide_False by naive_solver. done.
Qed.

Lemma getf_ok s f x (Q : file -> fstate -> Prop) : files s !! f = Some x -> Q x s -> wp (getf f) Q s.
Proof. intros Hi HQ. unfold wp, getf. by rewrite Hi. Qed.

Lemma updf_ok s f x g Q : files s !! f = Some x -> Q tt (put_file f (g x) s) -> wp (updf f g) Q s.
Proof.
  intros Hi HQ. unfold updf. apply wp_bind. eapply getf_ok; [done|]. apply wp_modify.
  by rewrite (alter_file s f x).
Qed.

Section ops.
Context `{im : Image} `{W : World}.

Lemma wp_flock s Q : ftable_idle s -> Q tt (flocked s) -> wp (zoom ftableL acquire) Q s.
Proof. intros [Hq Hf] HQ. by eapply wp_lock. Qed.

Lemma wp_funlock s Q : ftable_idle s -> Q tt s -> wp (zoom ftableL release) Q (flocked s).
Proof.
  intros [Hq Hf] HQ. eapply (wp_unlock _ (f_hart s) (ft_lock (f_ftable s))); [done|done|done|].
  by destruct s as [? ? ? ? ? ? ? [] ? ? ? ? ?].
Qed.

Lemma flocked_put f x s : put_file f x (flocked s) = flocked (put_file f x s).
Proof. done. Qed.

(** The first file nobody references. *)
Definition free_file (s : fstate) (f : nat) (x : file) : Prop :=
  files s !! f = Some x /\ fi_ref x = 0 /\
  forall g y, (g < f)%nat -> files s !! g = Some y -> fi_ref y <> 0.

Lemma filealloc_free s f x Q :
  ftable_idle s -> length (files s) = Z.to_nat NFILE -> free_file s f x ->
  Q (Some f) (put_file f (setfi_ref 1 x) s) -> wp filealloc Q s.
Proof.
  intros Hidle Hlen (Hf & Hr & Hfirst) HQ. pose proof (lookup_lt_Some _ _ _ Hf) as Hlt. unfold filealloc.
  apply wp_bind, wp_flock; [done|]. apply wp_bind.
  rewrite (seq_split f) by lia.
  apply (wp_for_find_at _ _ _ _ (fun t => t = flocked s)); [| |done].
  - intros g t Hg ->. apply elem_of_seq in Hg.
    destruct (lookup_lt_is_Some_2 (files s) g) as [y Hy]; [lia|].
    apply wp_bind. eapply getf_ok; [exact Hy|].
    rewrite (proj2 (Z.eqb_neq _ _)); [by apply wp_ret|]. apply (Hfirst g y); [lia|done].
  - intros t ->. apply wp_bind. eapply getf_ok; [exact Hf|]. rewrite Hr. cbn [Z.eqb].
    apply wp_bind. eapply updf_ok; [exact Hf|]. rewrite flocked_put.
    apply wp_bind, wp_funlock; [done|]. apply wp_ret. split; [by eexists|]. by apply wp_ret.
Qed.

Lemma filealloc_none s Q :
  ftable_idle s -> length (files s) = Z.to_nat NFILE ->
  (forall f x, files s !! f = Some x -> fi_ref x <> 0) -> Q None s -> wp filealloc Q s.
Proof.
  intros Hidle Hlen Hall HQ. unfold filealloc. apply wp_bind, wp_flock; [done|]. apply wp_bind.
  eapply wp_conseq.
  { apply (wp_for_find_none _ _ (fun t => t = flocked s)); [|done].
    intros g t Hg ->. apply elem_of_seq in Hg.
    destruct (lookup_lt_is_Some_2 (files s) g) as [y Hy]; [lia|].
    apply wp_bind. eapply getf_ok; [exact Hy|].
    rewrite (proj2 (Z.eqb_neq _ _)); [by apply wp_ret|]. by apply (Hall g). }
  intros r t [-> ->]. cbn. by apply wp_bind, wp_funlock, wp_ret.
Qed.

(** Either there is a first free file or there is none. *)
Lemma find_free_file s :
  (exists f x, free_file s f x) \/ (forall f x, files s !! f = Some x -> fi_ref x <> 0).
Proof.
  destruct (list_find (fun x => fi_ref x = 0) (files s)) as [[f x]|] eqn:E.
  - left. exists f, x. apply list_find_Some in E as (H1 & H2 & H3). split; [done|]. split; [done|].
    intros g y Hg Hy. exact (H3 g y Hy Hg).
  - right. intros f x Hx. apply list_find_None in E. rewrite Forall_lookup in E. by apply (E f).
Qed.

Lemma filedup_ok s f x Q :
  ftable_idle s -> files s !! f = Some x -> 1 <= fi_ref x ->
  Q f (put_file f (setfi_ref (fi_ref x + 1) x) s) -> wp (filedup f) Q s.
Proof.
  intros Hidle Hf Hr HQ. unfold filedup. apply wp_bind, wp_flock; [done|].
  apply wp_bind. eapply getf_ok; [exact Hf|]. rewrite (proj2 (Z.ltb_ge _ _)) by lia.
  apply wp_bind. eapply updf_ok; [exact Hf|]. rewrite flocked_put.
  apply wp_bind, wp_funlock; [done|]. by apply wp_ret.
Qed.

Lemma fileclose_shared s f x Q :
  ftable_idle s -> files s !! f = Some x -> 2 <= fi_ref x ->
  Q tt (put_file f (setfi_ref (fi_ref x - 1) x) s) -> wp (fileclose f) Q s.
Proof.
  intros Hidle Hf Hr HQ. unfold fileclose. apply wp_bind, wp_flock; [done|].
  apply wp_bind. eapply getf_ok; [exact Hf|]. rewrite (proj2 (Z.ltb_ge _ _)) by lia.
  apply wp_bind. eapply updf_ok; [exact Hf|]. rewrite flocked_put.
  rewrite (proj2 (Z.ltb_lt _ _)) by lia. by apply wp_funlock.
Qed.

(** The entry a last [fileclose] leaves. *)
Definition closed (x : file) : file := setfi_type FD_NONE (setfi_ref 0 x).

(** The last reference: the entry is free, and what it stood for is closed. *)
Lemma fileclose_last s f x Q :
  ftable_idle s -> files s !! f = Some x -> fi_ref x = 1 ->
  wp (match fi_type x with
      | FD_PIPE => pipeclose (fi_pipe x) (fi_writable x)
      | FD_INODE | FD_DEVICE =>
          begin_op;; match fi_ip x with Some i => iput i | None => fail (EFault 0) end;; end_op
      | FD_NONE => skip
      end) Q (put_file f (closed x) s) ->
  wp (fileclose f) Q s.
Proof.
  intros Hidle Hf Hr HQ. unfold fileclose. apply wp_bind, wp_flock; [done|].
  apply wp_bind. eapply getf_ok; [exact Hf|]. rewrite Hr. cbn [Z.ltb Z.compare Pos.compare Pos.compare_cont].
  change (1 - 1) with 0. cbn [Z.ltb Z.compare].
  apply wp_bind. eapply updf_ok; [exact Hf|]. rewrite flocked_put.
  assert (Hf1 : files (flocked (put_file f (setfi_ref 0 x) s)) !! f = Some (setfi_ref 0 x))
    by (by eapply (files_put f x)).
  apply wp_bind. eapply getf_ok; [exact Hf1|].
  apply wp_bind. eapply updf_ok; [exact Hf1|]. rewrite flocked_put, put_file_put.
  apply wp_bind. eapply updf_ok; [by eapply (files_put f x)|]. rewrite flocked_put, put_file_put.
  by apply wp_bind, wp_funlock.
Qed.

(** ** Closing a pipe *)

Definition end_closed (writable : Z) (p : pipe) : pipe :=
  if negb (writable =? 0) then setpi_writeopen 0 p else setpi_readopen 0 p.
Definition end_wakes (pi writable : Z) : wchan :=
  if negb (writable =? 0) then WPipeR pi else WPipeW pi.

(** One end closes: the other side is woken; the page goes back when both are
    closed. *)
Lemma pipeclose_spec pi writable s p Q :
  hart_quiet (f_hart s) -> lock_free (pi_lock p) -> f_pipes s !! pi = Some p ->
  (let p' := end_closed writable p in
   let s' := setf_woken (end_wakes pi writable :: f_woken s) (at_pipe pi p' s) in
   Q tt (if (pi_readopen p' =? 0) && (pi_writeopen p' =? 0)
         then setf_pipes (delete pi (f_pipes s')) (setf_pages (pi :: f_pages s') s')
         else s')) ->
  wp (pipeclose pi writable) Q s.
Proof.
  intros Hq Hlk Hp HQ. unfold pipeclose. rewrite <- (at_pipe_id pi p s) by done.
  apply wp_bind, p_acquire; [done|done|]. apply wp_bind.
  eapply (wp_conseq _ (fun _ t => t = plocked pi (end_closed writable p)
    (setf_woken (end_wakes pi writable :: f_woken s) s))).
  { unfold end_closed, end_wakes. destruct (negb (writable =? 0)).
    all: apply wp_bind, p_updp; [done|]; by apply wp_modify. }
  intros [] t ->. apply wp_bind, p_getp. cbv zeta in HQ.
  cbn [pi_readopen pi_writeopen setpi_lock]. set (p' := end_closed writable p) in *.
  assert (Hlk' : lock_free (pi_lock p')) by (unfold p', end_closed; by destruct (negb (writable =? 0))).
  destruct ((pi_readopen p' =? 0) && (pi_writeopen p' =? 0)).
  - apply wp_bind, p_release; [done|done|]. by apply wp_modify.
  - by apply p_release.
Qed.

(** ** Descriptors *)

Definition free_fd (s : fstate) (k : nat) : Prop :=
  ofile s !! k = Some None /\ forall j, (j < k)%nat -> ofile s !! j <> Some None.

Lemma fdalloc_free s f k Q :
  length (ofile s) = Z.to_nat NOFILE -> free_fd s k ->
  Q (Z.of_nat k) (set_ofile (<[k := Some f]> (ofile s)) s) -> wp (fdalloc f) Q s.
Proof.
  intros Hlen [Hk Hfirst] HQ. pose proof (lookup_lt_Some _ _ _ Hk). unfold fdalloc. apply wp_bind.
  rewrite (seqZ_split 0 NOFILE (Z.of_nat k)) by lia.
  apply (wp_for_find_at _ _ _ _ (fun t => t = s)); [| |done].
  - intros j t Hj ->. apply elem_of_seqZ in Hj. apply wp_bind, wp_gets.
    rewrite bool_decide_eq_false_2; [by apply wp_ret|]. apply Hfirst. lia.
  - intros t ->. rewrite Z.add_0_l. apply wp_bind, wp_gets. rewrite Nat2Z.id, bool_decide_eq_true_2 by done.
    apply wp_bind, wp_modify, wp_ret. split; [by eexists|]. by apply wp_ret.
Qed.

Lemma fdalloc_none s f Q :
  (forall k, ofile s !! k <> Some None) -> Q (-1) s -> wp (fdalloc f) Q s.
Proof.
  intros Hall HQ. unfold fdalloc. apply wp_bind. eapply wp_conseq.
  { apply (wp_for_find_none _ _ (fun t => t = s)); [|done]. intros j t Hj ->.
    apply wp_bind, wp_gets. rewrite bool_decide_eq_false_2; [by apply wp_ret|apply Hall]. }
  intros r t [-> ->]. by apply wp_ret.
Qed.

Lemma find_free_fd s : (exists k, free_fd s k) \/ (forall k, ofile s !! k <> Some None).
Proof.
  destruct (list_find (fun x => x = None) (ofile s)) as [[k x]|] eqn:E.
  - left. exists k. apply list_find_Some in E as (H1 & -> & H3). split; [done|].
    intros j Hj Hn. by apply (H3 j None Hn).
  - right. intros k Hk. apply list_find_None in E. rewrite Forall_lookup in E. by apply (E k None).
Qed.

(** ** Making a pipe *)

Definition read_end (pi : Z) (x : file) : file :=
  setfi_pipe pi (setfi_writable 0 (setfi_readable 1 (setfi_type FD_PIPE (setfi_ref 1 x)))).
Definition write_end (pi : Z) (x : file) : file :=
  setfi_pipe pi (setfi_writable 1 (setfi_readable 0 (setfi_type FD_PIPE (setfi_ref 1 x)))).
Definition new_pipe : pipe :=
  mkPipe (mkLock 0 (strlit "pipe") 0) (replicate (Z.to_nat PIPESIZE) 5) 0 0 1 1.

(** The tables are well-formed: a file nobody references has no type, a free
    page is not a pipe. *)
Record tables_ok (s : fstate) : Prop := {
  tk_idle : ftable_idle s;
  tk_files : length (files s) = Z.to_nat NFILE;
  tk_fds : length (ofile s) = Z.to_nat NOFILE;
  tk_free : forall f x, files s !! f = Some x -> fi_ref x = 0 -> fi_type x = FD_NONE;
  tk_pages : forall pi ps, f_pages s = pi :: ps -> pi <> 0 /\ f_pipes s !! pi = None
}.

(** The two tables of files agree on the files in use, and on which are free. *)
Definition same_files (s s' : fstate) : Prop :=
  forall f x, files s !! f = Some x -> exists y, files s' !! f = Some y /\
    (if fi_ref x =? 0 then fi_ref y = 0 /\ fi_type y = FD_NONE else y = x).

(** The state after [pipealloc] has succeeded. *)
Definition piped (rf wf : nat) (x y : file) (pi : Z) (ps : list Z) (s : fstate) : fstate :=
  put_file wf (write_end pi y) (put_file rf (read_end pi x) (setf_pages ps (at_pipe pi new_pipe s))).

Lemma fileclose_fresh s f x Q :
  ftable_idle s -> files s !! f = Some x -> fi_ref x = 1 -> fi_type x = FD_NONE ->
  Q tt (put_file f (closed x) s) -> wp (fileclose f) Q s.
Proof. intros H1 H2 H3 H4 HQ. eapply fileclose_last; [done|done|done|]. rewrite H4. by apply wp_skip. Qed.

Lemma initpipelock pi p s Q :
  Q tt (at_pipe pi (setpi_lock (mkLock 0 (strlit "pipe") 0) p) s) ->
  wp (zoom (pipeL pi) (zoom lsnd (initlock (strlit "pipe")))) Q (at_pipe pi p s).
Proof.
  intros HQ. apply wp_zoom, wp_zoom. unfold initlock. apply wp_modify. unfold at_pipe in *. simpl. rewrite alter_insert_eq.
  by destruct s.
Qed.

(** The eight assignments to the two files. *)
Lemma set_ends rf wf x y pi t Q :
  rf <> wf -> files t !! rf = Some (setfi_ref 1 x) -> files t !! wf = Some (setfi_ref 1 y) ->
  Q (Some (rf, wf)) (put_file wf (write_end pi y) (put_file rf (read_end pi x) t)) ->
  wp (updf rf (setfi_type FD_PIPE);; updf rf (setfi_readable 1);; updf rf (setfi_writable 0);;
      updf rf (setfi_pipe pi);; updf wf (setfi_type FD_PIPE);; updf wf (setfi_readable 0);;
      updf wf (setfi_writable 1);; updf wf (setfi_pipe pi);; mret (Some (rf, wf))) Q t.
Proof.
  intros Hne Hr Hw HQ.
  do 4 (apply wp_bind; eapply updf_ok; [first [exact Hr|eapply files_put; exact Hr]|];
        rewrite ?put_file_put).
  assert (Hw' : files (put_file rf (read_end pi x) t) !! wf = Some (setfi_ref 1 y))
    by (by rewrite files_put_ne).
  do 4 (apply wp_bind; eapply updf_ok; [first [exact Hw'|eapply files_put; exact Hw']|];
        rewrite ?put_file_put).
  by apply wp_ret.
Qed.

Lemma pipealloc_spec s Q :
  tables_ok s ->
  (forall fs, same_files s (set_files fs s) -> Q None (set_files fs s)) ->
  (forall rf wf x y pi ps, rf <> wf -> files s !! rf = Some x -> files s !! wf = Some y ->
     fi_ref x = 0 -> fi_ref y = 0 -> f_pages s = pi :: ps ->
     Q (Some (rf, wf)) (piped rf wf x y pi ps s)) ->
  wp pipealloc Q s.
Proof.
  intros [Hidle Hfl Hfd Hfree Hpg] HN HS. unfold pipealloc.
  assert (Hself : same_files s s).
  { intros f x Hx. exists x. split; [done|]. destruct (Z.eqb_spec (fi_ref x) 0); [|done].
    split; [done|]. by apply (Hfree f). }
  assert (Hs : s = set_files (files s) s) by (by destruct s as [? ? ? ? ? ? ? [] ? ? ? ? ?]).
  apply wp_bind. destruct (find_free_file s) as [(rf & x & Hrf)|Hnone].
  2: { apply filealloc_none; [done|done|done|]. do 3 (apply wp_bind, wp_skip). apply wp_ret.
       rewrite Hs. apply HN. by rewrite <- Hs. }
  apply (filealloc_free s rf x); [done|done|done|]. destruct Hrf as (Hrf & Hxr & _).
  set (s1 := put_file rf (setfi_ref 1 x) s).
  assert (Hrf1 : files s1 !! rf = Some (setfi_ref 1 x)) by (by eapply files_put).
  assert (Hback : closed (setfi_ref 1 x) = x).
  { pose proof (Hfree rf x Hrf Hxr). destruct x. simpl in *. by subst. }
  apply wp_bind. destruct (find_free_file s1) as [(wf & y & Hwf)|Hnone].
  2: { apply filealloc_none; [done|unfold s1; by rewrite length_put_file|done|].
       apply wp_bind, wp_skip, wp_bind. eapply fileclose_fresh; [done|exact Hrf1|done|exact (Hfree rf x Hrf Hxr)|].
       apply wp_bind, wp_skip, wp_ret. unfold s1. rewrite put_file_put, Hback, put_file_id by done.
       rewrite Hs. apply HN. by rewrite <- Hs. }
  apply (filealloc_free s1 wf y); [done|unfold s1; by rewrite length_put_file|done|].
  destruct Hwf as (Hwf & Hyr & _).
  assert (Hne : rf <> wf). { intros <-. rewrite Hrf1 in Hwf. by simplify_eq. }
  assert (Hwf0 : files s !! wf = Some y) by (by unfold s1 in Hwf; rewrite files_put_ne in Hwf).
  set (s2 := put_file wf (setfi_ref 1 y) s1).
  assert (Hwf2 : files s2 !! wf = Some (setfi_ref 1 y)) by (by eapply files_put).
  assert (Hrf2 : files s2 !! rf = Some (setfi_ref 1 x)) by (by unfold s2; rewrite files_put_ne).
  apply wp_bind. unfold f_kalloc. destruct (f_pages s) as [|pi ps] eqn:Hp; unfold wp at 1;
    change (f_pages s2) with (f_pages s); rewrite Hp.
  - cbn [Z.eqb]. apply wp_bind, wp_skip, wp_bind.
    eapply fileclose_fresh; [done|exact Hrf2|done|exact (Hfree rf x Hrf Hxr)|]. rewrite Hback.
    apply wp_bind. apply (fileclose_fresh _ wf (setfi_ref 1 y)); [done| |done|exact (Hfree wf y Hwf0 Hyr)|].
    { rewrite files_put_ne by done. exact Hwf2. }
    apply wp_ret. assert (closed (setfi_ref 1 y) = y) as ->.
    { pose proof (Hfree wf y Hwf0 Hyr). destruct y. simpl in *. by subst. }
    assert (put_file wf y (put_file rf x s2) = s) as ->; [|rewrite Hs; apply HN; by rewrite <- Hs].
    unfold s2, s1. rewrite (put_file_comm rf wf) by done.
    by rewrite !put_file_put, (put_file_id rf), put_file_id.
  - destruct (Hpg pi ps eq_refl) as [Hpi Hpn]. rewrite (proj2 (Z.eqb_neq _ _) Hpi).
    apply wp_bind, wp_modify, wp_bind.
    match goal with |- wp _ _ ?t => change t with (at_pipe pi (mkPipe (mkLock 0 0 0)
      (replicate (Z.to_nat PIPESIZE) 5) 0 0 1 1) (setf_pages ps s2)) end.
    apply initpipelock. apply (set_ends rf wf x y pi); [done|done|done|].
    specialize (HS rf wf x y pi ps Hne Hrf Hwf0 Hxr Hyr eq_refl).
    assert (put_file wf (write_end pi y) (put_file rf (read_end pi x)
      (at_pipe pi (setpi_lock (mkLock 0 (strlit "pipe") 0) (mkPipe (mkLock 0 0 0)
      (replicate (Z.to_nat PIPESIZE) 5) 0 0 1 1)) (setf_pages ps s2))) = piped rf wf x y pi ps s) as ->; [|done].
    match goal with |- context [at_pipe pi ?p (setf_pages ps s2)] =>
      change (at_pipe pi p (setf_pages ps s2)) with
        (put_file wf (setfi_ref 1 y) (put_file rf (setfi_ref 1 x) (at_pipe pi new_pipe (setf_pages ps s)))) end.
    rewrite (put_file_comm rf wf) by done. by rewrite !put_file_put.
Qed.

(** ** [sys_pipe] *)

Lemma pipe_fail_spec t rf wf x y pi Q :
  ftable_idle t -> rf <> wf -> files t !! rf = Some (read_end pi x) ->
  files t !! wf = Some (write_end pi y) -> f_pipes t !! pi = Some new_pipe ->
  Q (-1) (setf_pipes (delete pi (f_pipes t)) (setf_pages (pi :: f_pages t)
    (setf_woken (WPipeR pi :: WPipeW pi :: f_woken t)
      (put_file wf (closed (write_end pi y)) (put_file rf (closed (read_end pi x)) t))))) ->
  wp (pipe_fail rf wf) Q t.
Proof.
  intros Hidle Hne Hr Hw Hp HQ. unfold pipe_fail.
  apply wp_bind. eapply fileclose_last; [done|exact Hr|done|].
  cbn [fi_type read_end setfi_pipe setfi_writable setfi_readable setfi_type fi_pipe fi_writable].
  apply (pipeclose_spec pi 0 _ new_pipe); [apply Hidle|done|done|]. cbv zeta.
  cbn [end_closed end_wakes Z.eqb negb pi_readopen pi_writeopen setpi_readopen new_pipe andb].
  apply wp_bind. eapply (fileclose_last _ wf (write_end pi y)); [done| |done|].
  { change (files (put_file rf (closed (read_end pi x)) t) !! wf = Some (write_end pi y)).
    by rewrite files_put_ne. }
  cbn [fi_type write_end setfi_pipe setfi_writable setfi_readable setfi_type fi_pipe fi_writable].
  apply (pipeclose_spec pi 1 _ (setpi_readopen 0 new_pipe)); [apply Hidle|done|apply lookup_insert_eq|].
  cbv zeta. cbn [end_closed end_wakes Z.eqb negb pi_readopen pi_writeopen setpi_readopen
    setpi_writeopen new_pipe andb].
  apply wp_ret. match goal with |- Q _ (setf_pipes ?m _) => assert (m = delete pi (f_pipes t)) as -> end.
  - change (delete pi (<[pi := setpi_writeopen 0 (setpi_readopen 0 new_pipe)]>
      (<[pi := setpi_readopen 0 new_pipe]> (f_pipes t))) = delete pi (f_pipes t)).
    by rewrite !delete_insert_eq.
  - exact HQ.
Qed.

Lemma same_files_closed s rf wf x y pi :
  tables_ok s -> rf <> wf -> files s !! rf = Some x -> files s !! wf = Some y ->
  fi_ref x = 0 -> fi_ref y = 0 ->
  same_files s (put_file wf (closed (write_end pi y)) (put_file rf (closed (read_end pi x)) s)).
Proof.
  intros HT Hne Hx Hy Hxr Hyr f z Hz.
  destruct (decide (f = wf)) as [->|Hnw].
  { exists (closed (write_end pi y)). split; [eapply files_put; by rewrite files_put_ne|].
    rewrite Hz in Hy. simplify_eq. by rewrite Hyr. }
  rewrite files_put_ne by done. destruct (decide (f = rf)) as [->|Hnr].
  { exists (closed (read_end pi x)). split; [by eapply files_put|].
    rewrite Hz in Hx. simplify_eq. by rewrite Hxr. }
  rewrite files_put_ne by done. exists z. split; [done|].
  destruct (Z.eqb_spec (fi_ref z) 0); [|done]. split; [done|]. by apply (tk_free _ HT f).
Qed.

(** Giving everything back after the pipe was made. *)
Lemma pipe_undone s rf wf x y pi ps m Q :
  tables_ok s -> rf <> wf -> files s !! rf = Some x -> files s !! wf = Some y ->
  fi_ref x = 0 -> fi_ref y = 0 -> f_pages s = pi :: ps ->
  (forall fs w, same_files s (set_files fs s) -> Q (-1) (setf_woken w (setf_umem m (set_files fs s)))) ->
  wp (pipe_fail rf wf) Q (setf_umem m (piped rf wf x y pi ps s)).
Proof.
  intros HT Hne Hx Hy Hxr Hyr Hpg HQ. destruct (tk_pages _ HT _ _ Hpg) as [_ Hpn].
  eapply (pipe_fail_spec _ rf wf x y pi); [apply HT|done|..].
  - change (files (piped rf wf x y pi ps s) !! rf = Some (read_end pi x)). unfold piped.
    rewrite files_put_ne by done. by eapply (files_put rf x).
  - change (files (piped rf wf x y pi ps s) !! wf = Some (write_end pi y)). unfold piped.
    eapply (files_put wf y). by rewrite files_put_ne.
  - apply lookup_insert_eq.
  - specialize (HQ (files (put_file wf (closed (write_end pi y)) (put_file rf (closed (read_end pi x)) s)))
      (WPipeR pi :: WPipeW pi :: f_woken s)).
    match goal with |- Q _ ?t => assert (t = setf_woken (WPipeR pi :: WPipeW pi :: f_woken s) (setf_umem m
      (set_files (files (put_file wf (closed (write_end pi y)) (put_file rf (closed (read_end pi x)) s))) s)))
      as -> end; [|apply HQ; by apply (same_files_closed s rf wf x y pi)].
    change (setf_umem m (piped rf wf x y pi ps s)) with (put_file wf (write_end pi y)
      (put_file rf (read_end pi x) (setf_umem m (setf_pages ps (at_pipe pi new_pipe s))))).
    rewrite (put_file_comm rf wf), !put_file_put by done.
    unfold put_file, set_files, files, at_pipe. simpl. rewrite delete_insert_id by done.
    destruct s. simpl in *. by rewrite Hpg.
Qed.

Lemma set_fd_ok fd x s Q :
  Q tt (set_ofile (<[Z.to_nat fd := x]> (ofile s)) s) -> wp (set_fd fd x) Q s.
Proof. intros HQ. by apply wp_modify. Qed.

Lemma set_ofile_back s t l : ofile s = l -> (exists l', t = set_ofile l' s) -> set_ofile l t = s.
Proof. intros <- [l' ->]. by destruct s as [? [] ? ? ? ? ? ? ? ? ? ? ?]. Qed.

(** The state after a successful [sys_pipe]. *)
Definition pipe_made (fd0 fd1 rf wf : nat) (x y : file) (pi : Z) (ps : list Z) (m : mem) (s : fstate) : fstate :=
  setf_umem m (set_ofile (<[fd1 := Some wf]> (<[fd0 := Some rf]> (ofile s))) (piped rf wf x y pi ps s)).

(** The second half of [sys_pipe]: both descriptors are taken. *)
Lemma pipe_report s rf wf x y pi ps fd0 fd1 a Q :
  tables_ok s -> rf <> wf -> files s !! rf = Some x -> files s !! wf = Some y ->
  fi_ref x = 0 -> fi_ref y = 0 -> f_pages s = pi :: ps ->
  fd0 <> fd1 -> ofile s !! fd0 = Some None -> ofile s !! fd1 = Some None ->
  (forall m fs w, same_files s (set_files fs s) -> Q (-1) (setf_woken w (setf_umem m (set_files fs s)))) ->
  Q 0 (pipe_made fd0 fd1 rf wf x y pi ps
    (wr_bytes (wr_bytes (f_umem s) a (le_bytes 4 (Z.of_nat fd0))) (u64 (a + 4)) (le_bytes 4 (Z.of_nat fd1))) s) ->
  wp (r0 ← u_copyout a (le_bytes 4 (Z.of_nat fd0));
      r1 ← (if r0 <? 0 then mret (-1) else u_copyout (u64 (a + 4)) (le_bytes 4 (Z.of_nat fd1)));
      if (r0 <? 0) || (r1 <? 0) then
        set_fd (Z.of_nat fd0) None;; set_fd (Z.of_nat fd1) None;; pipe_fail rf wf
      else mret 0) Q (pipe_made fd0 fd1 rf wf x y pi ps (f_umem s) s).
Proof.
  intros HT Hne Hx Hy Hxr Hyr Hpg Hfd H0 H1 HF HS.
  set (t m := pipe_made fd0 fd1 rf wf x y pi ps m s).
  assert (Hfail : forall m, wp (set_fd (Z.of_nat fd0) None;; set_fd (Z.of_nat fd1) None;;
    pipe_fail rf wf) Q (t m)).
  { intros m. apply wp_bind, set_fd_ok, wp_bind, set_fd_ok. rewrite !Nat2Z.id.
    match goal with |- wp _ _ ?u => assert (u = setf_umem m (piped rf wf x y pi ps s)) as -> end.
    - apply (set_ofile_back (setf_umem m (piped rf wf x y pi ps s))); [|by eexists].
      change (ofile s = <[fd1 := None]> (<[fd0 := None]> (<[fd1 := Some wf]> (<[fd0 := Some rf]> (ofile s))))).
      rewrite (list_insert_insert_ne _ fd0 fd1), !list_insert_insert_eq by done.
      rewrite (list_insert_id _ fd0) by done. by rewrite list_insert_id.
    - apply pipe_undone; try done. intros fs w. apply HF. }
  assert (Hco : forall b bs m (K : Z -> fstate -> Prop), (forall m', K (-1) (t m')) ->
    K 0 (t (wr_bytes m b bs)) -> wp (u_copyout b bs) K (t m)).
  { intros b bs m K HK1 HK2. unfold wp, u_copyout. destruct (Nat.eqb_spec (reachable b (length bs)) (length bs)) as [->|].
    - rewrite take_ge by done. exact HK2.
    - apply (HK1 (wr_bytes m b (take (reachable b (length bs)) bs))). }
  apply wp_bind. apply (Hco a _ (f_umem s)).
  - intros m'. apply wp_bind, wp_ret. apply Hfail.
  - apply wp_bind. change (0 <? 0) with false. apply Hco; [intros m'; apply Hfail|]. by apply wp_ret.
Qed.

(** C31: [sys_pipe] is all or nothing.  When it returns 0, the two first free
    descriptors are the ends of a new, empty pipe whose two files were free and
    are now referenced once, and the user's array has their numbers.  When it
    returns -1 (no file, page or descriptor left, or the array is not
    writable), every descriptor, every file in use, the set of free files, the
    free pages and the pipes are exactly as they were. *)
Theorem sys_pipe_all_or_nothing s :
  tables_ok s ->
  let a := nth 0 (fp_tf (f_proc s)) 0 in
  wp sys_pipe (fun r s' =>
    (r = 0 /\ exists fd0 fd1 rf wf x y pi ps,
       free_fd s fd0 /\ free_fd (set_ofile (<[fd0 := Some rf]> (ofile s)) s) fd1 /\ rf <> wf /\
       files s !! rf = Some x /\ files s !! wf = Some y /\ fi_ref x = 0 /\ fi_ref y = 0 /\
       f_pages s = pi :: ps /\ queue new_pipe = [] /\
       s' = pipe_made fd0 fd1 rf wf x y pi ps (wr_bytes (wr_bytes (f_umem s) a
              (le_bytes 4 (Z.of_nat fd0))) (u64 (a + 4)) (le_bytes 4 (Z.of_nat fd1))) s) \/
    (r = -1 /\ exists fs m w,
       s' = setf_woken w (setf_umem m (set_files fs s)) /\ same_files s (set_files fs s))) s.
Proof.
  intros HT a. unfold sys_pipe, argaddr, argraw. cbn [Z.leb Z.compare andb].
  apply wp_bind, wp_gets. fold a. apply wp_bind, pipealloc_spec; [done|..].
  - intros fs Hs. apply wp_ret. right. split; [done|]. exists fs, (f_umem s), (f_woken s).
    split; [by destruct s|done].
  - intros rf wf x y pi ps Hne Hx Hy Hxr Hyr Hpg.
    assert (HF : forall m fs w, same_files s (set_files fs s) -> forall P : Prop,
      (P \/ (-1 = -1 /\ exists fs' m' w', setf_woken w (setf_umem m (set_files fs s)) =
       setf_woken w' (setf_umem m' (set_files fs' s)) /\ same_files s (set_files fs' s)))).
    { intros m fs w Hs P. right. split; [done|]. by exists fs, m, w. }
    set (t := piped rf wf x y pi ps s). assert (Ht : t = setf_umem (f_umem s) t) by done.
    apply wp_bind. destruct (find_free_fd t) as [(fd0 & Hfd0)|Hnone].
    2: { apply fdalloc_none; [done|]. change (-1 <? 0) with true. rewrite Ht.
         apply pipe_undone; try done. intros. by apply HF. }
    apply (fdalloc_free t rf fd0); [apply HT|done|]. rewrite (proj2 (Z.ltb_ge _ _)) by lia.
    set (t1 := set_ofile _ t). apply wp_bind.
    assert (Hlen1 : length (ofile t1) = Z.to_nat NOFILE) by (etrans; [apply length_insert|apply HT]).
    destruct (find_free_fd t1) as [(fd1 & Hfd1)|Hnone].
    2: { apply fdalloc_none; [done|]. change (-1 <? 0) with true. apply wp_bind, set_fd_ok.
         rewrite Nat2Z.id. rewrite (set_ofile_back t); [|symmetry|by eexists].
         - rewrite Ht. apply pipe_undone; try done. intros. by apply HF.
         - change (ofile t1) with (<[fd0 := Some rf]> (ofile t)).
           rewrite list_insert_insert_eq. apply list_insert_id, Hfd0. }
    apply (fdalloc_free t1 wf fd1); [done|done|]. rewrite (proj2 (Z.ltb_ge _ _)) by lia.
    assert (Hdiff : fd0 <> fd1).
    { intros <-. destruct Hfd1 as [Hfd1 _]. change (ofile t1) with (<[fd0 := Some rf]> (ofile t)) in Hfd1.
      rewrite list_lookup_insert_eq in Hfd1; [done|]. by eapply lookup_lt_Some, Hfd0. }
    apply (pipe_report s rf wf x y pi ps fd0 fd1 a); try done.
    + apply Hfd0.
    + destruct Hfd1 as [Hfd1 _]. change (ofile t1) with (<[fd0 := Some rf]> (ofile s)) in Hfd1.
      by rewrite list_lookup_insert_ne in Hfd1.
    + intros. by apply HF.
    + left. split; [done|]. by exists fd0, fd1, rf, wf, x, y, pi, ps.
Qed.

End ops.

(** ** A concrete table: nothing open, one free page *)

Definition demo_tables : fstate :=
  setf_pages [0x80400000] (set_files (replicate 100 (mkFile FD_NONE 0 0 0 0 None 0 0)) (demo_fs (mkDisk ∅ []))).

Lemma demo_tables_ok : tables_ok demo_tables.
Proof.
  split; [split; [apply demo_quiet|split; reflexivity]|reflexivity|reflexivity|..].
  - intros f x Hx _. change (files demo_tables) with (replicate 100 (mkFile FD_NONE 0 0 0 0 None 0 0)) in Hx.
    by apply lookup_replicate in Hx as [-> _].
  - intros pi ps H. injection H as <- <-. split; [discriminate|reflexivity].
Qed.

Lemma sys_pipe_all_or_nothing_witness :
  exists s', sys_pipe (im := demo_image) (W := demo_world) demo_tables = Ret 0 s' /\
    f_pages s' = [] /\ exists rf wf, take 3 (ofile s') = [Some rf; Some wf; None].
Proof.
  pose proof (sys_pipe_all_or_nothing (im := demo_image) (W := demo_world) demo_tables demo_tables_ok) as H.
  cbv zeta in H. destruct (wp_inv _ _ _ H) as (r & s' & E & H'). clear H. rename H' into H.
  assert (Hr : r = 0).
  { pose proof (f_equal (fun o => match o with Ret r _ => r | Err _ _ => 7 end) E) as Hc.
    cbv beta iota in Hc. rewrite <- Hc. vm_compute. reflexivity. }
  exists s'. split; [by rewrite E, Hr|].
  destruct H as [(_ & fd0 & fd1 & rf & wf & x & y & pi & ps & F0 & F1 & _ & _ & _ & _ & _ & Hp & _ & ->)|[H _]];
    [|rewrite Hr in H; discriminate].
  injection Hp as <- <-. split; [reflexivity|].
  assert (fd0 = 0%nat) as ->.
  { destruct fd0 as [|k]; [reflexivity|]. destruct F0 as [_ F0]. exfalso. apply (F0 0%nat); [lia|reflexivity]. }
  assert (fd1 = 1%nat) as ->.
  { destruct fd1 as [|[|k]]; [|reflexivity|].
    { destruct F1 as [F1 _]. assert (Some (Some rf) = Some (@None nat)) as F by exact F1. discriminate F. }
    destruct F1 as [_ F1]. exfalso.
    apply (F1 1%nat); [lia|reflexivity]. }
  exists rf, wf. reflexivity.
Defined.
