(* ===== verification/FileWrite.v ===== *)
(** * One transaction of [filewrite]

    [filewrite] cuts a write into pieces that fit the blocks [begin_op]
    reserves for an operation. *)
From stdpp Require Import base gmap strings numbers option list.
From S2P Require Import Prelude Layout Machine Memory Kernel Demo FsState Block Sleeplock.
From S2P Require Import Bio BioLogic Log LogCrash LogOps Fs FsLogic FsAlloc FsInode FsRead FsFile FsWrite File.
Open Scope Z_scope.

Lemma write_max : WRITE_MAX = 3072.
Proof. reflexivity. Qed.

Lemma cost_bound off n : 0 <= off -> 0 <= n <= WRITE_MAX -> write_cost off n <= MAXOPBLOCKS.
Proof.
  intros Ho Hn. rewrite write_max in Hn. unfold write_cost, cost_left, rw_left. change BSIZE with 1024. change MAXOPBLOCKS with 10.
  destruct (Z.ltb_spec 0 n); [|case_decide; lia]. rewrite Z.add_0_r.
  pose proof (Z.div_mod off 1024 ltac:(done)) as D1. pose proof (Z.mod_pos_bound off 1024 ltac:(lia)) as M1.
  pose proof (Z.div_mod (off + n - 1) 1024 ltac:(done)) as D2. pose proof (Z.mod_pos_bound (off + n - 1) 1024 ltac:(lia)) as M2.
  case_decide as Hd; lia.
Qed.

Section reserve.
Context `{im : Image} `{W : World} `{WO : !WorldOk W}.


End reserve.

