(* ===== verification/Proc.v ===== *)
(** * Processes ([kernel/proc.c])

    The functions of [proc.c] over the byte memory in which the nodes of the
    process list and the [struct proc]s live.  The calls of [printf],
    [print_proc] and [print_list], which log to the console, are the steps
    [klog], [log_proc] and [log_list]: they read the fields they print and take
    the lock of the console.

    What lies outside is a parameter: [swtch], from the call until control
    comes back, with everything other threads do meanwhile; the file layer,
    which knows files and inodes by the pointers kept in [struct proc]; and
    the return to user space. *)
From stdpp Require Import base gmap strings numbers option list.
From S2P Require Import Prelude Layout Machine Memory Kernel Demo Kalloc Vm Malloc RcuList Rcu.
Open Scope Z_scope.

(** [enum procstate] *)
Inductive procstate := UNUSED | USED | SLEEPING | RUNNABLE | RUNNING | ZOMBIE.

Definition state_code (x : procstate) : Z :=
  match x with UNUSED => 0 | USED => 1 | SLEEPING => 2 | RUNNABLE => 3 | RUNNING => 4 | ZOMBIE => 5 end.

(** What [proc.c] calls that is not part of this state.  [mfuel] and [sfuel]
    bound the searches of [kmalloc.c] and the polling of [synchronize_rcu],
    [wait_patience] how often [wait] sleeps; [uninit] is the value of a local
    variable that was never assigned. *)
Class Outside := {
  swtch : Z -> Z -> M kst unit;
  o_filedup : Z -> M kst Z;
  o_idup : Z -> M kst Z;
  o_fileclose : Z -> M kst unit;
  o_begin_op : M kst unit;
  o_iput : Z -> M kst unit;
  o_end_op : M kst unit;
  o_namei_root : M kst Z;
  o_fsinit : M kst unit;
  o_usertrapret : M kst unit;
  initcode_addr : Z;
  uninit : Z;
  mfuel : nat;
  sfuel : nat;
  wait_patience : nat
}.

(** The list has at most one node per kernel stack. *)
Definition LIST_FUEL : nat := Z.to_nat NPROC + 1.

(** [list->field] of [ptab_t] *)
Definition set_nextpid (x : Z) (t : ptab_t) : ptab_t :=
  mkPtab (pid_lock t) (wait_lock t) x (unique_id t) (bitmap t) (initproc t) (forkret_first t).
Definition set_unique_id (x : Z) (t : ptab_t) : ptab_t :=
  mkPtab (pid_lock t) (wait_lock t) (nextpid t) x (bitmap t) (initproc t) (forkret_first t).
Definition set_bitmap (x : list Z) (t : ptab_t) : ptab_t :=
  mkPtab (pid_lock t) (wait_lock t) (nextpid t) (unique_id t) x (initproc t) (forkret_first t).
Definition set_initproc (x : Z) (t : ptab_t) : ptab_t :=
  mkPtab (pid_lock t) (wait_lock t) (nextpid t) (unique_id t) (bitmap t) x (forkret_first t).
Definition set_first (x : Z) (t : ptab_t) : ptab_t :=
  mkPtab (pid_lock t) (wait_lock t) (nextpid t) (unique_id t) (bitmap t) (initproc t) x.
Definition mod_ptab (f : ptab_t -> ptab_t) : M kst unit := modify (fun s => set_ptab (f (k_ptab s)) s).

(** The hart with the [struct spinlock] at [p]. *)
Definition memlockL (p : Z) : lens kst (hartst * spinlock) :=
  Lens (fun s => (k_hart s, mkLock (ld 4 (k_mem s) p) (ld 8 (k_mem s) (p + 8)) (ld 8 (k_mem s) (p + 16))))
       (fun x s => set_mem (st 8 (st 8 (st 4 (k_mem s) p (lk_locked x.2)) (p + 8) (lk_name x.2))
                              (p + 16) (lk_cpu x.2)) (set_hart x.1 s)).

(** Whether the lock can be accessed at all. *)
Definition touch_lock (p : Z) : M kst unit := _ ← load 8 (p + 16); skip.

Section proc.
Context `{im : Image} `{OS : Outside}.

Definition procinit : M kst unit :=
  zoom pidL (zoom lsnd (initlock (strlit "nextpid")));;
  zoom waitL (zoom lsnd (initlock (strlit "wait_lock")));;
  init_list.

Definition myproc : M kst Z :=
  zoom hartL push_off;;
  c ← zoom hartL mycpu;
  zoom hartL pop_off;;
  mret (c_proc c).

(** [mycpu()->proc = p] *)
Definition set_myproc (p : Z) : M kst unit := zoom hartL (mycpu_set (set_proc p)).

(** [synchronize_rcu(cpuid(), &rcu_writers_lock)].  One hart runs here, so the
    call sees the others stand still: it spins for ever unless they are idle. *)
Definition sync : M kst unit :=
  id ← zoom hartL cpuid;
  h ← gets k_hart;
  synchronize_rcu (replicate (Z.to_nat NCPU) uninit) (replicate sfuel (cpus h)) id.

Definition allocpid : M kst Z :=
  zoom pidL acquire;;
  pid ← gets (fun s => nextpid (k_ptab s));
  mod_ptab (fun t => set_nextpid (i32 (nextpid t + 1)) t);;
  zoom pidL release;;
  mret pid.

Definition proc_pagetable (p : Z) : M kst Z :=
  pagetable ← uvmcreate;
  if pagetable =? 0 then mret 0 else
  r ← mappages pagetable TRAMPOLINE PGSIZE trampoline_sym (Z.lor PTE_R PTE_X);
  if r <? 0 then uvmfree pagetable 0;; mret 0 else
  tf ← load64 (p_trapframe p);
  r ← mappages pagetable TRAPFRAME PGSIZE tf (Z.lor PTE_R PTE_W);
  if r <? 0 then
    uvmunmap pagetable TRAMPOLINE 1 false;;
    uvmfree pagetable 0;;
    mret 0
  else mret pagetable.

Definition proc_freepagetable (pagetable sz : Z) : M kst unit :=
  uvmunmap pagetable TRAMPOLINE 1 false;;
  uvmunmap pagetable TRAPFRAME 1 false;;
  uvmfree pagetable sz.

(** The search for a kernel stack in [allocproc]. *)
Definition take_kstack (p : Z) : M kst (option unit) :=
  for_find (seqZ 0 NPROC) (fun n =>
    b ← gets (fun s => nth (Z.to_nat n) (bitmap (k_ptab s)) 0);
    if b =? 0 then
      mod_ptab (fun t => set_bitmap (<[Z.to_nat n := 1]> (bitmap t)) t);;
      store32 (p_nKStack p) n;;
      touch_lock (p_lock p);;
      zoom (memlockL (p_lock p)) (zoom lsnd (initlock (strlit "proc")));;
      store64 (p_kstack p) (KSTACK n);;
      mret (Some tt)
    else mret None).

Definition allocproc : M kst Z :=
  p ← knmalloc mfuel sizeof_proc;
  pid ← allocpid;
  store32 (p_pid p) pid;;
  store32 (p_state p) (state_code USED);;
  uid ← gets (fun s => unique_id (k_ptab s));
  store64 (p_uid p) uid;;
  mod_ptab (fun t => set_unique_id (i32 (unique_id t + 1)) t);;
  store64 (p_p_uid p) (-1);;
  found ← take_kstack p;
  match found with
  | None => panic "kernelstack overflow"
  | Some _ =>
      tf ← kalloc;
      if tf =? 0 then knfree mfuel p;; mret 0 else
      store64 (p_trapframe p) tf;;
      pt ← proc_pagetable p;
      store64 (p_pagetable p) pt;;
      if pt =? 0 then knfree mfuel p;; mret 0 else
      k_memset (p_context p) 0 112;;
      store64 (p_context p) forkret_addr;;
      ks ← load64 (p_kstack p);
      store64 (p_context p + 8) (ks + PGSIZE);;
      forM (seqZ 0 NOFILE) (fun i => store64 (p_ofile p i) 0);;
      store32 (p_killed p) 0;;
      store64 (p_chan p) 0;;
      store64 (p_parent p) 0;;
      store32 (p_xstate p) 0;;
      store64 (p_cwd p) 0;;
      mret p
  end.

(** [bitmap[n] = 0] *)
Definition clear_kstack (n : Z) : M kst unit :=
  if (0 <=? n) && (n <? NPROC) then mod_ptab (fun t => set_bitmap (<[Z.to_nat n := 0]> (bitmap t)) t)
  else fail (EFault n).

(** [print_proc]: the fields it prints, after the name.  A state outside the
    table of names reads past it. *)
Definition print_fields (p : Z) : M kst (list Z) :=
  code ← load32 (p_state p);
  if 6 <=? code then fail (EFault p) else
  chan ← load64 (p_chan p);
  parent ← load64 (p_parent p);
  uid ← load64 (p_uid p);
  puid ← load64 (p_p_uid p);
  killed ← loadi (p_killed p);
  nks ← loadi (p_nKStack p);
  pid ← loadi (p_pid p);
  kstack ← load64 (p_kstack p);
  sz ← load64 (p_sz p);
  pagetable ← load64 (p_pagetable p);
  klog;;
  mret [code; chan; parent; uid; puid; killed; nks; pid; kstack; sz; pagetable].

Definition log_proc (p : Z) : M kst unit := _ ← print_fields p; skip.

(** [print_list(process_list)] *)
Definition log_list : M kst unit :=
  hd ← list_head;
  klog;;
  loop LIST_FUEL (fun n =>
    if n =? 0 then mret (inr tt) else
    klog;;
    p ← load64 (n_process n);
    log_proc p;;
    n' ← load64 (n_next n);
    mret (inl n')) hd;;
  klog.

Definition freeproc (p flag : Z) : M kst unit :=
  klog;;
  log_proc p;;
  (if flag =? 1 then
     tf ← load64 (p_trapframe p);
     (if negb (tf =? 0) then kfree tf else skip);;
     pt ← load64 (p_pagetable p);
     (if negb (pt =? 0) then sz ← load64 (p_sz p); proc_freepagetable pt sz else skip);;
     n ← loadi (p_nKStack p);
     clear_kstack n
   else skip);;
  k_memset p 0 sizeof_proc.

(** [od -t xC initcode] *)
Definition initcode : list Z :=
  [0x17; 0x05; 0x00; 0x00; 0x13; 0x05; 0x45; 0x02;
   0x97; 0x05; 0x00; 0x00; 0x93; 0x85; 0x35; 0x02;
   0x93; 0x08; 0x70; 0x00; 0x73; 0x00; 0x00; 0x00;
   0x93; 0x08; 0x20; 0x00; 0x73; 0x00; 0x00; 0x00;
   0xef; 0xf0; 0x9f; 0xff; 0x2f; 0x69; 0x6e; 0x69;
   0x74; 0x00; 0x00; 0x24; 0x00; 0x00; 0x00; 0x00;
   0x00; 0x00; 0x00; 0x00].

(** [safestrcpy] into a process's name. *)
Definition set_name (p src : Z) : M kst unit :=
  _ ← load 8 (p_name p + 8);
  modify (fun s => set_mem (safestrcpy (k_mem s) (p_name p) src 16) s).

(** A node for process [p], put at the head of the list. *)
Definition add_node (p : Z) : M kst unit :=
  node ← knmalloc mfuel sizeof_node;
  store64 (n_process node) p;;
  store64 (n_next node) 0;;
  list_add_rcu node.

Definition userinit : M kst unit :=
  p ← allocproc;
  mod_ptab (set_initproc p);;
  pt ← load64 (p_pagetable p);
  uvminit pt initcode_addr (Z.of_nat (length initcode));;
  store64 (p_sz p) PGSIZE;;
  tf ← load64 (p_trapframe p);
  store64 (tf + 24) 0;;
  store64 (tf + 48) PGSIZE;;
  set_name p (strlit "initcode");;
  cwd ← o_namei_root;
  store64 (p_cwd p) cwd;;
  store32 (p_state p) (state_code RUNNABLE);;
  add_node p.

(** A new node with a copy of [*src]: what every update of a process starts
    with. *)
Definition copy_node (src : Z) : M kst Z :=
  node ← knmalloc mfuel sizeof_node;
  np ← knmalloc mfuel sizeof_proc;
  store64 (n_process node) np;;
  np ← load64 (n_process node);
  k_memmove np src sizeof_proc;;
  mret node.

(** [freeproc(n->process, 0); knfree(n);] *)
Definition reclaim (n : Z) : M kst unit :=
  p ← load64 (n_process n);
  freeproc p 0;;
  knfree mfuel n.

(** [node->process->field = v] *)
Definition set_field (node : Z) (n : nat) (field : Z -> Z) (v : Z) : M kst unit :=
  p ← load64 (n_process node); store n (field p) v.

Definition growproc (n : Z) : M kst Z :=
  node ← knmalloc mfuel sizeof_node;
  np ← knmalloc mfuel sizeof_proc;
  store64 (n_process node) np;;
  p ← myproc;
  np ← load64 (n_process node);
  k_memmove np p sizeof_proc;;
  sz0 ← load64 (p_sz p);
  let sz := u32 sz0 in
  np ← load64 (n_process node);
  pt ← load64 (p_pagetable np);
  r ← (if 0 <? n then r ← uvmalloc pt sz (u32 (sz + n)); mret (u32 r)
       else if n <? 0 then r ← uvmdealloc pt sz (u32 (sz + n)); mret (u32 r)
       else mret sz);
  if (0 <? n) && (r =? 0) then mret (-1) else
  set_field node 8 p_sz r;;
  klog;;
  f ← list_update_rcu LIST_FUEL node p uninit;
  if f.1 =? 0 then panic "proc disappeared" else
  sync;;
  reclaim f.2;;
  np ← load64 (n_process node);
  set_myproc np;;
  mret 0.

(** The part of [struct proc process = *p] that [fork] uses. *)
Record proc_copy := mkCopy {
  pc_pagetable : Z;
  pc_sz : Z;
  pc_trapframe : Z;
  pc_ofile : list Z;
  pc_cwd : Z;
  pc_name : list Z
}.

Definition load_copy (p : Z) : M kst proc_copy :=
  _ ← load 8 (p_name p + 8);
  gets (fun s => let m := k_mem s in
    mkCopy (ld 8 m (p_pagetable p)) (ld 8 m (p_sz p)) (ld 8 m (p_trapframe p))
      ((fun i => ld 8 m (p_ofile p i)) <$> seqZ 0 NOFILE) (ld 8 m (p_cwd p))
      ((fun i => rd m (p_name p + i)) <$> seqZ 0 16)).

(** The bytes [safestrcpy(s, t, n + 1)] writes. *)
Fixpoint safe_bytes (n : nat) (t : list Z) : list Z :=
  match n, t with
  | S n', c :: t' => if c =? 0 then [0; 0] else c :: safe_bytes n' t'
  | _, _ => [0]
  end.

(** The descriptors of the child. *)
Definition copy_ofile (process : proc_copy) (np i : Z) : M kst unit :=
  let f := nth (Z.to_nat i) (pc_ofile process) 0 in
  if negb (f =? 0) then f' ← o_filedup f; store64 (p_ofile np i) f' else skip.

Definition fork : M kst Z :=
  p ← myproc;
  process ← load_copy p;
  np ← allocproc;
  if np =? 0 then mret (-1) else
  npt ← load64 (p_pagetable np);
  r ← uvmcopy (pc_pagetable process) npt (pc_sz process);
  if r <? 0 then freeproc np 0;; mret (-1) else
  store64 (p_sz np) (pc_sz process);;
  ntf ← load64 (p_trapframe np);
  k_memmove ntf (pc_trapframe process) 288;;
  ntf ← load64 (p_trapframe np);
  store64 (ntf + 112) 0;;
  forM (seqZ 0 NOFILE) (copy_ofile process np);;
  cwd' ← o_idup (pc_cwd process);
  store64 (p_cwd np) cwd';;
  _ ← load 8 (p_name np + 8);
  modify (fun s => set_mem (wr_bytes (k_mem s) (p_name np) (safe_bytes 15 (pc_name process))) s);;
  pid ← loadi (p_pid np);
  zoom waitL acquire;;
  store64 (p_parent np) p;;
  uid ← load64 (p_uid p);
  store64 (p_p_uid np) uid;;
  zoom waitL release;;
  store32 (p_state np) (state_code RUNNABLE);;
  add_node np;;
  mret pid.

(** [for (n = process_list; n != 0; n = n->next)] with a body that may leave
    the loop with a result. *)
Definition for_each {R} (body : Z -> M kst (option R)) : M kst (option R) :=
  hd ← list_head;
  loop LIST_FUEL (fun n =>
    if n =? 0 then mret (inr None) else
    r ← body n;
    match r with
    | Some x => mret (inr (Some x))
    | None => n' ← load64 (n_next n); mret (inl n')
    end) hd.

(** ** Sleeping and waking up *)

(** What [wakeup] reports after an update that found the process. *)
Definition log_woken : M kst unit :=
  me ← myproc;
  (if me =? 0 then klog else me ← myproc; log_proc me);;
  log_list.

Definition wakeup (chan : Z) : M kst unit :=
  klog;;
  rcu_read_lock;;
  klog;;
  _ ← for_each (R := unit) (fun n =>
    (if negb (chan =? ticks_addr) then
       p ← load64 (n_process n);
       touch_lock (p_lock p);;
       zoom (memlockL (p_lock p)) acquire;;
       p ← load64 (n_process n);
       zoom (memlockL (p_lock p)) release
     else skip);;
    mret None);
  klog;;
  _ ← for_each (R := unit) (fun n =>
    p ← load64 (n_process n);
    me ← myproc;
    state ← load32 (p_state p);
    ch ← load64 (p_chan p);
    (if negb (p =? me) && (state =? state_code SLEEPING) && (ch =? chan) then
       klog;;
       node ← copy_node p;
       rcu_read_unlock;;
       set_field node 4 p_state (state_code RUNNABLE);;
       klog;;
       p ← load64 (n_process n);
       f ← list_update_rcu LIST_FUEL node p uninit;
       klog;;
       (if f.1 =? 0 then skip else log_woken);;
       sync;;
       reclaim f.2
     else rcu_read_unlock);;
    rcu_read_lock;;
    mret None);
  rcu_read_unlock.

(** The checks of [sched] only report. *)
Definition sched : M kst unit :=
  p ← myproc;
  locked ← load32 (p_lock p);
  owner ← (if locked =? 0 then mret 0 else load64 (p_lock p + 16));
  me ← gets (fun s => mycpu_ptr (k_hart s));
  (if negb (locked =? 0) && (owner =? me) then skip else klog;; log_proc p);;
  c ← zoom hartL mycpu;
  (if c_noff c =? 1 then skip else klog);;
  state ← load32 (p_state p);
  (if state =? state_code RUNNING then klog else skip);;
  on ← zoom hartL intr_get;
  (if on =? 0 then skip else klog);;
  klog;;
  log_list;;
  c ← zoom hartL mycpu;
  ctx ← gets (fun s => mycpu_ptr (k_hart s) + 8);
  swtch (p_context p) ctx;;
  zoom hartL (mycpu_set (set_intena (c_intena c))).

Definition sleep (chan : Z) (lk : lens kst (hartst * spinlock)) : M kst unit :=
  p ← myproc;
  touch_lock (p_lock p);;
  zoom (memlockL (p_lock p)) acquire;;
  zoom lk release;;
  rcu_read_lock;;
  klog;;
  log_proc p;;
  node ← copy_node p;
  set_field node 8 p_chan chan;;
  set_field node 4 p_state (state_code SLEEPING);;
  f ← list_update_rcu LIST_FUEL node p uninit;
  klog;;
  np ← load64 (n_process node);
  zoom (memlockL (p_lock np)) release;;
  sync;;
  reclaim f.2;;
  klog;;
  np ← load64 (n_process node);
  set_myproc np;;
  k_memset np 0 sizeof_spinlock;;
  sched;;
  klog;;
  p ← myproc;
  node2 ← copy_node p;
  set_field node2 8 p_chan 0;;
  f ← list_update_rcu LIST_FUEL node2 p 0;
  if f.1 =? 0 then panic "[SLEEP] List_update_rcu failed" else
  sync;;
  reclaim f.2;;
  np2 ← load64 (n_process node2);
  set_myproc np2;;
  zoom lk acquire;;
  log_list;;
  rcu_read_unlock.

(** ** The end of a process *)

Definition reparent (p : Z) : M kst unit :=
  klog;;
  log_proc p;;
  rcu_read_lock;;
  _ ← for_each (R := unit) (fun n =>
    q ← load64 (n_process n);
    puid ← load64 (p_p_uid q);
    uid ← load64 (p_uid p);
    (if puid =? uid then
       node ← copy_node q;
       rcu_read_unlock;;
       ip ← gets (fun s => initproc (k_ptab s));
       set_field node 8 p_parent ip;;
       set_field node 8 p_p_uid 0;;
       klog;;
       f ← list_update_rcu LIST_FUEL node p uninit;
       (if f.1 =? 1 then skip else klog);;
       sync;;
       reclaim f.2;;
       uid ← load64 (p_uid p);
       wakeup uid
     else rcu_read_unlock);;
    rcu_read_lock;;
    mret None);
  rcu_read_unlock.

Definition closeFile (p : Z) : M kst Z :=
  klog;;
  node ← copy_node p;
  store64 (n_next node) 0;;
  forM (seqZ 0 NOFILE) (fun fd =>
    np ← load64 (n_process node);
    f ← load64 (p_ofile np fd);
    if negb (f =? 0) then
      o_fileclose f;;
      np ← load64 (n_process node);
      store64 (p_ofile np fd) 0
    else skip);;
  klog;;
  f ← list_update_rcu LIST_FUEL node p uninit;
  if f.1 =? 0 then panic "[LOG closeFile] proc disappeared" else
  sync;;
  reclaim f.2;;
  load64 (n_process node).

Definition exit (status : Z) : M kst unit :=
  p ← myproc;
  _ ← load 8 (p_name p + 8);
  klog;;
  ip ← gets (fun s => initproc (k_ptab s));
  if p =? ip then panic "init exiting" else
  zoom hartL push_off;;
  np ← closeFile p;
  set_myproc np;;
  zoom hartL pop_off;;
  o_begin_op;;
  cwd ← load64 (p_cwd p);
  o_iput cwd;;
  o_end_op;;
  store64 (p_cwd p) 0;;
  zoom waitL acquire;;
  reparent p;;
  p ← myproc;
  puid ← load64 (p_p_uid p);
  wakeup puid;;
  p ← myproc;
  node ← knmalloc mfuel sizeof_node;
  np ← knmalloc mfuel sizeof_proc;
  store64 (n_process node) np;;
  klog;;
  np ← load64 (n_process node);
  k_memmove np p sizeof_proc;;
  set_field node 4 p_xstate status;;
  set_field node 4 p_state (state_code ZOMBIE);;
  klog;;
  klog;;
  klog;;
  log_list;;
  f ← list_update_rcu LIST_FUEL node p uninit;
  if f.1 =? 0 then panic "[LOG reparent] proc disappeared" else
  np ← load64 (n_process node);
  set_myproc np;;
  sync;;
  reclaim f.2;;
  zoom waitL release;;
  sched;;
  panic "zombie exit".

(** One scan of [wait] over the list: a child reaped, or whether there is a
    child at all. *)
Definition wait_scan (p addr : Z) : M kst (Z + bool) :=
  hd ← list_head;
  loop LIST_FUEL (fun '(n, havekids) =>
    if n =? 0 then mret (inr (inr havekids)) else
    q ← load64 (n_process n);
    puid ← load64 (p_p_uid q);
    uid ← load64 (p_uid p);
    let next (k : bool) := n' ← load64 (n_next n); mret (inl (n', k)) in
    if puid =? uid then
      state ← load32 (p_state q);
      if state =? state_code ZOMBIE then
        pid ← loadi (p_pid q);
        r ← (if negb (addr =? 0) then
               pt ← load64 (p_pagetable p);
               copyout pt addr (p_xstate q) 4
             else mret 0);
        if negb (addr =? 0) && (r <? 0) then
          zoom waitL release;; panic "Wait failed!"
        else
          list_del_rcu LIST_FUEL n;;
          sync;;
          q ← load64 (n_process n);
          freeproc q 1;;
          knfree mfuel n;;
          zoom waitL release;;
          mret (inr (inl pid))
      else next true
    else next havekids) (hd, false).

Definition wait (addr : Z) : M kst Z :=
  p ← myproc;
  zoom waitL acquire;;
  loop (S wait_patience) (fun _ : unit =>
    r ← wait_scan p addr;
    match r with
    | inl pid => mret (inr pid)
    | inr havekids =>
        killed ← loadi (p_killed p);
        if negb havekids || negb (killed =? 0) then
          zoom waitL release;; mret (inr (-1))
        else
          uid ← load64 (p_uid p);
          sleep uid waitL;;
          mret (inl tt)
    end) tt.

Definition kill (pid : Z) : M kst Z :=
  rcu_read_lock;;
  r ← for_each (fun n =>
    p ← load64 (n_process n);
    q ← loadi (p_pid p);
    if q =? pid then
      node ← knmalloc mfuel sizeof_node;
      np ← load64 (n_process node);
      p ← load64 (n_process n);
      k_memmove np p sizeof_proc;;
      rcu_read_unlock;;
      set_field node 4 p_killed 1;;
      np ← load64 (n_process node);
      state ← load32 (p_state np);
      (if state =? state_code SLEEPING then set_field node 4 p_state (state_code RUNNABLE) else skip);;
      klog;;
      p ← load64 (n_process n);
      f ← list_update_rcu LIST_FUEL node p uninit;
      sync;;
      reclaim f.2;;
      mret (Some 0)
    else
      rcu_read_unlock;;
      rcu_read_lock;;
      mret None);
  match r with
  | Some x => mret x
  | None => rcu_read_unlock;; mret (-1)
  end.

(** ** The scheduler *)

(** Switch to process [n]'s copy; the tail of both branches. *)
Definition run_copy (node freed : Z) : M kst unit :=
  np ← load64 (n_process node);
  set_myproc np;;
  ctx ← gets (fun s => mycpu_ptr (k_hart s) + 8);
  swtch ctx (p_context np);;
  sync;;
  reclaim freed;;
  set_myproc 0.

(** One turn of the [for] loop: whether it ends, and [scheduled]. *)
Definition sched_node (n : Z) (scheduled : bool) : M kst (bool * bool) :=
  id ← zoom hartL cpuid;
  if negb (id =? 0) then mret (false, scheduled) else
  p ← load64 (n_process n);
  state ← load32 (p_state p);
  if state =? state_code RUNNABLE then
    zoom hartL (mycpu_set (set_idle 0));;
    klog;;
    p ← load64 (n_process n);
    log_proc p;;
    p ← load64 (n_process n);
    pid ← loadi (p_pid p);
    if pid =? 1 then
      rcu_read_unlock;;
      node ← copy_node p;
      set_field node 4 p_state (state_code RUNNING);;
      p ← load64 (n_process n);
      f ← list_update_rcu LIST_FUEL node p uninit;
      if f.1 =? 0 then panic "[LOG SCHEDULER] list_update_rcu failed" else
      klog;;
      run_copy node f.2;;
      rcu_read_lock;;
      mret (true, true)
    else
      klog;;
      node ← copy_node p;
      rcu_read_unlock;;
      set_field node 4 p_state (state_code RUNNING);;
      klog;;
      klog;;
      p ← load64 (n_process n);
      f ← list_update_rcu LIST_FUEL node p uninit;
      run_copy node f.2;;
      rcu_read_lock;;
      mret (false, true)
  else
    (if negb scheduled then rcu_read_unlock else skip);;
    rcu_read_lock;;
    mret (false, scheduled).

(** The [for] loop over the list from node [n]. *)
Definition sched_loop (n : Z) (scheduled : bool) : M kst unit :=
  loop LIST_FUEL (fun '(n, scheduled) =>
    if n =? 0 then mret (inr tt) else
    r ← sched_node n scheduled;
    if r.1 : bool then mret (inr tt) else
    n' ← load64 (n_next n);
    mret (inl (n', r.2))) (n, scheduled).

(** One turn of the scheduler's endless loop. *)
Definition scheduler_turn : M kst unit :=
  zoom hartL (mycpu_set (set_idle 1));;
  zoom hartL intr_on;;
  rcu_read_lock;;
  hd ← list_head;
  sched_loop hd false;;
  rcu_read_unlock.

(** [scheduler], stopped after [turns] turns. *)
Fixpoint scheduler_turns (turns : nat) : M kst unit :=
  match turns with
  | O => skip
  | S k => scheduler_turn;; scheduler_turns k
  end.
Definition scheduler (turns : nat) : M kst unit := set_myproc 0;; klog;; scheduler_turns turns.

Definition yield : M kst unit :=
  p ← myproc;
  node ← copy_node p;
  set_field node 4 p_state (state_code RUNNABLE);;
  f ← list_update_rcu LIST_FUEL node p uninit;
  klog;;
  (if f.1 =? 0 then skip else
     np ← load64 (n_process node);
     set_myproc np;;
     reclaim f.2);;
  sched.

Definition forkret : M kst unit :=
  first ← gets (fun s => forkret_first (k_ptab s));
  (if negb (first =? 0) then mod_ptab (set_first 0);; o_fsinit else skip);;
  o_usertrapret.

End proc.
