(* ===== verification/ProcLogic.v ===== *)
(** * Theorems about processes ([kernel/proc.c]) *)
From stdpp Require Import base gmap strings numbers option list.
From S2P Require Import Prelude Layout Machine Memory Kernel Demo Kalloc Vm Malloc RcuList Rcu Proc.
Open Scope Z_scope.

(** ** Read sections of the scheduler *)

Definition noff (s : kst) : Z := c_noff (cur (k_hart s)).

(** Process states are 32-bit words. *)
Definition nstate (m : mem) (a : Z) : Z := ld 4 m (p_state (nproc m a)).
Definition runnable (m : mem) (a : Z) : Prop := nstate m a = state_code RUNNABLE.

(** [s'] is [s] but for the hart's bookkeeping. *)
Definition same_kernel (s s' : kst) : Prop := exists h, s' = set_hart h s /\ hart_ok h /\ tp h = tp (k_hart s).

Lemma same_kernel_refl s : hart_ok (k_hart s) -> same_kernel s s.
Proof. intros H. exists (k_hart s). by destruct s. Qed.

Lemma same_kernel_trans s1 s2 s3 : same_kernel s1 s2 -> same_kernel s2 s3 -> same_kernel s1 s3.
Proof. intros (h & -> & H1 & H2) (h' & -> & H3 & H4). exists h'. simpl in *. by rewrite H4, H2. Qed.

Lemma pushed_noff h : hart_ok h -> c_noff (cur (pushed h)) = c_noff (cur h) + 1.
Proof. intros Hok. unfold pushed. by rewrite cur_upd by (by apply hart_ok_sie_off). Qed.

Lemma popped_noff h : hart_ok h -> c_noff (cur (popped h)) = c_noff (cur h) - 1.
Proof.
  intros Hok. unfold popped. set (h' := upd_cur _ h).
  assert (cur h' = set_noff (c_noff (cur h) - 1) (cur h)) as Hc by (unfold h'; by rewrite cur_upd).
  case_match; [change (cur (sie_on h')) with (cur h')|]; by rewrite Hc.
Qed.

Lemma popped_tp h : tp (popped h) = tp h.
Proof. unfold popped. by case_match. Qed.

(** A message leaves the nesting as it was. *)
Lemma settle_noff h : hart_ok h -> c_noff (cur (settle h)) = c_noff (cur h).
Proof. intros Hok. unfold settle, balanced. rewrite upd_upd, cur_upd by done. by destruct (c_noff (cur h) =? 0). Qed.

Lemma wp_log `{im : Image} Q s :
  hart_ok (k_hart s) -> (forall s', same_kernel s s' -> noff s' = noff s -> Q tt s') -> wp klog Q s.
Proof.
  intros Hok HQ. apply wp_klog; [done|]. apply HQ; [|by apply settle_noff].
  exists (settle (k_hart s)). split; [done|]. split; [by apply hart_ok_settle|done].
Qed.

Section sched.
Context `{im : Image} `{OS : Outside}.

Lemma wp_read_lock Q s :
  hart_ok (k_hart s) ->
  (forall s', same_kernel s s' -> noff s' = noff s + 1 -> Q tt s') -> wp rcu_read_lock Q s.
Proof.
  intros Hok HQ. apply wp_zoom. eapply wp_eq; [by apply push_off_eq|]. apply HQ.
  - exists (pushed (k_hart s)). split; [done|]. split; [by apply hart_ok_pushed|done].
  - by apply pushed_noff.
Qed.

Lemma wp_read_unlock Q s :
  hart_ok (k_hart s) -> 0 < noff s ->
  (forall s', same_kernel s s' -> noff s' = noff s - 1 -> Q tt s') -> wp rcu_read_unlock Q s.
Proof.
  intros Hok Hn HQ. apply wp_zoom. eapply wp_eq; [by apply pop_off_eq|]. apply HQ.
  - exists (popped (k_hart s)). split; [done|]. split; [by apply hart_ok_popped|apply popped_tp].
  - by apply popped_noff.
Qed.

(** A node whose process does not run: the read section is left and entered
    again, unless some process ran before, then it is only entered. *)
Lemma sched_node_idle n scheduled s L Q :
  hart_ok (k_hart s) -> tp (k_hart s) = 0 -> 0 < noff s ->
  node_wf (k_mem s) L n -> ~ runnable (k_mem s) n ->
  (forall s', same_kernel s s' -> noff s' = noff s + (if scheduled : bool then 1 else 0) ->
     Q (false, scheduled) s') ->
  wp (sched_node n scheduled) Q s.
Proof.
  intros Hok Htp Hn [Hr Hp _ _] Hrun HQ. unfold sched_node.
  apply wp_bind, wp_zoom. eapply wp_eq; [reflexivity|]. simpl. rewrite Htp. cbn [negb Z.eqb].
  assert (set_hart (k_hart s) s = s) as -> by (by destruct s).
  apply wp_bind, wp_load; [by apply ram_process|]. fold (nproc (k_mem s) n).
  apply wp_bind, wp_load. { unfold p_state. destruct Hp as [? ?]. split; unfold sizeof_proc in *; lia. }
  destruct (Z.eqb_spec (ld 4 (k_mem s) (p_state (nproc (k_mem s) n))) 3); [done|].
  destruct scheduled; cbn [negb].
  - apply wp_bind, wp_skip, wp_bind, wp_read_lock; [done|]. intros s' Hs Hn'. apply wp_ret. apply HQ; [done|lia].
  - apply wp_bind, wp_read_unlock; [done|done|]. intros s1 Hs1 Hn1.
    destruct Hs1 as (h1 & -> & Hok1 & Htp1).
    apply wp_bind, wp_read_lock; [done|]. intros s2 Hs2 Hn2. apply wp_ret. apply HQ; [|lia].
    eapply same_kernel_trans; [|done]. by exists h1.
Qed.

(** The body of the scan of the list. *)
Definition scan_step : Z * bool -> M kst (Z * bool + unit) := fun '(n, scheduled) =>
  if n =? 0 then mret (inr tt) else
  r ← sched_node n scheduled;
  if r.1 : bool then mret (inr tt) else
  n' ← load64 (n_next n);
  mret (inl (n', r.2)).

Lemma sched_loop_idle l L scheduled s0 s hd fuel Q :
  chain (k_mem s) hd l -> (length l < fuel)%nat ->
  (forall a, a ∈ l -> node_wf (k_mem s) L a /\ ~ runnable (k_mem s) a) ->
  hart_ok (k_hart s) -> tp (k_hart s) = 0 -> 0 < noff s -> same_kernel s0 s ->
  (forall s', same_kernel s0 s' ->
     noff s' = noff s + (if scheduled : bool then Z.of_nat (length l) else 0) -> Q tt s') ->
  wp (loop fuel scan_step (hd, scheduled)) Q s.
Proof.
  revert hd s fuel.
  induction l as [|a l IH]; intros hd s fuel Hch Hf Hw Hok Htp Hn Hs HQ;
    (destruct fuel as [|fuel]; [simpl in Hf; lia|]); cbn [loop scan_step].
  - unfold chain in Hch. simpl in Hch. subst hd. apply wp_bind, wp_ret, wp_ret. apply HQ; [done|]. destruct scheduled; simpl; lia.
  - destruct Hch as [-> Hch]. destruct (Hw a (list_elem_of_here _ _)) as [Hwf Hrun].
    rewrite (proj2 (Z.eqb_neq a 0)) by (by eapply node_nonzero).
    apply wp_bind, wp_bind. eapply sched_node_idle; [done..|]. intros s' Hs' Hn'. cbn [fst snd].
    pose proof Hs' as (h & -> & Hok' & Htp'). simpl in Htp'.
    apply wp_bind, wp_load; [apply ram_next; apply Hwf|]. apply wp_ret.
    eapply (IH _ (set_hart h s)); [exact Hch|simpl in Hf; lia| |done|simpl; lia| | |].
    + intros b Hb. by apply Hw, list_elem_of_further.
    + rewrite Hn'. destruct scheduled; lia.
    + by eapply same_kernel_trans.
    + intros s2 Hs2 Hn2. apply HQ; [done|]. rewrite Hn2, Hn'.
      destruct scheduled; simpl length; lia.
Qed.

(** A turn of the scheduler on hart 0 that finds nothing to run leaves
    memory and list alone, marks the hart idle and leaves every read section it
    entered: the nesting of [push_off] is what it was, so interrupts are
    enabled again. *)
Theorem scheduler_idle_turn s l :
  list_wf s l -> (length l < LIST_FUEL)%nat -> tp (k_hart s) = 0 -> noff s = 0 ->
  (forall a, a ∈ l -> ~ runnable (k_mem s) a) ->
  wp scheduler_turn (fun _ s' => same_kernel s s' /\ noff s' = 0) s.
Proof.
  intros [Hok Hlk Hch Hnd Hw] Hf Htp Hn Hrun. unfold scheduler_turn.
  apply wp_bind, wp_zoom. eapply wp_eq; [by apply mycpu_set_eq|]. cbn beta.
  apply wp_bind, wp_zoom. eapply wp_eq; [reflexivity|].
  set (h2 := sie_on (upd_cur (set_idle 1) (k_hart s))).
  assert (c_noff (cur h2) = 0) as Hn2.
  { change (cur h2) with (cur (upd_cur (set_idle 1) (k_hart s))). rewrite cur_upd by done. exact Hn. }
  assert (Hok2 : hart_ok h2).
  { pose proof Hok as [? ? _ _]. apply hart_ok_intro; [done|etransitivity; [apply (length_upd _ (k_hart s))|done]|lia|lia]. }
  apply wp_bind, (wp_read_lock _ (set_hart h2 s)); [done|]. intros s3 Hs3 Hn3. pose proof Hs3 as (h3 & -> & Hok3 & Htp3).
  apply wp_bind, wp_gets. apply wp_bind.
  assert (Hk : same_kernel s (set_hart h3 s)) by (exists h3; split; [done|]; split; [done|]; by rewrite Htp3).
  unfold noff in Hn3 at 2. simpl k_hart in Hn3.
  change (sched_loop ?x false) with (loop LIST_FUEL scan_step (x, false)).
  eapply (sched_loop_idle l l false s); [exact Hch|done| |done|simpl; by rewrite Htp3|lia|done|].
  { intros a Ha. split; [by apply Hw|by apply Hrun]. }
  intros s4 Hs4 Hn4. pose proof Hs4 as (h4 & -> & Hok4 & Htp4).
  apply wp_read_unlock; [done|lia|]. intros s5 Hs5 Hn5. split; [by eapply same_kernel_trans|]. lia.
Qed.

(** Entering a turn: up to the scan of the list. *)
Definition turn_start : M kst unit :=
  zoom hartL (mycpu_set (set_idle 1));; zoom hartL intr_on;; rcu_read_lock.

Lemma turn_start_eq s : hart_ok (k_hart s) -> noff s = 0 ->
  exists h, turn_start s = Ret tt (set_hart h s).
Proof.
  intros Hok Hn. unfold turn_start. erewrite bind_ret; [|unfold zoom; cbn [lget hartL]; by rewrite mycpu_set_eq].
  erewrite bind_ret by reflexivity. cbn [lset hartL].
  set (h2 := mkHart _ _ _). assert (Hok2 : hart_ok h2).
  { pose proof Hok as [? ? _ _]. change h2 with (sie_on (upd_cur (set_idle 1) (k_hart s))).
    assert (c_noff (cur (sie_on (upd_cur (set_idle 1) (k_hart s)))) = 0) as Hn2.
    { change (cur (sie_on ?h)) with (cur h). rewrite cur_upd by done. exact Hn. }
    apply hart_ok_intro; [done|etransitivity; [apply (length_upd _ (k_hart s))|done]|lia|lia]. }
  unfold rcu_read_lock, zoom. cbn [lget hartL k_hart set_hart]. rewrite push_off_eq by done. by eexists.
Qed.


End sched.

(** ** A booted kernel

    Sixty free pages; hart 1 is idle.  Nothing else runs during [swtch]; the
    file layer hands the pointers back, but [iput] reads [ip->ref]. *)
Definition demo_outside : Outside := {|
  swtch := fun _ _ => skip;
  o_filedup := fun f => mret f;
  o_idup := fun ip => mret ip;
  o_fileclose := fun _ => skip;
  o_begin_op := skip;
  o_iput := fun ip => _ ← load 4 (ip + 8); skip;
  o_end_op := skip;
  o_namei_root := mret 0x80020000;
  o_fsinit := skip;
  o_usertrapret := skip;
  initcode_addr := 0x80008800;
  uninit := 0;
  mfuel := 100;
  sfuel := 20;
  wait_patience := 2
|}.

Fixpoint free_chain_mem (n : nat) (p : Z) (m : mem) : mem :=
  match n with
  | O => m
  | S k => free_chain_mem k (p + 4096) (st 8 m p (if decide (k = O) then 0 else p + 4096))
  end.

Definition boot_hart : hartst := mkHart [mkCpu 0 context0 0 0 0; mkCpu 0 context0 0 0 1] 0 2.
Definition boot_kst : kst :=
  set_hart boot_hart (demo_kst (free_chain_mem 60 0x80100000 ∅) 0x80100000 0).

(** The first process, and its child: the newest process is at the head. *)
Definition run_newest `{im : Image} : M kst unit := hd ← list_head; p ← load64 (n_process hd); set_myproc p.
Definition boot `{im : Image} `{OS : Outside} : M kst Z := userinit;; run_newest;; fork.

(** The booted kernel works: [fork] returns the pid of the child. *)
Lemma boot_forks : result (boot (im := demo_image) (OS := demo_outside) boot_kst) = Some 2.
Proof. vm_compute. reflexivity. Qed.

(** [exit] of a forked child hands the null pointer to [iput]: [closeFile] has
    released and zeroed the [struct proc] whose [cwd] it then reads, so the
    kernel faults at [((struct inode* )0)->ref]. *)
Theorem exit_iput_null :
  failure ((boot (im := demo_image) (OS := demo_outside);; run_newest (im := demo_image);;
            Proc.exit (im := demo_image) (OS := demo_outside) 3) boot_kst) = Some (EFault 8).
Proof. vm_compute. reflexivity. Qed.

(** [kill] of an existing process copies it through the [process] field of a
    node that was just allocated and never set. *)
Theorem kill_wild_copy :
  failure ((boot (im := demo_image) (OS := demo_outside);;
            kill (im := demo_image) (OS := demo_outside) 2) boot_kst) = Some (EFault 0).
Proof. vm_compute. reflexivity. Qed.

(** ** Witnesses *)

Lemma demo_not_runnable a : a ∈ demo_nodes -> ~ runnable demo_list_mem a.
Proof. intros [->|[->|[]%elem_of_nil]%elem_of_cons]%elem_of_cons; vm_compute; discriminate. Qed.

Lemma scheduler_idle_turn_witness :
  wp (scheduler_turn (im := demo_image) (OS := demo_outside))
    (fun _ s' => same_kernel demo_list_kst s' /\ noff s' = 0) demo_list_kst.
Proof.
  apply (scheduler_idle_turn (im := demo_image) (OS := demo_outside) demo_list_kst demo_nodes).
  - exact demo_list_wf.
  - vm_compute. lia.
  - reflexivity.
  - reflexivity.
  - exact demo_not_runnable.
Defined.

(** The first process has forked and sleeps; its child can run. *)
Definition demo_forked : outcome kst unit :=
  (boot (im := demo_image) (OS := demo_outside);; zoom waitL (acquire (im := demo_image));;
   Proc.sleep (im := demo_image) (OS := demo_outside) 77 waitL;;
   zoom waitL (release (im := demo_image))) boot_kst.
Definition demo_forked_kst : kst := final demo_forked.

(** The nodes of the child and of the sleeping process. *)
Definition demo_child_node : Z := 2148596912.
Definition demo_init_node : Z := 2148597344.

Definition hart_okb (h : hartst) : bool :=
  (0 <=? tp h) && (tp h <? NCPU) && (length (cpus h) =? Z.to_nat NCPU)%nat && (0 <=? c_noff (cur h)) &&
  (negb (0 <? c_noff (cur h)) || negb (sie h)).

Lemma hart_okb_ok h : hart_okb h = true -> hart_ok h.
Proof.
  unfold hart_okb. rewrite !andb_true_iff, orb_true_iff, !negb_true_iff, Z.leb_le, Z.ltb_lt, Nat.eqb_eq, Z.leb_le, Z.ltb_ge.
  intros ((((H1 & H2) & H3) & H4) & H5). apply hart_ok_intro; [lia|done|done|]. intros H. destruct H5; [lia|done].
Qed.

(** The child ran, and the sleeping process is all that is behind it. *)
Definition ran_child (o : outcome kst (bool * bool)) : bool :=
  match o with
  | Ret (false, true) s1 =>
      hart_okb (k_hart s1) && (tp (k_hart s1) =? 0) && (noff s1 =? 1) &&
      (ld64 (k_mem s1) (n_next demo_child_node) =? demo_init_node) &&
      (ld64 (k_mem s1) (n_next demo_init_node) =? 0) && node_wfb (k_mem s1) [demo_init_node] demo_init_node &&
      negb (nstate (k_mem s1) demo_init_node =? state_code RUNNABLE)
  | _ => false
  end.

Lemma ran_child_inv o : ran_child o = true -> exists s1, o = Ret (false, true) s1 /\
  hart_ok (k_hart s1) /\ tp (k_hart s1) = 0 /\ noff s1 = 1 /\
  chain (k_mem s1) (ld64 (k_mem s1) (n_next demo_child_node)) [demo_init_node] /\
  node_wf (k_mem s1) [demo_init_node] demo_init_node /\ ~ runnable (k_mem s1) demo_init_node.
Proof.
  destruct o as [[[] []] s1|]; try discriminate. unfold ran_child.
  rewrite !andb_true_iff, !Z.eqb_eq, negb_true_iff, Z.eqb_neq. intros ((((((H1 & H2) & H3) & H4) & H5) & H6) & H7).
  exists s1. split; [done|]. split; [by apply hart_okb_ok|]. split; [done|]. split; [done|].
  split; [by rewrite H4; split|]. split; [by apply node_wfb_ok|done].
Qed.

Definition at_start (s : kst) : bool :=
  hart_okb (k_hart s) && (noff s =? 0) && (process_list (k_plist s) =? demo_child_node).

Lemma at_start_inv s : at_start s = true ->
  hart_ok (k_hart s) /\ noff s = 0 /\ process_list (k_plist s) = demo_child_node.
Proof. unfold at_start. rewrite !andb_true_iff, !Z.eqb_eq. intros [[H1 H2] H3]. split; [by apply hart_okb_ok|done]. Qed.

Lemma demo_turn_runs :
  ran_child ((turn_start (im := demo_image);; sched_node (im := demo_image) (OS := demo_outside) demo_child_node false)
    demo_forked_kst) = true.
Proof. vm_compute. reflexivity. Qed.

Lemma demo_forked_start : at_start demo_forked_kst = true.
Proof. vm_compute. reflexivity. Qed.

