(* ===== verification/Grep.v ===== *)
(** * [user/grep.c]

    The regular-expression matcher against the language a pattern denotes, and
    the lines of a text.  C strings are the bytes before the NUL.  [grep] and
    [main], which make system calls, are in [Utils]. *)
From stdpp Require Import base numbers option list.
Open Scope Z_scope.

Definition CARET : Z := 94.
Definition DOLLAR : Z := 36.
Definition ANY : Z := 46.
Definition STAR : Z := 42.
Definition NL : Z := 10.

(** [matchstar(c, re, text)], where [mh] is [matchhere(re, .)] *)
Fixpoint matchstar (c : Z) (mh : list Z -> bool) (text : list Z) : bool :=
  if mh text then true else
  match text with
  | [] => false
  | t :: text' => if (t =? c) || (c =? ANY) then matchstar c mh text' else false
  end.

Fixpoint matchhere (re text : list Z) : bool :=
  match re with
  | [] => true
  | c :: re1 =>
      let single :=
        if (c =? DOLLAR) && bool_decide (re1 = []) then bool_decide (text = []) else
        match text with
        | [] => false
        | t :: text' => if (c =? ANY) || (c =? t) then matchhere re1 text' else false
        end in
      match re1 with
      | d :: re2 => if d =? STAR then matchstar c (matchhere re2) text else single
      | [] => single
      end
  end.

(** The loop of [match] over the suffixes of the text. *)
Fixpoint match_from (re text : list Z) : bool :=
  if matchhere re text then true else
  match text with
  | [] => false
  | _ :: text' => match_from re text'
  end.

Definition match_ (re text : list Z) : bool :=
  match re with
  | c :: re1 => if c =? CARET then matchhere re1 text else match_from re text
  | [] => match_from re text
  end.

(** ** The language of a pattern *)

Inductive item := One (c : Z) | Many (c : Z).

(** The items of a pattern, and whether it ends in a dollar that anchors it. *)
Fixpoint parse (re : list Z) : list item * bool :=
  match re with
  | [] => ([], false)
  | c :: re1 =>
      match re1 with
      | [] => if c =? DOLLAR then ([], true) else ([One c], false)
      | d :: re2 =>
          if d =? STAR then let '(l, e) := parse re2 in (Many c :: l, e)
          else let '(l, e) := parse re1 in (One c :: l, e)
      end
  end.

Definition char_ok (c t : Z) : Prop := c = ANY \/ t = c.

(** [s] is a string of the language of the items. *)
Inductive lang : list item -> list Z -> Prop :=
| lang_nil : lang [] []
| lang_one c t l s : char_ok c t -> lang l s -> lang (One c :: l) (t :: s)
| lang_many_0 c l s : lang l s -> lang (Many c :: l) s
| lang_many_S c t l s : char_ok c t -> lang (Many c :: l) s -> lang (Many c :: l) (t :: s).

(** [text] has a prefix in the language; all of it when the pattern is
    anchored at its end. *)
Definition prefix_lang (re : list Z) (text : list Z) : Prop :=
  exists pre suf, text = pre ++ suf /\ lang (parse re).1 pre /\ ((parse re).2 = true -> suf = []).

Lemma char_test c t : ((t =? c) || (c =? ANY)) = true <-> char_ok c t.
Proof. unfold char_ok. rewrite orb_true_iff, !Z.eqb_eq. tauto. Qed.

Lemma matchstar_spec c mh text :
  matchstar c mh text = true <->
  exists skip rest, text = skip ++ rest /\ (forall t, t ∈ skip -> char_ok c t) /\ mh rest = true.
Proof.
  induction text as [|t text IH]; simpl.
  - destruct (mh []) eqn:E; split; intros H; try done.
    + exists [], []. split; [done|]. split; [|done]. intros t Ht. by apply elem_of_nil in Ht.
    + destruct H as (sk & rest & Heq & _ & Hm). destruct sk, rest; simplify_eq/=; congruence.
  - destruct (mh (t :: text)) eqn:E.
    { split; [|done]. intros _. exists [], (t :: text). split; [done|]. split; [|done].
      intros x Hx. by apply elem_of_nil in Hx. }
    split.
    + destruct ((t =? c) || (c =? ANY)) eqn:Ht; [|done]. apply char_test in Ht.
      intros (sk & rest & -> & Hsk & Hm)%IH. exists (t :: sk), rest. split; [done|]. split; [|done].
      intros x [->|Hx]%elem_of_cons; auto.
    + intros (sk & rest & Heq & Hsk & Hm). destruct sk as [|t' sk]; simplify_list_eq; [by rewrite E in Hm|].
      rewrite (proj2 (char_test c t')) by (apply Hsk; apply list_elem_of_here).
      apply IH. exists sk, rest. split; [done|]. split; [|done]. intros x Hx.
      apply Hsk. by apply list_elem_of_further.
Qed.

Lemma lang_many c l s :
  lang (Many c :: l) s <->
  exists skip rest, s = skip ++ rest /\ (forall t, t ∈ skip -> char_ok c t) /\ lang l rest.
Proof.
  split.
  - remember (Many c :: l) as it eqn:Hit. intros H. induction H; simplify_eq.
    + exists [], s. split; [done|]. split; [|done]. intros t Ht. by apply elem_of_nil in Ht.
    + destruct IHlang as (sk & rest & -> & Hsk & Hl); [done|]. exists (t :: sk), rest.
      split; [done|]. split; [|done]. intros x [->|Hx]%elem_of_cons; auto.
  - intros (sk & rest & -> & Hsk & Hl). induction sk as [|t sk IH]; simpl.
    + by apply lang_many_0.
    + apply lang_many_S; [apply Hsk; apply list_elem_of_here|]. apply IH. intros x Hx.
      apply Hsk. by apply list_elem_of_further.
Qed.

Lemma prefix_lang_star c re2 text :
  (forall t, matchhere re2 t = true <-> prefix_lang re2 t) ->
  (matchstar c (matchhere re2) text = true <->
   exists pre suf, text = pre ++ suf /\ lang (Many c :: (parse re2).1) pre /\
     ((parse re2).2 = true -> suf = [])).
Proof.
  intros IH. rewrite matchstar_spec. split.
  - intros (sk & rest & -> & Hsk & (pre & suf & -> & Hl & He)%IH). exists (sk ++ pre), suf.
    split; [by rewrite app_assoc|]. split; [|done]. apply lang_many. by exists sk, pre.
  - intros (pre & suf & -> & (sk & rest & -> & Hsk & Hl)%lang_many & He).
    exists sk, (rest ++ suf). split; [by rewrite app_assoc|]. split; [done|].
    apply IH. by exists rest, suf.
Qed.

Lemma prefix_lang_one c l (e : bool) (re1 text : list Z) (mh : list Z -> bool) :
  (forall t, mh t = true <-> exists pre suf, t = pre ++ suf /\ lang l pre /\ (e = true -> suf = [])) ->
  (match text with [] => false | t :: text' => if (c =? ANY) || (c =? t) then mh text' else false end = true
   <-> exists pre suf, text = pre ++ suf /\ lang (One c :: l) pre /\ (e = true -> suf = [])).
Proof.
  intros IH. destruct text as [|t text].
  - split; [done|]. intros (pre & suf & Heq & Hl & _). inversion Hl; by simplify_eq.
  - assert (Hct : ((c =? ANY) || (c =? t)) = true <-> char_ok c t).
    { unfold char_ok. rewrite orb_true_iff, !Z.eqb_eq. naive_solver. }
    split.
    + destruct ((c =? ANY) || (c =? t)); [|done]. intros (pre & suf & -> & Hl & He)%IH.
      exists (t :: pre), suf. split; [done|]. split; [|done]. apply lang_one; [by apply Hct|done].
    + intros (pre & suf & Heq & Hl & He). inversion Hl; simplify_list_eq.
      rewrite (proj2 Hct) by done. apply IH. by exists s, suf.
Qed.

Lemma matchhere_spec re : forall text, matchhere re text = true <-> prefix_lang re text.
Proof.
  induction re as [re IH] using (induction_ltof1 _ (@length Z)). unfold ltof in IH. intros text.
  destruct re as [|c [|d re2]].
  - split; [|done]. intros _. exists [], text. split; [done|]. split; [apply lang_nil|done].
  - simpl. unfold prefix_lang. simpl. destruct (Z.eqb_spec c DOLLAR) as [->|Hc]; simpl.
    + rewrite bool_decide_eq_true. split.
      * intros ->. exists [], []. split; [done|]. split; [apply lang_nil|done].
      * intros (pre & suf & -> & Hl & He). inversion Hl. by rewrite He.
    + apply (prefix_lang_one c [] false []). intros t. split; [|done]. intros _.
      exists [], t. split; [done|]. split; [apply lang_nil|done].
  - unfold prefix_lang. simpl parse. cbn [matchhere]. destruct (Z.eqb_spec d STAR) as [->|Hd].
    + rewrite (prefix_lang_star c re2); [by destruct (parse re2)|]. intros t. apply IH. simpl. lia.
    + rewrite bool_decide_eq_false_2, andb_false_r by done.
      rewrite (prefix_lang_one c (parse (d :: re2)).1 (parse (d :: re2)).2 [] text (matchhere (d :: re2))).
      * simpl parse. by destruct re2 as [|e re3]; [destruct (d =? DOLLAR)|destruct (e =? STAR), (parse _)].
      * intros t. apply IH. simpl. lia.
Qed.

Lemma match_from_spec re text :
  match_from re text = true <-> exists pre suf, text = pre ++ suf /\ matchhere re suf = true.
Proof.
  induction text as [|t text IH]; simpl.
  - destruct (matchhere re []) eqn:E; split; try done; intros H.
    + by exists [], [].
    + destruct H as (pre & suf & Heq & Hm). destruct pre, suf; simplify_eq/=; congruence.
  - destruct (matchhere re (t :: text)) eqn:E.
    + split; [|done]. intros _. by exists [], (t :: text).
    + rewrite IH. split.
      * intros (pre & suf & -> & Hm). by exists (t :: pre), suf.
      * intros (pre & suf & Heq & Hm). destruct pre as [|x pre]; simplify_list_eq; [congruence|].
        by exists pre, suf.
Qed.

(** The text matches: some substring is in the language of the pattern, at the
    start of the text for a pattern that begins with a caret and at its end
    for one that ends with a dollar. *)
Definition matches (re text : list Z) : Prop :=
  let start := bool_decide (head re = Some CARET) in
  let body := if start then tail re else re in
  exists pre mid suf, text = pre ++ mid ++ suf /\ lang (parse body).1 mid /\
    (start = true -> pre = []) /\ ((parse body).2 = true -> suf = []).

Lemma match_spec re text : match_ re text = true <-> matches re text.
Proof.
  unfold matches.
  assert (Hfree : forall re, match_from re text = true <-> exists pre mid suf, text = pre ++ mid ++ suf /\
    lang (parse re).1 mid /\ (false = true -> pre = []) /\ ((parse re).2 = true -> suf = [])).
  { intros re'. rewrite match_from_spec. split.
    - intros (pre & suf & -> & (mid & rest & -> & Hl & He)%matchhere_spec). by exists pre, mid, rest.
    - intros (pre & mid & suf & -> & Hl & _ & He). exists pre, (mid ++ suf). split; [done|].
      apply matchhere_spec. by exists mid, suf. }
  destruct re as [|c re1]; [apply Hfree|]. unfold match_. cbn [head tail].
  destruct (Z.eqb_spec c CARET) as [->|Hc].
  - rewrite bool_decide_eq_true_2 by done. rewrite matchhere_spec. split.
    + intros (mid & suf & -> & Hl & He). by exists [], mid, suf.
    + intros (pre & mid & suf & -> & Hl & Hp & He). rewrite Hp by done. by exists mid, suf.
  - rewrite bool_decide_eq_false_2 by naive_solver. apply Hfree.
Qed.

(** The matcher of [grep] accepts exactly the language of the pattern:
    [match(re, text)] is 1 if and only if a substring of the text, anchored as
    the caret and the dollar of the pattern demand, is a string of the pattern
    read as a sequence of single or starred characters, with the dot for any
    character.  (The definitions are structurally recursive: the mutual
    recursion of [matchhere] and [matchstar] terminates on every input.) *)
Theorem match_correct re text : match_ re text = true <-> matches re text.
Proof. apply match_spec. Qed.

(** ** The line loop *)

(** [strchr(s, c)] as the bytes before the first [c] and those after it. *)
Fixpoint strchr (s : list Z) (c : Z) : option (list Z * list Z) :=
  match s with
  | [] => None
  | x :: s' =>
      if x =? 0 then None
      else if x =? c then Some ([], s')
      else '(a, b) ← strchr s' c; Some (x :: a, b)
  end.

(** The lines of a text that end in a newline, and what follows the last. *)
Fixpoint lines (s : list Z) : list (list Z) * list Z :=
  match s with
  | [] => ([], [])
  | x :: s' =>
      let '(ls, r) := lines s' in
      if decide (x = NL) then ([] :: ls, r)
      else match ls with
           | [] => ([], x :: r)
           | l :: ls' => ((x :: l) :: ls', r)
           end
  end.

Definition matching (pattern : list Z) (ls : list (list Z)) : list Z :=
  concat ((fun l => l ++ [NL]) <$> filter (fun l => match_ pattern l = true) ls).

(** [sel] are the lines of [ls] that satisfy [P], in order. *)
Inductive selects (P : list Z -> Prop) : list (list Z) -> list (list Z) -> Prop :=
| sel_nil : selects P [] []
| sel_keep l ls sel : P l -> selects P ls sel -> selects P (l :: ls) (l :: sel)
| sel_drop l ls sel : ~ P l -> selects P ls sel -> selects P (l :: ls) sel.

(** What [match_] filters out are the lines in the language of the pattern. *)
Lemma matching_selects pattern ls :
  exists sel, selects (matches pattern) ls sel /\ matching pattern ls = concat ((fun l => l ++ [NL]) <$> sel).
Proof.
  induction ls as [|l ls (sel & Hs & IH)]; [by exists []; split; [constructor|]|].
  unfold matching in *. rewrite filter_cons. destruct (decide (match_ pattern l = true)) as [Hm|Hm].
  - exists (l :: sel). split; [constructor; [by apply match_spec|done]|]. rewrite !fmap_cons. cbn [concat]. by rewrite IH.
  - exists sel. split; [|done]. constructor; [|done]. by rewrite <- match_spec.
Qed.

Lemma strchr_lines s :
  0 ∉ s ->
  match strchr s NL with
  | None => lines s = ([], s)
  | Some (line, rest) => lines s = (line :: (lines rest).1, (lines rest).2) /\
      (length rest < length s)%nat /\ 0 ∉ rest
  end.
Proof.
  induction s as [|x s IH]; intros H0; [done|]. apply not_elem_of_cons in H0 as [Hx H0].
  specialize (IH H0). simpl. destruct (Z.eqb_spec x 0) as [->|_]; [done|].
  destruct (Z.eqb_spec x NL) as [->|Hn].
  - split; [|split; [lia|done]]. destruct (lines s). by rewrite decide_True.
  - destruct (strchr s NL) as [[a b]|]; simpl.
    + destruct IH as (-> & Hl & Hb). rewrite decide_False by done. split; [done|]. split; [lia|done].
    + rewrite IH, decide_False by done. done.
Qed.

Lemma lines_app s t :
  lines (s ++ t) = ((lines s).1 ++ (lines ((lines s).2 ++ t)).1, (lines ((lines s).2 ++ t)).2).
Proof.
  induction s as [|x s IH]; simpl; [by destruct (lines t)|]. rewrite IH.
  destruct (lines s) as [ls r] eqn:E. simpl in *. destruct (decide (x = NL)) as [->|Hn]; [done|].
  destruct ls as [|l ls]; [|done]. cbn [fst snd app lines].
  destruct (lines (r ++ t)) as [[|l2 ls2] r2]; cbn [fst snd]; by rewrite decide_False.
Qed.

Lemma lines_rest s x : x ∈ (lines s).2 -> x ∈ s.
Proof.
  induction s as [|y s IH]; simpl; [done|]. destruct (lines s) as [[|l ls] r]; simpl in *.
  - destruct (decide (y = NL)); simpl; rewrite elem_of_cons; [auto|]. rewrite elem_of_cons. naive_solver.
  - destruct (decide (y = NL)); simpl; rewrite elem_of_cons; auto.
Qed.

Lemma matching_app pattern l1 l2 : matching pattern (l1 ++ l2) = matching pattern l1 ++ matching pattern l2.
Proof. unfold matching. by rewrite filter_app, fmap_app, concat_app. Qed.

(** What follows the last newline is one partial line. *)
Lemma lines_partial s : (lines (lines s).2).1 = [] /\ (lines (lines s).2).2 = (lines s).2.
Proof.
  induction s as [|x s IHs]; [done|]. simpl. destruct (lines s) as [[|l ls] r]; simpl in *.
  - destruct (decide (x = NL)); simpl; [done|]. destruct (lines r) as [lr rr]. simpl in *.
    destruct IHs as [-> ->]. by rewrite decide_False.
  - by destruct (decide (x = NL)).
Qed.

(** A partial line is the beginning of the next line. *)
Lemma partial_prefix buf t :
  (lines buf).1 = [] ->
  match (lines (buf ++ t)).1 with
  | l :: _ => (length buf <= length l)%nat
  | [] => (length buf <= length (lines (buf ++ t)).2)%nat
  end.
Proof.
  induction buf as [|x buf IH]; intros H; [simpl; case_match; lia|]. simpl in *.
  destruct (lines buf) as [[|l ls] r]; destruct (decide (x = NL)); try done.
  specialize (IH eq_refl). destruct (lines (buf ++ t)) as [[|l2 ls2] r2]; simpl in *; lia.
Qed.
