(* ===== verification/Console.v ===== *)
(** * The console ([kernel/uart.c], [kernel/console.c])

    The 16550 UART driver and the line discipline.  The device is its
    registers: the bytes written to THR in [u_out], the bytes waiting in RHR in
    [u_in], and the answers of LSR about the transmitter in [u_idle] (idle when
    no answer is left).  What other threads do while a process sleeps is a
    parameter. *)
From stdpp Require Import base gmap strings numbers option list.
From S2P Require Import Prelude Layout Machine Memory Kernel Demo FsState Sleeplock Fs FsRead Ring.
Open Scope Z_scope.

Definition INPUT_BUF : Z := 128.
Definition UART_TX_BUF_SIZE : Z := 32.
Definition BACKSPACE : Z := 0x100.
(** [C(x)], control-x *)
Definition CTRL (x : Z) : Z := x - 64.
Definition CTRL_D : Z := CTRL 68.
Definition CTRL_H : Z := CTRL 72.
Definition CTRL_P : Z := CTRL 80.
Definition CTRL_U : Z := CTRL 85.
Definition DEL : Z := 0x7f.
Definition NEWLINE : Z := 10.
Definition CR : Z := 13.

(** [cons] *)
Record cons_t := mkCons { cons_lock : spinlock; cons_buf : list Z; cons_r : Z; cons_w : Z; cons_e : Z }.
(** The transmit buffer. *)
Record uart_t := mkUart { uart_tx_lock : spinlock; uart_tx_buf : list Z; uart_tx_w : Z; uart_tx_r : Z }.
(** The device. *)
Record udev := mkUdev { u_out : list Z; u_in : list Z; u_idle : list bool; u_regs : list (Z * Z) }.

(** [&cons.r] and [&uart_tx_r] as sleep channels. *)
Inductive cchan := WCons | WUart.

Record cstate := mkC {
  cs_hart : hartst;
  cs_cons : cons_t;
  cs_uart : uart_t;
  cs_dev : udev;
  cs_panicked : Z;
  cs_killed : Z;
  cs_umem : mem;
  cs_kmem : mem;
  cs_woken : list cchan
}.

Definition setc_cons (x : cons_t) (s : cstate) : cstate :=
  mkC (cs_hart s) x (cs_uart s) (cs_dev s) (cs_panicked s) (cs_killed s) (cs_umem s) (cs_kmem s) (cs_woken s).
Definition setc_uart (x : uart_t) (s : cstate) : cstate :=
  mkC (cs_hart s) (cs_cons s) x (cs_dev s) (cs_panicked s) (cs_killed s) (cs_umem s) (cs_kmem s) (cs_woken s).
Definition setc_dev (x : udev) (s : cstate) : cstate :=
  mkC (cs_hart s) (cs_cons s) (cs_uart s) x (cs_panicked s) (cs_killed s) (cs_umem s) (cs_kmem s) (cs_woken s).
Definition setc_hart (x : hartst) (s : cstate) : cstate :=
  mkC x (cs_cons s) (cs_uart s) (cs_dev s) (cs_panicked s) (cs_killed s) (cs_umem s) (cs_kmem s) (cs_woken s).
Definition setc_umem (x : mem) (s : cstate) : cstate :=
  mkC (cs_hart s) (cs_cons s) (cs_uart s) (cs_dev s) (cs_panicked s) (cs_killed s) x (cs_kmem s) (cs_woken s).
Definition setc_kmem (x : mem) (s : cstate) : cstate :=
  mkC (cs_hart s) (cs_cons s) (cs_uart s) (cs_dev s) (cs_panicked s) (cs_killed s) (cs_umem s) x (cs_woken s).
Definition setc_woken (x : list cchan) (s : cstate) : cstate :=
  mkC (cs_hart s) (cs_cons s) (cs_uart s) (cs_dev s) (cs_panicked s) (cs_killed s) (cs_umem s) (cs_kmem s) x.

Definition set_r (x : Z) (c : cons_t) : cons_t := mkCons (cons_lock c) (cons_buf c) x (cons_w c) (cons_e c).
Definition set_w (x : Z) (c : cons_t) : cons_t := mkCons (cons_lock c) (cons_buf c) (cons_r c) x (cons_e c).
Definition set_e (x : Z) (c : cons_t) : cons_t := mkCons (cons_lock c) (cons_buf c) (cons_r c) (cons_w c) x.
Definition set_buf (x : list Z) (c : cons_t) : cons_t := mkCons (cons_lock c) x (cons_r c) (cons_w c) (cons_e c).

Definition consL : lens cstate (hartst * spinlock) :=
  Lens (fun s => (cs_hart s, cons_lock (cs_cons s)))
       (fun p s => let c := cs_cons s in
          setc_cons (mkCons p.2 (cons_buf c) (cons_r c) (cons_w c) (cons_e c)) (setc_hart p.1 s)).
Definition uartL : lens cstate (hartst * spinlock) :=
  Lens (fun s => (cs_hart s, uart_tx_lock (cs_uart s)))
       (fun p s => let u := cs_uart s in
          setc_uart (mkUart p.2 (uart_tx_buf u) (uart_tx_w u) (uart_tx_r u)) (setc_hart p.1 s)).
Definition chartL : lens cstate hartst := Lens cs_hart setc_hart.

Class ConsWorld := {
  c_env : cchan -> cstate -> cstate;
  c_patience : nat;
  c_mapped : Z -> bool;
  procdump : M cstate unit
}.

Definition wake (c : cchan) : M cstate unit := modify (fun s => setc_woken (c :: cs_woken s) s).

Section console.
Context `{im : Image} `{CW : ConsWorld}.

Definition csleep (c : cchan) (l : lens cstate (hartst * spinlock)) : M cstate unit :=
  zoom l release;; modify (c_env c);; zoom l acquire.

(** ** uart.c *)

(** [WriteReg(reg, v)] for the configuration registers *)
Definition write_reg (r v : Z) : M cstate unit :=
  modify (fun s => let d := cs_dev s in
    setc_dev (mkUdev (u_out d) (u_in d) (u_idle d) (u_regs d ++ [(r, v)])) s).

(** [WriteReg(THR, c)] *)
Definition write_thr (c : Z) : M cstate unit :=
  modify (fun s => let d := cs_dev s in
    setc_dev (mkUdev (u_out d ++ [u8 c]) (u_in d) (u_idle d) (u_regs d)) s).

(** [(ReadReg(LSR) & LSR_TX_IDLE) != 0] *)
Definition tx_idle : M cstate bool := fun s =>
  let d := cs_dev s in
  match u_idle d with
  | [] => Ret true s
  | b :: l => Ret b (setc_dev (mkUdev (u_out d) (u_in d) l (u_regs d)) s)
  end.

Definition uartinit : M cstate unit :=
  write_reg 1 0x00;;
  write_reg 3 (Z.shiftl 1 7);;
  write_reg 0 0x03;;
  write_reg 1 0x00;;
  write_reg 3 3;;
  write_reg 2 (Z.lor 1 (Z.shiftl 3 1));;
  write_reg 1 (Z.lor 2 1);;
  zoom uartL (zoom lsnd (initlock (strlit "uart"))).

Definition uartstart : M cstate unit :=
  s ← getS;
  loop (S (S (Z.to_nat (u64 (uart_tx_w (cs_uart s) - uart_tx_r (cs_uart s)))))) (fun _ : unit =>
    u ← gets cs_uart;
    if uart_tx_w u =? uart_tx_r u then mret (inr tt) else
    idle ← tx_idle;
    if negb idle then mret (inr tt) else
    let c := nth (Z.to_nat (uart_tx_r u mod UART_TX_BUF_SIZE)) (uart_tx_buf u) 0 in
    modify (fun s => let u := cs_uart s in
      setc_uart (mkUart (uart_tx_lock u) (uart_tx_buf u) (uart_tx_w u) (u64 (uart_tx_r u + 1))) s);;
    wake WUart;;
    write_thr c;;
    mret (inl tt)) tt.

Definition uartputc (c : Z) : M cstate unit :=
  zoom uartL acquire;;
  p ← gets cs_panicked;
  if negb (p =? 0) then fail ESpin else
  loop (S c_patience) (fun _ : unit =>
    u ← gets cs_uart;
    if uart_tx_w u =? u64 (uart_tx_r u + UART_TX_BUF_SIZE) then
      csleep WUart uartL;; mret (inl tt)
    else
      modify (setc_uart (mkUart (uart_tx_lock u)
        (<[Z.to_nat (uart_tx_w u mod UART_TX_BUF_SIZE) := u8 c]> (uart_tx_buf u))
        (u64 (uart_tx_w u + 1)) (uart_tx_r u)));;
      uartstart;;
      zoom uartL release;;
      mret (inr tt)) tt.

(** The wait for the transmitter. *)
Definition wait_tx : M cstate unit :=
  s ← getS;
  loop (S (length (u_idle (cs_dev s)))) (fun _ : unit =>
    idle ← tx_idle;
    mret (if (idle : bool) then inr tt else inl tt)) tt.

Definition uartputc_sync (c : Z) : M cstate unit :=
  zoom chartL push_off;;
  p ← gets cs_panicked;
  if negb (p =? 0) then fail ESpin else
  wait_tx;;
  write_thr c;;
  zoom chartL pop_off.

(** -1 when nothing is waiting *)
Definition uartgetc : M cstate Z := fun s =>
  let d := cs_dev s in
  match u_in d with
  | [] => Ret (-1) s
  | c :: l => Ret (u8 c) (setc_dev (mkUdev (u_out d) l (u_idle d) (u_regs d)) s)
  end.

(** ** console.c *)

Definition consputc (c : Z) : M cstate unit :=
  if c =? BACKSPACE then uartputc_sync 8;; uartputc_sync 32;; uartputc_sync 8
  else uartputc_sync c.

Definition c_copyin (user : bool) (a : Z) : M cstate (option Z) :=
  if user then m ← gets cs_umem; mret (if c_mapped a then Some (rd m a) else None)
  else m ← gets cs_kmem; mret (Some (rd m a)).

Definition c_copyout (user : bool) (a c : Z) : M cstate bool :=
  if user then
    if c_mapped a then modify (fun s => setc_umem (wr (cs_umem s) a c) s);; mret true else mret false
  else modify (fun s => setc_kmem (wr (cs_kmem s) a c) s);; mret true.

Definition consolewrite (user_src : bool) (src n : Z) : M cstate Z :=
  loop (S (Z.to_nat n)) (fun i =>
    if negb (i <? n) then mret (inr i) else
    c ← c_copyin user_src (u64 (src + i));
    match c with
    | None => mret (inr i)
    | Some c => uartputc c;; mret (inl (i + 1))
    end) 0.

(** The wait of [consoleread]: whether the process was killed. *)
Definition cons_wait : M cstate bool :=
  loop (S c_patience) (fun _ : unit =>
    c ← gets cs_cons;
    if cons_r c =? cons_w c then
      k ← gets cs_killed;
      if negb (k =? 0) then zoom consL release;; mret (inr true)
      else csleep WCons consL;; mret (inl tt)
    else mret (inr false)) tt.

(** One turn of [consoleread] with [n] bytes to go; the loop ends with [n], or
    with nothing when the lock has been released and -1 returned. *)
Definition consoleread_step (user_dst : bool) (target : Z) (st : Z * Z) : M cstate (Z * Z + option Z) :=
  let '(dst, n) := st in
  if negb (0 <? n) then mret (inr (Some n)) else
  killed ← cons_wait;
  if (killed : bool) then mret (inr None) else
  x ← gets cs_cons;
  let c := nth (Z.to_nat (cons_r x mod INPUT_BUF)) (cons_buf x) 0 in
  modify (fun s => setc_cons (set_r (u32 (cons_r x + 1)) (cs_cons s)) s);;
  if c =? CTRL_D then
    (if n <? target then modify (fun s => setc_cons (set_r (u32 (cons_r (cs_cons s) - 1)) (cs_cons s)) s)
     else skip);;
    mret (inr (Some n))
  else
    ok ← c_copyout user_dst dst c;
    if negb ok then mret (inr (Some n)) else
    if c =? NEWLINE then mret (inr (Some (n - 1))) else mret (inl (u64 (dst + 1), n - 1)).

Definition consoleread (user_dst : bool) (dst n : Z) : M cstate Z :=
  zoom consL acquire;;
  r ← loop (S (Z.to_nat n)) (consoleread_step user_dst n) (dst, n);
  match r with
  | None => mret (-1)
  | Some k => zoom consL release;; mret (n - k)
  end.

(** [case C('U')] *)
Definition kill_line : M cstate unit :=
  loop (S (Z.to_nat INPUT_BUF)) (fun _ : unit =>
    x ← gets cs_cons;
    if negb (cons_e x =? cons_w x) &&
       negb (nth (Z.to_nat (u32 (cons_e x - 1) mod INPUT_BUF)) (cons_buf x) 0 =? NEWLINE) then
      modify (fun s => setc_cons (set_e (u32 (cons_e x - 1)) (cs_cons s)) s);;
      consputc BACKSPACE;;
      mret (inl tt)
    else mret (inr tt)) tt.

(** [default:] *)
Definition insert_char (c : Z) : M cstate unit :=
  x ← gets cs_cons;
  if negb (c =? 0) && (u32 (cons_e x - cons_r x) <? INPUT_BUF) then
    let c := if c =? CR then NEWLINE else c in
    consputc c;;
    x ← gets cs_cons;
    modify (fun s => setc_cons (set_e (u32 (cons_e x + 1))
      (set_buf (<[Z.to_nat (cons_e x mod INPUT_BUF) := u8 c]> (cons_buf x)) x)) s);;
    x ← gets cs_cons;
    if (c =? NEWLINE) || (c =? CTRL_D) || (cons_e x =? u32 (cons_r x + INPUT_BUF)) then
      modify (fun s => setc_cons (set_w (cons_e x) (cs_cons s)) s);;
      wake WCons
    else skip
  else skip.

Definition consoleintr (c : Z) : M cstate unit :=
  zoom consL acquire;;
  (if c =? CTRL_P then procdump
   else if c =? CTRL_U then kill_line
   else if (c =? CTRL_H) || (c =? DEL) then
     x ← gets cs_cons;
     if negb (cons_e x =? cons_w x) then
       modify (fun s => setc_cons (set_e (u32 (cons_e x - 1)) (cs_cons s)) s);;
       consputc BACKSPACE
     else skip
   else insert_char c);;
  zoom consL release.

Definition consoleinit : M cstate unit :=
  zoom consL (zoom lsnd (initlock (strlit "cons")));;
  uartinit.

Definition uartintr : M cstate unit :=
  s ← getS;
  loop (S (length (u_in (cs_dev s)))) (fun _ : unit =>
    c ← uartgetc;
    if c =? -1 then mret (inr tt) else consoleintr c;; mret (inl tt)) tt;;
  zoom uartL acquire;;
  uartstart;;
  zoom uartL release.

End console.
