(* ===== verification/ConsoleLogic.v ===== *)
(** * The line discipline

    [consoleintr] as an editor of the input line, over the ring that
    [consoleread] consumes; [uartputc] and [uartstart] as a queue of the bytes
    to send. *)
From stdpp Require Import base gmap strings numbers option list.
From S2P Require Import Prelude Layout Machine Memory Kernel Demo FsState Sleeplock Bio Ring Console.
Open Scope Z_scope.

(** ** The abstract line *)

(** The bytes [consoleread] may take, and the line that is being typed. *)
Definition avail (x : cons_t) : list Z := window INPUT_BUF (cons_buf x) (cons_r x) (u32 (cons_w x - cons_r x)).
Definition line (x : cons_t) : list Z := window INPUT_BUF (cons_buf x) (cons_w x) (u32 (cons_e x - cons_w x)).

Record cons_ok (x : cons_t) : Prop := {
  ck_buf : length (cons_buf x) = Z.to_nat INPUT_BUF;
  ck_r : 0 <= cons_r x < 2 ^ 32;
  ck_w : 0 <= cons_w x < 2 ^ 32;
  ck_e : 0 <= cons_e x < 2 ^ 32;
  ck_fill : u32 (cons_w x - cons_r x) + u32 (cons_e x - cons_w x) <= INPUT_BUF;
  ck_line : NEWLINE ∉ line x;
  ck_lock : lock_free (cons_lock x)
}.

Definition is_erase (c : Z) : bool := (c =? CTRL_H) || (c =? DEL).

(** What a character does to the pair, and what it echoes. *)
Definition edit (c : Z) (a l : list Z) : list Z * list Z :=
  if c =? CTRL_U then (a, [])
  else if is_erase c then (a, take (length l - 1) l)
  else if negb (c =? 0) && (Z.of_nat (length a + length l) <? INPUT_BUF) then
    let c := if c =? CR then NEWLINE else c in
    if (c =? NEWLINE) || (c =? CTRL_D) || (Z.of_nat (length a + length l) + 1 =? INPUT_BUF)
    then (a ++ l ++ [c], []) else (a, l ++ [c])
  else (a, l).

Definition rubout : list Z := [8; 32; 8].
Definition echo (c : Z) (a l : list Z) : list Z :=
  if c =? CTRL_U then concat (replicate (length l) rubout)
  else if is_erase c then if bool_decide (l = []) then [] else rubout
  else if negb (c =? 0) && (Z.of_nat (length a + length l) <? INPUT_BUF) then
    [if c =? CR then NEWLINE else c]
  else [].

Lemma input_div : (INPUT_BUF | 2 ^ 32).
Proof. by exists (2 ^ 25). Qed.

Lemma u32_nonneg x : 0 <= u32 x.
Proof. unfold u32. by apply Z.mod_pos_bound. Qed.

Lemma length_avail x : Z.of_nat (length (avail x)) = u32 (cons_w x - cons_r x).
Proof. unfold avail. rewrite length_window. pose proof (u32_nonneg (cons_w x - cons_r x)). lia. Qed.
Lemma length_line x : Z.of_nat (length (line x)) = u32 (cons_e x - cons_w x).
Proof. unfold line. rewrite length_window. pose proof (u32_nonneg (cons_e x - cons_w x)). lia. Qed.

(** The counters as distances from [r]. *)
Lemma cons_dist x :
  cons_ok x ->
  u32 (cons_e x - cons_r x) = u32 (cons_w x - cons_r x) + u32 (cons_e x - cons_w x) /\
  (cons_e x =? cons_w x) = bool_decide (line x = []).
Proof.
  intros [H1 H2 H3 H4 H5 _ _]. change INPUT_BUF with 128 in *. split; [wrap32|].
  pose proof (length_line x) as Hl. case_bool_decide as Hq.
  - rewrite Hq in Hl. cbn in Hl. apply Z.eqb_eq. wrap32.
  - apply Z.eqb_neq. intros He. destruct (line x); [done|]. cbn [length] in Hl. wrap32.
Qed.

(** ** Erasing *)

Definition erased (x : cons_t) : cons_t := set_e (u32 (cons_e x - 1)) x.

Lemma erased_spec x :
  cons_ok x -> line x <> [] ->
  cons_ok (erased x) /\ avail (erased x) = avail x /\
  line x = line (erased x) ++ [nth (Z.to_nat (u32 (cons_e x - 1) mod INPUT_BUF)) (cons_buf x) 0].
Proof.
  intros Hok Hne. pose proof Hok as [H1 H2 H3 H4 H5 H6 H7].
  assert (Hpos : 0 < u32 (cons_e x - cons_w x)).
  { rewrite <- length_line. destruct (line x); [done|]. simpl. lia. }
  assert (Hlen : u32 (u32 (cons_e x - 1) - cons_w x) = u32 (cons_e x - cons_w x) - 1).
  { change INPUT_BUF with 128 in *. wrap32. }
  assert (Hline : line x = line (erased x) ++ [nth (Z.to_nat (u32 (cons_e x - 1) mod INPUT_BUF)) (cons_buf x) 0]).
  { unfold line. cbn [erased set_e cons_e cons_w cons_buf]. rewrite Hlen.
    replace (u32 (cons_e x - cons_w x)) with ((u32 (cons_e x - cons_w x) - 1) + 1) at 1 by lia.
    rewrite window_app, window_1 by lia. do 4 f_equal.
    rewrite <- (mod_ring INPUT_BUF (2 ^ 32) input_div (cons_w x + _)). f_equal.
    fold (u32 (cons_w x + (u32 (cons_e x - cons_w x) - 1))). change INPUT_BUF with 128 in *. wrap32. }
  split; [|by split].
  split; cbn [erased set_e cons_buf cons_r cons_w cons_e cons_lock]; try done.
  - unfold u32. by apply Z.mod_pos_bound.
  - lia.
  - intros Hin. apply H6. rewrite Hline. apply elem_of_app. by left.
Qed.

(** ** Inserting *)

Definition inserted (c : Z) (x : cons_t) : cons_t :=
  set_e (u32 (cons_e x + 1)) (set_buf (<[Z.to_nat (cons_e x mod INPUT_BUF) := u8 c]> (cons_buf x)) x).

Lemma inserted_spec c x :
  cons_ok x -> Z.of_nat (length (avail x) + length (line x)) < INPUT_BUF -> 0 <= c < 256 ->
  avail (inserted c x) = avail x /\ line (inserted c x) = line x ++ [c] /\
  (c <> NEWLINE -> cons_ok (inserted c x)) /\
  cons_ok (set_w (cons_e (inserted c x)) (inserted c x)) /\
  avail (set_w (cons_e (inserted c x)) (inserted c x)) = avail x ++ line x ++ [c] /\
  line (set_w (cons_e (inserted c x)) (inserted c x)) = [].
Proof.
  intros Hok Hroom Hc. pose proof Hok as [H1 H2 H3 H4 H5 H6 H7].
  rewrite Nat2Z.inj_add, length_avail, length_line in Hroom.
  assert (Hu8 : u8 c = c) by (unfold u8; by rewrite Z.mod_small).
  pose proof (u32_nonneg (cons_w x - cons_r x)). pose proof (u32_nonneg (cons_e x - cons_w x)).
  assert (He : cons_e x mod INPUT_BUF = (cons_w x + u32 (cons_e x - cons_w x)) mod INPUT_BUF).
  { rewrite <- (mod_ring INPUT_BUF (2 ^ 32) input_div (cons_w x + _)). f_equal.
    fold (u32 (cons_w x + u32 (cons_e x - cons_w x))). change INPUT_BUF with 128 in *. wrap32. }
  assert (He' : cons_e x mod INPUT_BUF =
    (cons_r x + (u32 (cons_w x - cons_r x) + u32 (cons_e x - cons_w x))) mod INPUT_BUF).
  { rewrite <- (mod_ring INPUT_BUF (2 ^ 32) input_div (cons_r x + _)). f_equal.
    fold (u32 (cons_r x + (u32 (cons_w x - cons_r x) + u32 (cons_e x - cons_w x)))).
    change INPUT_BUF with 128 in *. wrap32. }
  assert (Ha : avail (inserted c x) = avail x).
  { unfold avail. cbn [inserted set_e set_buf cons_r cons_w cons_buf]. rewrite He'.
    apply window_insert_out; done || lia. }
  assert (Hlen : u32 (u32 (cons_e x + 1) - cons_w x) = u32 (cons_e x - cons_w x) + 1).
  { change INPUT_BUF with 128 in *. wrap32. }
  assert (Hl : line (inserted c x) = line x ++ [c]).
  { unfold line. cbn [inserted set_e set_buf cons_e cons_w cons_buf]. rewrite Hlen, He, Hu8.
    apply window_snoc; done || lia. }
  assert (Hwr : u32 (u32 (cons_e x + 1) - cons_r x) = u32 (cons_w x - cons_r x) + (u32 (cons_e x - cons_w x) + 1)).
  { change INPUT_BUF with 128 in *. wrap32. }
  assert (Hz : u32 (u32 (cons_e x + 1) - u32 (cons_e x + 1)) = 0) by (by rewrite Z.sub_diag).
  assert (Hl0 : line (set_w (cons_e (inserted c x)) (inserted c x)) = []).
  { unfold line. cbn [inserted set_e set_buf set_w cons_e cons_w cons_buf]. rewrite Hz. done. }
  assert (Hin32 : 0 <= u32 (cons_e x + 1) < 2 ^ 32) by (unfold u32; by apply Z.mod_pos_bound).
  split; [done|]. split; [done|]. split; [|split; [|split; [|done]]].
  - intros Hn. split; cbn [inserted set_e set_buf cons_buf cons_r cons_w cons_e cons_lock]; try done.
    + by rewrite length_insert.
    + lia.
    + rewrite Hl, elem_of_app, list_elem_of_singleton. naive_solver.
  - split; cbn [inserted set_e set_buf set_w cons_buf cons_r cons_w cons_e cons_lock]; try done.
    + by rewrite length_insert.
    + rewrite Hz, Hwr. lia.
    + assert (Hno : NEWLINE ∉ line (set_w (cons_e (inserted c x)) (inserted c x)))
        by (rewrite Hl0; apply not_elem_of_nil). exact Hno.
  - rewrite <- Hl, <- Ha. unfold avail, line.
    cbn [inserted set_e set_buf set_w cons_e cons_w cons_r cons_buf]. rewrite Hwr, Hlen.
    rewrite window_app by lia. f_equal.
    rewrite <- (window_mod INPUT_BUF (2 ^ 32) input_div _ (cons_r x + _)). f_equal.
    fold (u32 (cons_r x + u32 (cons_w x - cons_r x))). change INPUT_BUF with 128 in *. wrap32.
Qed.

(** ** The interrupt handler *)

Section specs.
Context `{im : Image} `{CW : ConsWorld}.

(** The hart keeps still under a [push_off] and [pop_off]. *)
Definition steady (h : hartst) : Prop := hart_ok h /\ balanced h = h.

Lemma steady_acquired h : hart_ok h -> steady (acquired h).
Proof.
  intros Hok. split; [by apply hart_ok_acquired|]. unfold balanced.
  apply upd_id; [by apply hart_ok_acquired|]. rewrite acquired_noff by done.
  pose proof (cur_noff_nonneg h Hok). destruct (Z.eqb_spec (c_noff (cur h) + 1) 0); [lia|done].
Qed.

(** The answers of LSR left after waiting for the transmitter. *)
Fixpoint drop_idle (l : list bool) : list bool :=
  match l with
  | [] => []
  | true :: l' => l'
  | false :: l' => drop_idle l'
  end.

Definition emit (c : Z) (s : cstate) : cstate :=
  let d := cs_dev s in
  setc_dev (mkUdev (u_out d ++ [u8 c]) (u_in d) (drop_idle (u_idle d)) (u_regs d)) s.

Lemma wait_tx_eq s :
  wait_tx s = Ret tt (setc_dev (mkUdev (u_out (cs_dev s)) (u_in (cs_dev s)) (drop_idle (u_idle (cs_dev s)))
    (u_regs (cs_dev s))) s).
Proof.
  unfold wait_tx. cbn [mbind M_bind getS]. destruct s as [h c u [o i l r] p k um km w]. simpl.
  induction l as [|[] l IH]; [done|done|]. cbn [length]. simpl. exact IH.
Qed.

Lemma uartputc_sync_eq c s :
  steady (cs_hart s) -> cs_panicked s = 0 -> uartputc_sync c s = Ret tt (emit c s).
Proof.
  intros [Hok Hb] Hp. apply wp_ret_eq. unfold uartputc_sync.
  apply wp_bind, wp_zoom. eapply wp_eq; [by apply push_off_eq|]. simpl.
  apply wp_bind, wp_gets. simpl. rewrite Hp. cbn [Z.eqb negb].
  apply wp_bind. eapply wp_eq; [apply wait_tx_eq|]. apply wp_bind, wp_modify.
  apply wp_zoom. pose proof (cur_noff_nonneg _ Hok). eapply wp_eq.
  - apply pop_off_eq; [by apply hart_ok_pushed|]. simpl. unfold pushed.
    rewrite cur_upd by (by apply hart_ok_sie_off). simpl. unfold cur in *. simpl. lia.
  - simpl. rewrite popped_pushed, Hb by done. split; [done|]. by destruct s.
Qed.

(** The bytes of [consputc]. *)
Definition putc_bytes (c : Z) : list Z := if c =? BACKSPACE then rubout else [c].
Definition emits (l : list Z) (s : cstate) : cstate := foldl (fun s c => emit c s) s l.

Lemma consputc_eq c s :
  steady (cs_hart s) -> cs_panicked s = 0 -> consputc c s = Ret tt (emits (putc_bytes c) s).
Proof.
  intros Hst Hp. unfold consputc, putc_bytes. destruct (c =? BACKSPACE); [|by apply uartputc_sync_eq].
  erewrite bind_ret by (by apply uartputc_sync_eq). erewrite bind_ret by (by apply uartputc_sync_eq).
  by apply uartputc_sync_eq.
Qed.

Lemma u_out_emits l s : (forall c, c ∈ l -> 0 <= c < 256) -> u_out (cs_dev (emits l s)) = u_out (cs_dev s) ++ l.
Proof.
  revert s. induction l as [|c l IH]; intros s Hl; simpl; [by rewrite app_nil_r|].
  rewrite IH by (intros x Hx; apply Hl; by apply list_elem_of_further). simpl.
  rewrite <- app_assoc. simpl. do 2 f_equal. unfold u8. rewrite Z.mod_small; [done|].
  apply Hl, list_elem_of_here.
Qed.

Lemma emits_app l1 l2 s : emits (l1 ++ l2) s = emits l2 (emits l1 s).
Proof. apply foldl_app. Qed.

Lemma emits_cons l x s : emits l (setc_cons x s) = setc_cons x (emits l s).
Proof. revert s. induction l as [|c l IH]; intros s; [done|]. simpl. by rewrite <- IH. Qed.

Lemma emits_same l s :
  cs_hart (emits l s) = cs_hart s /\ cs_panicked (emits l s) = cs_panicked s /\
  cs_cons (emits l s) = cs_cons s /\ cs_woken (emits l s) = cs_woken s.
Proof.
  revert s. induction l as [|c l IH]; intros s; [done|]. cbn [emits foldl]. destruct (IH (emit c s)) as (H1 & H2 & H3 & H4).
  unfold emits in *. by rewrite H1, H2, H3, H4.
Qed.

(** State [s] with console [x], its lock held. *)
Definition relk (l : spinlock) (x : cons_t) : cons_t := mkCons l (cons_buf x) (cons_r x) (cons_w x) (cons_e x).
Definition clk (x : cons_t) (s : cstate) : cstate :=
  setc_hart (acquired (cs_hart s)) (setc_cons (relk (held (cs_hart s) (cons_lock x)) x) s).

Lemma emits_clk l x s : emits l (clk x s) = clk x (emits l s).
Proof.
  destruct (emits_same l s) as (H1 & _). unfold clk. rewrite H1.
  assert (Hh : forall h t, emits l (setc_hart h t) = setc_hart h (emits l t)).
  { intros h. clear. induction l as [|c l IH]; intros t; [done|]. simpl. by rewrite <- IH. }
  by rewrite Hh, emits_cons.
Qed.

Lemma clk_consputc c x s Q :
  hart_ok (cs_hart s) -> cs_panicked s = 0 ->
  Q tt (clk x (emits (putc_bytes c) s)) -> wp (consputc c) Q (clk x s).
Proof.
  intros Hok Hp HQ. eapply wp_eq; [apply consputc_eq; [by apply steady_acquired|done]|].
  by rewrite emits_clk.
Qed.

Lemma clk_acquire s Q :
  hart_quiet (cs_hart s) -> lock_free (cons_lock (cs_cons s)) -> Q tt (clk (cs_cons s) s) ->
  wp (zoom consL acquire) Q s.
Proof. intros Hq Hf HQ. by eapply wp_lock. Qed.

Lemma clk_release x s Q :
  hart_quiet (cs_hart s) -> lock_free (cons_lock x) -> Q tt (setc_cons x s) ->
  wp (zoom consL release) Q (clk x s).
Proof.
  intros Hq Hf HQ. eapply (wp_unlock _ (cs_hart s) (cons_lock x)); [done|done|done|].
  simpl. destruct x, s. exact HQ.
Qed.

(** [k] times backspace, space, backspace *)
Definition rubouts (k : nat) : list Z := concat (replicate k rubout).

Lemma rubouts_snoc k : rubouts (S k) = rubouts k ++ rubout.
Proof. unfold rubouts. rewrite <- Nat.add_1_r, replicate_add, concat_app. done. Qed.

Lemma kill_line_spec x s Q :
  hart_ok (cs_hart s) -> cs_panicked s = 0 -> cons_ok x ->
  (forall x', cons_ok x' -> avail x' = avail x -> line x' = [] -> cons_r x' = cons_r x ->
     Q tt (clk x' (emits (rubouts (length (line x))) s))) ->
  wp kill_line Q (clk x s).
Proof.
  intros Hok Hp Hx HQ. unfold kill_line.
  apply (wp_loop _ (fun _ t => exists x' k, t = clk x' (emits (rubouts k) s) /\ cons_ok x' /\
      avail x' = avail x /\ cons_r x' = cons_r x /\ (length (line x') + k = length (line x))%nat)
    (fun _ t => length (line (cs_cons t)))).
  - intros [] t (x' & k & -> & Hx' & Ha & Hr & Hlen).
    destruct (emits_same (rubouts k) s) as (E1 & E2 & _ & _).
    destruct (cons_dist x' Hx') as [_ He].
    apply wp_bind, wp_gets. cbn [clk cs_cons setc_hart setc_cons relk cons_e cons_w cons_buf].
    rewrite He. case_bool_decide as Hl.
    + cbn [negb andb]. rewrite Hl in Hlen. cbn in Hlen. subst k. apply wp_ret. by apply HQ.
    + destruct (erased_spec x' Hx' Hl) as (Hx2 & Ha2 & Hl2).
      assert (Hnl : nth (Z.to_nat (u32 (cons_e x' - 1) mod INPUT_BUF)) (cons_buf x') 0 <> NEWLINE).
      { intros E. apply (ck_line _ Hx'). rewrite Hl2, E. apply elem_of_app. right. by apply list_elem_of_singleton. }
      rewrite (proj2 (Z.eqb_neq _ _) Hnl). cbn [negb andb]. apply wp_bind, wp_modify.
      change (setc_cons _ _) with (clk (erased x') (emits (rubouts k) s)).
      apply wp_bind, clk_consputc; [by rewrite E1|by rewrite E2|]. apply wp_ret.
      change (putc_bytes BACKSPACE) with rubout. rewrite <- emits_app, <- rubouts_snoc.
      assert (length (line x') = S (length (line (erased x')))).
      { rewrite Hl2, length_app. simpl. lia. }
      split; [|change (length (line (erased x')) < length (line x'))%nat; lia].
      exists (erased x'), (S k). split; [done|]. split; [done|]. split; [by rewrite Ha2|]. split; [done|lia].
  - change (length (line x) < S (Z.to_nat INPUT_BUF))%nat. pose proof (length_line x).
    destruct Hx. pose proof (u32_nonneg (cons_w x - cons_r x)). lia.
  - by exists x, 0%nat.
Qed.

(** The console at rest: nobody holds its lock, the machine has not panicked. *)
Record cons_rest (s : cstate) : Prop := {
  cr_hart : hart_quiet (cs_hart s);
  cr_panicked : cs_panicked s = 0;
  cr_cons : cons_ok (cs_cons s)
}.

(** Whether a character completes input for the reader. *)
Definition commits (c : Z) (a l : list Z) : bool :=
  negb (c =? CTRL_U) && negb (is_erase c) && negb (c =? 0) &&
  (Z.of_nat (length a + length l) <? INPUT_BUF) &&
  ((c =? CR) || (c =? NEWLINE) || (c =? CTRL_D) || (Z.of_nat (length a + length l) + 1 =? INPUT_BUF)).

Lemma insert_char_spec c x s Q :
  hart_ok (cs_hart s) -> cs_panicked s = 0 -> cons_ok x -> 0 <= c < 256 ->
  c <> CTRL_U -> is_erase c = false ->
  (forall x', cons_ok x' -> (avail x', line x') = edit c (avail x) (line x) -> cons_r x' = cons_r x ->
     Q tt ((if commits c (avail x) (line x) then fun t => setc_woken (WCons :: cs_woken t) t else id)
             (clk x' (emits (echo c (avail x) (line x)) s)))) ->
  wp (insert_char c) Q (clk x s).
Proof.
  intros Hok Hp Hx Hc HU HE HQ. unfold insert_char.
  unfold edit, echo, commits in HQ. rewrite (proj2 (Z.eqb_neq _ _) HU), HE in HQ. cbn [negb andb] in HQ.
  destruct (cons_dist x Hx) as [Hd _].
  apply wp_bind, wp_gets. cbn [clk cs_cons setc_hart setc_cons relk cons_e cons_r]. rewrite Hd.
  rewrite Nat2Z.inj_add, length_avail, length_line in HQ.
  set (room := _ <? INPUT_BUF) in *.
  destruct (negb (c =? 0) && room) eqn:Hroom; [|by apply wp_skip; apply HQ].
  apply andb_true_iff in Hroom as [Hc0 Hroom]. unfold room in *.
  apply Z.ltb_lt in Hroom. set (c' := if c =? CR then NEWLINE else c) in *.
  assert (Hc' : 0 <= c' < 256) by (unfold c'; by destruct (c =? CR)).
  destruct (inserted_spec c' x Hx) as (I1 & I2 & I3 & I4 & I5 & I6); [|done|].
  { rewrite Nat2Z.inj_add, length_avail, length_line. lia. }
  apply wp_bind, clk_consputc; [done|done|].
  assert (putc_bytes c' = [c']) as ->.
  { unfold putc_bytes. destruct (Z.eqb_spec c' BACKSPACE) as [E|]; [|done]. change BACKSPACE with 256 in E. lia. }
  apply wp_bind, wp_gets, wp_bind, wp_modify.
  match goal with |- context [wp _ _ ?t] => change t with (clk (inserted c' x) (emits [c'] s)) end.
  apply wp_bind, wp_gets.
  cbn [clk cs_cons setc_hart setc_cons relk cons_e cons_r inserted set_e set_buf].
  assert (Hfull : (u32 (cons_e x + 1) =? u32 (cons_r x + INPUT_BUF)) =
    (u32 (cons_w x - cons_r x) + u32 (cons_e x - cons_w x) + 1 =? INPUT_BUF)).
  { destruct Hx as [_ X1 X2 X3 X4 _ _]. apply eq_true_iff_eq. rewrite !Z.eqb_eq.
    change INPUT_BUF with 128 in *. wrap32. }
  rewrite Hfull.
  assert (Hcr : (c =? CR) || (c =? NEWLINE) || (c =? CTRL_D) = (c' =? NEWLINE) || (c' =? CTRL_D)).
  { unfold c'. destruct (Z.eqb_spec c CR) as [->|]; done. }
  rewrite Hcr in HQ. cbn [andb] in HQ.
  destruct ((c' =? NEWLINE) || (c' =? CTRL_D) || _) eqn:Hcom.
  - apply wp_bind, wp_modify, wp_modify.
    specialize (HQ (set_w (cons_e (inserted c' x)) (inserted c' x)) I4). rewrite I5, I6 in HQ.
    exact (HQ eq_refl eq_refl).
  - apply wp_skip, (HQ (inserted c' x)); [|by rewrite I1, I2|done].
    apply I3. intros E. rewrite E in Hcom. done.
Qed.

Lemma erase_spec x s Q :
  hart_ok (cs_hart s) -> cs_panicked s = 0 -> cons_ok x ->
  (forall x', cons_ok x' -> avail x' = avail x -> line x' = take (length (line x) - 1) (line x) ->
     cons_r x' = cons_r x ->
     Q tt (clk x' (emits (if bool_decide (line x = []) then [] else rubout) s))) ->
  wp (y ← gets cs_cons;
      if negb (cons_e y =? cons_w y) then
        modify (fun s => setc_cons (set_e (u32 (cons_e y - 1)) (cs_cons s)) s);; consputc BACKSPACE
      else skip) Q (clk x s).
Proof.
  intros Hok Hp Hx HQ. destruct (cons_dist x Hx) as [_ He].
  apply wp_bind, wp_gets. cbn [clk cs_cons setc_hart setc_cons relk cons_e cons_w]. rewrite He.
  case_bool_decide as Hl; cbn [negb].
  - apply wp_skip, (HQ x); [done|done|by rewrite Hl|done].
  - destruct (erased_spec x Hx Hl) as (Hx2 & Ha2 & Hl2). apply wp_bind, wp_modify.
    match goal with |- context [wp _ _ ?t] => change t with (clk (erased x) s) end.
    apply clk_consputc; [done|done|]. apply HQ; [done|done| |done].
    rewrite Hl2, length_app, Nat.add_sub, take_app_length. done.
Qed.

Lemma rubouts_bytes k b : b ∈ rubouts k -> 0 <= b < 256.
Proof.
  induction k as [|k IH]; [by intros H%elem_of_nil|]. change (rubouts (S k)) with (rubout ++ rubouts k).
  intros [H|H]%elem_of_app; [|auto].
  repeat (apply elem_of_cons in H as [->|H]; [lia|]). by apply elem_of_nil in H.
Qed.

Lemma echo_bytes c a l b : 0 <= c < 256 -> b ∈ echo c a l -> 0 <= b < 256.
Proof.
  intros Hc. unfold echo. destruct (c =? CTRL_U); [apply rubouts_bytes|].
  destruct (is_erase c); [case_bool_decide; [by intros ?%elem_of_nil|apply (rubouts_bytes 1)]|].
  destruct (negb (c =? 0) && _); [|by intros H%elem_of_nil].
  intros ->%list_elem_of_singleton. by destruct (c =? CR).
Qed.

(** C33: the console's line discipline.  The ring holds the bytes the reader may
    take followed by the line being typed.  For every character but control-P,
    [consoleintr] erases the line (control-U), erases its last character
    (control-H, delete), ignores NUL and anything that no longer fits, or
    appends the character, with carriage return as newline; a newline, a
    control-D or a full ring hands the line to the reader and wakes it up.
    The echo is the character, or backspace-space-backspace for every
    character erased.  This holds across the wrap-around of the counters. *)
Theorem consoleintr_edits c s :
  cons_rest s -> 0 <= c < 256 -> c <> CTRL_P ->
  let x := cs_cons s in
  wp (consoleintr c) (fun _ s' =>
    cons_rest s' /\ (avail (cs_cons s'), line (cs_cons s')) = edit c (avail x) (line x) /\
    cons_r (cs_cons s') = cons_r x /\
    u_out (cs_dev s') = u_out (cs_dev s) ++ echo c (avail x) (line x) /\
    cs_woken s' = (if commits c (avail x) (line x) then [WCons] else []) ++ cs_woken s) s.
Proof.
  intros [Hq Hp Hx] Hc HP x. pose proof Hq as [Hok _]. unfold consoleintr.
  apply wp_bind, clk_acquire; [done|apply Hx|]. fold x. apply wp_bind.
  set (e := echo c (avail x) (line x)).
  destruct (emits_same e s) as (E1 & E2 & E3 & E4).
  assert (Hend : forall x' w t, cons_ok x' -> (avail x', line x') = edit c (avail x) (line x) ->
    cons_r x' = cons_r x -> w = commits c (avail x) (line x) ->
    t = (if w then fun t => setc_woken (WCons :: cs_woken t) t else id) (clk x' (emits e s)) ->
    wp (zoom consL release) (fun _ s' =>
      cons_rest s' /\ (avail (cs_cons s'), line (cs_cons s')) = edit c (avail x) (line x) /\
      cons_r (cs_cons s') = cons_r x /\ u_out (cs_dev s') = u_out (cs_dev s) ++ e /\
      cs_woken s' = (if commits c (avail x) (line x) then [WCons] else []) ++ cs_woken s) t).
  { intros x' w t Hx' Hed Hr Hw ->. rewrite <- Hw.
    set (s1 := (if w then fun t => setc_woken (WCons :: cs_woken t) t else id) (emits e s)).
    assert (((if w then fun t => setc_woken (WCons :: cs_woken t) t else id) (clk x' (emits e s))) = clk x' s1)
      as -> by (unfold s1; by destruct w).
    assert (Hs1 : cs_hart s1 = cs_hart s /\ cs_panicked s1 = cs_panicked s /\
      u_out (cs_dev s1) = u_out (cs_dev s) ++ e /\ cs_woken s1 = (if w then [WCons] else []) ++ cs_woken s).
    { rewrite <- (u_out_emits e s) by (intros b; by apply echo_bytes). unfold s1. destruct w; simpl; by rewrite E1, E2, E4. }
    destruct Hs1 as (F1 & F2 & F3 & F4).
    apply clk_release; [by rewrite F1|apply Hx'|]. split; [|done]. split; simpl; [by rewrite F1|by rewrite F2|done]. }
  destruct (Z.eqb_spec c CTRL_P); [done|].
  destruct (Z.eqb_spec c CTRL_U) as [HU|HU].
  { apply kill_line_spec; [done|done|done|]. intros x' Hx' Ha Hl Hr.
    eapply (Hend x' false); [done| |done| |].
    - unfold edit. rewrite HU. cbn. by rewrite Ha, Hl.
    - unfold commits. by rewrite HU.
    - unfold e, echo. by rewrite HU. }
  fold (is_erase c). destruct (is_erase c) eqn:HE.
  { apply erase_spec; [done|done|done|]. intros x' Hx' Ha Hl Hr.
    eapply (Hend x' false); [done| |done| |].
    - unfold edit. rewrite (proj2 (Z.eqb_neq _ _) HU), HE. by rewrite Ha, Hl.
    - unfold commits. rewrite HE. by rewrite andb_false_r.
    - unfold e, echo. rewrite (proj2 (Z.eqb_neq _ _) HU), HE. done. }
  apply insert_char_spec; [done..|]. intros x' Hx' Hed Hr. by eapply (Hend x' _).
Qed.

End specs.

(** ** A concrete console: counters about to wrap, one character typed *)

Definition demo_cons_world : ConsWorld := {|
  c_env := fun _ s => s; c_patience := 0; c_mapped := fun _ => true; procdump := skip |}.

Definition demo_cons : cons_t := mkCons (mkLock 0 0 0) (replicate 128 97) (2 ^ 32 - 3) (2 ^ 32 - 1) 0.
Definition demo_cstate : cstate :=
  mkC demo_qhart demo_cons (mkUart (mkLock 0 0 0) (replicate 32 0) 0 0) (mkUdev [] [] [false; true] []) 0 0 ∅ ∅ [].

Lemma demo_cons_rest : cons_rest demo_cstate.
Proof.
  split; [apply demo_quiet|reflexivity|].
  split; [reflexivity|split; vm_compute; [discriminate|reflexivity]..|vm_compute; discriminate| |split; reflexivity].
  change (line (cs_cons demo_cstate)) with [97]. intros H%list_elem_of_singleton. discriminate H.
Qed.

Lemma consoleintr_edits_witness :
  wp (consoleintr (im := demo_image) (CW := demo_cons_world) CR) (fun _ s' =>
    avail (cs_cons s') = [97; 97; 97; NEWLINE] /\ line (cs_cons s') = [] /\ u_out (cs_dev s') = [NEWLINE] /\
    cs_woken s' = [WCons]) demo_cstate.
Proof.
  eapply wp_conseq.
  - apply (consoleintr_edits (CW := demo_cons_world) CR demo_cstate demo_cons_rest);
      [vm_compute; split; [discriminate|reflexivity]|discriminate].
  - intros [] s' (_ & H1 & _ & H2 & H3). change (edit CR _ _) with ([97; 97; 97; NEWLINE], @nil Z) in H1.
    injection H1 as -> ->. split; [reflexivity|]. split; [reflexivity|]. split; [exact H2|exact H3].
Defined.
