(* ===== verification/Printf.v ===== *)
(** * Formatted output ([kernel/printf.c], [user/printf.c])

    The bytes a call prints, as a function of the format and of the variadic
    arguments, and the kernel's [printf] and [panic] over the console driver.
    A [va_list] is the words it walks over, [ap 0], [ap 1], ...: reading past
    the arguments that were passed reads whatever word is there.  [str] gives
    the bytes before the NUL at an address. *)
From stdpp Require Import base gmap strings numbers option list.
From S2P Require Import Prelude Layout Machine Memory Kernel Demo FsState Console.
Open Scope Z_scope.

(** The string literal (null), for a null string. *)
Definition null_str : list Z := [40; 110; 117; 108; 108; 41].

(** [digits[x]], with the letters lower or upper case *)
Definition digit (upper : bool) (x : Z) : Z :=
  if x <? 10 then 48 + x else (if upper then 65 else 97) + (x - 10).

(** [do buf[i++] = digits[x % base]; while((x /= base) != 0)]: the digits,
    least significant first.  The buffer has 16 places. *)
Fixpoint itoa (fuel : nat) (base x : Z) : list Z :=
  match fuel with
  | O => []
  | S fuel' => x mod base :: (if x / base =? 0 then [] else itoa fuel' base (x / base))
  end.

(** [printint] of both files: the sign is printed when [sign] and [xx] is
    negative. *)
Definition printint (upper : bool) (xx base : Z) (sign : bool) : list Z :=
  let neg := sign && (xx <? 0) in
  let x := u32 (if neg then - xx else xx) in
  (if neg then [45] else []) ++ rev (digit upper <$> itoa 16 base x).

(** [digits[x >> 60]; x <<= 4], [n] times *)
Fixpoint hexdigits (upper : bool) (n : nat) (x : Z) : list Z :=
  match n with
  | O => []
  | S n' => digit upper (Z.shiftr x 60) :: hexdigits upper n' (u64 (Z.shiftl x 4))
  end.

Definition printptr (upper : bool) (x : Z) : list Z := [48; 120] ++ hexdigits upper 16 x.

(** The rest of a [va_list] after one argument. *)
Definition va_next (ap : nat -> Z) : nat -> Z := fun i => ap (S i).

Section printf.
Variable str : Z -> list Z.

(** [s = va_arg(ap, char* )], with the null pointer replaced *)
Definition str_arg (p : Z) : list Z := if p =? 0 then null_str else str p.

(** The loop of the kernel's [printf]. *)
Fixpoint kprintf (fmt : list Z) (ap : nat -> Z) : list Z :=
  match fmt with
  | [] => []
  | c :: f =>
      if negb (c =? 37) then c :: kprintf f ap else
      match f with
      | [] => []
      | c :: f =>
          if c =? 100 then printint false (i32 (ap 0%nat)) 10 true ++ kprintf f (va_next ap)
          else if c =? 120 then printint false (i32 (ap 0%nat)) 16 true ++ kprintf f (va_next ap)
          else if c =? 112 then printptr false (ap 0%nat) ++ kprintf f (va_next ap)
          else if c =? 115 then str_arg (ap 0%nat) ++ kprintf f (va_next ap)
          else if c =? 37 then 37 :: kprintf f ap
          else 37 :: c :: kprintf f ap
      end
  end.

(** [vprintf] of the user library: [state] is the pending percent sign. *)
Fixpoint vprintf (state : bool) (fmt : list Z) (ap : nat -> Z) : list Z :=
  match fmt with
  | [] => []
  | c :: f =>
      if negb state then
        if c =? 37 then vprintf true f ap else c :: vprintf false f ap
      else if c =? 100 then printint true (i32 (ap 0%nat)) 10 true ++ vprintf false f (va_next ap)
      else if c =? 108 then printint true (i32 (ap 0%nat)) 10 false ++ vprintf false f (va_next ap)
      else if c =? 120 then printint true (i32 (ap 0%nat)) 16 false ++ vprintf false f (va_next ap)
      else if c =? 112 then printptr true (ap 0%nat) ++ vprintf false f (va_next ap)
      else if c =? 115 then str_arg (ap 0%nat) ++ vprintf false f (va_next ap)
      else if c =? 99 then u8 (ap 0%nat) :: vprintf false f (va_next ap)
      else if c =? 37 then c :: vprintf false f ap
      else 37 :: c :: vprintf false f ap
  end.

End printf.

(** [pr], beside the console. *)
Record pstate := mkP { pr_lock : spinlock; pr_locking : Z; pr_cons : cstate }.
Definition prL : lens pstate (hartst * spinlock) :=
  Lens (fun s => (cs_hart (pr_cons s), pr_lock s))
       (fun p s => mkP p.2 (pr_locking s) (setc_hart p.1 (pr_cons s))).
Definition pconsL : lens pstate cstate :=
  Lens pr_cons (fun c s => mkP (pr_lock s) (pr_locking s) c).
Definition set_locking (v : Z) : M pstate unit := modify (fun s => mkP (pr_lock s) v (pr_cons s)).

Section kernel.
Context `{im : Image} `{CW : ConsWorld}.
Variable str : Z -> list Z.

(** [printf] of a format that is not the null pointer (no caller passes one). *)
Definition printf (fmt : list Z) (ap : nat -> Z) : M pstate unit :=
  locking ← gets pr_locking;
  (if negb (locking =? 0) then zoom prL acquire else mret tt);;
  forM (kprintf str fmt ap) (fun c => zoom pconsL (consputc c));;
  (if negb (locking =? 0) then zoom prL release else mret tt).

Definition panic_str : list Z := [112; 97; 110; 105; 99; 58; 32].

(** [panic]: the message is itself a format, and nothing is passed to it. *)
Definition panic (msg : list Z) (ap : nat -> Z) : M pstate unit :=
  set_locking 0;;
  printf panic_str ap;;
  printf msg ap;;
  printf [NEWLINE] ap;;
  modify (fun s => let c := pr_cons s in
    mkP (pr_lock s) (pr_locking s)
      (mkC (cs_hart c) (cs_cons c) (cs_uart c) (cs_dev c) 1 (cs_killed c) (cs_umem c) (cs_kmem c) (cs_woken c)));;
  fail ESpin.

Definition printfinit : M pstate unit :=
  zoom prL (zoom lsnd (initlock (strlit "pr")));; set_locking 1.

End kernel.

(** [atoi] of the user library *)
Fixpoint atoi_from (n : Z) (s : list Z) : Z :=
  match s with
  | [] => n
  | c :: s' => if (48 <=? c) && (c <=? 57) then atoi_from (i32 (n * 10 + c - 48)) s' else n
  end.
Definition atoi (s : list Z) : Z := atoi_from 0 s.

(** ** Numbers *)

(** The value of a list of digits, most significant first. *)
Definition value (base : Z) (l : list Z) : Z := foldl (fun n d => n * base + d) 0 l.

Lemma value_snoc base l d : value base (l ++ [d]) = value base l * base + d.
Proof. unfold value. by rewrite foldl_app. Qed.

Lemma itoa_spec base fuel x :
  2 <= base -> 0 <= x < base ^ Z.of_nat fuel -> (0 < fuel)%nat ->
  let l := rev (itoa fuel base x) in
  value base l = x /\ (forall d, d ∈ l -> 0 <= d < base) /\ (length l <= fuel)%nat /\
  (l = [0] \/ exists d l', l = d :: l' /\ d <> 0).
Proof.
  intros Hb. revert x. induction fuel as [|fuel IH]; intros x Hx Hf; [lia|]. cbn [itoa rev].
  pose proof (Z.div_mod x base ltac:(lia)). pose proof (Z.mod_pos_bound x base ltac:(lia)).
  destruct (Z.eqb_spec (x / base) 0) as [Hq|Hq].
  - cbn [rev app]. assert (x mod base = x) by lia. split; [unfold value; simpl; lia|].
    split; [|split; [simpl; lia|]].
    + intros d Hd%list_elem_of_singleton. lia.
    + destruct (decide (x mod base = 0)) as [->|Hne]; [by left|]. right. by exists (x mod base), [].
  - assert (Hdiv : 0 <= x / base < base ^ Z.of_nat fuel).
    { split; [apply Z.div_pos; lia|]. apply Z.div_lt_upper_bound; [lia|].
      rewrite Nat2Z.inj_succ, Z.pow_succ_r in Hx by lia. lia. }
    destruct fuel as [|fuel]; [simpl in Hdiv; lia|].
    destruct (IH (x / base) Hdiv ltac:(lia)) as (Hv & Hd & Hl & Hz).
    set (l := rev (itoa (S fuel) base (x / base))) in *.
    split; [rewrite value_snoc, Hv; lia|]. split; [|split].
    + intros d [Hin|Hin%list_elem_of_singleton]%elem_of_app; [auto|lia].
    + rewrite length_app. simpl. lia.
    + right. destruct Hz as [Hz|(d & l' & -> & Hne)].
      * rewrite Hz in Hv. unfold value in Hv. simpl in Hv. lia.
      * by exists d, (l' ++ [x mod base]).
Qed.

(** A number of [k] digits is less than [base^k]. *)
Lemma itoa_length base fuel x k :
  2 <= base -> 0 <= x < base ^ Z.of_nat k -> (0 < k)%nat -> (length (itoa fuel base x) <= k)%nat.
Proof.
  intros Hb. revert x k. induction fuel as [|fuel IH]; intros x k Hx Hk; [simpl; lia|]. cbn [itoa length].
  destruct (Z.eqb_spec (x / base) 0) as [Hq|Hq]; [simpl; lia|].
  destruct k as [|[|k]]; [lia| |].
  - rewrite Z.pow_1_r in Hx. rewrite Z.div_small in Hq by lia. done.
  - assert (length (itoa fuel base (x / base)) <= S k)%nat; [|lia]. apply IH; [|lia].
    split; [apply Z.div_pos; lia|]. apply Z.div_lt_upper_bound; [lia|].
    rewrite (Nat2Z.inj_succ (S k)), Z.pow_succ_r in Hx by lia. lia.
Qed.

Lemma u32_abs xx : - 2 ^ 31 <= xx < 2 ^ 31 -> u32 (if xx <? 0 then - xx else xx) = Z.abs xx.
Proof.
  intros H. destruct (Z.ltb_spec xx 0); rewrite u32_small by lia; lia.
Qed.

(** The digits of [%d]: decimal, without leading zeros, at most ten of them. *)
Lemma printint_decimal upper xx :
  - 2 ^ 31 <= xx < 2 ^ 31 ->
  exists ds, printint upper xx 10 true = (if xx <? 0 then [45] else []) ++ (digit upper <$> ds) /\
    value 10 ds = Z.abs xx /\ (forall d, d ∈ ds -> 0 <= d < 10) /\ (length ds <= 10)%nat /\
    (ds = [0] \/ exists d l, ds = d :: l /\ d <> 0).
Proof.
  intros H. exists (rev (itoa 16 10 (Z.abs xx))). unfold printint. cbn [andb].
  rewrite u32_abs by done. split; [f_equal; symmetry; apply (map_rev (digit upper))|].
  destruct (itoa_spec 10 16 (Z.abs xx)) as (H1 & H2 & H3 & H4); [lia|split; [lia|]|lia|].
  { change (10 ^ Z.of_nat 16) with 10000000000000000. lia. }
  split; [done|]. split; [done|]. split; [|done]. rewrite length_rev.
  apply itoa_length; [lia|split; [lia|]|lia]. change (10 ^ Z.of_nat 10) with 10000000000. lia.
Qed.

(** ** Reading a number back *)

Lemma atoi_digits upper n ds rest :
  0 <= n -> (forall d, d ∈ ds -> 0 <= d < 10) ->
  foldl (fun n d => n * 10 + d) n ds < 2 ^ 31 ->
  match rest with [] => True | c :: _ => c < 48 \/ 57 < c end ->
  atoi_from n ((digit upper <$> ds) ++ rest) = foldl (fun n d => n * 10 + d) n ds.
Proof.
  revert n. induction ds as [|d ds IH]; intros n Hn Hd Hlt Hr; cbn [fmap list_fmap app foldl] in *.
  - destruct rest as [|c rest]; [done|]. simpl.
    destruct (Z.leb_spec 48 c), (Z.leb_spec c 57); simpl; done || lia.
  - assert (Hmono : forall l m, 0 <= m -> (forall x, x ∈ l -> 0 <= x < 10) -> m <= foldl (fun n d => n * 10 + d) m l).
    { intros l. induction l as [|y l IHl]; intros m Hm Hl; simpl; [lia|].
      pose proof (Hl y (list_elem_of_here _ _)).
      transitivity (m * 10 + y); [lia|]. apply IHl; [lia|]. intros x Hx. apply Hl. by apply list_elem_of_further. }
    pose proof (Hd d (list_elem_of_here _ _)) as Hd0.
    assert (Hds : forall x, x ∈ ds -> 0 <= x < 10) by (intros x Hx; apply Hd; by apply list_elem_of_further).
    pose proof (Hmono ds (n * 10 + d) ltac:(lia) Hds).
    assert (digit upper d = 48 + d) as -> by (unfold digit; by rewrite (proj2 (Z.ltb_lt d 10)) by lia).
    cbn [atoi_from]. rewrite (proj2 (Z.leb_le 48 (48 + d))), (proj2 (Z.leb_le (48 + d) 57)) by lia. cbn [andb].
    replace (n * 10 + (48 + d) - 48) with (n * 10 + d) by lia.
    assert (i32 (n * 10 + d) = n * 10 + d) as ->.
    { unfold i32. change (2 ^ 31) with 2147483648 in *. change (2 ^ 32) with 4294967296.
      rewrite Z.mod_small by lia. lia. }
    by apply IH; [lia|..].
Qed.

(** [printf] and [atoi] are inverse on numbers.  For every non-negative
    [int], what [%d] prints is decimal without leading zeros, fits the
    sixteen-byte buffer of [printint] also for negative numbers and the least
    one, and [atoi] of it, whatever non-digit follows, is the number again. *)
Theorem printint_atoi_roundtrip upper xx rest :
  - 2 ^ 31 <= xx < 2 ^ 31 -> match rest with [] => True | c :: _ => c < 48 \/ 57 < c end ->
  (length (printint upper xx 10 true) <= 11)%nat /\
  (0 <= xx -> atoi (printint upper xx 10 true ++ rest) = xx).
Proof.
  intros Hx Hr. destruct (printint_decimal upper xx Hx) as (ds & -> & Hv & Hd & Hl & _). split.
  - rewrite length_app, length_fmap. destruct (xx <? 0); simpl; lia.
  - intros H0. rewrite (proj2 (Z.ltb_ge xx 0)) by lia. cbn [app]. unfold atoi.
    rewrite atoi_digits; [|lia|done|fold (value 10 ds); lia|done]. fold (value 10 ds). lia.
Qed.

Lemma printint_atoi_roundtrip_witness :
  (length (printint false 1024 10 true) <= 11)%nat /\ atoi (printint false 1024 10 true ++ [10]) = 1024.
Proof.
  destruct (printint_atoi_roundtrip false 1024 [10]) as [H1 H2]; [lia|lia|].
  split; [exact H1|apply H2; lia].
Defined.

(** ** The two printers agree *)

(** The conversions both printers render alike: all but the hexadecimal ones,
    whose letters and signs differ, and the two that only user code knows. *)
Definition common (c : Z) : bool := negb (c =? 120) && negb (c =? 112) && negb (c =? 108) && negb (c =? 99).
Fixpoint portable (fmt : list Z) : bool :=
  match fmt with
  | [] => true
  | c :: f => if negb (c =? 37) then portable f else
              match f with [] => true | c :: f => common c && portable f end
  end.

Lemma digit_upper u d : 0 <= d < 10 -> digit u d = 48 + d.
Proof. intros H. unfold digit. by rewrite (proj2 (Z.ltb_lt d 10)) by lia. Qed.

Lemma itoa_digits fuel x d : 0 <= x -> d ∈ itoa fuel 10 x -> 0 <= d < 10.
Proof.
  revert x. induction fuel as [|fuel IH]; intros x Hx; cbn [itoa]; [by intros ?%elem_of_nil|].
  intros [->|Hd]%elem_of_cons; [apply Z.mod_pos_bound; lia|].
  destruct (x / 10 =? 0); [by apply elem_of_nil in Hd|].
  apply (IH (x / 10)); [apply Z.div_pos; lia|done].
Qed.

Lemma printint_upper xx : printint true xx 10 true = printint false xx 10 true.
Proof.
  unfold printint. do 2 f_equal. apply list_fmap_ext. intros i d Hd%list_elem_of_lookup_2.
  apply itoa_digits in Hd; [by rewrite !digit_upper by done|apply Z.mod_pos_bound; lia].
Qed.

(** The kernel's [printf] and the user library's are written differently
    (one looks ahead after a percent sign, the other keeps it as a state), but
    print the same bytes for every format whose conversions both have in
    common, a lone percent sign at the end and unknown conversions included. *)
Theorem printf_agree str fmt ap :
  portable fmt = true -> vprintf str false fmt ap = kprintf str fmt ap.
Proof.
  remember (length fmt) as n eqn:Hn. assert (Hle : (length fmt <= n)%nat) by lia. clear Hn.
  revert fmt ap Hle. induction n as [|n IH]; intros [|c f] ap Hle Hp; try done; [simpl in Hle; lia|].
  cbn [portable vprintf kprintf negb] in *. destruct (Z.eqb_spec c 37) as [->|Hc]; cbn [negb] in *.
  2: { f_equal. apply IH; [simpl in Hle; lia|done]. }
  destruct f as [|c f]; [done|]. apply andb_prop in Hp as [Hc Hp]. cbn [vprintf negb].
  assert (Hrec : forall ap, vprintf str false f ap = kprintf str f ap) by (intros; apply IH; [simpl in Hle; lia|done]).
  unfold common in Hc. rewrite !andb_true_iff, !negb_true_iff in Hc. destruct Hc as [[[Hx Hpp] Hll] Hcc].
  rewrite Hx, Hpp, Hll, Hcc, printint_upper, !Hrec.
  destruct (c =? 100), (c =? 115); try done. destruct (Z.eqb_spec c 37) as [->|]; done.
Qed.

Lemma printf_agree_witness :
  vprintf (fun _ => [104; 105]) false [37; 100; 32; 37; 115; 37] (fun i => if decide (i = 0%nat) then 42 else 1) =
  [52; 50; 32; 104; 105].
Proof. rewrite printf_agree by reflexivity. reflexivity. Defined.
