(* ===== verification/Virtio.v ===== *)
(** * The disk driver ([kernel/virtio_disk.c], [kernel/virtio.h])

    Driver and device share the descriptor table, the avail ring and the used
    ring; they are fields of [disk_t] here instead of bytes of [disk.pages].
    The registers of the device are its answers [v_read] and the log of the
    writes.  What the device and other threads do while a process sleeps is the
    parameter [v_env]. *)
From stdpp Require Import base gmap strings numbers option list.
From S2P Require Import Prelude Layout Machine Memory Kernel Demo Sleeplock.
Open Scope Z_scope.

Definition NUM : Z := 8.
Definition VRING_DESC_F_NEXT : Z := 1.
Definition VRING_DESC_F_WRITE : Z := 2.
Definition VIRTIO_BLK_T_IN : Z := 0.
Definition VIRTIO_BLK_T_OUT : Z := 1.

Definition VIRTIO_MMIO_MAGIC_VALUE : Z := 0x000.
Definition VIRTIO_MMIO_VERSION : Z := 0x004.
Definition VIRTIO_MMIO_DEVICE_ID : Z := 0x008.
Definition VIRTIO_MMIO_VENDOR_ID : Z := 0x00c.
Definition VIRTIO_MMIO_DEVICE_FEATURES : Z := 0x010.
Definition VIRTIO_MMIO_DRIVER_FEATURES : Z := 0x020.
Definition VIRTIO_MMIO_GUEST_PAGE_SIZE : Z := 0x028.
Definition VIRTIO_MMIO_QUEUE_SEL : Z := 0x030.
Definition VIRTIO_MMIO_QUEUE_NUM_MAX : Z := 0x034.
Definition VIRTIO_MMIO_QUEUE_NUM : Z := 0x038.
Definition VIRTIO_MMIO_QUEUE_PFN : Z := 0x040.
Definition VIRTIO_MMIO_QUEUE_NOTIFY : Z := 0x050.
Definition VIRTIO_MMIO_INTERRUPT_STATUS : Z := 0x060.
Definition VIRTIO_MMIO_INTERRUPT_ACK : Z := 0x064.
Definition VIRTIO_MMIO_STATUS : Z := 0x070.

Record virtq_desc := mkDesc { d_addr : Z; d_len : Z; d_flags : Z; d_next : Z }.
Record virtq_avail := mkAvail { av_idx : Z; av_ring : list Z }.
Record virtq_used := mkUsed { us_idx : Z; us_ring : list Z }.
Record virtio_blk_req := mkReq { r_type : Z; r_reserved : Z; r_sector : Z }.
(** [disk.info[i]]; the buffer by its address, 0 for none *)
Record vinfo := mkVInfo { i_b : Z; i_status : Z }.

(** [struct disk] *)
Record disk_t := mkDisk {
  v_desc : list virtq_desc;
  v_avail : virtq_avail;
  v_used : virtq_used;
  v_free : list Z;
  v_used_idx : Z;
  v_info : list vinfo;
  v_ops : list virtio_blk_req;
  vdisk_lock : spinlock
}.

(** The fields of [struct buf] the driver uses. *)
Record vbuf := mkVbuf { vb_disk : Z; vb_blockno : Z }.

(** [&disk.free[0]] and a buffer, as sleep channels *)
Inductive vchan := WFree | WBuf (b : Z).

Record vst := mkV {
  v_hart : hartst;
  v_disk : disk_t;
  v_bufs : gmap Z vbuf;
  v_regs : list (Z * Z);
  v_woken : list vchan
}.

Class VWorld := {
  v_env : vchan -> vst -> vst;
  v_patience : nat;
  v_read : Z -> vst -> Z;
  disk_addr : Z
}.

Definition setv_disk (d : disk_t) (s : vst) : vst := mkV (v_hart s) d (v_bufs s) (v_regs s) (v_woken s).
Definition setv_bufs (b : gmap Z vbuf) (s : vst) : vst := mkV (v_hart s) (v_disk s) b (v_regs s) (v_woken s).
Definition setd_desc x (d : disk_t) : disk_t :=
  mkDisk x (v_avail d) (v_used d) (v_free d) (v_used_idx d) (v_info d) (v_ops d) (vdisk_lock d).
Definition setd_avail x (d : disk_t) : disk_t :=
  mkDisk (v_desc d) x (v_used d) (v_free d) (v_used_idx d) (v_info d) (v_ops d) (vdisk_lock d).
Definition setd_free x (d : disk_t) : disk_t :=
  mkDisk (v_desc d) (v_avail d) (v_used d) x (v_used_idx d) (v_info d) (v_ops d) (vdisk_lock d).
Definition setd_used_idx x (d : disk_t) : disk_t :=
  mkDisk (v_desc d) (v_avail d) (v_used d) (v_free d) x (v_info d) (v_ops d) (vdisk_lock d).
Definition setd_info x (d : disk_t) : disk_t :=
  mkDisk (v_desc d) (v_avail d) (v_used d) (v_free d) (v_used_idx d) x (v_ops d) (vdisk_lock d).
Definition setd_ops x (d : disk_t) : disk_t :=
  mkDisk (v_desc d) (v_avail d) (v_used d) (v_free d) (v_used_idx d) (v_info d) x (vdisk_lock d).
Definition setd_lock x (d : disk_t) : disk_t :=
  mkDisk (v_desc d) (v_avail d) (v_used d) (v_free d) (v_used_idx d) (v_info d) (v_ops d) x.
Definition mod_disk (f : disk_t -> disk_t) : M vst unit := modify (fun s => setv_disk (f (v_disk s)) s).

Definition diskL : lens vst (hartst * spinlock) :=
  Lens (fun s => (v_hart s, vdisk_lock (v_disk s)))
       (fun p s => mkV p.1 (setd_lock p.2 (v_disk s)) (v_bufs s) (v_regs s) (v_woken s)).

Definition desc0 : virtq_desc := mkDesc 0 0 0 0.
Definition u16 (z : Z) : Z := z mod 2 ^ 16.

Section virtio.
Context `{im : Image} `{VW : VWorld}.

Definition v_wakeup (c : vchan) : M vst unit :=
  modify (fun s => mkV (v_hart s) (v_disk s) (v_bufs s) (v_regs s) (c :: v_woken s)).
Definition v_sleep (c : vchan) : M vst unit :=
  zoom diskL release;; modify (v_env c);; zoom diskL acquire.

(** [*R(r)] and [*R(r) = v] *)
Definition read_reg (r : Z) : M vst Z := gets (v_read r).
Definition write_vreg (r v : Z) : M vst unit :=
  modify (fun s => mkV (v_hart s) (v_disk s) (v_bufs s) (v_regs s ++ [(r, u32 v)]) (v_woken s)).

(** [features &= ~(1 << n)] *)
Definition drop_feature (n f : Z) : Z := Z.land f (Z.lnot (Z.shiftl 1 n)).

Definition virtio_disk_init : M vst unit :=
  zoom diskL (zoom lsnd (initlock (strlit "virtio_disk")));;
  magic ← read_reg VIRTIO_MMIO_MAGIC_VALUE;
  version ← read_reg VIRTIO_MMIO_VERSION;
  device ← read_reg VIRTIO_MMIO_DEVICE_ID;
  vendor ← read_reg VIRTIO_MMIO_VENDOR_ID;
  if negb (magic =? 0x74726976) || negb (version =? 1) || negb (device =? 2) || negb (vendor =? 0x554d4551)
  then panic "could not find virtio disk" else
  write_vreg VIRTIO_MMIO_STATUS 1;;
  write_vreg VIRTIO_MMIO_STATUS (Z.lor 1 2);;
  features ← read_reg VIRTIO_MMIO_DEVICE_FEATURES;
  write_vreg VIRTIO_MMIO_DRIVER_FEATURES
    (drop_feature 28 (drop_feature 29 (drop_feature 27 (drop_feature 12 (drop_feature 11
      (drop_feature 7 (drop_feature 5 features)))))));;
  write_vreg VIRTIO_MMIO_STATUS (Z.lor (Z.lor 1 2) 8);;
  write_vreg VIRTIO_MMIO_STATUS (Z.lor (Z.lor (Z.lor 1 2) 8) 4);;
  write_vreg VIRTIO_MMIO_GUEST_PAGE_SIZE PGSIZE;;
  write_vreg VIRTIO_MMIO_QUEUE_SEL 0;;
  max ← read_reg VIRTIO_MMIO_QUEUE_NUM_MAX;
  if max =? 0 then panic "virtio disk has no queue 0" else
  if max <? NUM then panic "virtio disk max queue too short" else
  write_vreg VIRTIO_MMIO_QUEUE_NUM NUM;;
  mod_disk (fun d => mkDisk (replicate 8 desc0) (mkAvail 0 (replicate 8 0)) (mkUsed 0 (replicate 8 0))
    (v_free d) (v_used_idx d) (v_info d) (v_ops d) (vdisk_lock d));;
  write_vreg VIRTIO_MMIO_QUEUE_PFN (Z.shiftr disk_addr PGSHIFT);;
  forM (seqZ 0 NUM) (fun i => mod_disk (fun d => setd_free (<[Z.to_nat i := 1]> (v_free d)) d)).

Definition alloc_desc : M vst Z :=
  r ← for_find (seqZ 0 NUM) (fun i =>
    f ← gets (fun s => nth (Z.to_nat i) (v_free (v_disk s)) 0);
    if negb (f =? 0) then
      mod_disk (fun d => setd_free (<[Z.to_nat i := 0]> (v_free d)) d);;
      mret (Some i)
    else mret None);
  mret (default (-1) r).

Definition set_desc (i : Z) (x : virtq_desc) : M vst unit :=
  mod_disk (fun d => setd_desc (<[Z.to_nat i := x]> (v_desc d)) d).
Definition get_desc (i : Z) (s : vst) : virtq_desc := nth (Z.to_nat i) (v_desc (v_disk s)) desc0.

(** A negative index is outside the array. *)
Definition free_desc (i : Z) : M vst unit :=
  if NUM <=? i then panic "free_desc 1" else
  if i <? 0 then fail (EFault i) else
  f ← gets (fun s => nth (Z.to_nat i) (v_free (v_disk s)) 0);
  if negb (f =? 0) then panic "free_desc 2" else
  set_desc i desc0;;
  mod_disk (fun d => setd_free (<[Z.to_nat i := 1]> (v_free d)) d);;
  v_wakeup WFree.

(** [while(1)]: a descriptor freed twice panics, so there are at most [NUM]
    turns. *)
Definition free_chain (i : Z) : M vst unit :=
  loop (S (Z.to_nat NUM)) (fun i =>
    d ← gets (get_desc i);
    free_desc i;;
    if negb (Z.land (d_flags d) VRING_DESC_F_NEXT =? 0) then mret (inl (d_next d)) else mret (inr tt)) i.

(** [idx[0..2]], or nothing for -1 *)
Definition alloc3_desc : M vst (option (Z * Z * Z)) :=
  i0 ← alloc_desc;
  if i0 <? 0 then mret None else
  i1 ← alloc_desc;
  if i1 <? 0 then free_desc i0;; mret None else
  i2 ← alloc_desc;
  if i2 <? 0 then free_desc i0;; free_desc i1;; mret None else
  mret (Some (i0, i1, i2)).

(** Addresses inside [disk], and of [b->data] *)
Definition ops_addr (i : Z) : Z := disk_addr + 8192 + 24 + 8 + 2 + 6 + 16 * NUM + 16 * i.
Definition status_addr (i : Z) : Z := disk_addr + 8192 + 24 + 8 + 2 + 6 + 16 * i + 8.
Definition data_addr (b : Z) : Z := b + 88.

(** The three descriptors of a request, and the book-keeping of it. *)
Definition format_chain (b : Z) (write : bool) (sector i0 i1 i2 : Z) : M vst unit :=
  mod_disk (fun d => setd_ops
    (<[Z.to_nat i0 := mkReq (if write then VIRTIO_BLK_T_OUT else VIRTIO_BLK_T_IN) 0 sector]> (v_ops d)) d);;
  set_desc i0 (mkDesc (ops_addr i0) 16 VRING_DESC_F_NEXT i1);;
  set_desc i1 (mkDesc (data_addr b) 1024
    (Z.lor (if write then 0 else VRING_DESC_F_WRITE) VRING_DESC_F_NEXT) i2);;
  mod_disk (fun d => let old := nth (Z.to_nat i0) (v_info d) (mkVInfo 0 0) in
    setd_info (<[Z.to_nat i0 := mkVInfo (i_b old) 0xff]> (v_info d)) d);;
  set_desc i2 (mkDesc (status_addr i0) 1 VRING_DESC_F_WRITE 0).

Definition set_bdisk (b v : Z) : M vst unit :=
  modify (fun s => setv_bufs (alter (fun x => mkVbuf v (vb_blockno x)) b (v_bufs s)) s).
Definition set_info_b (i b : Z) : M vst unit :=
  mod_disk (fun d => let old := nth (Z.to_nat i) (v_info d) (mkVInfo 0 0) in
    setd_info (<[Z.to_nat i := mkVInfo b (i_status old)]> (v_info d)) d).

(** [disk.avail->ring[disk.avail->idx % NUM] = i; disk.avail->idx += 1] *)
Definition push_avail (i : Z) : M vst unit :=
  mod_disk (fun d => let a := v_avail d in
    setd_avail (mkAvail (av_idx a) (<[Z.to_nat (av_idx a mod NUM) := i]> (av_ring a))) d);;
  mod_disk (fun d => let a := v_avail d in setd_avail (mkAvail (u16 (av_idx a + 1)) (av_ring a)) d).

(** From the descriptors taken to the notification of the device. *)
Definition submit (b : Z) (write : bool) (sector i0 i1 i2 : Z) : M vst unit :=
  format_chain b write sector i0 i1 i2;;
  set_bdisk b 1;;
  set_info_b i0 b;;
  push_avail i0;;
  write_vreg VIRTIO_MMIO_QUEUE_NOTIFY 0.

Definition virtio_disk_rw (b : Z) (write : bool) : M vst unit :=
  bno ← gets (fun s => vb_blockno (default (mkVbuf 0 0) (v_bufs s !! b)));
  let sector := u32 (bno * 2) in
  zoom diskL acquire;;
  '(i0, i1, i2) ← loop (S v_patience) (fun _ : unit =>
    r ← alloc3_desc;
    match r with
    | Some idx => mret (inr idx)
    | None => v_sleep WFree;; mret (inl tt)
    end) tt;
  submit b write sector i0 i1 i2;;
  loop (S v_patience) (fun _ : unit =>
    x ← gets (fun s => v_bufs s !! b);
    if vb_disk (default (mkVbuf 0 0) x) =? 1 then v_sleep (WBuf b);; mret (inl tt) else mret (inr tt)) tt;;
  set_info_b i0 0;;
  free_chain i0;;
  zoom diskL release.

(** One completion; [id] is the head of a chain. *)
Definition complete (id : Z) : M vst unit :=
  if negb ((0 <=? id) && (id <? NUM)) then fail (EFault id) else
  x ← gets (fun s => nth (Z.to_nat id) (v_info (v_disk s)) (mkVInfo 0 0));
  if negb (i_status x =? 0) then panic "virtio_disk_intr status" else
  set_bdisk (i_b x) 0;;
  v_wakeup (WBuf (i_b x));;
  mod_disk (fun d => setd_used_idx (u16 (v_used_idx d + 1)) d).

(** The entries the device has added when the interrupt is taken. *)
Definition virtio_disk_intr : M vst unit :=
  zoom diskL acquire;;
  st ← read_reg VIRTIO_MMIO_INTERRUPT_STATUS;
  write_vreg VIRTIO_MMIO_INTERRUPT_ACK (Z.land st 0x3);;
  s ← getS;
  let pending := u16 (us_idx (v_used (v_disk s)) - v_used_idx (v_disk s)) in
  loop (S (Z.to_nat pending)) (fun _ : unit =>
    d ← gets v_disk;
    if v_used_idx d =? us_idx (v_used d) then mret (inr tt) else
    complete (nth (Z.to_nat (v_used_idx d mod NUM)) (us_ring (v_used d)) 0);;
    mret (inl tt)) tt;;
  zoom diskL release.

End virtio.
