(* ===== verification/VirtioLogic.v ===== *)
(** * Theorems about the disk driver

    Descriptors are taken three at a time or not at all, a request the device
    sees is well formed, and its descriptors come back when it is done;
    [virtio_disk_intr] completes exactly the entries the device has added. *)
From stdpp Require Import base gmap strings numbers option list.
From S2P Require Import Prelude Layout Machine Memory Kernel Demo Sleeplock Ring Bio Virtio.
Open Scope Z_scope.

(** ** Invariant *)

Definition free_at (d : disk_t) (i : nat) : bool := negb (nth i (v_free d) 0 =? 0).

Record vdisk_ok (d : disk_t) : Prop := {
  vo_desc : length (v_desc d) = 8%nat;
  vo_free : length (v_free d) = 8%nat;
  vo_info : length (v_info d) = 8%nat;
  vo_ops : length (v_ops d) = 8%nat;
  vo_ring : length (av_ring (v_avail d)) = 8%nat;
  vo_idx : 0 <= av_idx (v_avail d) < 2 ^ 16;
  vo_bool : forall i, (i < 8)%nat -> free_at d i = true -> nth i (v_free d) 0 = 1;
  vo_zero : forall i, (i < 8)%nat -> free_at d i = true -> nth i (v_desc d) desc0 = desc0
}.

(** The free descriptors, in the order in which they are handed out. *)
Definition free_list (d : disk_t) : list nat := filter (fun i => free_at d i = true) (seq 0 8).

(** The descriptors [l] taken. *)
Definition taken (l : list nat) (d : disk_t) : disk_t :=
  setd_free (foldl (fun f i => <[i := 0]> f) (v_free d) l) d.

Section logic.
Context `{im : Image} `{VW : VWorld}.

Lemma elem_of_free_list d i : i ∈ free_list d <-> (i < 8)%nat /\ free_at d i = true.
Proof. unfold free_list. rewrite list_elem_of_filter, elem_of_seq. split; intros [? ?]; split; done || lia. Qed.

(** *** Taking a descriptor *)

Lemma filter_first {A} (P : A -> Prop) `{!forall x, Decision (P x)} l x l' :
  filter P l = x :: l' -> exists l1 l2, l = l1 ++ x :: l2 /\ (forall y, y ∈ l1 -> ~ P y) /\ P x.
Proof.
  induction l as [|a l IH]; [done|]. rewrite filter_cons. case_decide as Ha.
  - intros [= <- _]. exists [], l. split; [done|]. split; [by intros y ?%elem_of_nil|done].
  - intros Hl. destruct (IH Hl) as (l1 & l2 & -> & H1 & H2). exists (a :: l1), l2. split; [done|].
    split; [|done]. intros y [->|Hy]%elem_of_cons; auto.
Qed.

Lemma filter_all {A} (P : A -> Prop) `{!forall x, Decision (P x)} (l : list A) :
  (forall x, x ∈ l -> P x) -> filter P l = l.
Proof.
  induction l as [|a l IH]; intros Hl; [done|]. rewrite filter_cons, decide_True by (apply Hl, list_elem_of_here).
  f_equal. apply IH. intros x Hx. by apply Hl, list_elem_of_further.
Qed.

Lemma seqZ_of_seq : seqZ 0 NUM = Z.of_nat <$> seq 0 8.
Proof. done. Qed.

Lemma alloc_desc_none s Q : free_list (v_disk s) = [] -> Q (-1) s -> wp alloc_desc Q s.
Proof.
  intros Hf HQ. unfold alloc_desc. apply wp_bind.
  eapply wp_conseq; [apply (wp_for_find_none _ _ (fun s' => s' = s)); [|done]|].
  - intros y s' Hy ->. apply wp_bind, wp_gets. rewrite seqZ_of_seq in Hy.
    apply list_elem_of_fmap in Hy as (i & -> & Hi). apply elem_of_seq in Hi. rewrite Nat2Z.id.
    destruct (negb (nth i (v_free (v_disk s)) 0 =? 0)) eqn:E; [|by apply wp_ret].
    assert (Hin : i ∈ free_list (v_disk s)) by (apply elem_of_free_list; split; [lia|done]).
    rewrite Hf in Hin. by apply elem_of_nil in Hin.
  - intros r s' [-> ->]. by apply wp_ret.
Qed.

Lemma alloc_desc_first s i l Q :
  free_list (v_disk s) = i :: l -> Q (Z.of_nat i) (setv_disk (taken [i] (v_disk s)) s) -> wp alloc_desc Q s.
Proof.
  intros Hf HQ. unfold alloc_desc. apply wp_bind. rewrite seqZ_of_seq.
  apply filter_first in Hf as (l1 & l2 & -> & H1 & H2). rewrite fmap_app, fmap_cons.
  apply (wp_for_find_at _ _ _ _ (fun s' => s' = s)); [| |done].
  - intros y s' Hy ->. apply list_elem_of_fmap in Hy as (j & -> & Hj). apply wp_bind, wp_gets.
    rewrite Nat2Z.id. destruct (negb (nth j (v_free (v_disk s)) 0 =? 0)) eqn:E; [|by apply wp_ret].
    by destruct (H1 j Hj).
  - intros s' ->. apply wp_bind, wp_gets. rewrite Nat2Z.id. unfold free_at in H2. rewrite H2.
    apply wp_bind, wp_modify, wp_ret. split; [by eexists|]. by apply wp_ret.
Qed.

Lemma free_at_taken d i j :
  (i < length (v_free d))%nat -> free_at (taken [i] d) j = free_at d j && negb (bool_decide (j = i)).
Proof.
  intros Hi. unfold free_at, taken, setd_free. cbn [v_free foldl].
  destruct (decide (j = i)) as [->|Hne].
  - rewrite nth_insert_eq, bool_decide_true by done. by rewrite andb_false_r.
  - rewrite nth_insert_ne, bool_decide_false by done. by rewrite andb_true_r.
Qed.

Lemma free_first d i l : free_list d = i :: l -> (i < 8)%nat /\ free_at d i = true.
Proof. intros Hf. apply elem_of_free_list. rewrite Hf. apply list_elem_of_here. Qed.

Lemma free_list_taken d i l : vdisk_ok d -> free_list d = i :: l -> free_list (taken [i] d) = l.
Proof.
  intros Hok Hf. destruct (free_first _ _ _ Hf) as [Hi _].
  assert (Hnd : NoDup (i :: l)) by (rewrite <- Hf; apply NoDup_filter, NoDup_seq).
  apply NoDup_cons in Hnd as [Hni _].
  assert (free_list (taken [i] d) = filter (fun j => j <> i) (free_list d)) as ->.
  { unfold free_list. rewrite list_filter_filter. apply list_filter_iff. intros j.
    rewrite free_at_taken by (rewrite vo_free; done || lia). rewrite andb_true_iff, negb_true_iff, bool_decide_eq_false. tauto. }
  rewrite Hf, filter_cons, decide_False by (by intros H; apply H).
  apply filter_all. by intros j Hj ->.
Qed.

Lemma taken_ok d i : vdisk_ok d -> (i < 8)%nat -> vdisk_ok (taken [i] d).
Proof.
  intros [H1 H2 H3 H4 H5 H6 H7 H8] Hi. split; cbn [taken setd_free v_desc v_free v_info v_ops v_avail foldl]; try done.
  - by rewrite length_insert.
  - intros j Hj. rewrite free_at_taken by lia. intros [Hf Hn%negb_true_iff%bool_decide_eq_false]%andb_prop.
    rewrite nth_insert_ne by done. by apply H7.
  - intros j Hj. rewrite free_at_taken by lia. intros [Hf _]%andb_prop. by apply H8.
Qed.

(** *** Giving a descriptor back *)

Definition released (i : nat) (d : disk_t) : disk_t :=
  setd_free (<[i := 1]> (v_free d)) (setd_desc (<[i := desc0]> (v_desc d)) d).

(** The state with disk [d] and [n] more wakeups of those who wait for descriptors. *)
Definition woke (n : nat) (d : disk_t) (s : vst) : vst :=
  mkV (v_hart s) d (v_bufs s) (v_regs s) (replicate n WFree ++ v_woken s).

Lemma wp_free_desc s n d i Q :
  (i < 8)%nat -> free_at d i = false -> Q tt (woke (S n) (released i d) s) ->
  wp (free_desc (Z.of_nat i)) Q (woke n d s).
Proof.
  intros Hi Hf HQ. unfold free_desc. unfold NUM.
  destruct (Z.leb_spec 8 (Z.of_nat i)); [lia|]. destruct (Z.ltb_spec (Z.of_nat i) 0); [lia|].
  apply wp_bind, wp_gets. rewrite Nat2Z.id. cbn [woke v_disk]. unfold free_at in Hf. rewrite Hf.
  apply wp_bind, wp_modify, wp_bind, wp_modify, wp_modify. rewrite !Nat2Z.id. exact HQ.
Qed.

Lemma released_taken d i :
  vdisk_ok d -> (i < 8)%nat -> free_at d i = true -> released i (taken [i] d) = d.
Proof.
  intros Hok Hi Hf. pose proof (vo_bool d Hok i Hi Hf) as H1. pose proof (vo_zero d Hok i Hi Hf) as H0.
  unfold released, taken. destruct d as [ds av us fr ui inf op lk]. unfold setd_free, setd_desc. cbn in *.
  pose proof (vo_free _ Hok) as Hl. pose proof (vo_desc _ Hok) as Hl'. cbn in Hl, Hl'.
  rewrite list_insert_insert_eq, !list_insert_id; [done|..].
  - rewrite nth_lookup in H1. destruct (lookup_lt_is_Some_2 fr i) as [x Hx]; [lia|]. rewrite Hx in *. simpl in H1. by subst.
  - rewrite nth_lookup in H0. destruct (lookup_lt_is_Some_2 ds i) as [x Hx]; [lia|]. rewrite Hx in *. simpl in H0. by subst.
Qed.

Lemma taken_ne d i j : i <> j -> (i < length (v_free d))%nat -> (j < length (v_free d))%nat ->
  taken [j] (taken [i] d) = taken [i] (taken [j] d).
Proof.
  intros Hne Hi Hj. unfold taken, setd_free. cbn. f_equal. by apply list_insert_insert_ne.
Qed.

(** *** Three at a time *)

(** What [alloc3_desc] does: the first three free descriptors, or nothing
    taken and nobody left asleep for what was put back. *)
Definition alloc3_post (s : vst) (r : option (Z * Z * Z)) (s' : vst) : Prop :=
  match free_list (v_disk s) with
  | i0 :: i1 :: i2 :: _ =>
      r = Some (Z.of_nat i0, Z.of_nat i1, Z.of_nat i2) /\ s' = setv_disk (taken [i0; i1; i2] (v_disk s)) s
  | l => r = None /\ s' = woke (length l) (v_disk s) s
  end.

Lemma woke_0 s : woke 0 (v_disk s) s = s.
Proof. by destruct s. Qed.

Lemma alloc3_desc_spec s : vdisk_ok (v_disk s) -> wp alloc3_desc (alloc3_post s) s.
Proof.
  intros Hok. unfold alloc3_desc, alloc3_post.
  destruct (free_list (v_disk s)) as [|i0 l] eqn:H0.
  { apply wp_bind, alloc_desc_none; [done|]. apply wp_ret. split; [done|]. by rewrite woke_0. }
  destruct (free_first _ _ _ H0) as [Hi0 Hf0].
  apply wp_bind. eapply alloc_desc_first; [done|]. rewrite (proj2 (Z.ltb_ge (Z.of_nat i0) 0)) by lia.
  set (s1 := setv_disk _ s). assert (Hok1 : vdisk_ok (v_disk s1)) by (by apply taken_ok).
  assert (H1 : free_list (v_disk s1) = l) by (by apply free_list_taken).
  destruct l as [|i1 l].
  { apply wp_bind, alloc_desc_none; [done|]. cbn [Z.ltb Z.compare]. apply wp_bind.
    change s1 with (woke 0 (taken [i0] (v_disk s)) s). apply wp_free_desc; [done| |].
    { rewrite free_at_taken by (rewrite vo_free; done || lia). by rewrite bool_decide_true, andb_false_r. }
    apply wp_ret. rewrite released_taken by done. done. }
  destruct (free_first _ _ _ H1) as [Hi1 Hf1].
  apply wp_bind. eapply alloc_desc_first; [exact H1|]. rewrite (proj2 (Z.ltb_ge (Z.of_nat i1) 0)) by lia.
  set (s2 := setv_disk _ s1). assert (Hok2 : vdisk_ok (v_disk s2)) by (by apply taken_ok).
  assert (H2 : free_list (v_disk s2) = l) by (by apply free_list_taken).
  assert (Hl : length (v_free (v_disk s)) = 8%nat) by (by apply vo_free).
  assert (Hne : i1 <> i0 /\ free_at (v_disk s) i1 = true).
  { unfold s1 in Hf1. cbn [setv_disk v_disk] in Hf1. rewrite free_at_taken in Hf1 by lia.
    apply andb_prop in Hf1 as [? Hn]. by apply negb_true_iff, bool_decide_eq_false in Hn. }
  destruct Hne as [Hne Hf1'].
  destruct l as [|i2 l].
  { apply wp_bind, alloc_desc_none; [done|]. cbn [Z.ltb Z.compare].
    change s2 with (woke 0 (taken [i1] (taken [i0] (v_disk s))) s).
    rewrite taken_ne by lia. apply wp_bind, wp_free_desc; [done| |].
    { rewrite free_at_taken by (cbn; rewrite length_insert; lia). by rewrite bool_decide_true, andb_false_r. }
    rewrite released_taken; [|by apply taken_ok|done|].
    2: { rewrite free_at_taken, Hf0, bool_decide_false by (done || lia). done. }
    apply wp_bind, wp_free_desc; [done| |].
    { rewrite free_at_taken by lia. by rewrite bool_decide_true, andb_false_r. }
    apply wp_ret. by rewrite released_taken. }
  apply wp_bind. eapply alloc_desc_first; [exact H2|]. rewrite (proj2 (Z.ltb_ge (Z.of_nat i2) 0)) by lia.
  by apply wp_ret.
Qed.

(** ** A request *)

Record vreq := mkVreq { q_write : bool; q_sector : Z; q_data : Z; q_len : Z; q_status : Z }.

Definition has (flag : Z) (x : virtq_desc) : bool := negb (Z.land (d_flags x) flag =? 0).
Definition desc_at (d : disk_t) (i : Z) : virtq_desc := nth (Z.to_nat i) (v_desc d) desc0.

(** What the device makes of the chain that starts at [h]: a header it reads
    from [disk.ops], a data area it reads for a write and writes for a read,
    and one status byte it writes. *)
Definition device_sees (d : disk_t) (h : Z) : option vreq :=
  let d0 := desc_at d h in
  let d1 := desc_at d (d_next d0) in
  let d2 := desc_at d (d_next d1) in
  let hdr := nth (Z.to_nat ((d_addr d0 - ops_addr 0) / 16)) (v_ops d) (mkReq (-1) 0 0) in
  let wr := r_type hdr =? VIRTIO_BLK_T_OUT in
  if has VRING_DESC_F_NEXT d0 && negb (has VRING_DESC_F_WRITE d0) && (d_len d0 =? 16) &&
     (wr || (r_type hdr =? VIRTIO_BLK_T_IN)) &&
     has VRING_DESC_F_NEXT d1 && eqb (has VRING_DESC_F_WRITE d1) (negb wr) &&
     negb (has VRING_DESC_F_NEXT d2) && has VRING_DESC_F_WRITE d2 && (d_len d2 =? 1)
  then Some (mkVreq wr (r_sector hdr) (d_addr d1) (d_len d1) (d_addr d2))
  else None.

(** The request the driver makes for buffer [b] with descriptors [i0, i1, i2],
    until it takes them back. *)
Record in_flight (b : Z) (write : bool) (sector : Z) (i0 i1 i2 : nat) (s : vst) : Prop := {
  if_ok : vdisk_ok (v_disk s);
  if_lt : (i0 < 8 /\ i1 < 8 /\ i2 < 8)%nat;
  if_ne : i0 <> i1 /\ i0 <> i2 /\ i1 <> i2;
  if_busy : forall i, i ∈ [i0; i1; i2] -> free_at (v_disk s) i = false;
  if_d0 : nth i0 (v_desc (v_disk s)) desc0 = mkDesc (ops_addr (Z.of_nat i0)) 16 VRING_DESC_F_NEXT (Z.of_nat i1);
  if_d1 : nth i1 (v_desc (v_disk s)) desc0 =
    mkDesc (data_addr b) 1024 (Z.lor (if write then 0 else VRING_DESC_F_WRITE) VRING_DESC_F_NEXT) (Z.of_nat i2);
  if_d2 : nth i2 (v_desc (v_disk s)) desc0 = mkDesc (status_addr (Z.of_nat i0)) 1 VRING_DESC_F_WRITE 0;
  if_op : nth i0 (v_ops (v_disk s)) (mkReq (-1) 0 0) =
    mkReq (if write then VIRTIO_BLK_T_OUT else VIRTIO_BLK_T_IN) 0 sector;
  if_info : i_b (nth i0 (v_info (v_disk s)) (mkVInfo 0 0)) = b;
  if_buf : is_Some (v_bufs s !! b)
}.

Definition pending (b : Z) (s : vst) : bool := vb_disk (default (mkVbuf 0 0) (v_bufs s !! b)) =? 1.

(** The request has just been made: the device sees it at the newest entry of
    the avail ring and has been notified. *)
Record submitted (b : Z) (write : bool) (sector : Z) (i0 i1 i2 : nat) (s : vst) : Prop := {
  sb_flight : in_flight b write sector i0 i1 i2 s;
  sb_ring : nth (Z.to_nat (u16 (av_idx (v_avail (v_disk s)) - 1) mod NUM)) (av_ring (v_avail (v_disk s))) (-1) = Z.of_nat i0;
  sb_sees : device_sees (v_disk s) (Z.of_nat i0) =
    Some (mkVreq write sector (data_addr b) 1024 (status_addr (Z.of_nat i0)));
  sb_status : i_status (nth i0 (v_info (v_disk s)) (mkVInfo 0 0)) = 0xff;
  sb_pending : pending b s = true;
  sb_notify : last (v_regs s) = Some (VIRTIO_MMIO_QUEUE_NOTIFY, 0)
}.

Lemma in_flight_sees b write sector i0 i1 i2 s :
  in_flight b write sector i0 i1 i2 s ->
  device_sees (v_disk s) (Z.of_nat i0) =
    Some (mkVreq write sector (data_addr b) 1024 (status_addr (Z.of_nat i0))).
Proof.
  intros [_ _ _ _ H0 H1 H2 Ho _ _]. unfold device_sees, desc_at. rewrite Nat2Z.id, H0. cbn [d_next d_addr d_flags d_len].
  rewrite Nat2Z.id, H1. cbn [d_next d_addr d_flags d_len]. rewrite Nat2Z.id, H2. cbn [d_addr d_flags d_len].
  replace ((ops_addr (Z.of_nat i0) - ops_addr 0) / 16) with (Z.of_nat i0).
  2: { unfold ops_addr. replace (_ - _) with (Z.of_nat i0 * 16) by lia. by rewrite Z.div_mul. }
  rewrite Nat2Z.id, Ho. by destruct write.
Qed.

End logic.

(** What the device and the other threads promise: they give the lock back,
    keep the invariant and the buffers, free descriptors while a process waits
    for some, leave a request in flight alone, and work on one that was
    submitted.  [room] and [progress] count what is left to wait for. *)
Class VWorldOk `{im : Image} `{VW : VWorld} (h : hartst) (lk : spinlock) := {
  room : vst -> nat;
  progress : Z -> vst -> nat;
  vw_lock c s : lget diskL s = (h, lk) -> lget diskL (v_env c s) = (h, lk);
  vw_ok c s : vdisk_ok (v_disk s) -> vdisk_ok (v_disk (v_env c s));
  vw_buf c s b : is_Some (v_bufs s !! b) -> is_Some (v_bufs (v_env c s) !! b);
  vw_room s : vdisk_ok (v_disk s) -> (length (free_list (v_disk s)) < 3)%nat ->
    (room (v_env WFree s) < room s)%nat;
  vw_woke n s : room (woke n (v_disk s) s) = room s;
  vw_patience s : vdisk_ok (v_disk s) -> (room s <= v_patience)%nat;
  vw_keep b write sector i0 i1 i2 s :
    in_flight b write sector i0 i1 i2 s -> in_flight b write sector i0 i1 i2 (v_env (WBuf b) s);
  vw_progress b write sector i0 i1 i2 s :
    in_flight b write sector i0 i1 i2 s -> pending b s = true ->
    (progress b (v_env (WBuf b) s) < progress b s)%nat;
  vw_start b write sector i0 i1 i2 s :
    submitted b write sector i0 i1 i2 s -> (progress b s <= v_patience)%nat
}.

Section rw.
Context `{im : Image} `{VW : VWorld} (h : hartst) (lk : spinlock).
Context (Hq : hart_quiet h) (Hfree : lock_free lk) (WOK : VWorldOk h lk).

(** [s] without the driver's lock held, and with it. *)
Definition unlocked (s : vst) : vst := lset diskL (h, lk) s.
Definition locked (s : vst) : vst := lset diskL (acquired h, held h lk) s.

Lemma unlocked_locked s : unlocked (locked s) = unlocked s.
Proof. done. Qed.

Lemma vdisk_ok_lock d x : vdisk_ok d -> vdisk_ok (setd_lock x d).
Proof. by intros []. Qed.

Lemma in_flight_lock b write sector i0 i1 i2 s p :
  in_flight b write sector i0 i1 i2 s -> in_flight b write sector i0 i1 i2 (lset diskL p s).
Proof. intros []. split; try done. by apply vdisk_ok_lock. Qed.

Lemma wp_v_sleep c s Q :
  Q tt (locked (v_env c (unlocked s))) -> wp (v_sleep c) Q (locked s).
Proof.
  intros HQ. unfold v_sleep. apply wp_bind. eapply wp_unlock; [done|done|done|].
  apply wp_bind, wp_modify. eapply wp_lock; [apply vw_lock; done|done|done|]. exact HQ.
Qed.

Lemma unlocked_env c s : unlocked (locked (v_env c (unlocked s))) = v_env c (unlocked s).
Proof.
  rewrite unlocked_locked. pose proof (vw_lock c (unlocked s) eq_refl) as Hl.
  unfold unlocked at 1. destruct (v_env c (unlocked s)) as [h' [] bs rg wk]. cbn in *. by simplify_eq.
Qed.

Lemma unlocked_id s : lget diskL s = (h, lk) -> unlocked s = s.
Proof. destruct s as [hh [] bs rg wk]. cbn. intros H. by simplify_eq. Qed.

(** One turn of the loop that waits for descriptors, in states without the
    lock: fewer than three are free, those taken are put back, and the others
    run. *)
Inductive desc_turn : vst -> vst -> Prop :=
| desc_turn_intro s :
    (length (free_list (v_disk s)) < 3)%nat ->
    desc_turn s (v_env WFree (woke (length (free_list (v_disk s))) (v_disk s) s)).

(** One turn of the loop that waits for the device. *)
Inductive disk_turn (b : Z) : vst -> vst -> Prop :=
| disk_turn_intro s : pending b s = true -> disk_turn b s (v_env (WBuf b) s).

(** The wait for descriptors ends with three of them. *)
Lemma wait_desc s b Q :
  vdisk_ok (v_disk s) -> is_Some (v_bufs s !! b) ->
  (forall s1 i0 i1 i2 l, vdisk_ok (v_disk s1) -> is_Some (v_bufs s1 !! b) ->
     rtc desc_turn (unlocked s) (unlocked s1) ->
     free_list (v_disk s1) = i0 :: i1 :: i2 :: l ->
     Q (Z.of_nat i0, Z.of_nat i1, Z.of_nat i2) (setv_disk (taken [i0; i1; i2] (v_disk (locked s1))) (locked s1))) ->
  wp (loop (S v_patience) (fun _ : unit =>
    r ← alloc3_desc;
    match r with
    | Some idx => mret (inr idx)
    | None => v_sleep WFree;; mret (inl tt)
    end) tt) Q (locked s).
Proof.
  intros Hok Hb HQ.
  apply (wp_loop _ (fun _ t => exists s1, t = locked s1 /\ vdisk_ok (v_disk s1) /\
                      is_Some (v_bufs s1 !! b) /\ rtc desc_turn (unlocked s) (unlocked s1))
                   (fun _ t => room (unlocked t))).
  - intros [] t (s1 & -> & Hok1 & Hb1 & Ht1). apply wp_bind.
    eapply wp_conseq; [apply alloc3_desc_spec; by apply vdisk_ok_lock|]. intros r t Hr. unfold alloc3_post in Hr.
    change (free_list (v_disk (locked s1))) with (free_list (v_disk s1)) in Hr.
    set (l := free_list (v_disk s1)) in *.
    assert (Hsleep : (length l < 3)%nat ->
      wp (v_sleep WFree;; mret (inl tt)) (fun r s' => match r with
        | inl _ => (exists s1, s' = locked s1 /\ vdisk_ok (v_disk s1) /\ is_Some (v_bufs s1 !! b) /\
                      rtc desc_turn (unlocked s) (unlocked s1)) /\
                   (room (unlocked s') < room (unlocked (locked s1)))%nat
        | inr y => Q y s' end) (woke (length l) (v_disk (locked s1)) (locked s1))).
    { intros Hlt. set (s2 := woke (length l) (v_disk s1) s1).
      change (woke _ _ (locked s1)) with (locked s2). apply wp_bind, wp_v_sleep, wp_ret. split.
      - eexists. split; [done|]. split; [apply vw_ok; exact (vdisk_ok_lock _ _ Hok1)|].
        split; [apply vw_buf; exact Hb1|]. eapply rtc_r; [exact Ht1|].
        rewrite (unlocked_id (v_env _ _)) by (by apply vw_lock).
        exact (desc_turn_intro (unlocked s1) Hlt).
      - rewrite unlocked_env, unlocked_locked, <- (vw_woke (length l) (unlocked s1)).
        apply vw_room; [exact (vdisk_ok_lock _ _ Hok1)|exact Hlt]. }
    destruct l as [|i0 [|i1 [|i2 l']]] eqn:Hl; destruct Hr as [-> ->]; try (apply Hsleep; simpl; lia).
    apply wp_ret. by apply (HQ s1 _ _ _ l').
  - apply Nat.lt_succ_r, vw_patience. exact (vdisk_ok_lock _ _ Hok).
  - exists s. by split_and!; [done..|apply rtc_refl].
Qed.

Lemma free_three d i0 i1 i2 l :
  free_list d = i0 :: i1 :: i2 :: l ->
  (i0 < 8 /\ i1 < 8 /\ i2 < 8)%nat /\ (i0 <> i1 /\ i0 <> i2 /\ i1 <> i2) /\
  forall i, i ∈ [i0; i1; i2] -> free_at d i = true.
Proof.
  intros Hl. assert (Hnd : NoDup (free_list d)) by apply NoDup_filter, NoDup_seq.
  assert (Hin : forall i, i ∈ [i0; i1; i2] -> (i < 8)%nat /\ free_at d i = true).
  { intros i Hi. apply elem_of_free_list. rewrite Hl. set_solver. }
  rewrite Hl in Hnd. split; [|split].
  - split_and!; apply Hin; set_solver.
  - apply NoDup_cons in Hnd as [H0 Hnd]. apply NoDup_cons in Hnd as [H1 _]. set_solver.
  - intros i Hi. by apply Hin.
Qed.

(** Straight-line code on a state in constructor form, one field update at a time. *)
Ltac v_steps :=
  repeat (match goal with
  | |- wp (_ ≫= _) _ _ => apply wp_bind
  | |- wp (modify _) _ _ => apply wp_modify
  end; cbn [setv_disk setv_bufs setd_desc setd_avail setd_free setd_used_idx setd_info setd_ops setd_lock
            v_desc v_avail v_used v_free v_used_idx v_info v_ops vdisk_lock
            v_hart v_disk v_bufs v_regs v_woken taken av_idx av_ring]).

Lemma u16_succ_pred z : 0 <= z < 2 ^ 16 -> u16 (u16 (z + 1) - 1) = z.
Proof.
  intros Hz. unfold u16. rewrite Zminus_mod_idemp_l. replace (z + 1 - 1) with z by lia. by apply Z.mod_small.
Qed.

Lemma wp_submit b write sector s i0 i1 i2 l Q :
  vdisk_ok (v_disk s) -> is_Some (v_bufs s !! b) -> free_list (v_disk s) = i0 :: i1 :: i2 :: l ->
  (forall t, submitted b write sector i0 i1 i2 t -> lget diskL t = lget diskL s -> Q tt t) ->
  wp (submit b write sector (Z.of_nat i0) (Z.of_nat i1) (Z.of_nat i2)) Q
     (setv_disk (taken [i0; i1; i2] (v_disk s)) s).
Proof.
  intros Hok [x Hx] Hl HQ. destruct (free_three _ _ _ _ _ Hl) as ((L0 & L1 & L2) & (N01 & N02 & N12) & Hf).
  destruct Hok as [H1 H2 H3 H4 H5 H6 H7 H8].
  destruct s as [hh [ds [ai ar] us fr ui inf op lk'] bs rg wk]. cbn [v_desc v_free v_info v_ops v_avail av_idx av_ring v_disk v_bufs] in *.
  unfold submit, format_chain, set_desc, set_bdisk, set_info_b, push_avail, write_vreg, mod_disk. rewrite !Nat2Z.id.
  v_steps.
  match goal with |- Q tt ?t0 => set (t := t0) end.
  assert (Ed : v_desc (v_disk t) = <[i2 := mkDesc (status_addr (Z.of_nat i0)) 1 VRING_DESC_F_WRITE 0]>
    (<[i1 := mkDesc (data_addr b) 1024 (Z.lor (if write then 0 else VRING_DESC_F_WRITE) VRING_DESC_F_NEXT) (Z.of_nat i2)]>
    (<[i0 := mkDesc (ops_addr (Z.of_nat i0)) 16 VRING_DESC_F_NEXT (Z.of_nat i1)]> ds))) by done.
  assert (Ef : v_free (v_disk t) = <[i2 := 0]> (<[i1 := 0]> (<[i0 := 0]> fr))) by done.
  assert (Eb : v_bufs t !! b = Some (mkVbuf 1 (vb_blockno x))) by (cbn; by rewrite lookup_alter_eq, Hx).
  assert (Ei : nth i0 (v_info (v_disk t)) (mkVInfo 0 0) = mkVInfo b 0xff).
  { cbn. rewrite !nth_insert_eq; rewrite ?length_insert; try lia. done. }
  assert (Ea : v_avail (v_disk t) = mkAvail (u16 (ai + 1)) (<[Z.to_nat (ai mod NUM) := Z.of_nat i0]> ar)) by done.
  assert (Hother : forall i, free_at (v_disk t) i = true ->
    i2 <> i /\ i1 <> i /\ i0 <> i /\ negb (nth i fr 0 =? 0) = true).
  { intros i. unfold free_at. rewrite Ef. intros Hi.
    assert (forall j, j ∈ [i0; i1; i2] -> j <> i) as Hj; [|split_and!; [apply Hj; set_solver..|]].
    - intros j Hj ->. apply elem_of_cons in Hj as [->|[->|[->|[]%elem_of_nil]%elem_of_cons]%elem_of_cons];
        revert Hi; repeat first [rewrite nth_insert_eq by (rewrite ?length_insert; lia)|rewrite nth_insert_ne by done]; done.
    - by rewrite !nth_insert_ne in Hi by (apply Hj; set_solver). }
  assert (Hfl : in_flight b write sector i0 i1 i2 t).
  { split; [split|done|done|..].
    - rewrite Ed. by rewrite !length_insert.
    - rewrite Ef. by rewrite !length_insert.
    - cbn. by rewrite !length_insert.
    - cbn. by rewrite !length_insert.
    - rewrite Ea. cbn. by rewrite !length_insert.
    - rewrite Ea. cbn. unfold u16. apply Z.mod_pos_bound. lia.
    - intros i Hi Hfi. destruct (Hother i Hfi) as (? & ? & ? & Hfi'). rewrite Ef, !nth_insert_ne by done. by apply H7.
    - intros i Hi Hfi. destruct (Hother i Hfi) as (? & ? & ? & Hfi'). rewrite Ed, !nth_insert_ne by done. by apply H8.
    - intros i Hi. destruct (free_at (v_disk t) i) eqn:E; [|done]. apply Hother in E. set_solver.
    - rewrite Ed. by rewrite 2!nth_insert_ne, nth_insert_eq by (congruence || lia).
    - rewrite Ed. by rewrite nth_insert_ne, nth_insert_eq by (rewrite ?length_insert; congruence || lia).
    - rewrite Ed. by rewrite nth_insert_eq by (rewrite ?length_insert; congruence || lia).
    - cbn. by rewrite nth_insert_eq by lia.
    - by rewrite Ei.
    - by rewrite Eb. }
  apply HQ; [|done]. split; [done|..].
  - rewrite Ea. cbn [av_idx av_ring]. rewrite u16_succ_pred by done. apply nth_insert_eq.
    rewrite H5. pose proof (Z.mod_pos_bound ai NUM ltac:(done)). unfold NUM in *. lia.
  - by apply (in_flight_sees _ _ _ i0 i1 i2).
  - by rewrite Ei.
  - unfold pending. by rewrite Eb.
  - cbn. by rewrite last_snoc.
Qed.

(** *** Waiting for the device *)

Lemma locked_id s : lget diskL s = (acquired h, held h lk) -> s = locked s.
Proof. destruct s as [hh [] bs rg wk]. cbn. intros H. by simplify_eq. Qed.

Lemma submitted_lock b write sector i0 i1 i2 s p :
  submitted b write sector i0 i1 i2 s -> submitted b write sector i0 i1 i2 (lset diskL p s).
Proof. intros []. split; try done. by apply in_flight_lock. Qed.

Lemma wait_disk b write sector i0 i1 i2 s Q :
  lget diskL s = (acquired h, held h lk) -> submitted b write sector i0 i1 i2 s ->
  (forall t, lget diskL t = (acquired h, held h lk) -> rtc (disk_turn b) (unlocked s) (unlocked t) ->
     in_flight b write sector i0 i1 i2 t -> pending b t = false -> Q tt t) ->
  wp (loop (S v_patience) (fun _ : unit =>
    x ← gets (fun s => v_bufs s !! b);
    if vb_disk (default (mkVbuf 0 0) x) =? 1 then v_sleep (WBuf b);; mret (inl tt) else mret (inr tt)) tt) Q s.
Proof.
  intros Hl Hs HQ.
  apply (wp_loop _ (fun _ t => lget diskL t = (acquired h, held h lk) /\
                      rtc (disk_turn b) (unlocked s) (unlocked t) /\ in_flight b write sector i0 i1 i2 t)
                   (fun _ t => progress b (unlocked t))).
  - intros [] t (Hlt & Htt & Hft). apply wp_bind, wp_gets. fold (pending b t). destruct (pending b t) eqn:Hp.
    + rewrite (locked_id t Hlt). apply wp_bind, wp_v_sleep, wp_ret. rewrite unlocked_env, unlocked_locked.
      assert (Hft' : in_flight b write sector i0 i1 i2 (unlocked t)) by (by apply in_flight_lock).
      split; [split_and!; [done| |by apply in_flight_lock, vw_keep]|by eapply vw_progress].
      eapply rtc_r; [exact Htt|]. by apply disk_turn_intro.
    + apply wp_ret. by apply HQ.
  - apply Nat.lt_succ_r. by eapply vw_start, submitted_lock.
  - split_and!; [done|apply rtc_refl|apply Hs].
Qed.

(** *** Giving the chain back *)

Lemma free_at_released d i j :
  (i < length (v_free d))%nat -> free_at (released i d) j = free_at d j || bool_decide (j = i).
Proof.
  intros Hi. unfold free_at, released, setd_free, setd_desc. cbn [v_free]. destruct (decide (j = i)) as [->|Hne].
  - rewrite nth_insert_eq, bool_decide_true by done. by rewrite orb_true_r.
  - rewrite nth_insert_ne, bool_decide_false by done. by rewrite orb_false_r.
Qed.

Lemma released_ok d i : vdisk_ok d -> (i < 8)%nat -> vdisk_ok (released i d).
Proof.
  intros [H1 H2 H3 H4 H5 H6 H7 H8] Hi. split; cbn [released setd_free setd_desc v_desc v_free v_info v_ops v_avail]; try done.
  - by rewrite length_insert.
  - by rewrite length_insert.
  - intros j Hj. rewrite free_at_released by lia. destruct (decide (j = i)) as [->|Hne]; [intros _; apply nth_insert_eq; lia|].
    rewrite bool_decide_false, orb_false_r, nth_insert_ne by done. by apply H7.
  - intros j Hj. rewrite free_at_released by lia. destruct (decide (j = i)) as [->|Hne]; [intros _; apply nth_insert_eq; lia|].
    rewrite bool_decide_false, orb_false_r, nth_insert_ne by done. by apply H8.
Qed.

Definition released3 (i0 i1 i2 : nat) (d : disk_t) : disk_t := released i2 (released i1 (released i0 d)).

Lemma wp_free_chain s d i0 i1 i2 Q :
  length (v_free d) = 8%nat -> (i0 < 8 /\ i1 < 8 /\ i2 < 8)%nat -> (i0 <> i1 /\ i0 <> i2 /\ i1 <> i2) ->
  (forall i, i ∈ [i0; i1; i2] -> free_at d i = false) ->
  d_next (nth i0 (v_desc d) desc0) = Z.of_nat i1 -> has VRING_DESC_F_NEXT (nth i0 (v_desc d) desc0) = true ->
  d_next (nth i1 (v_desc d) desc0) = Z.of_nat i2 -> has VRING_DESC_F_NEXT (nth i1 (v_desc d) desc0) = true ->
  has VRING_DESC_F_NEXT (nth i2 (v_desc d) desc0) = false ->
  Q tt (woke 3 (released3 i0 i1 i2 d) s) -> wp (free_chain (Z.of_nat i0)) Q (woke 0 d s).
Proof.
  intros Hlen (L0 & L1 & L2) (N01 & N02 & N12) Hb X0 F0 X1 F1 F2 HQ. unfold free_chain, NUM. cbn [loop Z.to_nat Pos.to_nat Pos.iter_op Nat.add].
  assert (D : forall i j (e : disk_t), i <> j -> nth j (v_desc (released i e)) desc0 = nth j (v_desc e) desc0)
    by (intros i j e Hij; cbn; by apply nth_insert_ne).
  assert (B : forall i j (e : disk_t), length (v_free e) = 8%nat -> (i < 8)%nat -> i <> j -> free_at e j = false -> free_at (released i e) j = false)
    by (intros i j e He Hi Hij Hj; by rewrite free_at_released, Hj, bool_decide_false by (congruence || lia)).
  assert (Hlen1 : length (v_free (released i0 d)) = 8%nat) by (cbn; by rewrite length_insert).
  apply wp_bind, wp_bind, wp_gets, wp_bind, wp_free_desc; [done|apply Hb; set_solver|].
  unfold get_desc. rewrite Nat2Z.id. cbn [woke v_disk]. unfold has in F0, F1, F2. rewrite F0, X0. apply wp_ret.
  apply wp_bind, wp_bind, wp_gets, wp_bind, wp_free_desc; [done|apply B; [done..|apply Hb; set_solver]|].
  unfold get_desc. rewrite Nat2Z.id. cbn [woke v_disk]. rewrite D, F1, X1 by done. apply wp_ret.
  apply wp_bind, wp_bind, wp_gets, wp_bind, wp_free_desc; [done|apply B; [done..|apply B; [done..|apply Hb; set_solver]]|].
  unfold get_desc. rewrite Nat2Z.id. cbn [woke v_disk]. rewrite !D, F2 by done. apply wp_ret, wp_ret. exact HQ.
Qed.

(** *** The whole operation *)

Lemma info_cleared_ok s i b :
  vdisk_ok (v_disk s) -> vdisk_ok (setd_info (<[i := mkVInfo b (i_status (nth i (v_info (v_disk s)) (mkVInfo 0 0)))]> (v_info (v_disk s))) (v_disk s)).
Proof. intros []. split; cbn; try done. by rewrite length_insert. Qed.

(** The chain in flight in [s1] taken back: the result of the operation. *)
Definition disk_done (i0 i1 i2 : nat) (s1 : vst) : disk_t :=
  released3 i0 i1 i2 (setd_lock lk (setd_info
    (<[i0 := mkVInfo 0 (i_status (nth i0 (v_info (v_disk s1)) (mkVInfo 0 0)))]> (v_info (v_disk s1))) (v_disk s1))).

Lemma take_back b write sector i0 i1 i2 t Q :
  lget diskL t = (acquired h, held h lk) -> in_flight b write sector i0 i1 i2 t ->
  Q tt (unlocked (woke 3 (disk_done i0 i1 i2 t) t)) ->
  wp (set_info_b (Z.of_nat i0) 0;; free_chain (Z.of_nat i0);; zoom diskL release) Q t.
Proof.
  intros Hlt [Hok Hlt8 Hne Hb H0 H1 H2 _ _ _] HQ. apply wp_bind, wp_modify. rewrite Nat2Z.id.
  set (d := setd_info _ _). set (t' := setv_disk d t).
  assert (t' = woke 0 d t) as -> by (by destruct t). apply wp_bind.
  apply (wp_free_chain t d i0 i1 i2); [exact (vo_free _ Hok)|done|done|exact Hb|..];
    try (change (v_desc d) with (v_desc (v_disk t)); rewrite ?H0, ?H1, ?H2; by destruct write).
  eapply wp_unlock; [exact Hlt|done|done|]. exact HQ.
Qed.

Lemma released3_ok i0 i1 i2 d :
  vdisk_ok d -> (i0 < 8 /\ i1 < 8 /\ i2 < 8)%nat -> vdisk_ok (released3 i0 i1 i2 d).
Proof. intros Hok (? & ? & ?). unfold released3. by repeat apply released_ok. Qed.

(** What a call does, as a run of the driver between states without its
    lock: it waits until three descriptors are free, takes the first three and
    hands the device the request, waits until the device is done with it, and
    takes the chain back. *)
Definition served (b : Z) (write : bool) (sector : Z) (s s' : vst) : Prop :=
  exists s1 s2 s3 i0 i1 i2 l,
    rtc desc_turn s s1 /\ free_list (v_disk s1) = i0 :: i1 :: i2 :: l /\
    submit b write sector (Z.of_nat i0) (Z.of_nat i1) (Z.of_nat i2)
      (setv_disk (taken [i0; i1; i2] (v_disk (locked s1))) (locked s1)) = Ret tt (locked s2) /\
    submitted b write sector i0 i1 i2 s2 /\
    rtc (disk_turn b) s2 s3 /\ in_flight b write sector i0 i1 i2 s3 /\ pending b s3 = false /\
    s' = woke 3 (disk_done i0 i1 i2 s3) s3 /\
    forall i, (i < 8)%nat ->
      free_at (v_disk s') i = free_at (v_disk s3) i || bool_decide (i ∈ [i0; i1; i2]).

Lemma free_at_done b write sector i0 i1 i2 s i :
  in_flight b write sector i0 i1 i2 s ->
  free_at (disk_done i0 i1 i2 s) i = free_at (v_disk s) i || bool_decide (i ∈ [i0; i1; i2]).
Proof.
  intros [[_ Hf _ _ _ _ _ _] (L0 & L1 & L2) _ _ _ _ _ _ _ _]. unfold disk_done, released3.
  rewrite !free_at_released by (cbn; rewrite ?length_insert; lia).
  rewrite <- !orb_assoc. f_equal. rewrite <- !bool_decide_or. apply bool_decide_ext. set_solver.
Qed.

Lemma virtio_disk_rw_wp b write bno x s :
  lget diskL s = (h, lk) -> vdisk_ok (v_disk s) -> v_bufs s !! b = Some (mkVbuf x bno) ->
  wp (virtio_disk_rw b write) (fun _ s' =>
    lget diskL s' = (h, lk) /\ vdisk_ok (v_disk s') /\ served b write (u32 (bno * 2)) s s') s.
Proof.
  intros Hl Hok Hb. unfold virtio_disk_rw. apply wp_bind, wp_gets. rewrite Hb. cbn [default vb_blockno].
  apply wp_bind. eapply wp_lock; [exact Hl|done|done|]. apply wp_bind.
  apply (wait_desc s b); [done|by rewrite Hb|]. intros s1 i0 i1 i2 l Hok1 Hb1 Ht1 Hf.
  apply wp_bind.
  apply (wp_strong _ (fun _ t => submitted b write (u32 (bno * 2)) i0 i1 i2 t /\
    lget diskL t = lget diskL (locked s1))).
  { by eapply wp_submit; [apply vdisk_ok_lock|exact Hb1|exact Hf|]. }
  intros [] t Heq [Ht Hlt].
  apply wp_bind. eapply wait_disk; [exact Hlt|exact Ht|]. intros t2 Hlt2 Ht2 Hft2 Hp2.
  eapply take_back; [done|done|]. split; [done|]. split.
  { apply vdisk_ok_lock, released3_ok; [|apply Hft2]. apply vdisk_ok_lock, info_cleared_ok, Hft2. }
  rewrite (unlocked_id s Hl) in Ht1.
  exists (unlocked s1), (unlocked t), (unlocked t2), i0, i1, i2, l. split_and!; try done.
  - rewrite Heq, (locked_id t Hlt) at 1. done.
  - by apply submitted_lock.
  - by apply in_flight_lock.
  - intros i _. by apply (free_at_done _ _ _ _ _ _ _ _ (in_flight_lock _ _ _ _ _ _ _ (h, lk) Hft2)).
Qed.

End rw.

(** ** Completions *)

Section intr.
Context `{im : Image} `{VW : VWorld}.

Definition info_at (d : disk_t) (id : Z) : vinfo := nth (Z.to_nat id) (v_info d) (mkVInfo 0 0).

(** The entries between the driver's counter and the device's. *)
Definition completed (d : disk_t) : list Z :=
  window NUM (us_ring (v_used d)) (v_used_idx d) (u16 (us_idx (v_used d) - v_used_idx d)).

(** The requests [ids] marked as done and their sleepers woken, in order. *)
Definition finish (s : vst) (id : Z) : vst :=
  let b := i_b (info_at (v_disk s) id) in
  mkV (v_hart s) (setd_used_idx (u16 (v_used_idx (v_disk s) + 1)) (v_disk s))
    (alter (fun x => mkVbuf 0 (vb_blockno x)) b (v_bufs s)) (v_regs s) (WBuf b :: v_woken s).

Definition good_id (d : disk_t) (id : Z) : Prop := 0 <= id < NUM /\ i_status (info_at d id) = 0.

Lemma complete_eq s id : good_id (v_disk s) id -> complete id s = Ret tt (finish s id).
Proof.
  intros [Hid Hst]. unfold complete. rewrite (proj2 (Z.leb_le 0 id)), (proj2 (Z.ltb_lt id NUM)) by lia. cbn [andb negb].
  unfold mbind, M_bind, gets, modify, set_bdisk, mod_disk, v_wakeup. fold (info_at (v_disk s) id). by rewrite Hst.
Qed.

Definition intr_body (_ : unit) : M vst (unit + unit) :=
  d ← gets v_disk;
  if v_used_idx d =? us_idx (v_used d) then mret (inr tt) else
  complete (nth (Z.to_nat (v_used_idx d mod NUM)) (us_ring (v_used d)) 0);;
  mret (inl tt).

Definition next_id (d : disk_t) : Z := nth (Z.to_nat (v_used_idx d mod NUM)) (us_ring (v_used d)) 0.

Lemma intr_body_stop s :
  v_used_idx (v_disk s) = us_idx (v_used (v_disk s)) -> intr_body tt s = Ret (inr tt) s.
Proof. intros H. unfold intr_body, mbind, M_bind, gets. by rewrite H, Z.eqb_refl. Qed.

Lemma intr_body_go s :
  v_used_idx (v_disk s) <> us_idx (v_used (v_disk s)) -> good_id (v_disk s) (next_id (v_disk s)) ->
  intr_body tt s = Ret (inl tt) (finish s (next_id (v_disk s))).
Proof.
  intros H Hg. unfold intr_body, mbind, M_bind, gets. rewrite (proj2 (Z.eqb_neq _ _) H).
  fold (next_id (v_disk s)). by rewrite complete_eq.
Qed.

Lemma u16_add_ne a n : 0 < n < 2 ^ 16 -> a <> u16 (a + n).
Proof.
  intros Hn He. apply (f_equal (fun z => (z - a) mod 2 ^ 16)) in He. unfold u16 in He.
  rewrite Zminus_mod_idemp_l, Z.sub_diag in He. replace (a + n - a) with n in He by lia.
  rewrite Z.mod_0_l, Z.mod_small in He by lia. lia.
Qed.

Lemma intr_loop n : forall s fuel,
  0 <= v_used_idx (v_disk s) < 2 ^ 16 -> Z.of_nat n < 2 ^ 16 ->
  us_idx (v_used (v_disk s)) = u16 (v_used_idx (v_disk s) + Z.of_nat n) -> (n < fuel)%nat ->
  let ids := window NUM (us_ring (v_used (v_disk s))) (v_used_idx (v_disk s)) (Z.of_nat n) in
  (forall id, id ∈ ids -> good_id (v_disk s) id) ->
  loop fuel intr_body tt s = Ret tt (foldl finish s ids).
Proof.
  induction n as [|n IH]; intros s fuel Hr Hn Hu Hf ids Hid; (destruct fuel as [|fuel]; [lia|]); cbn [loop].
  - rewrite (bind_ret _ _ _ _ _ (intr_body_stop s ltac:(rewrite Hu, Z.add_0_r; unfold u16; by rewrite Z.mod_small))). done.
  - unfold ids in *. rewrite window_cons in * by (done || lia).
    replace (Z.of_nat (S n) - 1) with (Z.of_nat n) in * by lia. fold (next_id (v_disk s)) in *.
    set (id := next_id (v_disk s)) in *. set (r := window _ _ _ _) in *.
    rewrite (bind_ret _ _ s (inl tt) (finish s id)).
    2: { apply intr_body_go; [rewrite Hu; apply u16_add_ne; lia|apply Hid, list_elem_of_here]. }
    rewrite (IH (finish s id)); cbn [finish v_disk setd_used_idx v_used_idx v_used].
    + f_equal. cbn [foldl]. f_equal. apply (window_mod NUM (2 ^ 16)). by exists (2 ^ 13).
    + apply Z.mod_pos_bound. lia.
    + lia.
    + rewrite Hu. unfold u16. rewrite Zplus_mod_idemp_l. f_equal. lia.
    + lia.
    + unfold u16. rewrite (window_mod NUM (2 ^ 16)) by (by exists (2 ^ 13)).
      intros i Hi. by apply (Hid i), list_elem_of_further.
Qed.

Lemma foldl_finish ids : forall s, lget diskL (foldl finish s ids) = lget diskL s /\
  v_used (v_disk (foldl finish s ids)) = v_used (v_disk s) /\
  (v_used_idx (v_disk (foldl finish s ids)) mod 2 ^ 16 = (v_used_idx (v_disk s) + Z.of_nat (length ids)) mod 2 ^ 16).
Proof.
  induction ids as [|id ids IH]; intros s; cbn [foldl length].
  - by rewrite Z.add_0_r.
  - destruct (IH (finish s id)) as (-> & -> & ->). split; [done|]. split; [done|].
    cbn [finish v_disk setd_used_idx v_used_idx]. unfold u16. rewrite Zplus_mod_idemp_l. f_equal. lia.
Qed.

Lemma foldl_finish_lock ids : forall s p, foldl finish (lset diskL p s) ids = lset diskL p (foldl finish s ids).
Proof. induction ids as [|id ids IH]; intros s p; [done|]. cbn [foldl]. by rewrite <- IH. Qed.

Lemma lset_diskL_same s p : lget diskL s = p -> lset diskL p s = s.
Proof. intros <-. by destruct s as [? [] ? ? ?]. Qed.

Lemma land3 x : 0 <= Z.land x 3 < 4.
Proof. change 3 with (Z.ones 2). rewrite Z.land_ones by lia. apply Z.mod_pos_bound. lia. Qed.

(** [s] after the interrupt has been acknowledged. *)
Definition acked (s : vst) : vst :=
  mkV (v_hart s) (v_disk s) (v_bufs s)
    (v_regs s ++ [(VIRTIO_MMIO_INTERRUPT_ACK, Z.land (v_read VIRTIO_MMIO_INTERRUPT_STATUS
       (lset diskL (acquired (v_hart s), held (v_hart s) (vdisk_lock (v_disk s))) s)) 3)]) (v_woken s).

Lemma virtio_disk_intr_wp s :
  hart_quiet (v_hart s) -> lock_free (vdisk_lock (v_disk s)) ->
  0 <= v_used_idx (v_disk s) < 2 ^ 16 -> 0 <= us_idx (v_used (v_disk s)) < 2 ^ 16 ->
  (forall id, id ∈ completed (v_disk s) -> good_id (v_disk s) id) ->
  wp virtio_disk_intr (fun _ s' => s' = foldl finish (acked s) (completed (v_disk s)) /\
    v_used_idx (v_disk s') mod 2 ^ 16 = us_idx (v_used (v_disk s'))) s.
Proof.
  intros Hq Hf Hi Hu Hid. unfold virtio_disk_intr. apply wp_bind. eapply wp_lock; [done|done|done|].
  apply wp_bind, wp_gets, wp_bind, wp_modify, wp_bind. set (p := (acquired _, held _ _)).
  set (n := u16 (us_idx (v_used (v_disk s)) - v_used_idx (v_disk s))).
  assert (Hn : 0 <= n < 2 ^ 16) by (apply Z.mod_pos_bound; lia).
  set (s1 := mkV _ _ _ _ _). eapply wp_eq; [reflexivity|]. cbn beta zeta. change (u16 _) with n. apply wp_bind.
  assert (Hs1 : s1 = lset diskL p (acked s)).
  { unfold s1, acked. cbn. do 4 f_equal. unfold u32. apply Z.mod_small.
    match goal with |- _ <= Z.land ?x 3 < _ => pose proof (land3 x); lia end. }
  rewrite Hs1. eapply wp_eq.
  - apply (intr_loop (Z.to_nat n)); cbn [lset diskL acked v_disk setd_lock v_used_idx v_used]; [done|lia| |lia|].
    + rewrite Z2Nat.id by lia. unfold n, u16. rewrite Zplus_mod_idemp_r. replace (_ + _) with (us_idx (v_used (v_disk s))) by lia.
      by rewrite Z.mod_small.
    + rewrite Z2Nat.id by lia. exact Hid.
  - cbn [lset diskL acked v_disk setd_lock v_used_idx v_used]. rewrite Z2Nat.id by lia.
    fold (completed (v_disk s)). change (mkV p.1 _ _ _ _) with (lset diskL p (acked s)). rewrite foldl_finish_lock.
    destruct (foldl_finish (completed (v_disk s)) (acked s)) as (Hl & Hv & Hm).
    eapply wp_unlock; [reflexivity|done|done|]. change (lset diskL ?a (lset diskL ?b ?c)) with (lset diskL a c).
    split; [exact (lset_diskL_same _ _ Hl)|].
    etransitivity; [exact Hm|]. etransitivity; [|symmetry; exact (f_equal us_idx Hv)]. unfold completed. rewrite length_window.
    fold n. rewrite Z2Nat.id by lia. cbn [acked v_disk]. unfold n, u16. rewrite Zplus_mod_idemp_r.
    replace (_ + _) with (us_idx (v_used (v_disk s))) by lia. by apply Z.mod_small.
Qed.

End intr.

(** ** Claims *)

(** [alloc3_desc] is all or nothing.  With three descriptors free it takes
    the three lowest; otherwise it returns -1 and the descriptor table, the free
    map and everything else are as before, except that whoever waits for a
    descriptor has been woken once for each one put back. *)
Theorem alloc3_desc_all_or_nothing s :
  vdisk_ok (v_disk s) -> wp alloc3_desc (alloc3_post s) s.
Proof. apply alloc3_desc_spec. Qed.

(** C13: [virtio_disk_rw] returns, and only after its request is done, whatever
    other threads do to the disk while it sleeps, given a device that works on
    the well-formed requests it was notified of.  The call is a run of four
    parts: while fewer than three descriptors are free the others run; the
    three lowest free ones are taken and carry the request, which is at the
    newest entry of the avail ring when the device is notified and says, read
    the way a device reads it, the direction, the sector, the 1024 bytes of the
    buffer and a status byte; while the buffer belongs to the device the others
    run; then of the descriptors exactly these three are freed and cleared and
    the sleepers on a free descriptor are woken three times.  Lock and
    interrupt state are restored. *)
Theorem virtio_disk_rw_completes `{im : Image} `{VW : VWorld} h lk (WOK : VWorldOk h lk) b write bno x s :
  hart_quiet h -> lock_free lk ->
  lget diskL s = (h, lk) -> vdisk_ok (v_disk s) -> v_bufs s !! b = Some (mkVbuf x bno) ->
  wp (virtio_disk_rw b write) (fun _ s' =>
    lget diskL s' = (h, lk) /\ vdisk_ok (v_disk s') /\ served h lk b write (u32 (bno * 2)) s s') s.
Proof. intros Hq Hf. by apply virtio_disk_rw_wp. Qed.

(** [virtio_disk_intr] acknowledges the interrupt and completes exactly the
    entries the device has added to the used ring since the last one, in
    order and across the wrap of the 16-bit counters: each buffer is marked as
    done and its sleeper woken, and the driver's counter catches up with the
    device's. *)
Theorem virtio_disk_intr_completes `{im : Image} `{VW : VWorld} s :
  hart_quiet (v_hart s) -> lock_free (vdisk_lock (v_disk s)) ->
  0 <= v_used_idx (v_disk s) < 2 ^ 16 -> 0 <= us_idx (v_used (v_disk s)) < 2 ^ 16 ->
  (forall id, id ∈ completed (v_disk s) -> good_id (v_disk s) id) ->
  wp virtio_disk_intr (fun _ s' => s' = foldl finish (acked s) (completed (v_disk s)) /\
    v_used_idx (v_disk s') mod 2 ^ 16 = us_idx (v_used (v_disk s'))) s.
Proof. apply virtio_disk_intr_wp. Qed.

(** ** A device that completes a request at once *)

Definition all_free (d : disk_t) : disk_t := setd_free (replicate 8 1) (setd_desc (replicate 8 desc0) d).

Definition demo_vworld : VWorld := {|
  v_env := fun c s => match c with
    | WFree => setv_disk (all_free (v_disk s)) s
    | WBuf b => setv_bufs (alter (fun x => mkVbuf 0 (vb_blockno x)) b (v_bufs s)) s
    end;
  v_patience := 1;
  v_read := fun _ _ => 1;
  disk_addr := 0x80013000
|}.

Lemma all_free_ok d : vdisk_ok d -> vdisk_ok (all_free d).
Proof.
  intros []. split; cbn; try done.
  - intros i Hi _. do 8 (destruct i as [|i]; [done|]). lia.
  - intros i Hi _. do 8 (destruct i as [|i]; [done|]). lia.
Qed.

Lemma alter_bound {A} (f : A -> A) (m : gmap Z A) k j : is_Some (m !! j) -> is_Some (alter f k m !! j).
Proof. intros [x Hx]. rewrite lookup_alter. case_decide; subst; rewrite Hx; eauto. Qed.

Lemma demo_done b s : is_Some (v_bufs s !! b) ->
  pending b (setv_bufs (alter (fun x => mkVbuf 0 (vb_blockno x)) b (v_bufs s)) s) = false.
Proof. intros [x Hx]. unfold pending. cbn. by rewrite lookup_alter_eq, Hx. Qed.

Definition demo_vworld_ok h lk : VWorldOk (im := demo_image) (VW := demo_vworld) h lk.
Proof.
  refine {| room := fun s => if bool_decide (length (free_list (v_disk s)) < 3)%nat then 1%nat else 0%nat;
            progress := fun b s => if pending b s then 1%nat else 0%nat |}.
  - intros [|b] s Hl; exact Hl.
  - intros [|b] s Hok; [by apply all_free_ok|exact Hok].
  - intros [|b'] s b Hb; [exact Hb|by apply alter_bound].
  - intros s Hok Hlt. rewrite (bool_decide_true _ Hlt), bool_decide_false; [lia|]. change (~ (8 < 3)%nat). lia.
  - intros n s. reflexivity.
  - intros s _. case_match; cbn; lia.
  - intros b write sector i0 i1 i2 s []. split; try done. by apply alter_bound.
  - intros b write sector i0 i1 i2 s [] Hp. rewrite Hp. cbn [v_env demo_vworld]. by rewrite demo_done; [lia|].
  - intros b write sector i0 i1 i2 s _. case_match; cbn; lia.
Defined.

(** Descriptors 0, 3 and 5 are in use; buffers 0x80014000 and 0x80015000. *)
Definition demo_disk : disk_t :=
  mkDisk (replicate 8 desc0) (mkAvail 0xffff (replicate 8 0)) (mkUsed 1 (replicate 7 0 ++ [3]))
    [0; 1; 1; 0; 1; 0; 1; 1] 0xffff
    (<[0%nat := mkVInfo 0x80014000 0]> (<[3%nat := mkVInfo 0x80015000 0]> (replicate 8 (mkVInfo 0 0))))
    (replicate 8 (mkReq 0 0 0)) demo_lock.
Definition demo_vst : vst :=
  mkV demo_qhart demo_disk (<[0x80014000 := mkVbuf 1 20]> (<[0x80015000 := mkVbuf 1 21]> ∅)) [] [].

Lemma demo_vdisk_ok : vdisk_ok demo_disk.
Proof.
  split; try done; intros i Hi; do 8 (destruct i as [|i]; [by vm_compute|]); lia.
Qed.

Lemma alloc3_desc_all_or_nothing_witness :
  wp alloc3_desc
    (fun r s' => r = Some (1, 2, 4) /\ v_free (v_disk s') = [0; 0; 0; 0; 0; 0; 1; 1]) demo_vst.
Proof.
  eapply wp_conseq; [apply alloc3_desc_all_or_nothing; exact demo_vdisk_ok|].
  intros r s' H. change (r = Some (1, 2, 4) /\ s' = setv_disk (taken [1; 2; 4]%nat demo_disk) demo_vst) in H.
  destruct H as [-> ->]. split; reflexivity.
Defined.

Lemma virtio_disk_rw_completes_witness :
  wp (virtio_disk_rw (im := demo_image) (VW := demo_vworld) 0x80014000 true)
    (fun _ s' => vdisk_ok (v_disk s') /\
       served (im := demo_image) (VW := demo_vworld) demo_qhart demo_lock 0x80014000 true 40 demo_vst s' /\
       v_free (v_disk s') = [0; 1; 1; 0; 1; 0; 1; 1]) demo_vst.
Proof.
  eapply wp_strong.
  - apply (virtio_disk_rw_completes (im := demo_image) (VW := demo_vworld) demo_qhart demo_lock
      (demo_vworld_ok demo_qhart demo_lock) 0x80014000 true 20 1 demo_vst).
    + exact demo_quiet.
    + exact demo_lock_free.
    + reflexivity.
    + exact demo_vdisk_ok.
    + reflexivity.
  - intros u s' Heq (_ & H1 & H2). split; [exact H1|]. split; [exact H2|].
    vm_compute in Heq. by injection Heq as _ <-.
Defined.

(** Two completions, across the wrap of the counters. *)
Lemma virtio_disk_intr_completes_witness :
  wp (virtio_disk_intr (im := demo_image) (VW := demo_vworld))
    (fun _ s' => v_woken s' = [WBuf 0x80014000; WBuf 0x80015000] /\ v_used_idx (v_disk s') = 1) demo_vst.
Proof.
  eapply wp_conseq.
  - apply (virtio_disk_intr_completes (im := demo_image) (VW := demo_vworld) demo_vst).
    + exact demo_quiet.
    + exact demo_lock_free.
    + vm_compute. split; [discriminate|reflexivity].
    + vm_compute. split; [discriminate|reflexivity].
    + change (completed (v_disk demo_vst)) with [3; 0].
      intros id [->|[->|[]%elem_of_nil]%elem_of_cons]%elem_of_cons; vm_compute; split; try reflexivity; split; discriminate || reflexivity.
  - intros u s' [-> _]. split; reflexivity.
Defined.
