(* ===== verification/VirtioBio.v ===== *)
(** * The driver and the buffer cache

    [bio.c] sees the driver through [World.virtio_disk_rw], whose contract
    [WorldOk] says that a call transfers one block.  Here the driver of
    [Virtio] is shown to meet it: the one request that a call of
    [virtio_disk_rw] for a buffer of the cache hands to the device is, when
    the device performs it the way the virtio specification says, the effect
    [disk_effect] of the contract. *)
From stdpp Require Import base gmap strings numbers option list.
From S2P Require Import Prelude Layout Machine Memory Kernel Demo FsState Sleeplock Ring Bio Virtio VirtioLogic.
Open Scope Z_scope.

(** [sizeof(struct buf)], and where [bcache.buf] begins. *)
Definition sizeof_buf : Z := 88 + BSIZE.
Definition buf_addr (bcache : Z) (b : nat) : Z := bcache + 24 + sizeof_buf * Z.of_nat b.

(** The buffer whose [data] is at address [a]. *)
Definition data_buf (bcache a : Z) : option nat :=
  let o := a - data_addr (bcache + 24) in
  if (0 <=? o) && (o mod sizeof_buf =? 0) then Some (Z.to_nat (o / sizeof_buf)) else None.

(** What a device does with a request for a block: two sectors of 512 bytes
    to or from the data of the buffer at [q_data]. *)
Definition perform (bcache : Z) (q : vreq) (s : fstate) : fstate :=
  match data_buf bcache (q_data q) with
  | None => s
  | Some b =>
      match bufs s !! b with
      | None => s
      | Some x =>
          let bno := q_sector q / 2 in
          if negb ((q_len q =? BSIZE) && Z.even (q_sector q)) then s else
          if q_write q then setf_disk (disk_put bno (b_data x) (f_disk s)) s
          else set_bufs (<[b := setb_data (disk_get (f_disk s) bno) x]> (bufs s)) s
      end
  end.

Lemma data_buf_addr bcache b : data_buf bcache (data_addr (buf_addr bcache b)) = Some b.
Proof.
  unfold data_buf, data_addr, buf_addr.
  replace (_ - _) with (Z.of_nat b * sizeof_buf) by lia.
  rewrite Z.mod_mul, Z.div_mul by done. unfold sizeof_buf, BSIZE.
  destruct (Z.leb_spec 0 (Z.of_nat b * (88 + 1024))); [|lia]. simpl. by rewrite Nat2Z.id.
Qed.

Lemma perform_effect bcache b w x st s :
  bufs s !! b = Some x -> 0 <= b_blockno x < 2 ^ 31 ->
  perform bcache (mkVreq w (u32 (b_blockno x * 2)) (data_addr (buf_addr bcache b)) 1024 st) s =
  disk_effect b w s.
Proof.
  intros Hb Hn. assert (u32 (b_blockno x * 2) = b_blockno x * 2) as Hu.
  { unfold u32. apply Z.mod_small. lia. }
  unfold perform, disk_effect. cbn [q_data q_sector q_len q_write]. rewrite data_buf_addr, Hb, Hu.
  rewrite Z.div_mul, Z.even_mul, orb_true_r by done. by destruct w.
Qed.

(** The buffers of the cache as the driver has them. *)
Definition same_bufs (bcache : Z) (s : fstate) (v : vst) : Prop :=
  forall b x, bufs s !! b = Some x ->
    exists d, v_bufs v !! buf_addr bcache b = Some (mkVbuf d (b_blockno x)).

(** A call for buffer [b] returns when the device is done with it.  At its
    only notification the newest entry of the avail ring leads the device to
    a request, and performing that request is the transfer the buffer cache
    counts on. *)
Theorem virtio_disk_rw_meets_contract `{im : Image} `{VW : VWorld} h lk (WOK : VWorldOk h lk)
    bcache b w x s v :
  hart_quiet h -> lock_free lk -> lget diskL v = (h, lk) -> vdisk_ok (v_disk v) ->
  same_bufs bcache s v -> bufs s !! b = Some x -> 0 <= b_blockno x < 2 ^ 31 ->
  wp (virtio_disk_rw (buf_addr bcache b) w) (fun _ v' =>
    lget diskL v' = (h, lk) /\ vdisk_ok (v_disk v') /\ pending (buf_addr bcache b) v' = false /\
    exists v2 v3 i q,
      rtc (disk_turn (buf_addr bcache b)) v2 v3 /\ v_bufs v' = v_bufs v3 /\
      last (v_regs v2) = Some (VIRTIO_MMIO_QUEUE_NOTIFY, 0) /\
      (let a := v_avail (v_disk v2) in
       nth (Z.to_nat (u16 (av_idx a - 1) mod NUM)) (av_ring a) (-1) = i) /\
      device_sees (v_disk v2) i = Some q /\ perform bcache q s = disk_effect b w s) v.
Proof.
  intros Hq Hf Hl Hok Hs Hb Hn. destruct (Hs b x Hb) as [d Hd].
  eapply wp_conseq; [by eapply virtio_disk_rw_wp|].
  intros [] v' (H1 & H2 & v1 & v2 & v3 & i0 & i1 & i2 & l & _ & _ & _ & Hsub & Ht & _ & Hp & -> & _).
  split_and!; [done..|]. destruct Hsub as [_ Hring Hsees _ _ Hnot].
  exists v2, v3, (Z.of_nat i0), (mkVreq w (u32 (b_blockno x * 2)) (data_addr (buf_addr bcache b)) 1024
    (status_addr (Z.of_nat i0))).
  split_and!; try done. by apply perform_effect.
Qed.
