(* ===== verification/Trap.v ===== *)
(** * Traps and system calls ([kernel/trap.c], [kernel/syscall.c],
    [kernel/sysproc.c], [kernel/plic.c])

    Beside the kernel's core state there are the supervisor trap registers and
    the interrupt controller, a log of the writes it received.  The device
    handlers and the system calls of [sysfile.c] work on states of their own;
    here they are an interface, [Services].

    The registers [sepc], [scause] and [stval] hold what the trap that is being
    handled put there; a handler that runs with interrupts enabled may see them
    change, which the interface may do. *)
From stdpp Require Import base gmap strings numbers option list.
From S2P Require Import Prelude Layout Machine Memory Kernel Demo RcuList Proc.
Open Scope Z_scope.

Definition SYS_fork : Z := 1.
Definition SYS_exit : Z := 2.
Definition SYS_wait : Z := 3.
Definition SYS_pipe : Z := 4.
Definition SYS_read : Z := 5.
Definition SYS_kill : Z := 6.
Definition SYS_exec : Z := 7.
Definition SYS_fstat : Z := 8.
Definition SYS_chdir : Z := 9.
Definition SYS_dup : Z := 10.
Definition SYS_getpid : Z := 11.
Definition SYS_sbrk : Z := 12.
Definition SYS_sleep : Z := 13.
Definition SYS_uptime : Z := 14.
Definition SYS_open : Z := 15.
Definition SYS_write : Z := 16.
Definition SYS_mknod : Z := 17.
Definition SYS_unlink : Z := 18.
Definition SYS_link : Z := 19.
Definition SYS_mkdir : Z := 20.
Definition SYS_close : Z := 21.

(** The supervisor trap registers. *)
Record tregs := mkRegs { stvec : Z; sepc : Z; scause : Z; stval : Z; sip : Z }.

Record tst := mkT { t_k : kst; t_regs : tregs; t_plic : list (Z * Z) }.

(** [struct trapframe], by offset *)
Definition tf_kernel_satp (t : Z) : Z := t + 0.
Definition tf_kernel_sp (t : Z) : Z := t + 8.
Definition tf_kernel_trap (t : Z) : Z := t + 16.
Definition tf_epc (t : Z) : Z := t + 24.
Definition tf_kernel_hartid (t : Z) : Z := t + 32.
Definition tf_a (t n : Z) : Z := t + (112 + 8 * n).

(** The calls that are not served by [sysproc.c]. *)
Inductive fscall := FPipe | FRead | FExec | FFstat | FChdir | FDup | FOpen | FWrite | FMknod | FUnlink | FLink | FMkdir | FClose.

Class Services := {
  kernelvec_addr : Z;
  uservec_addr : Z;
  userret_addr : Z;
  plic_pending : Z -> tst -> Z;     (** what the claim register of a hart answers *)
  s_uartintr : M tst unit;
  s_virtio_disk_intr : M tst unit;
  s_fscall : fscall -> M tst Z;
  sleep_patience : nat
}.

Definition kL : lens tst kst := Lens t_k (fun k s => mkT k (t_regs s) (t_plic s)).
Definition thartL : lens tst hartst := lens_comp kL hartL.
Definition set_regs (f : tregs -> tregs) : M tst unit := modify (fun s => mkT (t_k s) (f (t_regs s)) (t_plic s)).
Definition w_stvec (x : Z) : M tst unit := set_regs (fun r => mkRegs x (sepc r) (scause r) (stval r) (sip r)).
Definition w_sepc (x : Z) : M tst unit := set_regs (fun r => mkRegs (stvec r) x (scause r) (stval r) (sip r)).
Definition w_sip (x : Z) : M tst unit := set_regs (fun r => mkRegs (stvec r) (sepc r) (scause r) (stval r) x).

(** A 32-bit store to the interrupt controller. *)
Definition plic_write (a v : Z) : M tst unit := modify (fun s => mkT (t_k s) (t_regs s) (t_plic s ++ [(a, u32 v)])).

Section trap.
Context `{im : Image} `{OS : Outside} `{SV : Services}.

(** ** plic.c *)

Definition plicinit : M tst unit :=
  plic_write (PLIC + UART0_IRQ * 4) 1;;
  plic_write (PLIC + VIRTIO0_IRQ * 4) 1.

Definition plicinithart : M tst unit :=
  hart ← zoom thartL cpuid;
  plic_write (PLIC_SENABLE hart) (Z.lor (Z.shiftl 1 UART0_IRQ) (Z.shiftl 1 VIRTIO0_IRQ));;
  plic_write (PLIC_SPRIORITY hart) 0.

Definition plic_claim : M tst Z :=
  hart ← zoom thartL cpuid;
  gets (fun s => i32 (plic_pending hart s)).

Definition plic_complete (irq : Z) : M tst unit :=
  hart ← zoom thartL cpuid;
  plic_write (PLIC_SCLAIM hart) irq.

(** ** Interrupts *)

Definition trapinit : M tst unit := zoom kL (zoom ticksL (zoom lsnd (initlock (strlit "time")))).

Definition trapinithart : M tst unit := w_stvec kernelvec_addr.

Definition clockintr : M tst unit :=
  zoom kL (zoom ticksL acquire);;
  zoom kL (modify (fun s => set_tick (mkTick (tickslock (k_tick s)) (u32 (ticks (k_tick s) + 1))) s));;
  zoom kL (wakeup ticks_addr);;
  zoom kL (zoom ticksL release).

Definition devintr : M tst Z :=
  sc ← gets (fun s => scause (t_regs s));
  if negb (Z.land sc 0x8000000000000000 =? 0) && (Z.land sc 0xff =? 9) then
    irq ← plic_claim;
    (if irq =? UART0_IRQ then s_uartintr
     else if irq =? VIRTIO0_IRQ then s_virtio_disk_intr
     else if negb (irq =? 0) then zoom kL klog
     else skip);;
    (if negb (irq =? 0) then plic_complete irq else skip);;
    mret 1
  else if sc =? 0x8000000000000001 then
    id ← zoom thartL cpuid;
    (if id =? 0 then clockintr else skip);;
    x ← gets (fun s => sip (t_regs s));
    w_sip (Z.land x (Z.lnot 2));;
    mret 2
  else mret 0.

(** [__sync_lock_test_and_set(&(mycpu()->idle), 0)] *)
Definition not_idle : M tst unit := zoom thartL (mycpu_set (set_idle 0)).

Definition kerneltrap : M tst unit :=
  epc ← gets (fun s => sepc (t_regs s));
  ss ← gets (fun s => sstatus (k_hart (t_k s)));
  not_idle;;
  if Z.land ss SSTATUS_SPP =? 0 then panic "kerneltrap: not from supervisor mode" else
  on ← zoom thartL intr_get;
  if negb (on =? 0) then panic "kerneltrap: interrupts enabled" else
  which_dev ← devintr;
  if which_dev =? 0 then zoom kL klog;; zoom kL klog;; panic "kerneltrap" else
  (if which_dev =? 2 then
     p ← zoom kL myproc;
     if p =? 0 then skip else
     p ← zoom kL myproc;
     state ← zoom kL (load32 (p_state p));
     if state =? state_code RUNNING then zoom kL yield else skip
   else skip);;
  w_sepc epc;;
  zoom thartL (w_sstatus ss).

(** ** sysproc.c *)

(** [argraw] of the running process *)
Definition k_argraw (n : Z) : M tst Z :=
  p ← zoom kL myproc;
  tf ← zoom kL (load64 (p_trapframe p));
  if (0 <=? n) && (n <=? 5) then zoom kL (load64 (tf_a tf n)) else panic "argraw".
Definition k_argint (n : Z) : M tst Z := x ← k_argraw n; mret (i32 x).

(** A result of type [uint64]. *)
Definition as_u64 (m : M kst Z) : M tst Z := x ← zoom kL m; mret (u64 x).

Definition sys_exit : M tst Z := n ← k_argint 0; zoom kL (exit n);; mret 0.
Definition sys_getpid : M tst Z := as_u64 (p ← myproc; loadi (p_pid p)).
Definition sys_fork : M tst Z := as_u64 fork.
Definition sys_wait : M tst Z := p ← k_argraw 0; as_u64 (wait p).

Definition sys_sbrk : M tst Z :=
  n ← k_argint 0;
  p ← zoom kL myproc;
  sz ← zoom kL (load64 (p_sz p));
  let addr := i32 sz in
  r ← zoom kL (growproc n);
  if r <? 0 then mret (u64 (-1)) else mret (u64 addr).

Definition sys_sleep : M tst Z :=
  n ← k_argint 0;
  zoom kL (zoom ticksL acquire);;
  ticks0 ← gets (fun s => ticks (k_tick (t_k s)));
  loop (S sleep_patience) (fun _ : unit =>
    t ← gets (fun s => ticks (k_tick (t_k s)));
    if u32 (t - ticks0) <? u32 n then
      p ← zoom kL myproc;
      killed ← zoom kL (loadi (p_killed p));
      if negb (killed =? 0) then zoom kL (zoom ticksL release);; mret (inr (u64 (-1)))
      else zoom kL (sleep ticks_addr ticksL);; mret (inl tt)
    else zoom kL (zoom ticksL release);; mret (inr 0)) tt.

Definition sys_kill : M tst Z := pid ← k_argint 0; as_u64 (kill pid).

Definition sys_uptime : M tst Z :=
  zoom kL (zoom ticksL acquire);;
  xticks ← gets (fun s => ticks (k_tick (t_k s)));
  zoom kL (zoom ticksL release);;
  mret xticks.

(** ** syscall.c *)

(** The table [syscalls]; entry 0 is null. *)
Definition syscalls : list (option (M tst Z)) :=
  [None; Some sys_fork; Some sys_exit; Some sys_wait; Some (s_fscall FPipe); Some (s_fscall FRead);
   Some sys_kill; Some (s_fscall FExec); Some (s_fscall FFstat); Some (s_fscall FChdir);
   Some (s_fscall FDup); Some sys_getpid; Some sys_sbrk; Some sys_sleep; Some sys_uptime;
   Some (s_fscall FOpen); Some (s_fscall FWrite); Some (s_fscall FMknod); Some (s_fscall FUnlink);
   Some (s_fscall FLink); Some (s_fscall FMkdir); Some (s_fscall FClose)].

(** The address of [p->trapframe->a0] is computed before the call. *)
Definition syscall : M tst unit :=
  p ← zoom kL myproc;
  tf ← zoom kL (load64 (p_trapframe p));
  a7 ← zoom kL (load64 (tf_a tf 7));
  let num := i32 a7 in
  match (if (0 <? num) && (num <? Z.of_nat (length syscalls)) then mjoin (syscalls !! Z.to_nat num) else None) with
  | Some call => r ← call; zoom kL (store64 (tf_a tf 0) r)
  | None =>
      _ ← zoom kL (loadi (p_pid p));
      zoom kL klog;;
      tf ← zoom kL (load64 (p_trapframe p));
      zoom kL (store64 (tf_a tf 0) (u64 (-1)))
  end.

(** ** From and to user space *)

(** Up to the jump to [userret] with the arguments returned. *)
Definition usertrapret : M tst (Z * Z * Z) :=
  p ← zoom kL myproc;
  zoom thartL intr_off;;
  w_stvec (u64 (TRAMPOLINE + (uservec_addr - trampoline_sym)));;
  let field (f : Z -> Z) (m : M kst Z) : M tst unit :=
    tf ← zoom kL (load64 (p_trapframe p)); x ← zoom kL m; zoom kL (store64 (f tf) x) in
  field tf_kernel_satp (gets (fun s => satp (k_vm s)));;
  field tf_kernel_sp (ks ← load64 (p_kstack p); mret (u64 (ks + PGSIZE)));;
  field tf_kernel_trap (mret usertrap_addr);;
  field tf_kernel_hartid (gets (fun s => tp (k_hart s)));;
  x ← zoom thartL (gets sstatus);
  zoom thartL (w_sstatus (Z.lor (Z.land x (Z.lnot SSTATUS_SPP)) SSTATUS_SPIE));;
  tf ← zoom kL (load64 (p_trapframe p));
  epc ← zoom kL (load64 (tf_epc tf));
  w_sepc epc;;
  pt ← zoom kL (load64 (p_pagetable p));
  mret (u64 (TRAMPOLINE + (userret_addr - trampoline_sym)), TRAPFRAME, MAKE_SATP pt).

Definition usertrap : M tst (Z * Z * Z) :=
  not_idle;;
  ss ← zoom thartL (gets sstatus);
  if negb (Z.land ss SSTATUS_SPP =? 0) then panic "usertrap: not from user mode" else
  w_stvec kernelvec_addr;;
  p ← zoom kL myproc;
  tf ← zoom kL (load64 (p_trapframe p));
  epc ← gets (fun s => sepc (t_regs s));
  zoom kL (store64 (tf_epc tf) epc);;
  sc ← gets (fun s => scause (t_regs s));
  which_dev ← (if sc =? 8 then
      killed ← zoom kL (loadi (p_killed p));
      (if negb (killed =? 0) then zoom kL (exit (-1)) else skip);;
      tf ← zoom kL (load64 (p_trapframe p));
      epc ← zoom kL (load64 (tf_epc tf));
      zoom kL (store64 (tf_epc tf) (u64 (epc + 4)));;
      zoom thartL intr_on;;
      syscall;;
      mret 0
    else
      d ← devintr;
      (if d =? 0 then zoom kL klog;; zoom kL klog;; zoom kL (store32 (p_killed p) 1) else skip);;
      mret d);
  killed ← zoom kL (loadi (p_killed p));
  (if negb (killed =? 0) then zoom kL (exit (-1)) else skip);;
  (if which_dev =? 2 then zoom kL yield else skip);;
  usertrapret.

End trap.
