(* ===== verification/TrapLogic.v ===== *)
(** * Theorems about traps

    A system call from user space and back, and the routing of interrupts. *)
From stdpp Require Import base gmap strings numbers option list.
From S2P Require Import Prelude Layout Machine Memory Kernel Demo RcuList Proc Trap.
Open Scope Z_scope.

(** The state [s] with hart [h], memory [m] and trap registers [r]. *)
Definition at_ (s : tst) (h : hartst) (m : mem) (r : tregs) : tst :=
  mkT (set_mem m (set_hart h (t_k s))) r (t_plic s).

Lemma at_id s : at_ s (k_hart (t_k s)) (k_mem (t_k s)) (t_regs s) = s.
Proof. by destruct s as [[] r l]. Qed.

(** The hart runs process [p] and holds no lock. *)
Record runs (p : Z) (h : hartst) : Prop := {
  ru_ok : hart_ok h;
  ru_proc : c_proc (cur h) = p;
  ru_noff : c_noff (cur h) = 0
}.

Lemma runs_balanced p h : runs p h -> runs p (balanced h).
Proof.
  intros [Hok Hp Hn]. split; [by apply hart_ok_balanced|..];
    unfold balanced; rewrite cur_upd by done; by rewrite Hn.
Qed.

Lemma runs_idle p h v : runs p h -> runs p (upd_cur (set_idle v) h).
Proof.
  intros [Hok Hp Hn]. split; [by apply hart_ok_upd|by rewrite cur_upd|by rewrite cur_upd].
Qed.

(** Interrupts may be enabled and disabled while no lock is held. *)
Definition with_status (x : Z) (h : hartst) : hartst := mkHart (cpus h) (tp h) x.

Lemma runs_status p h x : runs p h -> runs p (with_status x h).
Proof.
  intros [Hok Hp Hn]. pose proof Hok as [? ? _ _]. split; [|done|done].
  apply hart_ok_intro; [done|done| |]; change (cur (with_status x h)) with (cur h); lia.
Qed.

Lemma sstatus_balanced h : sstatus (balanced h) = sstatus h.
Proof. done. Qed.

Section trap.
Context `{im : Image} `{OS : Outside} `{SV : Services}.

Lemma k_myproc p k Q :
  runs p (k_hart k) -> Q p (set_hart (balanced (k_hart k)) k) -> wp myproc Q k.
Proof.
  intros [Hok Hp Hn] HQ. unfold myproc. destruct k as [h mm km fp pl pt tk vm]. cbn [k_hart] in *.
  apply wp_bind, wp_zoom. eapply wp_eq; [by apply push_off_eq|]. cbn beta.
  pose proof (hart_ok_pushed h Hok) as Hokp.
  apply wp_bind, wp_zoom. eapply wp_eq; [by apply mycpu_eq|].
  assert (Hcp : cur (pushed h) = set_noff 1 (set_intena (sie_z h) (cur h))).
  { unfold pushed. rewrite cur_upd by (by apply hart_ok_sie_off). change (cur (sie_off h)) with (cur h). by rewrite Hn. }
  apply wp_bind, wp_zoom. eapply wp_eq; [apply pop_off_eq; [done|cbn; by rewrite Hcp]|].
  apply wp_ret. cbn. rewrite Hcp. cbn. rewrite Hp, popped_pushed by done. exact HQ.
Qed.

Lemma t_myproc p s h m r Q :
  runs p h -> Q p (at_ s (balanced h) m r) -> wp (zoom kL myproc) Q (at_ s h m r).
Proof. intros Hr HQ. by apply wp_zoom, (k_myproc p). Qed.

Lemma t_load n a s h m r Q :
  ram a (Z.of_nat n) -> Q (ld n m a) (at_ s h m r) -> wp (zoom kL (load n a)) Q (at_ s h m r).
Proof. intros Hr HQ. by apply wp_zoom, wp_load. Qed.

Lemma t_loadi a s h m r Q :
  ram a 4 -> Q (ldi m a) (at_ s h m r) -> wp (zoom kL (loadi a)) Q (at_ s h m r).
Proof. intros Hr HQ. by apply wp_zoom, wp_loadi. Qed.

Lemma t_store n a v s h m r Q :
  ram a (Z.of_nat n) -> Q tt (at_ s h (st n m a v) r) -> wp (zoom kL (store n a v)) Q (at_ s h m r).
Proof. intros Hr HQ. by apply wp_zoom, wp_store. Qed.

Lemma t_regs_set f s h m r Q : Q tt (at_ s h m (f r)) -> wp (set_regs f) Q (at_ s h m r).
Proof. done. Qed.

Lemma t_status x s h m r Q : Q tt (at_ s (with_status x h) m r) -> wp (zoom thartL (w_sstatus x)) Q (at_ s h m r).
Proof. done. Qed.

Lemma t_intr_off s h m r Q :
  Q tt (at_ s (with_status (Z.land (sstatus h) (Z.lnot SSTATUS_SIE)) h) m r) -> wp (zoom thartL intr_off) Q (at_ s h m r).
Proof. done. Qed.

Lemma t_intr_on s h m r Q :
  Q tt (at_ s (with_status (Z.lor (sstatus h) SSTATUS_SIE) h) m r) -> wp (zoom thartL intr_on) Q (at_ s h m r).
Proof. done. Qed.

Lemma t_get_status s h m r Q : Q (sstatus h) (at_ s h m r) -> wp (zoom thartL (gets sstatus)) Q (at_ s h m r).
Proof. done. Qed.

Lemma t_get_reg {A} (f : tst -> A) s h m r Q : Q (f (at_ s h m r)) (at_ s h m r) -> wp (gets f) Q (at_ s h m r).
Proof. done. Qed.

Lemma t_not_idle p s h m r Q :
  runs p h -> Q tt (at_ s (upd_cur (set_idle 0) h) m r) -> wp not_idle Q (at_ s h m r).
Proof. intros [Hok _ _] HQ. unfold not_idle. apply wp_zoom. by eapply wp_eq; [apply mycpu_set_eq|]. Qed.

(** ** Processes in memory *)

(** A [struct proc] at [p] whose trapframe is the page at [tf]. *)
Record proc_mem (m : mem) (p tf : Z) : Prop := {
  pm_ram : ram p sizeof_proc;
  pm_tf : ram tf PGSIZE;
  pm_field : ld64 m (p_trapframe p) = tf;
  pm_apart : tf + PGSIZE <= p \/ p + sizeof_proc <= tf
}.

(** Stores into the trapframe leave the process alone. *)
Lemma proc_mem_st m p tf o v :
  proc_mem m p tf -> 0 <= o -> o + 8 <= PGSIZE -> proc_mem (st 8 m (tf + o) v) p tf.
Proof.
  intros [H1 H2 H3 H4] Ho1 Ho2. split; try done. rewrite <- H3 at 2. apply ld_st_disj.
  unfold p_trapframe, sizeof_proc in *. change (Z.of_nat 8) with 8. lia.
Qed.

Lemma pm_field_ram m p tf o n : proc_mem m p tf -> 0 <= o -> o + n <= sizeof_proc -> ram (p + o) n.
Proof. intros [[H1 H1'] _ _ _] Ho Hn. split; lia. Qed.

Lemma pm_tf_ram m p tf o : proc_mem m p tf -> 0 <= o -> o + 8 <= PGSIZE -> ram (tf + o) 8.
Proof. intros [_ [H1 H1'] _ _] Ho Hn. split; lia. Qed.

Lemma pm_ld_st m p tf o o' n v :
  proc_mem m p tf -> 0 <= o -> o + 8 <= PGSIZE -> 0 <= o' -> o' + Z.of_nat n <= sizeof_proc ->
  ld n (st 8 m (tf + o) v) (p + o') = ld n m (p + o').
Proof. intros [_ _ _ H4] Ho Hn Ho' Hn'. apply ld_st_disj. change (Z.of_nat 8) with 8. lia. Qed.

(** ** The return to user space *)

(** Interrupts off, previous mode user, previous interrupts on. *)
Definition user_status (x : Z) : Z :=
  Z.lor (Z.land (Z.land x (Z.lnot SSTATUS_SIE)) (Z.lnot SSTATUS_SPP)) SSTATUS_SPIE.

Lemma user_status_bits x :
  Z.testbit (user_status x) 1 = false /\ Z.testbit (user_status x) 8 = false /\ Z.testbit (user_status x) 5 = true.
Proof.
  unfold user_status. rewrite !Z.lor_spec, !Z.land_spec, !Z.lnot_spec by lia.
  change (Z.testbit SSTATUS_SIE 1) with true. change (Z.testbit SSTATUS_SPP 8) with true.
  change (Z.testbit SSTATUS_SPIE 5) with true. cbn [negb].
  rewrite !andb_false_r, orb_true_r. done.
Qed.

(** [p->trapframe->f = x] *)
Lemma t_field p tf o (f : Z -> Z) (mx : M kst Z) x s h m r Q :
  proc_mem m p tf -> f tf = tf + o -> 0 <= o /\ o + 8 <= PGSIZE ->
  mx (t_k (at_ s h m r)) = Ret x (t_k (at_ s h m r)) ->
  Q tt (at_ s h (st 8 m (tf + o) x) r) ->
  wp (tf ← zoom kL (load64 (p_trapframe p)); x ← zoom kL mx; zoom kL (store64 (f tf) x)) Q (at_ s h m r).
Proof.
  intros Hp Hf [Ho1 Ho2] Hx HQ.
  apply wp_bind, t_load; [exact (pm_field_ram _ _ _ 104 8 Hp ltac:(lia) ltac:(unfold sizeof_proc; lia))|].
  rewrite (pm_field _ _ _ Hp). apply wp_bind, wp_zoom. eapply wp_eq; [exact Hx|].
  change (lset kL (t_k (at_ s h m r)) (at_ s h m r)) with (at_ s h m r).
  rewrite Hf. apply t_store; [by apply (pm_tf_ram m p)|]. exact HQ.
Qed.

(** What [uservec] will need. *)
Definition ret_mem (s : tst) (h : hartst) (p tf : Z) (m : mem) : mem :=
  let m := st 8 m (tf_kernel_satp tf) (satp (k_vm (t_k s))) in
  let m := st 8 m (tf_kernel_sp tf) (u64 (ld 8 m (p_kstack p) + PGSIZE)) in
  let m := st 8 m (tf_kernel_trap tf) usertrap_addr in
  st 8 m (tf_kernel_hartid tf) (tp h).

Lemma ret_mem_ok s h p tf m : proc_mem m p tf -> proc_mem (ret_mem s h p tf m) p tf.
Proof.
  intros H. unfold ret_mem, tf_kernel_satp, tf_kernel_sp, tf_kernel_trap, tf_kernel_hartid.
  repeat (apply proc_mem_st; [|unfold PGSIZE; lia..]). done.
Qed.

(** Elsewhere memory is as it was. *)
Lemma ret_mem_frame s h p tf m n a :
  a + Z.of_nat n <= tf \/ tf + 40 <= a \/ (tf + 24 <= a /\ a + Z.of_nat n <= tf + 32) ->
  ld n (ret_mem s h p tf m) a = ld n m a.
Proof.
  intros Ha. unfold ret_mem, tf_kernel_satp, tf_kernel_sp, tf_kernel_trap, tf_kernel_hartid.
  rewrite !ld_st_disj; [done|..]; change (Z.of_nat 8) with 8; lia.
Qed.

Definition ret_regs (m : mem) (tf : Z) (r : tregs) : tregs :=
  mkRegs (u64 (TRAMPOLINE + (uservec_addr - trampoline_sym))) (ld 8 m (tf_epc tf)) (scause r) (stval r) (sip r).

Lemma usertrapret_wp p tf s h m r Q :
  runs p h -> proc_mem m p tf ->
  let h' := with_status (user_status (sstatus h)) (balanced h) in
  let m' := ret_mem s h p tf m in
  Q (u64 (TRAMPOLINE + (userret_addr - trampoline_sym)), TRAPFRAME, MAKE_SATP (ld 8 m (p_pagetable p)))
    (at_ s h' m' (ret_regs m tf r)) ->
  wp usertrapret Q (at_ s h m r).
Proof.
  intros Hr Hp h' m' HQ. unfold usertrapret. apply wp_bind. eapply t_myproc; [done|].
  apply wp_bind, t_intr_off, wp_bind, t_regs_set.
  assert (H1 : proc_mem (st 8 m (tf + 0) (satp (k_vm (t_k s)))) p tf) by (apply proc_mem_st; [done|unfold PGSIZE; lia..]).
  apply wp_bind, (t_field p tf 0 _ _ (satp (k_vm (t_k s)))); [done|done|unfold PGSIZE; lia|done|].
  apply wp_bind, (t_field p tf 8 _ _ (u64 (ld 8 (st 8 m (tf + 0) (satp (k_vm (t_k s)))) (p_kstack p) + PGSIZE)));
    [done|done|unfold PGSIZE; lia| |].
  { erewrite bind_ret; [|apply load_eq; exact (pm_field_ram _ _ _ 80 8 H1 ltac:(lia) ltac:(unfold sizeof_proc; lia))]. done. }
  set (m2 := st 8 (st 8 m _ _) _ _).
  assert (H2 : proc_mem m2 p tf) by (apply proc_mem_st; [done|unfold PGSIZE; lia..]).
  apply wp_bind, (t_field p tf 16 _ _ usertrap_addr); [done|done|unfold PGSIZE; lia|done|].
  assert (H3 : proc_mem (st 8 m2 (tf + 16) usertrap_addr) p tf) by (apply proc_mem_st; [done|unfold PGSIZE; lia..]).
  apply wp_bind, (t_field p tf 32 _ _ (tp h)); [done|done|unfold PGSIZE; lia|done|].
  change (st 8 (st 8 m2 _ _) _ _) with m'. assert (Hp' : proc_mem m' p tf) by (by apply ret_mem_ok).
  apply wp_bind, t_get_status, wp_bind, t_status.
  apply wp_bind, t_load; [exact (pm_field_ram _ _ _ 104 8 Hp' ltac:(lia) ltac:(unfold sizeof_proc; lia))|].
  rewrite (pm_field _ _ _ Hp').
  apply wp_bind, t_load; [exact (pm_tf_ram _ _ _ 24 Hp' ltac:(lia) ltac:(unfold PGSIZE; lia))|].
  apply wp_bind, t_regs_set.
  apply wp_bind, t_load; [exact (pm_field_ram _ _ _ 96 8 Hp' ltac:(lia) ltac:(unfold sizeof_proc; lia))|].
  apply wp_ret. pose proof (pm_apart _ _ _ Hp) as Hap. unfold PGSIZE, sizeof_proc in Hap.
  unfold m'. rewrite !ret_mem_frame; [exact HQ|..]; unfold p_pagetable, tf_epc; change (Z.of_nat 8) with 8; lia.
Qed.

(** ** The system call [getpid] *)

(** Loads of fields of the process and of its trapframe. *)
Lemma t_load_field n o p tf s h m r Q :
  proc_mem m p tf -> 0 <= o /\ o + Z.of_nat n <= sizeof_proc -> Q (ld n m (p + o)) (at_ s h m r) ->
  wp (zoom kL (load n (p + o))) Q (at_ s h m r).
Proof. intros Hp [? ?] HQ. by apply t_load; [apply (pm_field_ram m p tf)|]. Qed.

Lemma t_loadi_field o p tf s h m r Q :
  proc_mem m p tf -> 0 <= o /\ o + 4 <= sizeof_proc -> Q (ldi m (p + o)) (at_ s h m r) ->
  wp (zoom kL (loadi (p + o))) Q (at_ s h m r).
Proof. intros Hp [? ?] HQ. by apply t_loadi; [apply (pm_field_ram m p tf)|]. Qed.

Lemma t_trapframe p tf s h m r Q :
  proc_mem m p tf -> Q tf (at_ s h m r) -> wp (zoom kL (load64 (p_trapframe p))) Q (at_ s h m r).
Proof.
  intros Hp HQ. apply (t_load_field 8 104 p tf); [done|unfold sizeof_proc; lia|].
  change (p + 104) with (p_trapframe p). by rewrite (pm_field _ _ _ Hp).
Qed.

Lemma t_load_tf o p tf s h m r Q :
  proc_mem m p tf -> 0 <= o /\ o + 8 <= PGSIZE -> Q (ld 8 m (tf + o)) (at_ s h m r) ->
  wp (zoom kL (load 8 (tf + o))) Q (at_ s h m r).
Proof. intros Hp [? ?] HQ. by apply t_load; [apply (pm_tf_ram m p tf)|]. Qed.

Lemma t_store_tf o v p tf s h m r Q :
  proc_mem m p tf -> 0 <= o /\ o + 8 <= PGSIZE ->
  (proc_mem (st 8 m (tf + o) v) p tf -> Q tt (at_ s h (st 8 m (tf + o) v) r)) ->
  wp (zoom kL (store 8 (tf + o) v)) Q (at_ s h m r).
Proof.
  intros Hp [? ?] HQ. apply t_store; [by apply (pm_tf_ram m p tf)|]. apply HQ. by apply proc_mem_st.
Qed.

Lemma sys_getpid_wp p tf s h m r Q :
  runs p h -> proc_mem m p tf ->
  Q (u64 (ldi m (p_pid p))) (at_ s (balanced h) m r) -> wp sys_getpid Q (at_ s h m r).
Proof.
  intros Hr Hp HQ. unfold sys_getpid, as_u64. apply wp_bind, wp_zoom, wp_bind, (k_myproc p); [done|].
  apply wp_loadi; [exact (pm_field_ram _ _ _ 52 4 Hp ltac:(lia) ltac:(unfold sizeof_proc; lia))|]. exact HQ.
Qed.

Lemma syscall_getpid_wp p tf s h m r Q :
  runs p h -> proc_mem m p tf -> i32 (ld 8 m (tf_a tf 7)) = SYS_getpid ->
  (let m' := st 8 m (tf + 112) (u64 (ldi m (p_pid p))) in
   proc_mem m' p tf -> Q tt (at_ s (balanced (balanced h)) m' r)) ->
  wp syscall Q (at_ s h m r).
Proof.
  intros Hr Hp Ha7 HQ. unfold syscall. apply wp_bind. eapply t_myproc; [done|].
  apply wp_bind, (t_trapframe p tf); [done|]. apply wp_bind, (t_load_tf 168 p tf); [done|unfold PGSIZE; lia|].
  change (ld 8 m (tf + 168)) with (ld 8 m (tf_a tf 7)). cbv zeta. rewrite Ha7.
  match goal with |- wp (match ?x with _ => _ end) _ _ => change x with (Some sys_getpid) end. cbv beta iota.
  apply wp_bind. eapply sys_getpid_wp; [by apply runs_balanced|done|].
  apply (t_store_tf 112 _ p tf); [done|unfold PGSIZE; lia|]. exact HQ.
Qed.

(** *** The way into the kernel *)

(** The saved program counter is past the [ecall]. *)
Definition ecall_mem (m : mem) (tf epc : Z) : mem := st 8 (st 8 m (tf + 24) epc) (tf + 24) (u64 (epc + 4)).

Lemma ecall_mem_proc m p tf epc o n :
  proc_mem m p tf -> 0 <= o /\ o + Z.of_nat n <= sizeof_proc -> ld n (ecall_mem m tf epc) (p + o) = ld n m (p + o).
Proof.
  intros Hp [? ?]. unfold ecall_mem. rewrite (pm_ld_st _ p tf); [|apply proc_mem_st; [done|unfold PGSIZE; lia..]|unfold PGSIZE; lia..].
  apply (pm_ld_st _ p tf); [done|unfold PGSIZE; lia..].
Qed.

Lemma ecall_mem_tf m tf epc o n : 32 <= o -> ld n (ecall_mem m tf epc) (tf + o) = ld n m (tf + o).
Proof. intros Ho. unfold ecall_mem. by rewrite !ld_st_disj by (change (Z.of_nat 8) with 8; lia). Qed.

Definition in_kernel (r : tregs) : tregs := mkRegs kernelvec_addr (sepc r) (scause r) (stval r) (sip r).

(** [usertrap] up to the call of [syscall], and after it. *)
Lemma usertrap_ecall p tf s h m r Q :
  runs p h -> proc_mem m p tf -> Z.land (sstatus h) SSTATUS_SPP = 0 ->
  scause r = 8 -> 0 <= sepc r < 2 ^ 64 -> ldi m (p_killed p) = 0 ->
  (forall h1, runs p h1 -> sstatus h1 = Z.lor (sstatus h) SSTATUS_SIE -> tp h1 = tp h ->
   proc_mem (ecall_mem m tf (sepc r)) p tf ->
   wp syscall (fun _ s' => wp (killed ← zoom kL (loadi (p_killed p));
     (if negb (killed =? 0) then zoom kL (exit (-1)) else skip);; usertrapret) Q s')
     (at_ s h1 (ecall_mem m tf (sepc r)) (in_kernel r))) ->
  wp usertrap Q (at_ s h m r).
Proof.
  intros Hr Hp Hspp Hsc Hepc Hk HQ. unfold usertrap. destruct r as [r1 r2 r3 r4 r5]. cbn [scause sepc] in *. subst r3.
  apply wp_bind. eapply t_not_idle; [done|]. apply wp_bind, t_get_status. change (sstatus (upd_cur _ h)) with (sstatus h).
  rewrite Hspp. cbn [negb Z.eqb]. apply wp_bind, t_regs_set. pose proof (runs_idle _ _ 0 Hr) as Hr1.
  apply wp_bind. eapply t_myproc; [exact Hr1|]. pose proof (runs_balanced _ _ Hr1) as Hr2. set (h2 := balanced _) in *.
  apply wp_bind, (t_trapframe p tf); [done|]. apply wp_bind, t_get_reg. cbn [at_ t_regs sepc].
  apply wp_bind, (t_store_tf 24 _ p tf); [done|unfold PGSIZE; lia|]. intros Hp1.
  apply wp_bind, t_get_reg. cbn [at_ t_regs scause]. cbn [Z.eqb Pos.eqb].
  apply wp_bind, wp_bind, (t_loadi_field 40 p tf); [done|unfold sizeof_proc; lia|].
  unfold ldi at 1. rewrite (pm_ld_st m p) by (done || (unfold PGSIZE, sizeof_proc; lia)).
  change (i32 _) with (ldi m (p_killed p)). rewrite Hk. cbn [negb Z.eqb]. apply wp_bind, wp_skip.
  apply wp_bind, (t_trapframe p tf); [done|]. apply wp_bind, (t_load_tf 24 p tf); [done|unfold PGSIZE; lia|].
  assert (ld 8 (st 8 m (tf + 24) r2) (tf + 24) = r2) as -> by (by apply ld64_st64).
  apply wp_bind, (t_store_tf 24 _ p tf); [done|unfold PGSIZE; lia|]. intros Hp2.
  apply wp_bind, t_intr_on. pose proof (runs_status _ _ (Z.lor (sstatus h2) SSTATUS_SIE) Hr2) as Hr3.
  apply wp_bind. eapply wp_conseq; [apply (HQ _ Hr3 eq_refl eq_refl Hp2)|]. intros u s' H. apply wp_ret. cbn [Z.eqb].
  unfold wp, mbind, M_bind in *. destruct (zoom kL (loadi (p_killed p)) s') as [k s1|]; [|done].
  by destruct ((if negb (k =? 0) then zoom kL (exit (-1)) else skip) s1).
Qed.

Lemma getpid_wp p tf s h m r :
  runs p h -> proc_mem m p tf -> Z.land (sstatus h) SSTATUS_SPP = 0 ->
  scause r = 8 -> 0 <= sepc r < 2 ^ 64 -> ldi m (p_killed p) = 0 -> i32 (ld 8 m (tf_a tf 7)) = SYS_getpid ->
  wp usertrap (fun ret s' =>
    let m1 := st 8 (ecall_mem m tf (sepc r)) (tf + 112) (u64 (ldi m (p_pid p))) in
    exists h1 h2, runs p h2 /\ tp h1 = tp h /\ sstatus h2 = user_status (Z.lor (sstatus h) SSTATUS_SIE) /\
    ret = (u64 (TRAMPOLINE + (userret_addr - trampoline_sym)), TRAPFRAME, MAKE_SATP (ld 8 m (p_pagetable p))) /\
    s' = at_ s h2 (ret_mem s h1 p tf m1) (ret_regs m1 tf (in_kernel r))) (at_ s h m r).
Proof.
  intros Hr Hp Hspp Hsc Hepc Hk Ha7. eapply usertrap_ecall; [done..|]. intros h1 Hr1 Hst Htp Hp1.
  assert (Ha : tf_a tf 7 = tf + 168) by done.
  eapply syscall_getpid_wp; [done|done|rewrite Ha, ecall_mem_tf, <- Ha by lia; done|]. intros m1 Hp2.
  assert (Hl : forall n o, 0 <= o /\ o + Z.of_nat n <= sizeof_proc -> ld n m1 (p + o) = ld n m (p + o)).
  { intros n o Ho. unfold m1. rewrite (pm_ld_st _ p) by (done || (unfold PGSIZE; lia) || lia). by apply ecall_mem_proc. }
  apply wp_bind, (t_loadi_field 40 p tf); [done|unfold sizeof_proc; lia|].
  unfold ldi at 1. rewrite Hl by (unfold sizeof_proc; lia). change (i32 _) with (ldi m (p_killed p)). rewrite Hk. cbn [negb Z.eqb].
  apply wp_bind, wp_skip. pose proof (runs_balanced _ _ (runs_balanced _ _ Hr1)) as Hr2.
  eapply usertrapret_wp; [exact Hr2|exact Hp2|].
  assert (Hpid : ldi (ecall_mem m tf (sepc r)) (p_pid p) = ldi m (p_pid p)).
  { unfold ldi, p_pid. by rewrite ecall_mem_proc by (done || (unfold sizeof_proc; lia)). }
  eexists (balanced (balanced h1)), _. split; [|split; [|split; [|split]]]; [..|by rewrite <- Hpid].
  - by apply runs_status, runs_balanced.
  - exact Htp.
  - cbn [with_status sstatus]. by rewrite !sstatus_balanced, Hst.
  - unfold p_pagetable. by rewrite (Hl 8%nat 96) by (unfold sizeof_proc; lia).
Qed.

(** What user space sees after [getpid]. *)
Record getpid_done (p tf : Z) (s0 s : tst) : Prop := {
  gd_a0 : ld 8 (k_mem (t_k s)) (tf_a tf 0) = u64 (ldi (k_mem (t_k s0)) (p_pid p));
  gd_pc : sepc (t_regs s) = u64 (sepc (t_regs s0) + 4);
  gd_others : forall o, 40 <= o -> o + 8 <= PGSIZE -> o + 8 <= 112 \/ 120 <= o ->
    ld 8 (k_mem (t_k s)) (tf + o) = ld 8 (k_mem (t_k s0)) (tf + o);
  gd_proc : forall n o, 0 <= o /\ o + Z.of_nat n <= sizeof_proc ->
    ld n (k_mem (t_k s)) (p + o) = ld n (k_mem (t_k s0)) (p + o);
  gd_hart : runs p (k_hart (t_k s));
  gd_status : Z.testbit (sstatus (k_hart (t_k s))) 1 = false /\
    Z.testbit (sstatus (k_hart (t_k s))) 8 = false /\ Z.testbit (sstatus (k_hart (t_k s))) 5 = true;
  gd_stvec : stvec (t_regs s) = u64 (TRAMPOLINE + (uservec_addr - trampoline_sym))
}.

Lemma getpid_done_intro p tf s0 h1 h2 :
  proc_mem (k_mem (t_k s0)) p tf -> 0 <= sepc (t_regs s0) < 2 ^ 64 -> runs p h2 ->
  (exists x, sstatus h2 = user_status x) ->
  let m1 := st 8 (ecall_mem (k_mem (t_k s0)) tf (sepc (t_regs s0))) (tf + 112) (u64 (ldi (k_mem (t_k s0)) (p_pid p))) in
  getpid_done p tf s0 (at_ s0 h2 (ret_mem s0 h1 p tf m1) (ret_regs m1 tf (in_kernel (t_regs s0)))).
Proof.
  intros Hp Hepc Hr [x Hx] m1. pose proof (pm_apart _ _ _ Hp) as Hap. unfold PGSIZE, sizeof_proc in Hap.
  set (m := k_mem (t_k s0)) in *.
  split; cbn [at_ t_k t_regs set_mem set_hart k_mem k_hart]; try done.
  - rewrite ret_mem_frame by (unfold tf_a; change (Z.of_nat 8) with 8; lia).
    change (tf_a tf 0) with (tf + 112). apply ld64_st64. apply Z.mod_pos_bound. lia.
  - cbn [ret_regs sepc]. unfold m1. rewrite ld_st_disj by (unfold tf_epc; change (Z.of_nat 8) with 8; lia).
    apply ld64_st64. apply Z.mod_pos_bound. lia.
  - intros o Ho1 Ho2 Ho3. rewrite ret_mem_frame by (change (Z.of_nat 8) with 8; lia).
    unfold m1. rewrite ld_st_disj by (change (Z.of_nat 8) with 8; lia). by apply ecall_mem_tf; lia.
  - intros n o [Ho1 Ho2]. unfold sizeof_proc in Ho2. rewrite ret_mem_frame by (change (Z.of_nat 8) with 8; lia).
    unfold m1. rewrite ld_st_disj by (change (Z.of_nat 8) with 8; lia). by apply ecall_mem_proc.
  - rewrite Hx. apply user_status_bits.
Qed.

(** C12: a whole system call, from [ecall] to the return to user space.  For a
    process that has not been killed, [usertrap] on an [ecall] with [a7] =
    [SYS_getpid] dispatches to [sys_getpid] and returns to user space with
    the pid in [a0], the program counter after the [ecall], every other saved
    register and the whole [struct proc] unchanged, the trap vector back at the
    trampoline, no lock held, and [sstatus] set for user mode: interrupts off
    until [sret], which will enable them. *)
Theorem getpid_system_call p tf s :
  runs p (k_hart (t_k s)) -> proc_mem (k_mem (t_k s)) p tf ->
  Z.land (sstatus (k_hart (t_k s))) SSTATUS_SPP = 0 -> scause (t_regs s) = 8 ->
  0 <= sepc (t_regs s) < 2 ^ 64 -> ldi (k_mem (t_k s)) (p_killed p) = 0 ->
  i32 (ld 8 (k_mem (t_k s)) (tf_a tf 7)) = SYS_getpid ->
  wp usertrap (fun ret s' =>
    ret = (u64 (TRAMPOLINE + (userret_addr - trampoline_sym)), TRAPFRAME,
           MAKE_SATP (ld 8 (k_mem (t_k s)) (p_pagetable p))) /\
    getpid_done p tf s s') s.
Proof.
  intros Hr Hp Hspp Hsc Hepc Hk Ha7. pose proof (getpid_wp p tf s _ _ _ Hr Hp Hspp Hsc Hepc Hk Ha7) as Hw.
  rewrite at_id in Hw. eapply wp_conseq; [exact Hw|]. intros ret s' (h1 & h2 & Hr2 & Htp & Hst & -> & ->).
  split; [done|]. apply getpid_done_intro; try done. by eexists.
Qed.

(** ** Device interrupts *)

Definition handler (irq : Z) : M tst unit :=
  if irq =? UART0_IRQ then s_uartintr else if irq =? VIRTIO0_IRQ then s_virtio_disk_intr
  else if negb (irq =? 0) then zoom kL klog else skip.

(** A handler that returns, on the same hart, and leaves the interrupt
    controller alone. *)
Definition handles (irq : Z) (id : Z) : Prop :=
  forall s, tp (k_hart (t_k s)) = id -> hart_ok (k_hart (t_k s)) ->
    wp (handler irq) (fun _ s' => tp (k_hart (t_k s')) = id /\ hart_ok (k_hart (t_k s')) /\ t_plic s' = t_plic s) s.

Lemma wp_cpuid s Q : Q (tp (k_hart (t_k s))) s -> wp (zoom thartL cpuid) Q s.
Proof. intros HQ. apply wp_zoom. eapply wp_eq; [reflexivity|]. by destruct s as [[] ? ?]. Qed.

Lemma devintr_wp s irq id Q :
  tp (k_hart (t_k s)) = id -> hart_ok (k_hart (t_k s)) -> scause (t_regs s) = 0x8000000000000009 ->
  plic_pending id s = irq -> 0 <= irq < 2 ^ 31 -> handles irq id ->
  (forall s', hart_ok (k_hart (t_k s')) ->
     t_plic s' = t_plic s ++ (if irq =? 0 then [] else [(PLIC_SCLAIM id, irq)]) -> Q 1 s') ->
  wp devintr Q s.
Proof.
  intros Hid Hok Hsc Hirq Hr Hh HQ. unfold devintr. apply wp_bind, wp_gets. rewrite Hsc. cbn [Z.land Z.eqb negb andb].
  change (if _ && _ then ?a else ?b) with a. apply wp_bind. unfold plic_claim. apply wp_bind, wp_cpuid, wp_gets.
  rewrite Hid, Hirq. assert (i32 irq = irq) as ->.
  { unfold i32. rewrite Z.mod_small by lia. lia. }
  apply wp_bind. fold (handler irq). eapply wp_conseq; [by apply Hh|]. intros _ s1 (Hid1 & Hok1 & Hpl).
  destruct (Z.eqb_spec irq 0) as [->|Hne]; cbn [negb].
  - apply wp_bind, wp_skip, wp_ret. apply HQ; [done|]. by rewrite Hpl, app_nil_r.
  - apply wp_bind. unfold plic_complete. apply wp_bind, wp_cpuid, wp_modify, wp_ret. apply HQ; [done|].
    cbn [t_plic]. rewrite Hpl, Hid1. by rewrite u32_small by lia.
Qed.

(** An interrupt of kernel code by a device is transparent: whatever the
    handler does, [kerneltrap] returns with the [sepc] and [sstatus] of the
    interrupted code, having run the handler of the device that raised it and
    told the interrupt controller once, after that, that the interrupt it
    claimed has been served (not at all when another hart had claimed it). *)
Theorem kerneltrap_transparent s irq :
  let id := tp (k_hart (t_k s)) in
  hart_ok (k_hart (t_k s)) -> Z.land (sstatus (k_hart (t_k s))) SSTATUS_SPP <> 0 -> sie (k_hart (t_k s)) = false ->
  scause (t_regs s) = 0x8000000000000009 -> (forall s', t_plic s' = t_plic s -> plic_pending id s' = irq) ->
  0 <= irq < 2 ^ 31 -> handles irq id ->
  wp kerneltrap (fun _ s' =>
    sepc (t_regs s') = sepc (t_regs s) /\ sstatus (k_hart (t_k s')) = sstatus (k_hart (t_k s)) /\
    t_plic s' = t_plic s ++ (if irq =? 0 then [] else [(PLIC_SCLAIM id, irq)])) s.
Proof.
  intros id Hok Hspp Hsie Hsc Hirq Hr Hh. unfold kerneltrap. apply wp_bind, wp_gets, wp_bind, wp_gets, wp_bind.
  apply wp_zoom. eapply wp_eq; [by apply mycpu_set_eq|]. set (s1 := lset thartL _ s).
  assert (Hok1 : hart_ok (k_hart (t_k s1))) by (by apply hart_ok_upd).
  rewrite (proj2 (Z.eqb_neq _ _) Hspp). apply wp_bind.
  assert (Hget : zoom thartL intr_get s1 = Ret 0 s1).
  { unfold zoom, intr_get, mbind, M_bind, getS. cbn beta iota. change (sie (lget thartL s1)) with (sie (k_hart (t_k s))).
    rewrite Hsie. reflexivity. }
  eapply wp_eq; [exact Hget|]. cbn [negb Z.eqb]. apply wp_bind.
  eapply (devintr_wp _ irq id); [done|done|done|by apply Hirq|done|done|]. intros s2 Hok2 Hpl. cbn [Z.eqb Pos.eqb].
  apply wp_bind, wp_skip, wp_bind, wp_modify. by apply wp_zoom.
Qed.

End trap.

(** ** Witnesses *)

Definition demo_services : Services := {|
  kernelvec_addr := 0x80004000;
  uservec_addr := 0x80007000;
  userret_addr := 0x80007090;
  plic_pending := fun _ _ => UART0_IRQ;
  s_uartintr := skip;
  s_virtio_disk_intr := skip;
  s_fscall := fun _ => mret 0;
  sleep_patience := 1
|}.

Definition demo_no_outside : Outside := {|
  swtch := fun _ _ => skip; o_filedup := fun f => mret f; o_idup := fun f => mret f; o_fileclose := fun _ => skip;
  o_begin_op := skip; o_iput := fun _ => skip; o_end_op := skip; o_namei_root := mret 0; o_fsinit := skip;
  o_usertrapret := skip; initcode_addr := 0x80008800; uninit := 0; mfuel := 100; sfuel := 20; wait_patience := 2
|}.

(** Process 7 at 0x80050000, with its trapframe at 0x80060000, asks for its pid. *)
Definition demo_trap_mem : mem :=
  let m := st64 ∅ (p_trapframe 0x80050000) 0x80060000 in
  let m := st32 m (p_pid 0x80050000) 7 in
  st64 m (tf_a 0x80060000 7) SYS_getpid.
Definition demo_trap_hart (ss : Z) : hartst :=
  mkHart [mkCpu 0x80050000 context0 0 0 0; mkCpu 0 context0 0 0 0] 0 ss.
Definition demo_tst (ss cause : Z) : tst :=
  mkT (set_hart (demo_trap_hart ss) (demo_kst demo_trap_mem 0 0)) (mkRegs 0 0x1000 cause 0 0) [].

Lemma demo_trap_hart_ok ss : hart_ok (demo_trap_hart ss).
Proof. apply hart_ok_intro; [vm_compute; split; [discriminate|done]|done|..];
  change (c_noff (cur (demo_trap_hart ss))) with 0; lia. Qed.

Lemma getpid_system_call_witness :
  wp (usertrap (im := demo_image) (OS := demo_no_outside) (SV := demo_services))
    (fun _ s' => ld 8 (k_mem (t_k s')) (tf_a 0x80060000 0) = 7 /\ sepc (t_regs s') = 0x1004) (demo_tst 0x20 8).
Proof.
  eapply wp_conseq.
  - apply (getpid_system_call (im := demo_image) (OS := demo_no_outside) (SV := demo_services) 0x80050000 0x80060000).
    + split; [apply demo_trap_hart_ok|reflexivity|reflexivity].
    + split; [vm_compute; split; discriminate|vm_compute; split; discriminate|vm_compute; reflexivity|].
      right. vm_compute. discriminate.
    + reflexivity.
    + reflexivity.
    + vm_compute. split; [discriminate|reflexivity].
    + vm_compute. reflexivity.
    + vm_compute. reflexivity.
  - intros r s' [_ [H1 H2 _ _ _ _ _]]. rewrite H1, H2. vm_compute. split; reflexivity.
Defined.

Lemma kerneltrap_transparent_witness :
  wp (kerneltrap (im := demo_image) (OS := demo_no_outside) (SV := demo_services))
    (fun _ s' => sepc (t_regs s') = 0x1000 /\ t_plic s' = [(PLIC_SCLAIM 0, UART0_IRQ)])
    (demo_tst 0x120 0x8000000000000009).
Proof.
  eapply wp_conseq.
  - apply (kerneltrap_transparent (im := demo_image) (OS := demo_no_outside) (SV := demo_services) _ UART0_IRQ).
    + apply demo_trap_hart_ok.
    + vm_compute. discriminate.
    + reflexivity.
    + reflexivity.
    + intros s' _. reflexivity.
    + vm_compute. split; [discriminate|reflexivity].
    + intros s H1 H2. apply wp_skip. split; [exact H1|]. split; [exact H2|reflexivity].
  - intros u s' (H1 & _ & H3). split; [exact H1|exact H3].
Defined.
