(* ===== verification/Asm.v ===== *)
(** * The assembly of the kernel ([trampoline.S], [kernelvec.S], [swtch.S],
    [entry.S])

    The instructions these files use, over a register file, the control
    registers they touch and physical memory.  A load or store goes through the
    page table in [satp], whose translation is the parameter [tr]; the jump at
    the end of each piece ([jr], [sret], [ret], [mret], [call]) is not part of
    the piece. *)
From stdpp Require Import base gmap strings numbers option list.
From S2P Require Import Prelude Layout Memory.
Open Scope Z_scope.

Inductive reg :=
  | RA | SP | GP | TP | T0 | T1 | T2 | S0 | S1 | A0 | A1 | A2 | A3 | A4 | A5 | A6 | A7
  | S2 | S3 | S4 | S5 | S6 | S7 | S8 | S9 | S10 | S11 | T3 | T4 | T5 | T6.

#[export] Instance reg_eq_dec : EqDecision reg.
Proof. solve_decision. Defined.

Inductive csr :=
  | C_sscratch | C_satp | C_mscratch | C_sip | C_mhartid
  | C_mstatus | C_mepc | C_medeleg | C_mideleg | C_sie | C_mie | C_mtvec.

#[export] Instance csr_eq_dec : EqDecision csr.
Proof. solve_decision. Defined.

Inductive instr :=
  | SD (rs : reg) (off : Z) (rb : reg)
  | LD (rd : reg) (off : Z) (rb : reg)
  | CSRRW (rd : reg) (c : csr) (rs : reg)
  | CSRR (rd : reg) (c : csr)
  | CSRW (c : csr) (rs : reg)
  | SFENCE
  | ADDI (rd rs : reg) (imm : Z)
  | ADD (rd r1 r2 : reg)
  | MUL (rd r1 r2 : reg)
  | LI (rd : reg) (imm : Z).

Record astate := mkA { a_regs : reg -> Z; a_csr : csr -> Z; a_mem : mem }.

Definition upd_reg (f : reg -> Z) (r : reg) (v : Z) : reg -> Z := fun q => if decide (q = r) then v else f q.
Definition upd_csr (f : csr -> Z) (r : csr) (v : Z) : csr -> Z := fun q => if decide (q = r) then v else f q.

(** What a control register holds after [v] is written to it.  Of [sip] only the
    software-interrupt bit can be written; the bits of the timer and of the
    devices stay what they are. *)
Definition csr_val (x : csr) (old v : Z) : Z :=
  match x with
  | C_sip => Z.lor (Z.land old (Z.lnot 2)) (Z.land v 2)
  | _ => v
  end.

Section asm.
Variable tr : Z -> Z -> Z.

Definition addr (s : astate) (rb : reg) (off : Z) : Z := tr (a_csr s C_satp) (u64 (a_regs s rb + off)).

Definition step_instr (s : astate) (i : instr) : astate :=
  let r := a_regs s in
  let c := a_csr s in
  match i with
  | SD rs off rb => mkA r c (st 8 (a_mem s) (addr s rb off) (r rs))
  | LD rd off rb => mkA (upd_reg r rd (ld 8 (a_mem s) (addr s rb off))) c (a_mem s)
  | CSRRW rd x rs => mkA (upd_reg r rd (c x)) (upd_csr c x (csr_val x (c x) (r rs))) (a_mem s)
  | CSRR rd x => mkA (upd_reg r rd (c x)) c (a_mem s)
  | CSRW x rs => mkA r (upd_csr c x (csr_val x (c x) (r rs))) (a_mem s)
  | SFENCE => s
  | ADDI rd rs imm => mkA (upd_reg r rd (u64 (r rs + imm))) c (a_mem s)
  | ADD rd r1 r2 => mkA (upd_reg r rd (u64 (r r1 + r r2))) c (a_mem s)
  | MUL rd r1 r2 => mkA (upd_reg r rd (u64 (r r1 * r r2))) c (a_mem s)
  | LI rd imm => mkA (upd_reg r rd (u64 imm)) c (a_mem s)
  end.

Definition run_asm (p : list instr) (s : astate) : astate := foldl step_instr s p.

End asm.

(** ** The programs *)

(** Entry from user space, up to [jr t0]. *)
Definition uservec : list instr :=
  [CSRRW A0 C_sscratch A0; SD RA 40 A0; SD SP 48 A0; SD GP 56 A0; SD TP 64 A0; SD T0 72 A0;
   SD T1 80 A0; SD T2 88 A0; SD S0 96 A0; SD S1 104 A0; SD A1 120 A0; SD A2 128 A0; SD A3 136 A0;
   SD A4 144 A0; SD A5 152 A0; SD A6 160 A0; SD A7 168 A0; SD S2 176 A0; SD S3 184 A0;
   SD S4 192 A0; SD S5 200 A0; SD S6 208 A0; SD S7 216 A0; SD S8 224 A0; SD S9 232 A0;
   SD S10 240 A0; SD S11 248 A0; SD T3 256 A0; SD T4 264 A0; SD T5 272 A0; SD T6 280 A0;
   CSRR T0 C_sscratch; SD T0 112 A0; LD SP 8 A0; LD TP 32 A0; LD T0 16 A0; LD T1 0 A0;
   CSRW C_satp T1; SFENCE].

(** Return to user space, up to [sret]. *)
Definition userret : list instr :=
  [CSRW C_satp A1; SFENCE; LD T0 112 A0; CSRW C_sscratch T0; LD RA 40 A0; LD SP 48 A0; LD GP 56 A0;
   LD TP 64 A0; LD T0 72 A0; LD T1 80 A0; LD T2 88 A0; LD S0 96 A0; LD S1 104 A0; LD A1 120 A0;
   LD A2 128 A0; LD A3 136 A0; LD A4 144 A0; LD A5 152 A0; LD A6 160 A0; LD A7 168 A0;
   LD S2 176 A0; LD S3 184 A0; LD S4 192 A0; LD S5 200 A0; LD S6 208 A0; LD S7 216 A0;
   LD S8 224 A0; LD S9 232 A0; LD S10 240 A0; LD S11 248 A0; LD T3 256 A0; LD T4 264 A0;
   LD T5 272 A0; LD T6 280 A0; CSRRW A0 C_sscratch A0].

(** [swtch(a0, a1)], up to [ret]. *)
Definition swtch : list instr :=
  [SD RA 0 A0; SD SP 8 A0; SD S0 16 A0; SD S1 24 A0; SD S2 32 A0; SD S3 40 A0; SD S4 48 A0;
   SD S5 56 A0; SD S6 64 A0; SD S7 72 A0; SD S8 80 A0; SD S9 88 A0; SD S10 96 A0; SD S11 104 A0;
   LD RA 0 A1; LD SP 8 A1; LD S0 16 A1; LD S1 24 A1; LD S2 32 A1; LD S3 40 A1; LD S4 48 A1;
   LD S5 56 A1; LD S6 64 A1; LD S7 72 A1; LD S8 80 A1; LD S9 88 A1; LD S10 96 A1; LD S11 104 A1].

(** Entry of a trap from kernel code, up to [call kerneltrap]. *)
Definition kernelvec_save : list instr :=
  [ADDI SP SP (-256); SD RA 0 SP; SD SP 8 SP; SD GP 16 SP; SD TP 24 SP; SD T0 32 SP; SD T1 40 SP;
   SD T2 48 SP; SD S0 56 SP; SD S1 64 SP; SD A0 72 SP; SD A1 80 SP; SD A2 88 SP; SD A3 96 SP;
   SD A4 104 SP; SD A5 112 SP; SD A6 120 SP; SD A7 128 SP; SD S2 136 SP; SD S3 144 SP;
   SD S4 152 SP; SD S5 160 SP; SD S6 168 SP; SD S7 176 SP; SD S8 184 SP; SD S9 192 SP;
   SD S10 200 SP; SD S11 208 SP; SD T3 216 SP; SD T4 224 SP; SD T5 232 SP; SD T6 240 SP].

(** After [kerneltrap], up to [sret]. *)
Definition kernelvec_restore : list instr :=
  [LD RA 0 SP; LD SP 8 SP; LD GP 16 SP; LD T0 32 SP; LD T1 40 SP; LD T2 48 SP; LD S0 56 SP;
   LD S1 64 SP; LD A0 72 SP; LD A1 80 SP; LD A2 88 SP; LD A3 96 SP; LD A4 104 SP; LD A5 112 SP;
   LD A6 120 SP; LD A7 128 SP; LD S2 136 SP; LD S3 144 SP; LD S4 152 SP; LD S5 160 SP;
   LD S6 168 SP; LD S7 176 SP; LD S8 184 SP; LD S9 192 SP; LD S10 200 SP; LD S11 208 SP;
   LD T3 216 SP; LD T4 224 SP; LD T5 232 SP; LD T6 240 SP; ADDI SP SP (256)].

(** The timer interrupt in machine mode, up to [mret]. *)
Definition timervec : list instr :=
  [CSRRW A0 C_mscratch A0; SD A1 0 A0; SD A2 8 A0; SD A3 16 A0; LD A1 24 A0; LD A2 32 A0;
   LD A3 0 A1; ADD A3 A3 A2; SD A3 0 A1; LI A1 2; CSRW C_sip A1; LD A3 16 A0; LD A2 8 A0;
   LD A1 0 A0; CSRRW A0 C_mscratch A0].

(** [_entry], up to [call start]. *)
Definition entry (stack0 : Z) : list instr :=
  [LI SP stack0; LI A0 (1024 * 4); CSRR A1 C_mhartid; ADDI A1 A1 1; MUL A0 A0 A1; ADD SP SP A0].

(** ** Saving and restoring registers *)

Definition saves (b : reg) (l : list (reg * Z)) : list instr := (fun x => SD x.1 x.2 b) <$> l.
Definition loads (b : reg) (l : list (reg * Z)) : list instr := (fun x => LD x.1 x.2 b) <$> l.

(** Offsets at which eight bytes do not overlap. *)
Definition apart (o o' : Z) : bool := (o + 8 <=? o') || (o' + 8 <=? o).
Fixpoint spaced (l : list (reg * Z)) : bool :=
  match l with
  | [] => true
  | x :: l' => forallb (fun y => apart x.2 y.2) l' && spaced l'
  end.

(** Where a register is loaded from last. *)
Fixpoint slot (l : list (reg * Z)) (q : reg) : option Z :=
  match l with
  | [] => None
  | x :: l' => match slot l' q with Some o => Some o | None => if decide (q = x.1) then Some x.2 else None end
  end.

Section save.
Variable tr : Z -> Z -> Z.

(** The [n] bytes at virtual address [va] are the ones at [B]. *)
Definition frame (satp va B n : Z) : Prop := forall o, 0 <= o < n -> tr satp (u64 (va + o)) = B + o.

Lemma run_app p1 p2 s : run_asm tr (p1 ++ p2) s = run_asm tr p2 (run_asm tr p1 s).
Proof. apply foldl_app. Qed.

Definition store_all (r : reg -> Z) (B : Z) (l : list (reg * Z)) (m : mem) : mem :=
  foldl (fun m x => st 8 m (B + x.2) (r x.1)) m l.

Lemma run_saves b l s B n :
  frame (a_csr s C_satp) (a_regs s b) B n -> (forall x, x ∈ l -> 0 <= x.2 < n) ->
  run_asm tr (saves b l) s = mkA (a_regs s) (a_csr s) (store_all (a_regs s) B l (a_mem s)).
Proof.
  intros Hf. revert s Hf. induction l as [|x l IH]; intros s Hf Hl; [by destruct s|].
  change (run_asm tr (saves b (x :: l)) s) with (run_asm tr (saves b l) (step_instr tr s (SD x.1 x.2 b))).
  rewrite (IH (step_instr tr s (SD x.1 x.2 b))); [|exact Hf|].
  - cbn. unfold addr. by rewrite Hf by (apply Hl, list_elem_of_here).
  - intros y Hy. by apply Hl, list_elem_of_further.
Qed.

Lemma apart_spec o o' : apart o o' = true -> o + 8 <= o' \/ o' + 8 <= o.
Proof. unfold apart. intros [H%Z.leb_le|H%Z.leb_le]%orb_prop; lia. Qed.

Lemma ld_store_all_other r B l m n a :
  (forall x, x ∈ l -> a + Z.of_nat n <= B + x.2 \/ B + x.2 + 8 <= a) ->
  ld n (store_all r B l m) a = ld n m a.
Proof.
  revert m. induction l as [|x l IH]; intros m Hl; [done|]. cbn [store_all foldl].
  fold (store_all r B l (st 8 m (B + x.2) (r x.1))). rewrite IH.
  - apply ld_st_disj. change (Z.of_nat 8) with 8. pose proof (Hl x (list_elem_of_here _ _)). lia.
  - intros y Hy. by apply Hl, list_elem_of_further.
Qed.

Lemma ld_store_all r B l m x :
  spaced l = true -> x ∈ l -> 0 <= r x.1 < 2 ^ 64 -> ld 8 (store_all r B l m) (B + x.2) = r x.1.
Proof.
  intros Hs Hx Hr. revert m Hs. induction Hx as [x l|x y l Hx IH]; intros m Hs;
    apply andb_prop in Hs as [Ha Hs]; cbn [store_all foldl].
  - fold (store_all r B l (st 8 m (B + x.2) (r x.1))). rewrite ld_store_all_other; [by apply ld64_st64|].
    intros y Hy. rewrite forallb_forall in Ha. specialize (Ha y ltac:(by apply list_elem_of_In)).
    apply apart_spec in Ha. change (Z.of_nat 8) with 8. lia.
  - by apply IH.
Qed.

Lemma run_loads b l s B n :
  frame (a_csr s C_satp) (a_regs s b) B n -> (forall x, x ∈ l -> 0 <= x.2 < n) ->
  (forall o, (b, o) ∈ l -> ld 8 (a_mem s) (B + o) = a_regs s b) ->
  let s' := run_asm tr (loads b l) s in
  a_csr s' = a_csr s /\ a_mem s' = a_mem s /\
  (forall q o, slot l q = Some o -> a_regs s' q = ld 8 (a_mem s) (B + o)) /\
  (forall q, slot l q = None -> a_regs s' q = a_regs s q).
Proof.
  intros Hf. revert s Hf. induction l as [|x l IH]; intros s Hf Hl Hb; [done|].
  set (s1 := step_instr tr s (LD x.1 x.2 b)). change (run_asm tr (loads b (x :: l)) s) with (run_asm tr (loads b l) s1). cbv zeta.
  assert (Hx : tr (a_csr s C_satp) (u64 (a_regs s b + x.2)) = B + x.2) by (apply Hf, Hl, list_elem_of_here).
  assert (Hs1 : forall q, a_regs s1 q = if decide (q = x.1) then ld 8 (a_mem s) (B + x.2) else a_regs s q).
  { intros q. unfold s1. cbn. unfold upd_reg, addr. by rewrite Hx. }
  assert (Hb1 : a_regs s1 b = a_regs s b).
  { rewrite Hs1. case_decide as Hd; [|done]. apply Hb. rewrite Hd. destruct x. apply list_elem_of_here. }
  destruct (IH s1) as (H1 & H2 & H3 & H4).
  - unfold frame. rewrite Hb1. exact Hf.
  - intros y Hy. by apply Hl, list_elem_of_further.
  - intros o Ho. rewrite Hb1. apply (Hb o). by apply list_elem_of_further.
  - set (s2 := run_asm tr (loads b l) s1) in *. clearbody s2. rewrite H1, H2. split; [done|]. split; [done|].
    cbn [slot]. split; intros q.
    + intros o. destruct (slot l q) as [o'|] eqn:Ho; [intros [= <-]; by rewrite (H3 q o')|].
      rewrite (H4 q Ho), Hs1. case_decide; [by intros [= <-]|done].
    + destruct (slot l q) as [o'|] eqn:Ho; [done|]. rewrite (H4 q Ho), Hs1. by case_decide.
Qed.

End save.

(** ** The trampoline *)

(** The places of the user registers in [struct trapframe], but for [a0]. *)
Definition user_slots : list (reg * Z) :=
  [(RA, 40); (SP, 48); (GP, 56); (TP, 64); (T0, 72); (T1, 80); (T2, 88); (S0, 96); (S1, 104);
   (A1, 120); (A2, 128); (A3, 136); (A4, 144); (A5, 152); (A6, 160); (A7, 168); (S2, 176); (S3, 184);
   (S4, 192); (S5, 200); (S6, 208); (S7, 216); (S8, 224); (S9, 232); (S10, 240); (S11, 248);
   (T3, 256); (T4, 264); (T5, 272); (T6, 280)].

Lemma user_slots_all q : q <> A0 -> exists o, slot user_slots q = Some o /\ (q, o) ∈ user_slots.
Proof.
  intros Hq. destruct q; try done; eexists; (split; [reflexivity|apply list_elem_of_In; simpl; tauto]).
Qed.

Lemma user_slots_slot q o : (q, o) ∈ user_slots -> slot user_slots q = Some o.
Proof.
  intros H. repeat (apply elem_of_cons in H as [[= -> ->]|H]; [reflexivity|]). by apply elem_of_nil in H.
Qed.

Lemma user_slots_range x : x ∈ user_slots -> 40 <= x.2 < 288 /\ (x.2 + 8 <= 112 \/ 120 <= x.2) /\ x.2 + 8 <= 288 /\ x.1 <> A0.
Proof.
  intros Hx%list_elem_of_In.
  assert (H : forallb (fun x => (40 <=? x.2) && (x.2 + 8 <=? 288) && ((x.2 + 8 <=? 112) || (120 <=? x.2)) &&
    negb (bool_decide (x.1 = A0))) user_slots = true) by reflexivity.
  rewrite forallb_forall in H. specialize (H x Hx). apply andb_prop in H as [H Ha]. apply andb_prop in H as [H Ho].
  apply andb_prop in H as [H1%Z.leb_le H2%Z.leb_le]. apply negb_true_iff, bool_decide_eq_false in Ha.
  apply orb_prop in Ho as [Ho%Z.leb_le|Ho%Z.leb_le]; repeat split; try done; lia.
Qed.

Section trampoline.
Variable tr : Z -> Z -> Z.

(** What [uservec] leaves in the trapframe at [B]. *)
Record saved (B : Z) (r : reg -> Z) (m m' : mem) : Prop := {
  sv_regs : forall q o, (q, o) ∈ user_slots -> ld 8 m' (B + o) = r q;
  sv_a0 : ld 8 m' (B + 112) = r A0;
  sv_rest : forall n a, a + Z.of_nat n <= B + 40 \/ B + 288 <= a -> ld n m' a = ld n m a
}.

Definition user_regs_ok (r : reg -> Z) : Prop := forall q, 0 <= r q < 2 ^ 64.

Definition kernel_slots : list (reg * Z) := [(SP, 8); (TP, 32); (T0, 16); (T1, 0)].

Definition uservec_enter : list instr :=
  [CSRRW A0 C_sscratch A0] ++ saves A0 user_slots ++ [CSRR T0 C_sscratch] ++ saves A0 [(T0, 112)].

Lemma uservec_eq : uservec = uservec_enter ++ loads A0 kernel_slots ++ [CSRW C_satp T1; SFENCE].
Proof. done. Qed.

Lemma uservec_saves s TF B :
  a_csr s C_sscratch = TF -> frame tr (a_csr s C_satp) TF B PGSIZE -> user_regs_ok (a_regs s) ->
  let s1 := run_asm tr uservec_enter s in
  saved B (a_regs s) (a_mem s) (a_mem s1) /\ a_regs s1 A0 = TF /\ a_csr s1 C_satp = a_csr s C_satp.
Proof.
  intros Hsc Hf Hr. cbv zeta. unfold uservec_enter. rewrite !run_app. set (s1 := run_asm tr [CSRRW _ _ _] s).
  assert (H1 : a_regs s1 A0 = TF) by done.
  assert (H1' : forall q, q <> A0 -> a_regs s1 q = a_regs s q) by (intros q Hq; unfold s1; cbn; unfold upd_reg; by rewrite decide_False).
  assert (Hf1 : frame tr (a_csr s1 C_satp) (a_regs s1 A0) B PGSIZE) by (rewrite H1; exact Hf).
  rewrite (run_saves tr A0 user_slots s1 B PGSIZE); [|done|intros x Hx; apply user_slots_range in Hx; unfold PGSIZE; lia].
  set (m1 := store_all (a_regs s1) B user_slots (a_mem s1)).
  set (s3 := run_asm tr [CSRR _ _] _). assert (H3 : a_regs s3 T0 = a_regs s A0) by done.
  rewrite (run_saves tr A0 [(T0, 112)] s3 B PGSIZE); [|exact Hf1|intros x [->|[]%elem_of_nil]%elem_of_cons; unfold PGSIZE; cbn; lia].
  cbn [a_regs a_csr a_mem]. split; [|by split].
  change (store_all (a_regs s3) B [(T0, 112)] (a_mem s3)) with (st 8 m1 (B + 112) (a_regs s A0)). split.
  - intros q o Hqo. pose proof (user_slots_range _ Hqo) as (Ho1 & Ho2 & Ho3 & Hq). cbn in Ho1, Ho2, Ho3, Hq.
    rewrite ld_st_disj by (change (Z.of_nat 8) with 8; lia). rewrite <- (H1' q Hq).
    apply (ld_store_all _ _ _ _ (q, o)); [done|done|]. change (0 <= a_regs s1 q < 2 ^ 64). rewrite H1' by done. apply Hr.
  - apply ld64_st64. apply Hr.
  - intros n a Ha. rewrite ld_st_disj by (change (Z.of_nat 8) with 8; lia).
    apply ld_store_all_other. intros x Hx. apply user_slots_range in Hx. lia.
Qed.

Lemma run_satp s :
  let s' := run_asm tr [CSRW C_satp T1; SFENCE] s in
  a_csr s' C_satp = a_regs s T1 /\ a_regs s' = a_regs s /\ a_mem s' = a_mem s.
Proof. done. Qed.

(** The kernel's stack, hart id, handler and page table come from the
    trapframe. *)
Lemma uservec_spec s TF B :
  a_csr s C_sscratch = TF -> frame tr (a_csr s C_satp) TF B PGSIZE -> user_regs_ok (a_regs s) ->
  let s' := run_asm tr uservec s in
  saved B (a_regs s) (a_mem s) (a_mem s') /\
  a_regs s' SP = ld 8 (a_mem s) (B + 8) /\ a_regs s' TP = ld 8 (a_mem s) (B + 32) /\
  a_regs s' T0 = ld 8 (a_mem s) (B + 16) /\ a_csr s' C_satp = ld 8 (a_mem s) (B + 0).
Proof.
  intros Hsc Hf Hr. cbv zeta. destruct (uservec_saves s TF B Hsc Hf Hr) as (Hsv & HA & Hsatp).
  rewrite uservec_eq, !run_app. set (s1 := run_asm tr uservec_enter s) in *. clearbody s1.
  destruct (run_loads tr A0 kernel_slots s1 B PGSIZE) as (H1 & H2 & H3 & _).
  - rewrite HA, Hsatp. exact Hf.
  - intros x Hx. unfold PGSIZE. repeat (apply elem_of_cons in Hx as [->|Hx]; [cbn; lia|]). by apply elem_of_nil in Hx.
  - intros o Ho. repeat (apply elem_of_cons in Ho as [?|Ho]; [done|]). by apply elem_of_nil in Ho.
  - set (s2 := run_asm tr (loads A0 kernel_slots) s1) in *. clearbody s2.
    destruct (run_satp s2) as (-> & -> & ->). rewrite H2. split; [exact Hsv|].
    assert (Hk : forall o, 0 <= o <= 32 -> ld 8 (a_mem s) (B + o) = ld 8 (a_mem s1) (B + o))
      by (intros o Ho; symmetry; apply (sv_rest _ _ _ _ Hsv); change (Z.of_nat 8) with 8; lia).
    rewrite !Hk by lia. split_and!; by apply H3.
Qed.

Lemma userret_eq : userret = [CSRW C_satp A1; SFENCE; LD T0 112 A0; CSRW C_sscratch T0] ++
  loads A0 user_slots ++ [CSRRW A0 C_sscratch A0].
Proof. done. Qed.

Lemma userret_spec s TF B us :
  a_regs s A0 = TF -> a_regs s A1 = us -> frame tr us TF B PGSIZE ->
  let s' := run_asm tr userret s in
  (forall q o, (q, o) ∈ user_slots -> a_regs s' q = ld 8 (a_mem s) (B + o)) /\
  a_regs s' A0 = ld 8 (a_mem s) (B + 112) /\ a_csr s' C_sscratch = TF /\ a_csr s' C_satp = us /\ a_mem s' = a_mem s.
Proof.
  intros HA0 HA1 Hf. cbv zeta. rewrite userret_eq, !run_app. set (s1 := run_asm tr [CSRW _ _; _; _; _] s).
  assert (Hs1 : a_regs s1 A0 = TF /\ a_csr s1 C_satp = us /\ a_mem s1 = a_mem s) by (split; [exact HA0|split; [exact HA1|done]]).
  destruct Hs1 as (Hs1 & Hs2 & Hs3).
  assert (Hsc : a_csr s1 C_sscratch = ld 8 (a_mem s) (B + 112)).
  { unfold s1. cbn. unfold upd_csr, upd_reg, addr. cbn. rewrite HA0. unfold upd_csr. cbn. rewrite HA1, Hf by (unfold PGSIZE; lia). done. }
  destruct (run_loads tr A0 user_slots s1 B PGSIZE) as (H1 & H2 & H3 & H4).
  - rewrite Hs1, Hs2. exact Hf.
  - intros x Hx. apply user_slots_range in Hx. unfold PGSIZE. lia.
  - intros o Ho. by apply user_slots_range in Ho as (_ & _ & _ & ?).
  - set (s2 := run_asm tr (loads A0 user_slots) s1) in *. cbn [run_asm foldl step_instr a_regs a_csr a_mem].
    clearbody s2. rewrite H1, H2, Hs3. unfold upd_reg, upd_csr. split; [|split; [|split; [|split]]].
    + intros q o Hqo. pose proof (user_slots_range _ Hqo) as (_ & _ & _ & Hq). cbn in Hq. rewrite decide_False by done.
      rewrite (H3 q o), Hs3; [done|by apply user_slots_slot].
    + by rewrite decide_True.
    + rewrite decide_True by done. rewrite (H4 A0); done.
    + rewrite decide_False by done. exact Hs2.
    + done.
Qed.

End trampoline.

(** C35: user registers survive a trap.  Whatever the kernel does between
    [uservec] and [userret], if it leaves the saved registers in the trapframe
    alone except [a0], the result of the system call, the process resumes with
    exactly the registers it had, [a0] taken from the trapframe, its own page
    table, and [sscratch] ready for the next trap. *)
Theorem trampoline_roundtrip tr s k TF B us :
  a_csr s C_sscratch = TF -> a_csr s C_satp = us -> frame tr us TF B PGSIZE -> user_regs_ok (a_regs s) ->
  a_regs k A0 = TF -> a_regs k A1 = us ->
  (forall o, 40 <= o -> o + 8 <= 288 -> o + 8 <= 112 \/ 120 <= o ->
     ld 8 (a_mem k) (B + o) = ld 8 (a_mem (run_asm tr uservec s)) (B + o)) ->
  let s' := run_asm tr userret k in
  (forall q, q <> A0 -> a_regs s' q = a_regs s q) /\ a_regs s' A0 = ld 8 (a_mem k) (B + 112) /\
  a_csr s' C_sscratch = TF /\ a_csr s' C_satp = us.
Proof.
  intros Hsc Hus Hf Hr HA0 HA1 Hm. cbv zeta. rewrite <- Hus in Hf. destruct (uservec_spec tr s TF B Hsc Hf Hr) as (Hsv & _).
  rewrite Hus in Hf. destruct (userret_spec tr k TF B us HA0 HA1 Hf) as (H1 & H2 & H3 & H4 & _).
  split; [|by split]. intros q Hq. destruct (user_slots_all q Hq) as (o & _ & Ho).
  destruct (user_slots_range _ Ho) as (R1 & R2 & R3 & _). cbn in R1, R2, R3.
  rewrite (H1 q o Ho), Hm by lia. by apply (sv_regs _ _ _ _ Hsv).
Qed.

(** ** Traps from kernel code *)

Definition kernel_frame : list (reg * Z) :=
  [(RA, 0); (SP, 8); (GP, 16); (TP, 24); (T0, 32); (T1, 40); (T2, 48); (S0, 56); (S1, 64); (A0, 72);
   (A1, 80); (A2, 88); (A3, 96); (A4, 104); (A5, 112); (A6, 120); (A7, 128); (S2, 136); (S3, 144);
   (S4, 152); (S5, 160); (S6, 168); (S7, 176); (S8, 184); (S9, 192); (S10, 200); (S11, 208);
   (T3, 216); (T4, 224); (T5, 232); (T6, 240)].

Definition restored : list (reg * Z) := filter (fun x => x.1 <> TP) kernel_frame.

Lemma kernelvec_save_eq : kernelvec_save = [ADDI SP SP (-256)] ++ saves SP kernel_frame.
Proof. done. Qed.

Lemma kernelvec_restore_eq : kernelvec_restore = loads SP restored ++ [ADDI SP SP 256].
Proof. done. Qed.

Lemma kernel_frame_range x : x ∈ kernel_frame -> 0 <= x.2 /\ x.2 + 8 <= 256.
Proof.
  intros Hx%list_elem_of_In.
  assert (H : forallb (fun x => (0 <=? x.2) && (x.2 + 8 <=? 256)) kernel_frame = true) by reflexivity.
  rewrite forallb_forall in H. specialize (H x Hx). apply andb_prop in H as [?%Z.leb_le ?%Z.leb_le]. lia.
Qed.

Lemma restored_sub x : x ∈ restored -> x ∈ kernel_frame.
Proof. by intros [_ ?]%list_elem_of_filter. Qed.

Lemma restored_slot q : q <> TP -> exists o, slot restored q = Some o /\ (q, o) ∈ kernel_frame.
Proof. intros Hq. destruct q; try done; eexists; (split; [reflexivity|apply list_elem_of_In; simpl; tauto]). Qed.

(** Kernel code does not notice a trap: [kernelvec] saves every register,
    and after any [kerneltrap] that follows the calling convention (it gives
    the stack pointer back and leaves the caller's frame alone) all of them are
    restored, except [tp], which must name the hart that runs now. *)
Theorem kernelvec_restores tr s k B :
  user_regs_ok (a_regs s) -> 256 <= a_regs s SP ->
  frame tr (a_csr s C_satp) (a_regs s SP - 256) B 256 ->
  let s1 := run_asm tr kernelvec_save s in
  a_regs k SP = a_regs s1 SP -> a_csr k C_satp = a_csr s1 C_satp ->
  (forall o, 0 <= o -> o + 8 <= 256 -> ld 8 (a_mem k) (B + o) = ld 8 (a_mem s1) (B + o)) ->
  let s' := run_asm tr kernelvec_restore k in
  (forall q, q <> TP -> a_regs s' q = a_regs s q) /\ a_regs s' TP = a_regs k TP /\ a_mem s' = a_mem k.
Proof.
  intros Hr Hsp Hf s1 Hk1 Hk2 Hk3. cbv zeta. set (s0 := run_asm tr [ADDI SP SP (-256)] s).
  assert (Hs0 : a_regs s0 SP = a_regs s SP - 256).
  { change (u64 (a_regs s SP + -256) = a_regs s SP - 256). unfold u64. pose proof (Hr SP). rewrite Z.mod_small by lia. lia. }
  assert (Hs0' : forall q, q <> SP -> a_regs s0 q = a_regs s q)
    by (intros q Hq; unfold s0; cbn; unfold upd_reg; by rewrite decide_False).
  assert (Hc0 : a_csr s0 = a_csr s) by done.
  assert (Hs1 : s1 = mkA (a_regs s0) (a_csr s0) (store_all (a_regs s0) B kernel_frame (a_mem s0))).
  { unfold s1. rewrite kernelvec_save_eq, run_app. apply (run_saves tr SP kernel_frame s0 B 256); [by rewrite Hs0, Hc0|].
    intros x Hx. apply kernel_frame_range in Hx. lia. }
  clearbody s1 s0. subst s1. cbn [a_regs a_csr a_mem] in *.
  assert (Hld : forall q o, (q, o) ∈ kernel_frame -> ld 8 (a_mem k) (B + o) = a_regs s0 q).
  { intros q o Hqo. pose proof (kernel_frame_range _ Hqo) as [R1 R2]. cbn in R1, R2. rewrite Hk3 by lia.
    apply (ld_store_all _ _ _ _ (q, o)); [done|done|]. cbn. destruct (decide (q = SP)) as [->|Hq].
    - rewrite Hs0. pose proof (Hr SP). lia.
    - rewrite Hs0' by done. apply Hr. }
  rewrite kernelvec_restore_eq, run_app.
  destruct (run_loads tr SP restored k B 256) as (H1 & H2 & H3 & H4).
  - by rewrite Hk1, Hk2, Hs0, Hc0.
  - intros x Hx%restored_sub. apply kernel_frame_range in Hx. lia.
  - intros o Ho%restored_sub. by rewrite (Hld SP o Ho), Hk1.
  - set (s2 := run_asm tr (loads SP restored) k) in *. clearbody s2.
    cbn [run_asm foldl step_instr a_regs a_csr a_mem]. unfold upd_reg. split; [|split; [|done]].
    + intros q Hq. destruct (restored_slot q Hq) as (o & Ho1 & Ho2). case_decide as Hd.
      * subst q. rewrite (H3 SP o Ho1), (Hld SP o Ho2), Hs0. unfold u64. pose proof (Hr SP). rewrite Z.mod_small by lia. lia.
      * rewrite (H3 q o Ho1), (Hld q o Ho2). by apply Hs0'.
    + by apply H4.
Qed.

(** ** Context switches *)

(** [struct context] *)
Definition context_slots : list (reg * Z) :=
  [(RA, 0); (SP, 8); (S0, 16); (S1, 24); (S2, 32); (S3, 40); (S4, 48); (S5, 56); (S6, 64); (S7, 72);
   (S8, 80); (S9, 88); (S10, 96); (S11, 104)].

Lemma swtch_eq : swtch = saves A0 context_slots ++ loads A1 context_slots.
Proof. done. Qed.

Lemma context_slots_range x : x ∈ context_slots -> 0 <= x.2 /\ x.2 + 8 <= 112 /\ x.1 <> A1.
Proof.
  intros Hx%list_elem_of_In.
  assert (H : forallb (fun x => (0 <=? x.2) && (x.2 + 8 <=? 112) && negb (bool_decide (x.1 = A1))) context_slots = true) by reflexivity.
  rewrite forallb_forall in H. specialize (H x Hx). apply andb_prop in H as [H Hn]. apply andb_prop in H as [?%Z.leb_le ?%Z.leb_le].
  apply negb_true_iff, bool_decide_eq_false in Hn. repeat split; done || lia.
Qed.

Lemma context_slots_slot q o : (q, o) ∈ context_slots -> slot context_slots q = Some o.
Proof. intros H. repeat (apply elem_of_cons in H as [[= -> ->]|H]; [reflexivity|]). by apply elem_of_nil in H. Qed.

(** [swtch(old, new)] saves the callee-saved registers, the stack pointer and
    the return address in [*old] and takes those of [*new]; every other register
    and the rest of memory stay. *)
Theorem swtch_switches tr s Bo Bn :
  user_regs_ok (a_regs s) ->
  frame tr (a_csr s C_satp) (a_regs s A0) Bo 112 -> frame tr (a_csr s C_satp) (a_regs s A1) Bn 112 ->
  Bo + 112 <= Bn \/ Bn + 112 <= Bo ->
  let s' := run_asm tr swtch s in
  (forall q o, (q, o) ∈ context_slots ->
     ld 8 (a_mem s') (Bo + o) = a_regs s q /\ a_regs s' q = ld 8 (a_mem s) (Bn + o)) /\
  (forall q, slot context_slots q = None -> a_regs s' q = a_regs s q) /\
  (forall n a, a + Z.of_nat n <= Bo \/ Bo + 112 <= a -> ld n (a_mem s') a = ld n (a_mem s) a).
Proof.
  intros Hr Ho Hn Hap. cbv zeta. rewrite swtch_eq, run_app.
  rewrite (run_saves tr A0 context_slots s Bo 112); [|done|intros x Hx; apply context_slots_range in Hx; lia].
  set (m1 := store_all (a_regs s) Bo context_slots (a_mem s)).
  assert (Hm1 : forall n a, a + Z.of_nat n <= Bo \/ Bo + 112 <= a -> ld n m1 a = ld n (a_mem s) a).
  { intros n a Ha. apply ld_store_all_other. intros x Hx. apply context_slots_range in Hx. lia. }
  destruct (run_loads tr A1 context_slots (mkA (a_regs s) (a_csr s) m1) Bn 112) as (H1 & H2 & H3 & H4).
  - exact Hn.
  - intros x Hx. apply context_slots_range in Hx. lia.
  - intros o Ho'. by apply context_slots_range in Ho' as (_ & _ & ?).
  - set (s2 := run_asm tr (loads A1 context_slots) _) in *. clearbody s2. cbn [a_regs a_csr a_mem] in *.
    rewrite H2. split; [|by split]. intros q o Hqo. pose proof (context_slots_range _ Hqo) as (R1 & R2 & _). cbn in R1, R2.
    split.
    + apply (ld_store_all _ _ _ _ (q, o)); [done|done|]. apply Hr.
    + rewrite (H3 q o) by (by apply context_slots_slot). apply Hm1. change (Z.of_nat 8) with 8. lia.
Qed.

(** ** The timer interrupt *)

(** Machine mode does not translate addresses. *)
Definition physical (satp a : Z) : Z := a.

Definition timer_slots : list (reg * Z) := [(A1, 0); (A2, 8); (A3, 16)].

Lemma timer_range x : x ∈ timer_slots -> 0 <= x.2 < 24 /\ x.2 + 8 <= 24 /\ x.1 <> A0.
Proof. intros [->|[->|[->|[]%elem_of_nil]%elem_of_cons]%elem_of_cons]%elem_of_cons; cbn; (split; [lia|split; [lia|done]]). Qed.

Definition timer_work : list instr :=
  [CSRRW A0 C_mscratch A0] ++ saves A0 timer_slots ++ loads A0 [(A1, 24); (A2, 32)] ++
  loads A1 [(A3, 0)] ++ [ADD A3 A3 A2] ++ saves A1 [(A3, 0)] ++ [LI A1 2; CSRW C_sip A1].

Lemma timervec_eq : timervec =
  timer_work ++ loads A0 [(A3, 16); (A2, 8); (A1, 0)] ++ [CSRRW A0 C_mscratch A0].
Proof. done. Qed.

Lemma frame_machine x a n : 0 <= a -> a + n < 2 ^ 64 -> frame physical x a a n.
Proof. intros H1 H2 o Ho. unfold physical, u64. apply Z.mod_small. lia. Qed.

Lemma run_swap x s :
  x <> C_sip ->
  let s' := run_asm physical [CSRRW A0 x A0] s in
  a_regs s' A0 = a_csr s x /\ (forall q, q <> A0 -> a_regs s' q = a_regs s q) /\
  a_csr s' x = a_regs s A0 /\ (forall y, y <> x -> a_csr s' y = a_csr s y) /\ a_mem s' = a_mem s.
Proof.
  intros Hx. cbn. unfold upd_reg, upd_csr. split; [done|]. split; [intros q Hq; by rewrite decide_False|].
  split; [rewrite decide_True by done; by destruct x|]. split; [|done]. intros y Hy. by rewrite decide_False.
Qed.

Lemma not_in4 q : q ∉ [A0; A1; A2; A3] -> q <> A0 /\ q <> A1 /\ q <> A2 /\ q <> A3.
Proof. set_solver. Qed.

Lemma sip_raised x : Z.lor (Z.land x (Z.lnot 2)) (Z.land 2 2) = Z.lor x 2.
Proof.
  apply Z.bits_inj'. intros i Hi. rewrite !Z.lor_spec, Z.land_spec, Z.lnot_spec by done. change (Z.land 2 2) with 2.
  by destruct (Z.testbit x i), (Z.testbit 2 i).
Qed.

(** The work of the handler, with the registers it used saved. *)
Lemma timer_work_spec s sc c iv :
  user_regs_ok (a_regs s) -> a_csr s C_mscratch = sc -> 0 <= sc -> sc + 40 < 2 ^ 64 ->
  ld 8 (a_mem s) (sc + 24) = c -> ld 8 (a_mem s) (sc + 32) = iv -> (c + 8 <= sc \/ sc + 40 <= c) -> c + 8 < 2 ^ 64 ->
  let s' := run_asm physical timer_work s in
  a_regs s' A0 = sc /\ (forall q, q ∉ [A0; A1; A2; A3] -> a_regs s' q = a_regs s q) /\
  a_csr s' C_mscratch = a_regs s A0 /\ a_csr s' C_sip = Z.lor (a_csr s C_sip) 2 /\
  (forall x, x ∈ timer_slots -> ld 8 (a_mem s') (sc + x.2) = a_regs s x.1) /\
  ld 8 (a_mem s') c = u64 (ld 8 (a_mem s) c + iv).
Proof.
  intros Hr Hsc Hs1 Hs2 Hc Hiv Hap Hcr. cbv zeta.
  pose proof frame_machine as Hfr.
  assert (Hc0 : 0 <= c) by (rewrite <- Hc; apply ld64_range).
  unfold timer_work. rewrite !run_app.
  set (s1 := run_asm physical [CSRRW A0 C_mscratch A0] s).
  assert (R1 : a_regs s1 A0 = sc) by exact Hsc.
  assert (R1' : forall q, q <> A0 -> a_regs s1 q = a_regs s q) by (intros q Hq; unfold s1; cbn; unfold upd_reg; by rewrite decide_False).
  assert (C1 : a_csr s1 C_mscratch = a_regs s A0 /\ a_csr s1 C_sip = a_csr s C_sip /\ a_mem s1 = a_mem s) by done. clearbody s1. destruct C1 as (C1 & C1' & M1).
  rewrite (run_saves physical A0 _ s1 sc 24); [|rewrite R1; apply Hfr; lia|by apply timer_range].
  rewrite M1. set (m1 := store_all _ _ _ _).
  assert (L1 : forall n a, a + Z.of_nat n <= sc \/ sc + 24 <= a -> ld n m1 a = ld n (a_mem s) a).
  { intros n a Ha. apply ld_store_all_other. intros x Hx%timer_range. lia. }
  assert (L1' : forall x, x ∈ timer_slots -> ld 8 m1 (sc + x.2) = a_regs s1 x.1).
  { intros x Hx. apply ld_store_all; [done|done|]. pose proof (timer_range x Hx) as (_ & _ & Hx'). rewrite R1' by done. apply Hr. }
  clearbody m1.
  destruct (run_loads physical A0 [(A1, 24); (A2, 32)] (mkA (a_regs s1) (a_csr s1) m1) sc 40) as (C2 & M2 & V2 & K2).
  { cbn [a_regs a_csr]. rewrite R1. apply Hfr; lia. }
  { intros x [->|[->|[]%elem_of_nil]%elem_of_cons]%elem_of_cons; cbn; lia. }
  { intros o [?|[?|[]%elem_of_nil]%elem_of_cons]%elem_of_cons; done. }
  set (s2 := run_asm physical (loads A0 [(A1, 24); (A2, 32)]) _) in *. clearbody s2. cbn [a_regs a_csr a_mem] in *.
  assert (Q1 : a_regs s2 A1 = c) by (rewrite (V2 A1 24), L1 by (done || (change (Z.of_nat 8) with 8; lia)); exact Hc).
  assert (Q2 : a_regs s2 A2 = iv) by (rewrite (V2 A2 32), L1 by (done || (change (Z.of_nat 8) with 8; lia)); exact Hiv).
  destruct (run_loads physical A1 [(A3, 0)] s2 c 8) as (C3 & M3 & V3 & K3).
  { rewrite Q1. apply Hfr; lia. }
  { intros x [->|[]%elem_of_nil]%elem_of_cons; cbn; lia. }
  { intros o [?|[]%elem_of_nil]%elem_of_cons; done. }
  set (s3 := run_asm physical (loads A1 [(A3, 0)]) s2) in *. clearbody s3.
  set (s4 := run_asm physical [ADD A3 A3 A2] s3).
  assert (Q4 : a_regs s4 A3 = u64 (ld 8 (a_mem s) c + iv)).
  { change (u64 (a_regs s3 A3 + a_regs s3 A2) = u64 (ld 8 (a_mem s) c + iv)).
    rewrite (V3 A3 0), (K3 A2), Q2, M2, Z.add_0_r, L1 by (done || (change (Z.of_nat 8) with 8; lia)). done. }
  assert (K4 : forall q, q <> A3 -> a_regs s4 q = a_regs s3 q) by (intros q Hq; unfold s4; cbn; unfold upd_reg; by rewrite decide_False).
  assert (C4 : a_csr s4 = a_csr s3 /\ a_mem s4 = a_mem s3) by done. destruct C4 as [C4 M4]. clearbody s4.
  rewrite (run_saves physical A1 [(A3, 0)] s4 c 8).
  2: { rewrite K4, (K3 A1), Q1 by done. apply Hfr; lia. }
  2: { intros x [->|[]%elem_of_nil]%elem_of_cons; cbn; lia. }
  change (store_all (a_regs s4) c [(A3, 0)] (a_mem s4)) with (st 8 (a_mem s4) (c + 0) (a_regs s4 A3)).
  rewrite M4, M3, M2, Q4, Z.add_0_r. set (m2 := st 8 m1 c _). set (s6 := run_asm physical [LI A1 2; CSRW C_sip A1] _).
  assert (K6 : forall q, q <> A1 -> a_regs s6 q = a_regs s4 q) by (intros q Hq; unfold s6; cbn; unfold upd_reg; by rewrite decide_False).
  assert (C6 : a_csr s6 C_mscratch = a_csr s4 C_mscratch /\ a_csr s6 C_sip = Z.lor (a_csr s4 C_sip) 2 /\ a_mem s6 = m2).
  { split; [done|]. split; [|done]. apply sip_raised. }
  destruct C6 as (C6 & C6' & M6). clearbody s6.
  split_and!.
  - rewrite K6, K4, (K3 A0), (K2 A0) by done. exact R1.
  - intros q Hq. apply not_in4 in Hq as (N0 & N1 & N2 & N3).
    rewrite K6, K4, (K3 q), (K2 q), R1' by (done || by destruct q). done.
  - by rewrite C6, C4, C3, C2.
  - by rewrite C6', C4, C3, C2, C1'.
  - intros x Hx. pose proof (timer_range x Hx) as (? & ? & ?). rewrite M6. unfold m2.
    rewrite ld_st_disj by (change (Z.of_nat 8) with 8; lia). rewrite L1' by done. by apply R1'.
  - rewrite M6. apply ld64_st64. apply Z.mod_pos_bound. lia.
Qed.

(** [timervec] runs in machine mode, where addresses are physical: it
    schedules the next interrupt one interval later, raises a software
    interrupt, leaving the other pending interrupts alone, and gives every
    register back. *)
Theorem timervec_ticks s sc c iv :
  user_regs_ok (a_regs s) -> a_csr s C_mscratch = sc -> 0 <= sc -> sc + 40 < 2 ^ 64 ->
  ld 8 (a_mem s) (sc + 24) = c -> ld 8 (a_mem s) (sc + 32) = iv -> (c + 8 <= sc \/ sc + 40 <= c) -> c + 8 < 2 ^ 64 ->
  let s' := run_asm physical timervec s in
  (forall q, a_regs s' q = a_regs s q) /\ a_csr s' C_mscratch = sc /\ a_csr s' C_sip = Z.lor (a_csr s C_sip) 2 /\
  ld 8 (a_mem s') c = u64 (ld 8 (a_mem s) c + iv).
Proof.
  intros Hr Hsc Hs1 Hs2 Hc Hiv Hap Hcr. cbv zeta. rewrite timervec_eq, !run_app.
  destruct (timer_work_spec s sc c iv Hr Hsc Hs1 Hs2 Hc Hiv Hap Hcr) as (A6 & K6 & C6 & C6' & L6 & M6).
   set (s6 := run_asm physical timer_work s) in *. clearbody s6.
  destruct (run_loads physical A0 [(A3, 16); (A2, 8); (A1, 0)] s6 sc 24) as (C7 & M7 & V7 & K7).
  { rewrite A6. apply frame_machine; lia. }
  { intros x [->|[->|[->|[]%elem_of_nil]%elem_of_cons]%elem_of_cons]%elem_of_cons; cbn; lia. }
  { intros o [?|[?|[?|[]%elem_of_nil]%elem_of_cons]%elem_of_cons]%elem_of_cons; done. }
  set (s7 := run_asm physical (loads A0 _) s6) in *. clearbody s7.
  destruct (run_swap C_mscratch s7 ltac:(done)) as (H1 & H2 & H3 & H4 & H5). set (s8 := run_asm physical [_] s7) in *. clearbody s8.
  split; [|split; [|split]].
  - intros q. destruct (decide (q = A0)) as [->|Hq]; [by rewrite H1, C7, C6|]. rewrite H2 by done.
    assert (Hin : forall o, (q, o) ∈ timer_slots -> slot [(A3, 16); (A2, 8); (A1, 0)] q = Some o -> a_regs s7 q = a_regs s q).
    { intros o Ho1 Ho2. rewrite (V7 q o Ho2). exact (L6 (q, o) Ho1). }
    destruct (decide (q ∈ [A1; A2; A3])) as [Hq'|Hq'].
    + apply elem_of_cons in Hq' as [->|[->|[->|[]%elem_of_nil]%elem_of_cons]%elem_of_cons]; eapply Hin; try reflexivity; apply list_elem_of_In; simpl; tauto.
    + assert (Hq4 : q ∉ [A0; A1; A2; A3]) by (by apply not_elem_of_cons).
      pose proof (not_in4 q Hq4) as (_ & N1 & N2 & N3). rewrite (K7 q), (K6 q Hq4) by (by destruct q). done.
  - by rewrite H3, (K7 A0).
  - by rewrite H4, C7, C6'.
  - by rewrite H5, M7.
Qed.

(** ** Boot *)

(** [_entry] gives hart [h] the stack that ends at [stack0 + 4096 * (h + 1)]. *)
Theorem entry_stack tr s stack0 h :
  a_csr s C_mhartid = h -> 0 <= h -> 0 <= stack0 -> stack0 + 4096 * (h + 1) < 2 ^ 64 ->
  a_regs (run_asm tr (entry stack0) s) SP = stack0 + 4096 * (h + 1).
Proof.
  intros Hh H0 H1 H2.
  change (u64 (u64 stack0 + u64 (u64 (1024 * 4) * u64 (a_csr s C_mhartid + 1))) = stack0 + 4096 * (h + 1)).
  rewrite Hh. unfold u64. rewrite !(Z.mod_small stack0), !(Z.mod_small (h + 1)), (Z.mod_small (1024 * 4)) by lia.
  rewrite Z.mod_small; rewrite Z.mod_small; lia.
Qed.

(** ** Witness *)

(** A user page table that maps [TRAPFRAME] to the page at 0x80060000. *)
Definition demo_tr (satp a : Z) : Z :=
  if (satp =? 5) && (TRAPFRAME <=? a) && (a <? TRAPFRAME + PGSIZE) then a - TRAPFRAME + 0x80060000 else a.
Definition demo_user : astate :=
  mkA (fun q => match q with RA => 0x1010 | SP => 0x3fc0 | A0 => 3 | A7 => 11 | _ => 17 end)
      (fun c => match c with C_sscratch => TRAPFRAME | C_satp => 5 | _ => 0 end) ∅.
(** The kernel comes back with the result 42. *)
Definition demo_back : astate :=
  mkA (fun q => match q with A0 => TRAPFRAME | A1 => 5 | _ => 99 end) (fun _ => 8)
      (st 8 (a_mem (run_asm demo_tr uservec demo_user)) (0x80060000 + 112) 42).

Lemma demo_tr_frame : frame demo_tr 5 TRAPFRAME 0x80060000 PGSIZE.
Proof.
  intros o Ho. unfold demo_tr. unfold TRAPFRAME, TRAMPOLINE, PGSIZE in *. change MAXVA with 274877906944 in *.
  unfold u64. rewrite Z.mod_small by lia. rewrite (proj2 (Z.leb_le _ _)), (proj2 (Z.ltb_lt _ _)) by lia. cbn [andb Z.eqb Pos.eqb]. lia.
Qed.

Lemma trampoline_roundtrip_witness :
  let s' := run_asm demo_tr userret demo_back in
  a_regs s' SP = 0x3fc0 /\ a_regs s' A7 = 11 /\ a_regs s' A0 = 42 /\ a_csr s' C_satp = 5.
Proof.
  cbv zeta. destruct (trampoline_roundtrip demo_tr demo_user demo_back TRAPFRAME 0x80060000 5) as (H1 & H2 & H3 & H4).
  - reflexivity.
  - reflexivity.
  - exact demo_tr_frame.
  - intros q. destruct q; vm_compute; split; discriminate || reflexivity.
  - reflexivity.
  - reflexivity.
  - intros o Ho1 Ho2 Ho3. cbn [demo_back a_mem]. apply ld_st_disj. change (Z.of_nat 8) with 8. lia.
  - rewrite (H1 SP), (H1 A7) by discriminate. split; [reflexivity|]. split; [reflexivity|]. split; [|exact H4].
    rewrite H2. apply ld64_st64. split; [discriminate|reflexivity].
Defined.
