(* ===== verification/Exec.v ===== *)
(** * [exec] ([kernel/exec.c], [kernel/elf.h], [sys_exec] of [kernel/sysfile.c])

    [exec] works on the process side of the kernel and on the file system at
    once.  [xst] holds both states; they share the hart and the kernel's
    memory, and each lens keeps the two copies equal.  The file-system state
    sees user memory as a byte map of its own, read here only by the calls
    that fetch the arguments, before the new image is committed.  The local variables the
    code passes by address ([elf], [ph], [ustack]) live at the addresses of
    [Locals]. *)
From stdpp Require Import base gmap strings numbers option list.
From S2P Require Import Prelude Layout Machine Memory Kernel Kalloc Vm RcuList Rcu.
From S2P Require Import FsState Log Fs Sysfile Proc.
Open Scope Z_scope.

Definition ELF_MAGIC : Z := 0x464C457F.
Definition ELF_PROG_LOAD : Z := 1.
Definition sizeof_elfhdr : Z := 64.
Definition sizeof_proghdr : Z := 56.

(** [struct elfhdr] and [struct proghdr], the fields [exec] uses. *)
Record elfhdr := mkElf { e_magic : Z; e_entry : Z; e_phoff : Z; e_phnum : Z }.
Record proghdr := mkPh { ph_type : Z; ph_off : Z; ph_vaddr : Z; ph_filesz : Z; ph_memsz : Z }.

Definition elf_at (m : mem) (a : Z) : elfhdr :=
  mkElf (ld 4 m a) (ld 8 m (a + 24)) (ld 8 m (a + 32)) (ld 2 m (a + 56)).
Definition ph_at (m : mem) (a : Z) : proghdr :=
  mkPh (ld 4 m a) (ld 8 m (a + 8)) (ld 8 m (a + 16)) (ld 8 m (a + 32)) (ld 8 m (a + 40)).

Record xst := mkX { x_k : kst; x_f : fstate }.

Definition xkL : lens xst kst :=
  Lens x_k (fun k x => mkX k (setf_kmem (k_mem k) (setf_hart (k_hart k) (x_f x)))).
Definition xfL : lens xst fstate :=
  Lens x_f (fun f x => mkX (set_mem (f_kmem f) (set_hart (f_hart f) (x_k x))) f).

(** The two copies agree. *)
Definition coherent (x : xst) : Prop := f_hart (x_f x) = k_hart (x_k x) /\ f_kmem (x_f x) = k_mem (x_k x).

Class Locals := { elf_addr : Z; ph_addr : Z; ustack_addr : Z }.

(** The part of a path after its last slash: [last] of the name loop. *)
Fixpoint last_elem (last s : list Z) : list Z :=
  match s with
  | [] => last
  | c :: s' => if c =? 47 then last_elem s' s' else last_elem last s'
  end.

(** Room for a string of length [len] below [sp], aligned for the stack. *)
Definition push_down (sp len : Z) : Z := let sp := u64 (sp - len) in sp - sp mod 16.

Section exec.
Context `{im : Image} `{W : World} `{LV : Locals}.

Definition loadseg (pagetable va : Z) (ip : nat) (offset sz : Z) : M xst Z :=
  if negb (va mod PGSIZE =? 0) then panic "loadseg: va must be page aligned" else
  loop (S (S (Z.to_nat (sz / PGSIZE)))) (fun i =>
    if negb (i <? sz) then mret (inr 0) else
    pa ← zoom xkL (walkaddr pagetable (u64 (va + i)));
    if pa =? 0 then panic "loadseg: address should exist" else
    let n := if sz - i <? PGSIZE then sz - i else PGSIZE in
    r ← zoom xfL (readi ip false pa (u32 (offset + i)) n);
    if negb (r =? n) then mret (inr (-1)) else mret (inl (u32 (i + PGSIZE)))) 0.

(** One turn of the loop over the program headers: [inl] the new [sz], or
    [inr] the [sz] at that point for a jump to [bad]. *)
Definition load_ph (pagetable : Z) (ip : nat) (off sz : Z) : M xst (Z + Z) :=
  n ← zoom xfL (readi ip false ph_addr (u32 off) sizeof_proghdr);
  if negb (n =? sizeof_proghdr) then mret (inr sz) else
  ph ← gets (fun x => ph_at (k_mem (x_k x)) ph_addr);
  if negb (ph_type ph =? ELF_PROG_LOAD) then mret (inl sz) else
  if ph_memsz ph <? ph_filesz ph then mret (inr sz) else
  if u64 (ph_vaddr ph + ph_memsz ph) <? ph_vaddr ph then mret (inr sz) else
  sz1 ← zoom xkL (uvmalloc pagetable sz (u64 (ph_vaddr ph + ph_memsz ph)));
  if sz1 =? 0 then mret (inr sz) else
  if negb (ph_vaddr ph mod PGSIZE =? 0) then mret (inr sz1) else
  r ← loadseg pagetable (ph_vaddr ph) ip (u32 (ph_off ph)) (u32 (ph_filesz ph));
  if r <? 0 then mret (inr sz1) else mret (inl sz1).

Fixpoint load_all (pagetable : Z) (ip : nat) (n : nat) (off sz : Z) : M xst (Z + Z) :=
  match n with
  | O => mret (inl sz)
  | S n' =>
      r ← load_ph pagetable ip off sz;
      match r with
      | inl sz' => load_all pagetable ip n' (i32 (off + sizeof_proghdr)) sz'
      | inr sz' => mret (inr sz')
      end
  end.

(** The argument strings: the stack pointer below them, with their addresses
    in [ustack]; [None] for a jump to [bad]. *)
Fixpoint push_args (pagetable stackbase : Z) (argv : list Z) (argc sp : Z) : M xst (option Z) :=
  match argv with
  | [] => mret (Some sp)
  | a :: argv' =>
      if MAXARG <=? argc then mret None else
      m ← gets (fun x => k_mem (x_k x));
      match strlen (Z.to_nat PGSIZE) m a with
      | None => fail EFuel
      | Some len =>
          let sp := push_down sp (len + 1) in
          if sp <? stackbase then mret None else
          r ← zoom xkL (copyout pagetable sp a (len + 1));
          if r <? 0 then mret None else
          zoom xkL (modify (fun k => set_mem (st 8 (k_mem k) (ustack_addr + 8 * argc) sp) k));;
          push_args pagetable stackbase argv' (argc + 1) sp
      end
  end.

(** All of the stack: the strings, then the array of their addresses with its
    null pointer; the stack pointer below it. *)
Definition push_argv (pagetable stackbase : Z) (argv : list Z) (sz : Z) : M xst (option Z) :=
  r ← push_args pagetable stackbase argv 0 sz;
  match r with
  | None => mret None
  | Some sp =>
      let argc := Z.of_nat (length argv) in
      zoom xkL (modify (fun k => set_mem (st 8 (k_mem k) (ustack_addr + 8 * argc) 0) k));;
      let sp := push_down sp ((argc + 1) * 8) in
      if sp <? stackbase then mret None else
      r ← zoom xkL (copyout pagetable sp ustack_addr ((argc + 1) * 8));
      if r <? 0 then mret None else mret (Some sp)
  end.

(** [bad:] *)
Definition exec_bad (pagetable sz : Z) (ip : option nat) : M xst Z :=
  (if negb (pagetable =? 0) then zoom xkL (proc_freepagetable pagetable sz) else skip);;
  match ip with
  | Some i => zoom xfL (iunlockput i);; zoom xfL end_op
  | None => skip
  end;;
  mret (-1).

(** From the arguments on the stack to the new user image. *)
Definition exec_commit (p : Z) (elf : elfhdr) (path : list Z) (pagetable oldsz sz sp argc : Z) : M xst Z :=
  tf ← zoom xkL (load64 (p_trapframe p));
  zoom xkL (store64 (tf + 120) sp);;
  zoom xkL (modify (fun k => set_mem (wr_bytes (k_mem k) (p_name p) (safe_bytes 15 (last_elem path path ++ [0]))) k));;
  oldpagetable ← zoom xkL (load64 (p_pagetable p));
  zoom xkL (store64 (p_pagetable p) pagetable);;
  zoom xkL (store64 (p_sz p) sz);;
  tf ← zoom xkL (load64 (p_trapframe p));
  zoom xkL (store64 (tf + 24) (e_entry elf));;
  tf ← zoom xkL (load64 (p_trapframe p));
  zoom xkL (store64 (tf + 48) sp);;
  zoom xkL (proc_freepagetable oldpagetable oldsz);;
  mret argc.

(** The stack: two pages above the program, the lower one inaccessible. *)
Definition exec_stack (elf : elfhdr) (path : list Z) (argv : list Z) (pagetable sz : Z) : M xst Z :=
  p ← zoom xkL myproc;
  oldsz ← zoom xkL (load64 (p_sz p));
  let sz := PGROUNDUP sz in
  sz1 ← zoom xkL (uvmalloc pagetable sz (u64 (sz + 2 * PGSIZE)));
  if sz1 =? 0 then exec_bad pagetable sz None else
  let sz := sz1 in
  zoom xkL (uvmclear pagetable (u64 (sz - 2 * PGSIZE)));;
  let stackbase := u64 (sz - PGSIZE) in
  r ← push_argv pagetable stackbase argv sz;
  match r with
  | None => exec_bad pagetable sz None
  | Some sp => exec_commit p elf path pagetable oldsz sz sp (Z.of_nat (length argv))
  end.

Definition exec (path : list Z) (argv : list Z) : M xst Z :=
  p ← zoom xkL myproc;
  zoom xfL begin_op;;
  oip ← zoom xfL (namei path);
  match oip with
  | None => zoom xfL end_op;; mret (-1)
  | Some ip =>
      zoom xfL (ilock (Some ip));;
      n ← zoom xfL (readi ip false elf_addr 0 sizeof_elfhdr);
      if negb (n =? sizeof_elfhdr) then exec_bad 0 0 (Some ip) else
      elf ← gets (fun x => elf_at (k_mem (x_k x)) elf_addr);
      if negb (e_magic elf =? ELF_MAGIC) then exec_bad 0 0 (Some ip) else
      pagetable ← zoom xkL (proc_pagetable p);
      if pagetable =? 0 then exec_bad 0 0 (Some ip) else
      r ← load_all pagetable ip (Z.to_nat (e_phnum elf)) (i32 (e_phoff elf)) 0;
      match r with
      | inr sz => exec_bad pagetable sz (Some ip)
      | inl sz =>
          zoom xfL (iunlockput ip);;
          zoom xfL end_op;;
          exec_stack elf path argv pagetable sz
      end
  end.

(** ** [sys_exec] *)

(** [for(i = 0; i < NELEM(argv) && argv[i] != 0; i++) kfree(argv[i])] *)
Definition free_argv (argv : list Z) : M xst unit := forM argv (fun a => zoom xkL (kfree a)).

(** The argument strings copied from user space, each to a page of its own:
    whether all were, and the pages taken. *)
Fixpoint fetch_argv (n : nat) (uargv i : Z) (argv : list Z) : M xst (bool * list Z) :=
  match n with
  | O => mret (false, argv)
  | S n' =>
      u ← zoom xfL (fetchaddr (u64 (uargv + 8 * i)));
      match u with
      | None => mret (false, argv)
      | Some uarg =>
          if uarg =? 0 then mret (true, argv) else
          a ← zoom xkL kalloc;
          if a =? 0 then mret (false, argv) else
          s ← zoom xfL (fetchstr uarg PGSIZE);
          match s with
          | None => mret (false, argv ++ [a])
          | Some bs =>
              zoom xkL (modify (fun k => set_mem (wr_bytes (k_mem k) a (bs ++ [0])) k));;
              fetch_argv n' uargv (i + 1) (argv ++ [a])
          end
      end
  end.

Definition sys_exec : M xst Z :=
  path ← zoom xfL (argstr 0 MAXPATH);
  match path with
  | None => mret (-1)
  | Some path =>
      uargv ← zoom xfL (argaddr 1);
      r ← fetch_argv (Z.to_nat MAXARG) uargv 0 [];
      if r.1 : bool then
        ret ← exec path r.2;
        free_argv r.2;;
        mret ret
      else free_argv r.2;; mret (-1)
  end.

End exec.
