(* ===== verification/ExecLogic.v ===== *)
(** * The arguments [exec] puts on the new stack

    The user stack is one page.  [layout] says where the strings go; the
    theorem says that [push_argv] puts them there, NUL-terminated and 16-byte
    aligned, with the array of their addresses below them, or fails exactly
    when they do not fit. *)
From stdpp Require Import base gmap strings numbers option list.
From S2P Require Import Prelude Layout Machine Memory Kernel Demo Kalloc Vm PageTable UserCopy.
From S2P Require Import FsState Bio Log Fs Sysfile Proc Exec.
Open Scope Z_scope.

(** The byte [j] of a string with its NUL. *)
Definition byte_at (bs : list Z) (j : Z) : Z := nth (Z.to_nat j) (bs ++ [0]) 0.

(** A string of the kernel: short enough for a page, no NUL inside. *)
Record str_at (m : mem) (a : Z) (bs : list Z) : Prop := {
  sa_bytes : forall j, 0 <= j <= Z.of_nat (length bs) -> rd m (a + j) = byte_at bs j;
  sa_nul : Forall (fun b => b <> 0) bs;
  sa_len : Z.of_nat (length bs) < PGSIZE
}.

Lemma byte_at_nz bs j : Forall (fun b => b <> 0) bs -> 0 <= j < Z.of_nat (length bs) -> byte_at bs j <> 0.
Proof.
  intros H Hj. unfold byte_at. rewrite app_nth1 by lia. rewrite Forall_forall in H.
  apply H. apply list_elem_of_In, nth_In. lia.
Qed.

Lemma byte_at_end bs : byte_at bs (Z.of_nat (length bs)) = 0.
Proof. unfold byte_at. rewrite app_nth2 by lia. by replace (_ - _)%nat with 0%nat by lia. Qed.

Lemma strlen_at m a bs fuel : forall n,
  str_at m a bs -> 0 <= n <= Z.of_nat (length bs) -> Z.of_nat (length bs) - n < Z.of_nat fuel ->
  strlen_loop fuel m a n = Some (Z.of_nat (length bs)).
Proof.
  induction fuel as [|fuel IH]; intros n Hs Hn Hf; [lia|]. cbn [strlen_loop].
  rewrite (sa_bytes _ _ _ Hs) by lia. destruct (decide (n = Z.of_nat (length bs))) as [->|Hne].
  - by rewrite byte_at_end.
  - rewrite (proj2 (Z.eqb_neq _ 0)) by (apply byte_at_nz; [apply Hs|lia]). apply IH; [done|lia|lia].
Qed.

Lemma push_down_spec sp len :
  0 <= len <= sp -> sp < 2 ^ 64 -> sp - len - 16 < push_down sp len <= sp - len /\ push_down sp len mod 16 = 0 /\ 0 <= push_down sp len.
Proof.
  intros H1 H2. unfold push_down. rewrite u64_small by lia. pose proof (Z.mod_pos_bound (sp - len) 16 ltac:(lia)).
  pose proof (Z.mod_le (sp - len) 16 ltac:(lia) ltac:(lia)).
  split; [lia|]. split; [|lia]. rewrite Zminus_mod, Z.mod_mod, Z.sub_diag by lia. done.
Qed.

(** Where the strings go: from [sp] down, or nowhere. *)
Fixpoint layout (stackbase : Z) (lens : list Z) (sp : Z) : option (list Z) :=
  match lens with
  | [] => Some []
  | len :: lens' =>
      let sp := push_down sp (len + 1) in
      if sp <? stackbase then None else (fun l => sp :: l) <$> layout stackbase lens' sp
  end.

(** The address array goes below the last string. *)
Definition stack_layout (stackbase : Z) (lens : list Z) (top : Z) : option (list Z * Z) :=
  match layout stackbase lens top with
  | None => None
  | Some sps =>
      let sp := push_down (List.last sps top) ((Z.of_nat (length lens) + 1) * 8) in
      if sp <? stackbase then None else Some (sps, sp)
  end.

Section exec.
Context `{im : Image} `{!ImageOk im} `{W : World} `{LV : Locals}.
Variables (root sb F : Z) (tbl : gmap (nat * Z) Z).

(** The stack page [sb] is mapped to the frame [F]; [ustack] is kernel memory
    off the page tables and off the frame. *)
Record stack_ok (m : mem) : Prop := {
  so_space : uspace m root tbl;
  so_mapped : umapped m tbl sb = true;
  so_frame : PTE2PA (leaf m tbl sb) = F
}.

Hypothesis Hsb : sb mod PGSIZE = 0 /\ PGSIZE <= sb.
Hypothesis Hustack : ram ustack_addr (8 * (MAXARG + 1)) /\ off_tables tbl ustack_addr (8 * (MAXARG + 1)) /\
  (ustack_addr + 8 * (MAXARG + 1) <= F \/ F + PGSIZE <= ustack_addr).

Definition in_frame (b : Z) : Prop := F <= b < F + PGSIZE.
Definition in_ustack (b : Z) : Prop := ustack_addr <= b < ustack_addr + 8 * (MAXARG + 1).

Lemma stack_ok_frame m m' :
  stack_ok m -> (forall b, ~ in_frame b -> ~ in_ustack b -> rd m' b = rd m b) -> stack_ok m'.
Proof.
  intros [Hs Hm HF] H. destruct Hustack as (_ & Ho & _). destruct Hsb as [_ Hsb0]. pose proof mapva_small.
  pose proof (umapped_range _ _ _ Hm).
  assert (Hpt : pt_same (fun _ _ => False) m m' tbl).
  { apply pt_same_frame; [apply Hs|]. intros x t b Ht Hb. apply H.
    - assert (t <> F) by (rewrite <- HF; intros ->; eapply (us_table _ _ _ Hs sb); [unfold PGSIZE in *; lia|done|done]).
      destruct (pw_page _ _ _ (us_wf _ _ _ Hs) _ _ Ht) as [K1 _].
      destruct (us_page _ _ _ Hs sb ltac:(unfold PGSIZE in *; lia) Hm) as [K2 _]. rewrite HF in K2. unfold in_frame.
      destruct (page_apart _ _ K1 K2); [done|lia|lia].
    - unfold in_ustack. destruct (Ho x t Ht); lia. }
  destruct (uspace_frame m m' root tbl Hs Hpt) as [Hs' Hl]. assert (0 <= sb < 2 ^ 64) by (unfold PGSIZE in *; lia).
  destruct (umapped_leaf m m' tbl sb (Hl sb ltac:(done))) as [E1 E2].
  split; [done|by rewrite E1|by rewrite Hl].
Qed.

(** The user addresses of the stack page. *)
Lemma stack_tr m i : stack_ok m -> 0 <= i < PGSIZE -> umapped m tbl (sb + i) = true /\ tr m tbl (sb + i) = F + i.
Proof.
  intros [Hs Hm HF] Hi. destruct Hsb as [Hsb1 Hsb2]. destruct (chunk_tr m tbl sb i) as [H1 H2]; try done; try (unfold PGSIZE in *; lia).
  split; [done|]. rewrite H2. unfold tr. rewrite HF, Hsb1. lia.
Qed.

(** [copyout] to the stack page always succeeds. *)
Lemma copyout_stack s sp src n :
  stack_ok (k_mem s) -> sb <= sp -> 0 <= n -> sp + n <= sb + PGSIZE -> ram src n ->
  (forall j, 0 <= j < n -> ~ in_frame (src + j)) ->
  wp (copyout root sp src n) (fun r s' => r = 0 /\ exists m', s' = set_mem m' s /\
    (forall j, 0 <= j < n -> rd m' (F + (sp - sb) + j) = rd (k_mem s) (src + j)) /\
    (forall b, ~ (F + (sp - sb) <= b < F + (sp - sb) + n) -> rd m' b = rd (k_mem s) b)) s.
Proof.
  intros Hok H1 Hn H2 Hram Hoff. pose proof Hok as [Hs Hm HF]. destruct Hsb as [_ Hsb2]. pose proof mapva_small.
  pose proof (umapped_range _ _ _ Hm). assert (0 <= sp < 2 ^ 64) by (unfold PGSIZE, MAXVA in *; lia).
  assert (Htr : forall i, 0 <= i < n -> umapped (k_mem s) tbl (sp + i) = true /\ tr (k_mem s) tbl (sp + i) = F + (sp - sb) + i).
  { intros i Hi. destruct (stack_tr (k_mem s) (sp - sb + i) Hok ltac:(lia)) as [E1 E2].
    replace (sb + (sp - sb + i)) with (sp + i) in * by lia. split; [done|]. rewrite E2. lia. }
  eapply wp_conseq; [apply (copyout_loop root tbl (copy_fuel n) s sp src n); try done; [|by apply chunks_fuel]|].
  - intros j Hj va Hva _. destruct (Htr (va - sp) ltac:(lia)) as [E1 E2]. replace (sp + (va - sp)) with va in * by lia.
    intros Hb. apply (Hoff j Hj). unfold in_frame. enough (PTE2PA (leaf (k_mem s) tbl va) = F) as E by (rewrite E in Hb; done).
    unfold tr in E2. pose proof (us_page _ _ _ Hs va ltac:(lia) E1) as [K1 _].
    pose proof (us_page _ _ _ Hs sb ltac:(unfold PGSIZE in *; lia) Hm) as [K2 _]. rewrite HF in K2.
    destruct (decide (PTE2PA (leaf (k_mem s) tbl va) = F)) as [|Hne]; [done|exfalso].
    pose proof (Z.mod_pos_bound va PGSIZE ltac:(done)). destruct (page_apart _ _ K1 K2 Hne); lia.
  - intros r s' (k & m' & -> & (Hk1 & Hk2 & Hk3) & Hc1 & Hc2).
    destruct Hk3 as [[-> ->]|(_ & Hlt & Hu)]; [|destruct (Htr k ltac:(lia)) as [E _]; congruence].
    split; [done|]. exists m'. split; [done|]. split.
    + intros j Hj. rewrite <- (proj2 (Htr j Hj)). by apply Hc1.
    + intros b Hb. apply Hc2. intros i Hi. rewrite (proj2 (Htr i Hi)). lia.
Qed.

(** What may change while the stack pointer is at [sp] and [argc] arguments
    are done: the stack below and the rest of [ustack]. *)
Definition kept (m m' : mem) (sp argc : Z) : Prop :=
  forall b, ~ (F <= b < F + (sp - sb)) -> ~ (ustack_addr + 8 * argc <= b < ustack_addr + 8 * (MAXARG + 1)) -> rd m' b = rd m b.

(** A string on the stack. *)
Definition on_stack (m : mem) (sp : Z) (bs : list Z) : Prop :=
  sp mod 16 = 0 /\ sb <= sp /\ sp + Z.of_nat (length bs) < sb + PGSIZE /\
  forall j, 0 <= j <= Z.of_nat (length bs) -> rd m (F + (sp - sb) + j) = byte_at bs j.

(** A string of the kernel that the stores do not touch. *)
Definition arg_ok (m : mem) (a : Z) (bs : list Z) : Prop :=
  str_at m a bs /\ ram a (Z.of_nat (length bs) + 1) /\
  forall j, 0 <= j <= Z.of_nat (length bs) -> ~ in_frame (a + j) /\ ~ in_ustack (a + j).

Lemma arg_ok_kept m m' a bs :
  arg_ok m a bs -> (forall b, ~ in_frame b -> ~ in_ustack b -> rd m' b = rd m b) -> arg_ok m' a bs.
Proof.
  intros ([H1 H2 H3] & Hr & Ho) H. split; [split; try done|by split].
  intros j Hj. destruct (Ho j Hj). rewrite H by done. by apply H1.
Qed.

Lemma kept_outside m m' sp argc :
  kept m m' sp argc -> sp <= sb + PGSIZE -> 0 <= argc -> forall b, ~ in_frame b -> ~ in_ustack b -> rd m' b = rd m b.
Proof. intros H Hsp Ha b H1 H2. apply H; unfold in_frame, in_ustack in *; lia. Qed.

Lemma on_stack_kept m m' sp' argc sp bs : kept m m' sp' argc -> 0 <= argc -> sp' <= sp -> on_stack m sp bs -> on_stack m' sp bs.
Proof.
  intros Hk Ha Hsp (H1 & H2 & H3 & H4). split; [done|]. split; [done|]. split; [done|]. intros j Hj.
  rewrite Hk; [by apply H4|lia|]. destruct Hustack as (_ & _ & Hd). unfold kept, MAXARG in *. lia.
Qed.

Lemma kept_trans m1 m2 m3 sp1 sp2 a1 a2 :
  kept m1 m2 sp1 a1 -> kept m2 m3 sp2 a2 -> sp2 <= sp1 -> a1 <= a2 -> kept m1 m3 sp1 a1.
Proof. intros H1 H2 Hs Ha b Hb1 Hb2. rewrite H2 by lia. by apply H1. Qed.

(** Storing the address of a string in [ustack]. *)
Lemma kept_store m argc v sp : 0 <= argc <= MAXARG -> kept m (st 8 m (ustack_addr + 8 * argc) v) sp argc.
Proof. intros Ha b _ Hb. apply rd_st_out. lia. Qed.

Lemma last_cons (l : list Z) a d : List.last (a :: l) d = List.last l a.
Proof. revert a d. induction l as [|b l IH]; intros a d; [done|]. simpl in *. destruct l; [done|]. apply IH. Qed.

Lemma frame_off_ustack b : in_frame b -> ~ in_ustack b.
Proof. destruct Hustack as (_ & _ & Hd). unfold in_frame, in_ustack. lia. Qed.

Lemma push_args_spec : forall argv strs argc sp x,
  stack_ok (k_mem (x_k x)) -> Forall2 (arg_ok (k_mem (x_k x))) argv strs ->
  sb <= sp <= sb + PGSIZE -> 0 <= argc -> argc + Z.of_nat (length argv) <= MAXARG ->
  wp (push_args root sb argv argc sp) (fun r x' =>
    kept (k_mem (x_k x)) (k_mem (x_k x')) sp argc /\
    match layout sb (map (fun bs => Z.of_nat (length bs)) strs) sp with
    | None => r = None
    | Some sps => r = Some (List.last sps sp) /\ Forall2 (on_stack (k_mem (x_k x'))) sps strs /\
        sb <= List.last sps sp <= sp /\ Forall (Z.le (List.last sps sp)) sps /\
        forall i spi, sps !! i = Some spi -> ld 8 (k_mem (x_k x')) (ustack_addr + 8 * (argc + Z.of_nat i)) = spi
    end) x.
Proof.
  induction argv as [|a argv IH]; intros strs argc sp x Hok Hargs Hsp Ha Hlen.
  { apply Forall2_nil_inv_l in Hargs as ->. apply wp_ret. split; [done|]. simpl. repeat split; try done; lia. }
  apply Forall2_cons_inv_l in Hargs as (bs & strs' & (Hstr & Hram & Hoff) & Hargs & ->).
  set (m := k_mem (x_k x)) in *. set (len := Z.of_nat (length bs)) in *. destruct Hsb as [_ Hsb2]. pose proof Hok as [Hs Hm HF].
  pose proof (umapped_range _ _ _ Hm). pose proof mapva_small. pose proof (sa_len _ _ _ Hstr) as Hl. fold len in Hl.
  cbn [push_args]. simpl in Hlen. rewrite (proj2 (Z.leb_gt MAXARG argc)) by lia.
  apply wp_bind, wp_gets. fold m. unfold strlen.
  rewrite (strlen_at m a bs (Z.to_nat PGSIZE) 0 Hstr) by (unfold PGSIZE in *; lia). fold len. cbn [map layout]. fold len.
  destruct (push_down_spec sp (len + 1)) as (Hd1 & Hd2 & Hd3); [unfold PGSIZE in *; lia|lia|]. set (sp' := push_down sp (len + 1)) in *.
  destruct (Z.ltb_spec sp' sb) as [Hlt|Hge]; [apply wp_ret; split; done|].
  apply wp_bind, wp_zoom. eapply wp_conseq; [apply (copyout_stack (x_k x) sp' a (len + 1)); try done; try lia|].
  { intros j Hj. apply Hoff. lia. }
  intros r s' (-> & m1 & -> & Hc1 & Hc2). simpl. apply wp_bind, wp_zoom, wp_modify. simpl.
  set (m2 := st 8 m1 (ustack_addr + 8 * argc) sp').
  assert (Hk1 : kept m m1 sp argc) by (intros b Hb _; apply Hc2; lia).
  assert (Hk2 : kept m m2 sp argc) by (eapply kept_trans; [exact Hk1|apply kept_store; lia|done|done]).
  assert (Hout := kept_outside m m2 sp argc Hk2 ltac:(lia) Ha).
  match goal with |- wp _ _ ?t => set (x1 := t) end.
  eapply wp_conseq; [apply (IH strs' (argc + 1) sp' x1)|].
  - by eapply stack_ok_frame.
  - eapply Forall2_impl; [exact Hargs|]. intros a' bs' Ha'. by eapply arg_ok_kept.
  - lia.
  - lia.
  - lia.
  - change (k_mem (x_k x1)) with m2. intros r x' [Hk3 Hr].
    assert (Hk : kept m (k_mem (x_k x')) sp argc) by (eapply kept_trans; [exact Hk2|exact Hk3|lia|lia]).
    split; [done|]. destruct (layout sb _ sp') as [sps|]; [|done]. destruct Hr as (-> & Hon & Hlast & Hlow & Hcells).
    cbn [fmap option_fmap option_map]. rewrite last_cons. split; [done|]. split; [|split; [lia|split; [constructor; [lia|done]|]]].
    + constructor; [|done]. apply (on_stack_kept m2 _ sp' (argc + 1)); [done|lia|lia|].
      split; [done|]. split; [done|]. split; [fold len; lia|]. fold len. intros j Hj. unfold m2.
      pose proof (frame_off_ustack (F + (sp' - sb) + j)) as Hne. unfold in_frame, in_ustack in Hne.
      rewrite rd_st_out by (change (Z.of_nat 8) with 8; lia). rewrite Hc1 by lia. by apply Hstr.
    + intros [|i] spi Hi; simpl in Hi; [|rewrite <- (Hcells i spi Hi); f_equal; lia].
      injection Hi as <-. rewrite Z.add_0_r, (ld_frame 8 m2).
      * apply ld64_st64. lia.
      * intros b Hb. change (Z.of_nat 8) with 8 in Hb. apply Hk3; [|lia].
        pose proof (frame_off_ustack b) as Hne. unfold in_frame, in_ustack in Hne. lia.
Qed.

(** A string and a word of user memory at a user address. *)
Definition user_string (m : mem) (va : Z) (bs : list Z) : Prop :=
  forall j, 0 <= j <= Z.of_nat (length bs) -> rd m (tr m tbl (va + j)) = byte_at bs j.
Definition user_word (m : mem) (va v : Z) : Prop := ld 8 m (tr m tbl va) = v.

Lemma on_stack_user m sp bs : stack_ok m -> on_stack m sp bs -> user_string m sp bs.
Proof.
  intros Hok (_ & H1 & H2 & H3) j Hj. destruct (stack_tr m (sp - sb + j) Hok ltac:(lia)) as [_ E].
  replace (sb + (sp - sb + j)) with (sp + j) in E by lia. rewrite E, <- H3 by done. f_equal. lia.
Qed.

Lemma on_stack_all m m' sp argc sps strs :
  kept m m' sp argc -> 0 <= argc -> Forall (Z.le sp) sps -> Forall2 (on_stack m) sps strs -> Forall2 (on_stack m') sps strs.
Proof.
  intros Hk Ha Hl. induction 1 as [|a bs sps strs H _ IH]; [constructor|]. apply Forall_cons in Hl as [Hl1 Hl2].
  constructor; [by eapply on_stack_kept|by apply IH].
Qed.

(** The array of addresses, once the strings are in place. *)
Lemma push_array_spec x sps strs sp :
  stack_ok (k_mem (x_k x)) -> Forall2 (on_stack (k_mem (x_k x))) sps strs -> Forall (Z.le sp) sps -> sb <= sp <= sb + PGSIZE ->
  (forall i spi, sps !! i = Some spi -> ld 8 (k_mem (x_k x)) (ustack_addr + 8 * Z.of_nat i) = spi) ->
  Z.of_nat (length sps) <= MAXARG ->
  let argc := Z.of_nat (length sps) in
  let sp' := push_down sp ((argc + 1) * 8) in
  wp (zoom xkL (modify (fun k => set_mem (st 8 (k_mem k) (ustack_addr + 8 * argc) 0) k));;
      if sp' <? sb then mret None else
      r ← zoom xkL (copyout root sp' ustack_addr ((argc + 1) * 8));
      if r <? 0 then mret None else mret (Some sp'))
    (fun r x' => let m' := k_mem (x_k x') in
      stack_ok m' /\ (forall b, ~ in_frame b -> ~ in_ustack b -> rd m' b = rd (k_mem (x_k x)) b) /\
      if sp' <? sb then r = None else
      r = Some sp' /\ sp' mod 16 = 0 /\ Forall2 (on_stack m') sps strs /\
      forall i v, (sps ++ [0]) !! i = Some v -> user_word m' (sp' + 8 * Z.of_nat i) v) x.
Proof.
  intros Hok Hon Hlow Hsp Hcells Hlen argc sp'. pose proof Hok as [_ Hm _]. pose proof mapva_small. pose proof (umapped_range _ _ _ Hm).
  destruct Hsb as [_ Hsb2]. unfold PGSIZE, MAXARG in *.
  destruct (push_down_spec sp ((argc + 1) * 8)) as (Hd1 & Hd2 & Hd3); [lia|lia|]. fold sp' in Hd1, Hd2, Hd3.
  apply wp_bind, wp_zoom, wp_modify. simpl. set (m := k_mem (x_k x)) in *.
  set (m1 := st 8 m (ustack_addr + 8 * argc) 0). match goal with |- wp _ _ ?t => set (x1 := t) end.
  assert (Hk1 : kept m m1 sp argc) by (apply kept_store; unfold MAXARG; lia).
  assert (Hout1 := kept_outside m m1 sp argc Hk1 ltac:(unfold PGSIZE; lia) ltac:(lia)).
  assert (Hok1 : stack_ok m1) by (by eapply stack_ok_frame).
  destruct (Z.ltb_spec sp' sb) as [Hlt|Hge]; [by apply wp_ret|].
  assert (Hcell1 : forall i v, (sps ++ [0]) !! i = Some v -> ld 8 m1 (ustack_addr + 8 * Z.of_nat i) = v).
  { intros i v Hi. apply lookup_app_Some in Hi as [Hi|[Hi1 Hi2]].
    - unfold m1. pose proof (lookup_lt_Some _ _ _ Hi). rewrite ld_st_disj by (change (Z.of_nat 8) with 8; lia). by apply Hcells.
    - apply list_lookup_singleton_Some in Hi2 as [Hi2 <-]. unfold m1. replace (Z.of_nat i) with argc by lia. by apply ld64_st64. }
  destruct Hustack as ([Hu1 Hu2] & _ & Hu3). unfold MAXARG in *.
  apply wp_bind, wp_zoom. eapply wp_conseq; [apply (copyout_stack (x_k x1) sp' ustack_addr ((argc + 1) * 8)); try done; try (unfold PGSIZE; lia)|].
  { split; lia. }
  { intros j Hj Hf. apply frame_off_ustack in Hf. unfold in_ustack, MAXARG in Hf. lia. }
  change (k_mem (x_k x1)) with m1. intros r s' (-> & m2 & -> & Hc1 & Hc2). simpl. apply wp_ret. simpl.
  assert (Hk2 : kept m1 m2 sp argc) by (intros b Hb _; apply Hc2; lia).
  assert (Hk : kept m m2 sp argc) by (eapply kept_trans; [exact Hk1|exact Hk2|lia|lia]).
  assert (Hout := kept_outside m m2 sp argc Hk ltac:(unfold PGSIZE; lia) ltac:(lia)).
  assert (Hok2 : stack_ok m2) by (by apply (stack_ok_frame m)).
  split; [done|]. split; [done|]. split; [done|]. split; [done|]. split.
  - eapply on_stack_all; [exact Hk|lia|done|done].
  - intros i v Hi. pose proof (lookup_lt_Some _ _ _ Hi) as Hil. rewrite length_app in Hil. simpl in Hil.
    unfold user_word. destruct (stack_tr m2 (sp' - sb + 8 * Z.of_nat i) Hok2 ltac:(unfold PGSIZE; lia)) as [_ E].
    replace (sb + (sp' - sb + 8 * Z.of_nat i)) with (sp' + 8 * Z.of_nat i) in E by lia. rewrite E, <- (Hcell1 i v Hi).
    apply ld_ext. intros j Hj. change (Z.of_nat 8) with 8 in Hj.
    replace (F + (sp' - sb + 8 * Z.of_nat i) + j) with (F + (sp' - sb) + (8 * Z.of_nat i + j)) by lia.
    rewrite Hc1 by lia. f_equal. lia.
Qed.

(** C24: the arguments of a new program.  [push_argv], the part of [exec] that
    fills the user stack, puts the strings of [argv] and then the array of their
    addresses, closed by a null pointer, into the stack page below its end: the
    stack pointer it returns and the address of every string are aligned to 16
    bytes and inside the page, every string ends in its NUL, and the words of
    the array are the addresses of the strings.  It fails exactly when the
    layout does not fit into the page, and changes nothing but the stack page
    and the array [ustack] of the kernel. *)
Theorem push_argv_stack x argv strs :
  stack_ok (k_mem (x_k x)) -> Forall2 (arg_ok (k_mem (x_k x))) argv strs -> Z.of_nat (length argv) <= MAXARG ->
  wp (push_argv root sb argv (sb + PGSIZE)) (fun r x' =>
    let m' := k_mem (x_k x') in
    (forall b, ~ in_frame b -> ~ in_ustack b -> rd m' b = rd (k_mem (x_k x)) b) /\
    match stack_layout sb (map (fun bs => Z.of_nat (length bs)) strs) (sb + PGSIZE) with
    | None => r = None
    | Some (sps, sp) =>
        r = Some sp /\ sp mod 16 = 0 /\ sb <= sp /\
        Forall2 (fun a bs => a mod 16 = 0 /\ sb <= a /\ a + Z.of_nat (length bs) < sb + PGSIZE /\ user_string m' a bs) sps strs /\
        forall i v, (sps ++ [0]) !! i = Some v -> user_word m' (sp + 8 * Z.of_nat i) v
    end) x.
Proof.
  intros Hok Hargs Hlen. unfold push_argv, stack_layout. apply wp_bind.
  eapply wp_conseq; [apply (push_args_spec argv strs 0 (sb + PGSIZE) x); try done; unfold PGSIZE; lia|].
  intros r x1 [Hk Hr]. assert (Hout := kept_outside _ _ _ _ Hk ltac:(lia) ltac:(lia)).
  rewrite length_map. destruct (layout sb _ _) as [sps|]; [|subst r; by apply wp_ret].
  destruct Hr as (-> & Hon & Hlast & Hlow & Hcells).
  assert (Hl1 : length sps = length strs) by (by eapply Forall2_length). pose proof (Forall2_length _ _ _ Hargs) as Hl2.
  rewrite Hl2. rewrite <- Hl1.
  eapply wp_conseq; [apply (push_array_spec x1 sps strs (List.last sps (sb + PGSIZE))); [by apply (stack_ok_frame (k_mem (x_k x)))|done|done|done|exact Hcells|lia]|].
  intros r x' (Hok' & Hout' & Hr). split; [intros b H1 H2; rewrite Hout', Hout; done|].
  destruct (Z.ltb_spec (push_down (List.last sps (sb + PGSIZE)) ((Z.of_nat (length sps) + 1) * 8)) sb); [done|].
  destruct Hr as (-> & Hal & Hon' & Hw). split; [done|]. split; [done|]. split; [done|]. split; [|done].
  eapply Forall2_impl; [exact Hon'|]. intros a bs Ha. pose proof Ha as (? & ? & ? & _).
  repeat split; try done. by apply on_stack_user.
Qed.

End exec.

(** ** Witness: one argument, [hi] *)

#[local] Instance demo_locals : Locals := {| elf_addr := 0x80011000; ph_addr := 0x80012000; ustack_addr := 0x80013000 |}.

Lemma push_argv_stack_witness :
  exists (x : xst) (tbl : gmap (nat * Z) Z),
  wp (push_argv (im := demo_image) demo_root 0x1000 [0x80010000] 0x2000) (fun r x' =>
    r = Some 0x1fe0 /\ user_string tbl (k_mem (x_k x')) 0x1ff0 [104; 105] /\
    user_word tbl (k_mem (x_k x')) 0x1fe0 0x1ff0) x.
Proof.
  destruct demo_mapped as (s1 & l1 & tbl1 & He & Hl). destruct (demo_uspace s1 l1 tbl1 He Hl) as [Hus Hu].
  set (m := st 4 (k_mem s1) 0x80010000 0x6968).
  assert (Htb : forall x t, tbl1 !! x = Some t -> 0x80030000 <= t).
  { intros y t Ht. destruct (pw_page _ _ _ (us_wf _ _ _ Hus) y t Ht) as [_ Hp].
    change (@end_sym demo_image) with 0x80030000 in Hp. lia. }
  assert (Hpt : pt_same (fun _ _ => False) (k_mem s1) m tbl1).
  { apply (pt_same_frame (im := demo_image)); [apply Hus|]. intros y t b Ht Hb. apply rd_st_out. pose proof (Htb y t Ht). simpl. lia. }
  destruct (uspace_frame (im := demo_image) (k_mem s1) m demo_root tbl1 Hus Hpt) as [Hus' Hl'].
  exists (mkX (set_mem m s1) (demo_fs (mkDisk ∅ []))), tbl1.
  eapply wp_conseq.
  - apply (push_argv_stack (im := demo_image) (ImageOk0 := demo_image_ok) demo_root 0x1000 0x80040000 tbl1) with (strs := [[104; 105]]).
    + split; [reflexivity|done].
    + split; [split; vm_compute; discriminate|]. split; [|left; vm_compute; discriminate].
      intros y t Ht. left. pose proof (Htb y t Ht). change (ustack_addr + 8 * (MAXARG + 1)) with 0x80013108. lia.
    + assert (El : leaf m tbl1 0x1000 = mkpte 0x80040000 PTE_WRXU) by (rewrite Hl', Hl by lia; reflexivity).
      split; [exact Hus'| |]; cbn [x_k k_mem set_mem]; [unfold umapped|]; rewrite El; reflexivity.
    + constructor; [|constructor]. cbn [x_k k_mem set_mem]. split; [|split].
      * split; [|repeat constructor; discriminate|vm_compute; reflexivity]. simpl. intros j Hj. unfold m.
        assert (j = 0 \/ j = 1 \/ j = 2) as [->|[->| ->]] by lia; rewrite rd_st; reflexivity.
      * split; vm_compute; discriminate.
      * simpl. intros j Hj. unfold in_frame, in_ustack, PGSIZE. simpl. lia.
    + vm_compute. discriminate.
  - intros r x' [_ H]. change (stack_layout _ _ _) with (Some ([0x1ff0], 0x1fe0)) in H. cbv iota in H.
    destruct H as (-> & _ & _ & H1 & H2). split; [reflexivity|]. split.
    + inversion H1 as [|? ? ? ? H3]; subst. apply H3.
    + exact (H2 0%nat 0x1ff0 eq_refl).
Defined.
