(* ===== verification/Sh.v ===== *)
(** * The shell's parser ([user/sh.c])

    The buffer is the bytes of the command line; the parser's state is the
    position [*ps], and [es] is the end of the line, where the code finds the
    NUL.  A parsed command holds the bounds of its strings in the buffer, as
    the code's structs do. *)
From stdpp Require Import base strings numbers option list.
From S2P Require Import Prelude Sysfile.
Open Scope Z_scope.

Definition MAXARGS : Z := 10.
Definition whitespace : list Z := [32; 9; 13; 10; 11].
Definition symbols : list Z := [60; 124; 62; 38; 59; 40; 41].

(** [strchr(set, c) != 0] *)
Definition in_set (set : list Z) (c : Z) : bool := existsb (Z.eqb c) set.

Definition word_char (c : Z) : bool := negb (in_set whitespace c) && negb (in_set symbols c).

#[global] Arguments in_set : simpl never.

(** [struct cmd] and the structs it stands for, with strings of type [A]: the
    code has a pointer to the first byte and one past the last. *)
Inductive cmd (A : Type) : Type :=
| Exec (argv : list A)
| Redir (c : cmd A) (file : A) (mode fd : Z)
| Pipe (left right : cmd A)
| List (left right : cmd A)
| Back (c : cmd A).
Arguments Exec {A}. Arguments Redir {A}. Arguments Pipe {A}. Arguments List {A}. Arguments Back {A}.

Definition strs : Type := nat * nat.

Definition execcmd : cmd strs := Exec [].
Definition redircmd (subcmd : cmd strs) (file : strs) (mode fd : Z) : cmd strs := Redir subcmd file mode fd.
Definition pipecmd (left right : cmd strs) : cmd strs := Pipe left right.
Definition listcmd (left right : cmd strs) : cmd strs := List left right.
Definition backcmd (subcmd : cmd strs) : cmd strs := Back subcmd.

(** [cmd->argv[argc] = q; cmd->eargv[argc] = eq]: the [execcmd] is at the
    bottom of the redirections around it. *)
Fixpoint add_arg {A} (ret : cmd A) (a : A) : cmd A :=
  match ret with
  | Exec argv => Exec (argv ++ [a])
  | Redir c f m fd => Redir (add_arg c a) f m fd
  | c => c
  end.

Section parser.
Context (b : list Z).

Definition es : nat := length b.

(** [*s]: the NUL after the line. *)
Definition byte (s : nat) : Z := nth s b 0.

(** [while(s < es && p(STAR s)) s++], where [n] is [es - s] *)
Fixpoint scan (p : Z -> bool) (n s : nat) : nat :=
  match n with
  | O => s
  | S n' => if p (byte s) then scan p n' (S s) else s
  end.

Definition skip_white (s : nat) : nat := scan (in_set whitespace) (es - s) s.

(** The token, and where it starts and ends. *)
Definition gettoken : M nat (Z * strs) :=
  ps ← getS;
  let s := skip_white ps in
  let q := s in
  let c := byte s in
  let '(ret, s) :=
    if c =? 0 then (c, s)
    else if in_set [124; 40; 41; 59; 38; 60] c then (c, S s)
    else if c =? 62 then (if byte (S s) =? 62 then (43, S (S s)) else (c, S s))
    else (97, scan word_char (es - s) s) in
  puts (skip_white s);;
  mret (ret, (q, s)).

Definition peek (toks : list Z) : M nat bool :=
  ps ← getS;
  let s := skip_white ps in
  puts s;;
  mret (negb (byte s =? 0) && in_set toks (byte s)).

(** A loop of the parser: every turn consumes a byte of the line. *)
Definition while_input {A R} (body : A -> M nat (A + R)) (a : A) : M nat R :=
  s ← getS; loop (S (es - s)) body a.

(** One turn of the loop of [parseredirs]. *)
Definition redir_step (c : cmd strs) : M nat (cmd strs + cmd strs) :=
  more ← peek [60; 62];
  if negb more then mret (inr c) else
  t ← gettoken;
  f ← gettoken;
  if negb (f.1 =? 97) then panic "missing file for redirection" else
  mret (inl (if t.1 =? 60 then redircmd c f.2 O_RDONLY 0
             else if t.1 =? 62 then redircmd c f.2 (Z.lor (Z.lor O_WRONLY O_CREATE) O_TRUNC) 1
             else if t.1 =? 43 then redircmd c f.2 (Z.lor O_WRONLY O_CREATE) 1
             else c)).

Definition parseredirs : cmd strs -> M nat (cmd strs) := while_input redir_step.

Definition parseblock (parseline : M nat (cmd strs)) : M nat (cmd strs) :=
  open ← peek [40];
  if negb open then panic "parseblock" else
  gettoken;;
  cmd ← parseline;
  close ← peek [41];
  if negb close then panic "syntax - missing )" else
  gettoken;;
  parseredirs cmd.

(** One turn of the loop of [parseexec] over the arguments. *)
Definition arg_step (st : Z * cmd strs) : M nat (Z * cmd strs + cmd strs) :=
  let '(argc, ret) := st in
  stop ← peek [124; 41; 38; 59];
  if stop : bool then mret (inr ret) else
  t ← gettoken;
  if t.1 =? 0 then mret (inr ret) else
  if negb (t.1 =? 97) then panic "syntax" else
  let ret := add_arg ret t.2 in
  let argc := argc + 1 in
  if MAXARGS <=? argc then panic "too many args" else
  ret ← parseredirs ret;
  mret (inl (argc, ret)).

Definition parseexec (parseline : M nat (cmd strs)) : M nat (cmd strs) :=
  open ← peek [40];
  if open : bool then parseblock parseline else
  ret ← parseredirs execcmd;
  while_input arg_step (0, ret).

Fixpoint parsepipe (parseline : M nat (cmd strs)) (fuel : nat) : M nat (cmd strs) :=
  match fuel with
  | O => fail EFuel
  | S fuel' =>
      cmd ← parseexec parseline;
      bar ← peek [124];
      if bar : bool then
        gettoken;;
        right ← parsepipe parseline fuel';
        mret (pipecmd cmd right)
      else mret cmd
  end.

(** One turn of the loop of [parseline] over the ampersands. *)
Definition back_step (c : cmd strs) : M nat (cmd strs + cmd strs) :=
  amp ← peek [38];
  if amp : bool then gettoken;; mret (inl (backcmd c)) else mret (inr c).

Definition parseback : cmd strs -> M nat (cmd strs) := while_input back_step.

Fixpoint parseline (fuel : nat) : M nat (cmd strs) :=
  match fuel with
  | O => fail EFuel
  | S fuel' =>
      cmd ← parsepipe (parseline fuel') fuel;
      cmd ← parseback cmd;
      semi ← peek [59];
      if semi : bool then
        gettoken;;
        right ← parseline fuel';
        mret (listcmd cmd right)
      else mret cmd
  end.

(** The stores of [nulterminate], in its order. *)
Fixpoint nulterminate (c : cmd strs) (buf : list Z) : list Z :=
  match c with
  | Exec argv => fold_left (fun buf a => <[a.2 := 0]> buf) argv buf
  | Redir c file _ _ => <[file.2 := 0]> (nulterminate c buf)
  | Pipe l r => nulterminate r (nulterminate l buf)
  | List l r => nulterminate r (nulterminate l buf)
  | Back c => nulterminate c buf
  end.

(** The command and the buffer after it.  What is left of a line that is not
    a command is reported before the message [syntax]. *)
Definition parsecmd : M nat (cmd strs * list Z) :=
  cmd ← parseline (S es);
  peek [];;
  s ← getS;
  if negb (s =? es)%nat then panic "leftovers" else
  mret (cmd, nulterminate cmd (b ++ [0])).

End parser.

(** ** What the parser does to its input *)

(** Every outcome but one panic of the code's own satisfies [Q]: in
    particular no loop runs out of fuel. *)
Definition pok {A} (m : M nat A) (Q : A -> nat -> Prop) (s : nat) : Prop :=
  match m s with
  | Ret a s' => Q a s'
  | Err (EPanic _) _ => True
  | Err _ _ => False
  end.

Lemma pok_bind {A B} (m : M nat A) (f : A -> M nat B) Q s :
  pok m (fun a s' => pok (f a) Q s') s -> pok (m ≫= f) Q s.
Proof. unfold pok. simpl. unfold mbind, M_bind. by destruct (m s) as [|[]]. Qed.

Lemma pok_conseq {A} (m : M nat A) (P Q : A -> nat -> Prop) s :
  pok m P s -> (forall a s', P a s' -> Q a s') -> pok m Q s.
Proof. unfold pok. destruct (m s) as [|[]]; auto. Qed.

Lemma pok_ret {A} (a : A) (Q : A -> nat -> Prop) s : Q a s -> pok (mret a) Q s.
Proof. done. Qed.

Lemma pok_panic {A} msg (Q : A -> nat -> Prop) s : pok (panic msg) Q s.
Proof. done. Qed.

Lemma pok_loop {A R} (body : A -> M nat (A + R)) (I : A -> nat -> Prop) (Q : R -> nat -> Prop) (e : nat) :
  (forall a s, I a s ->
     pok (body a) (fun r s' =>
       match r with inl a' => I a' s' /\ (e - s' < e - s)%nat | inr y => Q y s' end) s) ->
  forall fuel a s, (e - s < fuel)%nat -> I a s -> pok (loop fuel body a) Q s.
Proof.
  intros Hb fuel. induction fuel as [|fuel IH]; intros a s Hf HI; [lia|].
  simpl. apply pok_bind. eapply pok_conseq; [by apply Hb|].
  intros [a'|y] s'; [intros [HI' Hm]; apply IH; [lia|done]|apply pok_ret].
Qed.

Lemma byte_out {b} s : (es b <= s)%nat -> byte b s = 0.
Proof. unfold byte, es. intros H. by apply nth_overflow. Qed.

Lemma byte_in {b} s : byte b s <> 0 -> (s < es b)%nat.
Proof. intros H. destruct (decide (s < es b)%nat); [done|]. by rewrite byte_out in H by lia. Qed.

Section strings.
Context (b : list Z).
Abbreviation es := (es b).
Abbreviation byte := (byte b).

Lemma scan_spec p n s :
  (n = es - s)%nat -> (s <= es)%nat ->
  (s <= scan b p n s <= es)%nat /\
  (forall i, (s <= i < scan b p n s)%nat -> p (byte i) = true) /\
  ((scan b p n s < es)%nat -> p (byte (scan b p n s)) = false).
Proof.
  revert s. induction n as [|n IH]; intros s Hn Hs; simpl.
  - repeat split; intros; lia.
  - destruct (p (byte s)) eqn:Hp; [|repeat split; [lia|lia|intros; lia|done]].
    destruct (IH (S s)) as (H1 & H2 & H3); [lia|lia|].
    repeat split; [lia|lia| |done]. intros i Hi. destruct (decide (i = s)) as [->|]; [done|].
    apply H2. lia.
Qed.

(** A string of a command: its characters are the characters of a word, and
    what follows it is not. *)
Definition token (t : strs) : Prop :=
  (t.1 < t.2 <= es)%nat /\ (forall i, (t.1 <= i < t.2)%nat -> word_char (byte i) = true) /\
  (t.2 < es -> word_char (byte t.2) = false)%nat.

Fixpoint cmd_wf (c : cmd strs) : Prop :=
  match c with
  | Exec argv => Z.of_nat (length argv) < MAXARGS /\ Forall token argv
  | Redir c file mode fd => cmd_wf c /\ token file
  | Pipe l r | List l r => cmd_wf l /\ cmd_wf r
  | Back c => cmd_wf c
  end.

Definition at_rest (s : nat) : Prop := (s <= es)%nat.

Lemma skip_white_spec s :
  at_rest s -> (s <= skip_white b s <= es)%nat /\
  ((skip_white b s < es)%nat -> in_set whitespace (byte (skip_white b s)) = false).
Proof. intros H. destruct (scan_spec (in_set whitespace) (es - s) s) as (? & _ & ?); done. Qed.

Lemma skip_white_here s :
  at_rest s -> skip_white b s = s \/ in_set whitespace (byte s) = true.
Proof.
  intros H. destruct (scan_spec (in_set whitespace) (es - s) s) as (? & Hw & ?); [done..|].
  destruct (decide (skip_white b s = s)); [by left|right]. apply Hw. unfold skip_white in *. lia.
Qed.

Lemma peek_spec toks s (Q : bool -> nat -> Prop) :
  at_rest s ->
  (forall s', (s <= s' <= es)%nat -> Q false s') ->
  (forall s', (s <= s' < es)%nat -> byte s' <> 0 -> in_set whitespace (byte s') = false -> Q true s') ->
  pok (peek b toks) Q s.
Proof.
  intros Hs Hf Ht. destruct (skip_white_spec s Hs) as [H1 H2].
  unfold peek, pok, mbind, M_bind, puts, getS, mret, M_ret; simpl.
  destruct (byte (skip_white b s) =? 0) eqn:H0; simpl; [by apply Hf|].
  destruct (in_set toks _) eqn:Hk; [|by apply Hf].
  apply Z.eqb_neq in H0. pose proof (byte_in _ H0). apply Ht; auto. lia.
Qed.

(** [gettoken] moves on unless it is at the end, and a word it finds is a
    token. *)
Lemma gettoken_spec s (Q : Z * strs -> nat -> Prop) :
  at_rest s ->
  (forall t s', (s <= s' <= es)%nat -> t.1 = 0 -> byte s = 0 \/ in_set whitespace (byte s) = true -> Q t s') ->
  (forall t s', (s < s' <= es)%nat -> t.1 <> 0 -> (t.1 = 97 -> token t.2) -> Q t s') ->
  pok (gettoken b) Q s.
Proof.
  intros Hs Hz Hn. destruct (skip_white_spec s Hs) as [H1 H2].
  unfold gettoken, pok, mbind, M_bind, puts, getS, mret, M_ret; simpl.
  set (q := skip_white b s) in *.
  destruct (byte q =? 0) eqn:H0; simpl.
  { apply Z.eqb_eq in H0. destruct (skip_white_spec q); [unfold at_rest; lia|]. apply Hz; [lia|done|].
    destruct (skip_white_here s Hs) as [E|E]; [left|by right]. by unfold q in H0; rewrite E in H0. }
  apply Z.eqb_neq in H0. pose proof (byte_in _ H0) as Hq. specialize (H2 Hq).
  assert (Hend : forall r e, (q < e <= es)%nat -> r <> 0 -> (r = 97 -> token (q, e)) ->
    Q (r, (q, e)) (skip_white b e)).
  { intros r e He Hr Ht. destruct (skip_white_spec e); [unfold at_rest; lia|]. apply Hn; simpl; [lia|done..]. }
  destruct (in_set [124; 40; 41; 59; 38; 60] (byte q)) eqn:Hsym; simpl.
  { apply Hend; [lia|done|]. intros E. by rewrite E in Hsym. }
  destruct (byte q =? 62) eqn:Hgt; simpl.
  { apply Z.eqb_eq in Hgt. destruct (byte (S q) =? 62) eqn:Hgg; simpl.
    - apply Z.eqb_eq in Hgg. assert (S q < es)%nat by (apply byte_in; lia). apply Hend; lia.
    - apply Hend; lia. }
  destruct (scan_spec word_char (es - q) q) as (Hb & Hin & Hout); [done|lia|].
  assert (Hw : word_char (byte q) = true).
  { unfold word_char. rewrite H2. simpl. unfold symbols, in_set in *. simpl in *. rewrite Hgt. simpl.
    repeat match goal with H : _ || _ = false |- _ => apply orb_false_elim in H as [? ?] end.
    repeat match goal with H : _ = false |- _ => rewrite H; clear H end. done. }
  destruct (decide (scan b word_char (es - q) q = q)) as [E|E].
  { rewrite E in Hout. by rewrite Hout in Hw. }
  apply Hend; [lia|done|]. intros _. split; [simpl; lia|]. done.
Qed.

(** The arguments of the [execcmd] under the redirections. *)
Fixpoint exec_args {A} (c : cmd A) : option (list A) :=
  match c with
  | Exec argv => Some argv
  | Redir c _ _ _ => exec_args c
  | _ => None
  end.

Lemma exec_args_add {A} (c : cmd A) argv a :
  exec_args c = Some argv -> exec_args (add_arg c a) = Some (argv ++ [a]).
Proof. induction c; simpl; intros; simplify_eq; auto. Qed.

Lemma cmd_wf_add c argv a :
  exec_args c = Some argv -> Z.of_nat (length argv) + 1 < MAXARGS -> token a -> cmd_wf c ->
  cmd_wf (add_arg c a).
Proof.
  induction c as [l|c IH f m fd| | |]; simpl; intros He Hl Ht Hc; simplify_eq.
  - destruct Hc as [_ Hc]. rewrite length_app, Forall_app. simpl. split; [lia|].
    split; [done|by constructor].
  - destruct Hc as [Hc Hf]. split; [by apply IH|done].
Qed.

Lemma while_input_spec {A R} (body : A -> M nat (A + R)) (I : A -> nat -> Prop) (Q : R -> nat -> Prop) a s :
  (forall a s, I a s ->
     pok (body a) (fun r s' =>
       match r with inl a' => I a' s' /\ (es - s' < es - s)%nat | inr y => Q y s' end) s) ->
  I a s -> pok (while_input b body a) Q s.
Proof. intros Hb HI. apply pok_bind. apply (pok_loop body I Q es Hb); [lia|done]. Qed.

Definition redirs_of (c c' : cmd strs) : Prop :=
  exec_args c' = exec_args c /\ (cmd_wf c -> cmd_wf c').

Lemma eat_spec s (Q : Z * strs -> nat -> Prop) :
  (s < es)%nat -> byte s <> 0 -> in_set whitespace (byte s) = false ->
  (forall t s', (s < s' <= es)%nat -> Q t s') -> pok (gettoken b) Q s.
Proof.
  intros Hs H0 Hw HQ. apply gettoken_spec; [unfold at_rest; lia| |by intros; apply HQ].
  intros t s' _ _ [H|H]; congruence.
Qed.

Lemma parseredirs_spec c s :
  at_rest s -> pok (parseredirs b c) (fun c' s' => (s <= s' <= es)%nat /\ redirs_of c c') s.
Proof.
  intros Hs. apply (while_input_spec _ (fun c' s' => (s <= s' <= es)%nat /\ redirs_of c c'));
    [|by split; [unfold at_rest in Hs|]].
  clear Hs. intros c' s' [Hs [He Hw]]. apply pok_bind. apply peek_spec; [unfold at_rest; lia| |].
  { intros s1 H1. simpl. apply pok_ret. split; [lia|done]. }
  intros s1 H1 Hb1 Hb2. simpl. apply pok_bind, eat_spec; [lia|done|done|]. intros t s2 H2.
  apply pok_bind, gettoken_spec; [unfold at_rest; lia| |].
  { intros f s3 _ -> _. apply pok_panic. }
  intros f s3 H3 _ Hf. destruct (f.1 =? 97) eqn:E; [|apply pok_panic]. apply Z.eqb_eq in E.
  apply pok_ret. split; [|lia]. split; [lia|].
  by repeat case_match; split; simpl; auto.
Qed.

(** A parser of a command, from [s] on. *)
Definition parses (m : M nat (cmd strs)) (s : nat) : Prop :=
  pok m (fun c s' => (s <= s' <= es)%nat /\ cmd_wf c) s.

Lemma parseblock_spec pl s :
  at_rest s -> (forall s', (s < s' <= es)%nat -> parses pl s') -> parses (parseblock b pl) s.
Proof.
  intros Hs Hpl. apply pok_bind. apply peek_spec; [done|by intros; apply pok_panic|].
  intros s1 H1 Hb1 Hb2. simpl. apply pok_bind, eat_spec; [lia|done|done|]. intros _ s2 H2.
  apply pok_bind. eapply pok_conseq; [apply Hpl; lia|]. intros c s3 [H3 Hc].
  apply pok_bind. apply peek_spec; [unfold at_rest; lia|by intros; apply pok_panic|].
  intros s4 H4 Hb3 Hb4. simpl. apply pok_bind, eat_spec; [lia|done|done|]. intros _ s5 H5.
  eapply pok_conseq; [apply parseredirs_spec; unfold at_rest; lia|].
  intros c' s6 [H6 [_ Hw]]. split; [lia|auto].
Qed.

Lemma parseexec_spec pl s :
  at_rest s -> (forall s', (s < s' <= es)%nat -> parses pl s') -> parses (parseexec b pl) s.
Proof.
  intros Hs Hpl. apply pok_bind. apply peek_spec; [done| |].
  2:{ intros s1 H1 _ _. simpl. eapply pok_conseq; [apply parseblock_spec; [unfold at_rest; lia|]|].
      - intros s' Hs'. apply Hpl. lia.
      - intros c s' [H2 Hc]. split; [lia|done]. }
  intros s1 H1. simpl. apply pok_bind.
  eapply pok_conseq; [apply parseredirs_spec; unfold at_rest; lia|]. intros c s2 [H2 [He Hw]].
  apply (while_input_spec _ (fun '(argc, c) s' => (s <= s' <= es)%nat /\ cmd_wf c /\
    exists argv, exec_args c = Some argv /\ Z.of_nat (length argv) = argc)).
  2:{ split; [lia|]. split; [by apply Hw|]. exists []. by rewrite He. }
  clear. intros [argc c] s0 (Hs & Hc & argv & He & Hargc).
  apply pok_bind. apply peek_spec; [unfold at_rest; lia| |by intros s1 H1 _ _; split; [lia|]].
  intros s1 H1. simpl. apply pok_bind, gettoken_spec; [unfold at_rest; lia| |].
  { intros t s2 H2 -> _. simpl. split; [lia|done]. }
  intros t s2 H2 Ht0 Ht. rewrite (proj2 (Z.eqb_neq _ _) Ht0).
  destruct (t.1 =? 97) eqn:Ea; [|apply pok_panic]. apply Z.eqb_eq in Ea. simpl.
  destruct (MAXARGS <=? argc + 1) eqn:Em; [apply pok_panic|]. apply Z.leb_gt in Em.
  apply pok_bind. eapply pok_conseq; [apply parseredirs_spec; unfold at_rest; lia|].
  intros c' s3 [H3 [He' Hw']]. apply pok_ret. split; [|lia]. split; [lia|]. split.
  - apply Hw'. eapply cmd_wf_add; eauto. lia.
  - exists (argv ++ [t.2]). rewrite He', length_app. simpl. split; [by apply exec_args_add|lia].
Qed.

Lemma parsepipe_spec pl s0 fuel : forall s,
  (s0 <= s <= es)%nat -> (es - s < fuel)%nat -> (forall s', (s0 < s' <= es)%nat -> parses pl s') ->
  parses (parsepipe b pl fuel) s.
Proof.
  induction fuel as [|fuel IH]; intros s Hs Hf Hpl; [lia|]. simpl.
  apply pok_bind. eapply pok_conseq; [apply parseexec_spec; [unfold at_rest; lia|]|].
  { intros s' Hs'. apply Hpl. lia. }
  intros c s1 [H1 Hc]. apply pok_bind. apply peek_spec; [unfold at_rest; lia| |].
  { intros s2 H2. split; [lia|done]. }
  intros s2 H2 Hb1 Hb2. simpl. apply pok_bind, eat_spec; [lia|done|done|]. intros _ s3 H3.
  apply pok_bind. eapply pok_conseq; [apply IH; [lia|lia|done]|].
  intros c' s4 [H4 Hc']. split; [lia|done].
Qed.

Lemma parseback_spec c s :
  at_rest s -> cmd_wf c -> parses (parseback b c) s.
Proof.
  intros Hs Hc. apply (while_input_spec _ (fun c' s' => (s <= s' <= es)%nat /\ cmd_wf c')); [|done].
  clear Hc c. intros c s1 [H1 Hc]. apply pok_bind. apply peek_spec; [unfold at_rest; lia| |].
  { intros s2 H2. split; [lia|done]. }
  intros s2 H2 Hb1 Hb2. simpl. apply pok_bind, eat_spec; [lia|done|done|]. intros _ s3 H3.
  apply pok_ret. split; [|lia]. split; [lia|done].
Qed.

Lemma parseline_spec fuel : forall s,
  at_rest s -> (es - s < fuel)%nat -> parses (parseline b fuel) s.
Proof.
  induction fuel as [|fuel IH]; intros s Hs Hf; [lia|]. cbn [parseline].
  apply pok_bind. eapply pok_conseq; [apply (parsepipe_spec _ s); [unfold at_rest in Hs; lia|done|]|].
  { intros s' Hs'. apply IH; [unfold at_rest; lia|lia]. }
  intros c s1 [H1 Hc]. apply pok_bind. eapply pok_conseq; [apply parseback_spec; [unfold at_rest; lia|done]|].
  intros c1 s2 [H2 Hc1]. apply pok_bind. apply peek_spec; [unfold at_rest; lia| |].
  { intros s3 H3. split; [lia|done]. }
  intros s3 H3 Hb1 Hb2. simpl. apply pok_bind, eat_spec; [lia|done|done|]. intros _ s4 H4.
  apply pok_bind. eapply pok_conseq; [apply IH; [unfold at_rest|]; lia|].
  intros c' s5 [H5 Hc']. split; [lia|done].
Qed.

End strings.

(** ** [nulterminate] *)

(** The strings of a command, in the order [nulterminate] ends them. *)
Fixpoint strings_of {A} (c : cmd A) : list A :=
  match c with
  | Exec argv => argv
  | Redir c file _ _ => strings_of c ++ [file]
  | Pipe l r | List l r => strings_of l ++ strings_of r
  | Back c => strings_of c
  end.

Fixpoint until_nul (l : list Z) : list Z :=
  match l with
  | [] => []
  | c :: l' => if c =? 0 then [] else c :: until_nul l'
  end.

(** The C string at [q]. *)
Definition cstring (buf : list Z) (q : nat) : list Z := until_nul (drop q buf).

Definition slice (b : list Z) (t : strs) : list Z := take (t.2 - t.1) (drop t.1 b).

Lemma nulterminate_fold c buf :
  nulterminate c buf = fold_left (fun buf a => <[a.2 := 0]> buf) (strings_of c) buf.
Proof.
  revert buf. induction c as [l|c IH f m fd|l IHl r IHr|l IHl r IHr|c IH]; intros buf; simpl; auto.
  - by rewrite fold_left_app, IH.
  - by rewrite fold_left_app, IHl, IHr.
  - by rewrite fold_left_app, IHl, IHr.
Qed.

Lemma fold_nul_keep (l : list strs) buf i :
  Forall (fun t => t.2 <> i) l -> nth i (fold_left (fun buf a => <[a.2 := 0]> buf) l buf) 0 = nth i buf 0.
Proof.
  intros H. revert buf. induction H as [|t l Ht _ IH]; intros buf; simpl; [done|].
  by rewrite IH, nth_insert_ne.
Qed.

Lemma nth_insert_zero i k (buf : list Z) : nth i buf 0 = 0 -> nth i (<[k := 0]> buf) 0 = 0.
Proof.
  intros H. destruct (decide (k = i)) as [->|]; [|by rewrite nth_insert_ne].
  destruct (decide (i < length buf)%nat); [by rewrite nth_insert_eq|].
  rewrite nth_overflow; [done|]. rewrite length_insert. lia.
Qed.

Lemma fold_nul_end (l : list strs) buf i :
  nth i buf 0 = 0 \/ Exists (fun t => t.2 = i) l ->
  nth i (fold_left (fun buf a => <[a.2 := 0]> buf) l buf) 0 = 0.
Proof.
  revert buf. induction l as [|t l IH]; intros buf; simpl; [intros [?|?%Exists_nil]; done|].
  intros H. apply IH. destruct H as [H|H]; [left; by apply nth_insert_zero|].
  apply Exists_cons in H as [<-|H]; [left|by right].
  destruct (decide (t.2 < length buf)%nat); [by rewrite nth_insert_eq|].
  rewrite nth_overflow; [done|]. rewrite length_insert. lia.
Qed.

Lemma cstring_step (buf : list Z) q :
  cstring buf q = if nth q buf 0 =? 0 then [] else nth q buf 0 :: cstring buf (S q).
Proof.
  unfold cstring. rewrite nth_lookup. destruct (buf !! q) as [x|] eqn:E; simpl.
  - by rewrite (drop_S _ _ _ E).
  - apply lookup_ge_None in E. by rewrite drop_ge.
Qed.

(** A string without NULs up to a NUL is read whole. *)
Lemma cstring_spec (buf w : list Z) q :
  Forall (fun c => c <> 0) w ->
  (forall i, (i < length w)%nat -> nth (q + i) buf 0 = nth i w 0) -> nth (q + length w) buf 0 = 0 ->
  cstring buf q = w.
Proof.
  revert q. induction w as [|c w IH]; intros q Hw Hin Hend; rewrite cstring_step.
  - simpl in Hend. rewrite Nat.add_0_r in Hend. by rewrite Hend.
  - apply Forall_cons in Hw as [Hc Hw]. pose proof (Hin O ltac:(simpl; lia)) as H0.
    simpl in H0. rewrite Nat.add_0_r in H0. rewrite H0, (proj2 (Z.eqb_neq _ _) Hc). f_equal.
    apply IH; [done| |].
    + intros i Hi. rewrite Nat.add_succ_comm. apply (Hin (S i)). simpl. lia.
    + by rewrite Nat.add_succ_comm.
Qed.

Lemma nulterminate_cstring b c t :
  Forall (fun x => x <> 0) b -> Forall (token b) (strings_of c) -> t ∈ strings_of c ->
  cstring (nulterminate c (b ++ [0])) t.1 = slice b t.
Proof.
  intros Hb Hall Ht. rewrite nulterminate_fold.
  pose proof (proj1 (Forall_forall _ _) Hall t Ht) as ((H1 & H2) & Hin & _). unfold es in *.
  assert (Hlen : length (slice b t) = (t.2 - t.1)%nat) by (unfold slice; rewrite length_take, length_drop; lia).
  apply cstring_spec.
  - apply Forall_take, Forall_drop, Hb.
  - intros i Hi. rewrite Hlen in Hi. rewrite fold_nul_keep.
    + rewrite app_nth1 by lia. unfold slice. rewrite !nth_lookup, lookup_take_lt, lookup_drop by lia. done.
    + eapply Forall_impl; [done|]. intros u (Hu & _ & Hout) E. specialize (Hin (t.1 + i)%nat ltac:(lia)).
      rewrite E in Hout. unfold es in Hout. rewrite Hout in Hin by lia. done.
  - apply fold_nul_end. right. apply Exists_exists. exists t. split; [done|]. rewrite Hlen. lia.
Qed.

Lemma cmd_wf_strings b c : cmd_wf b c -> Forall (token b) (strings_of c).
Proof.
  induction c; simpl; rewrite ?Forall_app; try tauto.
  intros [? ?]. split; [auto|]. by constructor.
Qed.

Lemma parsecmd_ok b :
  Forall (fun x => x <> 0) b ->
  pok (parsecmd b) (fun r _ =>
    cmd_wf b r.1 /\ forall t, t ∈ strings_of r.1 -> cstring r.2 t.1 = slice b t) 0%nat.
Proof.
  intros Hb. apply pok_bind. eapply pok_conseq; [apply parseline_spec; [unfold at_rest|]; lia|].
  intros c s [Hs Hc]. apply pok_bind.
  assert (Hend : forall s', pok (getS ≫= fun s => if negb (s =? es b)%nat then panic "leftovers" else
    mret (c, nulterminate c (b ++ [0]))) (fun r _ =>
    cmd_wf b r.1 /\ forall t, t ∈ strings_of r.1 -> cstring r.2 t.1 = slice b t) s').
  { intros s'. apply pok_bind. unfold getS, pok. destruct (s' =? es b)%nat; [|done]. split; [done|].
    intros t Ht. apply nulterminate_cstring; [done|by apply cmd_wf_strings|done]. }
  apply (peek_spec b [] s); [unfold at_rest; lia| |]; intros; apply Hend.
Qed.

(** C36: parsing always ends, in a command or in one of the shell's own
    messages, whatever the line holds.  In a command no [argv] overflows, and
    every string, once [nulterminate] has stored the NULs, reads as the word
    of the line it was found at. *)
Theorem parsecmd_strings b :
  Forall (fun x => x <> 0) b ->
  pok (parsecmd b) (fun r _ =>
    cmd_wf b r.1 /\ forall t, t ∈ strings_of r.1 -> cstring r.2 t.1 = slice b t) 0%nat.
Proof. apply parsecmd_ok. Qed.

Lemma parsecmd_strings_witness :
  exists r s, parsecmd [108; 115; 32; 97; 62; 98; 10] 0%nat = Ret r s /\ cmd_wf [108; 115; 32; 97; 62; 98; 10] r.1 /\
    forall t, t ∈ strings_of r.1 -> cstring r.2 t.1 = slice [108; 115; 32; 97; 62; 98; 10] t.
Proof.
  eexists. eexists. split; [vm_compute; reflexivity|].
  apply (parsecmd_strings [108; 115; 32; 97; 62; 98; 10]).
  repeat constructor; lia.
Defined.
