(* ===== verification/ShPrint.v ===== *)
(** * Printing and parsing shell commands ([user/sh.c])

    A printer for command trees, and the proof that the shell's parser reads
    back what it prints: every tree the shell can run has a line that parses
    to it, and the parser's precedences are those of the printer. *)
From stdpp Require Import base strings numbers option list.
From S2P Require Import Prelude Sysfile Sh.
Open Scope Z_scope.

Inductive tok := TSym (c : Z) | TWord (w : list Z) | TApp.

Definition tok_text (t : tok) : list Z :=
  match t with TSym c => [c] | TWord w => w | TApp => [62; 62] end.

(** Each token is printed with a blank after it. *)
Definition text (ts : list tok) : list Z := concat (map (fun t => tok_text t ++ [32]) ts).

Definition word_ok (w : list Z) : Prop := w <> [] /\ Forall (fun c => word_char c = true /\ c <> 0) w.

Definition tok_ok (t : tok) : Prop :=
  match t with TSym c => c ∈ symbols | TWord w => word_ok w | TApp => True end.

Definition paren (b : bool) (ts : list tok) : list tok :=
  if b then TSym 40 :: ts ++ [TSym 41] else ts.

Definition redir_tok (mode : Z) : tok :=
  if mode =? O_RDONLY then TSym 60 else if mode =? Z.lor O_WRONLY O_CREATE then TApp else TSym 62.

(** The tokens of a command where the grammar wants a line (0), a command for
    the background (1), a pipeline (2) or a simple command (3). *)
Fixpoint ptoks (c : cmd (list Z)) (lvl : nat) : list tok :=
  match c with
  | Exec argv => map TWord argv
  | Redir c file mode _ => ptoks c 3 ++ [redir_tok mode; TWord file]
  | Pipe l r => paren (2 <? lvl)%nat (ptoks l 3 ++ TSym 124 :: ptoks r 2)
  | List l r => paren (0 <? lvl)%nat (ptoks l 1 ++ TSym 59 :: ptoks r 0)
  | Back c => paren (1 <? lvl)%nat (ptoks c 1 ++ [TSym 38])
  end.

Definition print (c : cmd (list Z)) : list Z := text (ptoks c 0).

(** The redirections the syntax has. *)
Definition redir_ok (mode fd : Z) : Prop :=
  (mode = O_RDONLY /\ fd = 0) \/ (mode = Z.lor (Z.lor O_WRONLY O_CREATE) O_TRUNC /\ fd = 1) \/
  (mode = Z.lor O_WRONLY O_CREATE /\ fd = 1).

Fixpoint cmd_ok (c : cmd (list Z)) : Prop :=
  match c with
  | Exec argv => Z.of_nat (length argv) < MAXARGS /\ Forall word_ok argv
  | Redir c file mode fd => cmd_ok c /\ word_ok file /\ redir_ok mode fd
  | Pipe l r | List l r => cmd_ok l /\ cmd_ok r
  | Back c => cmd_ok c
  end.

Fixpoint cmd_map {A B} (f : A -> B) (c : cmd A) : cmd B :=
  match c with
  | Exec argv => Exec (map f argv)
  | Redir c file mode fd => Redir (cmd_map f c) (f file) mode fd
  | Pipe l r => Pipe (cmd_map f l) (cmd_map f r)
  | List l r => List (cmd_map f l) (cmd_map f r)
  | Back c => Back (cmd_map f c)
  end.

(** ** Tokens in the line *)

Definition hd_char (ts : list tok) : Z := nth 0 (text ts) 0.

Section tokens.
Context (b : list Z).

Definition at_toks (s : nat) (ts : list tok) : Prop :=
  (s <= es b)%nat /\ drop s b = text ts /\ Forall tok_ok ts.

Lemma at_len s ts : at_toks s ts -> (es b - s = length (text ts))%nat.
Proof. intros (_ & H & _). by rewrite <- H, length_drop. Qed.

Lemma at_skip s s' xs ts : at_toks s (xs ++ ts) -> at_toks s' ts -> (es b - s' <= es b - s)%nat.
Proof.
  intros H H'. rewrite (at_len _ _ H), (at_len _ _ H'). unfold text.
  rewrite map_app, concat_app, length_app. lia.
Qed.

Lemma byte_at s ts i : at_toks s ts -> byte b (s + i) = nth i (text ts) 0.
Proof. intros (_ & H & _). unfold byte. by rewrite <- H, !nth_lookup, lookup_drop. Qed.

Lemma byte_hd s ts : at_toks s ts -> byte b s = hd_char ts.
Proof. intros H. rewrite <- (Nat.add_0_r s) at 1. by apply byte_at. Qed.

Lemma sym_not_white c : in_set symbols c = true -> in_set whitespace c = false /\ c <> 0.
Proof.
  unfold in_set, symbols, whitespace. simpl. intros H.
  repeat (apply orb_prop in H as [H%Z.eqb_eq|H]; [by subst|]). done.
Qed.

Lemma in_set_true set c : in_set set c = true <-> c ∈ set.
Proof.
  unfold in_set. rewrite existsb_exists, list_elem_of_In. split.
  - by intros (x & Hx & ->%Z.eqb_eq).
  - intros H. exists c. split; [done|]. by apply Z.eqb_eq.
Qed.

Lemma hd_char_cons t ts : tok_ok t -> in_set whitespace (hd_char (t :: ts)) = false /\ hd_char (t :: ts) <> 0.
Proof.
  unfold hd_char, text. simpl. destruct t as [c|w|]; simpl; [| |done].
  - intros H. by apply sym_not_white, in_set_true.
  - intros [Hn Hw]. destruct w as [|c w]; [done|]. apply Forall_cons in Hw as [[Hc Hc0] _]. simpl.
    unfold word_char in Hc. apply andb_prop in Hc as [Hc%negb_true_iff _]. done.
Qed.

Lemma skip_white_toks s ts : at_toks s ts -> skip_white b s = s.
Proof.
  intros H. destruct (skip_white_here b s) as [E|E]; [by destruct H|done|].
  rewrite (byte_hd s ts H) in E. destruct ts as [|t ts]; [done|].
  destruct H as (_ & _ & Hok). apply Forall_cons in Hok as [Ht _].
  destruct (hd_char_cons t ts Ht). congruence.
Qed.

Lemma peek_toks toks s ts :
  at_toks s ts -> peek b toks s = Ret (negb (hd_char ts =? 0) && in_set toks (hd_char ts)) s.
Proof.
  intros H. unfold peek, mbind, M_bind, getS, puts, mret, M_ret.
  by rewrite (skip_white_toks s ts H), (byte_hd s ts H).
Qed.

Definition tok_code (t : tok) : Z := match t with TSym c => c | TWord _ => 97 | TApp => 43 end.

Lemma scan_word w rest s n :
  Forall (fun c => word_char c = true /\ c <> 0) w -> (n = es b - s)%nat -> (s <= es b)%nat ->
  drop s b = w ++ 32 :: rest -> scan b word_char n s = (s + length w)%nat.
Proof.
  revert s n. induction w as [|c w IH]; intros s n Hw Hn Hs Hd.
  - simpl. rewrite Nat.add_0_r. destruct n as [|n]; [done|]. simpl.
    assert (byte b s = 32) as ->; [|done]. unfold byte. rewrite nth_lookup.
    rewrite <- (Nat.add_0_r s), <- lookup_drop, Hd. done.
  - apply Forall_cons in Hw as [[Hc _] Hw].
    assert (b !! s = Some c) as Hl by (rewrite <- (Nat.add_0_r s), <- lookup_drop, Hd; done).
    pose proof (lookup_lt_Some _ _ _ Hl) as Hlt. unfold es in *.
    destruct n as [|n]; [lia|]. simpl. unfold byte at 1. rewrite nth_lookup, Hl. simpl. rewrite Hc.
    rewrite (drop_S _ _ _ Hl) in Hd. injection Hd as Hd.
    rewrite (IH (S s) n); [lia|done|lia|lia|done].
Qed.

Lemma at_next s t ts :
  at_toks s (t :: ts) -> let e := (s + length (tok_text t))%nat in
  (s < es b)%nat /\ (e < es b)%nat /\ byte b e = 32 /\ at_toks (S e) ts /\ slice b (s, e) = tok_text t.
Proof.
  intros H. simpl. pose proof (at_len _ _ H) as Hl. destruct H as (Hs & Hd & Hok).
  assert (text (t :: ts) = tok_text t ++ 32 :: text ts) as E by (unfold text; simpl; by rewrite <- app_assoc).
  rewrite E in *. rewrite length_app in Hl. simpl in Hl.
  assert (Hx : forall k, drop (s + k) b = drop k (tok_text t ++ 32 :: text ts)) by (intros; by rewrite <- Hd, drop_drop).
  split; [lia|]. split; [lia|]. split; [|split].
  - unfold byte. rewrite nth_lookup, <- (Nat.add_0_r (s + _)), <- lookup_drop, Hx, drop_app_length. done.
  - split; [lia|]. apply Forall_cons in Hok as [_ Hok]. split; [|done].
    replace (S (s + length (tok_text t))) with (s + (length (tok_text t) + 1))%nat by lia.
    by rewrite Hx, <- drop_drop, drop_app_length.
  - unfold slice. simpl. rewrite Hd. replace (s + length (tok_text t) - s)%nat with (length (tok_text t)) by lia.
    by rewrite take_app_length.
Qed.

Lemma skip_blank e ts : (e < es b)%nat -> byte b e = 32 -> at_toks (S e) ts -> skip_white b e = S e.
Proof.
  intros He Hb Ht. unfold skip_white. destruct (es b - e)%nat as [|n] eqn:En; [lia|]. simpl. rewrite Hb.
  replace (in_set whitespace 32) with true by done.
  replace n with (es b - S e)%nat by lia. by apply (skip_white_toks (S e) ts).
Qed.

Lemma gettoken_end s : at_toks s [] -> gettoken b s = Ret (0, (s, s)) s.
Proof.
  intros H. unfold gettoken, mbind, M_bind, getS, puts, mret, M_ret.
  rewrite (skip_white_toks s [] H), (byte_hd s [] H). cbn. by rewrite (skip_white_toks s [] H).
Qed.

Lemma gettoken_toks s t ts :
  at_toks s (t :: ts) -> exists s',
  gettoken b s = Ret (tok_code t, (s, s + length (tok_text t))%nat) s' /\ at_toks s' ts /\ (es b - s' < es b - s)%nat /\
  slice b (s, s + length (tok_text t))%nat = tok_text t.
Proof.
  intros H. destruct (at_next s t ts H) as (Hlt & He & Hb & Hn & Hsl).
  exists (S (s + length (tok_text t))). split; [|split; [done|split; [lia|done]]].
  pose proof (skip_blank _ _ He Hb Hn) as Hsk.
  unfold gettoken, mbind, M_bind, getS, puts, mret, M_ret. rewrite (skip_white_toks s _ H).
  pose proof (byte_at s _ 0 H) as H0. pose proof (byte_at s _ 1 H) as H1. rewrite Nat.add_0_r in H0.
  rewrite Nat.add_1_r in H1. destruct H as (_ & Hd & Hok). apply Forall_cons in Hok as [Ht _].
  destruct t as [c|w|]; unfold text in H0, H1; cbn in H0, H1, Hsk.
  - rewrite H0. rewrite Nat.add_1_r in Hsk. unfold tok_ok, symbols in Ht.
    apply list_elem_of_In in Ht. cbn [In] in Ht.
    repeat (destruct Ht as [<-|Ht]; [unfold in_set; cbn; rewrite ?H1; cbn; rewrite ?Nat.add_1_r, ?Hsk; done|]). done.
  - destruct Ht as [Hn0 Hw]. pose proof Hw as Hw'. destruct w as [|c w]; [done|]. apply Forall_cons in Hw' as [[Hc Hc0] _].
    cbn in H0. rewrite H0, (proj2 (Z.eqb_neq _ _) Hc0).
    unfold text in Hd. cbn [map concat tok_text] in Hd. rewrite <- app_assoc in Hd.
    rewrite (scan_word (c :: w) _ s (es b - s) Hw eq_refl ltac:(lia) Hd).
    unfold word_char, symbols, in_set in Hc. apply andb_prop in Hc as [_ Hc%negb_true_iff]. cbn in Hc.
    repeat match goal with H : _ || _ = false |- _ => apply orb_false_elim in H as [? ?] end.
    unfold in_set. cbn. repeat match goal with H : (c =? _) = false |- _ => rewrite H; clear H end. cbn.
    cbn in Hsk. by rewrite Hsk.
  - rewrite H0. unfold in_set. cbn. rewrite H1. cbn. replace (S (S s)) with (s + 2)%nat by lia. by rewrite Hsk.
Qed.

(** ** Parsing them *)

(** One concrete set of characters is part of another. *)
Ltac in_syms :=
  let x := fresh in let Hx := fresh in
  intros x Hx; apply list_elem_of_In in Hx; apply list_elem_of_In; unfold symbols; cbn [In] in *; tauto.

(** [m], from [s] on, reads the command [c] and stops before [ts]. *)
Definition reads (m : M nat (cmd strs)) (s : nat) (c : cmd (list Z)) (ts : list tok) : Prop :=
  wp m (fun c' s' => at_toks s' ts /\ cmd_map (slice b) c' = c) s.

Lemma hd_word w ts : word_ok w -> word_char (hd_char (TWord w :: ts)) = true.
Proof.
  intros [Hn Hw]. destruct w as [|c w]; [done|]. apply Forall_cons in Hw as [[Hc _] _]. done.
Qed.

Lemma word_not_in toks c : toks ⊆ symbols -> word_char c = true -> in_set toks c = false.
Proof.
  intros Hsub Hc. apply not_true_is_false. intros Hin%in_set_true%Hsub%in_set_true.
  unfold word_char in Hc. rewrite Hin in Hc. by rewrite andb_false_r in Hc.
Qed.

Lemma peek_word toks s w ts :
  toks ⊆ symbols -> at_toks s (TWord w :: ts) -> peek b toks s = Ret false s.
Proof.
  intros Hsub H. rewrite (peek_toks _ _ _ H). destruct H as (_ & _ & Hok).
  apply Forall_cons in Hok as [Hw _]. by rewrite (word_not_in toks _ Hsub (hd_word w ts Hw)), andb_false_r.
Qed.

(** A redirection: the file, the mode and the descriptor. *)
Definition redir : Type := list Z * Z * Z.
Definition redir_toks (r : redir) : list tok := [redir_tok r.1.2; TWord r.1.1].
Definition rtoks (rs : list redir) : list tok := concat (map redir_toks rs).
Definition wrap (c : cmd (list Z)) (rs : list redir) : cmd (list Z) :=
  fold_left (fun c r => Redir c r.1.1 r.1.2 r.2) rs c.
Definition redirs_ok (rs : list redir) : Prop := Forall (fun r => word_ok r.1.1 /\ redir_ok r.1.2 r.2) rs.

Lemma peek_redir s m fd ts :
  redir_ok m fd -> at_toks s (redir_tok m :: ts) -> peek b [60; 62] s = Ret true s.
Proof.
  intros Hr H. rewrite (peek_toks _ _ _ H).
  by destruct Hr as [[-> _]|[[-> _]|[-> _]]].
Qed.

Lemma parseredirs_toks rs : forall c' c0 s ts,
  redirs_ok rs -> at_toks s (rtoks rs ++ ts) -> in_set [60; 62] (hd_char ts) = false ->
  cmd_map (slice b) c' = c0 -> reads (parseredirs b c') s (wrap c0 rs) ts.
Proof.
  intros c' c0 s ts Hrs Hat Hts Hc. unfold parseredirs, while_input. apply wp_bind. unfold getS, wp at 1.
  assert (Hf : (es b - s < S (es b - s))%nat) by lia. revert Hf.
  generalize (S (es b - s)) as fuel. intros fuel. revert fuel c' c0 s Hrs Hat Hc.
  induction rs as [|[[f m] fd] rs IH]; intros fuel c' c0 s Hrs Hat Hc Hf; (destruct fuel as [|fuel]; [lia|]).
  - cbn [loop]. apply wp_bind, wp_bind. eapply wp_eq; [exact (peek_toks _ _ ts Hat)|].
    rewrite Hts, andb_false_r. done.
  - apply Forall_cons in Hrs as [[Hw Hr] Hrs]. cbn [loop]. cbn in Hw, Hr.
    apply wp_bind, wp_bind. eapply wp_eq; [exact (peek_redir s m fd (TWord f :: rtoks rs ++ ts) Hr Hat)|]. cbn.
    destruct (gettoken_toks s (redir_tok m) (TWord f :: rtoks rs ++ ts) Hat) as (s1 & E1 & Hat1 & L1 & _).
    apply wp_bind. eapply wp_eq; [exact E1|].
    destruct (gettoken_toks _ _ _ Hat1) as (s2 & E2 & Hat2 & L2 & Hsl).
    apply wp_bind. eapply wp_eq; [exact E2|]. cbn.
    apply IH; [done|done| |lia]. cbn in Hsl.
    subst c0. destruct Hr as [[-> ->]|[[-> ->]|[-> ->]]];
      exact (f_equal (fun w => Redir (cmd_map (slice b) c') w _ _) Hsl).
Qed.

(** What may follow a command of each level. *)
Definition follows (set : list Z) (ts : list tok) : Prop := in_set (0 :: set) (hd_char ts) = true.

Lemma follows_cases set ts : follows set ts -> hd_char ts = 0 \/ hd_char ts ∈ set.
Proof. intros [H|H]%in_set_true%list_elem_of_In; [by left|right]. by apply list_elem_of_In. Qed.

Lemma follows_sub set set' ts : set ⊆ set' -> follows set ts -> follows set' ts.
Proof.
  intros Hs [H|H]%follows_cases; apply in_set_true.
  - rewrite H. apply list_elem_of_here.
  - by apply list_elem_of_further, Hs.
Qed.

Lemma map_add_arg c t : cmd_map (slice b) (add_arg c t) = add_arg (cmd_map (slice b) c) (slice b t).
Proof. induction c; simpl; try done; [by rewrite map_app|by f_equal]. Qed.

Lemma follows_no_redir ts : follows [124; 41; 38; 59] ts -> in_set [60; 62] (hd_char ts) = false.
Proof.
  intros [->|H]%follows_cases; [done|]. apply list_elem_of_In in H. cbn [In] in H.
  by repeat (destruct H as [<-|H]; [done|]).
Qed.

Lemma arg_stop ts s c :
  follows [124; 41; 38; 59] ts -> at_toks s ts -> forall argc,
  wp (arg_step b (argc, c)) (fun r s' => r = inr c /\ at_toks s' ts) s.
Proof.
  intros Hf Hat argc. apply wp_bind. eapply wp_eq; [by apply peek_toks|].
  destruct (follows_cases _ _ Hf) as [H0|Hin].
  - rewrite H0. simpl. destruct ts as [|t ts].
    + apply wp_bind. eapply wp_eq; [by apply gettoken_end|]. done.
    + destruct Hat as (_ & _ & Hok). apply Forall_cons in Hok as [Ht _]. by destruct (hd_char_cons t ts Ht).
  - apply in_set_true in Hin. rewrite Hin, andb_true_r. destruct (hd_char ts =? 0) eqn:E; [|done].
    apply Z.eqb_eq in E. by rewrite E in Hin.
Qed.

(** The arguments and then the redirections. *)
Lemma args_toks args : forall fuel argc c pre rs s ts,
  cmd_map (slice b) c = Exec pre -> argc + Z.of_nat (length args) < MAXARGS -> (es b - s < fuel)%nat ->
  Forall word_ok args -> redirs_ok rs -> args <> [] ->
  at_toks s (map TWord args ++ rtoks rs ++ ts) -> follows [124; 41; 38; 59] ts ->
  reads (loop fuel (arg_step b) (argc, c)) s (wrap (Exec (pre ++ args)) rs) ts.
Proof.
  induction args as [|a args IH]; intros fuel argc c pre rs s ts Hc Hlen Hf Hw Hrs Hne Hat Hts; [done|].
  destruct fuel as [|fuel]; [lia|]. apply Forall_cons in Hw as [Ha Hw]. cbn [loop length] in *.
  cbn [map app] in Hat. apply wp_bind, wp_bind. eapply wp_eq; [eapply peek_word; [|done]; in_syms|].
  destruct (gettoken_toks _ _ _ Hat) as (s1 & E1 & Hat1 & L1 & Hsl).
  apply wp_bind. eapply wp_eq; [exact E1|]. cbn [tok_code fst snd negb Z.eqb Pos.eqb].
  rewrite (proj2 (Z.leb_gt _ _)) by lia. set (c1 := add_arg c _).
  assert (Hc1 : cmd_map (slice b) c1 = Exec (pre ++ [a])).
  { unfold c1. rewrite map_add_arg, Hc, Hsl. done. }
  apply wp_bind. destruct args as [|a' args].
  - eapply wp_conseq; [apply (parseredirs_toks rs c1 (Exec (pre ++ [a]))); [done|exact Hat1|by apply follows_no_redir|exact Hc1]|].
    intros c2 s2 [Hat2 Hc2]. apply wp_ret. destruct fuel as [|fuel].
    { lia. }
    cbn [loop]. apply wp_bind. eapply wp_conseq; [by apply arg_stop|]. intros r s3 [-> Hat3]. by apply wp_ret.
  - eapply wp_conseq; [apply (parseredirs_toks [] c1 (Exec (pre ++ [a])) s1 (map TWord (a' :: args) ++ rtoks rs ++ ts)); [by apply Forall_nil|exact Hat1| |exact Hc1]|].
    { apply word_not_in; [in_syms|]. apply Forall_cons in Hw as [Ha' _]. by apply hd_word. }
    intros c2 s2 [Hat2 Hc2]. apply wp_ret. pose proof (at_len _ _ Hat1) as La1. pose proof (at_len _ _ Hat2) as La2.
    replace (pre ++ a :: a' :: args) with ((pre ++ [a]) ++ a' :: args) by (by rewrite <- app_assoc).
    apply IH; [exact Hc2|cbn [length] in *; lia| |done|done|done|done|done].
    change (rtoks [] ++ ?x) with x in La1. lia.
Qed.

Lemma peek_simple args rs s ts :
  Forall word_ok args -> redirs_ok rs -> follows [124; 41; 38; 59] ts ->
  at_toks s (map TWord args ++ rtoks rs ++ ts) -> peek b [40] s = Ret false s.
Proof.
  intros Hw Hrs Hts Hat. destruct args as [|a args]; [destruct rs as [|[[f m] fd] rs]|].
  - cbn in Hat. rewrite (peek_toks _ _ _ Hat).
    destruct (follows_cases _ _ Hts) as [->|H]; [done|]. apply list_elem_of_In in H. cbn [In] in H.
    by repeat (destruct H as [<-|H]; [done|]).
  - apply Forall_cons in Hrs as [[_ Hr] _]. rewrite (peek_toks _ _ _ Hat).
    by destruct Hr as [[Hm _]|[[Hm _]|[Hm _]]]; cbn in Hm; subst m.
  - apply (peek_word [40] s a (map TWord args ++ rtoks rs ++ ts)); [in_syms|done].
Qed.

(** Simple commands. *)
Lemma exec_toks pl args rs s ts :
  Z.of_nat (length args) < MAXARGS -> Forall word_ok args -> redirs_ok rs -> follows [124; 41; 38; 59] ts ->
  at_toks s (map TWord args ++ rtoks rs ++ ts) -> reads (parseexec b pl) s (wrap (Exec args) rs) ts.
Proof.
  intros Hlen Hw Hrs Hts Hat. apply wp_bind. eapply wp_eq; [by eapply peek_simple|].
  apply wp_bind. destruct args as [|a args].
  - eapply wp_conseq; [apply (parseredirs_toks rs execcmd (Exec [])); [done|exact Hat|by apply follows_no_redir|done]|].
    intros c s1 [Hat1 Hc]. apply wp_bind. unfold getS, wp at 1. cbn [loop].
    apply wp_bind. eapply wp_conseq; [by apply arg_stop|]. intros r s2 [-> Hat2]. by apply wp_ret.
  - eapply wp_conseq; [apply (parseredirs_toks [] execcmd (Exec []) s (map TWord (a :: args) ++ rtoks rs ++ ts));
      [by apply Forall_nil|exact Hat| |done]|].
    { apply word_not_in; [in_syms|]. apply Forall_cons in Hw as [Ha _]. by apply hd_word. }
    intros c s1 [Hat1 Hc]. apply wp_bind. unfold getS, wp at 1.
    apply (args_toks (a :: args) _ 0 c []); try done; lia.
Qed.

(** Blocks. *)
Lemma block_toks pl c0 toks0 rs s ts :
  redirs_ok rs -> follows [124; 41; 38; 59] ts -> at_toks s (TSym 40 :: toks0 ++ TSym 41 :: rtoks rs ++ ts) ->
  (forall s', (es b - s' < es b - s)%nat -> at_toks s' (toks0 ++ TSym 41 :: rtoks rs ++ ts) ->
     reads pl s' c0 (TSym 41 :: rtoks rs ++ ts)) ->
  reads (parseexec b pl) s (wrap c0 rs) ts.
Proof.
  intros Hrs Hts Hat Hpl. apply wp_bind. eapply wp_eq; [by apply peek_toks|].
  apply wp_bind. eapply wp_eq; [by apply peek_toks|].
  destruct (gettoken_toks _ _ _ Hat) as (s1 & E1 & Hat1 & L1 & _).
  apply wp_bind. eapply wp_eq; [exact E1|]. apply wp_bind.
  eapply wp_conseq; [by apply Hpl|]. intros c s2 [Hat2 Hc].
  apply wp_bind. eapply wp_eq; [by apply peek_toks|].
  destruct (gettoken_toks _ _ _ Hat2) as (s3 & E3 & Hat3 & L3 & _).
  apply wp_bind. eapply wp_eq; [exact E3|].
  by apply parseredirs_toks; [| |apply follows_no_redir|].
Qed.

(** The ampersands after a pipeline. *)
Lemma back_toks n c' c0 s ts :
  cmd_map (slice b) c' = c0 -> follows [41; 59] ts -> at_toks s (repeat (TSym 38) n ++ ts) ->
  reads (parseback b c') s (Nat.iter n Back c0) ts.
Proof.
  intros Hc Hts Hat. unfold parseback, while_input. apply wp_bind. unfold getS, wp at 1.
  assert (Hf : (es b - s < S (es b - s))%nat) by lia. revert Hf.
  generalize (S (es b - s)) as fuel. intros fuel. revert fuel c' c0 s Hc Hat.
  induction n as [|n IH]; intros fuel c' c0 s Hc Hat Hf; (destruct fuel as [|fuel]; [lia|]); cbn [loop].
  - apply wp_bind, wp_bind. eapply wp_eq; [exact (peek_toks _ _ ts Hat)|].
    replace (_ && _) with false; [done|]. symmetry.
    destruct (follows_cases _ _ Hts) as [->|H]; [done|]. apply list_elem_of_In in H. cbn [In] in H.
    by repeat (destruct H as [<-|H]; [done|]).
  - cbn [repeat app] in Hat. apply wp_bind, wp_bind. eapply wp_eq; [by apply peek_toks|].
    destruct (gettoken_toks _ _ _ Hat) as (s1 & E1 & Hat1 & L1 & _).
    apply wp_bind. eapply wp_eq; [exact E1|]. apply wp_ret.
    rewrite Nat.iter_succ_r. apply IH; [cbn; by rewrite Hc|done|lia].
Qed.

(** *** The three levels of the grammar *)

Definition exec_reads (c : cmd (list Z)) : Prop := forall f s ts,
  follows [124; 41; 38; 59] ts -> at_toks s (ptoks c 3 ++ ts) -> (es b - s <= f)%nat ->
  reads (parseexec b (parseline b f)) s c ts.

Definition pipe_reads (c : cmd (list Z)) : Prop := forall f g s ts,
  follows [41; 38; 59] ts -> at_toks s (ptoks c 2 ++ ts) -> (es b - s <= f)%nat -> (es b - s < g)%nat ->
  reads (parsepipe b (parseline b f) g) s c ts.

Definition line_reads (c : cmd (list Z)) : Prop := forall f s ts,
  follows [41] ts -> at_toks s (ptoks c 0 ++ ts) -> (es b - s < f)%nat -> reads (parseline b f) s c ts.

(** The command under its redirections. *)
Fixpoint strip (c : cmd (list Z)) : cmd (list Z) * list redir :=
  match c with
  | Redir c f m fd => ((strip c).1, (strip c).2 ++ [(f, m, fd)])
  | c => (c, [])
  end.

Lemma strip_spec c :
  c = wrap (strip c).1 (strip c).2 /\ ptoks c 3 = ptoks (strip c).1 3 ++ rtoks (strip c).2 /\
  (cmd_ok c -> cmd_ok (strip c).1 /\ redirs_ok (strip c).2).
Proof.
  induction c as [l|c (IH1 & IH2 & IH3) f m fd| | |]; simpl;
    try (change (rtoks []) with (@nil tok); rewrite ?app_nil_r; repeat split; try done; by apply Forall_nil || tauto).
  split; [|split].
  - unfold wrap. rewrite fold_left_app. simpl. by rewrite IH1 at 1.
  - rewrite IH2. unfold rtoks. rewrite map_app, concat_app, <- app_assoc. done.
  - intros (Hc & Hf & Hr). destruct (IH3 Hc) as [H1 H2]. split; [done|]. apply Forall_app. split; [done|].
    by apply Forall_singleton.
Qed.

Definition is_exec (c : cmd (list Z)) : bool := match c with Exec _ => true | _ => false end.
Definition is_redir (c : cmd (list Z)) : bool := match c with Redir _ _ _ _ => true | _ => false end.

Lemma strip_not_redir c : is_redir (strip c).1 = false.
Proof. induction c; done. Qed.

Lemma block_text c : is_exec c = false -> is_redir c = false -> ptoks c 3 = TSym 40 :: ptoks c 0 ++ [TSym 41].
Proof. by destruct c. Qed.

Lemma exec_reads_intro c :
  cmd_ok c -> (is_exec (strip c).1 = false -> line_reads (strip c).1) -> exec_reads c.
Proof.
  intros Hok HL f s ts Hts Hat Hf. destruct (strip_spec c) as (Ec & Et & Hs). destruct (Hs Hok) as [Hok0 Hrs].
  rewrite Et in Hat. rewrite Ec. pose proof (strip_not_redir c) as Hnr. clear Ec Et Hs Hok.
  destruct (strip c) as [c0 rs]. cbn [fst snd] in *. rewrite <- app_assoc in Hat.
  destruct (is_exec c0) eqn:He.
  - destruct c0 as [args| | | |]; try done. destruct Hok0. by apply exec_toks.
  - rewrite (block_text c0 He Hnr) in Hat. cbn [app] in Hat. rewrite <- app_assoc in Hat.
    apply (block_toks _ c0 (ptoks c0 0)); [done..|]. intros s' Hl Hat'. apply HL; [done|done|exact Hat'|lia].
Qed.

Lemma peek_after set toks s ts :
  follows set ts -> at_toks s ts -> forallb (fun c => negb (in_set toks c)) set = true -> peek b toks s = Ret false s.
Proof.
  intros Hf Hat Hs. rewrite (peek_toks _ _ _ Hat).
  destruct (follows_cases _ _ Hf) as [->|H]; [done|]. apply list_elem_of_In in H.
  rewrite forallb_forall in Hs. specialize (Hs _ H). apply negb_true_iff in Hs. by rewrite Hs, andb_false_r.
Qed.

Lemma pipe_reads_exec c : exec_reads c -> ptoks c 2 = ptoks c 3 -> pipe_reads c.
Proof.
  intros HE E f g s ts Hts Hat Hf Hg. destruct g as [|g]; [lia|]. rewrite E in Hat. cbn [parsepipe].
  apply wp_bind. eapply wp_conseq; [apply HE; [|exact Hat|done]|].
  { eapply follows_sub; [|exact Hts]. in_syms. }
  intros c' s1 [Hat1 Hc]. apply wp_bind. eapply wp_eq; [by eapply peek_after|]. done.
Qed.

Lemma pipe_reads_pipe l r : exec_reads l -> pipe_reads r -> pipe_reads (Pipe l r).
Proof.
  intros HE HP f g s ts Hts Hat Hf Hg. destruct g as [|g]; [lia|]. cbn [parsepipe].
  cbn [ptoks Nat.ltb Nat.leb paren] in Hat. rewrite <- app_assoc in Hat.
  apply wp_bind. eapply wp_conseq; [apply HE; [|exact Hat|done]; done|].
  intros l' s1 [Hat1 Hl].
  apply wp_bind. eapply wp_eq; [by apply peek_toks|].
  destruct (gettoken_toks _ _ _ Hat1) as (s2 & E2 & Hat2 & L2 & _).
  apply wp_bind. eapply wp_eq; [exact E2|].
  pose proof (at_skip _ _ _ _ Hat Hat1) as Hle.
  apply wp_bind. eapply wp_conseq; [apply HP; [done|exact Hat2|lia|lia]|].
  intros r' s3 [Hat3 Hr]. apply wp_ret. split; [done|]. cbn. by rewrite Hl, Hr.
Qed.

(** The pipeline under the ampersands. *)
Fixpoint unback (c : cmd (list Z)) : cmd (list Z) * nat :=
  match c with Back c => ((unback c).1, S (unback c).2) | c => (c, O) end.

Lemma unback_spec c :
  c = Nat.iter (unback c).2 Back (unback c).1 /\
  ptoks c 1 = ptoks (unback c).1 2 ++ repeat (TSym 38) (unback c).2.
Proof.
  induction c as [l|c IH f m fd|l IHl r IHr|l IHl r IHr|c [IH1 IH2]]; cbn [unback fst snd]; try (by rewrite app_nil_r).
  split; [by rewrite IH1 at 1|]. cbn [ptoks Nat.ltb Nat.leb paren]. rewrite IH2, <- app_assoc.
  f_equal. by rewrite <- repeat_cons.
Qed.

Lemma head_toks c f s ts :
  pipe_reads (unback c).1 -> follows [41; 59] ts -> at_toks s (ptoks c 1 ++ ts) -> (es b - s <= f)%nat ->
  reads (c' ← parsepipe b (parseline b f) (S f); parseback b c') s c ts.
Proof.
  intros HP Hts Hat Hf. destruct (unback_spec c) as [Ec Et]. rewrite Et, <- app_assoc in Hat.
  apply wp_bind. eapply wp_conseq; [apply HP; [|exact Hat|done|lia]|].
  { destruct (unback c).2; [|done]. eapply follows_sub; [|exact Hts]. in_syms. }
  intros c' s1 [Hat1 Hc]. rewrite Ec. by apply back_toks.
Qed.

(** [parseline] after the pipeline and its ampersands. *)
Lemma line_head {A} c f s ts (Q : A -> nat -> Prop) (k : cmd strs -> M nat A) :
  reads (c' ← parsepipe b (parseline b f) (S f); parseback b c') s c ts ->
  (forall c' s', at_toks s' ts -> cmd_map (slice b) c' = c -> wp (k c') Q s') ->
  wp (c' ← parsepipe b (parseline b f) (S f); c1 ← parseback b c'; k c1) Q s.
Proof.
  intros H Hk. unfold wp. rewrite <- bind_assoc. apply wp_bind. eapply wp_conseq; [exact H|].
  intros c' s' [Hat Hc]. by apply Hk.
Qed.

Lemma line_reads_head c : ptoks c 0 = ptoks c 1 -> pipe_reads (unback c).1 -> line_reads c.
Proof.
  intros E HP f s ts Hts Hat Hf. destruct f as [|f]; [lia|]. rewrite E in Hat. cbn [parseline].
  apply (line_head c f s ts).
  { apply head_toks; [done| |done|lia]. eapply follows_sub; [|exact Hts]. in_syms. }
  intros c' s' Hat' Hc. apply wp_bind. eapply wp_eq; [by eapply (peek_after [41])|]. done.
Qed.

Lemma line_reads_list l r : pipe_reads (unback l).1 -> line_reads r -> line_reads (List l r).
Proof.
  intros HP HL f s ts Hts Hat Hf. destruct f as [|f]; [lia|]. cbn [parseline].
  cbn [ptoks Nat.ltb Nat.leb paren] in Hat. rewrite <- app_assoc in Hat.
  apply (line_head l f s (TSym 59 :: ptoks r 0 ++ ts)).
  { apply head_toks; [done|done|exact Hat|lia]. }
  intros l' s1 Hat1 Hl.
  apply wp_bind. eapply wp_eq; [by apply peek_toks|].
  destruct (gettoken_toks _ _ _ Hat1) as (s2 & E2 & Hat2 & L2 & _).
  apply wp_bind. eapply wp_eq; [exact E2|].
  pose proof (at_skip _ _ _ _ Hat Hat1) as Hle.
  apply wp_bind. eapply wp_conseq; [apply HL; [done|exact Hat2|lia]|].
  intros r' s3 [Hat3 Hr]. apply wp_ret. split; [done|]. cbn. by rewrite Hl, Hr.
Qed.

Fixpoint cmd_size {A} (c : cmd A) : nat :=
  match c with
  | Exec _ => 1
  | Redir c _ _ _ | Back c => S (cmd_size c)
  | Pipe l r | List l r => S (cmd_size l + cmd_size r)
  end.

Lemma strip_size c : (cmd_size (strip c).1 <= cmd_size c)%nat.
Proof. induction c; simpl; lia. Qed.

Lemma unback_size c : (cmd_size (unback c).1 <= cmd_size c)%nat /\ (cmd_ok c -> cmd_ok (unback c).1).
Proof. induction c as [| | | |c [IH1 IH2]]; cbn [unback fst cmd_size cmd_ok]; auto with lia. Qed.

Lemma all_reads n : forall c, (cmd_size c <= n)%nat -> cmd_ok c -> exec_reads c /\ pipe_reads c /\ line_reads c.
Proof.
  induction n as [|n IH]; intros c Hn Hok; [destruct c; simpl in Hn; lia|].
  assert (HE : is_exec c || is_redir c = true -> exec_reads c).
  { intros Hc. apply exec_reads_intro; [done|]. intros He. destruct (strip_spec c) as (_ & _ & Hs).
    destruct c as [|c f m fd| | |]; try done. apply IH; [|by apply Hs].
    pose proof (strip_size c). cbn in *. lia. }
  assert (HP : is_exec c || is_redir c = true \/ (exists l r, c = Pipe l r) -> pipe_reads c).
  { intros [Hc|(l & r & ->)]; [apply pipe_reads_exec; [by apply HE|by destruct c]|].
    destruct Hok. cbn in Hn. apply pipe_reads_pipe; apply IH; try done; lia. }
  assert (HL : line_reads c).
  { destruct c as [l|c f m fd|l r|l r|c]; [apply line_reads_head; [done|apply HP; eauto]..| |].
    - destruct Hok. cbn in Hn. pose proof (unback_size l) as [? ?]. apply line_reads_list; apply IH; auto; lia.
    - pose proof (unback_size c) as [? ?]. apply line_reads_head; [done|]. cbn in *. apply IH; auto; lia. }
  assert (HE' : exec_reads c).
  { destruct (is_exec c || is_redir c) eqn:Hc; [auto|]. apply exec_reads_intro; [done|]. by destruct c. }
  split; [done|]. split; [|done]. destruct c; try (by apply HP; eauto); by apply pipe_reads_exec.
Qed.

End tokens.

Lemma print_toks c : cmd_ok c -> forall lvl, Forall tok_ok (ptoks c lvl).
Proof.
  assert (Hp : forall p ts, Forall tok_ok ts -> Forall tok_ok (paren p ts)).
  { intros [] ts H; [|done]. constructor; [unfold tok_ok, symbols; apply list_elem_of_In; cbn; tauto|].
    apply Forall_app. split; [done|]. apply Forall_singleton, list_elem_of_In. cbn. tauto. }
  assert (Hs : forall s, In s symbols -> tok_ok (TSym s)) by (intros; by apply list_elem_of_In).
  induction c as [l|c IH f m fd|l IHl r IHr|l IHl r IHr|c IH]; cbn [ptoks cmd_ok]; intros Hok lvl.
  - destruct Hok as [_ H]. induction H; constructor; done.
  - destruct Hok as (Hc & Hf & Hr). apply Forall_app. split; [by apply IH|]. constructor; [|by constructor].
    destruct Hr as [[-> _]|[[-> _]|[-> _]]]; try done; apply Hs; cbn; tauto.
  - destruct Hok. apply Hp, Forall_app. split; [auto|]. constructor; [apply Hs; cbn; tauto|auto].
  - destruct Hok. apply Hp, Forall_app. split; [auto|]. constructor; [apply Hs; cbn; tauto|auto].
  - apply Hp, Forall_app. split; [auto|]. apply Forall_singleton, Hs. cbn. tauto.
Qed.

Lemma parse_print c :
  cmd_ok c -> exists c' s, parsecmd (print c) 0%nat = Ret (c', nulterminate c' (print c ++ [0])) s /\
    cmd_map (slice (print c)) c' = c.
Proof.
  intros Hok. set (b := print c). destruct (all_reads b (cmd_size c) c (le_n _) Hok) as (_ & _ & HL).
  assert (Hat : at_toks b 0 (ptoks c 0 ++ [])).
  { split; [lia|]. rewrite app_nil_r. split; [done|by apply print_toks]. }
  destruct (wp_inv _ _ _ (HL (S (es b)) 0%nat [] eq_refl Hat ltac:(lia))) as (c' & s & E & Hat' & Hc).
  exists c', s. split; [|done].
  unfold parsecmd, mbind, M_bind. rewrite E, (peek_toks b [] s [] Hat'). unfold getS, mret, M_ret.
  destruct Hat' as (Hs & Hd & _). apply (f_equal length) in Hd. rewrite length_drop in Hd. cbn in Hd.
  unfold es in *. replace (s =? length b)%nat with true; [done|]. symmetry. apply Nat.eqb_eq. lia.
Qed.

(** The parser reads back every command the printer prints: for every
    tree of words, redirections of the three kinds, pipelines, lists, and
    background commands, in any nesting, [parsecmd] of the printed line is
    that tree. *)
Theorem parse_print_roundtrip c :
  cmd_ok c -> exists c' buf s, parsecmd (print c) 0%nat = Ret (c', buf) s /\ cmd_map (slice (print c)) c' = c.
Proof. intros Hok. destruct (parse_print c Hok) as (c' & s & H & Hc). by eauto. Qed.

(** [ls | wc > o & ; ( a ; b ) < i] *)
Definition demo_cmd : cmd (list Z) :=
  List (Back (Pipe (Exec [[108; 115]]) (Redir (Exec [[119; 99]]) [111] 0x601 1)))
       (Redir (List (Exec [[97]]) (Exec [[98]])) [105] 0 0).

Lemma demo_cmd_ok : cmd_ok demo_cmd.
Proof.
  assert (Hw : forall w, forallb (fun c => word_char c && negb (c =? 0)) w = true -> w <> [] -> word_ok w).
  { intros w H Hn. split; [done|]. apply Forall_forall. intros x Hx%list_elem_of_In.
    rewrite forallb_forall in H. specialize (H x Hx). bool_prop. done. }
  cbn. repeat match goal with |- _ /\ _ => split | |- Forall _ _ => constructor end;
    (done || (by apply Hw) || (unfold redir_ok; auto)).
Qed.

Lemma parse_print_roundtrip_witness :
  exists c' buf s, parsecmd (print demo_cmd) 0%nat = Ret (c', buf) s /\
                   cmd_map (slice (print demo_cmd)) c' = demo_cmd.
Proof. apply (parse_print_roundtrip demo_cmd demo_cmd_ok). Defined.
