(* ===== verification/User.v ===== *)
(** * User programs as users of the system calls

    A user program is a tree of system calls: [PSys c k] makes the call [c]
    and goes on with what it returns, the value of the call and the bytes it
    stored in the caller's buffer.  [exit] does not return.  What the calls do
    is given by an interpretation; [fwork] below is the part of the kernel's
    behaviour that the programs on files need.  [fork] is just a call here;
    [ShRun] follows both of its returns.

    Strings are the bytes before the NUL.  Loops over input get fuel, the
    number of calls of [read] they may make. *)
From stdpp Require Import base gmap strings numbers option list.
From S2P Require Import Prelude Block Printf.
Open Scope Z_scope.

(** A string argument: a string of the program, or any address. *)
Inductive ptr : Type := PStr (s : list Z) | PAt (a : Z).

Inductive call : Type :=
| CRead (fd n : Z)
| CWrite (fd : Z) (bs : list Z)
| COpen (path : list Z) (mode : Z)
| CClose (fd : Z)
| CDup (fd : Z)
| CPipe
| CFork
| CWait
| CExec (path : list Z) (argv : list (list Z))
| CChdir (path : list Z)
| CKill (pid : Z)
| CLink (old new : list Z)
| CMkdir (path : list Z)
| CUnlink (path : list Z)
| CMknod (path : list Z) (major minor : Z)
| CFstat (fd : Z)
| CSleep (n : Z)
| CSbrk (n : Z)
| CGetpid
| CUptime
(* arguments that are addresses, wherever they point *)
| CReadAt (fd a n : Z)
| CWriteAt (fd a n : Z)
| COpenAt (a mode : Z)
| CUnlinkAt (a : Z)
| CLinkAt (old new : ptr)
| CExecAt (path : ptr) (argv : list ptr)
| CPipeAt (a : Z)
(* a load or a store of one byte; the process does not go on when it faults *)
| CLoad (a : Z)
| CStore (a v : Z).

Definition answer : Type := Z * list Z.

Inductive prog (A : Type) : Type :=
| PRet (a : A)
| PSys (c : call) (k : answer -> prog A)
| PExit (status : Z)
| PFuel.
Arguments PRet {A}. Arguments PSys {A}. Arguments PExit {A}. Arguments PFuel {A}.

Fixpoint pbind {A B} (f : A -> prog B) (p : prog A) : prog B :=
  match p with
  | PRet a => f a
  | PSys c k => PSys c (fun r => pbind f (k r))
  | PExit st => PExit st
  | PFuel => PFuel
  end.

#[export] Instance prog_ret : MRet prog := @PRet.
#[export] Instance prog_bind : MBind prog := @pbind.

Definition sys (c : call) : prog answer := PSys c PRet.
Definition sysv (c : call) : prog Z := PSys c (fun r => PRet r.1).
Definition do_ (c : call) : prog unit := sysv c;; mret tt.
Definition exit {A} (status : Z) : prog A := PExit status.

(** The descriptors [pipe] stores: an array of two ints. *)
Definition pipe_end (r : answer) (i : nat) : Z := i32 (le_val (take 4 (drop (4 * i) r.2))).

(** The exit status [wait] stores at its argument; when it fails, what was
    there, [old], stays. *)
Definition wait_status (old : Z) : prog Z :=
  r ← sys CWait;
  mret (if r.1 <? 0 then old else i32 (le_val (take 4 r.2))).

Fixpoint pfor {A} (l : list A) (body : A -> prog unit) : prog unit :=
  match l with
  | [] => mret tt
  | x :: l' => body x;; pfor l' body
  end.

Fixpoint ploop {A R} (fuel : nat) (body : A -> prog (A + R)) (a : A) : prog R :=
  match fuel with
  | O => PFuel
  | S fuel' =>
      r ← body a;
      match r with
      | inl a' => ploop fuel' body a'
      | inr y => mret y
      end
  end.

(** ** Output ([user/printf.c]) *)

Definition putc (fd c : Z) : prog unit := sysv (CWrite fd [c]);; mret tt.

(** An argument of [printf]; a string is passed by a pointer, here its place
    in the list. *)
Inductive arg := AInt (z : Z) | AStr (s : list Z).

Definition arg_word (args : list arg) (i : nat) : Z :=
  match args !! i with Some (AInt z) => z | Some (AStr _) => Z.of_nat (S i) | None => 0 end.
Definition arg_str (args : list arg) (a : Z) : list Z :=
  match args !! (Z.to_nat a - 1)%nat with Some (AStr s) => s | _ => [] end.

Definition fprintf (fd : Z) (fmt : list Z) (args : list arg) : prog unit :=
  pfor (vprintf (arg_str args) false fmt (arg_word args)) (putc fd).
Definition u_printf (fmt : list Z) (args : list arg) : prog unit := fprintf 1 fmt args.

(** The bytes of a C string constant; [nl] is its newline. *)
Definition lit (s : string) : list Z := map (fun a => Z.of_N (Ascii.N_of_ascii a)) (String.list_ascii_of_string s).
Definition nl : list Z := [10].
Arguments lit _%_string.
