(* ===== verification/Ulib.v ===== *)
(** * The user library ([user/ulib.c])

    The string routines over byte memory, and the two functions that make
    system calls as programs.  A string argument is followed until its NUL;
    [fuel] bounds how far the model looks, and the theorems say how much is
    enough. *)
From stdpp Require Import base gmap strings numbers option list.
From S2P Require Import Prelude Memory Sysfile User.
Open Scope Z_scope.

(** [while(( *s++ = *t++ ) != 0);] *)
Fixpoint strcpy (fuel : nat) (m : mem) (s t : Z) : option mem :=
  match fuel with
  | O => None
  | S fuel' =>
      let c := rd m t in
      let m' := wr m s c in
      if negb (c =? 0) then strcpy fuel' m' (s + 1) (t + 1) else Some m'
  end.

(** [while( *p && *p == *q ) p++, q++;] *)
Fixpoint strcmp (fuel : nat) (m : mem) (p q : Z) : option Z :=
  match fuel with
  | O => None
  | S fuel' =>
      if negb (rd m p =? 0) && (rd m p =? rd m q) then strcmp fuel' m (p + 1) (q + 1)
      else Some (rd m p - rd m q)
  end.

Fixpoint strlen_from (fuel : nat) (m : mem) (s n : Z) : option Z :=
  match fuel with
  | O => None
  | S fuel' => if negb (rd m (s + n) =? 0) then strlen_from fuel' m s (i32 (n + 1)) else Some (u32 n)
  end.

Definition strlen (fuel : nat) (m : mem) (s : Z) : option Z := strlen_from fuel m s 0.

Fixpoint memset_from (k : nat) (m : mem) (cdst c i : Z) : mem :=
  match k with
  | O => m
  | S k' => memset_from k' (wr m (cdst + i) c) cdst c (i + 1)
  end.

Definition memset (m : mem) (dst c n : Z) : mem := memset_from (Z.to_nat (u32 n)) m dst c 0.

(** The address of the first [c], 0 when there is none. *)
Fixpoint strchr (fuel : nat) (m : mem) (s c : Z) : option Z :=
  match fuel with
  | O => None
  | S fuel' =>
      if negb (rd m s =? 0) then (if rd m s =? c then Some s else strchr fuel' m (s + 1) c)
      else Some 0
  end.

Definition memmove (m : mem) (vdst vsrc n : Z) : mem :=
  let n := i32 n in
  if vdst <? vsrc then copy_up (Z.to_nat n) m vdst vsrc
  else copy_down (Z.to_nat n) m (vdst + n) (vsrc + n).

Fixpoint memcmp_from (n : nat) (m : mem) (p1 p2 : Z) : Z :=
  match n with
  | O => 0
  | S n' =>
      if negb (rd m p1 =? rd m p2) then rd m p1 - rd m p2 else memcmp_from n' m (p1 + 1) (p2 + 1)
  end.

Definition memcmp (m : mem) (s1 s2 n : Z) : Z := memcmp_from (Z.to_nat (u32 n)) m s1 s2.

Definition memcpy (m : mem) (dst src n : Z) : mem := memmove m dst src n.

(** The line read, without the NUL stored after it. *)
Definition gets (max : Z) : prog (list Z) :=
  ploop (Z.to_nat max + 1) (fun buf =>
    if Z.of_nat (length buf) + 1 <? max then
      r ← sys (CRead 0 1);
      if r.1 <? 1 then mret (inr buf) else
      let c := hd 0 r.2 in
      let buf := buf ++ [c] in
      if (c =? 10) || (c =? 13) then mret (inr buf) else mret (inl buf)
    else mret (inr buf)) [].

(** The result and the bytes of the [struct stat]. *)
Definition stat (n : list Z) : prog answer :=
  fd ← sysv (COpen n O_RDONLY);
  if fd <? 0 then mret (-1, []) else
  r ← sys (CFstat fd);
  sysv (CClose fd);;
  mret r.

(** ** What they do *)

Lemma memmove_ulib m dst src n a :
  0 <= n < 2 ^ 31 ->
  rd (memmove m dst src n) a = if decide (dst <= a < dst + n) then rd m (src + (a - dst)) else rd m a.
Proof.
  intros Hn. unfold memmove. rewrite i32_small by lia.
  destruct (Z.ltb_spec dst src).
  - rewrite copy_up_rd by lia. repeat case_decide; try lia; done.
  - rewrite copy_down_rd by lia. repeat case_decide; try lia; try done; f_equal; lia.
Qed.

(** The [memmove] of the user library, which copies downwards whenever the
    destination is not below the source, and the kernel's, which does so only
    when the ranges overlap, store the same bytes. *)
Theorem memmove_agree m dst src n a :
  0 <= n < 2 ^ 31 -> rd (memmove m dst src n) a = rd (Memory.memmove m dst src n) a.
Proof. intros Hn. rewrite memmove_ulib, memmove_rd by lia. done. Qed.

(** [strcpy] to a place that does not overlap the string ends with the string
    there. *)
Theorem strcpy_copies : forall k m s t fuel,
  (length (cstr k m t) < k)%nat -> (length (cstr k m t) < fuel)%nat ->
  (s + Z.of_nat k <= t \/ t + Z.of_nat k <= s) ->
  exists m', strcpy fuel m s t = Some m' /\ cstr k m' s = cstr k m t /\
    forall a, ~ (s <= a <= s + Z.of_nat (length (cstr k m t))) -> rd m' a = rd m a.
Proof.
  induction k as [|k IH]; intros m s t fuel Hk Hf Hd; [simpl in Hk; lia|].
  destruct fuel as [|fuel]; [lia|]. cbn [strcpy cstr] in *.
  destruct (Z.eqb_spec (rd m t) 0) as [E|E]; simpl in *.
  - eexists. split; [done|]. rewrite rd_wr_eq, E. split; [done|].
    intros a Ha. rewrite rd_wr_ne by lia. done.
  - set (m1 := wr m s (rd m t)).
    assert (Hm1 : cstr k m1 (t + 1) = cstr k m (t + 1)).
    { apply cstr_ext. intros i Hi. unfold m1. rewrite rd_wr_ne by lia. done. }
    destruct (IH m1 (s + 1) (t + 1) fuel) as (m' & H1 & H2 & H3); [rewrite Hm1; lia|rewrite Hm1; lia|lia|].
    exists m'. split; [done|]. rewrite Hm1 in *.
    assert (rd m' s = rd m t) as Hs.
    { rewrite H3 by lia. unfold m1. rewrite rd_wr_eq. apply u8_small, rd_range. }
    rewrite Hs. destruct (Z.eqb_spec (rd m t) 0); [done|]. split; [by rewrite H2|].
    intros a Ha. rewrite H3 by lia. unfold m1. rewrite rd_wr_ne by lia. done.
Qed.

(** [strcmp] is 0 exactly on equal strings. *)
Theorem strcmp_zero : forall k m p q fuel,
  (length (cstr k m p) < k)%nat -> (length (cstr k m q) < k)%nat -> (length (cstr k m p) < fuel)%nat ->
  exists r, strcmp fuel m p q = Some r /\ (r = 0 <-> cstr k m p = cstr k m q).
Proof.
  induction k as [|k IH]; intros m p q fuel Hp Hq Hf; [simpl in Hp; lia|].
  destruct fuel as [|fuel]; [lia|]. cbn [strcmp cstr] in *.
  destruct (Z.eqb_spec (rd m p) 0) as [E|E]; simpl in *.
  { eexists. split; [done|]. destruct (Z.eqb_spec (rd m q) 0); split; intros; try done; lia. }
  destruct (Z.eqb_spec (rd m p) (rd m q)) as [E'|E'].
  - rewrite <- E' in *. destruct (Z.eqb_spec (rd m p) 0); [done|]. simpl in *.
    destruct (IH m (p + 1) (q + 1) fuel) as (r & H1 & H2); [lia..|]. exists r. split; [done|].
    rewrite H2. split; [by intros ->|by intros [=]].
  - eexists. split; [done|]. split; [lia|]. destruct (Z.eqb_spec (rd m q) 0); [done|]. intros [=]. lia.
Qed.
