(* ===== verification/Utils.v ===== *)
(** * The small user programs

    [cat], [echo], [wc], [kill], [ln], [mkdir], [rm], [ls], [grep]'s [main],
    [init], [zombie], [forktest] and [stressfs] ([user/*.c]), as programs over
    the system calls.  [argv] is the whole argument list, [argv[0]] included.
    The theorems about [cat] and [wc] are in [UtilsLogic]. *)
From stdpp Require Import base gmap strings numbers option list.
From S2P Require Import Prelude FsState Block Fs Printf Sysfile Grep Sh User Ulib.
Open Scope Z_scope.

(** ** [cat.c] *)

Definition cat (fuel : nat) (fd : Z) : prog unit :=
  ploop fuel (fun _ : unit =>
    r ← sys (CRead fd 512);
    let n := r.1 in
    if 0 <? n then
      w ← sysv (CWrite 1 (take (Z.to_nat n) r.2));
      if negb (w =? n) then fprintf 2 (lit "cat: write error" ++ nl) [];; exit 1
      else mret (inl tt)
    else if n <? 0 then fprintf 2 (lit "cat: read error" ++ nl) [];; exit 1
    else mret (inr tt)) tt.

(** One turn of the loop of [main]. *)
Definition cat_file (fuel : nat) (name : list Z) : prog unit :=
  fd ← sysv (COpen name 0);
  if fd <? 0 then fprintf 2 (lit "cat: cannot open %s" ++ nl) [AStr name];; exit 1 else
  cat fuel fd;;
  sysv (CClose fd);;
  mret tt.

Definition cat_main (fuel : nat) (argv : list (list Z)) : prog unit :=
  match argv with
  | _ :: _ :: _ =>
      pfor (tail argv) (cat_file fuel);;
      exit 0
  | _ => cat fuel 0;; exit 0
  end.

(** ** [echo.c] *)

Fixpoint echo_args (args : list (list Z)) : prog unit :=
  match args with
  | [] => mret tt
  | a :: rest =>
      sysv (CWrite 1 a);;
      match rest with
      | [] => sysv (CWrite 1 nl);; mret tt
      | _ => sysv (CWrite 1 (lit " "));; echo_args rest
      end
  end.

Definition echo_main (argv : list (list Z)) : prog unit := echo_args (tail argv);; exit 0.

(** ** [wc.c] *)

(** [l], [w], [c] and [inword]. *)
Record wcst := mkWc { wc_l : Z; wc_w : Z; wc_c : Z; wc_in : bool }.

Definition wc_white : list Z := [32; 13; 9; 10; 11].

(** The body of the loop over the buffer. *)
Definition wc_byte (st : wcst) (ch : Z) : wcst :=
  let c := i32 (wc_c st + 1) in
  let l := if ch =? 10 then i32 (wc_l st + 1) else wc_l st in
  if in_set wc_white ch then mkWc l (wc_w st) c false
  else if negb (wc_in st) then mkWc l (i32 (wc_w st + 1)) c true
  else mkWc l (wc_w st) c (wc_in st).

(** One turn of the loop over the reads. *)
Definition wc_step (fd : Z) (st : wcst) : prog (wcst + wcst) :=
  r ← sys (CRead fd 512);
  if 0 <? r.1 then mret (inl (fold_left wc_byte (take (Z.to_nat r.1) r.2) st))
  else if r.1 <? 0 then u_printf (lit "wc: read error" ++ nl) [];; exit 1
  else mret (inr st).

Definition wc (fuel : nat) (fd : Z) (name : list Z) : prog unit :=
  st ← ploop fuel (wc_step fd) (mkWc 0 0 0 false);
  u_printf (lit "%d %d %d %s" ++ nl) [AInt (wc_l st); AInt (wc_w st); AInt (wc_c st); AStr name].

(** One turn of the loop of [main]. *)
Definition wc_file (fuel : nat) (name : list Z) : prog unit :=
  fd ← sysv (COpen name 0);
  if fd <? 0 then u_printf (lit "wc: cannot open %s" ++ nl) [AStr name];; exit 1 else
  wc fuel fd name;;
  sysv (CClose fd);;
  mret tt.

Definition wc_main (fuel : nat) (argv : list (list Z)) : prog unit :=
  match argv with
  | _ :: _ :: _ =>
      pfor (tail argv) (wc_file fuel);;
      exit 0
  | _ => wc fuel 0 [];; exit 0
  end.

(** ** [kill.c], [ln.c], [mkdir.c], [rm.c] *)

Definition kill_main (argv : list (list Z)) : prog unit :=
  if Z.of_nat (length argv) <? 2 then fprintf 2 (lit "usage: kill pid..." ++ nl) [];; exit 1 else
  pfor (tail argv) (fun a => sysv (CKill (atoi a));; mret tt);;
  exit 0.

Definition ln_main (argv : list (list Z)) : prog unit :=
  match argv with
  | [_; old; new] =>
      r ← sysv (CLink old new);
      (if r <? 0 then fprintf 2 (lit "link %s %s: failed" ++ nl) [AStr old; AStr new] else mret tt);;
      exit 0
  | _ => fprintf 2 (lit "Usage: ln old new" ++ nl) [];; exit 1
  end.

(** [for(...){ if(f(argv[i]) < 0){ fprintf(2, fmt, argv[i]); break; } }] *)
Fixpoint each_file (f : list Z -> call) (fmt : list Z) (args : list (list Z)) : prog unit :=
  match args with
  | [] => mret tt
  | a :: rest =>
      r ← sysv (f a);
      if r <? 0 then fprintf 2 fmt [AStr a] else each_file f fmt rest
  end.

Definition mkdir_main (argv : list (list Z)) : prog unit :=
  if Z.of_nat (length argv) <? 2 then fprintf 2 (lit "Usage: mkdir files..." ++ nl) [];; exit 1 else
  each_file CMkdir (lit "mkdir: %s failed to create" ++ nl) (tail argv);;
  exit 0.

Definition rm_main (argv : list (list Z)) : prog unit :=
  if Z.of_nat (length argv) <? 2 then fprintf 2 (lit "Usage: rm files..." ++ nl) [];; exit 1 else
  each_file CUnlink (lit "rm: %s failed to delete" ++ nl) (tail argv);;
  exit 0.

(** ** [main] of [grep.c]; [grep] with its calls *)

(** The inner loop: the matching lines are written, what is left is returned. *)
Fixpoint grep_lines_u (fuel : nat) (pattern p : list Z) : prog (list Z) :=
  match fuel with
  | O => mret p
  | S fuel' =>
      match Grep.strchr p 10 with
      | None => mret p
      | Some (line, rest) =>
          (if match_ pattern line then sysv (CWrite 1 (line ++ [10]));; mret tt else mret tt);;
          grep_lines_u fuel' pattern rest
      end
  end.

Definition GREPBUF : Z := 1024.

(** One turn of the loop over the reads; [buf] has the [m] bytes kept. *)
Definition grep_step (pattern : list Z) (fd : Z) (buf : list Z) : prog (list Z + unit) :=
  r ← sys (CRead fd (GREPBUF - Z.of_nat (length buf) - 1));
  if 0 <? r.1 then
    let s := buf ++ take (Z.to_nat r.1) r.2 in
    p ← grep_lines_u (S (length s)) pattern s;
    mret (inl p)
  else mret (inr tt).

Definition grep_u (fuel : nat) (pattern : list Z) (fd : Z) : prog unit :=
  ploop fuel (grep_step pattern fd) [].

(** One turn of the loop of [main]. *)
Definition grep_file (fuel : nat) (pattern name : list Z) : prog unit :=
  fd ← sysv (COpen name 0);
  if fd <? 0 then u_printf (lit "grep: cannot open %s" ++ nl) [AStr name];; exit 1 else
  grep_u fuel pattern fd;;
  sysv (CClose fd);;
  mret tt.

Definition grep_main (fuel : nat) (argv : list (list Z)) : prog unit :=
  match argv with
  | _ :: pattern :: files =>
      match files with
      | [] => grep_u fuel pattern 0;; exit 0
      | _ =>
          pfor files (grep_file fuel pattern);;
          exit 0
      end
  | _ => fprintf 2 (lit "usage: grep pattern [file ...]" ++ nl) [];; exit 1
  end.

(** ** [ls.c] *)

(** The name after the last slash, padded with blanks to [DIRSIZ]. *)
Fixpoint after_slash (name path : list Z) : list Z :=
  match path with
  | [] => name
  | c :: path' => if c =? 47 then after_slash path' path' else after_slash name path'
  end.

Definition fmtname (path : list Z) : list Z :=
  let p := after_slash path path in
  if DIRSIZ <=? Z.of_nat (length p) then p
  else p ++ repeat 32 (Z.to_nat DIRSIZ - length p).

(** The fields of [struct stat] and [struct dirent] in the bytes stored. *)
Definition field (bs : list Z) (off n : nat) : Z := le_val (take n (drop off bs)).
Definition st_ino (bs : list Z) : Z := field bs 4 4.
Definition st_type (bs : list Z) : Z := field bs 8 2.
Definition st_size (bs : list Z) : Z := field bs 16 8.
Definition de_inum (bs : list Z) : Z := field bs 0 2.
Definition de_name (bs : list Z) : list Z := until_nul (take (Z.to_nat DIRSIZ) (drop 2 bs)).

Definition ls_entries (fuel : nat) (fd : Z) (path : list Z) : prog unit :=
  ploop fuel (fun _ : unit =>
    r ← sys (CRead fd 16);
    if negb (r.1 =? 16) then mret (inr tt) else
    if de_inum r.2 =? 0 then mret (inl tt) else
    let buf := path ++ 47 :: de_name r.2 in
    st ← stat buf;
    (if st.1 <? 0 then u_printf (lit "ls: cannot stat %s" ++ nl) [AStr buf]
     else u_printf (lit "%s %d %d %d" ++ nl)
            [AStr (fmtname buf); AInt (st_type st.2); AInt (st_ino st.2); AInt (st_size st.2)]);;
    mret (inl tt)) tt.

Definition ls (fuel : nat) (path : list Z) : prog unit :=
  fd ← sysv (COpen path 0);
  if fd <? 0 then fprintf 2 (lit "ls: cannot open %s" ++ nl) [AStr path] else
  st ← sys (CFstat fd);
  if st.1 <? 0 then fprintf 2 (lit "ls: cannot stat %s" ++ nl) [AStr path];; sysv (CClose fd);; mret tt else
  (if st_type st.2 =? T_FILE then
     u_printf (lit "%s %d %d %l" ++ nl)
       [AStr (fmtname path); AInt (st_type st.2); AInt (st_ino st.2); AInt (st_size st.2)]
   else if st_type st.2 =? T_DIR then
     if 512 <? Z.of_nat (length path) + 1 + DIRSIZ + 1 then u_printf (lit "ls: path too long" ++ nl) []
     else ls_entries fuel fd path
   else mret tt);;
  sysv (CClose fd);;
  mret tt.

Definition ls_main (fuel : nat) (argv : list (list Z)) : prog unit :=
  match argv with
  | _ :: _ :: _ => pfor (tail argv) (ls fuel);; exit 0
  | _ => ls fuel (lit ".");; exit 0
  end.

(** ** [init.c], [zombie.c], [forktest.c], [stressfs.c] *)

Definition CONSOLE : Z := 1.

(** The inner loop: [wait] until the shell [pid] has exited. *)
Definition init_wait (fuel : nat) (pid : Z) : prog unit :=
  ploop fuel (fun _ : unit =>
    wpid ← sysv CWait;
    if wpid =? pid then mret (inr tt)
    else if wpid <? 0 then u_printf (lit "init: wait returned an error" ++ nl) [];; exit 1
    else mret (inl tt)) tt.

Definition init_main (fuel : nat) : prog unit :=
  fd ← sysv (COpen (lit "console") O_RDWR);
  (if fd <? 0 then
     sysv (CMknod (lit "console") CONSOLE 0);; sysv (COpen (lit "console") O_RDWR);; mret tt
   else mret tt);;
  sysv (CDup 0);;
  sysv (CDup 0);;
  ploop fuel (fun _ : unit =>
    u_printf (lit "init: starting sh" ++ nl) [];;
    pid ← sysv CFork;
    if pid <? 0 then u_printf (lit "init: fork failed" ++ nl) [];; exit 1 else
    if pid =? 0 then
      sysv (CExec (lit "sh") [lit "sh"]);;
      u_printf (lit "init: exec sh failed" ++ nl) [];;
      exit 1
    else
    init_wait fuel pid;;
    mret (inl tt)) tt.

Definition zombie_main : prog unit :=
  pid ← sysv CFork;
  (if 0 <? pid then sysv (CSleep 5);; mret tt else mret tt);;
  exit 0.

Definition FORKTEST_N : Z := 1000.
Definition print (s : list Z) : prog unit := sysv (CWrite 1 s);; mret tt.

Definition forktest : prog unit :=
  print (lit "fork test" ++ nl);;
  n ← ploop (S (Z.to_nat FORKTEST_N)) (fun n =>
    if n <? FORKTEST_N then
      pid ← sysv CFork;
      if pid <? 0 then mret (inr n) else
      if pid =? 0 then exit 0 else mret (inl (n + 1))
    else mret (inr n)) 0;
  if n =? FORKTEST_N then print (lit "fork claimed to work N times!" ++ nl);; exit 1 else
  pfor (repeat tt (Z.to_nat n)) (fun _ =>
    w ← sysv CWait;
    if w <? 0 then print (lit "wait stopped early" ++ nl);; exit 1 else mret tt);;
  w ← sysv CWait;
  if negb (w =? -1) then print (lit "wait got too many" ++ nl);; exit 1 else
  print (lit "fork test OK" ++ nl).

Definition forktest_main : prog unit := forktest;; exit 0.

Definition stressfs_main : prog unit :=
  u_printf (lit "stressfs starting" ++ nl) [];;
  let data := repeat 97 512 in
  i ← ploop 5 (fun i =>
    if i <? 4 then
      pid ← sysv CFork;
      if 0 <? pid then mret (inr i) else mret (inl (i + 1))
    else mret (inr i)) 0;
  u_printf (lit "write %d" ++ nl) [AInt i];;
  let path := lit "stressfs" ++ [48 + i] in
  fd ← sysv (COpen path (Z.lor O_CREATE O_RDWR));
  pfor (seqZ 0 20) (fun _ => sysv (CWrite fd data);; mret tt);;
  sysv (CClose fd);;
  u_printf (lit "read" ++ nl) [];;
  fd ← sysv (COpen path O_RDONLY);
  pfor (seqZ 0 20) (fun _ => sysv (CRead fd 512);; mret tt);;
  sysv (CClose fd);;
  sysv CWait;;
  exit 0.
