(* ===== verification/Procdump.v ===== *)
(** * The listings of processes

    [procdump] and [print_proc] ([kernel/proc.c]) and [print_list]
    ([kernel/list_proc.c]).  They return the bytes they print.  [procdump]
    prints one line for each process of the list, in order, and leaves every
    read section it entered. *)
From stdpp Require Import base gmap strings numbers option list.
From S2P Require Import Prelude Layout Machine Memory Kernel Demo Kalloc Vm Malloc RcuList Rcu Proc ProcLogic Printf Sh User.
Open Scope Z_scope.

(** What the kernel's [printf] prints. *)
Definition ksaid (fmt : list Z) (args : list arg) : list Z := kprintf (arg_str args) fmt (arg_word args).

(** A name ends within its field. *)
Definition name_at (m : mem) (p : Z) : list Z := until_nul (rd_bytes m (p_name p) 16).

Section procdump.
Context `{im : Image} `{OS : Outside}.

(** The table [states] of [procdump] has no entry for [USED]. *)
Definition dump_state (code : Z) : list Z :=
  if code =? state_code UNUSED then lit "unused"
  else if code =? state_code SLEEPING then lit "sleep "
  else if code =? state_code RUNNABLE then lit "runble"
  else if code =? state_code RUNNING then lit "run   "
  else if code =? state_code ZOMBIE then lit "zombie"
  else lit "???".

Definition procdump_node (n : Z) : M kst (list Z) :=
  p ← load64 (n_process n);
  code ← load32 (p_state p);
  pid ← loadi (p_pid p);
  name ← gets (fun s => name_at (k_mem s) p);
  klog;;
  klog;;
  mret (ksaid (lit "%d %s %s") [AInt pid; AStr (dump_state code); AStr name] ++ ksaid nl []).

Definition procdump : M kst (list Z) :=
  rcu_read_lock;;
  hd ← list_head;
  out ← loop LIST_FUEL (fun st : Z * list Z =>
    let '(n, out) := st in
    if n =? 0 then mret (inr out) else
    line ← procdump_node n;
    rcu_read_unlock;;
    rcu_read_lock;;
    n' ← load64 (n_next n);
    mret (inl (n', out ++ line))) (hd, []);
  rcu_read_unlock;;
  mret out.

(** The table of [print_proc]; its entry for [USED] is the null pointer. *)
Definition print_state (code : Z) : arg :=
  if code =? state_code UNUSED then AStr (lit "unused")
  else if code =? state_code SLEEPING then AStr (lit "sleep ")
  else if code =? state_code RUNNABLE then AStr (lit "runnable")
  else if code =? state_code RUNNING then AStr (lit "running")
  else if code =? state_code ZOMBIE then AStr (lit "zombie")
  else AInt 0.

(** One line of the format, indented as in the source. *)
Definition fmt_line (s : string) : list Z := repeat 32 10 ++ lit s ++ nl.

Definition print_proc_fmt : list Z :=
  nl ++ lit "proc @%p = { " ++ nl ++
  fmt_line "name      = %s" ++ fmt_line "state     = %s" ++ fmt_line "chan      = %p" ++
  fmt_line "parent    = %p" ++ fmt_line "uid       = %p" ++ fmt_line "p_uid     = %p" ++
  fmt_line "killed    = %d" ++ fmt_line "nKStack   = %d" ++ fmt_line "pid       = %d" ++
  fmt_line "kstack    = %p" ++ fmt_line "sz        = %d" ++ fmt_line "pagetable = %p" ++
  fmt_line "}" ++ nl.

Definition print_proc (p : Z) : M kst (list Z) :=
  name ← gets (fun s => name_at (k_mem s) p);
  fs ← print_fields p;
  mret (ksaid print_proc_fmt (AInt p :: AStr name :: print_state (hd 0 fs) :: (AInt <$> tail fs))).

Definition print_list (head : Z) : M kst (list Z) :=
  klog;;
  out ← loop LIST_FUEL (fun st : Z * Z * list Z =>
    let '(n, count, out) := st in
    if n =? 0 then mret (inr out) else
    klog;;
    p ← load64 (n_process n);
    o ← print_proc p;
    n' ← load64 (n_next n);
    mret (inl (n', count + 1, out ++ ksaid (lit "%d)" ++ [9]) [AInt count] ++ o))) (head, 0, []);
  klog;;
  mret (lit "[PROCESS LIST *Start] " ++ nl ++ out ++ lit "[PROCESS LIST *End] " ++ nl).

(** ** [procdump] *)

(** The line for the node [a]. *)
Definition dump_line (m : mem) (a : Z) : list Z :=
  ksaid (lit "%d %s %s") [AInt (npid m a); AStr (dump_state (nstate m a)); AStr (name_at m (nproc m a))] ++ nl.

Lemma dump_line_eq m a :
  dump_line m a = ksaid (lit "%d %s %s") [AInt (npid m a); AStr (dump_state (nstate m a)); AStr (name_at m (nproc m a))] ++ ksaid nl [].
Proof. unfold dump_line. by f_equal. Qed.

Lemma procdump_node_spec n s L Q :
  hart_ok (k_hart s) -> node_wf (k_mem s) L n ->
  (forall s', same_kernel s s' -> noff s' = noff s -> Q (dump_line (k_mem s) n) s') -> wp (procdump_node n) Q s.
Proof.
  intros Hok [Hr [Hp1 Hp2] _ _] HQ. unfold procdump_node. unfold sizeof_proc in Hp2.
  apply wp_bind, wp_load; [by apply ram_process|]. fold (nproc (k_mem s) n).
  apply wp_bind, wp_load; [split; unfold p_state; lia|].
  apply wp_bind, wp_loadi; [split; unfold p_pid; lia|].
  apply wp_bind, wp_gets. apply wp_bind, wp_log; [done|]. intros s1 Hs1 Hn1. pose proof Hs1 as (h1 & -> & Hok1 & _).
  apply wp_bind, wp_log; [done|]. intros s2 Hs2 Hn2.
  apply wp_ret. rewrite dump_line_eq in HQ. apply HQ; [by eapply same_kernel_trans|congruence].
Qed.

Lemma procdump_loop l L : forall fuel s hd out (Q : list Z -> kst -> Prop),
  chain (k_mem s) hd l -> (length l < fuel)%nat -> (forall a, a ∈ l -> node_wf (k_mem s) L a) ->
  hart_ok (k_hart s) -> 0 < noff s ->
  (forall s', same_kernel s s' -> noff s' = noff s -> Q (out ++ concat (dump_line (k_mem s) <$> l)) s') ->
  wp (loop fuel (fun st : Z * list Z =>
    let '(n, out) := st in
    if n =? 0 then mret (inr out) else
    line ← procdump_node n;
    rcu_read_unlock;;
    rcu_read_lock;;
    n' ← load64 (n_next n);
    mret (inl (n', out ++ line))) (hd, out)) Q s.
Proof.
  induction l as [|a l IH]; intros fuel s hd out Q Hch Hf Hw Hok Hn HQ;
    (destruct fuel as [|fuel]; [simpl in Hf; lia|]); cbn [loop].
  - unfold chain in Hch. simpl in Hch. subst hd. apply wp_bind, wp_ret, wp_ret.
    rewrite <- (app_nil_r out). apply HQ; [by apply same_kernel_refl|done].
  - destruct Hch as [-> Hch]. pose proof (Hw a (list_elem_of_here _ _)) as Hwf. rewrite fmap_cons in HQ. cbn [concat] in HQ.
    rewrite (proj2 (Z.eqb_neq a 0)) by (by eapply node_nonzero).
    apply wp_bind, wp_bind. eapply procdump_node_spec; [done|exact Hwf|]. intros s0 (h0 & -> & Hok0 & Ht0) Hn0.
    apply wp_bind, wp_read_unlock; [done|lia|]. intros s1 (h1 & -> & Hok1 & Ht1) Hn1.
    apply wp_bind, wp_read_lock; [done|]. intros s2 (h2 & -> & Hok2 & Ht2) Hn2.
    apply wp_bind, wp_load; [apply ram_next; apply Hwf|]. apply wp_ret.
    eapply (IH fuel (set_hart h2 (set_hart h1 (set_hart h0 s)))); [exact Hch|simpl in Hf; lia| |done|lia|].
    + intros b Hb. by apply Hw, list_elem_of_further.
    + intros s' Hs' Hn'. rewrite <- app_assoc.
      assert (k_mem (set_hart h2 (set_hart h1 (set_hart h0 s))) = k_mem s) as -> by done. apply HQ; [|lia].
      eapply same_kernel_trans; [|exact Hs']. exists h2. split; [done|]. split; [done|]. simpl in *. congruence.
Qed.

(** [procdump] prints a line for each process of the list, in the order of the
    list, changes no memory, and leaves as many read sections as it enters. *)
Theorem procdump_lists s l :
  list_wf s l -> (length l < LIST_FUEL)%nat -> 0 <= noff s ->
  wp procdump (fun out s' =>
    out = concat (dump_line (k_mem s) <$> l) /\ same_kernel s s' /\ noff s' = noff s) s.
Proof.
  intros [Hok Hlk Hch Hnd Hw] Hf Hn. unfold procdump.
  apply wp_bind, wp_read_lock; [done|]. intros s1 (h1 & -> & Hok1 & Ht1) Hn1. apply wp_bind, wp_gets.
  apply wp_bind. eapply (procdump_loop l l); [exact Hch|done|exact Hw|done|lia|].
  intros s2 (h2 & -> & Hok2 & Ht2) Hn2. apply wp_bind, wp_read_unlock; [done|lia|].
  intros s3 (h3 & -> & Hok3 & Ht3) Hn3. apply wp_ret. split; [done|]. split; [|lia].
  exists h3. split; [done|]. split; [done|]. simpl in *. congruence.
Qed.

End procdump.
