(* ===== verification/UtilsLogic.v ===== *)
(** * What [cat], [wc] and [grep] print

    [fwork] interprets the calls these programs make: files are byte strings
    with a name, an open descriptor is what is left to read of one, and the
    writes to descriptors 1 and 2 are collected.  A [read] returns at least
    one byte while there is one, but otherwise as few as [fw_cuts] says: files
    give all that was asked for, pipes and the console may give less. *)
From stdpp Require Import base gmap strings numbers option list.
From S2P Require Import Prelude Printf Sysfile Grep Sh User Ulib Utils.
Open Scope Z_scope.

Record fworld := mkFw {
  fw_files : list Z -> option (list Z);
  fw_open : gmap Z (list Z);
  fw_cuts : list nat;
  fw_out : list Z;
  fw_err : list Z
}.

(** How many bytes a [read] of [n] may return. *)
Definition cut (w : fworld) (n : Z) : nat :=
  match fw_cuts w with [] => Z.to_nat n | k :: _ => S k `min` Z.to_nat n end.

Definition free_fd (w : fworld) : option Z :=
  head (filter (fun fd => fw_open w !! fd = None) (seqZ 0 16)).

Definition set_open (o : gmap Z (list Z)) (w : fworld) : fworld :=
  mkFw (fw_files w) o (fw_cuts w) (fw_out w) (fw_err w).

Definition fwork (c : call) (w : fworld) : answer * fworld :=
  match c with
  | CRead fd n =>
      match fw_open w !! fd with
      | None => ((-1, []), w)
      | Some rest =>
          let k := cut w n in
          ((Z.of_nat (length (take k rest)), take k rest),
           mkFw (fw_files w) (<[fd := drop k rest]> (fw_open w)) (tail (fw_cuts w)) (fw_out w) (fw_err w))
      end
  | CWrite fd bs =>
      ((Z.of_nat (length bs), []),
       mkFw (fw_files w) (fw_open w) (fw_cuts w)
         (if fd =? 1 then fw_out w ++ bs else fw_out w) (if fd =? 2 then fw_err w ++ bs else fw_err w))
  | COpen path _ =>
      match fw_files w path, free_fd w with
      | Some c, Some fd => ((fd, []), set_open (<[fd := c]> (fw_open w)) w)
      | _, _ => ((-1, []), w)
      end
  | CClose fd =>
      match fw_open w !! fd with
      | None => ((-1, []), w)
      | Some _ => ((0, []), set_open (delete fd (fw_open w)) w)
      end
  | _ => ((-1, []), w)
  end.

Inductive presult (A : Type) := RDone (a : A) (w : fworld) | RExit (status : Z) (w : fworld) | RFuel.
Arguments RDone {A}. Arguments RExit {A}. Arguments RFuel {A}.

Fixpoint prun {A} (p : prog A) (w : fworld) : presult A :=
  match p with
  | PRet a => RDone a w
  | PSys c k => let '(r, w') := fwork c w in prun (k r) w'
  | PExit st => RExit st w
  | PFuel => RFuel
  end.

Lemma prun_bind {A B} (p : prog A) (f : A -> prog B) w :
  prun (p ≫= f) w =
  match prun p w with RDone a w' => prun (f a) w' | RExit st w' => RExit st w' | RFuel => RFuel end.
Proof.
  revert w. induction p as [a|c k IH|st|]; intros w; try done.
  unfold mbind, prog_bind in *. simpl. destruct (fwork c w) as [r w']. apply IH.
Qed.

Lemma prun_sysv {B} c (k : Z -> prog B) w :
  prun (sysv c ≫= k) w = prun (k (fwork c w).1.1) (fwork c w).2.
Proof. simpl. by destruct (fwork c w). Qed.

Lemma prun_sys {B} c (k : answer -> prog B) w :
  prun (sys c ≫= k) w = prun (k (fwork c w).1) (fwork c w).2.
Proof. simpl. by destruct (fwork c w). Qed.

(** Output. *)
Definition add_out (bs : list Z) (w : fworld) : fworld :=
  mkFw (fw_files w) (fw_open w) (fw_cuts w) (fw_out w ++ bs) (fw_err w).
Definition add_err (bs : list Z) (w : fworld) : fworld :=
  mkFw (fw_files w) (fw_open w) (fw_cuts w) (fw_out w) (fw_err w ++ bs).

Lemma prun_fprintf2 fmt args w :
  prun (fprintf 2 fmt args) w = RDone tt (add_err (vprintf (arg_str args) false fmt (arg_word args)) w).
Proof.
  unfold fprintf. generalize (vprintf (arg_str args) false fmt (arg_word args)) as l. intros l. revert w.
  induction l as [|c l IH]; intros w; [unfold add_err; rewrite app_nil_r; by destruct w|].
  cbn [pfor]. rewrite prun_bind. simpl. rewrite IH. unfold add_err. simpl. by rewrite <- app_assoc.
Qed.

Lemma prun_printf fmt args w :
  prun (u_printf fmt args) w = RDone tt (add_out (vprintf (arg_str args) false fmt (arg_word args)) w).
Proof.
  unfold u_printf, fprintf. generalize (vprintf (arg_str args) false fmt (arg_word args)) as l. intros l. revert w.
  induction l as [|c l IH]; intros w; [unfold add_out; rewrite app_nil_r; by destruct w|].
  cbn [pfor]. rewrite prun_bind. simpl. rewrite IH. unfold add_out. simpl. by rewrite <- app_assoc.
Qed.

(** ** Reading a descriptor to its end *)

(** What a loop that reads [fd] leaves of the world. *)
Definition drained (fd : Z) (w w' : fworld) : Prop :=
  fw_files w' = fw_files w /\ fw_open w' = <[fd := []]> (fw_open w) /\ fw_err w' = fw_err w.

Lemma read_step fd n rest w :
  fw_open w !! fd = Some rest -> 0 < n -> rest <> [] -> exists chunk rest' w1,
  fwork (CRead fd n) w = ((Z.of_nat (length chunk), chunk), w1) /\ rest = chunk ++ rest' /\ chunk <> [] /\
  Z.of_nat (length chunk) <= n /\
  fw_open w1 = <[fd := rest']> (fw_open w) /\ fw_files w1 = fw_files w /\ fw_out w1 = fw_out w /\ fw_err w1 = fw_err w.
Proof.
  intros Ho Hn Hr. set (k := cut w n).
  assert (Hk : (1 <= k <= Z.to_nat n)%nat) by (unfold k, cut; destruct (fw_cuts w); lia).
  exists (take k rest), (drop k rest). eexists. simpl. rewrite Ho. fold k.
  split; [done|]. split; [by rewrite take_drop|]. split; [destruct rest, k; simpl; try done; lia|].
  split; [rewrite length_take; lia|]. done.
Qed.

Lemma read_end fd n w :
  fw_open w !! fd = Some [] -> exists w1,
  fwork (CRead fd n) w = ((0, []), w1) /\ drained fd w w1 /\ fw_out w1 = fw_out w.
Proof.
  intros Ho. simpl. rewrite Ho, take_nil, drop_nil. eexists. split; [done|]. done.
Qed.

Lemma drained_trans fd rest w w1 w2 :
  fw_open w1 = <[fd := rest]> (fw_open w) -> fw_files w1 = fw_files w -> fw_err w1 = fw_err w ->
  drained fd w1 w2 -> drained fd w w2.
Proof.
  intros Ho Hf He (H1 & H2 & H3). split; [congruence|]. split; [|congruence].
  rewrite H2, Ho. apply insert_insert_eq.
Qed.

(** ** [cat] *)

Lemma chunk_pos (chunk : list Z) : chunk <> [] -> (0 <? Z.of_nat (length chunk)) = true.
Proof. intros H. apply Z.ltb_lt. destruct chunk; [done|simpl; lia]. Qed.

Lemma take_chunk (chunk : list Z) : take (Z.to_nat (Z.of_nat (length chunk))) chunk = chunk.
Proof. rewrite Nat2Z.id. by apply take_ge. Qed.

Lemma cat_run fuel : forall fd rest w,
  fw_open w !! fd = Some rest -> (length rest < fuel)%nat ->
  exists w', prun (cat fuel fd) w = RDone tt w' /\ drained fd w w' /\ fw_out w' = fw_out w ++ rest.
Proof.
  induction fuel as [|fuel IH]; intros fd rest w Ho Hf; [lia|].
  unfold cat. cbn [ploop]. rewrite prun_bind. destruct (decide (rest = [])) as [->|Hr].
  - destruct (read_end fd 512 w Ho) as (w1 & E & Hd & Hout). cbn [prun sys mbind prog_bind pbind]. rewrite E. simpl.
    exists w1. by rewrite Hout, app_nil_r.
  - destruct (read_step fd 512 rest w Ho ltac:(lia) Hr) as (chunk & rest' & w1 & E & -> & Hc & _ & Ho1 & Hf1 & Hw1 & He1).
    cbn [prun sys mbind prog_bind pbind]. rewrite E. cbn [fst snd]. rewrite chunk_pos by done.
    cbn [prun sysv mbind prog_bind pbind]. rewrite take_chunk. simpl. rewrite Z.eqb_refl. simpl.
    set (w2 := mkFw _ _ _ _ _).
    destruct (IH fd rest' w2) as (w3 & E3 & Hd3 & Hout3).
    { unfold w2. simpl. rewrite Ho1. apply lookup_insert_eq. }
    { rewrite length_app in Hf. destruct chunk; [done|]. simpl in Hf. lia. }
    exists w3. split; [exact E3|]. split; [|rewrite Hout3; unfold w2; simpl; by rewrite Hw1, <- app_assoc].
    by apply (drained_trans fd rest' w w2).
Qed.

(** The output of [cat] on a list of files, its complaint, and its status. *)
Fixpoint cat_spec (files : list Z -> option (list Z)) (names : list (list Z)) : list Z * list Z * Z :=
  match names with
  | [] => ([], [], 0)
  | n :: names' =>
      match files n with
      | None => ([], lit "cat: cannot open " ++ n ++ nl, 1)
      | Some c => let '(o, e, st) := cat_spec files names' in (c ++ o, e, st)
      end
  end.

Lemma free_fd_None w fd : free_fd w = Some fd -> fw_open w !! fd = None /\ 0 <= fd.
Proof.
  intros H. unfold free_fd in H. apply head_Some_elem_of in H. apply list_elem_of_filter in H as [H1 H2].
  split; [done|]. apply elem_of_seqZ in H2. lia.
Qed.

(** Opening a file, running [body] on the descriptor to its end, closing. *)
Lemma file_run {A} (body : Z -> prog A) name c o w :
  fw_files w name = Some c -> is_Some (free_fd w) ->
  (forall fd w1, fw_open w1 !! fd = Some c -> exists a w',
     prun (body fd) w1 = RDone a w' /\ drained fd w1 w' /\ fw_out w' = fw_out w1 ++ o) ->
  exists fd w', 0 <= fd /\ fw_open w' = fw_open w /\ fw_files w' = fw_files w /\ fw_err w' = fw_err w /\
    fw_out w' = fw_out w ++ o /\ exists w1, fwork (COpen name 0) w = ((fd, []), w1) /\
    prun (body fd;; sysv (CClose fd);; mret tt) w1 = RDone tt w'.
Proof.
  intros Hn [fd Hfd] Hbody. destruct (free_fd_None w fd Hfd) as [Ho Hfd0].
  set (w1 := set_open (<[fd := c]> (fw_open w)) w).
  destruct (Hbody fd w1) as (a & w2 & E2 & (D1 & D2 & D3) & Hout2); [apply lookup_insert_eq|].
  exists fd, (set_open (delete fd (fw_open w2)) w2). split; [done|]. split; [|split; [|split; [|split]]]; try done.
  - simpl. rewrite D2. unfold w1. simpl. rewrite insert_insert_eq. by apply delete_insert_id.
  - exists w1. split; [simpl; by rewrite Hn, Hfd|]. rewrite prun_bind, E2.
    cbn [prun sysv mbind prog_bind pbind]. unfold fwork.
    assert (fw_open w2 !! fd = Some []) as -> by (rewrite D2; apply lookup_insert_eq). done.
Qed.

Lemma cat_files fuel names : forall w,
  (forall n c, n ∈ names -> fw_files w n = Some c -> (length c < fuel)%nat) -> is_Some (free_fd w) ->
  let '(o, e, st) := cat_spec (fw_files w) names in
  exists w', fw_out w' = fw_out w ++ o /\ fw_err w' = fw_err w ++ e /\
  prun (pfor names (cat_file fuel);; exit 0) w = @RExit unit st w' /\ (st = 0 -> fw_open w' = fw_open w).
Proof.
  induction names as [|n names IH]; intros w Hlen Hfd.
  { simpl. exists w. by rewrite !app_nil_r. }
  cbn [cat_spec pfor]. rewrite !prun_bind. unfold cat_file at 1. rewrite prun_sysv. destruct (fw_files w n) as [c|] eqn:Hn.
  - destruct (file_run (cat fuel) n c c w Hn Hfd) as (fd & w' & Hfd0 & Ho & Hfl & He & Hout & w1 & E1 & E2).
    { intros fd w1 Ho. destruct (cat_run fuel fd c w1 Ho) as (w' & ? & ? & ?); [|by exists tt, w'].
      apply (Hlen n); [apply list_elem_of_here|done]. }
    rewrite E1. cbn [fst snd]. rewrite (proj2 (Z.ltb_ge _ _)) by lia. rewrite E2. specialize (IH w').
    rewrite Hfl, prun_bind in IH. destruct (cat_spec (fw_files w) names) as [[o e] st].
    destruct IH as (w2 & H1 & H2 & H3 & H4).
    { intros n' c' Hin. apply Hlen. by apply list_elem_of_further. } { unfold free_fd in *. by rewrite Ho. }
    exists w2. rewrite H1, H2, Hout, He, <- app_assoc, <- Ho. done.
  - unfold fwork. rewrite Hn. cbn [fst snd]. exists (add_err (lit "cat: cannot open " ++ n ++ nl) w).
    rewrite app_nil_r. split; [done|]. split; [done|]. split; [|done]. change (-1 <? 0) with true. cbv iota.
    rewrite prun_bind, prun_fprintf2. reflexivity.
Qed.

(** [cat] prints its files one after the other, whatever the reads
    return at a time, and gives every descriptor back; at the first file it
    cannot open it stops with its complaint and status 1. *)
Theorem cat_concatenates fuel arg0 names w :
  names <> [] -> is_Some (free_fd w) ->
  (forall n c, n ∈ names -> fw_files w n = Some c -> (length c < fuel)%nat) ->
  let '(o, e, st) := cat_spec (fw_files w) names in
  exists w', prun (cat_main fuel (arg0 :: names)) w = RExit st w' /\
    fw_out w' = fw_out w ++ o /\ fw_err w' = fw_err w ++ e /\ (st = 0 -> fw_open w' = fw_open w).
Proof.
  intros Hne Hfd Hlen. pose proof (cat_files fuel names w Hlen Hfd) as H.
  destruct (cat_spec (fw_files w) names) as [[o e] st]. destruct H as (w' & H1 & H2 & H3 & H4).
  exists w'. split; [|done]. destruct names; [done|]. exact H3.
Qed.

(** ** [wc] *)

Definition is_white (c : Z) : bool := in_set wc_white c.

(** The words of a text: what is left between white space. *)
Fixpoint split_white (s : list Z) : list (list Z) :=
  match s with
  | [] => [[]]
  | c :: s' =>
      if is_white c then [] :: split_white s'
      else match split_white s' with
           | w :: ws => (c :: w) :: ws
           | [] => [[c]]
           end
  end.

Definition words (s : list Z) : list (list Z) := filter (fun w => w <> []) (split_white s).
Definition newlines (s : list Z) : list Z := filter (fun c => c = 10) s.

Lemma split_white_cons s : exists w ws, split_white s = w :: ws.
Proof. destruct s as [|c s]; simpl; [eauto|]. destruct (is_white c); [eauto|]. destruct (split_white s); eauto. Qed.

(** Whether the text continues a word. *)
Definition starts_word (s : list Z) : bool := match s with [] => false | c :: _ => negb (is_white c) end.

Lemma words_cons c s :
  length (words (c :: s)) =
  if is_white c then length (words s)
  else if starts_word s then length (words s) else S (length (words s)).
Proof.
  unfold words. cbn [split_white]. destruct (is_white c) eqn:E.
  { by rewrite filter_cons_False by (intros H; by apply H). }
  destruct s as [|d s]; [done|]. cbn [starts_word]. cbn [split_white].
  destruct (is_white d) eqn:Ed; cbn [negb].
  - rewrite filter_cons_True by done. rewrite filter_cons_False by (intros H; by apply H). done.
  - destruct (split_white_cons s) as (w & ws & ->). rewrite !filter_cons_True by done. done.
Qed.

Lemma wc_bytes s : forall st,
  Z.of_nat (length s) + wc_c st < 2 ^ 31 -> 0 <= wc_l st <= wc_c st -> 0 <= wc_w st <= wc_c st ->
  let st' := fold_left wc_byte s st in
  wc_c st' = wc_c st + Z.of_nat (length s) /\ wc_l st' = wc_l st + Z.of_nat (length (newlines s)) /\
  wc_w st' = wc_w st + Z.of_nat (length (words s)) - (if wc_in st && starts_word s then 1 else 0).
Proof.
  induction s as [|c s IH]; intros st Hb Hl Hw; cbv zeta.
  { simpl. rewrite andb_false_r. lia. }
  cbn [fold_left length] in *. set (st1 := wc_byte st c).
  assert (H1 : wc_c st1 = wc_c st + 1 /\ wc_l st1 = wc_l st + (if decide (c = 10) then 1 else 0) /\
    wc_w st1 = wc_w st + (if is_white c then 0 else if wc_in st then 0 else 1) /\ wc_in st1 = negb (is_white c)).
  { unfold st1, wc_byte. fold (is_white c). rewrite !i32_small by lia.
    destruct (Z.eqb_spec c 10) as [->|Hc]; [rewrite decide_True by done|rewrite decide_False by done];
      destruct (is_white _), (wc_in st); simpl; repeat split; lia. }
  destruct H1 as (C1 & L1 & W1 & I1). specialize (IH st1).
  rewrite C1, L1, W1, I1 in IH. cbv zeta in IH.
  destruct IH as (Hc & Hl' & Hw'); [lia|case_decide; lia|destruct (is_white c), (wc_in st); lia|].
  split; [lia|]. split.
  - rewrite Hl'. unfold newlines. case_decide; [rewrite filter_cons_True by done|rewrite filter_cons_False by done]; simpl; lia.
  - rewrite Hw', words_cons. cbn [starts_word].
    destruct (is_white c), (wc_in st), (starts_word s); cbn [negb andb]; lia.
Qed.

Lemma wc_loop fuel : forall fd rest st w,
  fw_open w !! fd = Some rest -> (length rest < fuel)%nat ->
  exists w', prun (ploop fuel (wc_step fd) st) w = RDone (fold_left wc_byte rest st) w' /\
    drained fd w w' /\ fw_out w' = fw_out w.
Proof.
  induction fuel as [|fuel IH]; intros fd rest st w Ho Hf; [lia|].
  cbn [ploop]. rewrite prun_bind. unfold wc_step at 1. rewrite prun_sys. destruct (decide (rest = [])) as [->|Hr].
  - destruct (read_end fd 512 w Ho) as (w1 & E & Hd & Hout). rewrite E. exists w1. done.
  - destruct (read_step fd 512 rest w Ho ltac:(lia) Hr) as (chunk & rest' & w1 & E & -> & Hc & _ & Ho1 & Hf1 & Hw1 & He1).
    rewrite E. cbn [fst snd]. rewrite chunk_pos, take_chunk by done. cbn [prun mret prog_ret].
    destruct (IH fd rest' (fold_left wc_byte chunk st) w1) as (w2 & E2 & Hd2 & Hout2).
    { rewrite Ho1. apply lookup_insert_eq. }
    { rewrite length_app in Hf. destruct chunk; [done|]. simpl in Hf. lia. }
    exists w2. rewrite fold_left_app. split; [exact E2|]. split; [by apply (drained_trans fd rest' w w1)|congruence].
Qed.

(** [wc] prints the number of newlines, of words and of bytes of its
    input, for every input that the [int] counters can count, however the
    reads cut it: a word that two reads share is counted once. *)
Theorem wc_counts fuel fd name content w :
  fw_open w !! fd = Some content -> (length content < fuel)%nat -> Z.of_nat (length content) < 2 ^ 31 ->
  exists w', prun (wc fuel fd name) w = RDone tt w' /\ drained fd w w' /\
    fw_out w' = fw_out w ++
      printint true (Z.of_nat (length (newlines content))) 10 true ++ lit " " ++
      printint true (Z.of_nat (length (words content))) 10 true ++ lit " " ++
      printint true (Z.of_nat (length content)) 10 true ++ lit " " ++ name ++ nl.
Proof.
  intros Ho Hf Hlen. unfold wc. rewrite prun_bind.
  destruct (wc_loop fuel fd content (mkWc 0 0 0 false) w Ho Hf) as (w1 & E & (D1 & D2 & D3) & Hout).
  rewrite E, prun_printf. eexists. split; [done|]. split; [done|].
  destruct (wc_bytes content (mkWc 0 0 0 false)) as (Hc & Hl & Hw); [simpl; lia..|].
  assert (Hnl : (length (newlines content) <= length content)%nat) by apply length_filter.
  assert (Hwl : (length (words content) <= length content)%nat).
  { clear. induction content as [|c s IH]; [done|]. rewrite words_cons. simpl.
    destruct (is_white c), (starts_word s); lia. }
  cbn [wc_c wc_l wc_w wc_in andb] in Hc, Hl, Hw. set (st := fold_left wc_byte content _) in *.
  cbn [fw_out add_out]. rewrite Hout. f_equal.
  assert (Hv : forall a b c, vprintf (arg_str [AInt a; AInt b; AInt c; AStr name]) false (lit "%d %d %d %s" ++ nl)
    (arg_word [AInt a; AInt b; AInt c; AStr name]) =
    printint true (i32 a) 10 true ++ lit " " ++ printint true (i32 b) 10 true ++ lit " " ++
    printint true (i32 c) 10 true ++ lit " " ++ name ++ nl) by reflexivity.
  rewrite Hv, Hc, Hl, Hw, Z.sub_0_r, !Z.add_0_l, !i32_small by lia. reflexivity.
Qed.

(** ** [grep] *)

Lemma grep_lines_run fuel : forall pattern s w,
  (length s < fuel)%nat -> 0 ∉ s ->
  prun (grep_lines_u fuel pattern s) w = RDone (lines s).2 (add_out (matching pattern (lines s).1) w).
Proof.
  assert (Hid : forall w, add_out [] w = w) by (intros []; unfold add_out; simpl; by rewrite app_nil_r).
  induction fuel as [|fuel IH]; intros pattern s w Hf H0; [lia|]. cbn [grep_lines_u].
  pose proof (strchr_lines s H0) as H. unfold NL in H. destruct (Grep.strchr s 10) as [[line rest]|].
  - destruct H as (-> & Hl & Hr). rewrite prun_bind. cbn [fst snd]. unfold matching.
    destruct (match_ pattern line) eqn:E.
    + rewrite prun_sysv. cbn [prun mret prog_ret]. rewrite IH by (done || lia).
      rewrite filter_cons_True by done. f_equal. unfold add_out. simpl. by rewrite <- app_assoc.
    + cbn [prun mret prog_ret]. rewrite IH by (done || lia). rewrite filter_cons_False by congruence. done.
  - rewrite H. simpl. by rewrite Hid.
Qed.

(** Every line, and what follows the last newline, fits the buffer. *)
Definition short_lines (s : list Z) : Prop :=
  Forall (fun l => Z.of_nat (length l) < GREPBUF - 1) (lines s).1 /\ Z.of_nat (length (lines s).2) < GREPBUF - 1.

Lemma short_partial buf t :
  (lines buf).1 = [] -> short_lines (buf ++ t) -> Z.of_nat (length buf) < GREPBUF - 1.
Proof.
  intros Hb [H1 H2]. pose proof (partial_prefix buf t Hb) as H.
  destruct (lines (buf ++ t)) as [[|l ls] r]; simpl in *; [lia|]. apply Forall_cons in H1 as [H1 _]. lia.
Qed.

Lemma grep_loop fuel : forall pattern fd buf rest w,
  fw_open w !! fd = Some rest -> (length rest < fuel)%nat -> 0 ∉ buf ++ rest ->
  (lines buf).1 = [] -> (lines buf).2 = buf -> short_lines (buf ++ rest) ->
  exists w', prun (ploop fuel (grep_step pattern fd) buf) w = RDone tt w' /\ drained fd w w' /\
    fw_out w' = fw_out w ++ matching pattern (lines (buf ++ rest)).1.
Proof.
  induction fuel as [|fuel IH]; intros pattern fd buf rest w Ho Hf H0 Hb1 Hb2 Hs; [lia|].
  cbn [ploop]. rewrite prun_bind. unfold grep_step at 1. rewrite prun_sys.
  pose proof (short_partial _ _ Hb1 Hs) as Hlen. set (n := GREPBUF - _ - 1).
  destruct (decide (rest = [])) as [->|Hr].
  - destruct (read_end fd n w Ho) as (w1 & E & Hd & Hout). rewrite E. exists w1.
    split; [done|]. split; [done|]. rewrite Hout, (app_nil_r buf), Hb1. symmetry. apply app_nil_r.
  - destruct (read_step fd n rest w Ho ltac:(lia) Hr) as (chunk & rest' & w1 & E & -> & Hc & _ & Ho1 & Hf1 & Hw1 & He1).
    rewrite E. cbn [fst snd]. rewrite chunk_pos, take_chunk by done. cbv zeta.
    rewrite app_assoc in H0, Hs |- *.
    rewrite prun_bind, grep_lines_run; [|lia|intros H; apply H0; apply elem_of_app; by left].
    cbn [prun mret prog_ret]. set (s1 := buf ++ chunk) in *. set (w2 := add_out _ w1).
    destruct (lines_partial s1) as [Hp1 Hp2]. pose proof (lines_app s1 rest') as Happ.
    destruct (IH pattern fd (lines s1).2 rest' w2) as (w3 & E3 & Hd3 & Hout3).
    { unfold w2. simpl. rewrite Ho1. apply lookup_insert_eq. }
    { rewrite length_app in Hf. destruct chunk; [done|]. simpl in Hf. lia. }
    { rewrite elem_of_app. intros [H|H]; apply H0; apply elem_of_app; [left; by apply lines_rest|by right]. }
    { done. } { done. }
    { destruct Hs as [Hs1 Hs2]. rewrite Happ in Hs1, Hs2. simpl in Hs1, Hs2. apply Forall_app in Hs1 as [_ Hs1]. done. }
    exists w3. split; [exact E3|]. split; [by apply (drained_trans fd rest' w w2)|].
    rewrite Hout3, Happ. unfold w2. simpl. by rewrite Hw1, matching_app, app_assoc.
Qed.

(** C34: [grep] prints the matching lines.  For input without NUL bytes whose
    lines are no longer than the buffer, and however [read] cuts it, [grep]
    reads all of it and writes, in order and each with its newline, exactly the
    newline-terminated lines that have a substring in the language of the
    pattern, placed as the caret and the dollar of the pattern demand.  Text
    after the last newline is never written. *)
Theorem grep_prints_matching_lines fuel pattern fd content w :
  fw_open w !! fd = Some content -> (length content < fuel)%nat -> 0 ∉ content -> short_lines content ->
  exists w' sel, prun (grep_u fuel pattern fd) w = RDone tt w' /\ drained fd w w' /\
    selects (matches pattern) (lines content).1 sel /\
    fw_out w' = fw_out w ++ concat ((fun l => l ++ [NL]) <$> sel).
Proof.
  intros Ho Hf H0 Hs. destruct (grep_loop fuel pattern fd [] content w) as (w' & E & Hd & Hout); try done.
  destruct (matching_selects pattern (lines content).1) as (sel & Hsel & Hm).
  exists w', sel. by rewrite Hout, <- Hm.
Qed.

(** ** Examples *)

(** Two files and three short reads. *)
Definition demo_fw : fworld :=
  mkFw (fun n => if decide (n = lit "f") then Some (lit "one two" ++ nl) else
                 if decide (n = lit "g") then Some (lit "three" ++ nl) else None)
       {[ 3 := lit "one two" ++ nl ++ lit "three" ++ nl ]} [2%nat; 0%nat; 4%nat] [] [].

Lemma cat_concatenates_witness :
  exists w', prun (cat_main 20 [lit "cat"; lit "f"; lit "g"; lit "h"]) demo_fw = RExit 1 w' /\
    fw_out w' = lit "one two" ++ nl ++ lit "three" ++ nl /\ fw_err w' = lit "cat: cannot open h" ++ nl.
Proof.
  destruct (cat_concatenates 20 (lit "cat") [lit "f"; lit "g"; lit "h"] demo_fw) as (w' & H1 & H2 & H3 & _).
  - done.
  - vm_compute. eauto.
  - intros n c _ Hc. cbn in Hc. repeat case_decide; simplify_eq; cbn; lia.
  - exists w'. split; [exact H1|]. split; [exact H2|exact H3].
Defined.

Lemma wc_counts_witness :
  exists w', prun (wc 20 3 (lit "x")) demo_fw = RDone tt w' /\ fw_out w' = lit "2 3 14 x" ++ nl.
Proof.
  destruct (wc_counts 20 3 (lit "x") (lit "one two" ++ nl ++ lit "three" ++ nl) demo_fw) as (w' & H1 & _ & H2).
  - reflexivity.
  - cbn. lia.
  - cbn. lia.
  - exists w'. split; [exact H1|]. rewrite H2. vm_compute. reflexivity.
Defined.

Lemma grep_prints_matching_lines_witness :
  exists w' sel, prun (grep_u 20 (lit "r.e") 3) demo_fw = RDone tt w' /\ drained 3 demo_fw w' /\
    selects (matches (lit "r.e")) [lit "one two"; lit "three"] sel /\
    fw_out w' = [] ++ concat ((fun l => l ++ [NL]) <$> sel).
Proof.
  apply (grep_prints_matching_lines 20 (lit "r.e") 3 (lit "one two" ++ nl ++ lit "three" ++ nl) demo_fw).
  - reflexivity.
  - cbn. lia.
  - apply (bool_decide_unpack (0 ∉ _)). vm_compute. exact I.
  - split; [|done]. repeat constructor.
Defined.

(** A line that fills the buffer stops [grep]: it asks for 0 bytes, takes the
    answer for the end of the input, and prints nothing of what follows. *)
Example grep_long_line_stops :
  let w := mkFw (fun _ => None) {[ 3 := repeat 97 1023 ++ nl ++ lit "a" ++ nl ]} [] [] [] in
  exists w', prun (grep_u 2000 (lit "a") 3) w = RDone tt w' /\ fw_out w' = [] /\
    matching (lit "a") (lines (repeat 97 1023 ++ nl ++ lit "a" ++ nl)).1 <> [].
Proof. eexists. split; [vm_compute; reflexivity|]. split; [reflexivity|]. vm_compute. discriminate. Qed.
