(* ===== verification/ShRun.v ===== *)
(** * Running shell commands ([runcmd], [getcmd] and [main] of [user/sh.c])

    [runcmd] as a program over the system calls, and the behaviour of the
    processes it makes: [beh_of] follows a process and, at every [fork], its
    child, and keeps the descriptor table of each, as the kernel copies and
    changes it.  The theorems compare it with [wire], which says what a command
    means: which programs run on which descriptors, and who waits for whom. *)
From stdpp Require Import base gmap strings numbers option list.
From S2P Require Import Prelude Block Printf Sysfile Sh ShPrint User Ulib.
Open Scope Z_scope.

Definition sh_panic {A} (s : list Z) : prog A := fprintf 2 (lit "%s" ++ nl) [AStr s];; exit 1.

Definition fork1 : prog Z :=
  pid ← sysv CFork;
  if pid =? -1 then sh_panic (lit "fork") else mret pid.

Fixpoint runcmd (c : cmd (list Z)) : prog unit :=
  match c with
  | Exec [] => exit 1
  | Exec ((arg0 :: _) as argv) =>
      sysv (CExec arg0 argv);;
      fprintf 2 (lit "exec %s failed" ++ nl) [AStr arg0];;
      exit 0
  | Redir c file mode fd =>
      sysv (CClose fd);;
      o ← sysv (COpen file mode);
      if o <? 0 then fprintf 2 (lit "open %s failed" ++ nl) [AStr file];; exit 1 else
      runcmd c;;
      exit 0
  | List l r =>
      pid ← fork1;
      (if pid =? 0 then runcmd l else mret tt);;
      sysv CWait;;
      runcmd r;;
      exit 0
  | Pipe l r =>
      p ← sys CPipe;
      if p.1 <? 0 then sh_panic (lit "pipe") else
      pid ← fork1;
      (if pid =? 0 then
         sysv (CClose 1);; sysv (CDup (pipe_end p 1));;
         sysv (CClose (pipe_end p 0));; sysv (CClose (pipe_end p 1));;
         runcmd l
       else mret tt);;
      pid ← fork1;
      (if pid =? 0 then
         sysv (CClose 0);; sysv (CDup (pipe_end p 0));;
         sysv (CClose (pipe_end p 0));; sysv (CClose (pipe_end p 1));;
         runcmd r
       else mret tt);;
      sysv (CClose (pipe_end p 0));; sysv (CClose (pipe_end p 1));;
      sysv CWait;; sysv CWait;;
      exit 0
  | Back c =>
      pid ← fork1;
      (if pid =? 0 then runcmd c else mret tt);;
      exit 0
  end.

(** The line, or [None] at the end of the input. *)
Definition getcmd (nbuf : Z) : prog (option (list Z)) :=
  fprintf 2 (lit "$ ") [];;
  line ← gets nbuf;
  let buf := until_nul line in
  mret (match buf with [] => None | _ => Some buf end).

(** [runcmd(parsecmd(buf))] *)
Definition run_line (buf : list Z) : prog unit :=
  match parsecmd buf 0%nat with
  | Ret (c, buf') _ => runcmd (cmd_map (fun t => cstring buf' t.1) c)
  | Err (EPanic msg) s =>
      if decide (msg = "leftovers"%string)
      then fprintf 2 (lit "leftovers: %s" ++ nl) [AStr (drop s buf)];; sh_panic (lit "syntax")
      else sh_panic (lit msg)
  | Err _ _ => PFuel
  end.

(** One turn of the loop of [main]. *)
Definition main_step (_ : unit) : prog (unit + unit) :=
  line ← getcmd 100;
  match line with
  | None => mret (inr tt)
  | Some buf =>
      if bool_decide (take 3 buf = lit "cd ") then
        let dir := drop 3 (take (length buf - 1) buf) in
        r ← sysv (CChdir dir);
        (if r <? 0 then fprintf 2 (lit "cannot cd %s" ++ nl) [AStr dir] else mret tt);;
        mret (inl tt)
      else
        pid ← fork1;
        (if pid =? 0 then run_line buf else mret tt);;
        sysv CWait;;
        mret (inl tt)
  end.

Definition sh_main (fuel : nat) : prog unit :=
  ploop fuel (fun _ : unit =>
    fd ← sysv (COpen (lit "console") O_RDWR);
    if fd <? 0 then mret (inr tt) else
    if 3 <=? fd then sysv (CClose fd);; mret (inr tt) else mret (inl tt)) tt;;
  ploop fuel main_step tt;;
  exit 0.

(** ** Processes and their descriptors *)

(** What a descriptor refers to. *)
Inductive handle := HFile (path : list Z) (mode : Z) | HPipeR (id : nat) | HPipeW (id : nat) | HOther (n : nat).

Abbreviation fdt := (gmap Z handle).

Definition lowest (fds : fdt) : option Z := head (filter (fun fd => fds !! fd = None) (seqZ 0 16)).

(** The behaviour of a process: what it does, and what its children do. *)
Inductive beh : Type :=
| BExec (argv : list (list Z)) (fds : fdt)
| BExit (status : Z)
| BOpen (path : list Z) (mode : Z) (b : beh)
| BPipe (id : nat) (b : beh)
| BFork (child parent : beh)
| BWait (b : beh)
| BWrite (h : option handle) (bs : list Z) (b : beh)
| BStuck.

(** Two descriptors as the bytes of [int p[2]]. *)
Definition pipe_bytes (fd0 fd1 : Z) : list Z := le_bytes 4 fd0 ++ le_bytes 4 fd1.

Section behaviour.
(** Which files can be opened, and which programs exist. *)
Variable open_ok : list Z -> Z -> bool.
Variable exec_ok : list Z -> bool.

(** [id] numbers the pipes made so far. *)
Fixpoint beh_of (p : prog unit) (fds : fdt) (id : nat) : beh * nat :=
  match p with
  | PRet _ => (BStuck, id)
  | PFuel => (BStuck, id)
  | PExit st => (BExit st, id)
  | PSys c k =>
      match c with
      | CFork =>
          let '(child, id1) := beh_of (k (0, [])) fds id in
          let '(parent, id2) := beh_of (k (1, [])) fds id1 in
          (BFork child parent, id2)
      | CWait => let '(b, id1) := beh_of (k (1, [])) fds id in (BWait b, id1)
      | CExec path argv => if exec_ok path then (BExec argv fds, id) else beh_of (k (-1, [])) fds id
      | CClose fd =>
          match fds !! fd with
          | Some _ => beh_of (k (0, [])) (delete fd fds) id
          | None => beh_of (k (-1, [])) fds id
          end
      | CDup fd =>
          match fds !! fd, lowest fds with
          | Some h, Some fd' => beh_of (k (fd', [])) (<[fd' := h]> fds) id
          | _, _ => beh_of (k (-1, [])) fds id
          end
      | COpen path mode =>
          if open_ok path mode then
            match lowest fds with
            | Some fd =>
                let '(b, id1) := beh_of (k (fd, [])) (<[fd := HFile path mode]> fds) id in (BOpen path mode b, id1)
            | None => beh_of (k (-1, [])) fds id
            end
          else beh_of (k (-1, [])) fds id
      | CPipe =>
          match lowest fds with
          | None => beh_of (k (-1, [])) fds id
          | Some fd0 =>
              let fds1 := <[fd0 := HPipeR id]> fds in
              match lowest fds1 with
              | None => beh_of (k (-1, [])) fds id
              | Some fd1 =>
                  let '(b, id1) := beh_of (k (0, pipe_bytes fd0 fd1)) (<[fd1 := HPipeW id]> fds1) (S id) in
                  (BPipe id b, id1)
              end
          end
      | CWrite fd bs =>
          let '(b, id1) := beh_of (k (Z.of_nat (length bs), [])) fds id in (BWrite (fds !! fd) bs b, id1)
      | _ => (BStuck, id)
      end
  end.

(** A message on descriptor 2, a byte at a time. *)
Definition complain (fds : fdt) (bs : list Z) (b : beh) : beh :=
  foldr (fun c b => BWrite (fds !! 2) [c] b) b bs.

(** ** What a command means *)

Fixpoint wire (c : cmd (list Z)) (fds : fdt) (id : nat) : beh * nat :=
  match c with
  | Exec [] => (BExit 1, id)
  | Exec ((arg0 :: _) as argv) =>
      if exec_ok arg0 then (BExec argv fds, id)
      else (complain fds (lit "exec " ++ arg0 ++ lit " failed" ++ nl) (BExit 0), id)
  | Redir c file mode fd =>
      if open_ok file mode then
        let '(b, id1) := wire c (<[fd := HFile file mode]> fds) id in (BOpen file mode b, id1)
      else (complain fds (lit "open " ++ file ++ lit " failed" ++ nl) (BExit 1), id)
  | List l r =>
      let '(bl, id1) := wire l fds id in
      let '(br, id2) := wire r fds id1 in
      (BFork bl (BWait br), id2)
  | Pipe l r =>
      let '(bl, id1) := wire l (<[1 := HPipeW id]> fds) (S id) in
      let '(br, id2) := wire r (<[0 := HPipeR id]> fds) id1 in
      (BPipe id (BFork bl (BFork br (BWait (BWait (BExit 0))))), id2)
  | Back c =>
      let '(b, id1) := wire c fds id in (BFork b (BExit 0), id1)
  end.

End behaviour.

(** ** [runcmd] implements it *)

Section wiring.
Context (open_ok : list Z -> Z -> bool) (exec_ok : list Z -> bool).
Abbreviation beh_of := (beh_of open_ok exec_ok).
Abbreviation wire := (wire open_ok exec_ok).

Lemma no_free (fds : fdt) a :
  (forall k, 0 <= k < a -> is_Some (fds !! k)) -> filter (fun fd => fds !! fd = None) (seqZ 0 a) = ([] : list Z).
Proof.
  intros H. destruct (filter _ (seqZ 0 a)) as [|y l] eqn:E; [done|]. exfalso.
  assert (Hy : y ∈ filter (fun fd => fds !! fd = None) (seqZ 0 a)) by (rewrite E; apply list_elem_of_here).
  apply list_elem_of_filter in Hy as [Hn Hy]. apply elem_of_seqZ in Hy. destruct (H y ltac:(lia)). congruence.
Qed.

Lemma lowest_at fds a :
  0 <= a < 16 -> fds !! a = None -> (forall k, 0 <= k < a -> is_Some (fds !! k)) -> lowest fds = Some a.
Proof.
  intros Ha Hn Hk. unfold lowest. rewrite (seqZ_split 0 16 a), filter_app, no_free by done.
  by rewrite filter_cons_True.
Qed.

Lemma lowest_None fds a : lowest fds = Some a -> fds !! a = None /\ 0 <= a < 16.
Proof.
  unfold lowest. intros H. apply head_Some_elem_of, list_elem_of_filter in H as [H1 H2].
  apply elem_of_seqZ in H2. split; [done|lia].
Qed.

Lemma lowest_dom fds fds' : (forall k, fds !! k = None <-> fds' !! k = None) -> lowest fds = lowest fds'.
Proof. intros H. unfold lowest. f_equal. by apply list_filter_iff. Qed.

(** Descriptors 0, 1 and 2 are open, and two more can be. *)
Definition roomy (fds : fdt) : Prop :=
  is_Some (fds !! 0) /\ is_Some (fds !! 1) /\ is_Some (fds !! 2) /\
  exists a b, forall h, lowest fds = Some a /\ lowest (<[a := h]> fds) = Some b.

Lemma roomy_insert fds k h : roomy fds -> is_Some (fds !! k) -> roomy (<[k := h]> fds).
Proof.
  assert (Hi : forall (fds : fdt) k h j, is_Some (fds !! j) -> is_Some (<[k := h]> fds !! j)).
  { intros m i v j Hj. destruct (decide (i = j)) as [->|]; [rewrite lookup_insert_eq; eauto|by rewrite lookup_insert_ne]. }
  intros (H0 & H1 & H2 & a & b & Hab) Hk. repeat split; [by apply Hi..|]. exists a, b. intros h'.
  destruct (Hab h') as [Ha Hb]. split.
  - rewrite <- Ha. apply lowest_dom. intros j. destruct (decide (k = j)) as [->|]; [|by rewrite lookup_insert_ne].
    rewrite lookup_insert_eq. destruct Hk as [x Hx]. by rewrite Hx.
  - rewrite <- Hb. apply lowest_dom. intros j. rewrite !lookup_insert_None. destruct Hk as [x Hx].
    split; [naive_solver|]. intros [Hj Haj]. split; [|done]. split; [done|]. intros ->. congruence.
Qed.

(** The calls. *)
Lemma beh_close k fd h fds id :
  fds !! fd = Some h -> beh_of (sysv (CClose fd) ≫= k) fds id = beh_of (k 0) (delete fd fds) id.
Proof. intros H. cbn. by rewrite H. Qed.

Lemma beh_dup k fd h fd' fds id :
  fds !! fd = Some h -> lowest fds = Some fd' ->
  beh_of (sysv (CDup fd) ≫= k) fds id = beh_of (k fd') (<[fd' := h]> fds) id.
Proof. intros H H'. cbn. by rewrite H, H'. Qed.

Lemma beh_open k path mode fd fds id :
  open_ok path mode = true -> lowest fds = Some fd ->
  beh_of (sysv (COpen path mode) ≫= k) fds id =
  let '(b, id1) := beh_of (k fd) (<[fd := HFile path mode]> fds) id in (BOpen path mode b, id1).
Proof. intros H H'. cbn. by rewrite H, H'. Qed.

Lemma beh_open_fails k path mode fds id :
  open_ok path mode = false -> beh_of (sysv (COpen path mode) ≫= k) fds id = beh_of (k (-1)) fds id.
Proof. intros H. cbn. by rewrite H. Qed.

Lemma beh_pipe k a b fds id :
  lowest fds = Some a -> lowest (<[a := HPipeR id]> fds) = Some b ->
  beh_of (sys CPipe ≫= k) fds id =
  let '(bh, id1) := beh_of (k (0, pipe_bytes a b)) (<[b := HPipeW id]> (<[a := HPipeR id]> fds)) (S id) in
  (BPipe id bh, id1).
Proof. intros H H'. cbn. by rewrite H, H'. Qed.

Lemma beh_exec k path argv fds id :
  beh_of (sysv (CExec path argv) ≫= k) fds id =
  if exec_ok path then (BExec argv fds, id) else beh_of (k (-1)) fds id.
Proof. reflexivity. Qed.

Lemma beh_fork1 k fds id :
  beh_of (fork1 ≫= k) fds id =
  let '(child, id1) := beh_of (k 0) fds id in
  let '(parent, id2) := beh_of (k 1) fds id1 in (BFork child parent, id2).
Proof. reflexivity. Qed.

Lemma beh_wait k fds id :
  beh_of (sysv CWait ≫= k) fds id = let '(b, id1) := beh_of (k 1) fds id in (BWait b, id1).
Proof. reflexivity. Qed.

Lemma beh_complain (k : unit -> prog unit) bs fds id b id1 :
  beh_of (k tt) fds id = (b, id1) ->
  beh_of (pfor bs (putc 2) ≫= k) fds id = (complain fds bs b, id1).
Proof. intros H. induction bs as [|c bs IH]; [done|]. cbn in *. by rewrite IH. Qed.

Lemma beh_fprintf (k : unit -> prog unit) fmt args fds id b id1 :
  beh_of (k tt) fds id = (b, id1) ->
  beh_of (fprintf 2 fmt args ≫= k) fds id = (complain fds (vprintf (arg_str args) false fmt (arg_word args)) b, id1).
Proof. by apply beh_complain. Qed.

(** Programs that end by [exit]. *)
Fixpoint never_returns {A} (p : prog A) : Prop :=
  match p with
  | PRet _ => False
  | PSys _ k => forall r, never_returns (k r)
  | PExit _ | PFuel => True
  end.

Lemma beh_never (p : prog unit) k : never_returns p -> forall fds id, beh_of (p ≫= k) fds id = beh_of p fds id.
Proof.
  induction p as [a|c f IH|st|]; intros H fds id; try done.
  assert (IH' : forall r fds id, beh_of (pbind k (f r)) fds id = beh_of (f r) fds id) by (intros; by apply IH).
  unfold mbind, prog_bind. cbn [pbind].
  destruct c; cbn [ShRun.beh_of]; rewrite ?IH'; try done; repeat case_match; rewrite ?IH' in *; congruence.
Qed.

Lemma never_seq {A B} (p : prog A) (k : A -> prog B) :
  (forall a, never_returns (k a)) -> never_returns (p ≫= k).
Proof. intros H. induction p as [a|c f IH|st|]; simpl; auto. Qed.

Lemma never_runcmd c : never_returns (runcmd c).
Proof.
  destruct c as [[|arg0 l]| | | |]; cbn [runcmd]; try done;
    repeat (apply never_seq; intros); repeat case_match; repeat (apply never_seq; intros); done.
Qed.

Lemma pipe_end_at fd0 fd1 v :
  0 <= fd0 < 16 -> 0 <= fd1 < 16 ->
  pipe_end (v, pipe_bytes fd0 fd1) 0 = fd0 /\ pipe_end (v, pipe_bytes fd0 fd1) 1 = fd1.
Proof.
  assert (H : forall fd, 0 <= fd < 16 -> i32 (le_val (le_bytes 4 fd)) = fd).
  { intros fd Hfd. rewrite le_val_bytes, Z.mod_small by (simpl; lia). apply i32_small. lia. }
  intros H0 H1. split; [rewrite <- (H fd0) at 2 by done|rewrite <- (H fd1) at 2 by done]; reflexivity.
Qed.

(** The table of a process of the pipeline, once it has closed both ends. *)
Lemma pipe_side (fds : fdt) a b fd h h1 h2 :
  fds !! a = None -> fds !! b = None -> a <> fd -> b <> fd ->
  delete b (delete a (<[fd := h]> (delete fd (<[b := h2]> (<[a := h1]> fds))))) = <[fd := h]> fds.
Proof.
  intros Ha Hb Haf Hbf. apply map_eq. intros i.
  destruct (decide (i = b)) as [->|]; [simplify_map_eq; done|].
  destruct (decide (i = a)) as [->|]; [simplify_map_eq; done|].
  destruct (decide (i = fd)) as [->|]; simplify_map_eq; done.
Qed.

Lemma pipe_parent (fds : fdt) a b h1 h2 :
  fds !! a = None -> fds !! b = None -> delete b (delete a (<[b := h2]> (<[a := h1]> fds))) = fds.
Proof.
  intros Ha Hb. apply map_eq. intros i.
  destruct (decide (i = b)) as [->|]; [simplify_map_eq; done|].
  destruct (decide (i = a)) as [->|]; simplify_map_eq; done.
Qed.

(** A child of the pipeline: close [fd], dup the end it wants, close both. *)
Lemma pipe_child c (fds : fdt) a b fd e h h1 h2 id :
  fds !! a = None -> fds !! b = None -> a <> b -> fd = 0 \/ fd = 1 -> is_Some (fds !! 0) -> is_Some (fds !! 1) ->
  <[b := h2]> (<[a := h1]> fds) !! e = Some h -> e <> fd ->
  beh_of (sysv (CClose fd);; sysv (CDup e);; sysv (CClose a);; sysv (CClose b);; runcmd c)
    (<[b := h2]> (<[a := h1]> fds)) id = beh_of (runcmd c) (<[fd := h]> fds) id.
Proof.
  intros Ha Hb Hab Hfd H0 H1 He Hef.
  assert (Haf : a <> fd) by (intros ->; destruct Hfd as [->| ->]; [destruct H0|destruct H1]; congruence).
  assert (Hbf : b <> fd) by (intros ->; destruct Hfd as [->| ->]; [destruct H0|destruct H1]; congruence).
  assert (is_Some (fds !! fd)) as [x Hx] by (by destruct Hfd as [->| ->]).
  rewrite (beh_close _ fd x) by (simplify_map_eq; done).
  rewrite (beh_dup _ e h fd).
  - rewrite (beh_close _ a h1) by (simplify_map_eq; done). rewrite (beh_close _ b h2) by (simplify_map_eq; done).
    by rewrite pipe_side.
  - by rewrite lookup_delete_ne.
  - apply lowest_at; [lia|by rewrite lookup_delete_eq|]. intros k Hk.
    destruct Hfd as [->| ->]; [lia|]. assert (k = 0) as -> by lia. destruct H0 as [y Hy].
    rewrite lookup_delete_ne by lia. destruct (decide (0 = b)) as [<-|]; [congruence|].
    destruct (decide (0 = a)) as [<-|]; [congruence|]. rewrite !lookup_insert_ne by done. eauto.
Qed.

(** Redirections are of standard input or output. *)
Fixpoint redirs_std (c : cmd (list Z)) : Prop :=
  match c with
  | Exec _ => True
  | Redir c _ _ fd => (fd = 0 \/ fd = 1) /\ redirs_std c
  | Pipe l r | List l r => redirs_std l /\ redirs_std r
  | Back c => redirs_std c
  end.

Lemma open_message f :
  vprintf (arg_str [AStr f]) false (lit "open %s failed" ++ nl) (arg_word [AStr f]) = lit "open " ++ f ++ lit " failed" ++ nl.
Proof. reflexivity. Qed.

Lemma exec_message f :
  vprintf (arg_str [AStr f]) false (lit "exec %s failed" ++ nl) (arg_word [AStr f]) = lit "exec " ++ f ++ lit " failed" ++ nl.
Proof. reflexivity. Qed.

Lemma complain_delete (fds : fdt) fd bs b : fd <> 2 -> complain (delete fd fds) bs b = complain fds bs b.
Proof. intros H. unfold complain. by rewrite lookup_delete_ne. Qed.

Lemma mret_bind {A B} (a : A) (k : A -> prog B) : mret a ≫= k = k a.
Proof. reflexivity. Qed.

Definition runs (c : cmd (list Z)) : Prop :=
  forall fds id, roomy fds -> beh_of (runcmd c) fds id = wire c fds id.

Lemma runs_redir c file mode fd : fd = 0 \/ fd = 1 -> runs c -> runs (Redir c file mode fd).
Proof.
  intros Hfd IH fds id Hr. pose proof Hr as (H0 & H1 & H2 & _).
  assert (is_Some (fds !! fd)) as Hx by (by destruct Hfd as [->| ->]). pose proof Hx as [x Hx'].
  cbn [runcmd ShRun.wire]. rewrite (beh_close _ fd x) by done.
  destruct (open_ok file mode) eqn:Ho.
  - rewrite (beh_open _ _ _ fd); [|done|apply lowest_at; [lia|by rewrite lookup_delete_eq|]].
    + rewrite (proj2 (Z.ltb_ge fd 0)) by lia. rewrite insert_delete_eq.
      rewrite (beh_never (runcmd c)) by apply never_runcmd. by rewrite IH by (by apply roomy_insert).
    + intros k Hk. destruct Hfd as [->| ->]; [lia|]. assert (k = 0) as -> by lia. by rewrite lookup_delete_ne.
  - rewrite beh_open_fails by done. change (-1 <? 0) with true. cbv iota.
    by rewrite (beh_fprintf _ _ _ _ _ (BExit 1) id), open_message, complain_delete by (done || lia).
Qed.

Lemma runs_pipe l r : runs l -> runs r -> runs (Pipe l r).
Proof.
  intros IHl IHr fds id Hr. pose proof Hr as (H0 & H1 & H2 & a & b & Hab).
  destruct (Hab (HPipeR id)) as [Ha Hb]. destruct (lowest_None _ _ Ha) as [Ha1 Ha2]. destruct (lowest_None _ _ Hb) as [Hb1 Hb2].
  assert (Hne : a <> b) by (intros ->; by rewrite lookup_insert_eq in Hb1). rewrite lookup_insert_ne in Hb1 by done.
  destruct (pipe_end_at a b 0 Ha2 Hb2) as [E0 E1].
  assert (Hn : forall c e k, b <> 1 -> a <> 0 -> never_returns
    (sysv (CClose k);; sysv (CDup e);; sysv (CClose a);; sysv (CClose b);; runcmd c)).
  { intros. repeat (apply never_seq; intros). apply never_runcmd. }
  assert (b <> 1) by (intros ->; destruct H1; congruence). assert (a <> 0) by (intros ->; destruct H0; congruence).
  cbn [runcmd ShRun.wire]. rewrite (beh_pipe _ a b) by done. cbn [fst].
  change (0 <? 0) with false. cbv iota. rewrite E0, E1.
  rewrite beh_fork1. change (0 =? 0) with true. change (1 =? 0) with false. cbv iota.
  rewrite (beh_never _ _ (Hn l b 1 ltac:(done) ltac:(done))).
  rewrite (pipe_child l fds a b 1 b (HPipeW id)) by (simplify_map_eq; auto).
  rewrite IHl by (by apply roomy_insert). destruct (wire l _ (S id)) as [bl id1]. rewrite mret_bind.
  rewrite beh_fork1. change (0 =? 0) with true. change (1 =? 0) with false. cbv iota.
  rewrite (beh_never _ _ (Hn r a 0 ltac:(done) ltac:(done))).
  rewrite (pipe_child r fds a b 0 a (HPipeR id)) by (simplify_map_eq; auto).
  rewrite IHr by (by apply roomy_insert). destruct (wire r _ id1) as [br id2]. rewrite mret_bind.
  rewrite (beh_close _ a (HPipeR id)) by (simplify_map_eq; done).
  rewrite (beh_close _ b (HPipeW id)) by (simplify_map_eq; done). rewrite pipe_parent by done.
  rewrite !beh_wait. reflexivity.
Qed.

Lemma runcmd_wire c : redirs_std c -> runs c.
Proof.
  induction c as [[|arg0 l]|c IH file mode fd|l IHl r IHr|l IHl r IHr|c IH]; intros Hc.
  - done.
  - intros fds id _. cbn [runcmd ShRun.wire]. rewrite beh_exec.
    destruct (exec_ok arg0); [done|]. by rewrite (beh_fprintf _ _ _ _ _ (BExit 0) id), exec_message.
  - destruct Hc as [Hfd Hc]. apply runs_redir; auto.
  - destruct Hc. apply runs_pipe; auto.
  - destruct Hc as [Hl Hr]. intros fds id Hf. cbn [runcmd ShRun.wire]. rewrite beh_fork1.
    change (0 =? 0) with true. change (1 =? 0) with false. cbv iota.
    rewrite (beh_never (runcmd l)) by apply never_runcmd. rewrite (IHl Hl) by done.
    destruct (wire l fds id) as [bl id1]. rewrite mret_bind, beh_wait.
    rewrite (beh_never (runcmd r)) by apply never_runcmd. rewrite (IHr Hr) by done. by destruct (wire r fds id1).
  - intros fds id Hf. cbn [runcmd ShRun.wire]. rewrite beh_fork1.
    change (0 =? 0) with true. change (1 =? 0) with false. cbv iota.
    rewrite (beh_never (runcmd c)) by apply never_runcmd. rewrite (IH Hc) by done. by destruct (wire c fds id).
Qed.

End wiring.

(** ** The shell *)

Lemma cmd_map_ext {A B} (f g : A -> B) c :
  (forall a, a ∈ strings_of c -> f a = g a) -> cmd_map f c = cmd_map g c.
Proof.
  induction c as [l|c IH file m fd|l IHl r IHr|l IHl r IHr|c IH]; simpl; intros H.
  - f_equal. apply map_ext_in. intros a Ha. by apply H, list_elem_of_In.
  - rewrite IH, (H file); [done|apply elem_of_app; right; apply list_elem_of_here|].
    intros a Ha. apply H, elem_of_app. by left.
  - rewrite IHl, IHr; [done|intros a Ha; apply H, elem_of_app; by right|intros a Ha; apply H, elem_of_app; by left].
  - rewrite IHl, IHr; [done|intros a Ha; apply H, elem_of_app; by right|intros a Ha; apply H, elem_of_app; by left].
  - by rewrite IH.
Qed.

Lemma text_nonzero ts : Forall tok_ok ts -> Forall (fun x => x <> 0) (text ts).
Proof.
  intros H. induction H as [|t ts Ht _ IH]; [by constructor|]. unfold text in *. simpl.
  apply Forall_app. split; [|done]. apply Forall_app. split; [|by constructor].
  destruct t as [c|w|]; simpl in *.
  - apply Forall_singleton. apply in_set_true, sym_not_white in Ht. by destruct Ht.
  - destruct Ht as [_ Hw]. eapply Forall_impl; [exact Hw|]. by intros ? [].
  - repeat constructor; lia.
Qed.

Lemma cmd_ok_std c : cmd_ok c -> redirs_std c.
Proof.
  induction c as [l|c IH f m fd|l IHl r IHr|l IHl r IHr|c IH]; simpl; try tauto.
  intros (Hc & _ & Hr). split; [|auto]. unfold redir_ok in Hr. tauto.
Qed.

(** C18: from the line to the processes.  The line that prints a command, given
    to the shell's parser, [nulterminate] and [runcmd], has exactly the meaning
    of the command: every program runs with its arguments on the right
    descriptors, pipelines are connected, redirections apply to the command
    they follow, lists are sequential, and the shell waits for whom it
    should. *)
Theorem shell_runs_line open_ok exec_ok c fds id :
  cmd_ok c -> roomy fds -> beh_of open_ok exec_ok (run_line (print c)) fds id = wire open_ok exec_ok c fds id.
Proof.
  intros Hok Hr. destruct (parse_print c Hok) as (c' & s & E & Hc). unfold run_line. rewrite E.
  assert (Hz : Forall (fun x => x <> 0) (print c)) by (apply text_nonzero; by apply print_toks).
  pose proof (parsecmd_ok (print c) Hz) as Hp. unfold pok in Hp. rewrite E in Hp. destruct Hp as [_ Hs].
  rewrite (cmd_map_ext _ (slice (print c))) by exact Hs. rewrite Hc.
  apply runcmd_wire; [by apply cmd_ok_std|done].
Qed.

(** The programs a behaviour runs, with their descriptors. *)
Fixpoint execs (b : beh) : list (list (list Z) * fdt) :=
  match b with
  | BExec argv fds => [(argv, fds)]
  | BFork b1 b2 => execs b1 ++ execs b2
  | BOpen _ _ b | BPipe _ b | BWait b | BWrite _ _ b => execs b
  | BExit _ | BStuck => []
  end.

Lemma execs_complain fds bs b : execs (complain fds bs b) = execs b.
Proof. induction bs; done. Qed.

Lemma wire_others open_ok exec_ok c : forall fds id argv fds', redirs_std c ->
  (argv, fds') ∈ execs (wire open_ok exec_ok c fds id).1 ->
  (forall k, k <> 0 -> k <> 1 -> fds' !! k = fds !! k) /\ argv <> [].
Proof.
  induction c as [[|arg0 l]|c IH file mode fd|l IHl r IHr|l IHl r IHr|c IH]; intros fds id argv fds' Hc; cbn [wire].
  - intros H. by apply elem_of_nil in H.
  - destruct (exec_ok arg0); cbn [fst]; [|rewrite execs_complain; intros H; by apply elem_of_nil in H].
    intros H. apply list_elem_of_singleton in H. by simplify_eq.
  - destruct Hc as [Hfd Hc]. destruct (open_ok file mode); cbn [fst]; [|rewrite execs_complain; intros H; by apply elem_of_nil in H].
    destruct (wire _ _ c _ id) as [b id1] eqn:E. cbn [fst execs]. intros H.
    destruct (IH (<[fd := HFile file mode]> fds) id argv fds' Hc) as [Hk Ha]; [by rewrite E|]. split; [|done].
    intros k H0 H1. rewrite Hk by done. apply lookup_insert_ne. destruct Hfd; congruence.
  - destruct Hc as [Hl Hr]. destruct (wire _ _ l _ _) as [bl id1] eqn:El. destruct (wire _ _ r _ _) as [br id2] eqn:Er.
    cbn [fst execs]. rewrite !elem_of_app. intros [H|[H|H]]; [| |by apply elem_of_nil in H].
    + destruct (IHl (<[1 := HPipeW id]> fds) (S id) argv fds' Hl) as [Hk Ha]; [by rewrite El|]. split; [|done].
      intros k H0 H1. rewrite Hk by done. by apply lookup_insert_ne.
    + destruct (IHr (<[0 := HPipeR id]> fds) id1 argv fds' Hr) as [Hk Ha]; [by rewrite Er|]. split; [|done].
      intros k H0 H1. rewrite Hk by done. by apply lookup_insert_ne.
  - destruct Hc as [Hl Hr]. destruct (wire _ _ l _ _) as [bl id1] eqn:El. destruct (wire _ _ r _ _) as [br id2] eqn:Er.
    cbn [fst execs]. rewrite elem_of_app. intros [H|H].
    + apply (IHl fds id); [done|by rewrite El].
    + apply (IHr fds id1); [done|by rewrite Er].
  - destruct (wire _ _ c _ _) as [b id1] eqn:E. cbn [fst execs]. rewrite elem_of_app. intros [H|H]; [|by apply elem_of_nil in H].
    apply (IH fds id); [done|by rewrite E].
Qed.

(** No pipe ends leak.  Every program [runcmd] starts has, beyond standard
    input and output, exactly the descriptors of the shell: in particular no
    other end of a pipe, so a reader sees the end of the data once its writer
    has exited. *)
Theorem runcmd_no_leak open_ok exec_ok c fds id argv fds' :
  redirs_std c -> roomy fds -> (argv, fds') ∈ execs (beh_of open_ok exec_ok (runcmd c) fds id).1 ->
  forall k, k <> 0 -> k <> 1 -> fds' !! k = fds !! k.
Proof. intros Hc Hr. rewrite runcmd_wire by done. intros H. by apply (wire_others open_ok exec_ok c fds id argv fds' Hc). Qed.

(** *** Examples *)

Definition demo_fds : fdt := {[ 0 := HOther 0; 1 := HOther 1; 2 := HOther 2 ]}.

Lemma demo_roomy : roomy demo_fds.
Proof. repeat split; try (by eexists). exists 3, 4. intros h. split; reflexivity. Qed.

(** [ls | wc > o & ; ( a ; b ) < i], with its first pipe. *)
Lemma shell_runs_line_witness :
  beh_of (fun _ _ => true) (fun _ => true) (run_line (print demo_cmd)) demo_fds 0 =
  (BFork (BFork (BPipe 0 (BFork (BExec [lit "ls"] (<[1 := HPipeW 0]> demo_fds))
            (BFork (BOpen (lit "o") 0x601
                      (BExec [lit "wc"] (<[1 := HFile (lit "o") 0x601]> (<[0 := HPipeR 0]> demo_fds))))
               (BWait (BWait (BExit 0))))))
          (BExit 0))
     (BWait (BOpen (lit "i") 0
        (BFork (BExec [lit "a"] (<[0 := HFile (lit "i") 0]> demo_fds))
           (BWait (BExec [lit "b"] (<[0 := HFile (lit "i") 0]> demo_fds)))))), 1%nat).
Proof.
  rewrite (shell_runs_line (fun _ _ => true) (fun _ => true) demo_cmd demo_fds 0 demo_cmd_ok demo_roomy).
  reflexivity.
Defined.

Lemma runcmd_no_leak_witness :
  exists fds', ([lit "wc"], fds') ∈
    execs (beh_of (fun _ _ => true) (fun _ => true) (runcmd (Pipe (Exec [lit "ls"]) (Exec [lit "wc"]))) demo_fds 0).1 /\
  fds' !! 3 = None /\ fds' !! 4 = None.
Proof.
  assert (H : ([lit "wc"], <[0 := HPipeR 0]> demo_fds) ∈
    execs (beh_of (fun _ _ => true) (fun _ => true) (runcmd (Pipe (Exec [lit "ls"]) (Exec [lit "wc"]))) demo_fds 0).1).
  { rewrite runcmd_wire by (done || apply demo_roomy). cbn. apply list_elem_of_further, list_elem_of_here. }
  exists (<[0 := HPipeR 0]> demo_fds). split; [exact H|].
  pose proof (runcmd_no_leak _ _ (Pipe (Exec [lit "ls"]) (Exec [lit "wc"])) demo_fds 0 _ _ (conj I I) demo_roomy H) as Hk.
  split; [rewrite (Hk 3) by lia|rewrite (Hk 4) by lia]; reflexivity.
Defined.
