(* ===== verification/Umalloc.v ===== *)
(** * The user library's allocator ([user/umalloc.c])

    [malloc] and [free] are the code of [Malloc] over the memory of a user
    process, with [sbrk] for more of it.  The free blocks form a circular list
    in address order that starts at [base], a header of its own whose size is
    0; [freep] points anywhere into it.  [heap s N lv] says that memory holds
    such a list [N] and that [lv] are the blocks given out: together they tile
    the heap.  [malloc] and [free] keep this and no byte of a block that is in
    use changes. *)
From stdpp Require Import base gmap strings numbers option list.
From S2P Require Import Prelude Memory Malloc.
Open Scope Z_scope.

(** Memory, [freep] and the break of the process. *)
Record ust := mkU { u_mem : mem; u_fp : Z; u_brk : Z }.
Definition setu_mem (m : mem) (s : ust) : ust := mkU m (u_fp s) (u_brk s).
Definition setu_fp (p : Z) (s : ust) : ust := mkU (u_mem s) p (u_brk s).

(** Where the linker puts [base], where the heap starts, and the kernel's side
    of [sbrk]: whether it grants [n] more bytes to a process whose break is at
    [brk] is its own decision ([growproc] may run out of memory at any call),
    but it never lets the heap grow past [ulimit], below 2^31 since [sys_sbrk]
    passes the break through an [int]. *)
Class UImage := { ubase : Z; ulo : Z; ulimit : Z; ugrant : Z -> Z -> bool }.
Class UImageOk (ui : UImage) : Prop := {
  ui_base : 0 < ubase;
  ui_lo : ubase + 16 <= ulo;
  ui_limit : ulimit < 2 ^ 31;
  ui_grant brk n : ugrant brk n = true -> brk + n <= ulimit
}.

Section umalloc.
Context `{ui : UImage}.

Definition mapped (s : ust) (n : nat) (a : Z) : bool := (0 <=? a) && (a + Z.of_nat n <=? u_brk s).

Definition u_load (n : nat) (a : Z) : M ust Z :=
  fun s => if mapped s n a then Ret (ld n (u_mem s) a) s else Err (EFault a) s.
Definition u_store (n : nat) (a v : Z) : M ust unit :=
  fun s => if mapped s n a then Ret tt (setu_mem (st n (u_mem s) a v) s) else Err (EFault a) s.

#[export] Instance user_mem : KRMem ust := {
  kr_load := u_load;
  kr_store := u_store;
  kr_getp := gets u_fp;
  kr_setp := fun p => modify (setu_fp p);
  kr_base := ubase
}.

(** The system call [sbrk(n)] as the process sees it: the old break with the
    memory grown, or -1 with nothing changed. *)
Definition sbrk (n : Z) : M ust Z :=
  brk ← gets u_brk;
  if negb (ugrant brk n) then mret (2 ^ 64 - 1) else
  modify (fun s => mkU (u_mem s) (u_fp s) (brk + n));;
  mret brk.

Definition free (fuel : nat) (ap : Z) : M ust unit := kr_free fuel ap.

Definition morecore (fuel : nat) (nu : Z) : M ust Z :=
  let nu := if nu <? 4096 then 4096 else nu in
  p ← sbrk (i32 (u64 (nu * sizeof_header)));
  if p =? 2 ^ 64 - 1 then mret 0 else
  kr_store 4 (h_size p) nu;;
  free fuel (hplus p 1);;
  kr_getp.

Definition malloc (fuel : nat) (nbytes : Z) : M ust Z := kr_malloc fuel (morecore fuel) nbytes.

(** ** The heap *)

(** A block: its address and its size in units; the header of [base] has size
    0 and takes one unit. *)
Abbreviation block := (Z * Z)%type.
Definition bend (x : block) : Z := x.1 + 16 * Z.max 1 x.2.
Definition before (x y : block) : Prop := bend x <= y.1.
Definition disj (x y : block) : Prop := before x y \/ before y x.

Fixpoint sorted (l : list block) : Prop :=
  match l with [] => True | x :: l' => Forall (before x) l' /\ sorted l' end.
Fixpoint apart (l : list block) : Prop :=
  match l with [] => True | x :: l' => Forall (disj x) l' /\ apart l' end.

Definition hd_addr (l : list block) (e : Z) : Z := match l with [] => e | x :: _ => x.1 end.

(** The blocks of [l] are linked, the last one to [e]. *)
Fixpoint links (m : mem) (l : list block) (e : Z) : Prop :=
  match l with
  | [] => True
  | x :: l' => ld 8 m (h_ptr x.1) = hd_addr l' e /\ ld 4 m (h_size x.1) = x.2 /\ links m l' e
  end.

Definition units (l : list block) : Z := foldr (fun x z => x.2 + z) 0 l.

(** [x] in front of [l], as one block with the first of [l] when they touch. *)
Definition join (x : block) (l : list block) : list block :=
  match l with
  | y :: l' => if x.1 + 16 * x.2 =? y.1 then (x.1, x.2 + y.2) :: l' else x :: l
  | [] => [x]
  end.

(** The free list [N] with [y] put at its place by address and merged with the
    neighbours it touches; nothing precedes the first block, [base]. *)
Fixpoint free_insert (y : block) (N : list block) : list block :=
  match N with
  | [] => [y]
  | p :: B => if y.1 <? hd_addr B (y.1 + 1) then join p (join y B) else p :: free_insert y B
  end.

(** No free block touches the next one. *)
Fixpoint coalesced (l : list block) : Prop :=
  match l with
  | x :: (y :: _) as l' => x.1 + 16 * x.2 <> y.1 /\ coalesced l'
  | _ => True
  end.

Record heap (s : ust) (N lv : list block) : Prop := {
  hp_head : exists bl, N = (ubase, 0) :: bl /\
    Forall (fun x => ulo <= x.1 /\ bend x <= u_brk s /\ 1 <= x.2) (bl ++ lv);
  hp_fp : u_fp s ∈ map fst N;
  hp_links : links (u_mem s) N ubase;
  hp_sorted : sorted N;
  hp_live : Forall (fun x => ld 4 (u_mem s) (h_size x.1) = x.2) lv;
  hp_apart : apart (N ++ lv);
  hp_brk : ulo <= u_brk s <= ulimit;
  hp_all : ulo + 16 * units (N ++ lv) = u_brk s
}.

(** No byte of the blocks [lv] changes. *)
Definition keeps (lv : list block) (m m' : mem) : Prop :=
  forall x a, x ∈ lv -> x.1 <= a < bend x -> rd m' a = rd m a.

(** *** Lists of blocks *)

Lemma disj_sym x y : disj x y -> disj y x.
Proof. unfold disj. tauto. Qed.

Lemma apart_perm l l' : l ≡ₚ l' -> apart l -> apart l'.
Proof.
  induction 1 as [|x l l' Hp IH|x y l|l1 l2 l3 _ IH1 _ IH2]; simpl; auto.
  - intros [H1 H2]. split; [by rewrite <- Hp|auto].
  - rewrite !Forall_cons. intros [[H1 H2] [H3 H4]]. repeat split; auto using disj_sym.
Qed.

Lemma apart_app l l' : apart (l ++ l') <-> apart l /\ apart l' /\ Forall (fun x => Forall (disj x) l') l.
Proof.
  induction l as [|x l IH]; simpl; [split; [intros; repeat split; auto; by constructor|tauto]|].
  rewrite IH, Forall_app, Forall_cons. tauto.
Qed.

(** One block in place of another that covers it. *)
Lemma apart_shrink x y l :
  apart (x :: l) -> x.1 <= y.1 -> bend y <= bend x -> apart (y :: l).
Proof.
  intros [H1 H2] Hl Hr. split; [|done]. eapply Forall_impl; [exact H1|].
  intros z [H|H]; [left|right]; unfold before in *; lia.
Qed.

(** A block cut in two, and two adjacent blocks joined. *)
Lemma apart_cut a k1 k2 l :
  1 <= k1 -> 1 <= k2 -> apart ((a, k1 + k2) :: l) <-> apart ((a, k1) :: (a + 16 * k1, k2) :: l).
Proof.
  intros H1 H2. simpl. rewrite !Forall_cons.
  assert (Hd : disj (a, k1) (a + 16 * k1, k2)) by (left; unfold before, bend; simpl; lia).
  split.
  - intros [Hf Hl]. split; [split; [done|]|split; [|done]]; (eapply Forall_impl; [exact Hf|]);
      intros z [H|H]; unfold disj, before, bend in *; simpl in *; lia.
  - intros [[_ Hf1] [Hf2 Hl]]. split; [|done]. apply Forall_forall. intros z Hz.
    rewrite Forall_forall in Hf1, Hf2. specialize (Hf1 z Hz). specialize (Hf2 z Hz).
    unfold disj, before, bend in *. simpl in *. lia.
Qed.

Lemma units_app l l' : units (l ++ l') = units l + units l'.
Proof. induction l as [|x l IH]; simpl; [done|]. lia. Qed.

Lemma units_perm l l' : l ≡ₚ l' -> units l = units l'.
Proof. induction 1; simpl; lia. Qed.

Lemma sorted_app l l' : sorted (l ++ l') <-> sorted l /\ sorted l' /\ Forall (fun x => Forall (before x) l') l.
Proof.
  induction l as [|x l IH]; simpl; [split; [intros; repeat split; auto; by constructor|tauto]|].
  rewrite IH, Forall_app, Forall_cons. tauto.
Qed.

Lemma sorted_lt l i j x y : sorted l -> (i < j)%nat -> l !! i = Some x -> l !! j = Some y -> x.1 < y.1.
Proof.
  intros Hs Hij Hi Hj. assert (Hs' : sorted (take j l ++ drop j l)) by (by rewrite take_drop).
  apply sorted_app in Hs' as (_ & _ & Hb).
  rewrite Forall_forall in Hb. assert (Hx : x ∈ take j l) by (apply list_elem_of_lookup; exists i; by rewrite lookup_take_lt).
  specialize (Hb x Hx). rewrite (drop_S _ _ _ Hj) in Hb. apply Forall_cons in Hb as [Hb _].
  unfold before, bend in Hb. lia.
Qed.

Lemma free_insert_split y A p B :
  Forall (fun x => x.1 < y.1) (A ++ [p]) -> Forall (fun x => y.1 < x.1) B ->
  free_insert y (A ++ p :: B) = A ++ join p (join y B).
Proof.
  intros HA HB. induction A as [|a A IH].
  - simpl. rewrite (proj2 (Z.ltb_lt _ _)); [done|]. destruct B as [|b B]; simpl; [lia|]. by apply Forall_cons in HB as [? _].
  - simpl in HA. apply Forall_cons in HA as [_ HA]. simpl. rewrite (proj2 (Z.ltb_ge _ _)); [by rewrite IH|].
    destruct A as [|a' A]; simpl in *; apply Forall_cons in HA as [? _]; lia.
Qed.

Lemma length_join x l : (length (join x l) <= S (length l))%nat.
Proof. destruct l as [|y l]; simpl; [lia|]. destruct (_ =? _); simpl; lia. Qed.

Lemma join_coalesced x l : coalesced l -> coalesced (join x l).
Proof.
  destruct l as [|y l]; simpl; [done|]. intros Hl. destruct (Z.eqb_spec (x.1 + 16 * x.2) y.1) as [E|E]; [|done].
  destruct l as [|z l]; [done|]. destruct Hl as [H1 H2]. split; [simpl|done]. lia.
Qed.

Lemma coalesced_cons x l : coalesced l -> (forall e, l = [] \/ hd_addr l e <> x.1 + 16 * x.2) -> coalesced (x :: l).
Proof. destruct l as [|y l]; [done|]. intros H He. split; [|done]. destruct (He 0) as [|He']; [done|]. simpl in He'. lia. Qed.

Lemma hd_join x l e : hd_addr (join x l) e = x.1.
Proof. destruct l as [|y l]; simpl; [done|]. by destruct (_ =? _). Qed.

Lemma hd_free_insert y z B e : hd_addr (free_insert y (z :: B)) e = z.1.
Proof. simpl. destruct (_ <? _); [apply hd_join|done]. Qed.

Lemma free_insert_coalesced y N : coalesced N -> coalesced (free_insert y N).
Proof.
  induction N as [|p B IH]; [done|]. intros H.
  assert (HB : coalesced B) by (destruct B; [done|apply H]).
  cbn [free_insert]. destruct (Z.ltb_spec y.1 (hd_addr B (y.1 + 1))) as [Hlt|Hge]; [by do 2 apply join_coalesced|].
  destruct B as [|z B]; [simpl in Hge; lia|]. destruct H as [H _]. apply coalesced_cons; [by apply IH|].
  intros e. right. rewrite hd_free_insert. lia.
Qed.

(** *** Links *)

Lemma links_app m l l' e : links m (l ++ l') e <-> links m l (hd_addr l' e) /\ links m l' e.
Proof.
  induction l as [|x l IH]; simpl; [tauto|]. rewrite IH. destruct l; simpl; tauto.
Qed.

Lemma links_at m l e i x :
  links m l e -> l !! i = Some x ->
  ld 8 m (h_ptr x.1) = match l !! S i with Some y => y.1 | None => e end /\ ld 4 m (h_size x.1) = x.2.
Proof.
  revert i. induction l as [|y l IH]; intros i Hl Hi; [done|]. destruct Hl as (H1 & H2 & H3).
  destruct i as [|i]; simpl in *; [|by apply IH]. simplify_eq. split; [|done]. rewrite H1. by destruct l.
Qed.

(** The header of [x] is the same in both memories. *)
Definition same_hdr (m m' : mem) (x : block) : Prop := forall a, x.1 <= a < x.1 + 16 -> rd m' a = rd m a.

Lemma same_hdr_ld m m' x :
  same_hdr m m' x -> ld 8 m' (h_ptr x.1) = ld 8 m (h_ptr x.1) /\ ld 4 m' (h_size x.1) = ld 4 m (h_size x.1).
Proof.
  intros H. unfold h_ptr, h_size. split; apply ld_frame; intros a Ha; apply H; lia.
Qed.

Lemma links_frame m m' l e : Forall (same_hdr m m') l -> links m l e -> links m' l e.
Proof.
  induction l as [|x l IH]; simpl; [done|]. intros [Hx Hl]%Forall_cons (H1 & H2 & H3).
  destruct (same_hdr_ld m m' x Hx) as [-> ->]. auto.
Qed.

(** A store to the header of [x] leaves the headers of blocks that are apart
    from it alone. *)
Lemma store_hdr m x y (n : nat) a v :
  disj x y -> x.1 <= a -> a + Z.of_nat n <= x.1 + 16 -> same_hdr m (st n m a v) y.
Proof.
  intros Hd H1 H2 c Hc. apply rd_st_out. destruct Hd as [H|H]; unfold before, bend in H; lia.
Qed.

Lemma store_keeps m x (n : nat) a v lv :
  Forall (disj x) lv -> x.1 <= a -> a + Z.of_nat n <= x.1 + 16 -> keeps lv m (st n m a v).
Proof.
  intros Hd H1 H2 y c Hy Hc. rewrite Forall_forall in Hd. specialize (Hd y Hy).
  apply rd_st_out. destruct Hd as [H|H]; unfold before, bend in *; lia.
Qed.

Lemma keeps_comp lv m1 m2 m3 : keeps lv m1 m2 -> keeps lv m2 m3 -> keeps lv m1 m3.
Proof. intros H1 H2 x a Hx Ha. rewrite (H2 x a), (H1 x a) by done. done. Qed.

Lemma keeps_live lv m m' :
  keeps lv m m' -> Forall (fun x => ld 4 m (h_size x.1) = x.2) lv -> Forall (fun x => ld 4 m' (h_size x.1) = x.2) lv.
Proof.
  intros Hk. rewrite !Forall_forall. intros H x Hx. rewrite <- (H x Hx). apply ld_frame.
  intros a Ha. apply (Hk x); [done|]. unfold h_size, bend in *. lia.
Qed.

(** *** Searching the list *)

Context `{!UImageOk ui}.

Lemma wp_uload n a Q s :
  0 <= a -> a + Z.of_nat n <= u_brk s -> Q (ld n (u_mem s) a) s -> wp (kr_load n a) Q s.
Proof.
  intros H1 H2 HQ. cbn [kr_load user_mem]. unfold wp, u_load, mapped.
  by rewrite (proj2 (Z.leb_le 0 a)), (proj2 (Z.leb_le _ (u_brk s))) by lia.
Qed.

Lemma wp_ustore n a v Q s :
  0 <= a -> a + Z.of_nat n <= u_brk s -> Q tt (setu_mem (st n (u_mem s) a v) s) -> wp (kr_store n a v) Q s.
Proof.
  intros H1 H2 HQ. cbn [kr_store user_mem]. unfold wp, u_store, mapped.
  by rewrite (proj2 (Z.leb_le 0 a)), (proj2 (Z.leb_le _ (u_brk s))) by lia.
Qed.

Lemma heap_mapped s N lv x : heap s N lv -> x ∈ N ++ lv -> 0 < x.1 /\ x.1 + 16 <= u_brk s.
Proof.
  intros [(bl & -> & Hr) _ _ _ _ _ Hb _] Hx. pose proof ui_base. pose proof ui_lo.
  simpl in Hx. apply elem_of_cons in Hx as [->|Hx]; [simpl; lia|].
  rewrite Forall_forall in Hr. destruct (Hr x Hx) as (? & ? & ?). unfold bend in *. lia.
Qed.

(** Steps from index [j] of a ring of [len] to index [k]. *)
Definition dist (len k j : nat) : nat := if (j <=? k)%nat then (k - j)%nat else (k + len - j)%nat.

Lemma dist_next len k j :
  (k < len)%nat -> (j < len)%nat -> j <> k ->
  (dist len k (if (S j <? len)%nat then S j else 0) < dist len k j)%nat.
Proof.
  intros Hk Hj Hne. unfold dist.
  destruct (Nat.ltb_spec (S j) len); destruct (Nat.leb_spec j k); try destruct (Nat.leb_spec (S j) k); simpl; lia.
Qed.

(** The address after index [j]. *)
Lemma ring_succ s N lv j x :
  heap s N lv -> N !! j = Some x ->
  exists y, N !! (if (S j <? length N)%nat then S j else 0%nat) = Some y /\ ld 8 (u_mem s) (h_ptr x.1) = y.1.
Proof.
  intros Hh Hj. destruct (links_at _ _ _ _ _ (hp_links _ _ _ Hh) Hj) as [-> _].
  destruct (hp_head _ _ _ Hh) as (bl & HN & _).
  destruct (Nat.ltb_spec (S j) (length N)) as [H|H].
  - destruct (lookup_lt_is_Some_2 N (S j) H) as [y Hy]. exists y. by rewrite Hy.
  - rewrite (lookup_ge_None_2 N (S j)) by lia. exists (ubase, 0). by rewrite HN.
Qed.

Lemma free_search_spec s N lv bp k p fuel : forall j c,
  heap s N lv -> N !! k = Some p ->
  (forall i x, N !! i = Some x -> (i <= k)%nat -> x.1 < bp) ->
  (forall i x, N !! i = Some x -> (k < i)%nat -> bp < x.1) ->
  N !! j = Some c -> (dist (length N) k j < fuel)%nat ->
  wp (free_search fuel bp c.1) (fun r s' => r = p.1 /\ s' = s) s.
Proof.
  intros j c Hh Hp Hlo Hhi. revert j c. induction fuel as [|fuel IH]; intros j c Hj Hf; [lia|].
  unfold free_search. cbn [loop]. apply wp_bind, wp_bind.
  destruct (heap_mapped s N lv c Hh) as [Hc1 Hc2]; [apply elem_of_app; left; by eapply list_elem_of_lookup_2|].
  apply wp_uload; [unfold h_ptr; lia|unfold h_ptr; lia|].
  destruct (ring_succ s N lv j c Hh Hj) as (y & Hy & ->).
  pose proof (lookup_lt_Some _ _ _ Hj) as Hjl. pose proof (lookup_lt_Some _ _ _ Hp) as Hkl.
  assert (Hgo : j <> k -> wp (mret (inl y.1)) (fun r s' => wp (match r with
      | inl a' => loop fuel (free_step bp) a' | inr y => mret y end) (fun r s' => r = p.1 /\ s' = s) s') s).
  { intros Hne. apply wp_ret. pose proof (dist_next (length N) k j Hkl Hjl Hne). eapply IH; [exact Hy|lia]. }
  destruct (Nat.ltb_spec (S j) (length N)) as [Hn|Hn].
  - assert (Hcy : c.1 < y.1) by (eapply (sorted_lt N j (S j)); [apply Hh|lia|done|done]).
    rewrite (proj2 (Z.leb_gt y.1 c.1)) by lia. cbn [andb].
    destruct (lt_eq_lt_dec j k) as [[H|H]|H].
    + pose proof (Hlo _ _ Hy ltac:(lia)). rewrite (proj2 (Z.ltb_ge bp y.1)), andb_false_r by lia. apply Hgo. lia.
    + subst k. assert (c = p) as -> by congruence. pose proof (Hlo _ _ Hp ltac:(lia)). pose proof (Hhi _ _ Hy ltac:(lia)).
      rewrite (proj2 (Z.ltb_lt p.1 bp)), (proj2 (Z.ltb_lt bp y.1)) by lia. done.
    + pose proof (Hhi _ _ Hj ltac:(lia)). rewrite (proj2 (Z.ltb_ge c.1 bp)) by lia. cbn [andb]. apply Hgo. lia.
  - assert (Hyc : y.1 <= c.1).
    { destruct (decide (j = 0)%nat) as [->|]; [assert (c = y) as -> by congruence; lia|].
      enough (y.1 < c.1) by lia. eapply (sorted_lt N 0 j); [apply Hh|lia|done|done]. }
    pose proof (Hlo _ _ Hy ltac:(lia)) as Hyb.
    rewrite (proj2 (Z.ltb_ge bp y.1)), andb_false_r, (proj2 (Z.leb_le y.1 c.1)) by lia. rewrite orb_false_r. cbn [andb].
    destruct (decide (j = k)) as [->|Hne].
    + assert (c = p) as -> by congruence. pose proof (Hlo _ _ Hp ltac:(lia)). rewrite (proj2 (Z.ltb_lt p.1 bp)) by lia. done.
    + pose proof (Hhi _ _ Hj ltac:(lia)). rewrite (proj2 (Z.ltb_ge c.1 bp)) by lia. by apply Hgo.
Qed.

(** *** [free] *)

Lemma split_list l bp :
  sorted l -> Forall (fun x => x.1 <> bp) l -> hd_addr l bp < bp ->
  exists A p B, l = A ++ p :: B /\ Forall (fun x => x.1 < bp) (A ++ [p]) /\ Forall (fun x => bp < x.1) B.
Proof.
  induction l as [|x l IH]; simpl; [lia|]. intros [Hx Hs] [_ Hne]%Forall_cons Hlt.
  destruct l as [|y l].
  { exists [], x, []. split; [done|]. split; [by apply Forall_singleton|by constructor]. }
  destruct (decide (y.1 < bp)) as [Hy|Hy].
  - destruct (IH Hs Hne Hy) as (A & p & B & -> & HA & HB). exists (x :: A), p, B. split; [done|].
    split; [by constructor|done].
  - exists [], x, (y :: l). split; [done|]. split; [by apply Forall_singleton|].
    apply Forall_cons in Hne as [Hyn _]. constructor; [lia|]. destruct Hs as [Hs _].
    eapply Forall_impl; [exact Hs|]. intros z Hz. unfold before, bend in Hz. lia.
Qed.

(** Between the two halves of [free]: the block [y] is linked to what follows
    it, but nothing is linked to [y] yet. *)
Record mid (s : ust) (A : list block) (p y : block) (B lv : list block) : Prop := {
  mi_head : exists bl, A ++ [p] = (ubase, 0) :: bl /\
    Forall (fun x => ulo <= x.1 /\ bend x <= u_brk s /\ 1 <= x.2) (bl ++ y :: B ++ lv);
  mi_links : links (u_mem s) A p.1;
  mi_p : ld 4 (u_mem s) (h_size p.1) = p.2;
  mi_y : links (u_mem s) (y :: B) ubase;
  mi_sorted : sorted (A ++ p :: y :: B);
  mi_live : Forall (fun x => ld 4 (u_mem s) (h_size x.1) = x.2) lv;
  mi_apart : apart (A ++ p :: y :: B ++ lv);
  mi_brk : ulo <= u_brk s <= ulimit;
  mi_all : ulo + 16 * units (A ++ p :: y :: B ++ lv) = u_brk s
}.

Lemma units_pos l : Forall (fun x : block => 0 <= x.2) l -> 0 <= units l.
Proof. induction 1; simpl; lia. Qed.

(** The two blocks that a merge adds up are small. *)
Lemma hplus_eq (x : block) brk : 0 < x.1 -> bend x <= brk -> 1 <= x.2 -> brk < 2 ^ 31 -> hplus x.1 x.2 = bend x.
Proof. intros. unfold bend in *. rewrite hplus_small by lia. lia. Qed.

Lemma app_head A (p : block) bl B x : A ++ [p] = x :: bl -> A ++ p :: B = x :: bl ++ B.
Proof. intros H. replace (A ++ p :: B) with ((A ++ [p]) ++ B) by (by rewrite <- app_assoc). by rewrite H. Qed.

(** The list with [p] and [y] joined. *)
Lemma merge_heap s A p y B lv m1 m2 bl :
  A ++ [p] = (ubase, 0) :: bl -> 1 <= p.2 -> 1 <= y.2 -> bend p = y.1 ->
  Forall (fun x => ulo <= x.1 /\ bend x <= u_brk s /\ 1 <= x.2) (bl ++ y :: B ++ lv) ->
  links (u_mem s) A p.1 -> links (u_mem s) B ubase ->
  m1 = st 4 (u_mem s) (h_size p.1) (p.2 + y.2) -> m2 = st 8 m1 (h_ptr p.1) (hd_addr B ubase) ->
  Forall (same_hdr (u_mem s) m1) (A ++ y :: B) -> Forall (same_hdr m1 m2) (A ++ y :: B) ->
  keeps lv (u_mem s) m1 -> keeps lv m1 m2 ->
  sorted (A ++ p :: y :: B) -> Forall (fun x => ld 4 (u_mem s) (h_size x.1) = x.2) lv ->
  apart (A ++ p :: y :: B ++ lv) -> ulo <= u_brk s <= ulimit ->
  ulo + 16 * units (A ++ p :: y :: B ++ lv) = u_brk s ->
  heap (mkU m2 p.1 (u_brk s)) (A ++ (p.1, p.2 + y.2) :: B) lv.
Proof.
  intros HA Hp1 Hy1 Hadj Hr HlA HlB -> -> Hf1 Hf2 Hk1 Hk2 Hs Hlv Hap Hbrk Hall.
  pose proof ui_base as Hb0. pose proof ui_lo as Hlo. pose proof ui_limit as Hlim.
  destruct p as [pa pn], y as [ya yn]. cbn [fst snd] in *.
  assert (Hya : ya = pa + 16 * pn) by (unfold bend in Hadj; simpl in Hadj; lia).
  destruct A as [|a0 A]; [injection HA; lia|]. simpl in HA. injection HA as -> <-.
  apply Forall_app in Hr as [Hr1 Hr2]. apply Forall_app in Hr1 as [HrA Hrp].
  apply Forall_cons in Hrp as [(Rp1 & Rp2 & _) _]. apply Forall_cons in Hr2 as [(Ry1 & Ry2 & _) HrB].
  cbn [fst snd] in Rp1, Ry1. assert (Hbe : bend (pa, pn + yn) = bend (ya, yn)) by (unfold bend; simpl; lia).
  split; cbn [u_mem u_fp u_brk fst snd].
  - exists (A ++ (pa, pn + yn) :: B). split; [done|]. rewrite <- app_assoc. cbn [app]. apply Forall_app. split; [done|].
    constructor; [rewrite Hbe; cbn [fst snd]; lia|done].
  - rewrite map_app. apply elem_of_app. right. apply list_elem_of_here.
  - apply Forall_app in Hf1 as [Hf1A [_ Hf1B]%Forall_cons]. apply Forall_app in Hf2 as [Hf2A [_ Hf2B]%Forall_cons].
    apply (links_app _ ((ubase, 0) :: A) ((pa, pn + yn) :: B)). split.
    + apply (links_frame (st 4 (u_mem s) (h_size pa) (pn + yn))); [done|]. by apply (links_frame (u_mem s)).
    + simpl. assert (0 <= hd_addr B ubase < 2 ^ 64).
      { destruct B as [|z B]; simpl; [lia|]. apply Forall_cons in HrB as [(? & ? & ?) _]. unfold bend in *. lia. }
      split; [by rewrite ld64_st64|]. unfold bend in Ry2; simpl in Ry2.
      split; [rewrite ld_st_disj by (unfold h_ptr, h_size; lia); by rewrite ld32_st32 by lia|].
      apply (links_frame (st 4 (u_mem s) (h_size pa) (pn + yn))); [done|]. by apply (links_frame (u_mem s)).
  - apply (sorted_app ((ubase, 0) :: A) ((pa, pn + yn) :: B)).
    apply (sorted_app ((ubase, 0) :: A)) in Hs as (Hs1 & Hs2 & Hs3). simpl in Hs2. destruct Hs2 as [Hs2 [Hs4 Hs5]].
    split; [done|]. split; [split; [|done]|].
    + eapply Forall_impl; [exact Hs4|]. intros z Hz. unfold before in *. by rewrite Hbe.
    + eapply Forall_impl; [exact Hs3|]. intros z Hz. apply Forall_cons in Hz as [Hz1 [_ Hz2]%Forall_cons]. by constructor.
  - by eapply keeps_live, keeps_live.
  - apply (apart_perm ((pa, pn + yn) :: ((ubase, 0) :: A) ++ B ++ lv)); [by rewrite <- app_assoc; simpl; solve_Permutation|].
    apply apart_cut; [lia|lia|]. rewrite <- Hya. eapply apart_perm; [|exact Hap]. simpl. solve_Permutation.
  - done.
  - rewrite <- Hall, <- app_assoc, !units_app. simpl. rewrite ?units_app. simpl. rewrite ?units_app. lia.
Qed.

(** [p] is [base] or a block of the heap. *)
Lemma mid_p s A p y B lv : mid s A p y B lv ->
  0 < p.1 /\ p.1 + 16 <= u_brk s /\ (p = (ubase, 0) \/ (ulo <= p.1 /\ bend p <= u_brk s /\ 1 <= p.2)).
Proof.
  intros [(bl & HA & Hr) _ _ _ _ _ _ Hbrk _]. pose proof ui_base. pose proof ui_lo. apply Forall_app in Hr as [Hrb _].
  assert (p ∈ (ubase, 0) :: bl) as [->|Hin]%elem_of_cons by (rewrite <- HA; apply elem_of_app; right; apply list_elem_of_here).
  - simpl. split; [lia|]. split; [lia|by left].
  - rewrite Forall_forall in Hrb. destruct (Hrb p Hin) as (? & ? & ?). unfold bend in *. split; [lia|]. split; [lia|right; lia].
Qed.

(** A store to the header of [p] touches no other block. *)
Lemma mid_frame s A p y B lv m (n : nat) a v : mid s A p y B lv -> p.1 <= a -> a + Z.of_nat n <= p.1 + 16 ->
  Forall (same_hdr m (st n m a v)) (A ++ y :: B) /\ keeps lv m (st n m a v).
Proof.
  intros Hm H1 H2. pose proof (mi_apart _ _ _ _ _ _ Hm) as Hap.
  assert (Hd : Forall (disj p) ((A ++ y :: B) ++ lv)).
  { assert (apart (p :: (A ++ y :: B) ++ lv)) as [H' _]; [|exact H'].
    eapply apart_perm; [|exact Hap]. rewrite <- app_assoc. simpl. solve_Permutation. }
  apply Forall_app in Hd as [Hd Hl]. split; [|by apply (store_keeps _ p)].
  eapply Forall_impl; [exact Hd|]. intros x Hx. by apply (store_hdr _ p).
Qed.

(** Linking the merged block: the second half of [free]. *)
Lemma free_lower s A p y B lv Q :
  mid s A p y B lv ->
  (forall s', heap s' (A ++ join p (y :: B)) lv -> keeps lv (u_mem s) (u_mem s') -> u_brk s' = u_brk s -> Q tt s') ->
  wp (psize ← kr_load 4 (h_size p.1);
      (if hplus p.1 psize =? y.1 then
         bsize ← kr_load 4 (h_size y.1);
         kr_store 4 (h_size p.1) (u32 (psize + bsize));;
         bnx ← kr_load 8 (h_ptr y.1);
         kr_store 8 (h_ptr p.1) bnx
       else kr_store 8 (h_ptr p.1) y.1);;
      kr_setp p.1) Q s.
Proof.
  intros Hm HQ. destruct (mid_p _ _ _ _ _ _ Hm) as (Rp1 & Rp2 & Rp3).
  assert (Hframe : forall m (n : nat) a v, p.1 <= a -> a + Z.of_nat n <= p.1 + 16 ->
    Forall (same_hdr m (st n m a v)) (A ++ y :: B) /\ keeps lv m (st n m a v)) by (intros; by apply (mid_frame s A p y B lv)).
  destruct Hm as [(bl & HA & Hr) HlA Hp [Hy1 [Hy2 HlB]] Hs Hlv Hap Hbrk Hall].
  pose proof ui_base as Hb0. pose proof ui_lo as Hlo. pose proof ui_limit as Hlim.
  pose proof Hr as Hr'. apply Forall_app in Hr' as [Hrb [(Ry1 & Ry2 & Ry3) _]%Forall_cons].
  assert (Hy0 : 0 < y.1 /\ y.1 + 16 <= u_brk s) by (unfold bend in Ry2; lia).
  apply wp_bind, wp_uload; [unfold h_size; lia|unfold h_size; lia|]. rewrite Hp.
  destruct (hplus p.1 p.2 =? y.1) eqn:E.
  - apply Z.eqb_eq in E. destruct Rp3 as [->|(Rp3 & Rp4 & Rp5)].
    { exfalso. cbn [fst snd] in E. rewrite hplus_small in E by lia. lia. }
    rewrite (hplus_eq p (u_brk s)) in E by lia. assert (Hbp : bend p = p.1 + 16 * p.2) by (unfold bend; lia).
    assert (Hby : bend y = p.1 + 16 * (p.2 + y.2)) by (unfold bend in *; lia).
    apply wp_bind, wp_bind, wp_uload; [unfold h_size; lia|unfold h_size; lia|]. rewrite Hy2.
    rewrite u32_small by lia. apply wp_bind, wp_ustore; [unfold h_size; lia|unfold h_size; lia|]. cbn [u_mem setu_mem u_brk].
    destruct (Hframe (u_mem s) 4%nat (h_size p.1) (p.2 + y.2)) as [Hf1 Hk1]; [unfold h_size; lia|unfold h_size; lia|].
    set (m1 := st 4 _ _ _) in *. apply wp_bind, wp_uload; [unfold h_ptr; lia|unfold h_ptr; simpl; lia|].
    cbn [u_mem setu_mem u_brk]. pose proof Hf1 as Hf1'. apply Forall_app in Hf1' as [_ [Hfy _]%Forall_cons].
    destruct (same_hdr_ld _ _ y Hfy) as [-> _]. rewrite Hy1.
    apply wp_ustore; [unfold h_ptr; lia|unfold h_ptr; simpl; lia|]. apply wp_modify. cbn [u_mem setu_mem u_brk].
    destruct (Hframe m1 8%nat (h_ptr p.1) (hd_addr B ubase)) as [Hf2 Hk2]; [unfold h_ptr; lia|unfold h_ptr; lia|].
    apply HQ; [|by eapply keeps_comp|done]. cbn [join]. rewrite (proj2 (Z.eqb_eq (p.1 + 16 * p.2) y.1)) by lia.
    by apply (merge_heap s A p y B lv m1 (st 8 m1 (h_ptr p.1) (hd_addr B ubase)) bl).
  - apply wp_bind, wp_ustore; [unfold h_ptr; lia|unfold h_ptr; lia|]. apply wp_modify. cbn [u_mem setu_mem].
    destruct (Hframe (u_mem s) 8%nat (h_ptr p.1) y.1) as [Hf Hk]; [unfold h_ptr; lia|unfold h_ptr; lia|].
    apply Forall_app in Hf as [HfA HfB]. set (m' := st 8 (u_mem s) (h_ptr p.1) y.1) in *.
    assert (Hne : p.1 + 16 * p.2 <> y.1).
    { apply Z.eqb_neq in E. destruct Rp3 as [->|(Rp3 & Rp4 & Rp5)]; [simpl; lia|].
      rewrite (hplus_eq p (u_brk s)) in E by lia. unfold bend in E. lia. }
    apply HQ; [|done|done]. cbn [join]. rewrite (proj2 (Z.eqb_neq _ _) Hne). split; simpl.
    + exists (bl ++ y :: B). split; [by apply app_head|]. by rewrite <- app_assoc.
    + rewrite map_app. apply elem_of_app. right. apply list_elem_of_here.
    + apply links_app. split; [by apply (links_frame (u_mem s))|]. simpl. split; [by unfold m'; rewrite ld64_st64 by lia|].
      split; [unfold m'; rewrite ld_st_disj by (unfold h_ptr, h_size; lia); done|].
      apply (links_frame (u_mem s) m' (y :: B)); [done|]. by split.
    + done.
    + by eapply keeps_live.
    + by rewrite <- app_assoc.
    + done.
    + by rewrite <- app_assoc.
Qed.

(** A block that is given back is apart from the rest. *)
Lemma heap_block s N y lv :
  heap s N (y :: lv) ->
  Forall (disj y) (N ++ lv) /\ apart (N ++ lv) /\ ulo <= y.1 /\ bend y <= u_brk s /\ 1 <= y.2.
Proof.
  intros [(bl & HN & Hr) _ _ _ _ Hap _ _].
  assert (apart (y :: N ++ lv)) as [H1 H2] by (eapply apart_perm; [|exact Hap]; solve_Permutation).
  split; [done|]. split; [done|]. apply Forall_app in Hr as [_ [Hy _]%Forall_cons]. done.
Qed.

Lemma sorted_insert A p B y :
  sorted (A ++ p :: B) -> Forall (disj y) (A ++ p :: B) ->
  Forall (fun x => x.1 < y.1) (A ++ [p]) -> Forall (fun x => y.1 < x.1) B -> sorted (A ++ p :: y :: B).
Proof.
  intros Hs Hd HA HB. apply sorted_app in Hs as (Hs1 & Hs2 & Hs3). simpl in Hs2. destruct Hs2 as [Hs2 Hs4].
  apply Forall_app in Hd as [HdA [Hdp HdB]%Forall_cons]. apply Forall_app in HA as [HA [Hp _]%Forall_cons].
  assert (Hlt : forall x, x.1 < y.1 -> disj y x -> before x y) by (unfold disj, before, bend; intros; lia).
  assert (Hgt : forall x, y.1 < x.1 -> disj y x -> before y x) by (unfold disj, before, bend; intros; lia).
  apply sorted_app. split; [done|]. split; [simpl; split; [constructor; [by apply Hlt|done]|split; [|done]]|].
  - apply Forall_forall. intros x Hx. rewrite Forall_forall in HB, HdB. auto.
  - apply Forall_forall. intros x Hx. rewrite Forall_forall in HA, HdA, Hs3. specialize (Hs3 x Hx).
    apply Forall_cons in Hs3 as [H1 H2]. constructor; [done|]. constructor; auto.
Qed.

(** Merging with the block after it: the first half of [free]. *)
Lemma free_upper s A p B y lv Q :
  heap s (A ++ p :: B) (y :: lv) ->
  Forall (fun x => x.1 < y.1) (A ++ [p]) -> Forall (fun x => y.1 < x.1) B ->
  (forall s' y' B', mid s' A p y' B' lv -> y' :: B' = join y B -> y'.1 = y.1 ->
     keeps lv (u_mem s) (u_mem s') -> u_brk s' = u_brk s -> Q tt s') ->
  wp (if hplus y.1 y.2 =? hd_addr B ubase then
        nsize ← kr_load 4 (h_size (hd_addr B ubase));
        kr_store 4 (h_size y.1) (u32 (y.2 + nsize));;
        nnx ← kr_load 8 (h_ptr (hd_addr B ubase));
        kr_store 8 (h_ptr y.1) nnx
      else kr_store 8 (h_ptr y.1) (hd_addr B ubase)) Q s.
Proof.
  intros Hh HltA HgtB HQ. destruct (heap_block _ _ _ _ Hh) as (Hd & Hap & Ry1 & Ry2 & Ry3).
  pose proof ui_base as Hb0. pose proof ui_lo as Hlo. pose proof ui_limit as Hlim.
  destruct Hh as [(bl & HN & Hr) _ Hl Hs Hlv Hapy Hbrk Hall].
  assert (HA : exists bl', A ++ [p] = (ubase, 0) :: bl' /\ bl = bl' ++ B).
  { destruct A as [|a A]; simpl in *; injection HN as -> <-; eexists; split; try done. by rewrite <- app_assoc. }
  destruct HA as (bl' & HA & ->). apply links_app in Hl as [HlA (Hp1 & Hp2 & HlB)].
  apply Forall_cons in Hlv as [Hy4 Hlv]. rewrite <- app_assoc in Hd. pose proof Hd as Hd'.
  apply Forall_app in Hd' as [HdA [Hdp Hd2]%Forall_cons]. apply Forall_app in Hd2 as [HdB Hdlv].
  assert (Hframe : forall m n a v, y.1 <= a -> a + Z.of_nat n <= y.1 + 16 ->
    Forall (same_hdr m (st n m a v)) (A ++ p :: B) /\ keeps lv m (st n m a v)).
  { intros m n a v H1 H2. split; [|by apply (store_keeps _ y)]. eapply Forall_impl; [apply Forall_app; split; [exact HdA|constructor; [exact Hdp|exact HdB]]|].
    intros x Hx. by apply (store_hdr _ y). }
  assert (Hy0 : 0 < y.1 /\ y.1 + 16 <= u_brk s) by (unfold bend in Ry2; lia).
  rewrite (hplus_eq y (u_brk s)) by lia. rewrite <- app_assoc in Hr.
  apply Forall_app in Hr as [Hrb Hr2]. apply Forall_app in Hr2 as [HrB [_ Hrl]%Forall_cons].
  pose proof (sorted_insert A p B y Hs) as Hsi.
  assert (Hapm : apart (A ++ p :: y :: B ++ lv)).
  { apply (apart_perm (y :: A ++ p :: B ++ lv)); [solve_Permutation|]. rewrite <- app_assoc in Hap. by split. }
  destruct (bend y =? hd_addr B ubase) eqn:E.
  - apply Z.eqb_eq in E. destruct B as [|z B]; [simpl in E; unfold bend in *; lia|]. cbn [hd_addr] in *.
    apply Forall_cons in HrB as [(Rz1 & Rz2 & Rz3) HrB]. destruct HlB as (Hz1 & Hz2 & HlB).
    assert (Hby : bend (y.1, y.2 + z.2) = bend z) by (unfold bend in *; simpl; lia).
    assert (Hy2 : y.2 + z.2 < 2 ^ 32) by (unfold bend in *; simpl in *; lia).
    assert (Hz0 : z.1 + 16 <= u_brk s) by (unfold bend in Rz2; lia).
    apply wp_bind, wp_uload; [unfold h_size; lia|unfold h_size; lia|]. rewrite Hz2, u32_small by lia.
    apply wp_bind, wp_ustore; [unfold h_size; lia|unfold h_size; lia|]. cbn [u_mem setu_mem u_brk].
    destruct (Hframe (u_mem s) 4%nat (h_size y.1) (y.2 + z.2)) as [Hf1 Hk1]; [unfold h_size; lia|unfold h_size; lia|].
    set (m1 := st 4 _ _ _) in *. apply wp_bind, wp_uload; [unfold h_ptr; lia|unfold h_ptr; simpl; lia|].
    cbn [u_mem setu_mem u_brk]. apply Forall_app in Hf1 as [HfA1 [Hfp1 [Hfz1 HfB1]%Forall_cons]%Forall_cons].
    destruct (same_hdr_ld _ _ z Hfz1) as [-> _]. rewrite Hz1.
    apply wp_ustore; [unfold h_ptr; lia|unfold h_ptr; simpl; lia|]. cbn [u_mem setu_mem u_brk].
    destruct (Hframe m1 8%nat (h_ptr y.1) (hd_addr B ubase)) as [Hf2 Hk2]; [unfold h_ptr; lia|unfold h_ptr; lia|].
    set (m2 := st 8 _ _ _) in *. apply Forall_app in Hf2 as [HfA2 [Hfp2 [_ HfB2]%Forall_cons]%Forall_cons].
    destruct (same_hdr_ld _ _ p Hfp1) as [_ Hp4]. destruct (same_hdr_ld _ _ p Hfp2) as [_ Hp5].
    apply (HQ _ (y.1, y.2 + z.2) B); [|unfold join; rewrite (proj2 (Z.eqb_eq (y.1 + 16 * y.2) z.1)); [done|unfold bend in E; lia]
      |done|by eapply keeps_comp|done].
    split; cbn [u_mem u_fp u_brk setu_mem fst snd]; try done.
    + exists bl'. split; [done|]. apply Forall_app. split; [done|]. constructor; [rewrite Hby; simpl; lia|by apply Forall_app].
    + apply (links_frame m1); [done|]. by apply (links_frame (u_mem s)).
    + by rewrite Hp5, Hp4.
    + simpl. assert (0 <= hd_addr B ubase < 2 ^ 64).
      { destruct B as [|b B]; simpl; [lia|]. apply Forall_cons in HrB as [(? & ? & ?) _]. unfold bend in *. lia. }
      split; [unfold m2; by rewrite ld64_st64|].
      split; [unfold m2, m1; rewrite ld_st_disj by (unfold h_ptr, h_size; lia); by rewrite ld32_st32 by lia|].
      apply (links_frame m1); [done|]. by apply (links_frame (u_mem s)).
    + specialize (Hsi ltac:(apply Forall_app; split; [done|by constructor]) HltA HgtB).
      apply sorted_app in Hsi as (S1 & (S2 & S3 & S4 & S5) & S6). apply sorted_app. split; [done|]. split.
      * simpl. apply Forall_cons in S2 as [S2 [_ S2']%Forall_cons]. split; [by constructor|]. split; [|done].
        eapply Forall_impl; [exact S4|]. intros w Hw. unfold before in *. by rewrite Hby.
      * eapply Forall_impl; [exact S6|]. intros w Hw. apply Forall_cons in Hw as [W1 [W2 [_ W3]%Forall_cons]%Forall_cons].
        constructor; [done|]. by constructor.
    + by eapply keeps_live, keeps_live.
    + apply (apart_perm ((y.1, y.2 + z.2) :: A ++ p :: B ++ lv)); [solve_Permutation|]. apply apart_cut; [lia|lia|].
      eapply apart_perm; [|exact Hapm]. replace (y.1 + 16 * y.2, z.2) with z; [|destruct z; unfold bend in E; simpl in *; f_equal; lia].
      destruct y; simpl. solve_Permutation.
    + rewrite <- Hall, !units_app. simpl. rewrite ?units_app. simpl. lia.
  - apply wp_ustore; [unfold h_ptr; lia|unfold h_ptr; lia|].
    destruct (Hframe (u_mem s) 8%nat (h_ptr y.1) (hd_addr B ubase)) as [Hf Hk]; [unfold h_ptr; lia|unfold h_ptr; lia|].
    set (m' := st 8 _ _ _) in *. apply Forall_app in Hf as [HfA [Hfp HfB]%Forall_cons].
    apply (HQ _ y B); try done.
    2: { apply Z.eqb_neq in E. destruct B as [|z B]; [done|]. unfold join. rewrite (proj2 (Z.eqb_neq _ _)); [done|].
         cbn [hd_addr] in E. unfold bend in E. lia. }
    destruct (same_hdr_ld _ _ p Hfp) as [_ Hp4].
    split; cbn [u_mem u_fp u_brk setu_mem]; try done.
    + exists bl'. split; [done|]. apply Forall_app. split; [done|]. constructor; [done|]. by apply Forall_app.
    + by apply (links_frame (u_mem s)).
    + by rewrite Hp4.
    + simpl. assert (0 <= hd_addr B ubase < 2 ^ 64).
      { destruct B as [|z B]; simpl; [lia|]. apply Forall_cons in HrB as [(? & ? & ?) _]. unfold bend in *. lia. }
      split; [unfold m'; by rewrite ld64_st64|].
      split; [unfold m'; by rewrite ld_st_disj by (unfold h_ptr, h_size; lia)|]. by apply (links_frame (u_mem s)).
    + apply Hsi; try done. apply Forall_app. split; [done|by constructor].
    + by eapply keeps_live.
    + rewrite <- Hall, !units_app. simpl. rewrite !units_app. lia.
Qed.

Lemma dist_lt len k j : (k < len)%nat -> (j < len)%nat -> (dist len k j < len)%nat.
Proof. unfold dist. destruct (Nat.leb_spec j k); lia. Qed.

Lemma lookup_mid (A : list block) p B : (A ++ p :: B) !! length A = Some p.
Proof. by rewrite lookup_app_r, Nat.sub_diag by lia. Qed.

(** The two parts of a split, by index. *)
Lemma split_index A p B bp :
  Forall (fun x => x.1 < bp) (A ++ [p]) -> Forall (fun x => bp < x.1) B ->
  (forall i (x : block), (A ++ p :: B) !! i = Some x -> (i <= length A)%nat -> x.1 < bp) /\
  (forall i (x : block), (A ++ p :: B) !! i = Some x -> (length A < i)%nat -> bp < x.1).
Proof.
  intros HA HB. rewrite Forall_forall in HA, HB. split; intros i x Hi Hl.
  - apply HA. apply elem_of_app. destruct (decide (i = length A)) as [->|].
    + rewrite lookup_mid in Hi. simplify_eq. right. apply list_elem_of_here.
    + left. rewrite lookup_app_l in Hi by lia. by eapply list_elem_of_lookup_2.
  - apply HB. rewrite lookup_app_r in Hi by lia.
    destruct (i - length A)%nat as [|d] eqn:Ed; [lia|]. by eapply list_elem_of_lookup_2.
Qed.

Lemma free_spec s N y lv fuel :
  heap s N (y :: lv) -> (length N <= fuel)%nat ->
  wp (free fuel (y.1 + 16)) (fun _ s' => heap s' (free_insert y N) lv /\ keeps lv (u_mem s) (u_mem s') /\
    u_brk s' = u_brk s) s.
Proof.
  intros Hh Hf. destruct (heap_block _ _ _ _ Hh) as (Hd & _ & Ry1 & Ry2 & Ry3).
  pose proof ui_base as Hb0. pose proof ui_lo as Hlo. pose proof ui_limit as Hlim. pose proof (hp_brk _ _ _ Hh) as Hbrk.
  assert (Hy0 : y.1 + 16 <= u_brk s) by (unfold bend in Ry2; lia).
  destruct (split_list N y.1) as (A & p & B & -> & HA & HB).
  - apply Hh.
  - apply Forall_app in Hd as [Hd _]. eapply Forall_impl; [exact Hd|]. intros x [H|H]; unfold before, bend in H; lia.
  - destruct (hp_head _ _ _ Hh) as (bl & -> & _). simpl. lia.
  - destruct (split_index A p B y.1 HA HB) as [Hlt Hgt].
    unfold free, kr_free. apply wp_bind, wp_gets. replace (u64 (y.1 + 16 - sizeof_header)) with y.1 by (unfold sizeof_header; rewrite u64_small; lia).
    pose proof (hp_fp _ _ _ Hh) as Hfp. apply list_elem_of_fmap in Hfp as (c & Hc & Hin).
    apply list_elem_of_lookup in Hin as [j Hj]. rewrite Hc.
    apply wp_bind. eapply wp_conseq; [eapply (free_search_spec s _ _ y.1 (length A) p fuel j c Hh); [apply lookup_mid|done|done|done|]|].
    { pose proof (dist_lt (length (A ++ p :: B)) (length A) j) as Hdl. pose proof (lookup_lt_Some _ _ _ Hj).
      rewrite length_app in *. simpl in *. lia. }
    intros r s' [-> ->]. apply wp_bind, wp_uload; [unfold h_size; lia|unfold h_size; lia|].
    pose proof (hp_live _ _ _ Hh) as [Hy4 _]%Forall_cons. rewrite Hy4.
    destruct (links_at _ _ _ _ _ (hp_links _ _ _ Hh) (lookup_mid A p B)) as [Hp8 Hp4].
    destruct (heap_mapped s _ _ p Hh) as [Hp1 Hp2]; [apply elem_of_app; left; apply elem_of_app; right; apply list_elem_of_here|].
    apply wp_bind, wp_uload; [unfold h_ptr; lia|unfold h_ptr; lia|].
    assert (ld 8 (u_mem s) (h_ptr p.1) = hd_addr B ubase) as ->.
    { rewrite Hp8. rewrite lookup_app_r by lia. replace (S (length A) - length A)%nat with 1%nat by lia. by destruct B. }
    apply wp_bind. apply (free_upper s A p B y lv); [done|done|done|].
    intros s1 y' B' Hm EJ Ey Hk Hb. rewrite <- Ey. apply (free_lower s1 A p y' B' lv); [done|].
    intros s2 Hh2 Hk2 Hb2. rewrite free_insert_split, <- EJ by done. split; [done|]. split; [by eapply keeps_comp|]. congruence.
Qed.

(** What [morecore] needs of the new list: it is not much longer and has a
    block at least as large as the one given back. *)
Lemma length_free_insert y N : (length (free_insert y N) <= S (length N))%nat.
Proof.
  induction N as [|p B IH]; simpl; [lia|]. destruct (_ <? _); [|simpl; lia].
  pose proof (length_join p (join y B)). pose proof (length_join y B). lia.
Qed.

Lemma join_here x l : Forall (fun z : block => 0 <= z.2) l -> Exists (fun z => x.2 <= z.2) (join x l).
Proof.
  destruct l as [|y l]; simpl; intros H; [constructor; lia|]. apply Forall_cons in H as [H _].
  destruct (_ =? _); constructor; simpl; lia.
Qed.

Lemma join_there (k : Z) x l : 0 <= x.2 -> Exists (fun z => k <= z.2) l -> Exists (fun z => k <= z.2) (join x l).
Proof.
  destruct l as [|y l]; simpl; intros H He; [by apply Exists_nil in He|].
  destruct (_ =? _); [|by constructor 2]. apply Exists_cons in He as [He|He]; [constructor; simpl; lia|by constructor 2].
Qed.

Lemma free_insert_room y N : Forall (fun z : block => 0 <= z.2) N -> Exists (fun z => y.2 <= z.2) (free_insert y N).
Proof.
  induction N as [|p B IH]; simpl; intros H; [constructor; lia|]. apply Forall_cons in H as [Hp HB].
  destruct (_ <? _); [apply join_there; [done|by apply join_here]|]. constructor 2. auto.
Qed.

Lemma heap_sizes s N lv : heap s N lv -> Forall (fun z : block => 0 <= z.2) N.
Proof.
  intros [(bl & -> & Hr) _ _ _ _ _ _ _]. constructor; [simpl; lia|]. apply Forall_app in Hr as [Hr _].
  eapply Forall_impl; [exact Hr|]. simpl. lia.
Qed.

(** *** [malloc] *)

(** The heap with a new block at its end. *)
Lemma heap_grow s N lv nu :
  heap s N lv -> 1 <= nu < 2 ^ 32 -> u_brk s + 16 * nu <= ulimit ->
  let m := st 4 (u_mem s) (h_size (u_brk s)) nu in
  heap (mkU m (u_fp s) (u_brk s + 16 * nu)) N ((u_brk s, nu) :: lv) /\ keeps lv (u_mem s) m.
Proof.
  intros Hh Hnu Hlim m. pose proof (hp_brk _ _ _ Hh) as Hb. pose proof ui_base. pose proof ui_lo. pose proof ui_limit.
  set (y := (u_brk s, nu)).
  assert (Hend : Forall (fun x => bend x <= u_brk s) (N ++ lv)).
  { destruct (hp_head _ _ _ Hh) as (bl & -> & Hr). constructor; [unfold bend; simpl; lia|].
    eapply Forall_impl; [exact Hr|]. simpl. tauto. }
  assert (Hd : Forall (disj y) (N ++ lv)).
  { eapply Forall_impl; [exact Hend|]. intros x Hx. right. done. }
  pose proof Hd as Hd'. apply Forall_app in Hd' as [HdN Hdl].
  assert (Hk : keeps lv (u_mem s) m) by (apply (store_keeps _ y); [done|unfold h_size; simpl; lia|unfold h_size; simpl; lia]).
  split; [|done]. destruct Hh as [(bl & HN & Hr) Hfp Hl Hs Hlv Hap _ Hall]. split; cbn [u_mem u_fp u_brk]; try done.
  - exists bl. split; [done|]. apply Forall_app in Hr as [Hr1 Hr2]. apply Forall_app. split; [|constructor].
    + eapply Forall_impl; [exact Hr1|]. simpl. intros x (? & ? & ?). repeat split; lia.
    + unfold bend. simpl. lia.
    + eapply Forall_impl; [exact Hr2|]. simpl. intros x (? & ? & ?). repeat split; lia.
  - apply (links_frame (u_mem s)); [|done]. eapply Forall_impl; [exact HdN|]. intros x Hx.
    apply (store_hdr _ y); [done|unfold h_size; simpl; lia|unfold h_size; simpl; lia].
  - constructor; [unfold m; simpl; by rewrite ld32_st32 by lia|by eapply keeps_live].
  - apply (apart_perm (y :: N ++ lv)); [solve_Permutation|]. by split.
  - lia.
  - rewrite units_app in *. simpl. lia.
Qed.

Lemma morecore_spec s N lv n fuel :
  heap s N lv -> 1 <= n < 2 ^ 27 -> (length N <= fuel)%nat ->
  wp (morecore fuel n) (fun r s' => (r = 0 /\ s' = s) \/
    (r <> 0 /\ r = u_fp s' /\ exists N', heap s' N' lv /\ keeps lv (u_mem s) (u_mem s') /\
      (length N' <= S (length N))%nat /\ Exists (fun x => n <= x.2) N')) s.
Proof.
  intros Hh Hn Hf. unfold morecore. set (nu := if n <? 4096 then 4096 else n).
  assert (Hnu : n <= nu < 2 ^ 27 /\ 1 <= nu) by (unfold nu; destruct (Z.ltb_spec n 4096); lia).
  pose proof (hp_brk _ _ _ Hh) as Hb. pose proof ui_base. pose proof ui_lo. pose proof ui_limit.
  apply wp_bind. unfold sbrk. apply wp_bind, wp_gets.
  replace (i32 (u64 (nu * sizeof_header))) with (16 * nu)
    by (unfold sizeof_header; rewrite u64_small, i32_small; lia).
  destruct (ugrant (u_brk s) (16 * nu)) eqn:Hgr; cbn [negb].
  2: { apply wp_ret. rewrite Z.eqb_refl. apply wp_ret. by left. }
  apply ui_grant in Hgr.
  apply wp_bind, wp_modify, wp_ret. rewrite (proj2 (Z.eqb_neq (u_brk s) (2 ^ 64 - 1))) by lia.
  apply wp_bind, wp_ustore; [unfold h_size; lia|unfold h_size; simpl; lia|]. cbn [u_mem setu_mem u_brk u_fp].
  destruct (heap_grow s N lv nu Hh) as [Hg Hk]; [lia|lia|].
  rewrite hplus_small by lia. apply wp_bind. eapply wp_conseq; [apply (free_spec _ N (u_brk s, nu) lv fuel); [exact Hg|done]|].
  intros _ s' (Hh' & Hk' & Hb'). set (N' := free_insert _ N) in *. apply wp_gets. right. split; [|split; [done|]].
  - pose proof (hp_fp _ _ _ Hh') as Hfp. apply list_elem_of_fmap in Hfp as (x & -> & Hx).
    destruct (heap_mapped s' N' lv x Hh') as [? ?]; [apply elem_of_app; by left|]. lia.
  - exists N'. split; [done|]. split; [by eapply keeps_comp|]. split; [apply length_free_insert|].
    eapply Exists_impl; [apply free_insert_room; by eapply heap_sizes|]. simpl. lia.
Qed.

(** Taking all of a block off the list. *)
Lemma heap_unlink s A q p B lv :
  heap s (A ++ q :: p :: B) lv -> 1 <= p.2 ->
  let m := st 8 (u_mem s) (h_ptr q.1) (hd_addr B ubase) in
  heap (mkU m q.1 (u_brk s)) (A ++ q :: B) (p :: lv) /\ keeps lv (u_mem s) m.
Proof.
  intros Hh Hp m. pose proof Hh as [(bl & HN & Hr) _ Hl Hs Hlv Hap Hb Hall].
  pose proof ui_base. pose proof ui_lo. pose proof ui_limit.
  assert (Hq : Forall (disj q) (A ++ p :: B ++ lv)).
  { assert (apart (q :: A ++ p :: B ++ lv)) as [H' _]; [|exact H']. eapply apart_perm; [|exact Hap]. rewrite <- app_assoc. simpl. solve_Permutation. }
  apply Forall_app in Hq as [HqA [Hqp HqBl]%Forall_cons]. apply Forall_app in HqBl as [HqB Hql].
  assert (Hf : forall x, disj q x -> same_hdr (u_mem s) m x).
  { intros x Hx. apply (store_hdr _ q); [done|unfold h_ptr; lia|unfold h_ptr; lia]. }
  assert (Hk : keeps lv (u_mem s) m) by (apply (store_keeps _ q); [done|unfold h_ptr; lia|unfold h_ptr; lia]).
  assert (Hbl : exists bl', A ++ q :: B = (ubase, 0) :: bl' /\ bl ++ lv ≡ₚ bl' ++ p :: lv).
  { destruct A as [|a A]; simpl in *; injection HN as -> <-; eexists; (split; [done|]); simpl; solve_Permutation. }
  destruct Hbl as (bl' & HN' & Hperm). apply links_app in Hl as [HlA (Hq1 & Hq2 & Hp1 & Hp2 & HlB)].
  split; [|done]. split; cbn [u_mem u_fp u_brk].
  - exists bl'. split; [done|]. by rewrite <- Hperm.
  - rewrite map_app. apply elem_of_app. right. apply list_elem_of_here.
  - apply links_app. split; [|simpl; split; [|split]].
    + apply (links_frame (u_mem s)); [|exact HlA]. eapply Forall_impl; [exact HqA|exact Hf].
    + unfold m. rewrite ld64_st64; [done|]. destruct B as [|z B]; simpl; [lia|].
      destruct (heap_mapped s _ _ z Hh) as [? ?]; [|lia]. rewrite <- app_assoc. apply elem_of_app. right. simpl.
      apply list_elem_of_further, list_elem_of_further, list_elem_of_here.
    + unfold m. by rewrite ld_st_disj by (unfold h_ptr, h_size; lia).
    + apply (links_frame (u_mem s)); [|exact HlB]. eapply Forall_impl; [exact HqB|exact Hf].
  - apply sorted_app in Hs as (S1 & (S2 & S3 & S4) & S5). apply sorted_app. split; [done|].
    apply Forall_cons in S2 as [_ S2]. split; [by split|]. eapply Forall_impl; [exact S5|].
    intros x Hx. apply Forall_cons in Hx as [X1 [_ X2]%Forall_cons]. by constructor.
  - constructor; [|by eapply keeps_live]. destruct (same_hdr_ld _ _ p (Hf p Hqp)) as [_ ->]. done.
  - eapply apart_perm; [|exact Hap]. rewrite <- !app_assoc. simpl. solve_Permutation.
  - done.
  - rewrite !units_app in *. simpl in *. lia.
Qed.

(** Carving the last [n] units off a block. *)
Lemma heap_carve s A p B lv n fp :
  heap s (A ++ p :: B) lv -> 1 <= n < p.2 -> fp ∈ map fst (A ++ p :: B) ->
  let y := (p.1 + 16 * (p.2 - n), n) in
  let m1 := st 4 (u_mem s) (h_size p.1) (p.2 - n) in
  let m2 := st 4 m1 (h_size y.1) n in
  heap (mkU m2 fp (u_brk s)) (A ++ (p.1, p.2 - n) :: B) (y :: lv) /\ keeps lv (u_mem s) m2.
Proof.
  intros Hh Hn Hfp y m1 m2. pose proof ui_base. pose proof ui_lo. pose proof ui_limit.
  destruct p as [pa pn]. cbn [fst snd] in *. set (p' := (pa, pn - n)).
  pose proof Hh as [(bl & HN & Hr) _ Hl Hs Hlv Hap Hb Hall].
  assert (Hcut : apart (p' :: y :: A ++ B ++ lv)).
  { apply (proj1 (apart_cut pa (pn - n) n (A ++ B ++ lv) ltac:(lia) ltac:(lia))). replace (pn - n + n) with pn by lia.
    eapply apart_perm; [|exact Hap]. rewrite <- app_assoc. simpl. solve_Permutation. }
  pose proof Hcut as [[Hpy Hp]%Forall_cons [Hy _]]. apply Forall_app in Hp as [HpA [HpB Hpl]%Forall_app].
  apply Forall_app in Hy as [HyA [HyB Hyl]%Forall_app].
  assert (Hf : forall x, disj p' x -> disj y x -> same_hdr (u_mem s) m2 x).
  { intros x Hd1 Hd2 a Ha. unfold m2. rewrite (store_hdr _ y x) by (try done; unfold h_size; lia).
    by apply (store_hdr _ p' x); [|unfold h_size; simpl; lia|unfold h_size; simpl; lia|]. }
  assert (Hk : keeps lv (u_mem s) m2).
  { apply (keeps_comp _ _ m1); [apply (store_keeps _ p')|apply (store_keeps _ y)]; try done; unfold h_size; simpl; lia. }
  destruct A as [|a0 A]; [injection HN; lia|]. simpl in HN. injection HN as -> <-.
  apply Forall_app in Hr as [Hr Hrl]. apply Forall_app in Hr as [HrA [Hrp HrB]%Forall_cons].
  cbn [fst snd] in Hrp. destruct Hrp as (R1 & R2 & R3). unfold bend in R2. simpl in R2.
  apply links_app in Hl as [HlA (Hl1 & Hl2 & HlB)].
  split; [|done]. split; cbn [u_mem u_fp u_brk].
  - exists (A ++ p' :: B). split; [done|]. rewrite <- app_assoc. apply Forall_app. split; [done|].
    constructor; [unfold bend; simpl; lia|]. apply Forall_app. split; [done|]. constructor; [unfold bend; simpl; lia|done].
  - rewrite map_app in *. done.
  - apply links_app. split; [|split; [|split]].
    + apply (links_frame (u_mem s)); [|exact HlA]. rewrite Forall_forall in *. auto.
    + unfold m2, m1. by rewrite !ld_st_disj by (unfold h_ptr, h_size; simpl; lia).
    + unfold m2, m1. rewrite ld_st_disj by (unfold h_ptr, h_size; simpl; lia). rewrite ld32_st32; [done|lia].
    + apply (links_frame (u_mem s)); [|exact HlB]. rewrite Forall_forall in *. auto.
  - apply sorted_app in Hs as (S1 & (S2 & S3) & S4). apply sorted_app. split; [done|]. split; [split; [|done]|].
    + eapply Forall_impl; [exact S2|]. unfold before, bend. simpl. lia.
    + eapply Forall_impl; [exact S4|]. intros x [X1 X2]%Forall_cons. by constructor.
  - constructor; [|by eapply keeps_live]. unfold m2. apply ld32_st32. simpl. lia.
  - eapply apart_perm; [|exact Hcut]. rewrite <- app_assoc. simpl. solve_Permutation.
  - done.
  - rewrite !units_app in *. simpl in *. rewrite ?units_app in *. simpl in *. lia.
Qed.

(** What [malloc] promises of the address it returns. *)
Definition allocated (lv : list block) (n : Z) (m : mem) (r : Z) (s' : ust) : Prop :=
  exists N', heap s' N' ((r - 16, n) :: lv) /\ keeps lv m (u_mem s').

Lemma malloc_take_spec s A q p B lv n :
  heap s (A ++ q :: p :: B) lv -> 1 <= n <= p.2 ->
  wp (malloc_take n q.1 p.1 p.2) (allocated lv n (u_mem s)) s.
Proof.
  intros Hh Hn. pose proof ui_base. pose proof ui_lo. pose proof ui_limit. pose proof (hp_brk _ _ _ Hh) as Hb.
  destruct (heap_mapped s _ _ q Hh) as [Hq1 Hq2]; [rewrite <- app_assoc; apply elem_of_app; right; apply list_elem_of_here|].
  assert (Hr : ulo <= p.1 /\ bend p <= u_brk s).
  { destruct (hp_head _ _ _ Hh) as (bl & HN & Hr). assert (Hin : p ∈ A ++ q :: p :: B)
      by (apply elem_of_app; right; apply list_elem_of_further, list_elem_of_here).
    rewrite HN in Hin. apply elem_of_cons in Hin as [->|Hin]; [simpl in Hn; lia|].
    rewrite Forall_forall in Hr. destruct (Hr p) as (? & ? & ?); [|done]. apply elem_of_app. by left. }
  destruct Hr as [Hp1 Hp2]. assert (Hp3 : p.1 + 16 * p.2 <= u_brk s) by (unfold bend in Hp2; lia).
  unfold malloc_take. destruct (Z.eqb_spec p.2 n) as [E|E].
  - pose proof (hp_links _ _ _ Hh) as Hl. apply links_app in Hl as [_ (_ & _ & Hl & _)].
    apply wp_bind, wp_uload; [unfold h_ptr; lia|unfold h_ptr; lia|]. rewrite Hl.
    apply wp_bind, wp_ustore; [unfold h_ptr; lia|unfold h_ptr; lia|]. apply wp_bind, wp_modify, wp_ret.
    rewrite hplus_small by lia. destruct (heap_unlink s A q p B lv Hh) as [Hh' Hk]; [lia|].
    exists (A ++ q :: B). replace (p.1 + 16 * 1 - 16, n) with p by (destruct p; simpl in *; f_equal; lia). by split.
  - rewrite u32_small by lia.
    apply wp_bind, wp_ustore; [unfold h_size; lia|unfold h_size; lia|].
    apply wp_bind, wp_uload; [unfold h_size; lia|unfold h_size; simpl; lia|]. cbn [u_mem setu_mem].
    rewrite ld32_st32 by lia. rewrite (hplus_small p.1) by lia.
    apply wp_bind, wp_ustore; [unfold h_size; lia|unfold h_size; simpl; lia|]. apply wp_bind, wp_modify, wp_ret.
    rewrite hplus_small by lia. replace (A ++ q :: p :: B) with ((A ++ [q]) ++ p :: B) in Hh by (by rewrite <- app_assoc).
    destruct (heap_carve s (A ++ [q]) p B lv n q.1 Hh) as [Hh' Hk]; [lia| |].
    { rewrite !map_app. apply elem_of_app. left. apply elem_of_app. right. apply list_elem_of_here. }
    eexists. replace (p.1 + 16 * (p.2 - n) + 16 * 1 - 16) with (p.1 + 16 * (p.2 - n)) by lia. split; [exact Hh'|exact Hk].
Qed.

(** *** The search of [malloc] *)

Lemma sorted_inj N i j x y : sorted N -> N !! i = Some x -> N !! j = Some y -> x.1 = y.1 -> i = j.
Proof.
  intros Hs Hi Hj He. destruct (lt_eq_lt_dec i j) as [[H|H]|H]; [exfalso|done|exfalso].
  - pose proof (sorted_lt N i j x y Hs H Hi Hj). lia.
  - pose proof (sorted_lt N j i y x Hs H Hj Hi). lia.
Qed.

Lemma fp_index s N lv : heap s N lv -> exists k x, N !! k = Some x /\ u_fp s = x.1.
Proof.
  intros Hh. pose proof (hp_fp _ _ _ Hh) as Hfp. apply list_elem_of_fmap in Hfp as (x & -> & Hx).
  apply list_elem_of_lookup in Hx as [k Hk]. by exists k, x.
Qed.

Definition next (N : list block) (i : nat) : nat := if (S i <? length N)%nat then S i else 0%nat.

(** What the search finds fits; it is not [base], so its predecessor stands
    before it in the list. *)
Lemma fit_split s N lv i q p n :
  heap s N lv -> N !! i = Some q -> N !! next N i = Some p -> 1 <= n <= p.2 ->
  exists A B, N = A ++ q :: p :: B.
Proof.
  intros Hh Hi Hj Hn. unfold next in Hj. destruct (Nat.ltb_spec (S i) (length N)).
  - exists (take i N), (drop (S (S i)) N). rewrite <- (drop_S _ _ _ Hj), <- (drop_S _ _ _ Hi). by rewrite take_drop.
  - destruct (hp_head _ _ _ Hh) as (bl & -> & _). simpl in Hj. injection Hj as <-. simpl in Hn. lia.
Qed.

Lemma wp_step s N lv i p n more (Q : _ -> ust -> Prop) q :
  heap s N lv -> N !! i = Some q -> N !! next N i = Some p -> 1 <= n ->
  (n <= p.2 -> forall r s', allocated lv n (u_mem s) r s' -> Q (inr r) s') ->
  (p.2 < n -> p.1 <> u_fp s -> forall y, N !! next N (next N i) = Some y -> Q (inl (p.1, y.1)) s) ->
  (p.2 < n -> p.1 = u_fp s -> wp (more n) (fun r s' => wp (if r =? 0 then mret (inr 0) else
      nx ← kr_load 8 (h_ptr r); mret (inl (r, nx))) Q s') s) ->
  wp (malloc_step more n (q.1, p.1)) Q s.
Proof.
  intros Hh Hi Hj Hn Htake Hgo Hmore. unfold malloc_step.
  destruct (heap_mapped s N lv p Hh) as [Hp1 Hp2]; [apply elem_of_app; left; by eapply list_elem_of_lookup_2|].
  apply wp_bind, wp_uload; [unfold h_size; lia|unfold h_size; lia|].
  destruct (links_at _ _ _ _ _ (hp_links _ _ _ Hh) Hj) as [_ ->].
  destruct (Z.leb_spec n p.2) as [Hf|Hf].
  - destruct (fit_split s N lv i q p n Hh Hi Hj ltac:(lia)) as (A & B & ->). apply wp_bind.
    eapply wp_conseq; [by apply (malloc_take_spec s A q p B lv n)|]. intros r s' Hr. apply wp_ret. by apply Htake.
  - apply wp_bind, wp_gets. destruct (Z.eqb_spec p.1 (u_fp s)) as [E|E]; [by apply wp_bind, Hmore|].
    apply wp_bind, wp_uload; [unfold h_ptr; lia|unfold h_ptr; lia|].
    destruct (ring_succ s N lv _ p Hh Hj) as (y & Hy & ->). apply wp_ret. by apply Hgo.
Qed.

Lemma next_lt N i x : N !! i = Some x -> (next N i < length N)%nat.
Proof. intros H%lookup_lt_Some. unfold next. destruct (Nat.ltb_spec (S i) (length N)); lia. Qed.

Lemma dist_step N k j : (k < length N)%nat -> (j < length N)%nat -> j <> k ->
  S (dist (length N) k (next N j)) = dist (length N) k j.
Proof.
  intros Hk Hj Hne. unfold next, dist.
  destruct (Nat.ltb_spec (S j) (length N)); destruct (Nat.leb_spec j k); try destruct (Nat.leb_spec (S j) k); simpl; lia.
Qed.

Lemma dist_inj len k i j : (k < len)%nat -> (i < len)%nat -> (j < len)%nat -> dist len k i = dist len k j -> i = j.
Proof. intros Hk Hi Hj. unfold dist. destruct (Nat.leb_spec i k), (Nat.leb_spec j k); lia. Qed.

(** The search starts as far from [freep] as it can. *)
Lemma dist_max N k i : (k < length N)%nat -> (i < length N)%nat ->
  (dist (length N) k i <= dist (length N) k (next N k) < length N)%nat.
Proof.
  intros Hk Hi. unfold next, dist.
  destruct (Nat.ltb_spec (S k) (length N)); destruct (Nat.leb_spec i k); try destruct (Nat.leb_spec (S k) k); simpl; lia.
Qed.

(** Some block fits and is still ahead. *)
Lemma search_fit s N lv n more k x f z fuel : forall i q p,
  heap s N lv -> 1 <= n -> N !! k = Some x -> u_fp s = x.1 -> N !! f = Some z -> n <= z.2 ->
  N !! i = Some q -> N !! next N i = Some p ->
  (dist (length N) k f <= dist (length N) k (next N i) < fuel)%nat ->
  wp (malloc_search fuel more n q.1 p.1) (allocated lv n (u_mem s)) s.
Proof.
  intros i q p Hh Hn Hk Hx Hf Hz. revert i q p. induction fuel as [|fuel IH]; intros i q p Hi Hj Hd; [lia|].
  unfold malloc_search. cbn [loop]. apply wp_bind.
  pose proof (next_lt N i q Hi). pose proof (lookup_lt_Some _ _ _ Hf). pose proof (lookup_lt_Some _ _ _ Hk).
  assert (Hfj : p.2 < n -> dist (length N) k f <> dist (length N) k (next N i)).
  { intros Hp He. apply dist_inj in He; [|done..]. subst f. assert (z = p) as -> by congruence. lia. }
  apply (wp_step s N lv i p); try done.
  - intros Hp Hne y Hy. apply (IH (next N i) p y); try done.
    assert (next N i <> k) by (intros E; rewrite E in Hj; congruence).
    pose proof (dist_step N k (next N i)). specialize (Hfj Hp). lia.
  - intros Hp He. exfalso. specialize (Hfj Hp).
    assert (next N i = k) as E by (eapply sorted_inj; [apply Hh|done|done|congruence]).
    rewrite E in *. assert (dist (length N) k k = 0)%nat by (unfold dist; rewrite Nat.leb_refl; lia). lia.
Qed.

(** What [malloc] ends with. *)
Definition malloc_post (lv : list block) (n : Z) (s : ust) (r : Z) (s' : ust) : Prop :=
  (r = 0 /\ s' = s) \/ (r <> 0 /\ allocated lv n (u_mem s) r s').

Lemma allocated_nz lv n m r s' : allocated lv n m r s' -> r <> 0.
Proof.
  intros (N' & Hh & _). pose proof ui_base. destruct (heap_mapped s' N' _ (r - 16, n) Hh) as [H' _]; [|simpl in H'; lia].
  apply elem_of_app. right. apply list_elem_of_here.
Qed.

(** The search again, after [morecore]. *)
Lemma search_again s N lv n more m fuel :
  heap s N lv -> 1 <= n -> (length N < fuel)%nat -> Exists (fun x => n <= x.2) N -> keeps lv m (u_mem s) ->
  wp (nx ← kr_load 8 (h_ptr (u_fp s)); mret (inl (u_fp s, nx))) (fun r s' =>
    wp (match r with inl a => loop fuel (malloc_step more n) a | inr y => mret y end) (allocated lv n m) s') s.
Proof.
  intros Hh Hn Hf Hex Hk. destruct (fp_index s N lv Hh) as (k & x & Hkx & Hx). rewrite Hx.
  destruct (heap_mapped s N lv x Hh) as [Hp1 Hp2]; [apply elem_of_app; left; by eapply list_elem_of_lookup_2|].
  apply wp_bind, wp_uload; [unfold h_ptr; lia|unfold h_ptr; lia|].
  destruct (ring_succ s N lv k x Hh Hkx) as (y & Hy & ->). apply wp_ret.
  apply Exists_exists in Hex as (z & Hz & Hnz). apply list_elem_of_lookup in Hz as [f Hfz].
  pose proof (lookup_lt_Some _ _ _ Hkx). pose proof (lookup_lt_Some _ _ _ Hfz).
  eapply wp_conseq; [apply (search_fit s N lv n more k x f z fuel k x y); try done|].
  - pose proof (dist_max N k f). lia.
  - intros r s' (N' & Hh' & Hk'). exists N'. split; [done|]. by eapply keeps_comp.
Qed.

Lemma search_spec s N lv n k x mf fuel : forall i q p,
  heap s N lv -> 1 <= n < 2 ^ 27 -> (length N <= mf)%nat -> N !! k = Some x -> u_fp s = x.1 ->
  N !! i = Some q -> N !! next N i = Some p ->
  (dist (length N) k (next N i) + length N + 2 < fuel)%nat ->
  wp (malloc_search fuel (morecore mf) n q.1 p.1) (malloc_post lv n s) s.
Proof.
  intros i q p Hh Hn Hmf Hk Hx. revert i q p. induction fuel as [|fuel IH]; intros i q p Hi Hj Hd; [lia|].
  unfold malloc_search. cbn [loop]. apply wp_bind.
  pose proof (next_lt N i q Hi). pose proof (lookup_lt_Some _ _ _ Hk).
  apply (wp_step s N lv i p); try done; [lia|..].
  - intros _ r s' Hr. apply wp_ret. right. split; [by eapply allocated_nz|done].
  - intros Hp Hne y Hy. apply (IH (next N i) p y); try done.
    assert (next N i <> k) by (intros E; rewrite E in Hj; congruence). pose proof (dist_step N k (next N i)). lia.
  - intros Hp He. eapply wp_conseq; [by apply (morecore_spec s N lv n mf)|].
    intros r s' [[-> ->]|(Hr & -> & N' & Hh' & Hk' & Hl & Hex)]; [by left|].
    rewrite (proj2 (Z.eqb_neq (u_fp s') 0)) by done.
    eapply wp_conseq; [apply (search_again s' N' lv n (morecore mf) (u_mem s) fuel); try done; lia|]. intros a s2 H2.
    eapply wp_conseq; [exact H2|]. intros r2 s3 H3. right. split; [by eapply allocated_nz|done].
Qed.

(** ** The allocator's contract *)

(** The state before the first [malloc]: nothing allocated, [freep] null. *)
Definition fresh (s : ust) (lv : list block) : Prop :=
  u_fp s = 0 /\ lv = [] /\ u_brk s = ulo /\ ulo <= ulimit.

(** The live blocks [lv], each the header and the bytes [malloc] gave out. *)
Definition uheap (s : ust) (lv : list block) : Prop := fresh s lv \/ exists N, heap s N lv.

(** Enough steps for two rounds of the list, whatever its length. *)
Definition enough (fuel : nat) : Prop := (ulimit - ulo) / 8 + 8 <= Z.of_nat fuel.

Lemma units_length l : Forall (fun x : block => 1 <= x.2) l -> Z.of_nat (length l) <= units l.
Proof. induction 1; simpl; lia. Qed.

Lemma heap_length s N lv fuel : heap s N lv -> enough fuel -> (2 * length N + 4 < fuel)%nat.
Proof.
  intros [(bl & -> & Hr) _ _ _ _ _ Hb Hall] Hf. unfold enough in Hf.
  assert (Z.of_nat (length (bl ++ lv)) <= units (bl ++ lv)) by (apply units_length; eapply Forall_impl; [exact Hr|]; simpl; tauto).
  simpl in *. rewrite length_app in *. pose proof (Z.div_mod (ulimit - ulo) 8). pose proof (Z.mod_pos_bound (ulimit - ulo) 8). lia.
Qed.

Lemma heap_perm s N lv lv' : lv ≡ₚ lv' -> heap s N lv -> heap s N lv'.
Proof.
  intros Hp [(bl & HN & Hr) H1 H2 H3 H4 H5 H6 H7]. split; try done.
  - exists bl. split; [done|]. by rewrite <- Hp.
  - by rewrite <- Hp.
  - eapply apart_perm; [|exact H5]. by rewrite Hp.
  - rewrite <- H7. f_equal. f_equal. apply units_perm. by rewrite Hp.
Qed.

(** The header [base] set up by the first [malloc]. *)
Definition init_base (s : ust) : ust :=
  mkU (st 4 (st 8 (u_mem s) (h_ptr ubase) ubase) (h_size ubase) 0) ubase (u_brk s).

Lemma heap_init s :
  fresh s [] ->
  heap (init_base s) [(ubase, 0)] [].
Proof.
  intros (_ & _ & Hb & Hl). pose proof ui_base. pose proof ui_lo. pose proof ui_limit. split; simpl.
  - by exists [].
  - apply list_elem_of_here.
  - rewrite ld_st_disj by (unfold h_ptr, h_size; lia). rewrite ld64_st64 by lia. by rewrite ld32_st32 by lia.
  - done.
  - by constructor.
  - by split.
  - lia.
  - lia.
Qed.

Lemma keeps_nil m m' : keeps [] m m'.
Proof. intros y a Hy. by apply elem_of_nil in Hy. Qed.

(** [malloc] on a heap that is set up. *)
Lemma malloc_heap s N lv n fuel x k :
  heap s N lv -> enough fuel -> 1 <= n < 2 ^ 27 -> N !! k = Some x -> u_fp s = x.1 ->
  wp (p ← kr_load 8 (h_ptr x.1); malloc_search fuel (morecore fuel) n x.1 p) (malloc_post lv n s) s.
Proof.
  intros Hh Hf Hn Hk Hx. pose proof (heap_length s N lv fuel Hh Hf). pose proof (lookup_lt_Some _ _ _ Hk).
  destruct (heap_mapped s N lv x Hh) as [Hp1 Hp2]; [apply elem_of_app; left; by eapply list_elem_of_lookup_2|].
  apply wp_bind, wp_uload; [unfold h_ptr; lia|unfold h_ptr; lia|].
  destruct (ring_succ s N lv k x Hh Hk) as (y & Hy & ->).
  apply (search_spec s N lv n k x fuel fuel k x y); try done; [lia|]. pose proof (dist_max N k k). lia.
Qed.

Lemma malloc_spec s lv fuel nbytes :
  uheap s lv -> enough fuel -> 0 <= nbytes < 2 ^ 31 - 64 ->
  wp (malloc fuel nbytes) (fun r s' => (r = 0 /\ uheap s' lv /\ keeps lv (u_mem s) (u_mem s')) \/
    (r <> 0 /\ allocated lv (nunits nbytes) (u_mem s) r s')) s.
Proof.
  intros Hu Hf Hn. pose proof ui_base. pose proof ui_lo. pose proof ui_limit.
  destruct (nunits_spec nbytes) as [Hu1 Hu2]; [lia|].
  assert (1 <= nunits nbytes < 2 ^ 27) by (pose proof (Z.div_mod (nbytes + 15) 16); pose proof (Z.mod_pos_bound (nbytes + 15) 16); lia).
  unfold malloc, kr_malloc. apply wp_bind, wp_gets. destruct Hu as [Hfr|[N Hh]].
  - pose proof Hfr as (Hz & -> & Hb & Hl). rewrite Hz, Z.eqb_refl. apply wp_bind, wp_bind, wp_modify.
    apply wp_bind, wp_ustore; [unfold h_ptr; simpl; lia|unfold h_ptr; simpl; lia|].
    apply wp_ustore; [unfold h_size; simpl; lia|unfold h_size; simpl; lia|].
    match goal with |- wp _ _ ?t => change t with (init_base s) end.
    eapply wp_conseq; [apply (malloc_heap _ [(ubase, 0)] [] _ fuel (ubase, 0) 0); [exact (heap_init s Hfr)|done..]|].
    intros r s' [[-> ->]|[Hr (N' & Hh' & _)]]; [left|right; split; [done|exists N'; split; [done|apply keeps_nil]]].
    split; [done|]. split; [right; eexists; by apply heap_init|]. apply keeps_nil.
  - destruct (fp_index s N lv Hh) as (k & x & Hk & Hx). rewrite Hx.
    destruct (heap_mapped s N lv x Hh) as [Hp1 Hp2]; [apply elem_of_app; left; by eapply list_elem_of_lookup_2|].
    rewrite (proj2 (Z.eqb_neq x.1 0)) by lia. apply wp_bind, wp_ret.
    eapply wp_conseq; [by apply (malloc_heap s N lv _ fuel x k)|].
    intros r s' [[-> ->]|Hr]; [left|by right]. split; [done|]. split; [right; by exists N|done].
Qed.

(** C19: the user-level [malloc] of umalloc.c.  From the state before the first
    call, or from any heap with the live blocks [lv], it returns either 0, with
    the same live blocks, or the address of a new block: it lies between the
    end of the program and the break, it has room for [nbytes] bytes, it
    overlaps none of the live blocks, and the heap now has it among its live
    blocks.  No byte of a live block changes either way. *)
Theorem malloc_allocates s lv fuel nbytes :
  uheap s lv -> enough fuel -> 0 <= nbytes < 2 ^ 31 - 64 ->
  wp (malloc fuel nbytes) (fun r s' =>
    keeps lv (u_mem s) (u_mem s') /\
    ((r = 0 /\ uheap s' lv) \/
     (let y := (r - 16, nunits nbytes) in
      uheap s' (y :: lv) /\ Forall (disj y) lv /\ ulo <= r - 16 /\ r + nbytes <= bend y <= u_brk s'))) s.
Proof.
  intros Hu Hf Hn. eapply wp_conseq; [by apply malloc_spec|].
  intros r s' [(-> & Hu' & Hk)|(Hr & N' & Hh & Hk)]; (split; [done|]); [by left|right].
  destruct (heap_block s' N' _ lv Hh) as (Hd & _ & H1 & H2 & _). apply Forall_app in Hd as [_ Hd].
  split; [right; by exists N'|]. split; [done|]. split; [done|]. split; [|done].
  destruct (nunits_spec nbytes) as [Hn1 Hn2]; [lia|]. unfold bend. simpl.
  pose proof (Z.div_mod (nbytes + 15) 16). pose proof (Z.mod_pos_bound (nbytes + 15) 16). lia.
Qed.

(** C20: the user-level [free] of umalloc.c.  Given the address that [malloc]
    returned for a live block of a heap with the free list [N], it ends with
    that block no longer live and the free list [free_insert y N]: the block is
    at its place by address and merged with the block before it and with the
    block after it where they touch, so that a free list without adjacent
    blocks stays one.  No byte of the other live blocks changes, and the break
    stays where it is. *)
Theorem free_frees s N lv lv' y fuel :
  heap s N lv -> lv ≡ₚ y :: lv' -> enough fuel ->
  wp (free fuel (y.1 + 16)) (fun _ s' =>
    heap s' (free_insert y N) lv' /\ (coalesced N -> coalesced (free_insert y N)) /\
    keeps lv' (u_mem s) (u_mem s') /\ u_brk s' = u_brk s) s.
Proof.
  intros Hh Hp Hf. apply (heap_perm _ _ _ _ Hp) in Hh. pose proof (heap_length s N _ fuel Hh Hf).
  eapply wp_conseq; [apply (free_spec s N y lv' fuel); [done|lia]|].
  intros _ s' (Hh' & Hk & Hb). split; [done|]. split; [apply free_insert_coalesced|done].
Qed.

End umalloc.

(** *** A concrete program *)

(** [base] at 1024 in the data segment, the heap from 4096 up to 256 pages. *)
Definition demo_prog : UImage := {|
  ubase := 1024; ulo := 4096; ulimit := 4096 + 256 * 4096;
  ugrant := fun brk n => brk + n <=? 4096 + 256 * 4096
|}.

Lemma demo_prog_ok : @UImageOk demo_prog.
Proof. split; simpl; [lia..|]. intros brk n H. by apply Z.leb_le. Qed.

Definition demo_start : ust := mkU ∅ 0 4096.
(** After [malloc(100)] grew the heap by 8 units. *)
Definition demo_one : ust := let s := @init_base demo_prog demo_start in
  mkU (st 4 (u_mem s) (h_size (u_brk s)) 8) (u_fp s) (u_brk s + 16 * 8).

Lemma malloc_allocates_witness :
  @uheap demo_prog demo_start [] /\
  wp (@malloc demo_prog (Z.to_nat 200000) 100) (fun r s' =>
    keeps [] (u_mem demo_start) (u_mem s') /\
    ((r = 0 /\ @uheap demo_prog s' []) \/
     (@uheap demo_prog s' [(r - 16, nunits 100)] /\ Forall (disj (r - 16, nunits 100)) [] /\
      4096 <= r - 16 /\ r + 100 <= bend (r - 16, nunits 100) <= u_brk s'))) demo_start.
Proof.
  assert (H : @uheap demo_prog demo_start []) by (left; repeat split; simpl; lia).
  split; [exact H|].
  apply (@malloc_allocates demo_prog demo_prog_ok demo_start [] (Z.to_nat 200000) 100 H); [|lia].
  unfold enough. rewrite Z2Nat.id by lia. vm_compute. discriminate.
Defined.

(** Two blocks of 8 units: the second is given back, then the first. *)
Definition demo_two : ust := mkU (st 4 (u_mem demo_one) (h_size (u_brk demo_one)) 8) (u_fp demo_one) (u_brk demo_one + 16 * 8).
Definition demo_freed : ust :=
  match @free demo_prog 3 4240 demo_two with Ret _ s => s | Err _ s => s end.

Lemma demo_two_heap : @heap demo_prog demo_two [(1024, 0)] [(4224, 8); (4096, 8)].
Proof.
  assert (Hf : @fresh demo_prog demo_start []) by (repeat split; simpl; lia).
  pose proof (@heap_init demo_prog demo_prog_ok demo_start Hf) as Hi.
  assert (H1 : @heap demo_prog demo_one [(1024, 0)] [(4096, 8)])
    by (apply (@heap_grow demo_prog demo_prog_ok _ _ [] 8 Hi); simpl; lia).
  apply (@heap_grow demo_prog demo_prog_ok _ _ [(4096, 8)] 8 H1); simpl; lia.
Qed.

Lemma demo_freed_heap : @heap demo_prog demo_freed [(1024, 0); (4224, 8)] [(4096, 8)].
Proof.
  pose proof (@free_spec demo_prog demo_prog_ok demo_two _ (4224, 8) _ 3 demo_two_heap) as H.
  unfold wp in H. change ((4224, 8).1 + 16) with 4240 in H. unfold demo_freed.
  destruct (free 3 4240 demo_two); [|exfalso; apply H; simpl; lia].
  apply H. simpl. lia.
Qed.

Lemma free_frees_witness :
  wp (@free demo_prog (Z.to_nat 200000) 4112) (fun _ s' =>
    @heap demo_prog s' [(1024, 0); (4096, 16)] [] /\
    (coalesced [(1024, 0); (4224, 8)] -> coalesced [(1024, 0); (4096, 16)]) /\
    keeps [] (u_mem demo_freed) (u_mem s') /\ u_brk s' = u_brk demo_freed) demo_freed.
Proof.
  apply (@free_frees demo_prog demo_prog_ok demo_freed [(1024, 0); (4224, 8)] [(4096, 8)] [] (4096, 8)
           (Z.to_nat 200000) demo_freed_heap); [reflexivity|].
  unfold enough. rewrite Z2Nat.id by lia. vm_compute. discriminate.
Defined.
