(* ===== verification/Grind.v ===== *)
(** * The stress test [user/grind.c]

    The program as a tree of system calls, and its random number generator:
    Schrage's decomposition computes the Park-Miller step without overflow,
    and the sequence runs through every value before it repeats.  [go] loops for ever; its fuel is
    the number of rounds. *)
From stdpp Require Import base gmap strings numbers option list.
From Stdlib Require Import ZArith Znumtheory Zpow_facts Lia.
From S2P Require Import Prelude Block Printf Sysfile Sh User Utils.
Open Scope Z_scope.

(** ** The generator *)

(** [do_rand]: the new context and the value returned. *)
Definition do_rand (ctx : Z) : Z * Z :=
  let x := ctx mod 0x7ffffffe + 1 in
  let hi := x / 127773 in
  let lo := x mod 127773 in
  let x := 16807 * lo - 2836 * hi in
  let x := if x <? 0 then x + 0x7fffffff else x in
  let x := x - 1 in
  (u64 x, i32 x).

(** What lives across the rounds of [go]: [rand_next], [fd], the static
    buffer, [iters]. *)
Record gst := mkG { g_rand : Z; g_fd : Z; g_buf : list Z; g_iters : Z }.

Definition rand (s : gst) : gst * Z :=
  let '(ctx, r) := do_rand (g_rand s) in
  (mkG ctx (g_fd s) (g_buf s) (g_iters s), r).

Definition set_fd (fd : Z) (s : gst) : gst := mkG (g_rand s) fd (g_buf s) (g_iters s).
Definition set_buf (b : list Z) (s : gst) : gst := mkG (g_rand s) (g_fd s) b (g_iters s).

(** ** The program *)

Definition CREATE_RDWR : Z := Z.lor O_CREATE O_RDWR.

(** A message and [exit]. *)
Definition die {A} (fd : Z) (msg : string) (st : Z) : prog A := fprintf fd (lit msg ++ nl) [];; exit st.

(** [close(open(path, O_CREATE|O_RDWR))] *)
Definition touch (path : string) : prog unit := fd ← sysv (COpen (lit path) CREATE_RDWR); do_ (CClose fd).

(** [fork] with the body of the child, which does not come back, and what the
    parent does. *)
Definition fork_child (child : prog unit) (parent : Z -> prog unit) : prog unit :=
  pid ← sysv CFork;
  if pid =? 0 then child else
  if pid <? 0 then die 1 "grind: fork failed" 1 else
  parent pid.

Definition go_pipe : prog unit :=
  r ← sys CPipe;
  if r.1 <? 0 then die 1 "grind: pipe failed" 1 else
  let fds := pipe_end r in
  fork_child
    (do_ CFork;; do_ CFork;;
     w ← sysv (CWrite (fds 1%nat) (lit "x"));
     (if negb (w =? 1) then u_printf (lit "grind: pipe write failed" ++ nl) [] else mret tt);;
     n ← sysv (CRead (fds 0%nat) 1);
     (if negb (n =? 1) then u_printf (lit "grind: pipe read failed" ++ nl) [] else mret tt);;
     exit 0)
    (fun _ => do_ (CClose (fds 0%nat));; do_ (CClose (fds 1%nat));; do_ CWait).

Definition go_fstat : prog unit :=
  do_ (CUnlink (lit "c"));;
  fd1 ← sysv (COpen (lit "c") CREATE_RDWR);
  if fd1 <? 0 then die 1 "grind: create c failed" 1 else
  w ← sysv (CWrite fd1 (lit "x"));
  if negb (w =? 1) then die 1 "grind: write c failed" 1 else
  st ← sys (CFstat fd1);
  if negb (st.1 =? 0) then die 1 "grind: fstat failed" 1 else
  if negb (st_size st.2 =? 1) then
    u_printf (lit "grind: fstat reports wrong size %d" ++ nl) [AInt (i32 (st_size st.2))];; exit 1 else
  if 200 <? st_ino st.2 then
    u_printf (lit "grind: fstat reports crazy i-number %d" ++ nl) [AInt (st_ino st.2)];; exit 1 else
  do_ (CClose fd1);;
  do_ (CUnlink (lit "c")).

(** The two children of [echo hi | cat]. *)
Definition go_echo (aa bb : nat -> Z) : prog unit :=
  do_ (CClose (bb 0%nat));; do_ (CClose (bb 1%nat));; do_ (CClose (aa 0%nat));; do_ (CClose 1);;
  d ← sysv (CDup (aa 1%nat));
  if negb (d =? 1) then die 2 "grind: dup failed" 1 else
  do_ (CClose (aa 1%nat));;
  do_ (CExec (lit "grindir/../echo") [lit "echo"; lit "hi"]);;
  die 2 "grind: echo: not found" 2.

Definition go_cat (aa bb : nat -> Z) : prog unit :=
  do_ (CClose (aa 1%nat));; do_ (CClose (bb 0%nat));; do_ (CClose 0);;
  d ← sysv (CDup (aa 0%nat));
  if negb (d =? 0) then die 2 "grind: dup failed" 4 else
  do_ (CClose (aa 0%nat));; do_ (CClose 1);;
  d ← sysv (CDup (bb 1%nat));
  if negb (d =? 1) then die 2 "grind: dup failed" 5 else
  do_ (CClose (bb 1%nat));;
  do_ (CExec (lit "/cat") [lit "cat"]);;
  die 2 "grind: cat: not found" 6.

(** [read(fd, buf+i, 1)] on the four zero bytes of [buf]. *)
Definition read1 (fd : Z) (i : nat) (buf : list Z) : prog (list Z) :=
  r ← sys (CRead fd 1);
  mret (match r.2 with b :: _ => <[i := b]> buf | [] => buf end).

(** [junk1] and [junk2] are what the stack holds at [st1] and [st2], which are
    read even when [wait] failed. *)
Definition go_pipeline (junk1 junk2 : Z) : prog unit :=
  r ← sys CPipe;
  if r.1 <? 0 then die 2 "grind: pipe failed" 1 else
  let aa := pipe_end r in
  r ← sys CPipe;
  if r.1 <? 0 then die 2 "grind: pipe failed" 1 else
  let bb := pipe_end r in
  pid1 ← sysv CFork;
  if pid1 =? 0 then go_echo aa bb else
  if pid1 <? 0 then die 2 "grind: fork failed" 3 else
  pid2 ← sysv CFork;
  if pid2 =? 0 then go_cat aa bb else
  if pid2 <? 0 then die 2 "grind: fork failed" 7 else
  do_ (CClose (aa 0%nat));; do_ (CClose (aa 1%nat));; do_ (CClose (bb 1%nat));;
  buf ← read1 (bb 0%nat) 0 (repeat 0 4);
  buf ← read1 (bb 0%nat) 1 buf;
  buf ← read1 (bb 0%nat) 2 buf;
  do_ (CClose (bb 0%nat));;
  st1 ← wait_status junk1;
  st2 ← wait_status junk2;
  let s := until_nul buf in
  if negb (st1 =? 0) || negb (st2 =? 0) || negb (bool_decide (s = lit "hi" ++ nl)) then
    u_printf (lit "grind: exec pipeline failed %d %d " ++ [34] ++ lit "%s" ++ [34] ++ nl) [AInt st1; AInt st2; AStr s];;
    exit 1
  else mret tt.

(** The branches of [go] that only make system calls. *)
Definition go_calls (what : Z) : prog unit :=
  if what =? 1 then touch "grindir/../a" else
  if what =? 2 then touch "grindir/../grindir/../b" else
  if what =? 3 then do_ (CUnlink (lit "grindir/../a")) else
  if what =? 4 then
    c ← sysv (CChdir (lit "grindir"));
    if negb (c =? 0) then die 1 "grind: chdir grindir failed" 1 else
    do_ (CUnlink (lit "../b"));; do_ (CChdir (lit "/")) else
  if what =? 9 then
    do_ (CMkdir (lit "grindir/../a"));; touch "a/../a/./a";; do_ (CUnlink (lit "a/a")) else
  if what =? 10 then
    do_ (CMkdir (lit "/../b"));; touch "grindir/../b/b";; do_ (CUnlink (lit "b/b")) else
  if what =? 11 then do_ (CUnlink (lit "b"));; do_ (CLink (lit "../grindir/./../a") (lit "../b")) else
  if what =? 12 then do_ (CUnlink (lit "../grindir/../a"));; do_ (CLink (lit ".././b") (lit "/grindir/../a")) else
  if what =? 13 then fork_child (exit 0) (fun _ => do_ CWait) else
  if what =? 14 then fork_child (do_ CFork;; do_ CFork;; exit 0) (fun _ => do_ CWait) else
  if what =? 15 then do_ (CSbrk 6011) else
  if what =? 17 then
    fork_child (touch "a";; exit 0) (fun pid =>
      c ← sysv (CChdir (lit "../grindir/.."));
      if negb (c =? 0) then die 1 "grind: chdir failed" 1 else
      do_ (CKill pid);; do_ CWait) else
  if what =? 18 then
    fork_child (me ← sysv CGetpid; do_ (CKill me);; exit 0) (fun _ => do_ CWait) else
  if what =? 19 then go_pipe else
  if what =? 20 then
    fork_child
      (do_ (CUnlink (lit "a"));; do_ (CMkdir (lit "a"));; do_ (CChdir (lit "a"));; do_ (CUnlink (lit "../a"));;
       do_ (COpen (lit "x") CREATE_RDWR);; do_ (CUnlink (lit "x"));; exit 0)
      (fun _ => do_ CWait) else
  if what =? 21 then go_fstat else
  mret tt.

(** One round of the loop of [go]. *)
Definition go_step (which_child break0 junk1 junk2 : Z) (s : gst) : prog (gst + unit) :=
  let s := mkG (g_rand s) (g_fd s) (g_buf s) (u64 (g_iters s + 1)) in
  (if g_iters s mod 500 =? 0 then do_ (CWrite 1 (lit (if negb (which_child =? 0) then "B" else "A"))) else mret tt);;
  let '(s, r) := rand s in
  let what := Z.rem r 23 in
  if what =? 5 then
    do_ (CClose (g_fd s));; fd ← sysv (COpen (lit "/grindir/../a") CREATE_RDWR); mret (inl (set_fd fd s)) else
  if what =? 6 then
    do_ (CClose (g_fd s));; fd ← sysv (COpen (lit "/./grindir/./../b") CREATE_RDWR); mret (inl (set_fd fd s)) else
  if what =? 7 then do_ (CWrite (g_fd s) (g_buf s));; mret (inl s) else
  if what =? 8 then
    r ← sys (CRead (g_fd s) 999);
    mret (inl (set_buf (r.2 ++ drop (length r.2) (g_buf s)) s)) else
  if what =? 16 then
    b ← sysv (CSbrk 0);
    (if break0 <? b then b ← sysv (CSbrk 0); do_ (CSbrk (i32 (- (b - break0)))) else mret tt);;
    mret (inl s) else
  if what =? 22 then go_pipeline junk1 junk2;; mret (inl s) else
  go_calls what;; mret (inl s).

Definition go (fuel : nat) (which_child rand_next junk1 junk2 : Z) : prog unit :=
  break0 ← sysv (CSbrk 0);
  do_ (CMkdir (lit "grindir"));;
  c ← sysv (CChdir (lit "grindir"));
  if negb (c =? 0) then die 1 "grind: chdir grindir failed" 1 else
  do_ (CChdir (lit "/"));;
  ploop fuel (go_step which_child break0 junk1 junk2) (mkG rand_next (-1) (repeat 0 999) 0).

Definition iter (fuel : nat) (junk1 junk2 : Z) : prog unit :=
  do_ (CUnlink (lit "a"));;
  do_ (CUnlink (lit "b"));;
  pid1 ← sysv CFork;
  if pid1 <? 0 then die 1 "grind: fork failed" 1 else
  if pid1 =? 0 then go fuel 0 31 junk1 junk2;; exit 0 else
  pid2 ← sysv CFork;
  if pid2 <? 0 then die 1 "grind: fork failed" 1 else
  if pid2 =? 0 then go fuel 1 7177 junk1 junk2;; exit 0 else
  st1 ← wait_status (-1);
  (if negb (st1 =? 0) then do_ (CKill pid1);; do_ (CKill pid2) else mret tt);;
  wait_status (-1);;
  exit 0.

Definition grind_main (fuel : nat) (junk1 junk2 : Z) : prog unit :=
  ploop fuel (fun _ : unit =>
    pid ← sysv CFork;
    if pid =? 0 then iter fuel junk1 junk2;; exit 0 else
    (if 0 <? pid then do_ CWait else mret tt);;
    do_ (CSleep 20);;
    mret (inl tt)) tt.

(** ** The generator is the Park-Miller step *)

Definition PM : Z := 0x7fffffff.

Lemma schrage x :
  1 <= x < PM ->
  let y := 16807 * (x mod 127773) - 2836 * (x / 127773) in
  - PM < y < PM /\ (if y <? 0 then y + PM else y) = 16807 * x mod PM.
Proof.
  intros Hx y. pose proof (Z.div_mod x 127773 ltac:(lia)). pose proof (Z.mod_pos_bound x 127773 ltac:(lia)).
  assert (0 <= x / 127773 <= 16807) by (unfold PM in *; lia).
  assert (Hy : - PM < y < PM) by (unfold y, PM; lia). split; [done|].
  destruct (Z.ltb_spec y 0).
  - apply (Z.mod_unique _ _ (x / 127773 - 1)); [left; lia|]. unfold y, PM. lia.
  - apply (Z.mod_unique _ _ (x / 127773)); [left; lia|]. unfold y, PM. lia.
Qed.

Lemma coprime_PM : Z.gcd PM 16807 = 1.
Proof. reflexivity. Qed.

(** Multiplication by 16807 keeps what is not a multiple of [PM] so. *)
Lemma pm_nonzero x : 1 <= x < PM -> 16807 * x mod PM <> 0.
Proof.
  intros Hx H0. apply Z.mod_divide in H0; [|done]. apply Z.gauss in H0; [|apply coprime_PM].
  apply Z.divide_pos_le in H0; lia.
Qed.

Lemma do_rand_eq c : 0 <= c ->
  let y := 16807 * (c mod (PM - 1) + 1) mod PM in do_rand c = (y - 1, y - 1) /\ 1 <= y < PM.
Proof.
  intros Hc y. set (x := c mod (PM - 1) + 1).
  assert (Hx : 1 <= x < PM) by (pose proof (Z.mod_pos_bound c (PM - 1) ltac:(done)); unfold x; lia).
  destruct (schrage x Hx) as [_ He]. pose proof (pm_nonzero x Hx) as Hnz.
  pose proof (Z.mod_pos_bound (16807 * x) PM ltac:(done)).
  assert (Hy : 1 <= y < PM) by (fold x in y; unfold y in *; fold x; lia). split; [|done].
  unfold do_rand. change 0x7ffffffe with (PM - 1). change 0x7fffffff with PM. fold x.
  rewrite He. fold x in y. fold y. rewrite u64_small, i32_small by (unfold PM in *; lia). done.
Qed.

(** [do_rand] computes the Park-Miller step [x := 7^5 x mod (2^31 - 1)] on
    the range 1 .. 2^31 - 2, as its comment says, and every intermediate value
    of its computation fits in 31 bits and a sign: nothing overflows. *)
Theorem do_rand_park_miller c :
  0 <= c < 2 ^ 64 ->
  let x := c mod (2 ^ 31 - 2) + 1 in
  let y := 7 ^ 5 * x mod (2 ^ 31 - 1) in
  do_rand c = (y - 1, y - 1) /\ 0 <= y - 1 <= 2 ^ 31 - 3 /\
  0 <= 16807 * (x mod 127773) < 2 ^ 31 /\ 0 <= 2836 * (x / 127773) < 2 ^ 31 /\
  - 2 ^ 31 < 16807 * (x mod 127773) - 2836 * (x / 127773) < 2 ^ 31.
Proof.
  intros Hc x y. destruct (do_rand_eq c) as [He Hy]; [lia|]. unfold PM in *.
  split; [exact He|]. assert (Hy' : 1 <= y < PM) by exact Hy. unfold PM in Hy'. split; [lia|].
  assert (1 <= x < PM) by (pose proof (Z.mod_pos_bound c (2 ^ 31 - 2) ltac:(lia)); unfold x, PM; lia).
  pose proof (Z.mod_pos_bound x 127773 ltac:(lia)). pose proof (schrage x H) as [Hb _]. unfold PM in *.
  assert (0 <= x / 127773 < 16808) by (split; [apply Z.div_pos|apply Z.div_lt_upper_bound]; lia). lia.
Qed.

Lemma do_rand_park_miller_witness : do_rand 31 = (16807 * 32 - 1, 16807 * 32 - 1).
Proof.
  destruct (do_rand_park_miller 31) as [H _]; [lia|]. exact H.
Defined.

(** ** Its period *)

(** The context after [n] calls. *)
Definition rand_iter (n : nat) (c : Z) : Z := Nat.iter n (fun c => (do_rand c).1) c.

Lemma rand_iter_pow n c :
  0 <= c < PM - 1 -> rand_iter n c = 16807 ^ Z.of_nat n * (c + 1) mod PM - 1 /\ 0 <= rand_iter n c < PM - 1.
Proof.
  intros Hc. induction n as [|n [IH Hb]].
  - simpl. rewrite Z.mul_1_l, Z.mod_small by lia. lia.
  - change (rand_iter (S n) c) with ((do_rand (rand_iter n c)).1).
    destruct (do_rand_eq (rand_iter n c)) as [-> Hy]; [lia|]. cbn [fst]. rewrite (Z.mod_small _ (PM - 1)) in Hy |- * by done.
    split; [|lia]. f_equal. rewrite IH. rewrite Z.sub_add, Z.mul_mod_idemp_r by done.
    rewrite Nat2Z.inj_succ, Z.pow_succ_r by lia. by rewrite Z.mul_assoc.
Qed.

(** Powers of 16807 that are 1. *)
Definition is_one (n : Z) : Prop := 16807 ^ n mod PM = 1.

Lemma is_one_sub a b : 0 <= b <= a -> is_one a -> is_one b -> is_one (a - b).
Proof.
  unfold is_one. intros Hab Ha Hb. assert (Hp : 16807 ^ a = 16807 ^ (a - b) * 16807 ^ b) by (rewrite <- Z.pow_add_r by lia; f_equal; lia).
  rewrite Hp, <- Z.mul_mod_idemp_r, Hb, Z.mul_1_r in Ha by done. done.
Qed.

Lemma is_one_mul a k : 0 <= a -> 0 <= k -> is_one a -> is_one (a * k).
Proof.
  unfold is_one. intros Ha Hk H. rewrite Z.pow_mul_r by lia. rewrite Zpower_mod, H by done. by rewrite Z.pow_1_l.
Qed.

Lemma is_one_mod a b : 0 <= a -> 0 < b -> is_one a -> is_one b -> is_one (a mod b).
Proof.
  intros Ha Hb H1 H2. pose proof (Z.div_mod a b ltac:(lia)). pose proof (Z.mod_pos_bound a b Hb).
  assert (0 <= a / b) by (apply Z.div_pos; lia).
  replace (a mod b) with (a - b * (a / b)) by lia. apply is_one_sub; [lia|done|]. apply is_one_mul; [lia|lia|done].
Qed.

Lemma is_one_gcd_below (n : nat) : forall a b, 0 <= b < Z.of_nat n -> 0 <= a -> is_one a -> is_one b -> is_one (Z.gcd a b).
Proof.
  induction n as [|n IH]; intros a b Hb Ha H1 H2; [lia|].
  destruct (decide (b = 0)) as [->|Hnz]; [rewrite Z.gcd_0_r, Z.abs_eq; done|].
  rewrite Z.gcd_comm, <- Z.gcd_mod, Z.gcd_comm by done. pose proof (Z.mod_pos_bound a b ltac:(lia)).
  apply IH; [lia|lia|done|]. apply is_one_mod; [lia|lia|done..].
Qed.

Lemma is_one_gcd a b : 0 <= a -> 0 <= b -> is_one a -> is_one b -> is_one (Z.gcd a b).
Proof. intros Ha Hb. apply (is_one_gcd_below (S (Z.to_nat b))); lia. Qed.

(** [q] divides or is prime to every number: it is 1 or a prime. *)
Definition primal (q : Z) : Prop := 0 < q /\ forall k, (q | k) \/ Z.gcd k q = 1.
Definition check_primal (q : Z) : bool :=
  (0 <? q) && forallb (fun r => (r =? 0) || (Z.gcd r q =? 1)) (seqZ 0 q).

Lemma check_primal_ok q : check_primal q = true -> primal q.
Proof.
  unfold check_primal. rewrite andb_true_iff, Z.ltb_lt, forallb_forall. intros [H1 H2]. split; [done|]. intros k.
  pose proof (Z.mod_pos_bound k q H1).
  assert (Hr : In (k mod q) (seqZ 0 q)) by (apply list_elem_of_In, elem_of_seqZ; lia).
  apply H2, orb_true_iff in Hr as [Hr|Hr]; apply Z.eqb_eq in Hr.
  - left. apply Z.mod_divide; lia.
  - right. rewrite Z.gcd_mod, Z.gcd_comm in Hr by lia. done.
Qed.

(** A divisor greater than 1 of a product of primes is a multiple of one of
    them. *)
Lemma prime_divisor (qs : list Z) k :
  1 < k -> Forall primal qs -> (k | foldr Z.mul 1 qs) -> Exists (fun q => (q | k)) qs.
Proof.
  intros Hk. induction 1 as [|q qs [_ Hq] _ IH]; simpl; intros Hd.
  - apply Z.divide_pos_le in Hd; lia.
  - destruct (Hq k) as [H|H]; [by constructor|]. right. apply IH. by apply Z.gauss in Hd.
Qed.

(** The prime factors of [PM - 1]. *)
Definition pm_primes : list Z := [2; 3; 3; 7; 11; 31; 151; 331].

Lemma pm_primes_ok : Forall primal pm_primes.
Proof.
  apply Forall_forall. intros q Hq. apply check_primal_ok.
  apply list_elem_of_In in Hq. revert q Hq. apply forallb_forall. reflexivity.
Qed.

Lemma is_one_PM : is_one (PM - 1).
Proof. unfold is_one. rewrite <- Zpow_mod_correct by done. reflexivity. Qed.

Lemma not_one_part q : q ∈ pm_primes -> ~ is_one ((PM - 1) / q).
Proof.
  intros Hq Hj. unfold is_one in Hj. rewrite <- Zpow_mod_correct in Hj by done.
  repeat (apply elem_of_cons in Hq as [->|Hq]; [vm_compute in Hj; discriminate|]). by apply elem_of_nil in Hq.
Qed.

(** 16807 generates all of 1 .. [PM] - 1. *)
Lemma is_one_order n N : N = PM - 1 -> 0 <= n -> is_one n <-> (N | n).
Proof.
  intros HN Hn. assert (H1N : is_one N) by (subst N; exact is_one_PM). assert (0 < N) by (subst N; done).
  split; [|intros [k ->]; rewrite Z.mul_comm; apply is_one_mul; [lia|nia|exact H1N]].
  intros H1. set (d := Z.gcd n N).
  assert (Hd : is_one d) by (apply is_one_gcd; [lia|lia|exact H1|exact H1N]).
  destruct (Z.gcd_divide_r n N) as [k Hk]. fold d in Hk.
  assert (Hd0 : 0 < d) by (enough (d <> 0) by (pose proof (Z.gcd_nonneg n N); lia); intros E; rewrite E in Hk; lia).
  assert (Hk0 : 0 < k) by (apply (Z.mul_pos_cancel_r k d Hd0); lia).
  destruct (decide (k = 1)) as [->|Hk1].
  { rewrite Z.mul_1_l in Hk. rewrite Hk. apply Z.gcd_divide_l. }
  exfalso. assert (Hdiv : (k | foldr Z.mul 1 pm_primes)).
  { exists d. rewrite Z.mul_comm, <- Hk, HN. reflexivity. }
  destruct (proj1 (Exists_exists _ _) (prime_divisor pm_primes k ltac:(lia) pm_primes_ok Hdiv)) as (q & Hq & j & ->).
  destruct (proj1 (Forall_forall _ _) pm_primes_ok q Hq) as [Hq0 _].
  apply (not_one_part q Hq). rewrite <- HN.
  replace (N / q) with (d * j) by (rewrite Hk; replace (j * q * d) with (d * j * q) by lia; by rewrite Z.div_mul by lia).
  apply is_one_mul; [lia|nia|exact Hd].
Qed.

(** [PM] is a prime: nothing up to its square root divides it. *)
Fixpoint no_divisor (k : nat) (r : Z) : bool :=
  match k with O => true | S k' => negb (PM mod r =? 0) && no_divisor k' (r + 1) end.

Lemma no_divisor_ok k : forall r d, no_divisor k r = true -> r <= d < r + Z.of_nat k -> PM mod d <> 0.
Proof.
  induction k as [|k IH]; simpl; intros r d H Hd; [lia|]. apply andb_true_iff in H as [H1 H2].
  destruct (decide (d = r)) as [->|]; [by apply negb_true_iff, Z.eqb_neq in H1|]. apply (IH (r + 1) d H2). lia.
Qed.

Lemma PM_no_divisor d : (d | PM) -> 1 < d -> 46341 < d.
Proof.
  intros [e He] Hd. destruct (Z.le_gt_cases d 46341) as [Hle|]; [exfalso|lia].
  assert (Hc : no_divisor (Z.to_nat 46340) 2 = true) by (vm_compute; reflexivity).
  apply (no_divisor_ok _ _ d Hc); [lia|]. rewrite He, Z.mod_mul; lia.
Qed.

Lemma PM_coprime k : 1 <= k < PM -> Z.gcd PM k = 1.
Proof.
  intros Hk. set (d := Z.gcd PM k). destruct (Z.gcd_divide_l PM k) as [e He]. fold d in He.
  assert (Hdk : d <= k) by (apply Z.divide_pos_le; [lia|apply Z.gcd_divide_r]).
  assert (0 <= d) by apply Z.gcd_nonneg. destruct (decide (d = 1)) as [|Hd1]; [done|exfalso].
  assert (1 < d) by (enough (d <> 0) by lia; intros E; rewrite E, Z.mul_0_r in He; discriminate).
  assert (Hd : 46341 < d) by (apply PM_no_divisor; [by exists e|done]).
  assert (Hpos : 0 < PM) by done.
  assert (He1 : 1 < e) by nia.
  assert (46341 < e) by (apply PM_no_divisor; [exists d; lia|done]).
  assert (PM < 46342 * 46342) by done. nia.
Qed.

Lemma rand_iter_return c k : 0 <= c < PM - 1 -> rand_iter k c = c <-> (PM - 1 | Z.of_nat k).
Proof.
  intros Hc. rewrite <- (is_one_order _ (PM - 1) eq_refl) by lia. rewrite (proj1 (rand_iter_pow k c Hc)).
  assert (HPM : PM <> 0) by done. unfold is_one. set (g := 16807 ^ Z.of_nat k). clearbody g. split.
  - intros He. assert (Hdiv : (PM | (c + 1) * (g - 1))).
    { apply Z.mod_divide; [done|]. replace ((c + 1) * (g - 1)) with (g * (c + 1) - (c + 1)) by lia.
      rewrite Zminus_mod. replace (g * (c + 1) mod PM) with ((c + 1) mod PM) by (rewrite (Z.mod_small (c + 1)); lia).
      rewrite Z.sub_diag. reflexivity. }
    apply Z.gauss in Hdiv; [|apply PM_coprime; lia]. destruct Hdiv as [e He'].
    replace g with (1 + e * PM) by lia. rewrite Z.mod_add by done. reflexivity.
  - intros H1. rewrite <- Z.mul_mod_idemp_l, H1, Z.mul_1_l, Z.mod_small by (done || lia). lia.
Qed.

Lemma rand_iter_add a b c : rand_iter (a + b) c = rand_iter a (rand_iter b c).
Proof. apply Nat.iter_add. Qed.

(** An injection of 0 .. [N] - 1 into itself reaches everything. *)
Lemma injection_onto (N : nat) (f : nat -> Z) v :
  (forall i, (i < N)%nat -> 0 <= f i < Z.of_nat N) -> (forall i j, (i < j < N)%nat -> f i <> f j) ->
  0 <= v < Z.of_nat N -> exists i, (i < N)%nat /\ f i = v.
Proof.
  intros Hr Hi Hv.
  assert (Hnd : NoDup (f <$> seq 0 N)).
  { apply NoDup_fmap_2_strong; [|apply NoDup_seq]. intros x y Hx Hy He. apply elem_of_seq in Hx, Hy.
    destruct (lt_eq_lt_dec x y) as [[H|H]|H]; [exfalso|done|exfalso]; [eapply (Hi x y)|eapply (Hi y x)]; (done || lia). }
  assert (Hp : f <$> seq 0 N ≡ₚ seqZ 0 (Z.of_nat N)).
  { apply submseteq_length_Permutation; [|rewrite length_fmap, length_seq, length_seqZ; lia].
    apply NoDup_submseteq; [done|]. intros x Hx. apply list_elem_of_fmap in Hx as (i & -> & Hx%elem_of_seq).
    apply elem_of_seqZ. specialize (Hr i). lia. }
  assert (Hin : v ∈ f <$> seq 0 N) by (rewrite Hp; apply elem_of_seqZ; lia).
  apply list_elem_of_fmap in Hin as (i & -> & Hi'%elem_of_seq). exists i. split; [lia|done].
Qed.

Lemma rand_reaches c v :
  0 <= c < PM - 1 -> 0 <= v < PM - 1 -> exists n, Z.of_nat n < PM - 1 /\ rand_iter n c = v.
Proof.
  intros Hc Hv. destruct (Z_of_nat_complete (PM - 1)) as [N HN]; [done|]. rewrite HN in Hv |- *.
  destruct (injection_onto N (fun n => rand_iter n c) v) as (n & Hn & He).
  - intros i _. rewrite <- HN. by apply rand_iter_pow.
  - intros i j Hij He. replace j with ((j - i) + i)%nat in He by lia. rewrite rand_iter_add in He.
    symmetry in He. apply rand_iter_return in He; [|by apply rand_iter_pow]. rewrite HN in He.
    apply Z.divide_pos_le in He; lia.
  - done.
  - exists n. split; [lia|done].
Qed.

(** What a call returns after [n] others is the context it leaves. *)
Lemma rand_result n c : 0 <= c < PM - 1 -> (do_rand (rand_iter n c)).2 = rand_iter (S n) c.
Proof.
  intros Hc. change (rand_iter (S n) c) with ((do_rand (rand_iter n c)).1).
  destruct (do_rand_eq (rand_iter n c)) as [-> _]; [|done]. pose proof (proj2 (rand_iter_pow n c Hc)). lia.
Qed.

(** The state after [n] calls of [rand]. *)
Definition rand_calls (n : nat) (s : gst) : gst := Nat.iter n (fun s => (rand s).1) s.

Lemma rand_calls_eq n s : rand_calls n s = mkG (rand_iter n (g_rand s)) (g_fd s) (g_buf s) (g_iters s).
Proof.
  induction n as [|n IH]; [by destruct s|].
  change (rand_calls (S n) s) with ((rand (rand_calls n s)).1). rewrite IH. unfold rand. cbn [g_rand g_fd g_buf g_iters].
  change (rand_iter (S n) (g_rand s)) with ((do_rand (rand_iter n (g_rand s))).1). by destruct (do_rand _).
Qed.

Lemma rand_calls_value n s :
  0 <= g_rand s < PM - 1 -> (rand (rand_calls n s)).2 = rand_iter (S n) (g_rand s).
Proof.
  intros Hc. rewrite rand_calls_eq. unfold rand. cbn [g_rand]. rewrite <- rand_result by done. by destruct (do_rand _).
Qed.


