(* ===== verification/Boot.v ===== *)
(** * Booting ([kernel/start.c], [kernel/main.c], the registers of [riscv.h])

    [start] and [timerinit] over the registers and memory of [Asm], with the
    two ways in and out of machine mode that they prepare: [mret] and the timer
    interrupt.  [main] as the sequence of initialisations each hart makes, the
    harts interleaved and synchronised by the flag [started]. *)
From stdpp Require Import base gmap strings numbers option list relations.
From S2P Require Import Prelude Layout Memory Asm.
Open Scope Z_scope.

(** ** Machine-mode registers *)

Definition MSTATUS_MPP_MASK : Z := Z.shiftl 3 11.
Definition MSTATUS_MPP_M : Z := Z.shiftl 3 11.
Definition MSTATUS_MPP_S : Z := Z.shiftl 1 11.
Definition MSTATUS_MPP_U : Z := Z.shiftl 0 11.
Definition MSTATUS_MIE : Z := Z.shiftl 1 3.
Definition SIE_SEIE : Z := Z.shiftl 1 9.
Definition SIE_STIE : Z := Z.shiftl 1 5.
Definition SIE_SSIE : Z := Z.shiftl 1 1.
Definition MIE_MTIE : Z := Z.shiftl 1 7.

Definition w_csr (c : csr) (x : Z) (s : astate) : astate := mkA (a_regs s) (upd_csr (a_csr s) c (u64 x)) (a_mem s).
Definition w_reg (q : reg) (x : Z) (s : astate) : astate := mkA (upd_reg (a_regs s) q (u64 x)) (a_csr s) (a_mem s).
Definition w_mem (a v : Z) (s : astate) : astate := mkA (a_regs s) (a_csr s) (st 8 (a_mem s) a v).

Definition r_mhartid (s : astate) : Z := a_csr s C_mhartid.
Definition r_mstatus (s : astate) : Z := a_csr s C_mstatus.
Definition r_sie (s : astate) : Z := a_csr s C_sie.
Definition r_mie (s : astate) : Z := a_csr s C_mie.
Definition w_mstatus : Z -> astate -> astate := w_csr C_mstatus.
Definition w_mepc : Z -> astate -> astate := w_csr C_mepc.
Definition w_satp : Z -> astate -> astate := w_csr C_satp.
Definition w_medeleg : Z -> astate -> astate := w_csr C_medeleg.
Definition w_mideleg : Z -> astate -> astate := w_csr C_mideleg.
Definition w_sie : Z -> astate -> astate := w_csr C_sie.
Definition w_mie : Z -> astate -> astate := w_csr C_mie.
Definition w_mtvec : Z -> astate -> astate := w_csr C_mtvec.
Definition w_mscratch : Z -> astate -> astate := w_csr C_mscratch.
Definition w_tp : Z -> astate -> astate := w_reg TP.

(** ** [start] *)

(** Where the linker put [main], [timervec] and [timer_scratch]. *)
Class Linked := { main_addr : Z; timervec_addr : Z; timer_scratch : Z }.
Class LinkedOk (lk : Linked) : Prop := {
  lk_main : 0 <= main_addr < 2 ^ 64;
  lk_timervec : 0 <= timervec_addr < 2 ^ 64;
  lk_scratch : KERNBASE <= timer_scratch /\ timer_scratch + 40 * NCPU < 2 ^ 64
}.

Section start.
Context `{lk : Linked}.

Definition interval : Z := 1000000.

Definition timerinit (s : astate) : astate :=
  let id := i32 (r_mhartid s) in
  let s := w_mem (CLINT_MTIMECMP id) (u64 (ld 8 (a_mem s) CLINT_MTIME + interval)) s in
  let scratch := timer_scratch + 40 * id in
  let s := w_mem (scratch + 24) (CLINT_MTIMECMP id) s in
  let s := w_mem (scratch + 32) interval s in
  let s := w_mscratch scratch s in
  let s := w_mtvec timervec_addr s in
  let s := w_mstatus (Z.lor (r_mstatus s) MSTATUS_MIE) s in
  w_mie (Z.lor (r_mie s) MIE_MTIE) s.

Definition start (s : astate) : astate :=
  let x := r_mstatus s in
  let x := Z.land x (Z.lnot MSTATUS_MPP_MASK) in
  let x := Z.lor x MSTATUS_MPP_S in
  let s := w_mstatus x s in
  let s := w_mepc main_addr s in
  let s := w_satp 0 s in
  let s := w_medeleg 0xffff s in
  let s := w_mideleg 0xffff s in
  let s := w_sie (Z.lor (Z.lor (Z.lor (r_sie s) SIE_SEIE) SIE_STIE) SIE_SSIE) s in
  let s := timerinit s in
  let id := i32 (r_mhartid s) in
  w_tp id s.

(** ** Leaving and entering machine mode *)

Inductive mode := Umode | Smode | Mmode.
Record hart := mkHart { h_st : astate; h_pc : Z; h_mode : mode }.

(** The mode in the MPP field, bits 11 and 12. *)
Definition mpp (mstatus : Z) : mode :=
  if Z.testbit mstatus 12 then Mmode else if Z.testbit mstatus 11 then Smode else Umode.

Definition put_bit (n : Z) (b : bool) (x : Z) : Z := if b then Z.setbit x n else Z.clearbit x n.
Definition put_mpp (m : mode) (x : Z) : Z :=
  put_bit 12 (match m with Mmode => true | _ => false end) (put_bit 11 (match m with Umode => false | _ => true end) x).

(** [mret]: to [mepc], in the mode MPP says; MIE gets MPIE, MPIE 1 and MPP
    user mode. *)
Definition mret_ (h : hart) : hart :=
  let ms := r_mstatus (h_st h) in
  let ms' := put_bit 3 (Z.testbit ms 7) (put_bit 7 true (put_mpp Umode ms)) in
  mkHart (w_mstatus ms' (h_st h)) (a_csr (h_st h) C_mepc) (mpp ms).

(** A timer interrupt is taken outside machine mode, or in it with MIE set,
    if [mie] enables it; it cannot be delegated. *)
Definition timer_enabled (h : hart) : bool :=
  Z.testbit (r_mie (h_st h)) 7 && match h_mode h with Mmode => Z.testbit (r_mstatus (h_st h)) 3 | _ => true end.

(** Taking it: MPP and MPIE save the mode and MIE, MIE is cleared, [mepc] gets
    the program counter, and the hart goes on at [mtvec]. *)
Definition timer_trap (h : hart) : hart :=
  let ms := r_mstatus (h_st h) in
  let ms' := put_bit 3 false (put_bit 7 (Z.testbit ms 3) (put_mpp (h_mode h) ms)) in
  mkHart (w_mepc (h_pc h) (w_mstatus ms' (h_st h))) (a_csr (h_st h) C_mtvec) Mmode.

(** The whole interrupt: the trap, [timervec], [mret]. *)
Definition timer_interrupt (h : hart) : hart :=
  let h := timer_trap h in
  mret_ (mkHart (run_asm physical timervec (h_st h)) (h_pc h) (h_mode h)).

(** From the reset vector to [main]. *)
Definition boot (s : astate) : hart := mret_ (mkHart (start s) 0 Mmode).

(** ** What [start] sets up *)

(** What a hart needs for its timer: the scratch area holds the address of its
    comparator and the interval, and the interrupt is enabled and leads to
    [timervec]. *)
Record timer_ready (id : Z) (h : hart) : Prop := {
  tm_regs : user_regs_ok (a_regs (h_st h));
  tm_pc : 0 <= h_pc h < 2 ^ 64;
  tm_mode : h_mode h <> Mmode;
  tm_mtvec : a_csr (h_st h) C_mtvec = timervec_addr;
  tm_mscratch : a_csr (h_st h) C_mscratch = timer_scratch + 40 * id;
  tm_cmp : ld 8 (a_mem (h_st h)) (timer_scratch + 40 * id + 24) = CLINT_MTIMECMP id;
  tm_interval : ld 8 (a_mem (h_st h)) (timer_scratch + 40 * id + 32) = interval;
  tm_mie : Z.testbit (a_csr (h_st h) C_mie) 7 = true
}.

Context `{!LinkedOk lk}.

Lemma put_bit_testbit n b x k : 0 <= n -> 0 <= k -> Z.testbit (put_bit n b x) k = if k =? n then b else Z.testbit x k.
Proof.
  intros Hn Hk. unfold put_bit. destruct b, (Z.eqb_spec k n) as [->|Hne].
  - by apply Z.setbit_eq.
  - apply Z.setbit_neq; lia.
  - apply Z.clearbit_eq.
  - apply Z.clearbit_neq. lia.
Qed.

Lemma u64_testbit x k : 0 <= k < 64 -> Z.testbit (u64 x) k = Z.testbit x k.
Proof. intros Hk. unfold u64. apply Z.mod_pow2_bits_low. lia. Qed.

(** The mode [mret] returns to is the one the trap saved. *)
Lemma mpp_trap m x b : mpp (u64 (put_bit 3 false (put_bit 7 b (put_mpp m x)))) = m.
Proof.
  unfold mpp, put_mpp. rewrite !u64_testbit, !put_bit_testbit by lia. by destruct m.
Qed.

Lemma start_mpp x :
  mpp (u64 (Z.lor (u64 (Z.lor (Z.land x (Z.lnot MSTATUS_MPP_MASK)) MSTATUS_MPP_S)) MSTATUS_MIE)) = Smode.
Proof.
  unfold mpp. rewrite !u64_testbit, !Z.lor_spec, !u64_testbit, !Z.lor_spec, !Z.land_spec, !Z.lnot_spec by lia.
  change (Z.testbit MSTATUS_MPP_MASK 12) with true. change (Z.testbit MSTATUS_MPP_MASK 11) with true.
  simpl. by rewrite !andb_false_r.
Qed.

Lemma w_tp_ok id s : user_regs_ok (a_regs s) -> user_regs_ok (a_regs (w_tp id s)).
Proof.
  intros H q. simpl. unfold upd_reg. destruct (decide _); [apply Z.mod_pos_bound; lia|apply H].
Qed.

(** The cells [timerinit] writes. *)
Lemma timerinit_mem id s :
  r_mhartid s = id -> 0 <= id < NCPU ->
  let m := a_mem (timerinit s) in
  ld 8 m (timer_scratch + 40 * id + 24) = CLINT_MTIMECMP id /\
  ld 8 m (timer_scratch + 40 * id + 32) = interval /\
  ld 8 m (CLINT_MTIMECMP id) = u64 (ld 8 (a_mem s) CLINT_MTIME + interval).
Proof.
  intros Hid Hr. destruct lk_scratch as [Hs1 Hs2]. unfold NCPU, KERNBASE in *. cbn -[CLINT_MTIMECMP CLINT_MTIME st ld u64].
  rewrite Hid, i32_small by lia. unfold CLINT_MTIMECMP, CLINT, interval.
  split; [|split].
  - rewrite ld_st_disj by lia. apply ld64_st64. lia.
  - apply ld64_st64. lia.
  - rewrite !ld_st_disj by lia. apply ld64_st64. apply Z.mod_pos_bound. lia.
Qed.

(** C25: booting.  Whatever its registers held at reset, hart [id] comes out of
    [start] and its [mret] in supervisor mode at [main], with its number in
    [tp], paging off, all traps delegated to supervisor mode and the software,
    timer and external interrupts enabled in [sie]; its first timer interrupt
    is one interval away, and everything its machine-mode handler relies on is
    in place. *)
Theorem boot_enters_main s id :
  user_regs_ok (a_regs s) -> r_mhartid s = id -> 0 <= id < NCPU ->
  let h := boot s in
  h_pc h = main_addr /\ h_mode h = Smode /\ a_regs (h_st h) TP = id /\
  a_csr (h_st h) C_satp = 0 /\ a_csr (h_st h) C_medeleg = 0xffff /\ a_csr (h_st h) C_mideleg = 0xffff /\
  (forall b, b = 9 \/ b = 5 \/ b = 1 -> Z.testbit (a_csr (h_st h) C_sie) b = true) /\
  ld 8 (a_mem (h_st h)) (CLINT_MTIMECMP id) = u64 (ld 8 (a_mem s) CLINT_MTIME + interval) /\
  timer_ready id h.
Proof.
  intros Hregs Hid Hr h. pose proof lk_main. pose proof lk_timervec. destruct lk_scratch as [Hs1 Hs2].
  set (s9 := w_sie (Z.lor (Z.lor (Z.lor (r_sie s) SIE_SEIE) SIE_STIE) SIE_SSIE)
    (w_mideleg 0xffff (w_medeleg 0xffff (w_satp 0 (w_mepc main_addr
      (w_mstatus (Z.lor (Z.land (r_mstatus s) (Z.lnot MSTATUS_MPP_MASK)) MSTATUS_MPP_S) s)))))).
  destruct (timerinit_mem id s9 Hid Hr) as (Hc1 & Hc2 & Hc3).
  assert (Hmode : h_mode h = Smode) by (exact (start_mpp (r_mstatus s))).
  assert (Hpc : h_pc h = main_addr) by (change (u64 main_addr = main_addr); by apply u64_small).
  split; [done|]. split; [done|]. split.
  { change (u64 (i32 (r_mhartid s)) = id). unfold NCPU in Hr. rewrite Hid, i32_small, u64_small; lia. }
  do 3 (split; [reflexivity|]). split; [|split; [exact Hc3|]].
  - intros b Hb. change (Z.testbit (u64 (Z.lor (Z.lor (Z.lor (r_sie s) SIE_SEIE) SIE_STIE) SIE_SSIE)) b = true).
    rewrite u64_testbit, !Z.lor_spec by lia. destruct Hb as [->|[->| ->]]; simpl; by rewrite ?orb_true_r.
  - split; try done.
    + exact (w_tp_ok (i32 (r_mhartid s)) s Hregs).
    + rewrite Hpc. lia.
    + by rewrite Hmode.
    + change (u64 timervec_addr = timervec_addr). by apply u64_small.
    + change (u64 (timer_scratch + 40 * i32 (r_mhartid s)) = timer_scratch + 40 * id). unfold NCPU, KERNBASE in *.
      rewrite Hid, i32_small, u64_small; lia.
    + change (Z.testbit (u64 (Z.lor (r_mie s) MIE_MTIE)) 7 = true). rewrite u64_testbit, Z.lor_spec by lia. apply orb_true_r.
Qed.

(** What [timervec] writes to memory. *)
Lemma timervec_mem s :
  let r := a_regs s in
  let sc := a_csr s C_mscratch in
  let m := st 8 (st 8 (st 8 (a_mem s) (u64 (sc + 0)) (r A1)) (u64 (sc + 8)) (r A2)) (u64 (sc + 16)) (r A3) in
  let c := u64 (ld 8 m (u64 (sc + 24)) + 0) in
  a_mem (run_asm physical timervec s) = st 8 m c (u64 (ld 8 m c + ld 8 m (u64 (sc + 32)))).
Proof. reflexivity. Qed.

Lemma timervec_csr s c : c <> C_sip -> c <> C_mscratch -> a_csr (run_asm physical timervec s) c = a_csr s c.
Proof. by destruct c. Qed.

(** The memory a tick may change: the first three words of the scratch area,
    and the comparator. *)
Definition tick_cells (id a : Z) : Prop :=
  timer_scratch + 40 * id <= a < timer_scratch + 40 * id + 24 \/ CLINT_MTIMECMP id <= a < CLINT_MTIMECMP id + 8.

Lemma timervec_frame s id a :
  0 <= id < NCPU -> a_csr s C_mscratch = timer_scratch + 40 * id ->
  ld 8 (a_mem s) (timer_scratch + 40 * id + 24) = CLINT_MTIMECMP id ->
  ~ tick_cells id a -> rd (a_mem (run_asm physical timervec s)) a = rd (a_mem s) a.
Proof.
  intros Hid Hsc Hc Ha. destruct lk_scratch as [Hs1 Hs2]. unfold NCPU, KERNBASE, tick_cells, CLINT_MTIMECMP, CLINT in *.
  rewrite timervec_mem. cbv zeta. rewrite Hsc. set (sc := timer_scratch + 40 * id) in *.
  rewrite (u64_small (sc + 0)), (u64_small (sc + 8)), (u64_small (sc + 16)), (u64_small (sc + 24)) by lia.
  set (m := st 8 (st 8 (st 8 (a_mem s) _ _) _ _) (sc + 16) _). assert (Hm : ld 8 m (sc + 24) = 0x2000000 + 0x4000 + 8 * id)
    by (unfold m; rewrite !ld_st_disj by lia; exact Hc).
  rewrite Hm, u64_small by lia. rewrite rd_st_out by lia. unfold m. rewrite !rd_st_out by lia. done.
Qed.

Lemma mret_csr h c : c <> C_mstatus -> a_csr (h_st (mret_ h)) c = a_csr (h_st h) c.
Proof. by destruct c. Qed.
Lemma trap_csr h c : c <> C_mstatus -> c <> C_mepc -> a_csr (h_st (timer_trap h)) c = a_csr (h_st h) c.
Proof. by destruct c. Qed.

Lemma timer_interrupt_eq h :
  timer_interrupt h = mret_ (mkHart (run_asm physical timervec (h_st (timer_trap h))) (a_csr (h_st h) C_mtvec) Mmode).
Proof. reflexivity. Qed.

(** C27: the timer interrupt is transparent.  It is enabled whenever the hart
    is in supervisor or user mode; the trap, [timervec] and [mret] together
    bring the hart back to the same instruction in the same mode, with every
    register and the page table as they were, and change no memory but the
    scratch area of the hart and its comparator, which is one interval later; a
    software interrupt is pending for the kernel, the other pending interrupts
    are what they were, and the timer is ready for the next tick. *)
Theorem timer_interrupt_transparent h id :
  timer_ready id h -> 0 <= id < NCPU ->
  let h' := timer_interrupt h in
  timer_enabled h = true /\ h_pc h' = h_pc h /\ h_mode h' = h_mode h /\
  (forall q, a_regs (h_st h') q = a_regs (h_st h) q) /\
  (forall c, c ∉ [C_sip; C_mepc; C_mstatus] -> a_csr (h_st h') c = a_csr (h_st h) c) /\
  a_csr (h_st h') C_sip = Z.lor (a_csr (h_st h) C_sip) 2 /\
  ld 8 (a_mem (h_st h')) (CLINT_MTIMECMP id) = u64 (ld 8 (a_mem (h_st h)) (CLINT_MTIMECMP id) + interval) /\
  (forall a, ~ tick_cells id a -> rd (a_mem (h_st h')) a = rd (a_mem (h_st h)) a) /\
  timer_ready id h'.
Proof.
  intros [Hr Hpc Hm Hv Hsc Hc Hi Hmie] Hid h'. destruct lk_scratch as [Hs1 Hs2].
  assert (Hb : 0 <= timer_scratch + 40 * id /\ timer_scratch + 40 * id + 40 < 2 ^ 64 /\
    CLINT_MTIMECMP id + 8 <= timer_scratch + 40 * id /\ CLINT_MTIMECMP id + 8 < 2 ^ 64)
    by (unfold NCPU, KERNBASE, CLINT_MTIMECMP, CLINT in *; lia).
  destruct Hb as (Hb1 & Hb2 & Hb3 & Hb4). unfold h'. rewrite timer_interrupt_eq. clear h'.
  assert (E1 : mpp (a_csr (h_st (timer_trap h)) C_mstatus) = h_mode h) by apply mpp_trap.
  assert (E2 : a_csr (h_st (timer_trap h)) C_mepc = h_pc h) by (apply u64_small; lia).
  pose proof (trap_csr h) as E3. assert (E4 : a_regs (h_st (timer_trap h)) = a_regs (h_st h)) by reflexivity.
  assert (E5 : a_mem (h_st (timer_trap h)) = a_mem (h_st h)) by reflexivity.
  revert E1 E2 E3 E4 E5. generalize (h_st (timer_trap h)). intros s1 E1 E2 E3 E4 E5. rewrite <- E4 in Hr. rewrite <- E5 in Hc, Hi.
  assert (Hsc1 : a_csr s1 C_mscratch = timer_scratch + 40 * id) by (by rewrite E3).
  pose proof (timervec_ticks s1 _ _ _ Hr Hsc1 Hb1 Hb2 Hc Hi (or_introl Hb3) Hb4) as (Q1 & Q2 & Q3 & Q4).
  pose proof (timervec_csr s1) as Q5. pose proof (fun a => timervec_frame s1 id a Hid Hsc1 Hc) as Q6.
  revert Q1 Q2 Q3 Q4 Q5 Q6. generalize (run_asm physical timervec s1). intros s2 Q1 Q2 Q3 Q4 Q5 Q6. rewrite E4 in Q1, Hr. rewrite E5 in Q4, Q6, Hc, Hi. 
  assert (Hcs : forall c, c ∉ [C_sip; C_mepc; C_mstatus] -> a_csr s2 c = a_csr (h_st h) c).
  { intros c Hc'. rewrite !not_elem_of_cons in Hc'. destruct Hc' as (N1 & N2 & N3 & _).
    destruct (decide (c = C_mscratch)) as [->|Hn]; [by rewrite Hsc|]. rewrite Q5 by done. by apply E3. }
  assert (Hms : mpp (a_csr s2 C_mstatus) = h_mode h) by (by rewrite Q5).
  assert (Hpc' : a_csr s2 C_mepc = h_pc h) by (by rewrite Q5).
  split; [unfold timer_enabled, r_mie; rewrite Hmie; by destruct (h_mode h)|].
  split; [exact Hpc'|]. split; [exact Hms|]. split; [exact Q1|]. split.
  { intros c Hc'. rewrite mret_csr; [by apply Hcs|]. rewrite !not_elem_of_cons in Hc'. tauto. }
  rewrite E3 in Q3 by done. split; [exact Q3|]. split; [exact Q4|]. split; [exact Q6|].
  assert (Hcell : forall k, k = 24 \/ k = 32 -> ld 8 (a_mem s2) (timer_scratch + 40 * id + k) = ld 8 (a_mem (h_st h)) (timer_scratch + 40 * id + k)).
  { intros k Hk. apply ld_frame. intros a Ha. apply Q6. unfold tick_cells. lia. }
  split.
  - intros q. change (0 <= a_regs s2 q < 2 ^ 64). rewrite Q1. apply Hr.
  - change (0 <= a_csr s2 C_mepc < 2 ^ 64). by rewrite Hpc'.
  - change (mpp (a_csr s2 C_mstatus) <> Mmode). by rewrite Hms.
  - rewrite mret_csr by done. rewrite Hcs by (rewrite !not_elem_of_cons, elem_of_nil; repeat split; (discriminate || tauto)). exact Hv.
  - rewrite mret_csr by done. rewrite Hcs by (rewrite !not_elem_of_cons, elem_of_nil; repeat split; (discriminate || tauto)). exact Hsc.
  - change (ld 8 (a_mem s2) (timer_scratch + 40 * id + 24) = CLINT_MTIMECMP id). rewrite Hcell by lia. exact Hc.
  - change (ld 8 (a_mem s2) (timer_scratch + 40 * id + 32) = interval). rewrite Hcell by lia. exact Hi.
  - rewrite mret_csr by done. rewrite Hcs by (rewrite !not_elem_of_cons, elem_of_nil; repeat split; (discriminate || tauto)). exact Hmie.
Qed.

End start.

(** *** Witnesses *)

#[local] Instance demo_link : Linked := {| main_addr := 0x80000e00; timervec_addr := 0x80005c50; timer_scratch := 0x80009000 |}.
#[local] Instance demo_link_ok : LinkedOk demo_link.
Proof. split; unfold KERNBASE, NCPU; simpl; lia. Qed.
(** Hart 1 at reset. *)
Definition demo_reset : astate := mkA (fun _ => 0) (fun c => match c with C_mhartid => 1 | C_mstatus => 0x1800 | _ => 0 end) ∅.

Lemma demo_reset_regs : user_regs_ok (a_regs demo_reset).
Proof. intros q. simpl. lia. Qed.

Lemma boot_enters_main_witness :
  h_pc (boot demo_reset) = main_addr /\ h_mode (boot demo_reset) = Smode /\ timer_ready 1 (boot demo_reset).
Proof.
  assert (Hr : 0 <= 1 < NCPU) by (unfold NCPU; lia).
  destruct (boot_enters_main demo_reset 1 demo_reset_regs eq_refl Hr) as (H1 & H2 & _ & _ & _ & _ & _ & _ & H3).
  split; [exact H1|]. split; [exact H2|exact H3].
Defined.

(** A hart in user mode, with its timer as [start] leaves it. *)
Definition demo_user_hart : hart :=
  mkHart (mkA (fun q => match q with SP => 0x3fc0 | A0 => 7 | _ => 1 end)
    (fun c => match c with C_mtvec => 0x80005c50 | C_mscratch => 0x80009000 + 40 | C_mie => 0x80 | C_satp => 5 | _ => 0 end)
    (st 8 (st 8 ∅ (0x80009000 + 40 + 24) (CLINT_MTIMECMP 1)) (0x80009000 + 40 + 32) interval)) 0x100 Umode.

Lemma timer_interrupt_transparent_witness :
  timer_ready 1 demo_user_hart /\ h_pc (timer_interrupt demo_user_hart) = 0x100 /\ h_mode (timer_interrupt demo_user_hart) = Umode.
Proof.
  assert (H : timer_ready 1 demo_user_hart).
  { split; try reflexivity.
    - intros q. destruct q; simpl; lia.
    - simpl. lia.
    - discriminate. }
  assert (Hr : 0 <= 1 < NCPU) by (unfold NCPU; lia). split; [exact H|].
  destruct (timer_interrupt_transparent demo_user_hart 1 H Hr) as (_ & H1 & H2 & _).
  split; [exact H1|exact H2].
Defined.

(** ** [main] *)

(** The calls that [main] makes before [scheduler]; a format is given as it is
    written in the source. *)
Inductive icall :=
| Consoleinit | Printfinit | Printf_ (fmt : string) (args : list Z) | Kinit | Kvminit | Kvminithart | Procinit
| Trapinit | Trapinithart | Plicinit | Plicinithart | Binit | Iinit | Fileinit | Virtio_disk_init | Userinit.

Definition main_first : list icall :=
  [Consoleinit; Printfinit; Printf_ "\n" []; Printf_ "xv6 kernel is booting\n" []; Printf_ "\n" [];
   Kinit; Kvminit; Kvminithart; Procinit; Trapinit; Trapinithart; Plicinit; Plicinithart;
   Binit; Iinit; Fileinit; Virtio_disk_init; Userinit].
Definition main_other (id : Z) : list icall :=
  [Printf_ "hart %d starting\n" [id]; Kvminithart; Trapinithart; Plicinithart].

(** Where a hart is in [main]: with calls left to make, spinning on [started],
    or in [scheduler]. *)
Inductive mpc := MCalls (todo : list icall) | MSpin | MSched.

Record mainst := mkMain { m_pc : Z -> mpc; m_started : Z; m_log : list (Z * icall) }.

Definition main_init : mainst := mkMain (fun id => if id =? 0 then MCalls main_first else MSpin) 0 [].

Definition set_pc (id : Z) (p : mpc) (s : mainst) (started : Z) (log : list (Z * icall)) : mainst :=
  mkMain (fun i => if i =? id then p else m_pc s i) started log.

(** One step of hart [id]: the next call; after its last one hart 0 sets
    [started]; the others read it. *)
Definition main (id : Z) (s : mainst) : mainst :=
  match m_pc s id with
  | MCalls (c :: todo) => set_pc id (MCalls todo) s (m_started s) (m_log s ++ [(id, c)])
  | MCalls [] => set_pc id MSched s (if id =? 0 then 1 else m_started s) (m_log s)
  | MSpin => if m_started s =? 0 then s else set_pc id (MCalls (main_other id)) s (m_started s) (m_log s)
  | MSched => s
  end.

Definition run_main (sched : list Z) : mainst := foldl (fun s id => main id s) main_init sched.

Definition calls_of (id : Z) (log : list (Z * icall)) : list icall := snd <$> filter (fun x => x.1 = id) log.

(** The calls of a hart in all. *)
Definition main_calls (id : Z) : list icall := if id =? 0 then main_first else main_other id.

Record main_ok (s : mainst) : Prop := {
  mo_calls : forall id todo, m_pc s id = MCalls todo -> calls_of id (m_log s) ++ todo = main_calls id;
  mo_spin : forall id, m_pc s id = MSpin -> calls_of id (m_log s) = [] /\ id <> 0;
  mo_sched : forall id, m_pc s id = MSched -> calls_of id (m_log s) = main_calls id;
  mo_started : m_started s <> 0 -> m_pc s 0 = MSched;
  mo_others : forall id, id <> 0 -> m_pc s id <> MSpin -> m_started s <> 0;
  mo_order : forall l1 id c l2, m_log s = l1 ++ (id, c) :: l2 -> id <> 0 -> calls_of 0 l1 = main_first
}.

Lemma calls_of_snoc id log i c : calls_of id (log ++ [(i, c)]) = calls_of id log ++ (if decide (i = id) then [c] else []).
Proof.
  unfold calls_of. rewrite filter_app, fmap_app. f_equal. unfold filter, list_filter. simpl. by destruct (decide (i = id)).
Qed.

Lemma set_pc_same id p s st log : m_pc (set_pc id p s st log) id = p.
Proof. simpl. by rewrite Z.eqb_refl. Qed.
Lemma set_pc_ne id p s st log i : i <> id -> m_pc (set_pc id p s st log) i = m_pc s i.
Proof. intros H. simpl. by rewrite (proj2 (Z.eqb_neq i id)). Qed.

Lemma main_ok_call s id c todo :
  main_ok s -> m_pc s id = MCalls (c :: todo) ->
  main_ok (set_pc id (MCalls todo) s (m_started s) (m_log s ++ [(id, c)])).
Proof.
  intros [H1 H2 H3 H4 H5 H6] Hpc.
  assert (Hother : forall i, i <> id -> calls_of i (m_log s ++ [(id, c)]) = calls_of i (m_log s))
    by (intros i Hi; rewrite calls_of_snoc, decide_False, app_nil_r by congruence; done).
  split; cbn [m_log m_started set_pc].
  - intros i t. destruct (decide (i = id)) as [->|Hi]; [rewrite set_pc_same|rewrite set_pc_ne, Hother by done; by apply H1].
    intros [= <-]. rewrite calls_of_snoc, decide_True, <- app_assoc by done. by apply H1.
  - intros i. destruct (decide (i = id)) as [->|Hi]; [by rewrite set_pc_same|]. rewrite set_pc_ne, Hother by done. apply H2.
  - intros i. destruct (decide (i = id)) as [->|Hi]; [by rewrite set_pc_same|]. rewrite set_pc_ne, Hother by done. apply H3.
  - intros Hs. destruct (decide (0 = id)) as [<-|Hi]; [rewrite H4 in Hpc by done; discriminate|].
    rewrite set_pc_ne by done. by apply H4.
  - intros i Hi. destruct (decide (i = id)) as [->|Hn]; [|rewrite set_pc_ne by done; by apply H5].
    intros _. apply (H5 id Hi). by rewrite Hpc.
  - intros l1 i c' l2 Hl Hi. destruct l2 as [|x l2 _] using rev_ind.
    + apply app_inj_tail in Hl as [<- [= <- <-]]. apply (H3 0), H4, (H5 id Hi). by rewrite Hpc.
    + rewrite app_comm_cons, app_assoc in Hl. apply app_inj_tail in Hl as [Hl _]. by eapply H6.
Qed.

Lemma main_ok_step s id : main_ok s -> main_ok (main id s).
Proof.
  intros Hok. unfold main. destruct (m_pc s id) as [[|c todo]| |] eqn:Hpc; [|by apply main_ok_call| |done].
  - destruct Hok as [H1 H2 H3 H4 H5 H6]. split; cbn [m_log m_started set_pc]; try done.
    + intros i t. destruct (decide (i = id)) as [->|Hi]; [by rewrite set_pc_same|rewrite set_pc_ne by done; apply H1].
    + intros i. destruct (decide (i = id)) as [->|Hi]; [by rewrite set_pc_same|rewrite set_pc_ne by done; apply H2].
    + intros i. destruct (decide (i = id)) as [->|Hi]; [|rewrite set_pc_ne by done; apply H3].
      intros _. rewrite <- (H1 id [] Hpc). by rewrite app_nil_r.
    + destruct (Z.eqb_spec id 0) as [->|Hi]; [by rewrite set_pc_same|]. intros Hs. rewrite set_pc_ne by done. by apply H4.
    + intros i Hi. destruct (Z.eqb_spec id 0) as [->|Hz]; [done|].
      destruct (decide (i = id)) as [->|Hn]; [intros _; apply (H5 id Hi); by rewrite Hpc|rewrite set_pc_ne by done; by apply H5].
  - destruct (Z.eqb_spec (m_started s) 0) as [|Hs]; [done|]. destruct Hok as [H1 H2 H3 H4 H5 H6].
    destruct (H2 id Hpc) as [Hc Hi]. split; cbn [m_log m_started set_pc]; try done.
    + intros i t. destruct (decide (i = id)) as [->|Hn]; [rewrite set_pc_same|rewrite set_pc_ne by done; apply H1].
      intros [= <-]. rewrite Hc. unfold main_calls. by rewrite (proj2 (Z.eqb_neq id 0)).
    + intros i. destruct (decide (i = id)) as [->|Hn]; [by rewrite set_pc_same|rewrite set_pc_ne by done; apply H2].
    + intros i. destruct (decide (i = id)) as [->|Hn]; [by rewrite set_pc_same|rewrite set_pc_ne by done; apply H3].
    + intros _. rewrite set_pc_ne by done. by apply H4.
Qed.

Lemma main_ok_init : main_ok main_init.
Proof.
  split; cbn [main_init m_pc m_log m_started]; try done.
  - intros id todo. unfold main_calls. by destruct (id =? 0) eqn:E; intros [= <-].
  - intros id. destruct (Z.eqb_spec id 0); done.
  - intros id. by destruct (id =? 0).
  - intros id Hi Hs. by rewrite (proj2 (Z.eqb_neq id 0)) in Hs.
  - intros l1 id c l2 H. by destruct l1.
Qed.

Lemma main_ok_run sched : main_ok (run_main sched).
Proof.
  unfold run_main. generalize main_ok_init. generalize main_init.
  induction sched as [|id sched IH]; intros s Hs; [done|]. apply IH. by apply main_ok_step.
Qed.

(** [main] on several harts.  However the harts interleave, a hart other
    than hart 0 makes no initialisation call before hart 0 has made all of its
    own, in their order, ending with [userinit]; and a hart that has reached
    [scheduler] has made exactly its calls, in order. *)
Theorem main_waits_for_hart0 sched :
  let s := run_main sched in
  (forall l1 id c l2, m_log s = l1 ++ (id, c) :: l2 -> id <> 0 -> calls_of 0 l1 = main_first) /\
  (forall id, m_pc s id = MSched -> calls_of id (m_log s) = main_calls id).
Proof. destruct (main_ok_run sched). done. Qed.
