(* ===== verification/UserCode.v ===== *)
(** * User code in assembly ([user/usys.pl], [user/initcode.S])

    The instructions the stubs of the system calls and the first process
    consist of, with their encoding, and a hart in user mode that fetches and
    executes them up to the next [ecall].  [initcode_execs_init]: the bytes
    that [proc.c] puts into the first process call [exec] on [/init], and
    [exit] for ever if that returns.  [usys_stub_calls]: a stub makes the call
    with its number and returns what the kernel answers. *)
From stdpp Require Import base gmap strings numbers option list.
From S2P Require Import Prelude Layout Machine Memory Kernel Demo RcuList Block Proc Trap Sh User.
Open Scope Z_scope.

(** ** Instructions *)

Definition x0 : Z := 0.
Definition ra : Z := 1.
Definition a0 : Z := 10.
Definition a1 : Z := 11.
Definition a7 : Z := 17.

Inductive uinstr :=
  | AUIPC (rd imm : Z)
  | ADDI (rd rs imm : Z)
  | JAL (rd off : Z)
  | JALR (rd rs off : Z)
  | ECALL.

Definition encode (i : uinstr) : Z :=
  match i with
  | AUIPC rd imm => Z.shiftl (imm mod 2 ^ 20) 12 + Z.shiftl rd 7 + 0x17
  | ADDI rd rs imm => Z.shiftl (imm mod 2 ^ 12) 20 + Z.shiftl rs 15 + Z.shiftl rd 7 + 0x13
  | JAL rd off =>
      let i := off mod 2 ^ 21 in
      Z.shiftl (i / 2 ^ 20) 31 + Z.shiftl (i / 2 mod 2 ^ 10) 21 + Z.shiftl (i / 2 ^ 11 mod 2) 20 +
      Z.shiftl (i / 2 ^ 12 mod 2 ^ 8) 12 + Z.shiftl rd 7 + 0x6f
  | JALR rd rs off => Z.shiftl (off mod 2 ^ 12) 20 + Z.shiftl rs 15 + Z.shiftl rd 7 + 0x67
  | ECALL => 0x73
  end.

(** An unsigned field of [n] bits read as a signed number. *)
Definition signed (n v : Z) : Z := if v <? 2 ^ (n - 1) then v else v - 2 ^ n.

Definition decode (w : Z) : option uinstr :=
  let rd := w / 2 ^ 7 mod 32 in
  let rs := w / 2 ^ 15 mod 32 in
  let f3 := w / 2 ^ 12 mod 8 in
  let imm := signed 12 (w / 2 ^ 20) in
  if w =? 0x73 then Some ECALL else
  if w mod 128 =? 0x17 then Some (AUIPC rd (signed 20 (w / 2 ^ 12))) else
  if (w mod 128 =? 0x13) && (f3 =? 0) then Some (ADDI rd rs imm) else
  if (w mod 128 =? 0x67) && (f3 =? 0) then Some (JALR rd rs imm) else
  if w mod 128 =? 0x6f then
    Some (JAL rd (signed 21 (w / 2 ^ 31 * 2 ^ 20 + w / 2 ^ 12 mod 2 ^ 8 * 2 ^ 12 + w / 2 ^ 20 mod 2 * 2 ^ 11 +
                             w / 2 ^ 21 mod 2 ^ 10 * 2)))
  else None.

(** ** A hart in user mode *)

Record umach := mkM { m_pc : Z; m_x : Z -> Z; m_mem : mem }.

Definition xget (s : umach) (r : Z) : Z := if r =? 0 then 0 else m_x s r.
Definition xset (r v : Z) (x : Z -> Z) : Z -> Z := fun q => if q =? r then v else x q.

(** The next state, or [None] at an [ecall] or at a word that is none of the
    instructions. *)
Definition user_step (s : umach) : option umach :=
  let pc := m_pc s in let x := m_x s in let m := m_mem s in
  match decode (ld 4 m pc) with
  | Some (AUIPC rd imm) => Some (mkM (u64 (pc + 4)) (xset rd (u64 (pc + 4096 * imm)) x) m)
  | Some (ADDI rd rs imm) => Some (mkM (u64 (pc + 4)) (xset rd (u64 (xget s rs + imm)) x) m)
  | Some (JAL rd off) => Some (mkM (u64 (pc + off)) (xset rd (u64 (pc + 4)) x) m)
  | Some (JALR rd rs off) => Some (mkM (u64 (Z.land (xget s rs + off) (-2))) (xset rd (u64 (pc + 4)) x) m)
  | Some ECALL | None => None
  end.

Fixpoint steps (k : nat) (s : umach) : option umach :=
  match k with O => Some s | S k' => s' ← user_step s; steps k' s' end.

(** At an [ecall]; when the call returns, [a0] has its result and the hart goes
    on after it ([TrapLogic.getpid_system_call]). *)
Definition at_ecall (s : umach) : bool := ld 4 (m_mem s) (m_pc s) =? encode ECALL.
Definition resume (r : Z) (s : umach) : umach := mkM (u64 (m_pc s + 4)) (xset a0 r (m_x s)) (m_mem s).

(** ** [initcode.S] *)

(** [la rd, a] at address [pc]. *)
Definition la (rd pc a : Z) : list uinstr := [AUIPC rd 0; ADDI rd rd (a - pc)].
Definition li (rd v : Z) : uinstr := ADDI rd x0 v.

(** The text, with the addresses of the two labels of the data. *)
Definition initcode_text (init argv : Z) : list uinstr :=
  la a0 0 init ++ la a1 8 argv ++ [li a7 SYS_exec; ECALL] ++
  [li a7 SYS_exit; ECALL; JAL ra (-8)].

(** The text and the data, [argv] after [pad] bytes of alignment. *)
Definition initcode_image (pad : nat) : list Z :=
  let init := 36 in let argv := 43 + Z.of_nat pad in
  (concat ((fun i => le_bytes 4 (encode i)) <$> initcode_text init argv)) ++
  lit "/init" ++ [0; 0] ++ repeat 0 pad ++ le_bytes 4 init ++ le_bytes 4 0.

(** ** [usys.pl] *)

Definition stub (n : Z) : list uinstr := [li a7 n; ECALL; JALR x0 ra 0].

Definition usys : list (string * Z) :=
  [("fork", SYS_fork); ("exit", SYS_exit); ("wait", SYS_wait); ("pipe", SYS_pipe); ("read", SYS_read);
   ("write", SYS_write); ("close", SYS_close); ("kill", SYS_kill); ("exec", SYS_exec); ("open", SYS_open);
   ("mknod", SYS_mknod); ("unlink", SYS_unlink); ("fstat", SYS_fstat); ("link", SYS_link); ("mkdir", SYS_mkdir);
   ("chdir", SYS_chdir); ("dup", SYS_dup); ("getpid", SYS_getpid); ("sbrk", SYS_sbrk); ("sleep", SYS_sleep);
   ("uptime", SYS_uptime)]%string.

(** ** The first process *)

(** The page [uvminit] makes: the image and zeroes. *)
Definition first_page (image : list Z) : mem := wr_bytes ∅ 0 image.

(** The hart at its next [ecall], if it gets there within [fuel] steps. *)
Fixpoint to_ecall (fuel : nat) (s : umach) : option umach :=
  if at_ecall s then Some s else
  match fuel with O => None | S fuel' => s' ← user_step s; to_ecall fuel' s' end.

(** The numbers of the calls a process makes, when they return [rs]. *)
Fixpoint call_numbers (rs : list Z) (s : umach) : option (list Z) :=
  s' ← to_ecall 8 s;
  match rs with
  | [] => Some [xget s' a7]
  | r :: rs' => l ← call_numbers rs' (resume r s'); Some (xget s' a7 :: l)
  end.

Definition first_image (aligned : bool) : list Z := if aligned then initcode_image 1 else initcode.

(** The loop at [exit], from its start and from its jump. *)
Lemma exit_loop aligned rs : forall pc x, pc = 24 \/ pc = 32 ->
  call_numbers rs (mkM pc x (first_page (first_image aligned))) = Some (repeat SYS_exit (S (length rs))).
Proof.
  induction rs as [|r rs IH]; intros pc x Hpc;
    assert (exists x', to_ecall 8 (mkM pc x (first_page (first_image aligned))) =
      Some (mkM 28 x' (first_page (first_image aligned))) /\ x' a7 = SYS_exit) as (x' & E & Hx)
      by (destruct Hpc as [-> | ->], aligned; eexists; (split; [vm_compute; reflexivity|reflexivity]));
    cbn [call_numbers]; rewrite E; simpl; unfold xget; simpl; rewrite Hx; [done|].
  unfold resume. cbn [m_pc m_x m_mem]. change (u64 (28 + 4)) with 32. rewrite IH by (by right). done.
Qed.

(** C26: the first user process.  The bytes [initcode] of [proc.c] are the
    assembled code of [initcode.S], without the alignment of [argv] that the
    source asks for.  With or without it, started at address 0 of its page with
    any registers, the code calls [exec] with the path [/init] and an argument
    array that holds that string and a null pointer; if the call returns, all
    that follows are calls of [exit]. *)
Theorem initcode_execs_init (aligned : bool) x :
  let m := first_page (first_image aligned) in
  initcode = initcode_image 0 ++ [0] /\
  exists s, to_ecall 8 (mkM 0 x m) = Some s /\ m_mem s = m /\ xget s a7 = SYS_exec /\
    until_nul (rd_bytes m (xget s a0) 16) = lit "/init" /\
    ld 8 m (xget s a1) = xget s a0 /\ ld 8 m (xget s a1 + 8) = 0 /\
    forall rs, call_numbers rs s = Some (SYS_exec :: match rs with [] => [] | _ :: rs' => repeat SYS_exit (S (length rs')) end).
Proof.
  intros m. split; [vm_compute; reflexivity|].
  assert (exists x', to_ecall 8 (mkM 0 x m) = Some (mkM 20 x' m) /\ x' a7 = SYS_exec /\ x' a0 = 36 /\
    x' a1 = if aligned then 44 else 43) as (x' & E & H7 & H0 & H1)
    by (unfold m; destruct aligned; eexists; (split; [vm_compute; reflexivity|done])).
  exists (mkM 20 x' m). unfold xget. cbn [m_x m_mem]. rewrite H7, H0, H1.
  split; [exact E|]. split; [done|]. split; [done|].
  split; [unfold m; destruct aligned; vm_compute; reflexivity|].
  split; [unfold m; destruct aligned; vm_compute; reflexivity|].
  split; [unfold m; destruct aligned; vm_compute; reflexivity|].
  intros rs. destruct rs as [|r rs]; cbn [call_numbers].
  - assert (to_ecall 8 (mkM 20 x' m) = Some (mkM 20 x' m)) as -> by (unfold m; destruct aligned; vm_compute; reflexivity).
    simpl. unfold xget. simpl. by rewrite H7.
  - assert (to_ecall 8 (mkM 20 x' m) = Some (mkM 20 x' m)) as -> by (unfold m; destruct aligned; vm_compute; reflexivity).
    simpl. unfold resume, xget. cbn [m_pc m_x m_mem]. change (u64 (20 + 4)) with 24. unfold m.
    rewrite exit_loop by (by left). simpl. by rewrite H7.
Qed.

(** The image that the assembler makes of [initcode.S] is another one. *)
Lemma initcode_not_aligned : initcode_image 1 <> initcode.
Proof. vm_compute. discriminate. Qed.

(** ** The stubs *)

(** A fact about the numbers, checked on each. *)
Lemma usys_each (P : Z -> Prop) name n : Forall P (snd <$> usys) -> (name, n) ∈ usys -> P n.
Proof. rewrite Forall_fmap, Forall_forall. intros H Hn. exact (H _ Hn). Qed.

Lemma decode_li name n : (name, n) ∈ usys -> decode (encode (li a7 n)) = Some (li a7 n) /\ encode (li a7 n) <> encode ECALL.
Proof.
  apply (usys_each (fun n => decode (encode (li a7 n)) = Some (li a7 n) /\ encode (li a7 n) <> encode ECALL)).
  repeat (apply Forall_cons; split; [split; [reflexivity|discriminate]|]). constructor.
Qed.

Lemma usys_u64 name n : (name, n) ∈ usys -> u64 (0 + n) = n.
Proof. apply (usys_each (fun n => u64 (0 + n) = n)). repeat (apply Forall_cons; split; [reflexivity|]). constructor. Qed.

(** A stub at [a], called with the return address in [ra]: it makes the call of
    its number with the arguments it was given, and when the kernel answers [r]
    it returns with [r] in [a0], having changed no register but [a7]. *)
Theorem usys_stub_calls name n a m x r :
  (name, n) ∈ usys -> 0 <= a -> a + 12 <= 2 ^ 64 ->
  ld 4 m a = encode (li a7 n) -> ld 4 m (a + 4) = encode ECALL -> ld 4 m (a + 8) = encode (JALR x0 ra 0) ->
  0 <= x ra < 2 ^ 64 -> Z.land (x ra) (-2) = x ra ->
  exists s y, to_ecall 1 (mkM a x m) = Some s /\ xget s a7 = n /\
    (forall q, q <> a7 -> m_x s q = x q) /\
    user_step (resume r s) = Some (mkM (x ra) y m) /\
    y a0 = r /\ (forall q, q <> a0 -> q <> a7 -> q <> x0 -> y q = x q).
Proof.
  intros Hn Ha0 Ha1 H1 H2 H3 Hr He. destruct (decode_li name n Hn) as [Hd Hne].
  pose proof (usys_u64 name n Hn) as Hv.
  assert (E : to_ecall 1 (mkM a x m) = Some (mkM (a + 4) (xset a7 n x) m)).
  { cbn [to_ecall]. unfold at_ecall at 1. cbn [m_pc m_mem]. rewrite H1, (proj2 (Z.eqb_neq _ _) Hne).
    unfold user_step. cbn [m_pc m_mem m_x]. rewrite H1, Hd. unfold li, xget. cbn [Z.eqb x0].
    rewrite Hv, u64_small by lia. simpl. unfold at_ecall. cbn [m_pc m_mem]. by rewrite H2, Z.eqb_refl. }
  eexists _, _. split; [exact E|]. split; [done|]. split.
  { intros q Hq. cbn [m_x]. unfold xset. by rewrite (proj2 (Z.eqb_neq _ _) Hq). }
  split.
  { unfold user_step, resume. cbn [m_pc m_mem m_x]. rewrite u64_small by lia.
    replace (a + 4 + 4) with (a + 8) by lia. rewrite H3. change (decode (encode (JALR x0 ra 0))) with (Some (JALR x0 ra 0)).
    cbn iota. unfold xget. cbn [m_x Z.eqb ra]. change (xset a0 r (xset a7 n x) ra) with (x ra). rewrite Z.add_0_r, He.
    rewrite u64_small by lia. reflexivity. }
  split; [done|]. intros q Q1 Q2 Q3. unfold xset. by rewrite !(proj2 (Z.eqb_neq _ _)).
Qed.

Section dispatch.
Context `{im : Image} `{OS : Outside} `{SV : Services}.

(** The number of each stub selects the function of the kernel of its name. *)
Lemma usys_dispatch :
  (fun p : string * Z => syscalls !! Z.to_nat p.2) <$> usys =
  (fun h => Some (Some h)) <$>
    [sys_fork; sys_exit; sys_wait; s_fscall FPipe; s_fscall FRead; s_fscall FWrite; s_fscall FClose; sys_kill;
     s_fscall FExec; s_fscall FOpen; s_fscall FMknod; s_fscall FUnlink; s_fscall FFstat; s_fscall FLink;
     s_fscall FMkdir; s_fscall FChdir; s_fscall FDup; sys_getpid; sys_sbrk; sys_sleep; sys_uptime].
Proof. reflexivity. Qed.

End dispatch.
