(* ===== verification/UtFiles.v ===== *)
(** * [user/usertests.c]: the tests of files

    Each test is a tree of system calls, over the name [s] it prints.  A test
    fails by calling [exit] with a status that is not 0 and passes by returning
    or by [exit(0)].  [fuel] bounds the loops that read until the end of a
    file; [junk] is what an uninitialised local holds. *)
From stdpp Require Import base gmap strings numbers option list.
From S2P Require Import Prelude Layout FsState Block Printf Sysfile Sh User Utils.
Open Scope Z_scope.

(** ** What the tests are made of *)

Definition ne (a b : Z) : bool := negb (a =? b).

(** A message and [exit(1)]. *)
Definition fail {A} (fmt : list Z) (args : list arg) : prog A := u_printf fmt args;; exit 1.
Definition fail_if (b : bool) (fmt : list Z) (args : list arg) : prog unit := if b then fail fmt args else mret tt.

(** The message starts with the name of the test and ends with a newline. *)
Definition oops {A} (s : list Z) (m : string) : prog A := fail (lit "%s: " ++ lit m ++ nl) [AStr s].
Definition oops_if (b : bool) (s : list Z) (m : string) : prog unit := if b then oops s m else mret tt.

(** [wait]: what it returns, and the status. *)
Definition wait_both (old : Z) : prog (Z * Z) :=
  r ← sys CWait;
  mret (r.1, if r.1 <? 0 then old else i32 (le_val (take 4 r.2))).

(** A buffer after [bs] has been stored at its start. *)
Definition fill (buf bs : list Z) : list Z := bs ++ drop (length bs) buf.
Definition BUFSZ : Z := (MAXOPBLOCKS + 2) * BSIZE.
Definition buf0 : list Z := repeat 0 (Z.to_nat BUFSZ).
Definition byte_at (buf : list Z) (i : nat) : Z := nth i buf 0.

Definition OPEN_CREAT_RW : Z := Z.lor O_CREATE O_RDWR.
Definition OPEN_CREAT_W : Z := Z.lor O_CREATE O_WRONLY.
Definition OPEN_CREAT_W_TRUNC : Z := Z.lor (Z.lor O_CREATE O_WRONLY) O_TRUNC.

Definition open_ (path : string) (mode : Z) : prog Z := sysv (COpen (lit path) mode).
Definition write_ (fd : Z) (m : string) : prog Z := sysv (CWrite fd (lit m)).
(** [close(open(path, mode))] *)
Definition open_close (path : list Z) (mode : Z) : prog unit := fd ← sysv (COpen path mode); do_ (CClose fd).

(** [for(i = 0; i < n; i++)] *)
Definition upto (n : Z) (body : Z -> prog unit) : prog unit := pfor (seqZ 0 n) body.

(** [sbrk]: its argument is an [int], the old break a pointer. *)
Definition sbrk_ (n : Z) : prog Z := a ← sysv (CSbrk (i32 n)); mret (u64 a).
Definition NOMEM : Z := 0xffffffffffffffff.

(** ** Truncation *)

Definition truncate1 (s : list Z) : prog unit :=
  do_ (CUnlink (lit "truncfile"));;
  fd1 ← open_ "truncfile" OPEN_CREAT_W_TRUNC;
  write_ fd1 "abcd";;
  do_ (CClose fd1);;
  fd2 ← open_ "truncfile" O_RDONLY;
  n ← sysv (CRead fd2 32);
  fail_if (ne n 4) (lit "%s: read %d bytes, wanted 4" ++ nl) [AStr s; AInt n];;
  fd1 ← open_ "truncfile" (Z.lor O_WRONLY O_TRUNC);
  fd3 ← open_ "truncfile" O_RDONLY;
  n ← sysv (CRead fd3 32);
  (if ne n 0 then
     u_printf (lit "aaa fd3=%d" ++ nl) [AInt fd3];;
     fail (lit "%s: read %d bytes, wanted 0" ++ nl) [AStr s; AInt n]
   else mret tt);;
  n ← sysv (CRead fd2 32);
  (if ne n 0 then
     u_printf (lit "bbb fd2=%d" ++ nl) [AInt fd2];;
     fail (lit "%s: read %d bytes, wanted 0" ++ nl) [AStr s; AInt n]
   else mret tt);;
  write_ fd1 "abcdef";;
  n ← sysv (CRead fd3 32);
  fail_if (ne n 6) (lit "%s: read %d bytes, wanted 6" ++ nl) [AStr s; AInt n];;
  n ← sysv (CRead fd2 32);
  fail_if (ne n 2) (lit "%s: read %d bytes, wanted 2" ++ nl) [AStr s; AInt n];;
  do_ (CUnlink (lit "truncfile"));;
  do_ (CClose fd1);; do_ (CClose fd2);; do_ (CClose fd3).

Definition truncate2 (s : list Z) : prog unit :=
  do_ (CUnlink (lit "truncfile"));;
  fd1 ← open_ "truncfile" OPEN_CREAT_W_TRUNC;
  write_ fd1 "abcd";;
  fd2 ← open_ "truncfile" (Z.lor O_TRUNC O_WRONLY);
  n ← write_ fd1 "x";
  fail_if (ne n (-1)) (lit "%s: write returned %d, expected -1" ++ nl) [AStr s; AInt n];;
  do_ (CUnlink (lit "truncfile"));;
  do_ (CClose fd1);; do_ (CClose fd2).

Definition truncate3 (junk : Z) (s : list Z) : prog unit :=
  open_close (lit "truncfile") OPEN_CREAT_W_TRUNC;;
  pid ← sysv CFork;
  oops_if (pid <? 0) s "fork failed";;
  if pid =? 0 then
    upto 100 (fun _ =>
      fd ← open_ "truncfile" O_WRONLY;
      oops_if (fd <? 0) s "open failed";;
      n ← write_ fd "1234567890";
      fail_if (ne n 10) (lit "%s: write got %d, expected 10" ++ nl) [AStr s; AInt n];;
      do_ (CClose fd);;
      fd ← open_ "truncfile" O_RDONLY;
      do_ (CRead fd 32);;
      do_ (CClose fd));;
    exit 0
  else
    upto 150 (fun _ =>
      fd ← open_ "truncfile" OPEN_CREAT_W_TRUNC;
      oops_if (fd <? 0) s "open failed";;
      n ← write_ fd "xxx";
      fail_if (ne n 3) (lit "%s: write got %d, expected 3" ++ nl) [AStr s; AInt n];;
      do_ (CClose fd));;
    xstatus ← wait_status junk;
    do_ (CUnlink (lit "truncfile"));;
    exit xstatus.

(** ** Inodes *)

Definition iputtest (s : list Z) : prog unit :=
  r ← sysv (CMkdir (lit "iputdir")); oops_if (r <? 0) s "mkdir failed";;
  r ← sysv (CChdir (lit "iputdir")); oops_if (r <? 0) s "chdir iputdir failed";;
  r ← sysv (CUnlink (lit "../iputdir")); oops_if (r <? 0) s "unlink ../iputdir failed";;
  r ← sysv (CChdir (lit "/")); oops_if (r <? 0) s "chdir / failed".

Definition exitiputtest (junk : Z) (s : list Z) : prog unit :=
  pid ← sysv CFork;
  oops_if (pid <? 0) s "fork failed";;
  if pid =? 0 then
    r ← sysv (CMkdir (lit "iputdir")); oops_if (r <? 0) s "mkdir failed";;
    r ← sysv (CChdir (lit "iputdir")); oops_if (r <? 0) s "child chdir failed";;
    r ← sysv (CUnlink (lit "../iputdir")); oops_if (r <? 0) s "unlink ../iputdir failed";;
    exit 0
  else
    xstatus ← wait_status junk;
    exit xstatus.

Definition openiputtest (junk : Z) (s : list Z) : prog unit :=
  r ← sysv (CMkdir (lit "oidir")); oops_if (r <? 0) s "mkdir oidir failed";;
  pid ← sysv CFork;
  oops_if (pid <? 0) s "fork failed";;
  if pid =? 0 then
    fd ← open_ "oidir" O_RDWR;
    oops_if (0 <=? fd) s "open directory for write succeeded";;
    exit 0
  else
    do_ (CSleep 1);;
    r ← sysv (CUnlink (lit "oidir")); oops_if (ne r 0) s "unlink failed";;
    xstatus ← wait_status junk;
    exit xstatus.

(** ** Small and large files *)

Definition opentest (s : list Z) : prog unit :=
  fd ← open_ "echo" 0;
  oops_if (fd <? 0) s "open echo failed!";;
  do_ (CClose fd);;
  fd ← open_ "doesnotexist" 0;
  oops_if (0 <=? fd) s "open doesnotexist succeeded!".

Definition writetest (s : list Z) : prog unit :=
  fd ← open_ "small" OPEN_CREAT_RW;
  oops_if (fd <? 0) s "error: creat small failed!";;
  upto 100 (fun i =>
    n ← write_ fd "aaaaaaaaaa";
    fail_if (ne n 10) (lit "%s: error: write aa %d new file failed" ++ nl) [AStr s; AInt i];;
    n ← write_ fd "bbbbbbbbbb";
    fail_if (ne n 10) (lit "%s: error: write bb %d new file failed" ++ nl) [AStr s; AInt i]);;
  do_ (CClose fd);;
  fd ← open_ "small" O_RDONLY;
  oops_if (fd <? 0) s "error: open small failed!";;
  i ← sysv (CRead fd 2000);
  oops_if (ne i 2000) s "read failed";;
  do_ (CClose fd);;
  r ← sysv (CUnlink (lit "small")); oops_if (r <? 0) s "unlink small failed".

(** [((int* )buf)[0]] *)
Definition buf_int (buf : list Z) : Z := i32 (le_val (take 4 buf)).

(** One round of the reading loop of [writebig], at block [n]. *)
Definition writebig_read (s : list Z) (fd : Z) (st : list Z * Z) : prog (list Z * Z + unit) :=
  let '(buf, n) := st in
  r ← sys (CRead fd BSIZE);
  let buf := fill buf r.2 in
  if r.1 =? 0 then
    fail_if (n =? MAXFILE - 1) (lit "%s: read only %d blocks from big") [AStr s; AInt n];;
    mret (inr tt)
  else
    fail_if (ne r.1 BSIZE) (lit "%s: read failed %d" ++ nl) [AStr s; AInt r.1];;
    fail_if (ne (buf_int buf) n) (lit "%s: read content of block %d is %d" ++ nl) [AStr s; AInt n; AInt (buf_int buf)];;
    mret (inl (buf, n + 1)).

Definition writebig (fuel : nat) (s : list Z) : prog unit :=
  fd ← open_ "big" OPEN_CREAT_RW;
  oops_if (fd <? 0) s "error: creat big failed!";;
  upto MAXFILE (fun i =>
    n ← sysv (CWrite fd (le_bytes 4 i ++ repeat 0 1020));
    fail_if (ne n BSIZE) (lit "%s: error: write big file failed" ++ nl) [AStr s; AInt i]);;
  do_ (CClose fd);;
  fd ← open_ "big" O_RDONLY;
  oops_if (fd <? 0) s "error: open big failed!";;
  ploop fuel (writebig_read s fd) (fill buf0 (le_bytes 4 (MAXFILE - 1)), 0);;
  do_ (CClose fd);;
  r ← sysv (CUnlink (lit "big")); oops_if (r <? 0) s "unlink big failed".

(** The name of two characters, the second ['0' + i]. *)
Definition name2 (c : Z) (i : Z) : list Z := until_nul [c; u8 (48 + i)].

Definition createtest (s : list Z) : prog unit :=
  upto 52 (fun i => fd ← sysv (COpen (name2 97 i) OPEN_CREAT_RW); do_ (CClose fd));;
  upto 52 (fun i => do_ (CUnlink (name2 97 i))).

Definition dirtest (s : list Z) : prog unit :=
  r ← sysv (CMkdir (lit "dir0")); oops_if (r <? 0) s "mkdir failed";;
  r ← sysv (CChdir (lit "dir0")); oops_if (r <? 0) s "chdir dir0 failed";;
  r ← sysv (CChdir (lit "..")); oops_if (r <? 0) s "chdir .. failed";;
  r ← sysv (CUnlink (lit "dir0")); oops_if (r <? 0) s "unlink dir0 failed".

(** ** Several processes *)

(** The waiting loop over [n] children: any failure is reported by [bad]. *)
Definition wait_all (n : Z) (junk : Z) (bad : Z -> prog unit) : prog unit :=
  ploop (Z.to_nat n + 1) (fun st : Z * Z =>
    let '(i, xst) := st in
    if negb (i <? n) then mret (inr tt) else
    xst ← wait_status xst;
    (if ne xst 0 then bad xst else mret tt);;
    mret (inl (i + 1, xst))) (0, junk).

(** The reading loop of [sharedfd]: the buffer and the two counters. *)
Definition sharedfd_read (fd : Z) (st : list Z * Z * Z) : prog (list Z * Z * Z + Z * Z) :=
  let '(buf, nc, np) := st in
  r ← sys (CRead fd 10);
  let buf := fill buf r.2 in
  if 0 <? r.1 then
    let count c := Z.of_nat (length (filter (fun b => b = c) buf)) in
    mret (inl (buf, nc + count 99, np + count 112))
  else mret (inr (nc, np)).

Definition sharedfd (fuel : nat) (junk : Z) (s : list Z) : prog unit :=
  do_ (CUnlink (lit "sharedfd"));;
  fd ← open_ "sharedfd" OPEN_CREAT_RW;
  fail_if (fd <? 0) (lit "%s: cannot open sharedfd for writing") [AStr s];;
  pid ← sysv CFork;
  let buf := repeat (if pid =? 0 then 99 else 112) 10 in
  upto 1000 (fun _ => n ← sysv (CWrite fd buf); oops_if (ne n 10) s "write sharedfd failed");;
  (if pid =? 0 then exit 0 else
   xstatus ← wait_status junk;
   if ne xstatus 0 then exit xstatus else mret tt);;
  do_ (CClose fd);;
  fd ← open_ "sharedfd" 0;
  oops_if (fd <? 0) s "cannot open sharedfd for reading";;
  c ← ploop fuel (sharedfd_read fd) (buf, 0, 0);
  do_ (CClose fd);;
  do_ (CUnlink (lit "sharedfd"));;
  if (c.1 =? 10000) && (c.2 =? 10000) then exit 0 else oops s "nc/np test fails".

Definition ff_name (i : Z) : list Z := lit "f" ++ [48 + i].

(** The reading loop of [fourfiles] on file [i]: the total. *)
Definition fourfiles_read (s : list Z) (i fd : Z) (total : Z) : prog (Z + Z) :=
  r ← sys (CRead fd BUFSZ);
  if 0 <? r.1 then
    fail_if (existsb (fun b => ne b (48 + i)) r.2) (lit "wrong char" ++ nl) [AStr s];;
    mret (inl (total + r.1))
  else mret (inr total).

Definition fourfiles (fuel : nat) (junk : Z) (s : list Z) : prog unit :=
  upto 4 (fun pi =>
    do_ (CUnlink (ff_name pi));;
    pid ← sysv CFork;
    fail_if (pid <? 0) (lit "fork failed" ++ nl) [AStr s];;
    if pid =? 0 then
      fd ← sysv (COpen (ff_name pi) OPEN_CREAT_RW);
      fail_if (fd <? 0) (lit "create failed" ++ nl) [AStr s];;
      upto 12 (fun _ =>
        n ← sysv (CWrite fd (repeat (48 + pi) 500));
        fail_if (ne n 500) (lit "write failed %d" ++ nl) [AInt n]);;
      exit 0
    else mret tt);;
  wait_all 4 junk exit;;
  upto 4 (fun i =>
    fd ← sysv (COpen (ff_name i) 0);
    total ← ploop fuel (fourfiles_read s i fd) 0;
    do_ (CClose fd);;
    fail_if (ne total 6000) (lit "wrong length %d" ++ nl) [AInt total];;
    do_ (CUnlink (ff_name i))).

(** The child [pi] of [createdelete]. *)
Definition createdelete_child (s : list Z) (pi : Z) : prog unit :=
  upto 20 (fun i =>
    fd ← sysv (COpen (name2 (112 + pi) i) OPEN_CREAT_RW);
    oops_if (fd <? 0) s "create failed";;
    do_ (CClose fd);;
    if (0 <? i) && (i mod 2 =? 0) then
      r ← sysv (CUnlink (name2 (112 + pi) (i / 2)));
      oops_if (r <? 0) s "unlink failed"
    else mret tt);;
  exit 0.

Definition createdelete (junk : Z) (s : list Z) : prog unit :=
  upto 4 (fun pi =>
    pid ← sysv CFork;
    fail_if (pid <? 0) (lit "fork failed" ++ nl) [AStr s];;
    if pid =? 0 then createdelete_child s pi else mret tt);;
  wait_all 4 junk (fun _ => exit 1);;
  upto 20 (fun i => upto 4 (fun pi =>
    let name := name2 (112 + pi) i in
    fd ← sysv (COpen name 0);
    (if ((i =? 0) || (10 <=? i)) && (fd <? 0) then
       fail (lit "%s: oops createdelete %s didn't exist" ++ nl) [AStr s; AStr name]
     else if ((1 <=? i) && (i <? 10)) && (0 <=? fd) then
       fail (lit "%s: oops createdelete %s did exist" ++ nl) [AStr s; AStr name]
     else mret tt);;
    if 0 <=? fd then do_ (CClose fd) else mret tt));;
  upto 20 (fun i => upto 4 (fun _ => do_ (CUnlink (name2 (112 + i) i)))).

(** ** Links *)

Definition unlinkread (s : list Z) : prog unit :=
  fd ← open_ "unlinkread" OPEN_CREAT_RW;
  oops_if (fd <? 0) s "create unlinkread failed";;
  write_ fd "hello";;
  do_ (CClose fd);;
  fd ← open_ "unlinkread" O_RDWR;
  oops_if (fd <? 0) s "open unlinkread failed";;
  r ← sysv (CUnlink (lit "unlinkread")); oops_if (ne r 0) s "unlink unlinkread failed";;
  fd1 ← open_ "unlinkread" OPEN_CREAT_RW;
  write_ fd1 "yyy";;
  do_ (CClose fd1);;
  r ← sys (CRead fd BUFSZ);
  let buf := fill buf0 r.2 in
  fail_if (ne r.1 5) (lit "%s: unlinkread read failed") [AStr s];;
  oops_if (ne (byte_at buf 0) 104) s "unlinkread wrong data";;
  n ← sysv (CWrite fd (take 10 buf));
  oops_if (ne n 10) s "unlinkread write failed";;
  do_ (CClose fd);;
  do_ (CUnlink (lit "unlinkread")).

Definition linktest (s : list Z) : prog unit :=
  do_ (CUnlink (lit "lf1"));;
  do_ (CUnlink (lit "lf2"));;
  fd ← open_ "lf1" OPEN_CREAT_RW;
  oops_if (fd <? 0) s "create lf1 failed";;
  n ← write_ fd "hello"; oops_if (ne n 5) s "write lf1 failed";;
  do_ (CClose fd);;
  r ← sysv (CLink (lit "lf1") (lit "lf2")); oops_if (r <? 0) s "link lf1 lf2 failed";;
  do_ (CUnlink (lit "lf1"));;
  fd ← open_ "lf1" 0; oops_if (0 <=? fd) s "unlinked lf1 but it is still there!";;
  fd ← open_ "lf2" 0;
  oops_if (fd <? 0) s "open lf2 failed";;
  n ← sysv (CRead fd BUFSZ); oops_if (ne n 5) s "read lf2 failed";;
  do_ (CClose fd);;
  r ← sysv (CLink (lit "lf2") (lit "lf2")); oops_if (0 <=? r) s "link lf2 lf2 succeeded! oops";;
  do_ (CUnlink (lit "lf2"));;
  r ← sysv (CLink (lit "lf2") (lit "lf1")); oops_if (0 <=? r) s "link non-existant succeeded! oops";;
  r ← sysv (CLink (lit ".") (lit "lf1")); oops_if (0 <=? r) s "link . lf1 succeeded! oops".

(** The file [C] and a digit or a later character. *)
Definition cfile (i : Z) : list Z := name2 67 i.

(** The first loop of [concreate]: both processes create or link. *)
Definition concreate_make (junk : Z) (i : Z) : prog unit :=
  do_ (CUnlink (cfile i));;
  pid ← sysv CFork;
  (if (ne pid 0 && (i mod 3 =? 1)) || ((pid =? 0) && (i mod 5 =? 1)) then do_ (CLink (lit "C0") (cfile i)) else
   fd ← sysv (COpen (cfile i) OPEN_CREAT_RW);
   fail_if (fd <? 0) (lit "concreate create %s failed" ++ nl) [AStr (cfile i)];;
   do_ (CClose fd));;
  if pid =? 0 then exit 0 else
  xstatus ← wait_status junk;
  if ne xstatus 0 then exit 1 else mret tt.

(** The loop over the directory: [de], the flags [fa] and the count. *)
Definition concreate_dir (s : list Z) (fd : Z) (st : list Z * list Z * Z) : prog (list Z * list Z * Z + Z) :=
  let '(de, fa, n) := st in
  r ← sys (CRead fd 16);
  if negb (0 <? r.1) then mret (inr n) else
  let de := fill de r.2 in
  if de_inum de =? 0 then mret (inl (de, fa, n)) else
  if (byte_at de 2 =? 67) && (byte_at de 4 =? 0) then
    let i := byte_at de 3 - 48 in
    let name := de_name de in
    if (i <? 0) || (40 <=? i) then fail (lit "%s: concreate weird file %s" ++ nl) [AStr s; AStr name] else
    if ne (byte_at fa (Z.to_nat i)) 0 then fail (lit "%s: concreate duplicate file %s" ++ nl) [AStr s; AStr name] else
    mret (inl (de, <[Z.to_nat i := 1]> fa, n + 1))
  else mret (inl (de, fa, n)).

(** The last loop: one process opens the file, the other removes it. *)
Definition concreate_end (s : list Z) (i : Z) : prog unit :=
  pid ← sysv CFork;
  oops_if (pid <? 0) s "fork failed";;
  (if ((i mod 3 =? 0) && (pid =? 0)) || ((i mod 3 =? 1) && ne pid 0)
   then upto 6 (fun _ => open_close (cfile i) 0)
   else upto 6 (fun _ => do_ (CUnlink (cfile i))));;
  if pid =? 0 then exit 0 else do_ CWait.

Definition concreate (fuel : nat) (junk : Z) (de0 : list Z) (s : list Z) : prog unit :=
  upto 40 (concreate_make junk);;
  fd ← open_ "." 0;
  n ← ploop fuel (concreate_dir s fd) (de0, repeat 0 40, 0);
  do_ (CClose fd);;
  oops_if (ne n 40) s "concreate not enough files in directory listing";;
  upto 40 (concreate_end s).

(** The generator of [linkunlink], and its loop from seed [x]. *)
Fixpoint linkunlink_loop (k : nat) (x : Z) : prog unit :=
  match k with
  | O => mret tt
  | S k' =>
      let x := u32 (x * 1103515245 + 12345) in
      (if x mod 3 =? 0 then open_close (lit "x") (Z.lor O_RDWR O_CREATE)
       else if x mod 3 =? 1 then do_ (CLink (lit "cat") (lit "x"))
       else do_ (CUnlink (lit "x")));;
      linkunlink_loop k' x
  end.

Definition linkunlink (s : list Z) : prog unit :=
  do_ (CUnlink (lit "x"));;
  pid ← sysv CFork;
  oops_if (pid <? 0) s "fork failed";;
  linkunlink_loop 100 (if ne pid 0 then 1 else 97);;
  if ne pid 0 then do_ CWait else exit 0.

(** ** Directories *)

Definition bd_name (i : Z) : list Z := [120; 48 + i / 64; 48 + i mod 64].

Definition bigdir (s : list Z) : prog unit :=
  do_ (CUnlink (lit "bd"));;
  fd ← open_ "bd" O_CREATE;
  oops_if (fd <? 0) s "bigdir create failed";;
  do_ (CClose fd);;
  upto 500 (fun i =>
    r ← sysv (CLink (lit "bd") (bd_name i));
    fail_if (ne r 0) (lit "%s: bigdir link(bd, %s) failed" ++ nl) [AStr s; AStr (bd_name i)]);;
  do_ (CUnlink (lit "bd"));;
  upto 500 (fun i =>
    r ← sysv (CUnlink (bd_name i));
    fail_if (ne r 0) (lit "%s: bigdir unlink failed") [AStr s]).

(** [subdir] up to the first [chdir]. *)
Definition subdir_make (s : list Z) : prog unit :=
  do_ (CUnlink (lit "ff"));;
  r ← sysv (CMkdir (lit "dd")); oops_if (ne r 0) s "mkdir dd failed";;
  fd ← open_ "dd/ff" OPEN_CREAT_RW; oops_if (fd <? 0) s "create dd/ff failed";;
  write_ fd "ff";;
  do_ (CClose fd);;
  r ← sysv (CUnlink (lit "dd")); oops_if (0 <=? r) s "unlink dd (non-empty dir) succeeded!";;
  r ← sysv (CMkdir (lit "/dd/dd")); fail_if (ne r 0) (lit "subdir mkdir dd/dd failed" ++ nl) [AStr s];;
  fd ← open_ "dd/dd/ff" OPEN_CREAT_RW; oops_if (fd <? 0) s "create dd/dd/ff failed";;
  write_ fd "FF";;
  do_ (CClose fd);;
  fd ← open_ "dd/dd/../ff" 0; oops_if (fd <? 0) s "open dd/dd/../ff failed";;
  r ← sys (CRead fd BUFSZ);
  oops_if (ne r.1 2 || ne (byte_at (fill buf0 r.2) 0) 102) s "dd/dd/../ff wrong content";;
  do_ (CClose fd);;
  r ← sysv (CLink (lit "dd/dd/ff") (lit "dd/dd/ffff"));
  fail_if (ne r 0) (lit "link dd/dd/ff dd/dd/ffff failed" ++ nl) [AStr s];;
  r ← sysv (CUnlink (lit "dd/dd/ff")); oops_if (ne r 0) s "unlink dd/dd/ff failed";;
  fd ← open_ "dd/dd/ff" O_RDONLY; oops_if (0 <=? fd) s "open (unlinked) dd/dd/ff succeeded".

(** Its walk through the directories. *)
Definition subdir_walk (s : list Z) : prog unit :=
  r ← sysv (CChdir (lit "dd")); oops_if (ne r 0) s "chdir dd failed";;
  r ← sysv (CChdir (lit "dd/../../dd")); oops_if (ne r 0) s "chdir dd/../../dd failed";;
  r ← sysv (CChdir (lit "dd/../../../dd")); fail_if (ne r 0) (lit "chdir dd/../../dd failed" ++ nl) [AStr s];;
  r ← sysv (CChdir (lit "./..")); oops_if (ne r 0) s "chdir ./.. failed";;
  fd ← open_ "dd/dd/ffff" 0; oops_if (fd <? 0) s "open dd/dd/ffff failed";;
  n ← sysv (CRead fd BUFSZ); oops_if (ne n 2) s "read dd/dd/ffff wrong len";;
  do_ (CClose fd).

(** The calls that must fail, and the clean-up. *)
Definition subdir_bad (s : list Z) : prog unit :=
  fd ← open_ "dd/dd/ff" O_RDONLY; oops_if (0 <=? fd) s "open (unlinked) dd/dd/ff succeeded!";;
  fd ← open_ "dd/ff/ff" OPEN_CREAT_RW; oops_if (0 <=? fd) s "create dd/ff/ff succeeded!";;
  fd ← open_ "dd/xx/ff" OPEN_CREAT_RW; oops_if (0 <=? fd) s "create dd/xx/ff succeeded!";;
  fd ← open_ "dd" O_CREATE; oops_if (0 <=? fd) s "create dd succeeded!";;
  fd ← open_ "dd" O_RDWR; oops_if (0 <=? fd) s "open dd rdwr succeeded!";;
  fd ← open_ "dd" O_WRONLY; oops_if (0 <=? fd) s "open dd wronly succeeded!";;
  r ← sysv (CLink (lit "dd/ff/ff") (lit "dd/dd/xx")); oops_if (r =? 0) s "link dd/ff/ff dd/dd/xx succeeded!";;
  r ← sysv (CLink (lit "dd/xx/ff") (lit "dd/dd/xx")); oops_if (r =? 0) s "link dd/xx/ff dd/dd/xx succeeded!";;
  r ← sysv (CLink (lit "dd/ff") (lit "dd/dd/ffff")); oops_if (r =? 0) s "link dd/ff dd/dd/ffff succeeded!";;
  r ← sysv (CMkdir (lit "dd/ff/ff")); oops_if (r =? 0) s "mkdir dd/ff/ff succeeded!";;
  r ← sysv (CMkdir (lit "dd/xx/ff")); oops_if (r =? 0) s "mkdir dd/xx/ff succeeded!";;
  r ← sysv (CMkdir (lit "dd/dd/ffff")); oops_if (r =? 0) s "mkdir dd/dd/ffff succeeded!";;
  r ← sysv (CUnlink (lit "dd/xx/ff")); oops_if (r =? 0) s "unlink dd/xx/ff succeeded!";;
  r ← sysv (CUnlink (lit "dd/ff/ff")); oops_if (r =? 0) s "unlink dd/ff/ff succeeded!";;
  r ← sysv (CChdir (lit "dd/ff")); oops_if (r =? 0) s "chdir dd/ff succeeded!";;
  r ← sysv (CChdir (lit "dd/xx")); oops_if (r =? 0) s "chdir dd/xx succeeded!";;
  r ← sysv (CUnlink (lit "dd/dd/ffff")); oops_if (ne r 0) s "unlink dd/dd/ff failed";;
  r ← sysv (CUnlink (lit "dd/ff")); oops_if (ne r 0) s "unlink dd/ff failed";;
  r ← sysv (CUnlink (lit "dd")); oops_if (r =? 0) s "unlink non-empty dd succeeded!";;
  r ← sysv (CUnlink (lit "dd/dd")); oops_if (r <? 0) s "unlink dd/dd failed";;
  r ← sysv (CUnlink (lit "dd")); oops_if (r <? 0) s "unlink dd failed".

Definition subdir (s : list Z) : prog unit := subdir_make s;; subdir_walk s;; subdir_bad s.

(** ** Large writes *)

(** The sizes 499, 970, ... below [BUFSZ]. *)
Definition bigwrite_sizes : list Z := (fun k => 499 + 471 * k) <$> seqZ 0 ((BUFSZ - 499 + 470) / 471).

Definition bigwrite (s : list Z) : prog unit :=
  do_ (CUnlink (lit "bigwrite"));;
  pfor bigwrite_sizes (fun sz =>
    fd ← open_ "bigwrite" OPEN_CREAT_RW;
    oops_if (fd <? 0) s "cannot create bigwrite";;
    upto 2 (fun _ =>
      cc ← sysv (CWrite fd (take (Z.to_nat sz) buf0));
      fail_if (ne cc sz) (lit "%s: write(%d) ret %d" ++ nl) [AStr s; AInt sz; AInt cc]);;
    do_ (CClose fd);;
    do_ (CUnlink (lit "bigwrite"))).

Definition manywrites_child (s : list Z) (ci : Z) : prog unit :=
  let name := [98; 97 + ci] in
  do_ (CUnlink name);;
  upto 30 (fun _ =>
    upto (ci + 1) (fun _ =>
      fd ← sysv (COpen name OPEN_CREAT_RW);
      fail_if (fd <? 0) (lit "%s: cannot create %s" ++ nl) [AStr s; AStr name];;
      cc ← sysv (CWrite fd buf0);
      fail_if (ne cc BUFSZ) (lit "%s: write(%d) ret %d" ++ nl) [AStr s; AInt BUFSZ; AInt cc];;
      do_ (CClose fd));;
    do_ (CUnlink name));;
  do_ (CUnlink name);;
  exit 0.

Definition manywrites (s : list Z) : prog unit :=
  upto 4 (fun ci =>
    pid ← sysv CFork;
    fail_if (pid <? 0) (lit "fork failed" ++ nl) [];;
    if pid =? 0 then manywrites_child s ci else mret tt);;
  upto 4 (fun _ => st ← wait_status 0; if ne st 0 then exit st else mret tt);;
  exit 0.

(** The reading loop of [bigfile], at piece [i]. *)
Definition bigfile_read (s : list Z) (fd : Z) (st : list Z * Z * Z) : prog (list Z * Z * Z + Z) :=
  let '(buf, i, total) := st in
  r ← sys (CRead fd 300);
  let buf := fill buf r.2 in
  oops_if (r.1 <? 0) s "read bigfile failed";;
  if r.1 =? 0 then mret (inr total) else
  oops_if (ne r.1 300) s "short read bigfile";;
  oops_if (ne (byte_at buf 0) (i / 2) || ne (byte_at buf 299) (i / 2)) s "read bigfile wrong data";;
  mret (inl (buf, i + 1, total + r.1)).

Definition bigfile (fuel : nat) (s : list Z) : prog unit :=
  do_ (CUnlink (lit "bigfile.dat"));;
  fd ← open_ "bigfile.dat" OPEN_CREAT_RW;
  fail_if (fd <? 0) (lit "%s: cannot create bigfile") [AStr s];;
  upto 20 (fun i => n ← sysv (CWrite fd (repeat i 600)); oops_if (ne n 600) s "write bigfile failed");;
  do_ (CClose fd);;
  fd ← open_ "bigfile.dat" 0;
  oops_if (fd <? 0) s "cannot open bigfile";;
  total ← ploop fuel (bigfile_read s fd) (fill buf0 (repeat 19 600), 0, 0);
  do_ (CClose fd);;
  oops_if (ne total 12000) s "read bigfile wrong total";;
  do_ (CUnlink (lit "bigfile.dat")).

(** ** Names *)

Definition fourteen (s : list Z) : prog unit :=
  r ← sysv (CMkdir (lit "12345678901234")); oops_if (ne r 0) s "mkdir 12345678901234 failed";;
  r ← sysv (CMkdir (lit "12345678901234/123456789012345"));
  oops_if (ne r 0) s "mkdir 12345678901234/123456789012345 failed";;
  fd ← open_ "123456789012345/123456789012345/123456789012345" O_CREATE;
  oops_if (fd <? 0) s "create 123456789012345/123456789012345/123456789012345 failed";;
  do_ (CClose fd);;
  fd ← open_ "12345678901234/12345678901234/12345678901234" 0;
  oops_if (fd <? 0) s "open 12345678901234/12345678901234/12345678901234 failed";;
  do_ (CClose fd);;
  r ← sysv (CMkdir (lit "12345678901234/12345678901234"));
  oops_if (r =? 0) s "mkdir 12345678901234/12345678901234 succeeded!";;
  r ← sysv (CMkdir (lit "123456789012345/12345678901234"));
  oops_if (r =? 0) s "mkdir 12345678901234/123456789012345 succeeded!";;
  do_ (CUnlink (lit "123456789012345/12345678901234"));;
  do_ (CUnlink (lit "12345678901234/12345678901234"));;
  do_ (CUnlink (lit "12345678901234/12345678901234/12345678901234"));;
  do_ (CUnlink (lit "123456789012345/123456789012345/123456789012345"));;
  do_ (CUnlink (lit "12345678901234/123456789012345"));;
  do_ (CUnlink (lit "12345678901234")).

Definition rmdot (s : list Z) : prog unit :=
  r ← sysv (CMkdir (lit "dots")); oops_if (ne r 0) s "mkdir dots failed";;
  r ← sysv (CChdir (lit "dots")); oops_if (ne r 0) s "chdir dots failed";;
  r ← sysv (CUnlink (lit ".")); oops_if (r =? 0) s "rm . worked!";;
  r ← sysv (CUnlink (lit "..")); oops_if (r =? 0) s "rm .. worked!";;
  r ← sysv (CChdir (lit "/")); oops_if (ne r 0) s "chdir / failed";;
  r ← sysv (CUnlink (lit "dots/.")); oops_if (r =? 0) s "unlink dots/. worked!";;
  r ← sysv (CUnlink (lit "dots/..")); oops_if (r =? 0) s "unlink dots/.. worked!";;
  r ← sysv (CUnlink (lit "dots")); oops_if (ne r 0) s "unlink dots failed!".

Definition dirfile (s : list Z) : prog unit :=
  fd ← open_ "dirfile" O_CREATE;
  oops_if (fd <? 0) s "create dirfile failed";;
  do_ (CClose fd);;
  r ← sysv (CChdir (lit "dirfile")); oops_if (r =? 0) s "chdir dirfile succeeded!";;
  fd ← open_ "dirfile/xx" 0; oops_if (0 <=? fd) s "create dirfile/xx succeeded!";;
  fd ← open_ "dirfile/xx" O_CREATE; oops_if (0 <=? fd) s "create dirfile/xx succeeded!";;
  r ← sysv (CMkdir (lit "dirfile/xx")); oops_if (r =? 0) s "mkdir dirfile/xx succeeded!";;
  r ← sysv (CUnlink (lit "dirfile/xx")); oops_if (r =? 0) s "unlink dirfile/xx succeeded!";;
  r ← sysv (CLink (lit "README") (lit "dirfile/xx")); oops_if (r =? 0) s "link to dirfile/xx succeeded!";;
  r ← sysv (CUnlink (lit "dirfile")); oops_if (ne r 0) s "unlink dirfile failed!";;
  fd ← open_ "." O_RDWR; oops_if (0 <=? fd) s "open . for writing succeeded!";;
  fd ← open_ "." 0;
  n ← write_ fd "x"; oops_if (0 <? n) s "write . succeeded!";;
  do_ (CClose fd).

Definition iref (s : list Z) : prog unit :=
  upto (NINODE + 1) (fun _ =>
    r ← sysv (CMkdir (lit "irefd")); oops_if (ne r 0) s "mkdir irefd failed";;
    r ← sysv (CChdir (lit "irefd")); oops_if (ne r 0) s "chdir irefd failed";;
    do_ (CMkdir []);;
    do_ (CLink (lit "README") []);;
    fd ← open_ "" O_CREATE;
    (if 0 <=? fd then do_ (CClose fd) else mret tt);;
    fd ← open_ "xx" O_CREATE;
    (if 0 <=? fd then do_ (CClose fd) else mret tt);;
    do_ (CUnlink (lit "xx")));;
  upto (NINODE + 1) (fun _ => do_ (CChdir (lit ".."));; do_ (CUnlink (lit "irefd")));;
  do_ (CChdir (lit "/")).

(** ** Full disks *)

Definition fs_name (n : Z) : list Z :=
  [102; u8 (48 + Z.quot n 1000); u8 (48 + Z.quot (Z.rem n 1000) 100); u8 (48 + Z.quot (Z.rem n 100) 10); u8 (48 + Z.rem n 10)].

(** Blocks are written to file [fd] until a write is short. *)
Definition fsfull_fill (fd : Z) (total : Z) : prog (Z + Z) :=
  cc ← sysv (CWrite fd (take (Z.to_nat BSIZE) buf0));
  if cc <? BSIZE then mret (inr total) else mret (inl (total + cc)).

Definition fsfull_step (fuel : nat) (nfiles : Z) : prog (Z + Z) :=
  let name := fs_name nfiles in
  u_printf (lit "writing %s" ++ nl) [AStr name];;
  fd ← sysv (COpen name OPEN_CREAT_RW);
  if fd <? 0 then u_printf (lit "open %s failed" ++ nl) [AStr name];; mret (inr nfiles) else
  total ← ploop fuel (fsfull_fill fd) 0;
  u_printf (lit "wrote %d bytes" ++ nl) [AInt total];;
  do_ (CClose fd);;
  if total =? 0 then mret (inr nfiles) else mret (inl (nfiles + 1)).

Definition fsfull (fuel : nat) : prog unit :=
  u_printf (lit "fsfull test" ++ nl) [];;
  nfiles ← ploop fuel (fsfull_step fuel) 0;
  pfor (rev (seqZ 0 (nfiles + 1))) (fun n => do_ (CUnlink (fs_name n)));;
  u_printf (lit "fsfull test finished" ++ nl) [].

Definition badwrite (s : list Z) : prog unit :=
  do_ (CUnlink (lit "junk"));;
  upto 600 (fun _ =>
    fd ← open_ "junk" OPEN_CREAT_W;
    fail_if (fd <? 0) (lit "open junk failed" ++ nl) [];;
    do_ (CWriteAt fd 0xffffffffff 1);;
    do_ (CClose fd);;
    do_ (CUnlink (lit "junk")));;
  fd ← open_ "junk" OPEN_CREAT_W;
  fail_if (fd <? 0) (lit "open junk failed" ++ nl) [];;
  n ← write_ fd "x";
  fail_if (ne n 1) (lit "write failed" ++ nl) [];;
  do_ (CClose fd);;
  do_ (CUnlink (lit "junk"));;
  exit 0.
