(* ===== verification/UtProc.v ===== *)
(** * [user/usertests.c]: the tests of processes, [exec] and pipes

    As in [UtFiles], each test is a tree of system calls.  A loop that the code
    never leaves takes all of its fuel. *)
From stdpp Require Import base gmap strings numbers option list.
From S2P Require Import Prelude Layout FsState Block Printf Sysfile Sh User Utils UtFiles.
Open Scope Z_scope.

(** [for(;;) ;] *)
Definition spin {A} : prog A := PFuel.

(** ** [exec] *)

(** [exectest] after the [fork]: what the process that [fork] gave [pid] does,
    the child included if its [exec] returned no error. *)
Definition exectest_rest (junk : Z) (s : list Z) (pid : Z) : prog unit :=
  w ← wait_both junk;
  (if ne w.1 pid then u_printf (lit "%s: wait failed!" ++ nl) [AStr s] else mret tt);;
  if ne w.2 0 then exit w.2 else
  fd ← open_ "echo-ok" O_RDONLY;
  oops_if (fd <? 0) s "open failed";;
  r ← sys (CRead fd 2);
  oops_if (ne r.1 2) s "read failed";;
  do_ (CUnlink (lit "echo-ok"));;
  if (byte_at r.2 0 =? 79) && (byte_at r.2 1 =? 75) then exit 0 else oops s "wrong output".

Definition exectest (junk : Z) (s : list Z) : prog unit :=
  do_ (CUnlink (lit "echo-ok"));;
  pid ← sysv CFork;
  oops_if (pid <? 0) s "fork failed";;
  (if pid =? 0 then
     do_ (CClose 1);;
     fd ← open_ "echo-ok" OPEN_CREAT_W;
     oops_if (fd <? 0) s "create failed";;
     oops_if (ne fd 1) s "wrong fd";;
     e ← sysv (CExec (lit "echo") [lit "echo"; lit "OK"]);
     oops_if (e <? 0) s "exec echo failed"
   else mret tt);;
  exectest_rest junk s pid.

(** The argument of [bigargtest], 31 times: more than a page of arguments. *)
Definition bigarg : list Z := lit "bigargs test: failed" ++ nl ++ repeat 32 199.

Definition bigargtest (junk : Z) (s : list Z) : prog unit :=
  do_ (CUnlink (lit "bigarg-ok"));;
  pid ← sysv CFork;
  if pid =? 0 then
    do_ (CExec (lit "echo") (repeat bigarg (Z.to_nat (MAXARG - 1))));;
    fd ← open_ "bigarg-ok" O_CREATE;
    do_ (CClose fd);;
    exit 0
  else
  oops_if (pid <? 0) s "bigargtest: fork failed";;
  xstatus ← wait_status junk;
  if ne xstatus 0 then exit xstatus else
  fd ← open_ "bigarg-ok" 0;
  oops_if (fd <? 0) s "bigarg test failed!";;
  do_ (CClose fd).

(** Memory is taken page by page until [sbrk] fails; each page is touched. *)
Definition execout_child (fuel : nat) (avail : Z) : prog unit :=
  ploop fuel (fun _ : unit =>
    a ← sbrk_ 4096;
    if a =? NOMEM then mret (inr tt) else
    do_ (CStore (u64 (a + 4096 - 1)) 1);; mret (inl tt)) tt;;
  upto avail (fun _ => sbrk_ (-4096);; mret tt);;
  do_ (CClose 1);;
  do_ (CExec (lit "echo") [lit "echo"; lit "x"]);;
  exit 0.

Definition execout (fuel : nat) (s : list Z) : prog unit :=
  upto 15 (fun avail =>
    pid ← sysv CFork;
    if pid <? 0 then fail (lit "fork failed" ++ nl) [] else
    if pid =? 0 then execout_child fuel avail else do_ CWait);;
  exit 0.

(** ** Pipes *)

Definition PIPE_N : Z := 5.
Definition PIPE_SZ : Z := 1033.

(** The [n]th block of the child of [pipe1]: successive numbers. *)
Definition pipe1_block (n : Z) : list Z := (fun i => u8 (PIPE_SZ * n + i)) <$> seqZ 0 PIPE_SZ.

(** The first [n] bytes of the buffer are successive numbers from [sq]. *)
Definition pipe1_match (buf : list Z) (sq n : Z) : bool :=
  forallb (fun i => Z.land (byte_at buf (Z.to_nat i)) 255 =? Z.land (sq + i) 255) (seqZ 0 n).

Record pipe1_st := mkP1 { p1_buf : list Z; p1_seq : Z; p1_total : Z; p1_cc : Z }.

(** The reading loop: the total, or [None] when the test returned from it. *)
Definition pipe1_read (s : list Z) (fd : Z) (st : pipe1_st) : prog (pipe1_st + option Z) :=
  r ← sys (CRead fd (p1_cc st));
  let n := r.1 in
  let buf := fill (p1_buf st) r.2 in
  if n <=? 0 then mret (inr (Some (p1_total st))) else
  if pipe1_match buf (p1_seq st) n then
    mret (inl (mkP1 buf (p1_seq st + n) (p1_total st + n) (Z.min (p1_cc st * 2) BUFSZ)))
  else u_printf (lit "%s: pipe1 oops 2" ++ nl) [AStr s];; mret (inr None).

(** The last message of the parent has no argument for its [%s]: it prints the
    string at the address [total], [str_at total], and a number [junk2] that
    nobody passed. *)
Definition pipe1 (fuel : nat) (str_at : Z -> list Z) (junk junk2 : Z) (s : list Z) : prog unit :=
  r ← sys CPipe;
  let fds := pipe_end r in
  oops_if (ne r.1 0) s "pipe() failed";;
  pid ← sysv CFork;
  if pid =? 0 then
    do_ (CClose (fds 0%nat));;
    upto PIPE_N (fun n =>
      w ← sysv (CWrite (fds 1%nat) (pipe1_block n));
      oops_if (ne w PIPE_SZ) s "pipe1 oops 1");;
    exit 0
  else if 0 <? pid then
    do_ (CClose (fds 1%nat));;
    t ← ploop fuel (pipe1_read s (fds 0%nat)) (mkP1 buf0 0 0 1);
    match t with
    | None => mret tt
    | Some total =>
        fail_if (ne total (PIPE_N * PIPE_SZ)) (lit "%s: pipe1 oops 3 total %d" ++ nl)
          [if total =? 0 then AInt 0 else AStr (str_at total); AInt junk2];;
        do_ (CClose (fds 0%nat));;
        xstatus ← wait_status junk;
        exit xstatus
    end
  else oops s "fork() failed".

(** ** [kill], [wait] and [exit] *)

Definition killstatus (fuel : nat) (junk : Z) (s : list Z) : prog unit :=
  ploop 101 (fun st : Z * Z =>
    let '(i, xst) := st in
    if 100 <=? i then mret (inr tt) else
    pid1 ← sysv CFork;
    oops_if (pid1 <? 0) s "fork failed";;
    (if pid1 =? 0 then ploop fuel (fun _ : unit => do_ CGetpid;; mret (inl tt)) tt else mret tt);;
    do_ (CSleep 1);;
    do_ (CKill pid1);;
    xst ← wait_status xst;
    oops_if (ne xst (-1)) s "status should be -1";;
    mret (inl (i + 1, xst))) (0, junk);;
  exit 0.

Definition preempt (s : list Z) : prog unit :=
  pid1 ← sysv CFork;
  fail_if (pid1 <? 0) (lit "%s: fork failed") [AStr s];;
  if pid1 =? 0 then spin else
  pid2 ← sysv CFork;
  oops_if (pid2 <? 0) s "fork failed";;
  if pid2 =? 0 then spin else
  r ← sys CPipe;
  let pfds := pipe_end r in
  pid3 ← sysv CFork;
  oops_if (pid3 <? 0) s "fork failed";;
  if pid3 =? 0 then
    do_ (CClose (pfds 0%nat));;
    w ← write_ (pfds 1%nat) "x";
    (if ne w 1 then u_printf (lit "%s: preempt write error") [AStr s] else mret tt);;
    do_ (CClose (pfds 1%nat));;
    spin
  else
  do_ (CClose (pfds 1%nat));;
  n ← sysv (CRead (pfds 0%nat) BUFSZ);
  if ne n 1 then u_printf (lit "%s: preempt read error") [AStr s] else
  do_ (CClose (pfds 0%nat));;
  u_printf (lit "kill... ") [];;
  do_ (CKill pid1);; do_ (CKill pid2);; do_ (CKill pid3);;
  u_printf (lit "wait... ") [];;
  do_ CWait;; do_ CWait;; do_ CWait.

Definition exitwait (junk : Z) (s : list Z) : prog unit :=
  upto 100 (fun i =>
    pid ← sysv CFork;
    oops_if (pid <? 0) s "fork failed";;
    if ne pid 0 then
      w ← wait_both junk;
      oops_if (ne w.1 pid) s "wait wrong pid";;
      oops_if (ne i w.2) s "wait wrong exit status"
    else exit i).

Definition ut_reparent (s : list Z) : prog unit :=
  master_pid ← sysv CGetpid;
  upto 200 (fun _ =>
    pid ← sysv CFork;
    oops_if (pid <? 0) s "fork failed";;
    if ne pid 0 then
      w ← sysv CWait;
      oops_if (ne w pid) s "wait wrong pid"
    else
      pid2 ← sysv CFork;
      if pid2 <? 0 then do_ (CKill master_pid);; exit 1 else exit 0);;
  exit 0.

Definition twochildren (s : list Z) : prog unit :=
  upto 1000 (fun _ =>
    pid1 ← sysv CFork;
    oops_if (pid1 <? 0) s "fork failed";;
    if pid1 =? 0 then exit 0 else
    pid2 ← sysv CFork;
    oops_if (pid2 <? 0) s "fork failed";;
    if pid2 =? 0 then exit 0 else
    do_ CWait;; do_ CWait).

Definition forkfork_child : prog unit :=
  upto 200 (fun _ =>
    pid1 ← sysv CFork;
    if pid1 <? 0 then exit 1 else
    if pid1 =? 0 then exit 0 else
    do_ CWait);;
  exit 0.

Definition forkfork (junk : Z) (s : list Z) : prog unit :=
  upto 2 (fun _ =>
    pid ← sysv CFork;
    fail_if (pid <? 0) (lit "%s: fork failed") [AStr s];;
    if pid =? 0 then forkfork_child else mret tt);;
  wait_all 2 junk (fun _ => fail (lit "%s: fork in child failed") [AStr s]).

Definition forkforkfork (fuel : nat) (s : list Z) : prog unit :=
  do_ (CUnlink (lit "stopforking"));;
  pid ← sysv CFork;
  fail_if (pid <? 0) (lit "%s: fork failed") [AStr s];;
  if pid =? 0 then
    ploop fuel (fun _ : unit =>
      fd ← open_ "stopforking" 0;
      if 0 <=? fd then exit 0 else
      f ← sysv CFork;
      (if f <? 0 then open_close (lit "stopforking") OPEN_CREAT_RW else mret tt);;
      mret (inl tt)) tt
  else
  do_ (CSleep 20);;
  open_close (lit "stopforking") OPEN_CREAT_RW;;
  do_ CWait;;
  do_ (CSleep 10).

Definition reparent2 (s : list Z) : prog unit :=
  upto 800 (fun _ =>
    pid1 ← sysv CFork;
    fail_if (pid1 <? 0) (lit "fork failed" ++ nl) [];;
    if pid1 =? 0 then do_ CFork;; do_ CFork;; exit 0 else
    do_ CWait);;
  exit 0.

Definition ut_forktest (s : list Z) : prog unit :=
  n ← ploop 1001 (fun n =>
    if 1000 <=? n then mret (inr n) else
    pid ← sysv CFork;
    if pid <? 0 then mret (inr n) else
    if pid =? 0 then exit 0 else mret (inl (n + 1))) 0;
  oops_if (n =? 0) s "no fork at all!";;
  oops_if (n =? 1000) s "fork claimed to work 1000 times!";;
  upto n (fun _ => w ← sysv CWait; oops_if (w <? 0) s "wait stopped early");;
  w ← sysv CWait;
  oops_if (ne w (-1)) s "wait got too many".
