(* ===== verification/UtMem.v ===== *)
(** * [user/usertests.c]: the tests of memory and of bad addresses

    As in [UtFiles], each test is a tree of system calls.  A load or a store
    is a call of its own ([CLoad], [CStore]) where the test is about whether
    the address is mapped; a process that faults does not go on. *)
From stdpp Require Import base gmap strings numbers option list.
From S2P Require Import Prelude Layout Memory Malloc FsState Block Printf Sysfile Sh User Utils Umalloc UtFiles.
Open Scope Z_scope.

(** ** System calls with bad addresses *)

Definition bad_addrs : list Z := [0x80000000; 0xffffffffffffffff].

Definition ut_copyin (s : list Z) : prog unit :=
  pfor bad_addrs (fun addr =>
    fd ← open_ "copyin1" OPEN_CREAT_W;
    fail_if (fd <? 0) (lit "open(copyin1) failed" ++ nl) [];;
    n ← sysv (CWriteAt fd addr 8192);
    fail_if (0 <=? n) (lit "write(fd, %p, 8192) returned %d, not -1" ++ nl) [AInt addr; AInt n];;
    do_ (CClose fd);;
    do_ (CUnlink (lit "copyin1"));;
    n ← sysv (CWriteAt 1 addr 8192);
    fail_if (0 <? n) (lit "write(1, %p, 8192) returned %d, not -1 or 0" ++ nl) [AInt addr; AInt n];;
    r ← sys CPipe;
    let fds := pipe_end r in
    fail_if (r.1 <? 0) (lit "pipe() failed" ++ nl) [];;
    n ← sysv (CWriteAt (fds 1%nat) addr 8192);
    fail_if (0 <? n) (lit "write(pipe, %p, 8192) returned %d, not -1 or 0" ++ nl) [AInt addr; AInt n];;
    do_ (CClose (fds 0%nat));;
    do_ (CClose (fds 1%nat))).

Definition ut_copyout (s : list Z) : prog unit :=
  pfor bad_addrs (fun addr =>
    fd ← open_ "README" 0;
    fail_if (fd <? 0) (lit "open(README) failed" ++ nl) [];;
    n ← sysv (CReadAt fd addr 8192);
    fail_if (0 <? n) (lit "read(fd, %p, 8192) returned %d, not -1 or 0" ++ nl) [AInt addr; AInt n];;
    do_ (CClose fd);;
    r ← sys CPipe;
    let fds := pipe_end r in
    fail_if (r.1 <? 0) (lit "pipe() failed" ++ nl) [];;
    n ← write_ (fds 1%nat) "x";
    fail_if (ne n 1) (lit "pipe write failed" ++ nl) [];;
    n ← sysv (CReadAt (fds 0%nat) addr 8192);
    fail_if (0 <? n) (lit "read(pipe, %p, 8192) returned %d, not -1 or 0" ++ nl) [AInt addr; AInt n];;
    do_ (CClose (fds 0%nat));;
    do_ (CClose (fds 1%nat))).

Definition copyinstr1 (s : list Z) : prog unit :=
  pfor bad_addrs (fun addr =>
    fd ← sysv (COpenAt addr OPEN_CREAT_W);
    fail_if (0 <=? fd) (lit "open(%p) returned %d, not -1" ++ nl) [AInt addr; AInt fd]).

(** A name of [MAXPATH] characters, and an argument of a page. *)
Definition copyinstr2 (s : list Z) : prog unit :=
  let b := repeat 120 (Z.to_nat MAXPATH) in
  ret ← sysv (CUnlink b);
  fail_if (ne ret (-1)) (lit "unlink(%s) returned %d, not -1" ++ nl) [AStr b; AInt ret];;
  fd ← sysv (COpen b OPEN_CREAT_W);
  fail_if (ne fd (-1)) (lit "open(%s) returned %d, not -1" ++ nl) [AStr b; AInt fd];;
  ret ← sysv (CLink b b);
  fail_if (ne ret (-1)) (lit "link(%s, %s) returned %d, not -1" ++ nl) [AStr b; AStr b; AInt ret];;
  ret ← sysv (CExec b [lit "xx"]);
  fail_if (ne ret (-1)) (lit "exec(%s) returned %d, not -1" ++ nl) [AStr b; AInt fd];;
  pid ← sysv CFork;
  fail_if (pid <? 0) (lit "fork failed" ++ nl) [];;
  if pid =? 0 then
    let big := repeat 120 (Z.to_nat PGSIZE) in
    ret ← sysv (CExec (lit "echo") [big; big; big]);
    fail_if (ne ret (-1)) (lit "exec(echo, BIG) returned %d, not -1" ++ nl) [AInt fd];;
    exit 747
  else
  st ← wait_status 0;
  fail_if (ne st 747) (lit "exec(echo, BIG) succeeded, should have failed" ++ nl) [].

(** A name that starts at the last byte of memory; [str_at] is what a message
    would print of it. *)
Definition copyinstr3 (str_at : Z -> list Z) (s : list Z) : prog unit :=
  sbrk_ 8192;;
  top ← sbrk_ 0;
  (if ne (top mod PGSIZE) 0 then sbrk_ (PGSIZE - top mod PGSIZE);; mret tt else mret tt);;
  top ← sbrk_ 0;
  fail_if (ne (top mod PGSIZE) 0) (lit "oops" ++ nl) [];;
  let b := u64 (top - 1) in
  do_ (CStore b 120);;
  ret ← sysv (CUnlinkAt b);
  fail_if (ne ret (-1)) (lit "unlink(%s) returned %d, not -1" ++ nl) [AStr (str_at b); AInt ret];;
  fd ← sysv (COpenAt b OPEN_CREAT_W);
  fail_if (ne fd (-1)) (lit "open(%s) returned %d, not -1" ++ nl) [AStr (str_at b); AInt fd];;
  ret ← sysv (CLinkAt (PAt b) (PAt b));
  fail_if (ne ret (-1)) (lit "link(%s, %s) returned %d, not -1" ++ nl)
    [AStr (str_at b); AStr (str_at b); AInt ret];;
  ret ← sysv (CExecAt (PAt b) [PStr (lit "xx")]);
  fail_if (ne ret (-1)) (lit "exec(%s) returned %d, not -1" ++ nl) [AStr (str_at b); AInt fd].

Definition rwsbrk : prog unit :=
  a ← sbrk_ 8192;
  fail_if (a =? NOMEM) (lit "sbrk(rwsbrk) failed" ++ nl) [];;
  b ← sbrk_ (-8192);
  fail_if (b =? NOMEM) (lit "sbrk(rwsbrk) shrink failed" ++ nl) [];;
  fd ← open_ "rwsbrk" OPEN_CREAT_W;
  fail_if (fd <? 0) (lit "open(rwsbrk) failed" ++ nl) [];;
  let a' := u64 (a + 4096) in
  n ← sysv (CWriteAt fd a' 1024);
  fail_if (0 <=? n) (lit "write(fd, %p, 1024) returned %d, not -1" ++ nl) [AInt a'; AInt n];;
  do_ (CClose fd);;
  do_ (CUnlink (lit "rwsbrk"));;
  fd ← open_ "README" O_RDONLY;
  fail_if (fd <? 0) (lit "open(rwsbrk) failed" ++ nl) [];;
  n ← sysv (CReadAt fd a' 10);
  fail_if (0 <=? n) (lit "read(fd, %p, 10) returned %d, not -1" ++ nl) [AInt a'; AInt n];;
  do_ (CClose fd);;
  exit 0.

Definition validatetest (s : list Z) : prog unit :=
  upto (1100 * 1024 / PGSIZE + 1) (fun k =>
    r ← sysv (CLinkAt (PStr (lit "nosuchfile")) (PAt (k * PGSIZE)));
    oops_if (ne r (-1)) s "link should not succeed").

(** [uninit] is the array as [exec] set it up. *)
Definition bsstest (uninit : list Z) (s : list Z) : prog unit :=
  pfor uninit (fun c => oops_if (ne c 0) s "bss test failed").

Definition argptest (s : list Z) : prog unit :=
  fd ← open_ "init" O_RDONLY;
  oops_if (fd <? 0) s "open failed";;
  b ← sbrk_ 0;
  do_ (CReadAt fd (u64 (b - 1)) (-1));;
  do_ (CClose fd).

(** The new state and the number; nothing calls it. *)
Definition ut_rand (randstate : Z) : Z * Z :=
  let r := u64 (randstate * 1664525 + 1013904223) in (r, u32 r).

Definition pgbug (s : list Z) : prog unit :=
  do_ (CExecAt (PAt 0xeaeb0b5b00002f5e) []);;
  do_ (CPipeAt 0xeaeb0b5b00002f5e);;
  exit 0.

Definition badarg (s : list Z) : prog unit :=
  upto 50000 (fun _ => do_ (CExecAt (PStr (lit "echo")) [PAt 0xffffffff]));;
  exit 0.

(** ** [sbrk] *)

Definition TOOMUCH : Z := 1024 * 1024 * 1024.
Definition BIG : Z := 100 * 1024 * 1024.

(** The loop of [sbrkbasic] that grows by one byte at a time, from break [a];
    its message has no argument for the [%s], so that it prints the string at
    the address [i]. *)
Definition sbrkbasic_bytes (str_at : Z -> list Z) (junk2 : Z) (a : Z) : prog Z :=
  ploop 5001 (fun st : Z * Z =>
    let '(i, a) := st in
    if 5000 <=? i then mret (inr a) else
    b ← sbrk_ 1;
    fail_if (ne b a) (lit "%s: sbrk test failed %d %x %x" ++ nl)
      [if i =? 0 then AInt 0 else AStr (str_at i); AInt a; AInt b; AInt junk2];;
    do_ (CStore b 1);;
    mret (inl (i + 1, u64 (b + 1)))) (0, a).

Definition sbrkbasic (str_at : Z -> list Z) (junk junk2 : Z) (s : list Z) : prog unit :=
  pid ← sysv CFork;
  fail_if (pid <? 0) (lit "fork failed in sbrkbasic" ++ nl) [];;
  if pid =? 0 then
    a ← sbrk_ TOOMUCH;
    if a =? NOMEM then exit 0 else
    upto (TOOMUCH / 4096) (fun k => do_ (CStore (u64 (a + 4096 * k)) 99));;
    exit 1
  else
  xstatus ← wait_status junk;
  oops_if (xstatus =? 1) s "too much memory allocated!";;
  a ← sbrk_ 0;
  a ← sbrkbasic_bytes str_at junk2 a;
  pid ← sysv CFork;
  oops_if (pid <? 0) s "sbrk test fork failed";;
  sbrk_ 1;;
  c ← sbrk_ 1;
  oops_if (ne c (u64 (a + 1))) s "sbrk test failed post-fork";;
  if pid =? 0 then exit 0 else
  xstatus ← wait_status xstatus;
  exit xstatus.

(** [sbrkmuch] after it has grown to [BIG]: a page goes and comes back. *)
Definition sbrkmuch_shrink (s : list Z) : prog unit :=
  let lastaddr := BIG - 1 in
  do_ (CStore lastaddr 99);;
  a ← sbrk_ 0;
  c ← sbrk_ (- PGSIZE);
  oops_if (c =? NOMEM) s "sbrk could not deallocate";;
  c ← sbrk_ 0;
  fail_if (ne c (u64 (a - PGSIZE)))
    (lit "%s: sbrk deallocation produced wrong address, a %x c %x" ++ nl) [AStr s; AInt a; AInt c];;
  a ← sbrk_ 0;
  c ← sbrk_ PGSIZE;
  bad ← (if ne c a then mret true else b ← sbrk_ 0; mret (ne b (u64 (a + PGSIZE))));
  fail_if bad (lit "%s: sbrk re-allocation failed, a %x c %x" ++ nl) [AStr s; AInt a; AInt c];;
  v ← sysv (CLoad lastaddr);
  oops_if (v =? 99) s "sbrk de-allocation didn't really deallocate".

Definition sbrkmuch (s : list Z) : prog unit :=
  oldbrk ← sbrk_ 0;
  a ← sbrk_ 0;
  p ← sbrk_ (u64 (BIG - a));
  oops_if (ne p a) s "sbrk test failed to grow big address space; enough phys mem?";;
  eee ← sbrk_ 0;
  upto ((eee - a + 4095) / 4096) (fun k => do_ (CStore (a + 4096 * k) 1));;
  sbrkmuch_shrink s;;
  a ← sbrk_ 0;
  b ← sbrk_ 0;
  c ← sbrk_ (- (b - oldbrk));
  fail_if (ne c a) (lit "%s: sbrk downsize failed, a %x c %x" ++ nl) [AStr s; AInt a; AInt c].

(** The kernel must kill a child that reads its memory. *)
Definition kernmem (junk : Z) (s : list Z) : prog unit :=
  upto 40 (fun k =>
    let a := KERNBASE + 50000 * k in
    pid ← sysv CFork;
    oops_if (pid <? 0) s "fork failed";;
    if pid =? 0 then
      v ← sysv (CLoad a);
      fail (lit "%s: oops could read %x = %x" ++ nl) [AStr s; AInt a; AInt v]
    else
    xstatus ← wait_status junk;
    if ne xstatus (-1) then exit 1 else mret tt).

(** The ten children of [sbrkfail] and what [fork] returned for each. *)
Definition sbrkfail_fork (fuel : nat) (fds : nat -> Z) (pids : list Z) : prog (list Z + list Z) :=
  if 10 <=? Z.of_nat (length pids) then mret (inr pids) else
  pid ← sysv CFork;
  (if pid =? 0 then
     b ← sbrk_ 0;
     sbrk_ (u64 (BIG - b));;
     write_ (fds 1%nat) "x";;
     ploop fuel (fun _ : unit => do_ (CSleep 1000);; mret (inl tt)) tt
   else mret tt);;
  (if ne pid (-1) then do_ (CRead (fds 0%nat) 1) else mret tt);;
  mret (inl (pids ++ [pid])).

(** The last child: it must fault before it has read all of the memory it
    asked for. *)
Definition sbrkfail_child (s : list Z) : prog unit :=
  a ← sbrk_ 0;
  sbrk_ (10 * BIG);;
  n ← ploop (Z.to_nat (10 * BIG / PGSIZE + 1)) (fun st : Z * Z =>
    let '(i, n) := st in
    if 10 * BIG <=? i then mret (inr n) else
    v ← sysv (CLoad (u64 (a + i)));
    mret (inl (i + PGSIZE, n + v))) (0, 0);
  fail (lit "%s: allocate a lot of memory succeeded %d" ++ nl) [AStr s; AInt n].

Definition sbrkfail (fuel : nat) (junk : Z) (s : list Z) : prog unit :=
  r ← sys CPipe;
  oops_if (ne r.1 0) s "pipe() failed";;
  pids ← ploop 11 (sbrkfail_fork fuel (pipe_end r)) [];
  c ← sbrk_ PGSIZE;
  pfor pids (fun pid => if pid =? -1 then mret tt else do_ (CKill pid);; do_ CWait);;
  oops_if (c =? NOMEM) s "failed sbrk leaked memory";;
  pid ← sysv CFork;
  oops_if (pid <? 0) s "fork failed";;
  if pid =? 0 then sbrkfail_child s else
  xstatus ← wait_status junk;
  if ne xstatus (-1) && ne xstatus 2 then exit 1 else mret tt.

Definition sbrkarg (s : list Z) : prog unit :=
  a ← sbrk_ PGSIZE;
  fd ← open_ "sbrk" OPEN_CREAT_W;
  do_ (CUnlink (lit "sbrk"));;
  oops_if (fd <? 0) s "open sbrk failed";;
  n ← sysv (CWriteAt fd a PGSIZE);
  oops_if (n <? 0) s "write sbrk failed";;
  do_ (CClose fd);;
  a ← sbrk_ PGSIZE;
  r ← sysv (CPipeAt a);
  oops_if (ne r 0) s "pipe() failed".

(** The read below the stack, whose pointer is [sp], must fault. *)
Definition stacktest (sp junk : Z) (s : list Z) : prog unit :=
  pid ← sysv CFork;
  if pid =? 0 then
    v ← sysv (CLoad (u64 (sp - PGSIZE)));
    fail (lit "%s: stacktest: read below stack %p" ++ nl) [AStr s; AInt v]
  else
  oops_if (pid <? 0) s "fork failed";;
  xstatus ← wait_status junk;
  if xstatus =? -1 then exit 0 else exit xstatus.

(** The first child gives up all of its memory, so that it faults before the
    [exit]. *)
Definition sbrkbugs (s : list Z) : prog unit :=
  let child (body : prog unit) : prog unit :=
    pid ← sysv CFork;
    fail_if (pid <? 0) (lit "fork failed" ++ nl) [];;
    if pid =? 0 then body;; exit 0 else do_ CWait in
  child (b ← sbrk_ 0; let sz := i32 b in sbrk_ (- sz);; mret tt);;
  child (b ← sbrk_ 0; let sz := i32 b in sbrk_ (- (sz - 3500));; mret tt);;
  child (b ← sbrk_ 0; sbrk_ (10 * 4096 + 2048 - b);; sbrk_ (-10);; mret tt);;
  exit 0.

(** ** [mem]: the allocator of the user library until memory is gone *)

Section ut_mem.
Context `{ui : UImage}.

(** The child, over the state of [Umalloc], with the status it exits with. *)
Definition mem_child (fuel : nat) : M ust Z :=
  m1 ← loop fuel (fun m1 =>
    m2 ← malloc fuel 10001;
    if m2 =? 0 then mret (inr m1) else
    kr_store 8 m2 m1;;
    mret (inl m2)) 0;
  loop fuel (fun m1 =>
    if m1 =? 0 then mret (inr tt) else
    m2 ← kr_load 8 m1;
    free fuel m1;;
    mret (inl m2)) m1;;
  m1 ← malloc fuel (1024 * 20);
  if m1 =? 0 then mret 1 else
  free fuel m1;;
  mret 0.

(** A child that faults is killed.  The [sbrk] calls of the child are steps of
    [Umalloc.sbrk]. *)
Definition ut_mem (fuel : nat) (u0 : ust) (junk : Z) (s : list Z) : prog unit :=
  pid ← sysv CFork;
  if pid =? 0 then
    match mem_child fuel u0 with
    | Ret st _ => fail_if (ne st 0) (lit "couldn't allocate mem?!!" ++ nl) [AStr s];; exit 0
    | Err (EFault _) _ => exit (-1)
    | Err _ _ => PFuel
    end
  else
  xstatus ← wait_status junk;
  if xstatus =? -1 then exit 0 else exit xstatus.

End ut_mem.
