(* ===== verification/Usertests.v ===== *)
(** * [user/usertests.c]: the driver

    [main] runs each test of the table in a process of its own and compares
    the number of free pages before and after.  [wrun] runs the calls of one
    process against a world that answers them; [pworld] is the world the
    process of [main] sees: what its children send through pipes and the
    status each exits with.  [usertests_verdict] gives the verdict and all of
    the output of [main] for every way the tests can end. *)
From stdpp Require Import base gmap strings numbers option list.
From S2P Require Import Prelude Layout Memory FsState Block Printf Sysfile Sh User Utils Umalloc UtFiles UtProc UtMem.
Open Scope Z_scope.

(** ** The driver *)

Definition countfree_child (fuel : nat) (fds : nat -> Z) : prog Z :=
  do_ (CClose (fds 0%nat));;
  ploop fuel (fun _ : unit =>
    a ← sbrk_ 4096;
    if a =? NOMEM then mret (inr tt) else
    do_ (CStore (u64 (a + 4096 - 1)) 1);;
    w ← write_ (fds 1%nat) "x";
    fail_if (ne w 1) (lit "write() failed in countfree()" ++ nl) [];;
    mret (inl tt)) tt;;
  exit 0.

(** The reading loop of [countfree]. *)
Definition countfree_step (fd n : Z) : prog (Z + Z) :=
  cc ← sysv (CRead fd 1);
  fail_if (cc <? 0) (lit "read() failed in countfree()" ++ nl) [];;
  if cc =? 0 then mret (inr n) else mret (inl (n + 1)).

Definition countfree (fuel : nat) : prog Z :=
  r ← sys CPipe;
  let fds := pipe_end r in
  fail_if (r.1 <? 0) (lit "pipe() failed in countfree()" ++ nl) [];;
  pid ← sysv CFork;
  fail_if (pid <? 0) (lit "fork failed in countfree()" ++ nl) [];;
  if pid =? 0 then countfree_child fuel fds else
  do_ (CClose (fds 1%nat));;
  n ← ploop fuel (countfree_step (fds 0%nat)) 0;
  do_ (CClose (fds 0%nat));;
  do_ CWait;;
  mret n.

(** [run]: a child runs [f]; [true] when its status is 0. *)
Definition ut_run (junk : Z) (f : list Z -> prog unit) (s : list Z) : prog bool :=
  u_printf (lit "test %s: ") [AStr s];;
  pid ← sysv CFork;
  fail_if (pid <? 0) (lit "runtest: fork error" ++ nl) [];;
  if pid =? 0 then f s;; exit 0 else
  xstatus ← wait_status junk;
  (if ne xstatus 0 then u_printf (lit "FAILED" ++ nl) [] else u_printf (lit "OK" ++ nl) []);;
  mret (xstatus =? 0).

(** What the tests take from outside: the fuel of their loops, the contents of
    uninitialised variables ([e_de] is a directory entry), the strings at
    addresses, [uninit], the stack pointer, and the heap of the process. *)
Record ut_env := mkEnv {
  e_fuel : nat; e_junk : Z; e_junk2 : Z; e_str : Z -> list Z; e_uninit : list Z; e_de : list Z;
  e_sp : Z; e_image : UImage; e_heap : ust
}.

Definition test : Type := (list Z -> prog unit) * list Z.

Definition tests (e : ut_env) : list test :=
  let fu := e_fuel e in let j := e_junk e in let j2 := e_junk2 e in let str := e_str e in [
    (manywrites, lit "manywrites");
    (execout fu, lit "execout");
    (ut_copyin, lit "copyin");
    (ut_copyout, lit "copyout");
    (copyinstr1, lit "copyinstr1");
    (copyinstr2, lit "copyinstr2");
    (copyinstr3 str, lit "copyinstr3");
    (fun _ => rwsbrk, lit "rwsbrk");
    (truncate1, lit "truncate1");
    (truncate2, lit "truncate2");
    (truncate3 j, lit "truncate3");
    (reparent2, lit "reparent2");
    (pgbug, lit "pgbug");
    (sbrkbugs, lit "sbrkbugs");
    (badarg, lit "badarg");
    (ut_reparent, lit "reparent");
    (twochildren, lit "twochildren");
    (forkfork j, lit "forkfork");
    (forkforkfork fu, lit "forkforkfork");
    (argptest, lit "argptest");
    (createdelete j, lit "createdelete");
    (linkunlink, lit "linkunlink");
    (linktest, lit "linktest");
    (unlinkread, lit "unlinkread");
    (concreate fu j (e_de e), lit "concreate");
    (subdir, lit "subdir");
    (fourfiles fu j, lit "fourfiles");
    (sharedfd fu j, lit "sharedfd");
    (dirtest, lit "dirtest");
    (exectest j, lit "exectest");
    (bigargtest j, lit "bigargtest");
    (bigwrite, lit "bigwrite");
    (bsstest (e_uninit e), lit "bsstest");
    (sbrkbasic str j j2, lit "sbrkbasic");
    (sbrkmuch, lit "sbrkmuch");
    (kernmem j, lit "kernmem");
    (sbrkfail fu j, lit "sbrkfail");
    (sbrkarg, lit "sbrkarg");
    (validatetest, lit "validatetest");
    (stacktest (e_sp e) j, lit "stacktest");
    (opentest, lit "opentest");
    (writetest, lit "writetest");
    (writebig fu, lit "writebig");
    (createtest, lit "createtest");
    (openiputtest j, lit "openiput");
    (exitiputtest j, lit "exitiput");
    (iputtest, lit "iput");
    (ut_mem (ui := e_image e) fu (e_heap e) j, lit "mem");
    (pipe1 fu str j j2, lit "pipe1");
    (killstatus fu j, lit "killstatus");
    (preempt, lit "preempt");
    (exitwait j, lit "exitwait");
    (rmdot, lit "rmdot");
    (fourteen, lit "fourteen");
    (bigfile fu, lit "bigfile");
    (dirfile, lit "dirfile");
    (iref, lit "iref");
    (ut_forktest, lit "forktest");
    (bigdir, lit "bigdir")
  ].

(** The loop over the tests that [justone] selects: whether one failed. *)
Definition is_selected (justone : option (list Z)) (t : test) : bool :=
  match justone with None => true | Some name => bool_decide (t.2 = name) end.

Fixpoint run_tests (junk : Z) (justone : option (list Z)) (ts : list test) (failed : bool) : prog bool :=
  match ts with
  | [] => mret failed
  | t :: ts' =>
      if is_selected justone t then
        ok ← ut_run junk t.1 t.2;
        run_tests junk justone ts' (if ok : bool then failed else true)
      else run_tests junk justone ts' failed
  end.

(** The loop of the continuous mode, which stops at the first failure. *)
Fixpoint run_until (junk : Z) (ts : list test) : prog bool :=
  match ts with
  | [] => mret false
  | t :: ts' => ok ← ut_run junk t.1 t.2; if ok : bool then run_until junk ts' else mret true
  end.

Definition continuous_step (e : ut_env) (continuous : Z) (_ : unit) : prog (unit + unit) :=
  free0 ← countfree (e_fuel e);
  failed ← run_until (e_junk e) (tests e);
  (if failed : bool then
     u_printf (lit "SOME TESTS FAILED" ++ nl) [];;
     (if ne continuous 2 then exit 1 else mret tt)
   else mret tt);;
  free1 ← countfree (e_fuel e);
  (if free1 <? free0 then
     u_printf (lit "FAILED -- lost %d free pages" ++ nl) [AInt (free0 - free1)];;
     (if ne continuous 2 then exit 1 else mret tt)
   else mret tt);;
  mret (inl tt).

(** [main] once it knows which tests to run. *)
Definition once (e : ut_env) (justone : option (list Z)) : prog unit :=
  u_printf (lit "usertests starting" ++ nl) [];;
  free0 ← countfree (e_fuel e);
  failed ← run_tests (e_junk e) justone (tests e) false;
  if failed : bool then u_printf (lit "SOME TESTS FAILED" ++ nl) [];; exit 1 else
  free1 ← countfree (e_fuel e);
  if free1 <? free0 then
    u_printf (lit "FAILED -- lost some free pages %d (out of %d)" ++ nl) [AInt free1; AInt free0];; exit 1
  else u_printf (lit "ALL TESTS PASSED" ++ nl) [];; exit 0.

Definition always (e : ut_env) (continuous : Z) : prog unit :=
  u_printf (lit "continuous usertests starting" ++ nl) [];;
  ploop (e_fuel e) (continuous_step e continuous) tt.

(** [argv] is the whole argument list. *)
Definition ut_main (e : ut_env) (argv : list (list Z)) : prog unit :=
  match argv with
  | [_; a] =>
      if bool_decide (a = lit "-c") then always e 1 else
      if bool_decide (a = lit "-C") then always e 2 else
      if ne (byte_at a 0) 45 then once e (Some a) else
      u_printf (lit "Usage: usertests [-c] [testname]" ++ nl) [];; exit 1
  | _ :: _ :: _ => u_printf (lit "Usage: usertests [-c] [testname]" ++ nl) [];; exit 1
  | _ => once e None
  end.

(** ** Running a process against a world *)

Section wrun.
Context {W : Type} (step : call -> W -> answer * W).

(** The value the program returns, or the status it exits with. *)
Fixpoint wrun {A} (p : prog A) (w : W) : option ((A + Z) * W) :=
  match p with
  | PRet a => Some (inl a, w)
  | PSys c k => wrun (k (step c w).1) (step c w).2
  | PExit st => Some (inr st, w)
  | PFuel => None
  end.

Lemma wrun_bind {A B} (p : prog A) (f : A -> prog B) w :
  wrun (p ≫= f) w =
  match wrun p w with Some (inl a, w') => wrun (f a) w' | Some (inr st, w') => Some (inr st, w') | None => None end.
Proof. revert w. induction p as [a|c k IH|st|]; intros w; try done. apply IH. Qed.

Lemma wrun_ploop {A R} fuel (body : A -> prog (A + R)) a w :
  wrun (ploop (S fuel) body a) w =
  match wrun (body a) w with
  | Some (inl (inl a'), w') => wrun (ploop fuel body a') w'
  | Some (inl (inr y), w') => Some (inl y, w')
  | Some (inr st, w') => Some (inr st, w')
  | None => None
  end.
Proof. simpl. rewrite wrun_bind. by destruct (wrun (body a) w) as [[[[]|] ?]|]. Qed.

Lemma wrun_sysv {B} c (k : Z -> prog B) w :
  wrun (sysv c ≫= k) w = wrun (k (step c w).1.1) (step c w).2.
Proof. done. Qed.

Lemma wrun_fail_if {B} fmt args (k : unit -> prog B) w : wrun (fail_if false fmt args ≫= k) w = wrun (k tt) w.
Proof. done. Qed.

End wrun.

(** What the process of a test or of [main] sees: [pw_pipes] are the pieces
    its children write into the pipes it makes, [pw_in] what is left of the
    current one, [pw_stats] the statuses [wait] collects. *)
Record pworld := mkPw { pw_in : list (list Z); pw_pipes : list (list (list Z)); pw_stats : list Z; pw_out : list Z }.

Definition say (bs : list Z) (w : pworld) : pworld := mkPw (pw_in w) (pw_pipes w) (pw_stats w) (pw_out w ++ bs).

Definition parent (c : call) (w : pworld) : answer * pworld :=
  match c with
  | CPipe =>
      match pw_pipes w with
      | [] => ((-1, []), w)
      | l :: ps => ((0, le_bytes 4 3 ++ le_bytes 4 4), mkPw l ps (pw_stats w) (pw_out w))
      end
  | CFork => ((2, []), w)
  | CRead _ _ =>
      match pw_in w with
      | [] => ((0, []), w)
      | bs :: l => ((Z.of_nat (length bs), bs), mkPw l (pw_pipes w) (pw_stats w) (pw_out w))
      end
  | CWrite _ bs => ((Z.of_nat (length bs), []), say bs w)
  | CWait =>
      match pw_stats w with
      | [] => ((-1, []), w)
      | st :: l => ((2, le_bytes 4 (u32 st)), mkPw (pw_in w) (pw_pipes w) l (pw_out w))
      end
  | CClose _ => ((0, []), w)
  | _ => ((-1, []), w)
  end.

Lemma say_nil w : say [] w = w.
Proof. destruct w. unfold say. simpl. by rewrite app_nil_r. Qed.

Lemma say_app bs bs' w : say bs' (say bs w) = say (bs ++ bs') w.
Proof. unfold say. simpl. by rewrite app_assoc. Qed.

(** What [printf] prints. *)
Definition said (fmt : list Z) (args : list arg) : list Z := vprintf (arg_str args) false fmt (arg_word args).

Lemma wrun_printf fmt args w : wrun parent (u_printf fmt args) w = Some (inl tt, say (said fmt args) w).
Proof.
  unfold u_printf, fprintf. fold (said fmt args). generalize (said fmt args). intros l. revert w.
  induction l as [|c l IH]; intros w; [by rewrite say_nil|]. cbn [pfor]. rewrite wrun_bind. simpl.
  rewrite IH, say_app. done.
Qed.

Lemma wait_status_parent junk st l i ps o :
  - 2 ^ 31 <= st < 2 ^ 31 ->
  wrun parent (wait_status junk) (mkPw i ps (st :: l) o) = Some (inl st, mkPw i ps l o).
Proof.
  intros Hst. cbn [wait_status wrun parent pw_stats]. unfold wait_status. cbn -[le_bytes].
  change (take 4 (le_bytes 4 (u32 st))) with (le_bytes 4 (u32 st)). rewrite le_val_bytes.
  do 3 f_equal. unfold i32, u32. change (256 ^ Z.of_nat 4) with (2 ^ 32).
  rewrite Z.mod_mod by lia. rewrite Zplus_mod_idemp_l, Z.mod_small by lia. lia.
Qed.

Lemma countfree_loop fuel fd f : forall n ps l o,
  (f < fuel)%nat ->
  wrun parent (ploop fuel (countfree_step fd) n) (mkPw (repeat [120] f) ps l o) =
  Some (inl (n + Z.of_nat f), mkPw [] ps l o).
Proof.
  revert f. induction fuel as [|fuel IH]; intros f n ps l o Hf; [lia|]. rewrite wrun_ploop.
  destruct f as [|f]; simpl; [by rewrite Z.add_0_r|]. rewrite IH by lia. do 3 f_equal. lia.
Qed.

Lemma countfree_parent fuel f i ps c l o :
  (f < fuel)%nat ->
  wrun parent (countfree fuel) (mkPw i (repeat [120] f :: ps) (c :: l) o) =
  Some (inl (Z.of_nat f), mkPw [] ps l o).
Proof.
  intros Hf. unfold countfree. rewrite wrun_bind. simpl. rewrite wrun_bind, countfree_loop by done. done.
Qed.

(** The line of output for a test. *)
Definition test_line (s : list Z) (st : Z) : list Z :=
  lit "test " ++ s ++ lit ": " ++ (if st =? 0 then lit "OK" ++ nl else lit "FAILED" ++ nl).

Lemma said_test s : said (lit "test %s: ") [AStr s] = lit "test " ++ s ++ lit ": ".
Proof. reflexivity. Qed.

Lemma ut_run_parent junk f s st i ps l o :
  - 2 ^ 31 <= st < 2 ^ 31 ->
  wrun parent (ut_run junk f s) (mkPw i ps (st :: l) o) =
  Some (inl (st =? 0), say (test_line s st) (mkPw i ps l o)).
Proof.
  intros Hst. unfold ut_run. rewrite wrun_bind, wrun_printf, wrun_sysv. simpl parent.
  cbn [fst snd]. change (2 <? 0) with false. change (2 =? 0) with false. cbn iota. rewrite wrun_fail_if.
  unfold say at 1. cbn [pw_in pw_pipes pw_stats pw_out].
  rewrite wrun_bind, wait_status_parent, wrun_bind by done. unfold ne, test_line.
  destruct (st =? 0); cbn [negb]; rewrite wrun_printf, said_test; cbn [wrun mret prog_ret]; unfold say;
    cbn [pw_in pw_pipes pw_stats pw_out]; do 3 f_equal; by rewrite <- !app_assoc.
Qed.

Definition selected (justone : option (list Z)) (ts : list test) : list (list Z) :=
  snd <$> filter (fun t => is_selected justone t = true) ts.

Definition is_int (z : Z) : Prop := - 2 ^ 31 <= z < 2 ^ 31.
Definition all_zero (sts : list Z) : bool := forallb (Z.eqb 0) sts.

Lemma run_tests_parent junk justone ts : forall failed sts i ps l o,
  length sts = length (selected justone ts) -> Forall is_int sts ->
  wrun parent (run_tests junk justone ts failed) (mkPw i ps (sts ++ l) o) =
  Some (inl (failed || negb (all_zero sts)),
        say (concat (zip_with test_line (selected justone ts) sts)) (mkPw i ps l o)).
Proof.
  unfold selected. induction ts as [|t ts IH]; intros failed sts i ps l o Hl Hi.
  { destruct sts; [|done]. rewrite say_nil. simpl. by rewrite orb_false_r. }
  cbn [run_tests]. rewrite filter_cons in *. destruct (is_selected justone t).
  - rewrite decide_True in * by done. destruct sts as [|st sts]; [done|].
    apply Forall_cons in Hi as [Hst Hi]. cbn [app fmap list_fmap zip_with concat].
    rewrite wrun_bind, ut_run_parent by done. unfold say at 1. cbn [pw_in pw_pipes pw_stats pw_out].
    rewrite IH by (try done; by injection Hl).
    unfold say. cbn [pw_in pw_pipes pw_stats pw_out all_zero forallb]. rewrite app_assoc, (Z.eqb_sym 0 st).
    by destruct (st =? 0), failed.
  - rewrite decide_False in * by done. by apply IH.
Qed.

(** The last line of output. *)
Definition verdict (sts : list Z) (free0 free1 : nat) : list Z :=
  if negb (all_zero sts) then lit "SOME TESTS FAILED" ++ nl else
  if (free1 <? free0)%nat then
    lit "FAILED -- lost some free pages " ++ printint true (Z.of_nat free1) 10 true ++
    lit " (out of " ++ printint true (Z.of_nat free0) 10 true ++ lit ")" ++ nl
  else lit "ALL TESTS PASSED" ++ nl.

Lemma said_lost a b : is_int a -> is_int b ->
  said (lit "FAILED -- lost some free pages %d (out of %d)" ++ nl) [AInt a; AInt b] =
  lit "FAILED -- lost some free pages " ++ printint true a 10 true ++ lit " (out of " ++ printint true b 10 true ++ lit ")" ++ nl.
Proof.
  intros Ha Hb. rewrite <- (i32_small a) at 2 by done. rewrite <- (i32_small b) at 2 by done. reflexivity.
Qed.

Lemma once_verdict e justone free0 free1 c0 c1 sts :
  length sts = length (selected justone (tests e)) -> Forall is_int sts ->
  (free0 < e_fuel e)%nat -> (free1 < e_fuel e)%nat -> is_int (Z.of_nat free0) -> is_int (Z.of_nat free1) ->
  exists w,
    wrun parent (once e justone) (mkPw [] [repeat [120] free0; repeat [120] free1] (c0 :: sts ++ [c1]) []) =
    Some (inr (if all_zero sts && (free0 <=? free1)%nat then 0 else 1), w) /\
    pw_out w = lit "usertests starting" ++ nl ++
      concat (zip_with test_line (selected justone (tests e)) sts) ++ verdict sts free0 free1.
Proof.
  intros Hl Hi Hf0 Hf1 H0 H1. unfold once. rewrite wrun_bind, wrun_printf. unfold say.
  cbn [pw_in pw_pipes pw_stats pw_out]. rewrite wrun_bind, countfree_parent by done.
  rewrite wrun_bind, run_tests_parent by done. cbn [orb]. unfold verdict.
  destruct (all_zero sts); cbn [negb andb].
  - unfold say at 1. cbn [pw_in pw_pipes pw_stats pw_out]. rewrite wrun_bind, countfree_parent by done.
    destruct (Nat.ltb_spec free1 free0), (Nat.leb_spec free0 free1), (Z.ltb_spec (Z.of_nat free1) (Z.of_nat free0)); try lia;
      (eexists; split; [rewrite wrun_bind, wrun_printf; reflexivity|]);
      unfold say; cbn [pw_out]; [rewrite said_lost by done|]; by rewrite <- !app_assoc.
  - eexists; split; [rewrite wrun_bind, wrun_printf; reflexivity|].
    unfold say; cbn [pw_out]. by rewrite <- !app_assoc.
Qed.

(** C38: [usertests] run without an option, or with the name of a test, ends
    with status 0 exactly when every selected test exited with status 0 and no
    free page was lost; its whole output is one line for each selected test, in
    the order of the table, and a verdict.  [free0] and [free1] are the pages
    the two children of [countfree] find, [sts] the statuses of the tests.  A
    name that selects no test gives the verdict that all tests passed. *)
Theorem usertests_verdict e prog0 justone free0 free1 c0 c1 sts :
  from_option (fun a => byte_at a 0 <> 45) True justone ->
  length sts = length (selected justone (tests e)) -> Forall is_int sts ->
  (free0 < e_fuel e)%nat -> (free1 < e_fuel e)%nat -> is_int (Z.of_nat free0) -> is_int (Z.of_nat free1) ->
  exists w,
    wrun parent (ut_main e (prog0 :: option_list justone))
      (mkPw [] [repeat [120] free0; repeat [120] free1] (c0 :: sts ++ [c1]) []) =
    Some (inr (if all_zero sts && (free0 <=? free1)%nat then 0 else 1), w) /\
    pw_out w = lit "usertests starting" ++ nl ++
      concat (zip_with test_line (selected justone (tests e)) sts) ++ verdict sts free0 free1.
Proof.
  intros Ha. destruct justone as [a|]; [|apply once_verdict].
  change (option_list (Some a)) with [a]. unfold ut_main. simpl in Ha. rewrite !bool_decide_eq_false_2 by (intros ->; done).
  replace (ne (byte_at a 0) 45) with true; [apply once_verdict|].
  symmetry. apply negb_true_iff. by apply Z.eqb_neq.
Qed.

Definition demo_env : ut_env :=
  mkEnv 10 7 7 (fun _ => []) [] [] 0x4000 demo_prog demo_start.

(** The test [mem] alone: it exits with status 1, and no page is lost. *)
Lemma usertests_verdict_witness :
  length (selected (Some (lit "mem")) (tests demo_env)) = 1%nat /\
  exists w, wrun parent (ut_main demo_env (lit "usertests" :: option_list (Some (lit "mem"))))
    (mkPw [] [repeat [120] 3%nat; repeat [120] 3%nat] (0 :: [1] ++ [0]) []) = Some (inr 1, w) /\
  pw_out w = lit "usertests starting" ++ nl ++ lit "test mem: FAILED" ++ nl ++
    lit "SOME TESTS FAILED" ++ nl.
Proof.
  split; [vm_compute; reflexivity|].
  destruct (usertests_verdict demo_env (lit "usertests") (Some (lit "mem")) 3 3 0 0 [1])
    as (w & Hw & Ho).
  - vm_compute. discriminate.
  - vm_compute. reflexivity.
  - constructor; [unfold is_int; lia|constructor].
  - apply Nat.ltb_lt. vm_compute. reflexivity.
  - apply Nat.ltb_lt. vm_compute. reflexivity.
  - unfold is_int. lia.
  - unfold is_int. lia.
  - exists w. split; [exact Hw|]. rewrite Ho. vm_compute. reflexivity.
Defined.

(** ** [pipe1] *)

(** Bytes that count up from [n], modulo 256. *)
Fixpoint counts (n : Z) (l : list Z) : bool :=
  match l with [] => true | x :: l' => (Z.land x 255 =? Z.land n 255) && counts (n + 1) l' end.

Lemma counts_app l l' n : counts n (l ++ l') = counts n l && counts (n + Z.of_nat (length l)) l'.
Proof.
  revert n. induction l as [|x l IH]; intros n; simpl; [by rewrite Z.add_0_r|].
  rewrite IH, andb_assoc. do 2 f_equal. lia.
Qed.

Lemma pipe1_match_counts l rest n : pipe1_match (l ++ rest) n (Z.of_nat (length l)) = counts n l.
Proof.
  revert rest. induction l as [|x l IH] using rev_ind; intros rest; [done|]. unfold pipe1_match in *.
  rewrite length_app, Nat.add_1_r, seqZ_S, forallb_app, <- app_assoc, IH, counts_app.
  f_equal. cbn [forallb counts]. rewrite Z.add_0_l, Nat2Z.id. unfold byte_at.
  by rewrite app_nth2, Nat.sub_diag by lia.
Qed.

(** The reading loop, for any way the data is cut into pieces. *)
Lemma pipe1_loop fuel s fd pieces : forall buf n total cc ps l o,
  (length pieces < fuel)%nat -> Forall (fun p => p <> []) pieces ->
  exists o', wrun parent (ploop fuel (pipe1_read s fd) (mkP1 buf n total cc)) (mkPw pieces ps l o) =
    Some (inl (if counts n (concat pieces) then Some (total + Z.of_nat (length (concat pieces))) else None), o') /\
    (counts n (concat pieces) = true -> o' = mkPw [] ps l o).
Proof.
  revert pieces. induction fuel as [|fuel IH]; intros pieces buf n total cc ps l o Hf Hp; [lia|].
  rewrite wrun_ploop. destruct pieces as [|p pieces]; [eexists; split; [simpl; by rewrite Z.add_0_r|done]|].
  apply Forall_cons in Hp as [Hne Hp]. simpl in Hf. unfold pipe1_read at 1. rewrite wrun_bind.
  cbn [wrun sys parent pw_in fst snd p1_cc p1_buf p1_seq p1_total].
  rewrite (proj2 (Z.leb_gt _ _)) by (destruct p; [done|simpl; lia]).
  unfold fill at 1. rewrite pipe1_match_counts. cbn [concat]. rewrite counts_app.
  destruct (counts n p); cbn [andb].
  - cbn [wrun mret prog_ret]. edestruct IH as (o' & -> & Ho); [|done|]; [lia|].
    eexists. split; [|done]. rewrite length_app, Nat2Z.inj_add, Z.add_assoc. done.
  - rewrite wrun_bind, wrun_printf. by eexists.
Qed.

(** C39: the process of the test [pipe1], for any pieces in which the data
    arrives: when the bytes count up it exits with the status of the child, or
    with 1 if their number is wrong; but when a byte is wrong the test returns,
    so that its process exits with 0 and the test is reported as passed. *)
Theorem pipe1_verdict fuel str_at junk junk2 s pieces st :
  (length pieces < fuel)%nat -> Forall (fun p => p <> []) pieces -> is_int st ->
  exists w, wrun parent (pipe1 fuel str_at junk junk2 s;; exit 0 : prog unit) (mkPw [] [pieces] [st] []) =
    Some (inr (if negb (counts 0 (concat pieces)) then 0 else
               if Z.of_nat (length (concat pieces)) =? PIPE_N * PIPE_SZ then st else 1), w).
Proof.
  intros Hf Hp Hst. unfold pipe1. rewrite !wrun_bind.
  cbn -[ploop pipe1_read fail_if PIPE_N PIPE_SZ wait_status Z.mul lit buf0]. rewrite !wrun_bind.
  edestruct pipe1_loop as (o' & -> & Ho); [done|done|]. rewrite Z.add_0_l.
  destruct (counts 0 (concat pieces)); [|by eexists]. rewrite Ho by done. unfold ne. cbn [negb].
  destruct (_ =? PIPE_N * PIPE_SZ); cbn [negb].
  - rewrite wrun_fail_if. cbn [wrun parent fst snd]. rewrite wrun_bind, wait_status_parent by done. by eexists.
  - rewrite wrun_bind. unfold fail_if, fail. rewrite wrun_bind, wrun_printf. by eexists.
Qed.

(** A first byte that is wrong. *)
Lemma pipe1_verdict_witness :
  exists w, wrun parent (pipe1 2 (fun _ => []) 7 7 (lit "pipe1");; exit 0 : prog unit)
    (mkPw [] [[[1]]] [0] []) =
    Some (inr (if negb (counts 0 (concat [[1]])) then 0 else
               if Z.of_nat (length (concat [[1]])) =? PIPE_N * PIPE_SZ then 0 else 1), w).
Proof.
  apply (pipe1_verdict 2 (fun _ => []) 7 7 (lit "pipe1") [[1]] 0).
  - simpl. lia.
  - repeat constructor. discriminate.
  - unfold is_int. lia.
Defined.
